(* ===== verification/_CoqProject ===== *)
-Q . S2P
Prelude.v
Types.v
Codec.v
Bytes.v
L1Chain.v
EnclaveDB.v
BatchDB.v
Events.v
Storage.v
StorageInv.v
StorageOps.v
StorageSpec.v
StorageTheorems.v
CrossChain.v
BlockProcessor.v
Reads.v
Executor.v
ExecutorSpec.v
Growth.v
Mempool.v
Registry.v
Params.v
L2Chain.v
RollupCompression.v
RollupSpec.v
Rollups.v
Sequencer.v
Validator.v
SequencerSpec.v
Replay.v
ViewingKeys.v
Subscriptions.v
Service.v
RPC.v
NodeInv.v
RPCSpec.v
GasSpec.v
ServiceInv.v
ServiceSpec.v
Recovery.v
HostDB.v
HostDBSpec.v
Retry.v
P2P.v
StateTracker.v
Converters.v
EnclaveRPC.v
BatchRepository.v
L1Repository.v
Publisher.v
Guardian.v
HostAPI.v
EncClient.v
EncClientSpec.v
AccountManager.v
WalletExtension.v
GatewaySpec.v
GuardianSpec.v
Concrete.v
Scenario.v
Witnesses.v
NodeWitnesses.v
HistoryWitnesses.v
ServiceWitnesses.v
HostWitnesses.v
GuardianWitnesses.v
GatewayWitnesses.v
Solidity.v
MessageBusContract.v
ContractCalls.v
L1Contracts.v
L2Contracts.v
ContractsSpec.v
ManagementSpec.v
BridgeFlow.v
L1BridgeSpec.v
L2BridgeSpec.v
BridgeSystem.v
ContractConcrete.v
ContractWitnesses.v
