(* ===== verification/Prelude.v ===== *)
(** * Verification of the Obscuro node

    A model of the L2 node of [go-obscuro], of the contracts it works with and of the
    gateway its users connect to, and the theorems that make them correct.  Paths are
    under [src/go] unless they begin with [contracts], which is [src/contracts/src],
    or with [walletextension], which is [src/tools/walletextension].

    ** The program

    A node is a host, which talks to the L1 chain and to other nodes, and an
    enclave, which holds the secret of the network and the L2 state.  The enclave
    processes L1 blocks: it stores the block and its cross-chain messages,
    follows forks of the L1 chain, answers requests for the secret and restores
    the batches of the rollups in the block.  A sequencer turns the
    transactions of its mempool into batches, each tied to an L1 block, and
    batches into rollups; a validator executes the batches it receives and
    compares the result.  Users sign viewing keys, under which the enclave
    encrypts its answers and the logs they subscribe to.  A gateway, the wallet
    extension, holds the viewing keys of users, and asks a host on their behalf.
    Contracts on L1 and L2 pass messages between the chains; a bridge on each side
    moves assets with them, and the management contract keeps the rollups and the
    attested enclaves.  This library models the enclave, from its database to the
    service it offers the host and the users, the RPC boundary between the two halves
    of a node, and of the host its database, its repositories of blocks and batches,
    its messages to peers, its transactions to L1, the guardian that feeds the
    enclave, and the API for clients; the client with a viewing key and the gateway;
    and the contracts.

    ** Files and code

    - [Prelude]: machine integers with their wrap-around, Go's errors, the state
      and error monad [M] ([Crash] is a panic or a [logger.Crit], which ends the
      process), tables as finite maps.
    - [Types]: [common/types.go], [headers.go], [batches.go],
      [rollups.go], [enclave/core].  A [Batch] caches its hash as the code
      does; [Batch.hash_ok] says the cache is not stale.
    - [Codec]: RLP as a class of encodings, [big.Int]'s gob format, the data
      encryption service.
    - [L1Chain]: [common/gethutil], the ancestor walks of [storage.go] and of
      [rollup_compression.go], over an interface [BlockResolver];
      [StorageTheorems] states what they compute.
    - [EnclaveDB], [BatchDB], [Events]: [enclave/storage/enclavedb], the schema
      of [enclave/storage/init/sqlite], and the log filter of
      [enclave/events/subscription_manager.go].
    - [Storage]: [enclave/storage/storage.go], with the cache that batches and
      blocks share.  [StorageInv] gives its abstract content, [blocks] and
      [batches], and the invariant [storage_ok]; [StorageOps] and [StorageSpec]
      relate the operations to the content; [StorageTheorems] has the contract.
    - [CrossChain]: [enclave/crosschain].
    - [BlockProcessor]: [enclave/components/block_processor.go], with the step
      relation [storage_step] and the invariants of the states it reaches.
    - [Executor], [ExecutorSpec]: [enclave/components/batch_executor.go],
      [enclave/evm], [enclave/genesis], the entropy of [enclave/crypto].
      [Reads] is the logic of computations that only read the storage: it
      relates two runs on storages with the same content and different caches;
      [Growth] relates a run on a storage with one on a larger storage.
    - [Mempool]: [enclave/mempool] and [enclave/limiters].
    - [Registry]: [enclave/components/batch_registry.go], and the state [Enclave]
      the components of a node share.
    - [RollupCompression], [RollupSpec]: [rollup_compression.go]; [Replay] follows
      a node that executes what a rollup restores.
    - [Rollups]: [rollup_producer.go], [rollup_consumer.go], [sigverifier.go],
      [shared_secret_process.go], [attestation.go], and the decoding of
      [ethadapter/mgmtcontractlib].
    - [Sequencer], [SequencerSpec] and [Validator]: [enclave/nodetype].
    - [ViewingKeys]: [common/viewingkey] and [enclave/vkhandler];
      [Subscriptions]: the subscriptions of [subscription_manager.go].
    - [Service]: [enclave/enclave.go], the state [Service] of an enclave and the
      handlers that change it, and the restart.  [NodeInv] and [ServiceInv] carry
      an invariant through all of them, over the step relation [service_step];
      [ServiceSpec] follows a validator through the batches of a sequencer;
      [Recovery] is about lost states.
    - [Params]: [common/gethencoding], requests as JSON values;
      [L2Chain]: [enclave/l2chain], [ExecuteObsCall], [common/gethapi]; [RPC]:
      [responses], [rpc_transaction.go] and the handlers of [enclave.go] that
      answer users; [RPCSpec] and [GasSpec] say what they answer.
    - [Bytes]: numbers, hashes and addresses as bytes, and the batches of the wire.
    - [HostDB], [HostDBSpec]: [host/db], a key-value store, and the history it
      implements.
    - [Converters]: [common/rpc/converters.go]; [EnclaveRPC]:
      [enclave/rpc_server.go] and [host/rpc/enclaverpc/enclave_client.go] over an
      interface [EnclaveAPI] ([common.Enclave]), which the service implements
      and the client offers again.
    - [StateTracker]: [host/enclave/state.go]; [Retry]: [common/retry]; [P2P]:
      [host/p2p] and [common/subscription].  What code starts with [go] is a list
      in the state.
    - [BatchRepository]: [host/l2]; [L1Repository]: [host/l1/blockrepository.go] over
      an interface [EthClient]; [Publisher]: [host/l1/publisher.go], the calls that
      [ethadapter/mgmtcontractlib] creates and the nonce of [wallet].
    - [Guardian], [GuardianSpec]: [host/enclave/guardian.go], over any [EnclaveAPI],
      and composed with the RPC client, the service and the repository.
    - [HostAPI]: [host/rpc/clientapi], [host/host.go], [host/enclave/service.go] and
      [host/events/logs.go], what a client can ask a host.
    - [EncClient]: [rpc/encrypted_client.go] over an interface [Client];
      [EncClientSpec] implements the interface by the host, and shows that it keeps
      the promise [HostPromise] that the gateway relies on.
    - [AccountManager]: [walletextension/accountmanager] and [useraccountmanager];
      [WalletExtension]: [walletextension/wallet_extension.go], its start, its
      database and its HTTP handlers; [GatewaySpec]: what its users are shown and what
      a restart brings back, over the step relations [gateway_step] and
      [orderly_step].
    - [Solidity]: reverts, checked arithmetic and OpenZeppelin; [MessageBusContract],
      [ContractCalls]: [contracts/messaging], and calls between contracts with those
      outside the repository as arbitrary scripts; [L1Contracts]:
      [contracts/management] and [contracts/bridge/L1]; [L2Contracts]:
      [contracts/bridge/L2] and the tokens of [contracts/common].
    - [ContractsSpec], [ManagementSpec]: messages and the management contract;
      [BridgeFlow], [L1BridgeSpec], [L2BridgeSpec], [BridgeSystem]: the two bridges,
      first each by itself and then linked by the messages of the node.
    - [Concrete], [Scenario], [Witnesses], [NodeWitnesses], [HistoryWitnesses],
      [ServiceWitnesses], [HostWitnesses], [GuardianWitnesses], [GatewayWitnesses],
      [ContractConcrete], [ContractWitnesses]: instances of every interface, a small
      node, gateway and pair of chains over them, and each theorem applied to it.

    ** What is shown

    - Sequencer: a new batch extends the head, takes its transactions from the
      mempool and becomes the head.
    - Execution: computing a batch is deterministic; a validator accepts what a
      sequencer computed if no transaction was left out, and accepts nothing with
      another header; two examples show where transactions left out of a batch defeat
      this.  The theorems below that let another node execute a batch, and the one on
      recovery, assume that the batch computes to itself on its parent, which is so if
      no transaction was left out of it.
    - Validator: batches are executed after their parents only; sent the batches
      of a sequencer in order, a validator with their history and with their L1
      blocks on its chain ends with each of them executed and with the same states.
    - Service: one invariant on tables, canonical flags and subscriptions holds
      whatever is asked, in any order, across failures, crashes and restarts, as long
      as blocks and batches are well formed where the code does not check it; a
      restart recovers the states that were lost.
    - Requests of users: answers are encrypted under keys of the account they
      belong to and disclose data of this account only, but for the query for
      receipts, which gives all their logs; a gas estimate terminates and is least; a
      call message has one meaning.
    - L1 chain: forks are resolved at the latest common ancestor; in every
      reachable state the canonical flags are those of the head's chain.
    - Storage: what is stored is read back; conflicts change nothing.
    - Rollups: what is compressed is restored; only signed rollups are
      processed, and a node that has the history before a rollup and none of its
      batches processes it without an error and ends with the batches of the
      sequencer.  Secrets go only to attested enclaves.
    - Mempool and registry: what is selected, and that enough is.
    - Messages and logs: which are delivered, and to whom.  Whose a log is depends on
      the logs stored before it, so the theorem on queries carries their history.
    - RPC boundary: the client gives what the enclave answers, where the messages
      carry it; which fields, rejections and lookups they do not.
    - Host: the database answers as a history of what was added; the status of
      the enclave says whether both its heads are caught up with; retrying ends; the
      next L1 block extends the canonical chain; missing batches are recovered from
      the sequencer; a validator behind its host catches up and is live; a failed
      fetch of receipts blocks the guardian.
    - Gateway: whatever happened before, a user is shown only the answer of the
      enclave to the user's own request, for an account that signed for a key of this
      user; a user that registers an account is answered
      with its balance, through gateway, host, RPC and enclave; a restart brings
      back the same users and accounts if the host and the database do not fail; the
      default user and a failed connection are where this goes wrong.
    - Contracts: a message is relayed once, and only if it was stored and is final;
      messages are numbered without gaps; as long as the messages stored on a chain
      were published on the other, the bridge on L1 holds what the tokens on L2 stand
      for, and pays every final claim of a listed token; what the management contract keeps, and
      what anyone can make it accept.
    - Error paths: the panics and divergences found while modelling.

    ** Parameters

    Code outside the repository is an argument of the definitions, as a class:
    RLP and gob at the stored types, hashing ([HashingOk]: no collisions), the
    byte cache ([CacheOk]: it may forget, never invent), go-ethereum's EVM and
    state ([EVMOk]), ECDSA, ECIES, AES-GCM and brotli, the JSON of clients
    ([ClientCodecsOk]: text and answers come back, parameters as [keptJSON] says), the contract ABIs, OpenZeppelin's
    contracts ([OwnableOk], [AccessControlOk], [ERC20Ok]), and the attestation of the
    enclave runtime.  The iteration order of a Go map is
    quantified.  The clock is an argument.  The SQL semantics of the
    statements the code executes is written out: primary, unique and foreign
    keys, and the refusal of 64-bit values with the high bit set.

    ** Fuel

    Recursion along the L1 chain ([LCA], [IsAncestor], the message and ancestor
    walks) takes fuel.  A bound on the block heights is enough, since each step
    goes to a parent; the theorems state the bound and conclude that the result
    is reached.  The loop of [BatchesAfter] takes the number of batches, and the
    walk of [restoreStateDBCache] the height of the head.  The search of
    [DoEstimateGas] halves a range below [GlobalGasCap]: 34 turns are enough.
    A retry takes the number of calls its strategy allows ([retry_ends]); the walk
    of [FetchNextBlock] the height of the block; the loop of [catchupWithL2] one
    turn for each batch and one to end.  [publishTransaction] and [catchupWithL1] go
    on as long as L1 does not answer or grows: their fuel has no bound.  The walk of
    [GetLatestTransactions] takes one turn for each batch.  Calls between contracts
    nest 1024 deep, the limit of the EVM.

    ** Not modelled

    Of the host the start-up, the debug and test APIs, the opening of sockets, streams
    and databases, and the stopping of the guardian; of the enclave the debug handlers
    and the wiring in [NewEnclave]; of the gateway its servers and web sockets, and
    the goroutines that forward messages to them; gas and the deployment of
    contracts; the encoding of protocol buffers; configuration, the faucet, explorers
    and launchers.  These are input and output, start-up, or code the build generates.
    Logging and metrics have no effect on the results.  Requests to an enclave are
    steps that do not overlap, and so are the steps of a guardian and the requests to a
    gateway; of the mutexes only the one the guardian can fail to release is
    modelled. *)

From stdpp Require Export base numbers list gmap strings sorting.
From Stdlib Require Export ZArith Lia.

#[export] Set Default Goal Selector "!".

(** ** Machine integers

    Go's fixed-width integers are kept as [Z] and every operation that can
    leave the range of its type is followed by the wrap-around of that
    type. *)

Module Int.
Local Open Scope Z_scope.

(** The number of values of a 64-bit word. *)
Definition two64 : Z := 2 ^ 64.

(** Conversion to [uint64]: keep the low 64 bits. *)
Definition u64 (x : Z) : Z := x mod two64.

(** Conversion to [int64]: keep the low 64 bits, read in two's complement. *)
Definition i64 (x : Z) : Z :=
  let r := x mod two64 in if r <? 2 ^ 63 then r else r - two64.

(** The values a [uint64] variable can hold. *)
Definition is_u64 (x : Z) : Prop := 0 <= x < two64.

(** The values an [int64] variable can hold. *)
Definition is_i64 (x : Z) : Prop := - 2 ^ 63 <= x < 2 ^ 63.

Lemma u64_range x : is_u64 (u64 x).
Proof. unfold is_u64, u64. apply Z.mod_pos_bound. reflexivity. Qed.

Lemma i64_range x : is_i64 (i64 x).
Proof.
  unfold is_i64, i64. pose proof (Z.mod_pos_bound x two64 eq_refl) as Hb.
  unfold two64 in *. case_match eqn:E; [apply Z.ltb_lt in E | apply Z.ltb_ge in E]; lia.
Qed.

Lemma u64_id x : is_u64 x → u64 x = x.
Proof. intros ?. by apply Z.mod_small. Qed.

Lemma i64_id x : is_i64 x → i64 x = x.
Proof.
  unfold is_i64, i64. intros Hx.
  destruct (Z_lt_le_dec x 0).
  - rewrite <-(Zmod_unique x two64 (-1) (x + two64)) by (unfold two64; lia).
    rewrite (proj2 (Z.ltb_ge _ _)); unfold two64; lia.
  - rewrite Z.mod_small by (unfold two64; lia).
    by rewrite (proj2 (Z.ltb_lt _ _)) by lia.
Qed.

(** Every conversion is a representative of the same class modulo [2^64]. *)
Lemma i64_mod x : i64 x mod two64 = x mod two64.
Proof.
  unfold i64. case_match.
  - by rewrite Z.mod_mod.
  - replace (x mod two64 - two64) with (x mod two64 + (-1) * two64) by lia.
    by rewrite Z.mod_add, Z.mod_mod.
Qed.

Lemma i64_eq_mod x y : x mod two64 = y mod two64 → i64 x = i64 y.
Proof. unfold i64. by intros ->. Qed.

Lemma i64_i64 x : i64 (i64 x) = i64 x.
Proof. apply i64_eq_mod, i64_mod. Qed.

Lemma u64_i64 x : u64 (i64 x) = u64 x.
Proof. apply i64_mod. Qed.

Lemma i64_u64 x : i64 (u64 x) = i64 x.
Proof. apply i64_eq_mod. unfold u64. by rewrite Z.mod_mod. Qed.

(** Wrapping an operand of an addition or a subtraction early is harmless. *)
Lemma i64_add_l x y : i64 (i64 x + y) = i64 (x + y).
Proof. apply i64_eq_mod. by rewrite Z.add_mod, i64_mod, <-Z.add_mod. Qed.

Lemma i64_add_r x y : i64 (x + i64 y) = i64 (x + y).
Proof. rewrite Z.add_comm, i64_add_l. f_equal. lia. Qed.

Lemma i64_add_u64 x y : i64 (x + u64 y) = i64 (x + y).
Proof. by rewrite <-i64_add_r, i64_u64, i64_add_r. Qed.

Lemma i64_sub_l x y : i64 (i64 x - y) = i64 (x - y).
Proof. apply i64_eq_mod. by rewrite Zminus_mod, i64_mod, <-Zminus_mod. Qed.

Lemma i64_sub_r x y : i64 (x - i64 y) = i64 (x - y).
Proof. apply i64_eq_mod. by rewrite Zminus_mod, i64_mod, <-Zminus_mod. Qed.

Lemma i64_sub_add x y : i64 (i64 (x - y) + i64 y) = i64 x.
Proof. rewrite i64_add_l, i64_add_r. f_equal. lia. Qed.
End Int.

Create HintDb go.
Create Rewrite HintDb go_int.
#[export] Hint Resolve Int.u64_range Int.i64_range : go.
#[export] Hint Rewrite Int.i64_i64 Int.u64_i64 Int.i64_u64 Int.i64_add_l
  Int.i64_add_r Int.i64_add_u64 Int.i64_sub_l Int.i64_sub_r Int.i64_sub_add : go_int.

(** ** Errors

    The sentinel errors the code compares against with [errors.Is], the
    anonymous errors of [errors.New]/[fmt.Errorf], and wrapping with [%w]. *)

Inductive GoError :=
  | ErrNotFound
  | ErrAlreadyExists
  | ErrNoImpl
  | ErrBlockAlreadyProcessed
  | ErrBlockAncestorNotFound
  | ErrBlockForBatchNotFound
  | ErrAncestorBatchNotFound
  | ErrInsufficientSpace
  | ErrFailedToEncode
  | ErrNoNextBlock
  | ErrNilResponse
  | ErrMsg (msg : string)
  | ErrWrap (msg : string) (cause : GoError)
  (** [*syserr.InternalError] around an error, and the value
      [syserr.InternalError{}] *)
  | ErrInternal (cause : GoError)
  | ErrInternalValue
  (** [*syserr.RPCError] and [*retry.FailFastError] around an error *)
  | ErrRPC (cause : GoError)
  | ErrFailFast (wrapped : GoError)
  (** [errutil.BlockRejectError] *)
  | ErrBlockReject (l1Head : Z) (wrapped : GoError)
  (** the errors of the EVM, [errutil.EVMSerialisableError] and the
      [revertError] of a gas estimate *)
  | ErrIntrinsicGas
  | ErrOutOfGas
  | ErrExecutionReverted
  | ErrEVM (msg : string) (reason : option string) (code : Z)
  | ErrRevert (msg reason : string).

#[export] Instance GoError_eq_dec : EqDecision GoError.
Proof. solve_decision. Defined.

(** The text of an error: the values formatted into the messages are left out. *)
Fixpoint err_text (err : GoError) : string :=
  match err with
  | ErrNotFound => "not found"
  | ErrAlreadyExists => "already exists"
  | ErrNoImpl => "not implemented"
  | ErrBlockAlreadyProcessed => "block already processed"
  | ErrBlockAncestorNotFound => "block ancestor not found"
  | ErrBlockForBatchNotFound => "block for batch not found"
  | ErrAncestorBatchNotFound => "parent for batch not found"
  | ErrInsufficientSpace => "insufficient space in BatchSizeLimiter"
  | ErrFailedToEncode => "failed to encode data"
  | ErrNoNextBlock => "no next block"
  | ErrNilResponse => "nil response received from Obscuro node"
  | ErrMsg msg => msg
  | ErrWrap msg cause => msg ++ " " ++ err_text cause
  | ErrInternal cause => err_text cause
  | ErrInternalValue => ""
  | ErrRPC cause => err_text cause
  | ErrFailFast wrapped => err_text wrapped
  | ErrBlockReject _ wrapped => err_text wrapped ++ " l1Head="
  | ErrIntrinsicGas => "intrinsic gas too low"
  | ErrOutOfGas => "out of gas"
  | ErrExecutionReverted => "execution reverted"
  | ErrEVM msg _ _ | ErrRevert msg _ => msg
  end.

(** [strings.Contains] *)
Definition contains (s sub : string) : bool :=
  match String.index 0 sub s with Some _ => true | None => false end.

(** [errors.Is]: the error or one of the errors it wraps is the target.  The
    [Is] method of an internal or RPC error accepts any pointer to one; that of a
    rejected block looks for the text of the target in its own. *)
Fixpoint errors_Is (err target : GoError) : bool :=
  bool_decide (err = target) ||
  match err with
  | ErrWrap _ cause => errors_Is cause target
  | ErrInternal cause => match target with ErrInternal _ => true | _ => errors_Is cause target end
  | ErrRPC cause => match target with ErrRPC _ => true | _ => errors_Is cause target end
  | ErrFailFast wrapped => errors_Is wrapped target
  | ErrBlockReject _ wrapped => contains (err_text err) (err_text target) || errors_Is wrapped target
  | _ => false
  end.

Lemma errors_Is_refl e : errors_Is e e = true.
Proof. destruct e; cbn [errors_Is]; by rewrite bool_decide_true. Qed.

Lemma errors_Is_wrap msg e t : errors_Is e t = true → errors_Is (ErrWrap msg e) t = true.
Proof. cbn [errors_Is]. intros ->. apply orb_true_r. Qed.

(** ** Fallible, stateful code

    A Go function that reads and writes the state [St], returns a value or an
    error, and may terminate the process ([logger.Crit], [panic], a nil
    dereference or an index out of range) is a function of type [M St A].  The
    state reached is returned in every case: a Go function that fails after a
    write leaves the write behind. *)

Inductive result (A : Type) :=
  | Ok (a : A)
  | Err (e : GoError)
  | Crash (msg : string).
Arguments Ok {A} a.
Arguments Err {A} e.
Arguments Crash {A} msg.

#[export] Instance result_eq_dec `{EqDecision A} : EqDecision (result A).
Proof. solve_decision. Defined.

(** Code that reads no state: errors and crashes end it. *)
#[export] Instance result_ret : MRet result := λ A a, Ok a.
#[export] Instance result_bind : MBind result := λ A B f r,
  match r with
  | Ok a => f a
  | Err e => Err e
  | Crash msg => Crash msg
  end.

(** [for _, x := range l { y, err := f(x); ...; ys = append(ys, y) }] *)
Fixpoint mapR {A B} (f : A → result B) (l : list A) : result (list B) :=
  match l with
  | [] => Ok []
  | x :: l => y ← f x; ys ← mapR f l; Ok (y :: ys)
  end.

Lemma mapR_Ok {A B} (f : A → result B) l ys : mapR f l = Ok ys ↔ Forall2 (λ x y, f x = Ok y) l ys.
Proof.
  revert ys. induction l as [|x l IH]; intros ys; simpl.
  { split; [by intros [= <-] | by inversion 1]. }
  split.
  - destruct (f x) as [y|e|c] eqn:Hx; simpl; [|done..].
    destruct (mapR f l) as [ys'|e|c]; simpl; [|done..].
    intros [= <-]. constructor; [done|]. by apply IH.
  - inversion 1 as [|? y ? ys0 Hy Hys]; subst. apply IH in Hys. rewrite Hy. simpl. by rewrite Hys.
Qed.

Definition M (St A : Type) : Type := St → St * result A.

#[export] Instance M_ret {St} : MRet (M St) := λ A a s, (s, Ok a).
#[export] Instance M_bind {St} : MBind (M St) := λ A B f m s,
  match m s with
  | (s', Ok a) => f a s'
  | (s', Err e) => (s', Err e)
  | (s', Crash msg) => (s', Crash msg)
  end.

Definition fail {St A} (e : GoError) : M St A := λ s, (s, Err e).
Definition crash {St A} (msg : string) : M St A := λ s, (s, Crash msg).
Definition gets {St A} (f : St → A) : M St A := λ s, (s, Ok (f s)).
Definition modify {St} (f : St → St) : M St unit := λ s, (f s, Ok tt).
Definition lift {St A} (r : result A) : M St A := λ s, (s, r).

(** A call whose error is inspected by the caller: [v, err := f()]. *)
Definition try {St A} (m : M St A) : M St (A + GoError) := λ s,
  match m s with
  | (s', Ok a) => (s', Ok (inl a))
  | (s', Err e) => (s', Ok (inr e))
  | (s', Crash msg) => (s', Crash msg)
  end.

(** [fmt.Errorf("... %w", err)] around the error of a call. *)
Definition wrap {St A} (msg : string) (m : M St A) : M St A := λ s,
  match m s with
  | (s', Err e) => (s', Err (ErrWrap msg e))
  | r => r
  end.

(** [fmt.Errorf] around the error of pure code. *)
Definition wrapR {A} (msg : string) (r : result A) : result A :=
  match r with Err e => Err (ErrWrap msg e) | r => r end.

(** A lookup whose absence is the given error. *)
Definition of_option {A} (e : GoError) (o : option A) : result A :=
  match o with Some a => Ok a | None => Err e end.

Definition when {St} (b : bool) (m : M St unit) : M St unit := if b then m else mret tt.

(** [for _, x := range l]: stop at the first error. *)
Fixpoint forM {St A} (l : list A) (f : A → M St unit) : M St unit :=
  match l with
  | [] => mret tt
  | x :: l' => _ ← f x; forM l' f
  end.

Definition is_ok {A} (r : result A) : Prop := match r with Ok _ => True | _ => False end.

(** The state part of a component embedded in a larger state. *)
Definition zoom {St T A} (get : St → T) (put : T → St → St) (m : M T A) : M St A := λ s,
  let '(t, r) := m (get s) in (put t s, r).

Section monad.
Context {St : Type}.
Implicit Types (s : St).

Lemma bind_Ok {A B} (m : M St A) (f : A → M St B) s s' b :
  (m ≫= f) s = (s', Ok b) ↔ ∃ s1 a, m s = (s1, Ok a) ∧ f a s1 = (s', Ok b).
Proof.
  unfold mbind, M_bind. destruct (m s) as [s1 [a|e|c]]; split; [eauto|..];
    by (intros (?&?&?&?) || intros ?; simplify_eq).
Qed.

Lemma wrap_Ok {A} msg (m : M St A) s s' a : wrap msg m s = (s', Ok a) ↔ m s = (s', Ok a).
Proof. unfold wrap. by destruct (m s) as [? [?|?|?]]. Qed.

Lemma bind_eq {A B} (m : M St A) (f : A → M St B) s s1 a :
  m s = (s1, Ok a) → (m ≫= f) s = f a s1.
Proof. unfold mbind, M_bind. by intros ->. Qed.

Lemma bind_err {A B} (m : M St A) (f : A → M St B) s s1 e :
  m s = (s1, Err e) → (m ≫= f) s = (s1, Err e).
Proof. unfold mbind, M_bind. by intros ->. Qed.

Lemma bind_assoc {A B C} (m : M St A) (f : A → M St B) (g : B → M St C) s :
  ((m ≫= f) ≫= g) s = (m ≫= (λ a, f a ≫= g)) s.
Proof. unfold mbind, M_bind. by destruct (m s) as [s1 [a|e|c]]. Qed.

(** *** Invariants of computations *)

(** [m] keeps [I], whether it succeeds, fails or crashes. *)
Definition preserves {A} (I : St → Prop) (m : M St A) : Prop := ∀ s, I s → I (m s).1.

(** [m] leaves the observation [f] of the state as it was. *)
Definition observes {A T} (f : St → T) (m : M St A) : Prop := ∀ s, f (m s).1 = f s.

Lemma preserves_ret {A} I (a : A) : preserves I (mret a).
Proof. by intros s. Qed.
Lemma preserves_fail {A} I e : preserves I (fail (A:=A) e).
Proof. by intros s. Qed.
Lemma preserves_crash {A} I c : preserves I (crash (A:=A) c).
Proof. by intros s. Qed.
Lemma preserves_gets {A} I (f : St → A) : preserves I (gets f).
Proof. by intros s. Qed.
Lemma preserves_lift {A} I (r : result A) : preserves I (lift r).
Proof. by intros s. Qed.
Lemma preserves_modify I (f : St → St) : (∀ s, I s → I (f s)) → preserves I (modify f).
Proof. intros H s. apply H. Qed.

Lemma preserves_bind {A B} I (m : M St A) (f : A → M St B) :
  preserves I m → (∀ a, preserves I (f a)) → preserves I (m ≫= f).
Proof.
  intros Hm Hf s Hs. unfold mbind, M_bind. specialize (Hm s Hs).
  destruct (m s) as [s1 [a|e|c]]; simpl in *; [by apply Hf | done | done].
Qed.

Lemma preserves_try {A} I (m : M St A) : preserves I m → preserves I (try m).
Proof.
  intros Hm s Hs. unfold try. specialize (Hm s Hs). by destruct (m s) as [s1 [a|e|c]].
Qed.

Lemma preserves_wrap {A} I msg (m : M St A) : preserves I m → preserves I (wrap msg m).
Proof.
  intros Hm s Hs. unfold wrap. specialize (Hm s Hs). by destruct (m s) as [s1 [a|e|c]].
Qed.

Lemma preserves_when I b (m : M St unit) : preserves I m → preserves I (when b m).
Proof. destruct b; [done|]. intros _. apply preserves_ret. Qed.

Lemma preserves_forM {A} I (l : list A) f :
  (∀ x, x ∈ l → preserves I (f x)) → preserves I (forM l f).
Proof.
  induction l as [|x l IH]; simpl; intros Hf.
  - apply preserves_ret.
  - apply preserves_bind; [apply Hf; left|]. intros _. apply IH. intros y Hy. apply Hf. by right.
Qed.

(** *** Invariants with results *)

(** [m] keeps [I], and what it returns satisfies [Q]. *)
Definition yields {A} (I : St → Prop) (m : M St A) (Q : A → Prop) : Prop :=
  ∀ s, I s → I (m s).1 ∧ ∀ a, (m s).2 = Ok a → Q a.

Lemma yields_bind {A B} I (m : M St A) (f : A → M St B) Q :
  yields I m Q → (∀ a, Q a → preserves I (f a)) → preserves I (m ≫= f).
Proof.
  intros Hm Hf s Hs. destruct (Hm s Hs) as [Hs' HQ]. unfold mbind, M_bind.
  destruct (m s) as [s1 [a|e|c]]; cbn [fst snd] in *; [|done..]. by apply Hf; [apply HQ|].
Qed.

Lemma yields_wrap {A} I msg (m : M St A) Q : yields I m Q → yields I (wrap msg m) Q.
Proof. intros Hm s Hs. destruct (Hm s Hs) as [Hs' HQ]. unfold wrap. by destruct (m s) as [s1 [a|e|c]]. Qed.

Lemma yields_lift {A} I (r : result A) Q : (∀ a, r = Ok a → Q a) → yields I (lift r) Q.
Proof. by intros HQ s Hs. Qed.

Lemma preserves_yields {A} I (m : M St A) : preserves I m → yields I m (λ _, True).
Proof. intros Hm s Hs. by split; [apply Hm|]. Qed.

(** The same for the result of the whole. *)
Lemma yields_ret {A} I (a : A) (Q : A → Prop) : Q a → yields I (mret a) Q.
Proof. intros Ha s Hs. split; [done|]. by intros ? [= <-]. Qed.
Lemma yields_fail {A} I err (Q : A → Prop) : yields I (fail err) Q.
Proof. by intros s Hs. Qed.
Lemma yields_crash {A} I c (Q : A → Prop) : yields I (crash c) Q.
Proof. by intros s Hs. Qed.

Lemma yields_seq {A B} I (m : M St A) (f : A → M St B) P (Q : B → Prop) :
  yields I m P → (∀ a, P a → yields I (f a) Q) → yields I (m ≫= f) Q.
Proof.
  intros Hm Hf s Hs. destruct (Hm s Hs) as [Hs1 HP]. unfold mbind, M_bind.
  destruct (m s) as [s1 [a|e|c]]; [|by split..]. by apply (Hf a (HP a eq_refl)).
Qed.

Lemma yields_try {A} I (m : M St A) P :
  yields I m P → yields I (try m) (λ r, match r with inl a => P a | inr _ => True end).
Proof.
  intros Hm s Hs. destruct (Hm s Hs) as [Hs1 HP]. unfold try.
  destruct (m s) as [s1 [a|e|c]]; (split; [done|]); intros ? [= <-]; [|done]. by apply HP.
Qed.

Lemma yields_mono {A} I (m : M St A) (P Q : A → Prop) : yields I m P → (∀ a, P a → Q a) → yields I m Q.
Proof. intros Hm HPQ s Hs. destruct (Hm s Hs) as [Hs1 HP]. split; [done|]. eauto. Qed.
(** A computation on a part of the state. *)
Lemma yields_zoom {T A} (get : St → T) (put : T → St → St) (I : T → Prop) (J : St → Prop) (m : M T A) (Q : A → Prop) :
  (∀ s, J s → I (get s)) → (∀ t s, J s → I t → J (put t s)) →
  (∀ t, I t → I (m t).1 ∧ ∀ a, (m t).2 = Ok a → Q a) → yields J (zoom get put m) Q.
Proof.
  intros Hget Hput Hm s Hs. destruct (Hm (get s) (Hget s Hs)) as [Ht HQ]. unfold zoom.
  destruct (m (get s)) as [t r]. split; [by apply Hput|exact HQ].
Qed.
End monad.

Arguments mret {_ _ _} _ / : assert.

#[export] Hint Resolve preserves_ret preserves_fail preserves_crash preserves_gets
  preserves_lift preserves_bind preserves_try preserves_wrap preserves_when : go.
#[export] Hint Unfold mret M_ret : go.

(** Reduce a monadic program whose head call is already evaluated. *)
Ltac m_step :=
  match goal with
  | |- context [ (?m ≫= ?f) ?s ] =>
      match goal with
      | H : m s = (_, Ok _) |- _ => rewrite (bind_eq m f s _ _ H)
      | H : m s = (_, Err _) |- _ => rewrite (bind_err m f s _ _ H)
      end
  end.

(** Unfold the plumbing of the monad everywhere. *)
Ltac m_unfold := unfold mbind, M_bind, mret, M_ret, try, wrap, gets, modify, fail, lift, when, crash in *.
Ltac m_simpl := repeat (m_unfold; simpl in *).

Ltac result_unfold := unfold mbind, result_bind, mret, result_ret in *.

(** ** SQL tables

    A table is a finite map from its primary key to its rows: inserting a key
    twice is the constraint violation the database reports, and the order of
    the rows of a query without [order by] is not specified. *)

Section sql.
Context {K : Type} `{Countable K} {R : Type}.
Implicit Types (m : gmap K R) (P : R → bool).

(** [select ... where P] *)
Definition sql_select P m : list R := filter (λ r, P r = true) (map_to_list m).*2.

(** [db.QueryRow(...).Scan(...)]: the first row, [sql.ErrNoRows] without one. *)
Definition sql_row P m : option R := head (sql_select P m).

(** [insert into]: the primary key must be free. *)
Definition sql_insert (k : K) (r : R) m : option (gmap K R) :=
  match m !! k with Some _ => None | None => Some (<[k := r]> m) end.

(** [update ... where P] *)
Definition sql_update P (f : R → R) m : gmap K R := (λ r, if P r then f r else r) <$> m.

(** [select max(f) ... where P]: [None] is SQL's [NULL]. *)
Definition sql_max P (f : R → Z) m : option Z :=
  match sql_select P m with
  | [] => None
  | r :: l => Some (foldr (λ r' a, Z.max (f r') a) (f r) l)
  end.

Lemma elem_of_sql_select P m r : r ∈ sql_select P m ↔ ∃ k, m !! k = Some r ∧ P r = true.
Proof.
  unfold sql_select. rewrite list_elem_of_filter, list_elem_of_fmap. split.
  - intros [HP ([k r'] & -> & Hk)]. apply elem_of_map_to_list in Hk. eauto.
  - intros (k & Hk & HP). split; [done|]. exists (k, r). by rewrite elem_of_map_to_list.
Qed.

Lemma sql_row_Some P m r : sql_row P m = Some r → ∃ k, m !! k = Some r ∧ P r = true.
Proof.
  unfold sql_row. intros Hr. apply elem_of_sql_select.
  destruct (sql_select P m); simplify_eq/=. by left.
Qed.

Lemma sql_row_None P m : sql_row P m = None ↔ ∀ k r, m !! k = Some r → P r = false.
Proof.
  unfold sql_row. split.
  - intros Hn k r Hk. destruct (P r) eqn:HP; [|done].
    assert (r ∈ sql_select P m) as Hin by (apply elem_of_sql_select; eauto).
    destruct (sql_select P m); [by inversion Hin | done].
  - intros Hn. destruct (sql_select P m) as [|r l] eqn:E; [done|].
    assert (r ∈ sql_select P m) as Hin by (rewrite E; left).
    apply elem_of_sql_select in Hin as (k & Hk & HP). rewrite (Hn k r Hk) in HP. done.
Qed.

(** A query that only one row can satisfy returns that row. *)
Lemma sql_row_unique P m r k :
  m !! k = Some r → P r = true →
  (∀ k' r', m !! k' = Some r' → P r' = true → r' = r) → sql_row P m = Some r.
Proof.
  intros Hk HP Huniq. destruct (sql_row P m) as [r'|] eqn:E.
  - apply sql_row_Some in E as (k' & Hk' & HP'). f_equal. eauto.
  - rewrite sql_row_None in E. rewrite (E k r Hk) in HP. done.
Qed.

Lemma sql_max_Some P f m z :
  sql_max P f m = Some z ↔
  (∃ k r, m !! k = Some r ∧ P r = true ∧ f r = z) ∧
  (∀ k r, m !! k = Some r → P r = true → (f r ≤ z)%Z).
Proof.
  assert (∀ k r, (m !! k = Some r ∧ P r = true) → r ∈ sql_select P m) as Hsel.
  { intros k r. rewrite elem_of_sql_select. eauto. }
  assert (∀ r, r ∈ sql_select P m → ∃ k, m !! k = Some r ∧ P r = true) as Hsel'.
  { intros r. by rewrite elem_of_sql_select. }
  unfold sql_max. destruct (sql_select P m) as [|r0 l].
  { split; [done|]. intros [(k & r & Hk & HP & _) _].
    specialize (Hsel k r (conj Hk HP)). by inversion Hsel. }
  assert ((∃ r, r ∈ r0 :: l ∧ f r = foldr (λ r' a, Z.max (f r') a) (f r0) l) ∧
    ∀ r, r ∈ r0 :: l → (f r ≤ foldr (λ r' a, Z.max (f r') a) (f r0) l)%Z) as [(rm & Hrm & Hfm) Hmax].
  { clear. induction l as [|r1 l [(rm & Hrm & Hfm) IH]]; simpl.
    - split; [exists r0; split; [left|done]|].
      intros r [->|Hin]%elem_of_cons; [lia|]. by inversion Hin.
    - split.
      + destruct (Z.max_spec (f r1) (foldr (λ r' a, Z.max (f r') a) (f r0) l)) as [[_ ->]|[_ ->]].
        * exists rm. split; [|done]. apply elem_of_cons in Hrm as [->|?]; [left | by do 2 right].
        * exists r1. split; [right; left | done].
      + intros r. rewrite !elem_of_cons. intros [->|[->|Hin]]; [|lia|].
        * specialize (IH r0). rewrite elem_of_cons in IH. specialize (IH (or_introl eq_refl)). lia.
        * specialize (IH r). rewrite elem_of_cons in IH. specialize (IH (or_intror Hin)). lia. }
  split.
  - intros [= <-]. split; [|eauto].
    destruct (Hsel' rm Hrm) as (k & Hk & HP). eauto.
  - intros [(k & r & Hk & HP & <-) Hle]. f_equal.
    destruct (Hsel' rm Hrm) as (k' & Hk' & HP').
    specialize (Hmax r (Hsel k r (conj Hk HP))). specialize (Hle k' rm Hk' HP'). lia.
Qed.

Lemma sql_max_None P f m : sql_max P f m = None ↔ ∀ k r, m !! k = Some r → P r = false.
Proof.
  rewrite <-sql_row_None. unfold sql_max, sql_row. by destruct (sql_select P m).
Qed.

Lemma lookup_sql_update P f m k :
  sql_update P f m !! k = (λ r, if P r then f r else r) <$> m !! k.
Proof. apply lookup_fmap. Qed.
End sql.

(** ** Lists *)

(** Every element but the last: [l[0 : len(l)-1]] of a non-empty slice. *)
Definition drop_last {A} (l : list A) : list A := take (length l - 1) l.
Arguments drop_last : simpl never.

Lemma drop_last_snoc {A} (l : list A) x : drop_last (l ++ [x]) = l.
Proof. unfold drop_last. rewrite length_app. simpl. by rewrite Nat.add_sub, take_app_length. Qed.

Lemma drop_last_nil {A} : drop_last (@nil A) = [].
Proof. done. Qed.

Lemma drop_last_cons {A} (x y : A) l : drop_last (x :: y :: l) = x :: drop_last (y :: l).
Proof. unfold drop_last. simpl. by rewrite Nat.sub_0_r. Qed.
