(* ===== verification/Types.v ===== *)
(** * Data of the node

    The structures of [go/common/types.go], [go/common/headers.go],
    [go/common/batches.go], [go/common/rollups.go], [go/enclave/core] and the
    go-ethereum types they are built from, with the operations those files
    define on them.  A hash and an address are kept as the numbers their bytes
    denote; [EmptyHash] is zero. *)

From S2P Require Import Prelude.

Abbreviation Hash := Z (only parsing).
Abbreviation Address := Z (only parsing).
(** A [*big.Int] that may be nil. *)
Abbreviation bigInt := (option Z) (only parsing).
(** A number of a header. RLP writes a nil number as zero, so hashes and stored
    headers do not tell them apart: a number that is not set is zero. *)
Abbreviation headerInt := Z (only parsing).

Definition EmptyHash : Hash := 0%Z.

(** ** L1 data *)

(** [types.Header]: the fields the node reads.  [h_hash] is the value of
    [header.Hash()], the identity of an immutable header. *)
Record L1Header := mkL1Header {
  h_hash : Hash;
  h_parent : Hash;
  h_number : Z
}.

(** [types.Log] *)
Record Log := mkLog {
  log_address : Address;
  log_topics : list Hash;
  log_data : list Z;
  log_blocknumber : Z;
  log_txhash : Hash;
  log_txindex : Z;
  log_blockhash : Hash;
  log_index : Z
}.

(** [types.Receipt] *)
Record Receipt := mkReceipt {
  r_status : Z;
  r_txhash : Hash;
  r_blockhash : Hash;
  r_txindex : Z;
  r_contract : Address;
  r_logs : list Log
}.

(** A transaction of the L1 chain, decoded by the management-contract library. *)
Record L1Tx := mkL1Tx {
  l1tx_hash : Hash;
  l1tx_to : option Address;
  l1tx_data : list Z
}.

(** [types.Block] *)
Record L1Block := mkL1Block {
  b_header : L1Header;
  b_txs : list L1Tx
}.

Definition Block_Hash (b : L1Block) : Hash := h_hash (b_header b).
Definition Block_ParentHash (b : L1Block) : Hash := h_parent (b_header b).
Definition Block_NumberU64 (b : L1Block) : Z := h_number (b_header b).
(** [types.NewBlockWithHeader]: a block without a body. *)
Definition NewBlockWithHeader (h : L1Header) : L1Block := mkL1Block h [].

Definition ReceiptStatusFailed : Z := 0.
Definition ReceiptStatusSuccessful : Z := 1.

(** ** Constants of [common/types.go] *)

Definition L2GenesisHeight : Z := 0.
Definition L1GenesisHeight : Z := 0.
Definition L2GenesisSeqNo : Z := 1.

(** ** Blocks with receipts *)

Module BlockAndReceipts.
(** The receipts list is sparse: an entry may be nil. *)
Record t := mk {
  Block : L1Block;
  ReceiptsMap : gmap nat (option Receipt);
  Receipts : list (option Receipt);
  successfulTransactions : option (list L1Tx)
}.

Definition ParseBlockAndReceipts (block : L1Block) (receipts : list (option Receipt)) : result t :=
  if decide (length (b_txs block) ≠ length receipts)
  then Err (ErrMsg "transactions and receipts are not the same length")
  else Ok {| Block := block;
             ReceiptsMap := list_to_map (zip (seq 0 (length receipts)) receipts);
             Receipts := receipts;
             successfulTransactions := None |}.

(** The loop over the transactions of the block from index [idx] on: a nil
    receipt is dereferenced ([receipt.Status]). *)
Fixpoint collect (rm : gmap nat (option Receipt)) (idx : nat) (txs st : list L1Tx)
    : result (list L1Tx) :=
  match txs with
  | [] => Ok st
  | tx :: txs' =>
      match rm !! idx with
      | None => collect rm (S idx) txs' st
      | Some None => Crash "nil receipt"
      | Some (Some receipt) =>
          if bool_decide (r_status receipt = ReceiptStatusSuccessful)
          then collect rm (S idx) txs' (st ++ [tx])
          else collect rm (S idx) txs' st
      end
  end.

Definition SuccessfulTransactions : M t (list L1Tx) := λ br,
  match successfulTransactions br with
  | Some st => (br, Ok st)
  | None =>
      match collect (ReceiptsMap br) 0 (b_txs (Block br)) [] with
      | Ok st => ({| Block := Block br; ReceiptsMap := ReceiptsMap br;
                     Receipts := Receipts br; successfulTransactions := Some st |}, Ok st)
      | r => (br, r)
      end
  end.

(** The specification: the transactions whose receipt reports success. *)
Fixpoint successful (txs : list L1Tx) (rs : list (option Receipt)) : list L1Tx :=
  match txs, rs with
  | tx :: txs', Some r :: rs' =>
      if bool_decide (r_status r = ReceiptStatusSuccessful)
      then tx :: successful txs' rs' else successful txs' rs'
  | _ :: txs', None :: rs' => successful txs' rs'
  | _, _ => []
  end.

Lemma lookup_receipts (rs : list (option Receipt)) i k :
  (list_to_map (zip (seq k (length rs)) rs) : gmap nat (option Receipt)) !! (k + i) = rs !! i.
Proof.
  revert i k. induction rs as [|r rs IH]; intros i k; simpl; [done|].
  destruct i as [|i]; simpl.
  - by rewrite Nat.add_0_r, lookup_insert_eq.
  - rewrite lookup_insert_ne by lia. rewrite <-(IH i (S k)). f_equal. lia.
Qed.

Lemma collect_spec rm (txs : list L1Tx) : ∀ idx st (rs : list (option Receipt)),
  (∀ i, rm !! (idx + i) = rs !! i) → length txs = length rs → Forall is_Some rs →
  collect rm idx txs st = Ok (st ++ successful txs rs).
Proof.
  induction txs as [|tx txs IH]; intros idx st [|r rs] Hrm Hlen Hsome; simplify_eq/=.
  { by rewrite app_nil_r. }
  inversion Hsome as [|? ? [r' ->] Hsome']; subst.
  pose proof (Hrm 0) as H0. rewrite Nat.add_0_r in H0. simpl in H0. rewrite H0.
  assert (∀ i, rm !! (S idx + i) = rs !! i) as Hrm'.
  { intros i. specialize (Hrm (S i)). simpl in Hrm. rewrite <-Hrm. f_equal. lia. }
  case_bool_decide; rewrite (IH _ _ rs) by done; [|done].
  by rewrite <-app_assoc.
Qed.

(** With a nil receipt in the list the loop dereferences it, unless an earlier
    one did. *)
Lemma collect_nil rm (txs : list L1Tx) : ∀ idx st (rs : list (option Receipt)),
  (∀ i, rm !! (idx + i) = rs !! i) → length txs = length rs → None ∈ rs →
  collect rm idx txs st = Crash "nil receipt".
Proof.
  induction txs as [|tx txs IH]; intros idx st [|r rs] Hrm Hlen Hin; simplify_eq/=;
    [by apply not_elem_of_nil in Hin|].
  pose proof (Hrm 0) as H0. rewrite Nat.add_0_r in H0. simpl in H0. rewrite H0.
  assert (∀ i, rm !! (S idx + i) = rs !! i) as Hrm'.
  { intros i. specialize (Hrm (S i)). simpl in Hrm. rewrite <-Hrm. f_equal. lia. }
  destruct r as [r|]; [|done].
  assert (None ∈ rs) as Hin' by (by apply elem_of_cons in Hin as [?|?]).
  case_bool_decide; by apply (IH _ _ rs).
Qed.

(** A block parsed with one receipt per transaction has as successful
    transactions exactly those whose receipt reports success, in order, and asking
    again gives the same. *)
Theorem SuccessfulTransactions_correct (b : L1Block) rs br :
  ParseBlockAndReceipts b rs = Ok br → Forall is_Some rs →
  let r := SuccessfulTransactions br in
  r.2 = Ok (successful (b_txs b) rs) ∧ SuccessfulTransactions r.1 = (r.1, Ok (successful (b_txs b) rs)).
Proof.
  unfold ParseBlockAndReceipts. case_decide as Hlen; [done|]. intros [= <-] Hrs.
  unfold SuccessfulTransactions. cbn [successfulTransactions ReceiptsMap Block].
  rewrite (collect_spec _ _ 0 [] rs); [done| |done|done]. intros i. apply (lookup_receipts rs i 0).
Qed.

(** A block with a nil receipt, which the sparse list of receipts allows, ends the
    process when its successful transactions are read. *)
Theorem SuccessfulTransactions_nil_receipt (b : L1Block) rs br :
  ParseBlockAndReceipts b rs = Ok br → None ∈ rs → (SuccessfulTransactions br).2 = Crash "nil receipt".
Proof.
  unfold ParseBlockAndReceipts. case_decide as Hlen; [done|]. intros [= <-] Hrs.
  unfold SuccessfulTransactions. cbn [successfulTransactions ReceiptsMap Block].
  rewrite (collect_nil _ _ 0 [] rs); [done| |done|done]. intros i. apply (lookup_receipts rs i 0).
Qed.
End BlockAndReceipts.

(** ** Chain forks *)

Record ChainFork := mkChainFork {
  NewCanonical : L1Block;
  OldCanonical : L1Block;
  CommonAncestor : L1Block;
  CanonicalPath : list Hash;
  NonCanonicalPath : list Hash
}.

Definition ChainFork_IsFork (cf : ChainFork) : bool := (0 <? length (NonCanonicalPath cf))%nat.

(** [components.BlockIngestionType] *)
Record BlockIngestionType := mkIngestion {
  PreGenesis : bool;
  ingestion_fork : option ChainFork
}.

Definition BlockIngestionType_IsFork (bit : BlockIngestionType) : bool :=
  match ingestion_fork bit with
  | None => false
  | Some cf => ChainFork_IsFork cf
  end.

(** ** L2 data *)

(** [types.Transaction] on the L2: the hash and the nonce are read off the
    transaction; the rest of it is its encoding. *)
Record L2Tx := mkL2Tx {
  tx_hash : Hash;
  tx_nonce : Z;
  tx_body : list Z
}.

(** [MessageBus.StructsCrossChainMessage] *)
Record CrossChainMessage := mkMessage {
  msg_sender : Address;
  msg_sequence : Z;
  msg_nonce : Z;
  msg_topic : Z;
  msg_payload : list Z;
  msg_consistency : Z
}.

(** [common.BatchHeader] *)
Record BatchHeader := mkBatchHeader {
  ParentHash : Hash;
  Root : Hash;
  TxHash : Hash;
  ReceiptHash : Hash;
  Number : Z;
  SequencerOrderNo : Z;
  GasLimit : Z;
  GasUsed : Z;
  Time : Z;
  Extra : list Z;
  BaseFee : headerInt;
  L1Proof : Hash;
  sigR : headerInt;
  sigS : headerInt;
  CrossChainMessages : list CrossChainMessage;
  LatestInboundCrossChainHash : Hash;
  LatestInboundCrossChainHeight : headerInt
}.

(** The assignments to the fields of a batch header. *)
Definition set_sig (r s : headerInt) (h : BatchHeader) : BatchHeader :=
  mkBatchHeader (ParentHash h) (Root h) (TxHash h) (ReceiptHash h) (Number h)
    (SequencerOrderNo h) (GasLimit h) (GasUsed h) (Time h) (Extra h) (BaseFee h) (L1Proof h)
    r s (CrossChainMessages h) (LatestInboundCrossChainHash h) (LatestInboundCrossChainHeight h).
Definition set_root (root : Hash) (h : BatchHeader) : BatchHeader :=
  mkBatchHeader (ParentHash h) root (TxHash h) (ReceiptHash h) (Number h)
    (SequencerOrderNo h) (GasLimit h) (GasUsed h) (Time h) (Extra h) (BaseFee h) (L1Proof h)
    (sigR h) (sigS h) (CrossChainMessages h) (LatestInboundCrossChainHash h)
    (LatestInboundCrossChainHeight h).
Definition set_txhash (v : Hash) (h : BatchHeader) : BatchHeader :=
  mkBatchHeader (ParentHash h) (Root h) v (ReceiptHash h) (Number h)
    (SequencerOrderNo h) (GasLimit h) (GasUsed h) (Time h) (Extra h) (BaseFee h) (L1Proof h)
    (sigR h) (sigS h) (CrossChainMessages h) (LatestInboundCrossChainHash h)
    (LatestInboundCrossChainHeight h).
Definition set_receipthash (v : Hash) (h : BatchHeader) : BatchHeader :=
  mkBatchHeader (ParentHash h) (Root h) (TxHash h) v (Number h)
    (SequencerOrderNo h) (GasLimit h) (GasUsed h) (Time h) (Extra h) (BaseFee h) (L1Proof h)
    (sigR h) (sigS h) (CrossChainMessages h) (LatestInboundCrossChainHash h)
    (LatestInboundCrossChainHeight h).
Definition set_crosschain (msgs : list CrossChainMessage) (inHash : Hash) (inHeight : Z)
    (h : BatchHeader) : BatchHeader :=
  mkBatchHeader (ParentHash h) (Root h) (TxHash h) (ReceiptHash h) (Number h)
    (SequencerOrderNo h) (GasLimit h) (GasUsed h) (Time h) (Extra h) (BaseFee h) (L1Proof h)
    (sigR h) (sigS h) msgs inHash inHeight.

(** [common.RollupHeader] *)
Record RollupHeader := mkRollupHeader {
  Coinbase : Address;
  CompressionL1Head : Hash;
  RollupMessages : list CrossChainMessage;
  PayloadHash : Hash;
  rollupR : headerInt;
  rollupS : headerInt;
  LastBatchSeqNo : Z
}.

Definition set_rollup_sig (r s : headerInt) (h : RollupHeader) : RollupHeader :=
  mkRollupHeader (Coinbase h) (CompressionL1Head h) (RollupMessages h) (PayloadHash h) r s
    (LastBatchSeqNo h).

(** [common.CalldataRollupHeader] *)
Record CalldataRollupHeader := mkCalldataRollupHeader {
  FirstBatchSequence : Z;
  FirstCanonBatchHeight : Z;
  FirstCanonParentHash : Hash;
  StartTime : Z;
  BatchTimeDeltas : list (list Z);
  L1HeightDeltas : list (list Z);
  ReOrgs : list (list Z)
}.

(** [common.ExtRollup] *)
Record ExtRollup := mkExtRollup {
  ext_rollup_header : RollupHeader;
  CalldataRollupHeaderBlob : list Z;
  BatchPayloads : list Z
}.

(** [common.ExtBatch] *)
Record ExtBatch := mkExtBatch {
  ext_header : BatchHeader;
  ext_txhashes : list Hash;
  EncryptedTxBlob : list Z
}.

#[export] Instance L1Header_eq_dec : EqDecision L1Header.
Proof. solve_decision. Defined.
#[export] Instance L1Tx_eq_dec : EqDecision L1Tx.
Proof. solve_decision. Defined.
#[export] Instance L1Block_eq_dec : EqDecision L1Block.
Proof. solve_decision. Defined.
#[export] Instance L2Tx_eq_dec : EqDecision L2Tx.
Proof. solve_decision. Defined.
#[export] Instance CrossChainMessage_eq_dec : EqDecision CrossChainMessage.
Proof. solve_decision. Defined.
#[export] Instance BatchHeader_eq_dec : EqDecision BatchHeader.
Proof. solve_decision. Defined.
#[export] Instance Log_eq_dec : EqDecision Log.
Proof. solve_decision. Defined.
#[export] Instance Receipt_eq_dec : EqDecision Receipt.
Proof. solve_decision. Defined.

(** ** Hashing

    Keccak over RLP and the Merkle roots of go-ethereum, as functions of what
    is hashed. *)

Class Hashing := {
  rlpHash_batch : BatchHeader → Hash;
  rlpHash_rollup : RollupHeader → Hash;
  DeriveSha_txs : list L2Tx → Hash;
  DeriveSha_receipts : list Receipt → Hash;
  EmptyRootHash : Hash
}.

(** Collision resistance, where a property needs it, and the root of an empty
    list. *)
Class HashingOk `{Hashing} : Prop := {
  rlpHash_batch_inj :: Inj (=) (=) rlpHash_batch;
  rlpHash_rollup_inj :: Inj (=) (=) rlpHash_rollup;
  DeriveSha_txs_inj :: Inj (=) (=) DeriveSha_txs;
  DeriveSha_txs_nil : DeriveSha_txs [] = EmptyRootHash
}.

(** ** World states

    The state databases of go-ethereum: what the node reads of them. *)

Class StateModel := {
  EState : Type;
  emptyState : EState;
  GetCode : EState → Address → option (list Z);
  GetNonce : EState → Address → Z
}.

Section hashed.
Context `{Hashing}.

(** The hash of a header excludes its signature. *)
Definition BatchHeader_Hash (b : BatchHeader) : Hash := rlpHash_batch (set_sig 0 0 b).
Definition RollupHeader_Hash (r : RollupHeader) : Hash := rlpHash_rollup (set_rollup_sig 0 0 r).

Definition ExtBatch_Hash (b : ExtBatch) : Hash := BatchHeader_Hash (ext_header b).
Definition ExtRollup_Hash (r : ExtRollup) : Hash := RollupHeader_Hash (ext_rollup_header r).

Lemma BatchHeader_Hash_sig r s b : BatchHeader_Hash (set_sig r s b) = BatchHeader_Hash b.
Proof. done. Qed.

Lemma RollupHeader_Hash_sig r s h : RollupHeader_Hash (set_rollup_sig r s h) = RollupHeader_Hash h.
Proof. done. Qed.
End hashed.

(** ** Batches inside the enclave *)

Module Batch.
(** [core.Batch]: the header, the cached hash, the transactions in clear. *)
Record t := mk {
  Header : BatchHeader;
  hash : option Hash;
  Transactions : list L2Tx
}.

Definition SeqNo (b : t) : Z := SequencerOrderNo (Header b).
Definition NumberOf (b : t) : Z := Number (Header b).

(** Whether the batch is the genesis batch. *)
Definition IsGenesis (b : t) : bool := bool_decide (Number (Header b) = L2GenesisHeight).

Section hash.
Context `{Hashing}.

(** [Hash()]: computed on the first call and cached thereafter. *)
Definition Hash (b : t) : t * Z :=
  match hash b with
  | Some v => (b, v)
  | None => let v := BatchHeader_Hash (Header b) in (mk (Header b) (Some v) (Transactions b), v)
  end.

(** The value [Hash()] returns. *)
Definition hashOf (b : t) : Z := (Hash b).2.

Definition ResetHash (b : t) : t := mk (Header b) None (Transactions b).

(** The cache agrees with the header. *)
Definition hash_ok (b : t) : Prop := hashOf b = BatchHeader_Hash (Header b).

Lemma hash_ok_fresh h txs : hash_ok (mk h None txs).
Proof. done. Qed.

Lemma hash_ok_Hash b : hash_ok b → hash_ok (Hash b).1 ∧ Header (Hash b).1 = Header b.
Proof. unfold hash_ok, hashOf, Hash. by destruct (hash b) eqn:E; simpl; rewrite ?E. Qed.

(** [core.DeterministicEmptyBatch] *)
Definition DeterministicEmptyBatch (parent : BatchHeader) (block : L1Block) (time : Z)
    (sequencerNo : Z) : t :=
  mk {| ParentHash := BatchHeader_Hash parent;
        Root := EmptyHash; TxHash := EmptyHash; ReceiptHash := EmptyHash;
        Number := Number parent + 1;
        SequencerOrderNo := sequencerNo;
        GasLimit := 0; GasUsed := 0;
        Time := time;
        Extra := []; BaseFee := 0;
        L1Proof := Block_Hash block;
        sigR := 0; sigS := 0;
        CrossChainMessages := [];
        LatestInboundCrossChainHash := EmptyHash;
        LatestInboundCrossChainHeight := 0 |} None [].
End hash.
End Batch.

#[export] Instance Batch_eq_dec : EqDecision Batch.t.
Proof. solve_decision. Defined.

(** [core.Rollup] *)
Record Rollup := mkRollup {
  rollup_header : RollupHeader;
  rollup_batches : list Batch.t
}.
