(* ===== verification/Codec.v ===== *)
(** * Encodings

    Byte strings and the ways the node encodes values into them: RLP (a
    parameter: go-ethereum's codec), the gob encoding of [big.Int] (the
    standard library's, used for the deltas of a rollup), the encryption
    service of [go/enclave/crypto/data_enc_service.go] over an AEAD cipher and
    the compression service of
    [go/common/compression/data_compression_service.go] over Brotli. *)

From S2P Require Import Prelude Types.

(** A byte is a number below 256. *)
Abbreviation bytes := (list Z).
Definition is_byte (b : Z) : Prop := (0 ≤ b < 256)%Z.

(** ** RLP *)

(** [rlp.EncodeToBytes] and [rlp.DecodeBytes] at one type; [None] is an error. *)
Class Codec (A : Type) := {
  rlp_encode : A → option bytes;
  rlp_decode : bytes → option A
}.

(** Decoding returns what was encoded. *)
Class CodecOk (A : Type) `{Codec A} : Prop :=
  rlp_roundtrip : ∀ a b, rlp_encode a = Some b → rlp_decode b = Some a.

Definition EncodeToBytes `{Codec A} (a : A) : result bytes :=
  of_option (ErrMsg "rlp: encoding failed") (rlp_encode a).
Definition DecodeBytes `{Codec A} (b : bytes) : result A :=
  of_option (ErrMsg "rlp: decoding failed") (rlp_decode b).

Lemma DecodeBytes_Encode `{CodecOk A} (a : A) b : EncodeToBytes a = Ok b → DecodeBytes b = Ok a.
Proof.
  unfold EncodeToBytes, DecodeBytes. destruct (rlp_encode a) as [b'|] eqn:E; intros [= <-].
  by rewrite (rlp_roundtrip _ _ E).
Qed.

(** *** A self-delimiting format

    A codec that meets the law exists for every type of the node: numbers as
    they are, sequences behind their length. *)

Class Wire (A : Type) := { put : A → bytes; get : bytes → option (A * bytes) }.
Class WireOk (A : Type) `{Wire A} : Prop := get_put : ∀ a rest, get (put a ++ rest) = Some (a, rest).

#[export] Instance Z_wire : Wire Z := {|
  put z := [z];
  get l := match l with z :: l => Some (z, l) | [] => None end
|}.
#[export] Instance Z_wire_ok : WireOk Z.
Proof. by intros a rest. Qed.

#[export] Instance pair_wire `{Wire A, Wire B} : Wire (A * B) := {|
  put p := put p.1 ++ put p.2;
  get l := '(a, l) ← get l; '(b, l) ← get l; Some ((a, b), l)
|}.
#[export] Instance pair_wire_ok `{WireOk A, WireOk B} : WireOk (A * B).
Proof. intros [a b] rest. simpl. rewrite <-app_assoc, get_put. simpl. by rewrite get_put. Qed.

#[export] Instance option_wire `{Wire A} : Wire (option A) := {|
  put o := match o with None => [0%Z] | Some a => 1%Z :: put a end;
  get l := match l with
           | 0%Z :: l => Some (None, l)
           | 1%Z :: l => '(a, l) ← get l; Some (Some a, l)
           | _ => None
           end
|}.
#[export] Instance option_wire_ok `{WireOk A} : WireOk (option A).
Proof. intros [a|] rest; simpl; [|done]. by rewrite get_put. Qed.

Fixpoint get_n `{Wire A} (n : nat) (l : bytes) : option (list A * bytes) :=
  match n with
  | O => Some ([], l)
  | S n => '(a, l) ← get l; '(r, l) ← get_n n l; Some (a :: r, l)
  end.

Lemma get_n_put `{WireOk A} (r : list A) rest : get_n (length r) (flat_map put r ++ rest) = Some (r, rest).
Proof.
  induction r as [|a r IH]; simpl; [done|]. rewrite <-app_assoc, get_put. simpl. by rewrite IH.
Qed.

#[export] Instance list_wire `{Wire A} : Wire (list A) := {|
  put r := Z.of_nat (length r) :: flat_map put r;
  get l := match l with n :: l => get_n (Z.to_nat n) l | [] => None end
|}.
#[export] Instance list_wire_ok `{WireOk A} : WireOk (list A).
Proof. intros r rest. simpl. rewrite Nat2Z.id. apply get_n_put. Qed.

(** A record is sent as the tuple of its fields. *)
Definition iso_wire `{Wire B} {A} (f : A → B) (g : B → A) : Wire A := {|
  put a := put (f a);
  get l := '(b, l) ← get l; Some (g b, l)
|}.
Lemma iso_wire_ok `{WireOk B} {A} (f : A → B) (g : B → A) :
  (∀ a, g (f a) = a) → @WireOk A (iso_wire f g).
Proof. intros Hgf a rest. simpl. rewrite get_put. simpl. by rewrite Hgf. Qed.

Definition wire_codec `{Wire A} : Codec A := {|
  rlp_encode a := Some (put a);
  rlp_decode l := match get l with Some (a, []) => Some a | _ => None end
|}.
Lemma wire_codec_ok `{WireOk A} : @CodecOk A wire_codec.
Proof. intros a b [= <-]. simpl. rewrite <-(app_nil_r (put a)). by rewrite get_put. Qed.

(** ** Gob encoding of [big.Int] *)

Module Gob.
Local Open Scope Z_scope.

(** [nat.bytes]: the big-endian bytes of a magnitude, without leading zeros. *)
Fixpoint be_bytes (fuel : nat) (n : Z) : bytes :=
  match fuel with
  | O => []
  | S fuel => if n <=? 0 then [] else be_bytes fuel (n / 256) ++ [n mod 256]
  end.

(** The number of bytes of [n] is at most its number of bits. *)
Definition nat_bytes (n : Z) : bytes := be_bytes (Z.to_nat (Z.log2 n + 1)) n.

(** [nat.setBytes] *)
Definition nat_setBytes (l : bytes) : Z := fold_left (λ acc b, acc * 256 + b) l 0.

Definition intGobVersion : Z := 1.

(** [Int.GobEncode]: a byte with the version and the sign, then the magnitude. *)
Definition GobEncode (x : Z) : bytes :=
  Z.lor (Z.shiftl intGobVersion 1) (if x <? 0 then 1 else 0) :: nat_bytes (Z.abs x).

(** [Int.GobDecode] *)
Definition GobDecode (buf : bytes) : result Z :=
  match buf with
  | [] => Ok 0
  | b :: rest =>
      if bool_decide (Z.shiftr b 1 ≠ intGobVersion)
      then Err (ErrMsg "Int.GobDecode: encoding version not supported")
      else let abs := nat_setBytes rest in
           Ok (if bool_decide (Z.land b 1 ≠ 0) then - abs else abs)
  end.

Lemma setBytes_snoc l b : nat_setBytes (l ++ [b]) = nat_setBytes l * 256 + b.
Proof. unfold nat_setBytes. by rewrite fold_left_app. Qed.

Lemma setBytes_be_bytes fuel : ∀ n, 0 ≤ n < 2 ^ Z.of_nat fuel → nat_setBytes (be_bytes fuel n) = n.
Proof.
  induction fuel as [|fuel IH]; intros n Hn.
  { change (2 ^ Z.of_nat 0) with 1 in Hn. assert (n = 0) as -> by lia. done. }
  cbn [be_bytes]. destruct (Z.leb_spec n 0).
  { assert (n = 0) as -> by lia. done. }
  rewrite setBytes_snoc, IH.
  - pose proof (Z.div_mod n 256 ltac:(lia)). lia.
  - assert (0 < 2 ^ Z.of_nat fuel) by (apply Z.pow_pos_nonneg; lia).
    rewrite Nat2Z.inj_succ, Z.pow_succ_r in Hn by lia. split; [by apply Z.div_pos; lia|].
    apply Z.div_lt_upper_bound; lia.
Qed.

Lemma setBytes_nat_bytes n : 0 ≤ n → nat_setBytes (nat_bytes n) = n.
Proof.
  intros Hn. apply setBytes_be_bytes. split; [done|].
  destruct (decide (n = 0)) as [->|].
  { done. }
  pose proof (Z.log2_spec n ltac:(lia)) as [_ Hlt]. pose proof (Z.log2_nonneg n).
  rewrite Z2Nat.id by lia. by rewrite Z.add_1_r.
Qed.

Lemma GobDecode_GobEncode x : GobDecode (GobEncode x) = Ok x.
Proof.
  unfold GobDecode, GobEncode. rewrite setBytes_nat_bytes by lia.
  destruct (Z.ltb_spec x 0); vm_compute (bool_decide _); f_equal; lia.
Qed.

Lemma be_bytes_is_byte fuel : ∀ n, Forall is_byte (be_bytes fuel n).
Proof.
  induction fuel as [|fuel IH]; intros n; cbn [be_bytes]; [constructor|].
  destruct (n <=? 0); [constructor|]. apply Forall_app. split; [done|]. constructor; [|constructor].
  unfold is_byte. apply Z.mod_pos_bound. lia.
Qed.
End Gob.

(** ** Encryption of transaction blobs *)

Module DataEncryptionService.
Definition NonceLength : nat := 12.

(** The AEAD cipher (AES-GCM of the standard library, under the rollup key):
    what it promises. *)
Class AEAD := {
  Seal : bytes → bytes → bytes;
  Open : bytes → bytes → option bytes
}.
Class AEADOk `{AEAD} : Prop := Open_Seal : ∀ nonce p, Open nonce (Seal nonce p) = Some p.

Section service.
Context `{AEAD}.

(** The source of randomness delivers [NonceLength] bytes or fails. *)
Definition Encrypt (rand : result bytes) (blob : bytes) : result bytes :=
  match rand with
  | Ok nonce => Ok (nonce ++ Seal nonce blob)
  | Err e => Err e
  | Crash m => Crash m
  end.

(** Slicing a blob shorter than the nonce panics. *)
Definition Decrypt (blob : bytes) : result bytes :=
  if (length blob <? NonceLength)%nat then Crash "slice bounds out of range"
  else match Open (take NonceLength blob) (drop NonceLength blob) with
       | Some plaintext => Ok plaintext
       | None => Err (ErrMsg "cipher: message authentication failed")
       end.

Lemma Decrypt_Encrypt `{!AEADOk} nonce blob c :
  length nonce = NonceLength → Encrypt (Ok nonce) blob = Ok c → Decrypt c = Ok blob.
Proof.
  intros Hlen [= <-]. unfold Decrypt. rewrite length_app, Hlen.
  destruct (Nat.ltb_spec (NonceLength + length (Seal nonce blob)) NonceLength) as [Hlt|_];
    [unfold NonceLength in Hlt; lia|].
  rewrite take_app_length', drop_app_length' by done. by rewrite Open_Seal.
Qed.
End service.
End DataEncryptionService.

(** ** The services as the components use them *)

(** [crypto.DataEncryptionService] and [compression.DataCompressionService] *)
Class BlobServices := {
  bs_encrypt : bytes → result bytes;
  bs_decrypt : bytes → result bytes;
  CompressRollup : bytes → result bytes;
  CompressBatch : bytes → result bytes;
  Decompress : bytes → result bytes
}.

Class BlobServicesOk `{BlobServices} : Prop := {
  decrypt_encrypt : ∀ p c, bs_encrypt p = Ok c → bs_decrypt c = Ok p;
  decompress_rollup : ∀ p c, CompressRollup p = Ok c → Decompress c = Ok p;
  decompress_batch : ∀ p c, CompressBatch p = Ok c → Decompress c = Ok p
}.

(** The encryption service over any lossless compressor discharges the
    interface, whatever nonce is drawn. *)
Section services_impl.
Context `{DataEncryptionService.AEAD}.

Definition aead_services (nonce : bytes) (compress : Z → bytes → result bytes)
    (decompress : bytes → result bytes) : BlobServices := {|
  bs_encrypt := DataEncryptionService.Encrypt (Ok nonce);
  bs_decrypt := DataEncryptionService.Decrypt;
  CompressRollup := compress 11%Z;
  CompressBatch := compress 6%Z;
  Decompress := decompress
|}.

Lemma aead_services_ok `{!DataEncryptionService.AEADOk} nonce compress decompress :
  length nonce = DataEncryptionService.NonceLength →
  (∀ level p c, compress level p = Ok c → decompress c = Ok p) →
  @BlobServicesOk (aead_services nonce compress decompress).
Proof.
  intros Hlen Hc. split; simpl; [|eauto..].
  intros p c. by apply DataEncryptionService.Decrypt_Encrypt.
Qed.
End services_impl.
