(* ===== verification/Bytes.v ===== *)
(** * Bytes of hashes, addresses and numbers

    [Bytes] and [SetBytes] of go-ethereum's hashes and addresses and of
    [big.Int], and [big.Int.String]. *)

From S2P Require Import Prelude Types Codec.
Local Open Scope Z_scope.

Definition ascii_bytes (s : string) : bytes := Z.of_N ∘ Ascii.N_of_ascii <$> String.list_ascii_of_string s.

(** The 32 bytes of a hash. *)
Class HashBytes := {
  Hash_Bytes : Hash → bytes;
  BytesToHash : bytes → Hash
}.
Class HashBytesOk `{HashBytes} : Prop := {
  hash_length : ∀ h, length (Hash_Bytes h) = 32%nat;
  hash_roundtrip : ∀ h, BytesToHash (Hash_Bytes h) = h
}.

(** The 20 bytes of an address. *)
Class AddressBytes := {
  Address_Bytes : Address → bytes;
  BytesToAddress : bytes → Address
}.
Class AddressBytesOk `{AddressBytes} : Prop := {
  address_roundtrip : ∀ a, BytesToAddress (Address_Bytes a) = a
}.

(** Decimal digits; the number of bits is enough fuel. *)
Fixpoint decimal (fuel : nat) (n : Z) : bytes :=
  match fuel with
  | O => []
  | S fuel => if n <? 10 then [48 + n] else decimal fuel (n / 10) ++ [48 + n mod 10]
  end.
(** [big.Int.String] *)
Definition big_String (n : Z) : bytes :=
  (if n <? 0 then ascii_bytes "-" else []) ++ decimal (Z.to_nat (Z.log2 (Z.abs n) + 1)) (Z.abs n).
(** [big.Int.Bytes] and [SetBytes] *)
Definition big_Bytes (n : Z) : bytes := Gob.nat_bytes (Z.abs n).
Definition big_SetBytes : bytes → Z := Gob.nat_setBytes.

(** ** Decimal numbers *)

Definition undecimal (l : bytes) : Z := fold_left (λ acc c, acc * 10 + (c - 48)) l 0.

Lemma undecimal_snoc l c : undecimal (l ++ [c]) = undecimal l * 10 + (c - 48).
Proof. unfold undecimal. by rewrite fold_left_app. Qed.

Lemma undecimal_decimal fuel : ∀ n, 0 ≤ n < 2 ^ Z.of_nat fuel → undecimal (decimal fuel n) = n.
Proof.
  induction fuel as [|fuel IH]; intros n Hn; cbn [decimal].
  { change (2 ^ Z.of_nat 0) with 1 in Hn. unfold undecimal. simpl. lia. }
  destruct (Z.ltb_spec n 10); [unfold undecimal; simpl; lia|].
  rewrite undecimal_snoc, IH.
  - pose proof (Z.div_mod n 10 ltac:(lia)). lia.
  - rewrite Nat2Z.inj_succ, Z.pow_succ_r in Hn by lia. split; [by apply Z.div_pos; lia|].
    apply Z.div_lt_upper_bound; lia.
Qed.

Lemma big_String_inj n m : 0 ≤ n → 0 ≤ m → big_String n = big_String m → n = m.
Proof.
  intros Hn Hm. unfold big_String. rewrite !(proj2 (Z.ltb_ge _ _)), !Z.abs_eq by lia. simpl. intros Heq.
  assert (∀ k, 0 ≤ k → undecimal (decimal (Z.to_nat (Z.log2 k + 1)) k) = k) as Hk.
  { intros k Hk. apply undecimal_decimal. split; [done|]. destruct (decide (k = 0)) as [->|]; [done|].
    pose proof (Z.log2_spec k ltac:(lia)) as [_ Hlt]. pose proof (Z.log2_nonneg k). rewrite Z2Nat.id by lia. by rewrite Z.add_1_r. }
  rewrite <-(Hk n), <-(Hk m), Heq by lia. done.
Qed.

Lemma decimal_length fuel : ∀ n k, n < 10 ^ Z.of_nat (S k) → (length (decimal fuel n) ≤ S k)%nat.
Proof.
  induction fuel as [|fuel IH]; intros n k Hn; cbn [decimal]; [simpl; lia|].
  destruct (Z.ltb_spec n 10); [simpl; lia|]. rewrite length_app. simpl. destruct k as [|k]; [simpl in Hn; lia|].
  enough (length (decimal fuel (n / 10)) ≤ S k)%nat by lia. apply IH.
  rewrite Nat2Z.inj_succ, Z.pow_succ_r in Hn by lia. apply Z.div_lt_upper_bound; lia.
Qed.

Lemma decimal_digits fuel : ∀ n, 0 ≤ n → Forall (λ c, 48 ≤ c < 58) (decimal fuel n).
Proof.
  induction fuel as [|fuel IH]; intros n Hn; cbn [decimal]; [constructor|].
  destruct (Z.ltb_spec n 10); [repeat constructor; lia|]. apply Forall_app. split; [apply IH, Z.div_pos; lia|].
  pose proof (Z.mod_pos_bound n 10). repeat constructor; lia.
Qed.

Lemma big_String_u64 n : 0 ≤ n < 2 ^ 64 → (length (big_String n) ≤ 20)%nat ∧ Forall (λ c, 48 ≤ c < 58) (big_String n).
Proof.
  intros Hn. unfold big_String. rewrite (proj2 (Z.ltb_ge _ _)), Z.abs_eq by lia. simpl.
  split; [apply decimal_length; lia|]. apply decimal_digits. lia.
Qed.

(** ** Big-endian numbers *)

Lemma be_bytes_length fuel : ∀ n k, n < 256 ^ Z.of_nat k → (length (Gob.be_bytes fuel n) ≤ k)%nat.
Proof.
  induction fuel as [|fuel IH]; intros n k Hn; cbn [Gob.be_bytes]; [simpl; lia|].
  destruct (Z.leb_spec n 0); [simpl; lia|]. destruct k as [|k]; [simpl in Hn; lia|]. rewrite length_app. simpl.
  enough (length (Gob.be_bytes fuel (n / 256)) ≤ k)%nat by lia. apply IH.
  rewrite Nat2Z.inj_succ, Z.pow_succ_r in Hn by lia. apply Z.div_lt_upper_bound; lia.
Qed.

Lemma big_Bytes_u64 n : 0 ≤ n < 2 ^ 64 → (length (big_Bytes n) ≤ 8)%nat ∧ big_SetBytes (big_Bytes n) = n.
Proof.
  intros Hn. unfold big_Bytes, big_SetBytes. rewrite Z.abs_eq by lia. split; [apply be_bytes_length; lia|].
  apply Gob.setBytes_nat_bytes. lia.
Qed.

(** ** Batches outside the enclave

    [ToExtBatch] and [ToBatch] of [go/enclave/core/batch.go]: the transactions
    of a batch leave the enclave compressed and encrypted. *)


Section ext.
Context `{Hashing, BlobServices, Codec (list L2Tx)}.

Definition ToExtBatch (b : Batch.t) : result ExtBatch :=
  let txHashes := map tx_hash (Batch.Transactions b) in
  encoded ← EncodeToBytes (Batch.Transactions b);
  compressed ← CompressBatch encoded;
  enc ← bs_encrypt compressed;
  Ok (mkExtBatch (Batch.Header b) txHashes enc).

Definition ToBatch (extBatch : ExtBatch) : result Batch.t :=
  compressed ← bs_decrypt (EncryptedTxBlob extBatch);
  encoded ← Decompress compressed;
  txs ← DecodeBytes encoded;
  Ok (Batch.mk (ext_header extBatch) None txs).

Lemma ToBatch_ToExtBatch `{!BlobServicesOk, !CodecOk (list L2Tx)} b ext :
  ToExtBatch b = Ok ext → ext_header ext = Batch.Header b ∧ ext_txhashes ext = map tx_hash (Batch.Transactions b) ∧
  ToBatch ext = Ok (Batch.mk (Batch.Header b) None (Batch.Transactions b)).
Proof.
  unfold ToExtBatch, ToBatch. result_unfold.
  destruct (EncodeToBytes _) as [enc|?|?] eqn:He; try done. destruct (CompressBatch enc) as [z|?|?] eqn:Hz; try done.
  destruct (bs_encrypt z) as [c|?|?] eqn:Hc; try done. intros [= <-]. split; [done|]. split; [done|]. cbn.
  by rewrite (decrypt_encrypt _ _ Hc), (decompress_batch _ _ Hz), (DecodeBytes_Encode _ _ He).
Qed.

(** A batch that leaves an enclave is read back, by an enclave with the same
    keys, with the same header, transactions and hash; its transaction hashes are
    those of its transactions. *)
Theorem ExtBatch_roundtrip `{!BlobServicesOk, !CodecOk (list L2Tx)} (b : Batch.t) ext :
  Batch.hash_ok b → ToExtBatch b = Ok ext →
  ext_txhashes ext = map tx_hash (Batch.Transactions b) ∧ ExtBatch_Hash ext = Batch.hashOf b ∧
  ∃ b', ToBatch ext = Ok b' ∧ Batch.Header b' = Batch.Header b ∧
    Batch.Transactions b' = Batch.Transactions b ∧ Batch.hashOf b' = Batch.hashOf b.
Proof.
  intros Hb (Hh&Htx&Hto)%ToBatch_ToExtBatch. split; [done|]. unfold ExtBatch_Hash. rewrite Hh, Hb. split; [done|].
  by eexists.
Qed.
End ext.
