(* ===== verification/L1Chain.v ===== *)
(** * Walking the L1 chain

    [gethutil.LCA] ([go/common/gethutil/gethutil.go]), [IsAncestor] and
    [IsBlockAncestor] of the enclave storage ([go/enclave/storage/storage.go])
    and [getAncestorOfHeight] of the rollup compression
    ([go/enclave/components/rollup_compression.go]), over any block resolver.

    The recursion of the code follows parent hashes and is bounded here by a
    fuel argument; the theorems show that a fuel above the height of the blocks
    is enough, so that the walks terminate with the results stated. *)

From S2P Require Import Prelude Types.

(** ** The block resolver interface *)

(** [storage.BlockResolver]: fetching a block may change the state of the
    storage (its cache is filled). *)
Class BlockResolver (St : Type) := FetchBlock : Hash → M St L1Block.

(** What a resolver promises: a store of headers, which a fetch reads and does
    not change, behind whatever the implementation caches. *)
Class BlockResolverOk (St : Type) `{BlockResolver St} := {
  resolver_inv : St → Prop;
  view : St → gmap Hash L1Header;
  FetchBlock_spec : ∀ s h, resolver_inv s →
    resolver_inv (FetchBlock h s).1 ∧ view (FetchBlock h s).1 = view s ∧
    match view s !! h with
    | Some hd => ∃ b, (FetchBlock h s).2 = Ok b ∧ b_header b = hd
    | None => ∃ e, (FetchBlock h s).2 = Err e
    end
}.

(** ** The walks *)

Section walks.
Context {St : Type} `{BlockResolver St}.

Fixpoint internalLCA (fuel : nat) (newCanonical oldCanonical : L1Block)
    (canonicalPath nonCanonicalPath : list Hash) : M St (L1Block * list Hash * list Hash) :=
  match fuel with
  | O => crash "out of fuel"
  | S fuel =>
      if bool_decide (Block_NumberU64 newCanonical = L1GenesisHeight) ||
         bool_decide (Block_NumberU64 oldCanonical = L1GenesisHeight)
      then mret (newCanonical, canonicalPath, nonCanonicalPath)
      else if bool_decide (Block_Hash newCanonical = Block_Hash oldCanonical)
      then mret (newCanonical, canonicalPath, nonCanonicalPath)
      else if (Block_NumberU64 oldCanonical <? Block_NumberU64 newCanonical)%Z
      then p ← wrap "could not retrieve parent block" (FetchBlock (Block_ParentHash newCanonical));
           internalLCA fuel p oldCanonical (canonicalPath ++ [Block_Hash p]) nonCanonicalPath
      else if (Block_NumberU64 newCanonical <? Block_NumberU64 oldCanonical)%Z
      then p ← wrap "could not retrieve parent block" (FetchBlock (Block_ParentHash oldCanonical));
           internalLCA fuel newCanonical p canonicalPath (nonCanonicalPath ++ [Block_Hash p])
      else parentBlockA ← wrap "could not retrieve parent block" (FetchBlock (Block_ParentHash newCanonical));
           parentBlockB ← wrap "could not retrieve parent block" (FetchBlock (Block_ParentHash oldCanonical));
           internalLCA fuel parentBlockA parentBlockB
             (canonicalPath ++ [Block_Hash parentBlockA]) (nonCanonicalPath ++ [Block_Hash parentBlockB])
  end.

(** The common ancestor is removed from both paths. *)
Definition LCA (fuel : nat) (newCanonical oldCanonical : L1Block) : M St ChainFork :=
  '(b, cp, ncp) ← internalLCA fuel newCanonical oldCanonical [] [Block_Hash oldCanonical];
  mret {| NewCanonical := newCanonical;
          OldCanonical := oldCanonical;
          CommonAncestor := b;
          CanonicalPath := if (0 <? length cp)%nat then drop_last cp else cp;
          NonCanonicalPath := if (0 <? length ncp)%nat then drop_last ncp else ncp |}.

Fixpoint IsAncestor (fuel : nat) (block maybeAncestor : L1Block) : M St bool :=
  match fuel with
  | O => crash "out of fuel"
  | S fuel =>
      if bool_decide (Block_Hash maybeAncestor = Block_Hash block) then mret true
      else if (Block_NumberU64 block <=? Block_NumberU64 maybeAncestor)%Z then mret false
      else p ← try (FetchBlock (Block_ParentHash block));
           match p with
           | inr _ => mret false
           | inl p => IsAncestor fuel p maybeAncestor
           end
  end.

Definition IsBlockAncestor (fuel : nat) (block : L1Block) (maybeAncestor : Hash) : M St bool :=
  resolvedBlock ← try (FetchBlock maybeAncestor);
  match resolvedBlock with
  | inr _ => mret false
  | inl resolvedBlock => IsAncestor fuel block resolvedBlock
  end.

(** [ancestorHeight] is a [*big.Int], compared through [Uint64()]. *)
Fixpoint getAncestorOfHeight (fuel : nat) (ancestorHeight : Z) (head : L1Block) : M St L1Block :=
  match fuel with
  | O => crash "out of fuel"
  | S fuel =>
      if bool_decide (Block_NumberU64 head = Int.u64 ancestorHeight) then mret head
      else p ← FetchBlock (Block_ParentHash head);
           getAncestorOfHeight fuel ancestorHeight p
  end.

(** The walks change the state by fetching only: what every fetch preserves,
    they preserve. *)
Section frame.
Context (R : relation St) `{!PreOrder R}.
Hypothesis HR : ∀ h s, R s (FetchBlock h s).1.

Lemma bind_frame {A B} (m : M St A) (f : A → M St B) s :
  R s (m s).1 → (∀ a s', R s' (f a s').1) → R s ((m ≫= f) s).1.
Proof.
  intros Hm Hf. unfold mbind, M_bind. destruct (m s) as [s' [a|e|c]]; simpl in *; [|done..].
  by etrans; [|apply Hf].
Qed.

Lemma wrap_frame {A} msg (m : M St A) s : R s (m s).1 → R s (wrap msg m s).1.
Proof. unfold wrap. by destruct (m s) as [s' [a|e|c]]. Qed.

Lemma try_frame {A} (m : M St A) s : R s (m s).1 → R s (try m s).1.
Proof. unfold try. by destruct (m s) as [s' [a|e|c]]. Qed.

Lemma internalLCA_frame fuel : ∀ new old cp ncp s, R s (internalLCA fuel new old cp ncp s).1.
Proof.
  induction fuel as [|fuel IH]; intros new old cp ncp s; cbn [internalLCA]; [done|].
  case_match; [done|]. case_match; [done|].
  case_match; [by apply bind_frame; [apply wrap_frame|]; eauto|].
  case_match; [by apply bind_frame; [apply wrap_frame|]; eauto|].
  apply bind_frame; [by apply wrap_frame|]. intros p s'. by apply bind_frame; [apply wrap_frame|]; eauto.
Qed.

Lemma LCA_frame fuel new old s : R s (LCA fuel new old s).1.
Proof. apply bind_frame; [apply internalLCA_frame|]. by intros [[b cp] ncp] s'. Qed.

Lemma IsAncestor_frame fuel : ∀ block anc s, R s (IsAncestor fuel block anc s).1.
Proof.
  induction fuel as [|fuel IH]; intros block anc s; cbn [IsAncestor]; [done|].
  case_match; [done|]. case_match; [done|]. apply bind_frame; [by apply try_frame|].
  by intros [p|e] s'.
Qed.

Lemma getAncestorOfHeight_frame fuel : ∀ n head s, R s (getAncestorOfHeight fuel n head s).1.
Proof.
  induction fuel as [|fuel IH]; intros n head s; cbn [getAncestorOfHeight]; [done|].
  case_match; [done|]. by apply bind_frame.
Qed.
End frame.
End walks.

(** ** Ancestry in a store of headers *)

Section ancestry.
Local Open Scope Z_scope.
Context (v : gmap Hash L1Header).
Implicit Types (a b c p : L1Header).

Definition parent_of (a p : L1Header) : Prop := v !! h_parent a = Some p.

(** [c] is [a] or one of the stored ancestors of [a]. *)
Definition ancestor : relation L1Header := rtc parent_of.

(** [l] lists the hashes of the blocks met on the way from [a] down to [c],
    [a] excluded and [c] included. *)
Inductive path : L1Header → list Hash → L1Header → Prop :=
  | path_nil a : path a [] a
  | path_cons a p l c : parent_of a p → path p l c → path a (h_hash p :: l) c.

(** Heights grow by one from parent to child. *)
Definition linked a : Prop := ∀ p, parent_of a p → h_number a = h_number p + 1.

(** A hash names at most one header. *)
Definition fits a : Prop := v !! h_hash a = None ∨ v !! h_hash a = Some a.

Record wf_view : Prop := {
  wf_hash : ∀ h a, v !! h = Some a → h_hash a = h;
  wf_linked : ∀ h a, v !! h = Some a → linked a;
  wf_number : ∀ h a, v !! h = Some a → 0 ≤ h_number a;
  wf_genesis : ∀ h a h' a', v !! h = Some a → v !! h' = Some a' →
    h_number a = 0 → h_number a' = 0 → a = a'
}.

Lemma parent_of_det a p p' : parent_of a p → parent_of a p' → p = p'.
Proof. unfold parent_of. congruence. Qed.

Lemma ancestor_refl a : ancestor a a.
Proof. apply rtc_refl. Qed.

Lemma ancestor_once a p : parent_of a p → ancestor a p.
Proof. apply rtc_once. Qed.

Lemma ancestor_inv a c : ancestor a c → a = c ∨ ∃ p, parent_of a p ∧ ancestor p c.
Proof. intros Hac. inversion Hac; subst; eauto. Qed.

Lemma path_ancestor a l c : path a l c → ancestor a c.
Proof. induction 1; [done|]. by eapply rtc_l. Qed.

Lemma path_app a l b l' c : path a l b → path b l' c → path a (l ++ l') c.
Proof. induction 1; simpl; eauto using path. Qed.

Lemma path_det_length a l c : path a l c → ∀ l' c', path a l' c' → length l = length l' → l = l' ∧ c = c'.
Proof.
  induction 1 as [|a p l c Hp _ IH]; inversion 1; subst; intros Hlen; simplify_eq/=; [done|].
  assert (p0 = p) as -> by eauto using parent_of_det.
  destruct (IH _ _ ltac:(eassumption) Hlen) as [-> ->]. done.
Qed.

Lemma ancestor_path a c : ancestor a c → ∃ l, path a l c.
Proof. induction 1 as [|a p c Hp _ [l Hl]]; eauto using path. Qed.

(** The ancestors of a block are totally ordered. *)
Lemma ancestor_total a b c : ancestor a b → ancestor a c → ancestor b c ∨ ancestor c b.
Proof.
  induction 1 as [|a p b Hp Hpb IH]; intros Hac; [by left|].
  apply ancestor_inv in Hac as [<-|(p' & Hp' & Hac)].
  - right. by eapply rtc_l.
  - rewrite (parent_of_det a p p') in *; eauto.
Qed.

Lemma path_snoc_inv a l c : path a l c → l ≠ [] → ∃ l', l = l' ++ [h_hash c].
Proof.
  induction 1 as [|a p l c Hp Hpath IH]; [done|]. intros _.
  destruct l as [|h l].
  - inversion Hpath; subst. by exists [].
  - destruct IH as [l' ->]; [done|]. by exists (h_hash p :: l').
Qed.

Section wf.
Hypothesis Hwf : wf_view.

Lemma ancestor_linked a c : linked a → ancestor a c → linked c.
Proof.
  intros Ha Hac. destruct Hac as [|a p c Hp Hpc]; [done|].
  assert (linked p) as Hlp by (eapply wf_linked; eauto).
  clear Ha Hp. induction Hpc as [|x y z Hxy _ IH]; [done|]. apply IH. eapply wf_linked; eauto.
Qed.

Lemma path_number a l c : linked a → path a l c → h_number a = h_number c + Z.of_nat (length l).
Proof.
  intros Ha Hp. induction Hp as [|a p l c Hp _ IH]; simpl; [lia|].
  rewrite (Ha p Hp), IH; [lia|]. eapply wf_linked; eauto.
Qed.

Lemma ancestor_number a c : linked a → ancestor a c → h_number c ≤ h_number a.
Proof.
  intros Ha [l Hl]%ancestor_path. rewrite (path_number _ _ _ Ha Hl). lia.
Qed.

(** An ancestor at the same height is the block itself. *)
Lemma ancestor_number_eq a c : linked a → ancestor a c → h_number c = h_number a → c = a.
Proof.
  intros Ha [l Hl]%ancestor_path Heq. pose proof (path_number _ _ _ Ha Hl).
  destruct l; [by inversion Hl | simpl in *; lia].
Qed.

Lemma ancestor_at_height a c c' :
  linked a → ancestor a c → ancestor a c' → h_number c = h_number c' → c = c'.
Proof.
  intros Ha Hc Hc' Heq. destruct (ancestor_total _ _ _ Hc Hc').
  - symmetry. eapply ancestor_number_eq; eauto using ancestor_linked.
  - eapply ancestor_number_eq; eauto using ancestor_linked.
Qed.

Lemma ancestor_stored a c h : v !! h = Some a → ancestor a c → v !! h_hash c = Some c.
Proof.
  intros Ha Hac. destruct (rtc_inv_r _ _ Hac) as [<-|(b & _ & Hb)].
  - by rewrite (wf_hash Hwf h a).
  - unfold parent_of in Hb. by rewrite (wf_hash Hwf _ _ Hb).
Qed.

Lemma fits_stored h a : v !! h = Some a → fits a.
Proof. intros Ha. right. by rewrite (wf_hash Hwf h a). Qed.

Lemma fits_eq a b h : v !! h = Some b → fits a → h_hash a = h_hash b → a = b.
Proof.
  intros Hb [Ha|Ha] Heq; rewrite Heq, (wf_hash Hwf h b Hb) in Ha; congruence.
Qed.

Lemma ancestor_antisym a c : linked a → ancestor a c → ancestor c a → a = c.
Proof.
  intros Ha Hac Hca. pose proof (ancestor_number _ _ Ha Hac).
  pose proof (ancestor_number _ _ (ancestor_linked _ _ Ha Hac) Hca).
  symmetry. eapply ancestor_number_eq; eauto. lia.
Qed.

(** Ancestry is decided by walking down. *)
Lemma ancestor_dec a x : linked a → ancestor a x ∨ ¬ ancestor a x.
Proof.
  assert (∀ n a x, linked a → h_number a - h_number x < Z.of_nat n → ancestor a x ∨ ¬ ancestor a x) as Hdec.
  { clear a x. intros n. induction n as [|n IH]; intros a x Ha Hn.
    { right. intros Hax. pose proof (ancestor_number _ _ Ha Hax). lia. }
    destruct (decide (a = x)) as [->|Hne]; [by left; apply ancestor_refl|].
    destruct (v !! h_parent a) as [p|] eqn:Hp.
    - pose proof (Ha p Hp). destruct (IH p x) as [Hpx|Hpx]; [by eapply wf_linked|lia|..].
      + left. by eapply rtc_l.
      + right. intros [->|(q & Hq & Hqx)]%ancestor_inv; [done|].
        by rewrite (parent_of_det _ _ _ Hq Hp) in Hqx.
    - right. intros [->|(q & Hq & _)]%ancestor_inv; [done|]. unfold parent_of in Hq. congruence. }
  intros Ha. apply (Hdec (S (Z.to_nat (h_number a - h_number x)))); [done|lia].
Qed.

(** The blocks a path lists, its last one excluded. *)
Lemma elem_of_path_interior a l c h :
  linked a → path a l c →
  h ∈ drop_last l ↔ ∃ x, h = h_hash x ∧ ancestor a x ∧ x ≠ a ∧ ancestor x c ∧ x ≠ c.
Proof.
  intros Ha Hpath. induction Hpath as [a|a p l c Hp Hpath IH].
  { rewrite drop_last_nil. split; [by intros ?%elem_of_nil|].
    intros (x & _ & Hax & Hne & Hxa & _). destruct Hne. symmetry; by apply ancestor_antisym. }
  assert (linked p) as Hlp by (eapply wf_linked; eauto).
  pose proof (Ha p Hp) as Hnum. specialize (IH Hlp).
  destruct l as [|h0 l].
  { inversion Hpath; subst. split; [by intros ?%elem_of_nil|].
    intros (x & _ & Hax & Hne & Hxc & Hne'). apply ancestor_inv in Hax as [->|(p' & Hp' & Hpx)]; [done|].
    pose proof (parent_of_det _ _ _ Hp Hp') as <-. destruct Hne'. symmetry. by apply ancestor_antisym. }
  rewrite drop_last_cons, elem_of_cons, IH. split.
  - intros [->|(x & -> & Hpx & Hne & Hxc & Hne')].
    + exists p. split_and!; eauto using path_ancestor, ancestor_once.
      * intros ->. lia.
      * intros ->. pose proof (path_number _ _ _ Hlp Hpath). simpl in *. lia.
    + exists x. split_and!; eauto; [by eapply rtc_l|].
      intros ->. pose proof (ancestor_number _ _ Hlp Hpx). lia.
  - intros (x & -> & Hax & Hne & Hxc & Hne').
    apply ancestor_inv in Hax as [->|(p' & Hp' & Hpx)]; [done|].
    pose proof (parent_of_det _ _ _ Hp Hp') as <-.
    destruct (decide (x = p)) as [->|Hxp]; [by left|]. right. eauto 10.
Qed.
End wf.
End ancestry.

(** ** Correctness of the walks *)

Section correctness.
Local Open Scope Z_scope.
Context {St : Type} `{BlockResolverOk St}.
Implicit Types (s : St).

Lemma FetchBlock_cases s h :
  resolver_inv s →
  (∃ s' b, FetchBlock h s = (s', Ok b) ∧ resolver_inv s' ∧ view s' = view s ∧
     view s !! h = Some (b_header b)) ∨
  (∃ s' e, FetchBlock h s = (s', Err e) ∧ resolver_inv s' ∧ view s' = view s ∧
     view s !! h = None).
Proof.
  intros Hs. destruct (FetchBlock_spec s h Hs) as (Hinv & Hview & Hr).
  destruct (FetchBlock h s) as [s' r]; simpl in *.
  destruct (view s !! h) as [hd|].
  - destruct Hr as (b & -> & <-). left. eauto 10.
  - destruct Hr as (e & ->). right. eauto 10.
Qed.

(** Two blocks the walk may start from: the second is stored, the first is the
    block being ingested. *)
Record lca_pre (v : gmap Hash L1Header) (new old : L1Header) : Prop := {
  lca_wf : wf_view v;
  lca_old : v !! h_hash old = Some old;
  lca_linked : linked v new;
  lca_fits : fits v new;
  lca_nonneg : 0 ≤ h_number new;
  lca_genesis : h_number new = 0 ∨ h_number old = 0 → new = old
}.

(** What a successful walk has found. *)
Definition lca_post (v : gmap Hash L1Header) (new old : L1Header) (cp ncp : list Hash)
    (r : result (L1Block * list Hash * list Hash)) : Prop :=
  match r with
  | Ok (ca, cp', ncp') => ∃ l1 l2,
      cp' = cp ++ l1 ∧ ncp' = ncp ++ l2 ∧
      path v new l1 (b_header ca) ∧ path v old l2 (b_header ca) ∧
      ∀ c, ancestor v new c → ancestor v old c → ancestor v (b_header ca) c
  | Err e => ∀ c, ancestor v new c → ancestor v old c → False
  | Crash _ => False
  end.
Arguments lca_post : simpl never.

Lemma old_number v new old : lca_pre v new old → 0 ≤ h_number old.
Proof. intros [Hwf Hold _ _ _ _]. by eapply wf_number. Qed.

(** Blocks at different heights or with different hashes: a common ancestor is
    a proper ancestor of the higher one. *)
Lemma common_below_new v new old c :
  lca_pre v new old → h_hash new ≠ h_hash old → h_number old ≤ h_number new →
  ancestor v new c → ancestor v old c → ∃ p, parent_of v new p ∧ ancestor v p c.
Proof.
  intros Hpre Hne Hle Hnew Hold. destruct (ancestor_inv _ _ _ Hnew) as [<-|]; [|done].
  destruct Hpre as [Hwf Hst _ _ _ _]. exfalso. apply Hne.
  assert (linked v old) as Hlo by (eapply wf_linked; eauto).
  pose proof (ancestor_number v Hwf _ _ Hlo Hold).
  rewrite (ancestor_number_eq v Hwf _ _ Hlo Hold); [done|lia].
Qed.

Lemma common_below_old v new old c :
  lca_pre v new old → h_hash new ≠ h_hash old → h_number new ≤ h_number old →
  ancestor v new c → ancestor v old c → ∃ p, parent_of v old p ∧ ancestor v p c.
Proof.
  intros Hpre Hne Hle Hnew Hold. destruct (ancestor_inv _ _ _ Hold) as [<-|]; [|done].
  destruct Hpre as [Hwf _ Hlnk _ _ _]. exfalso. apply Hne.
  pose proof (ancestor_number v Hwf _ _ Hlnk Hnew).
  by rewrite (ancestor_number_eq v Hwf _ _ Hlnk Hnew) by lia.
Qed.

(** Stepping the higher side keeps the precondition. *)
Lemma lca_pre_new v new old p :
  lca_pre v new old → parent_of v new p → 0 < h_number old → h_number old < h_number new →
  lca_pre v p old.
Proof.
  intros Hpre Hp Hpos Hlt. pose proof (lca_linked _ _ _ Hpre p Hp). destruct Hpre as [Hwf Hold _ _ _ _].
  split; eauto using wf_linked, fits_stored, wf_number. lia.
Qed.

Lemma lca_pre_old v new old p :
  lca_pre v new old → parent_of v old p → 0 < h_number new → h_number new < h_number old →
  lca_pre v new p.
Proof.
  intros Hpre Hp Hpos Hlt. destruct Hpre as [Hwf Hold Hl Hf Hn _].
  pose proof (wf_linked _ Hwf _ _ Hold p Hp).
  split; eauto; [|lia]. unfold parent_of in Hp. by rewrite (wf_hash _ Hwf _ _ Hp).
Qed.

Lemma lca_pre_both v new old p q :
  lca_pre v new old → parent_of v new p → parent_of v old q → h_number new = h_number old →
  lca_pre v p q.
Proof.
  intros Hpre Hp Hq Heq. pose proof (lca_linked _ _ _ Hpre p Hp). destruct Hpre as [Hwf Hold Hl Hf Hn _].
  pose proof (wf_linked _ Hwf _ _ Hold q Hq).
  unfold parent_of in *. split; eauto using wf_linked, fits_stored, wf_number.
  - by rewrite (wf_hash _ Hwf _ _ Hq).
  - intros Hz. eapply (wf_genesis _ Hwf _ _ _ _ Hp Hq); lia.
Qed.

(** The postcondition of a step from the postcondition of the rest. *)
Lemma lca_post_new v new old p cp ncp r :
  lca_pre v new old → h_hash new ≠ h_hash old → h_number old ≤ h_number new →
  parent_of v new p → lca_post v p old (cp ++ [h_hash p]) ncp r → lca_post v new old cp ncp r.
Proof.
  intros Hpre Hne Hle Hp. unfold lca_post. destruct r as [[[ca cp'] ncp']|e|]; [|intros Hno|done].
  - intros (l1 & l2 & -> & -> & Hl1 & Hl2 & Hlow). exists (h_hash p :: l1), l2.
    rewrite <-app_assoc. split_and!; eauto using path.
    intros c Hc1 Hc2. destruct (common_below_new _ _ _ _ Hpre Hne Hle Hc1 Hc2) as (p' & Hp' & ?).
    rewrite (parent_of_det v new p' p) in *; eauto.
  - intros c Hc1 Hc2.
    destruct (common_below_new _ _ _ _ Hpre Hne Hle Hc1 Hc2) as (p' & Hp' & ?).
    rewrite (parent_of_det v new p' p) in *; eauto.
Qed.

Lemma lca_post_old v new old q cp ncp r :
  lca_pre v new old → h_hash new ≠ h_hash old → h_number new ≤ h_number old →
  parent_of v old q → lca_post v new q cp (ncp ++ [h_hash q]) r → lca_post v new old cp ncp r.
Proof.
  intros Hpre Hne Hle Hp. unfold lca_post. destruct r as [[[ca cp'] ncp']|e|]; [|intros Hno|done].
  - intros (l1 & l2 & -> & -> & Hl1 & Hl2 & Hlow). exists l1, (h_hash q :: l2).
    rewrite <-app_assoc. split_and!; eauto using path.
    intros c Hc1 Hc2. destruct (common_below_old _ _ _ _ Hpre Hne Hle Hc1 Hc2) as (p' & Hp' & ?).
    rewrite (parent_of_det v old p' q) in *; eauto.
  - intros c Hc1 Hc2.
    destruct (common_below_old _ _ _ _ Hpre Hne Hle Hc1 Hc2) as (p' & Hp' & ?).
    rewrite (parent_of_det v old p' q) in *; eauto.
Qed.

Lemma lca_post_both v new old p q cp ncp r :
  lca_pre v new old → h_hash new ≠ h_hash old → h_number new = h_number old →
  parent_of v new p → parent_of v old q →
  lca_post v p q (cp ++ [h_hash p]) (ncp ++ [h_hash q]) r → lca_post v new old cp ncp r.
Proof.
  intros Hpre Hne Heq Hp Hq.
  assert (∀ c, ancestor v new c → ancestor v old c → ancestor v p c ∧ ancestor v q c) as Hdown.
  { intros c Hc1 Hc2.
    destruct (common_below_new _ _ _ _ Hpre Hne ltac:(lia) Hc1 Hc2) as (p' & Hp' & ?).
    destruct (common_below_old _ _ _ _ Hpre Hne ltac:(lia) Hc1 Hc2) as (q' & Hq' & ?).
    rewrite (parent_of_det v new p' p), (parent_of_det v old q' q) in *; eauto. }
  unfold lca_post. destruct r as [[[ca cp'] ncp']|e|]; [|intros Hno|done].
  - intros (l1 & l2 & -> & -> & Hl1 & Hl2 & Hlow). exists (h_hash p :: l1), (h_hash q :: l2).
    rewrite <-!app_assoc. split_and!; eauto using path.
    intros c Hc1 Hc2. destruct (Hdown c Hc1 Hc2). eauto.
  - intros c Hc1 Hc2. destruct (Hdown c Hc1 Hc2). eauto.
Qed.

(** Without the parent of the side that must step there is no common ancestor. *)
Lemma lca_post_missing v new old cp ncp e :
  lca_pre v new old → h_hash new ≠ h_hash old →
  (h_number old ≤ h_number new ∧ v !! h_parent new = None) ∨
  (h_number new ≤ h_number old ∧ v !! h_parent old = None) →
  lca_post v new old cp ncp (Err (ErrWrap "could not retrieve parent block" e)).
Proof.
  intros Hpre Hne Hm c Hc1 Hc2.
  destruct Hm as [[Hle Hnone]|[Hle Hnone]].
  - destruct (common_below_new _ _ _ _ Hpre Hne Hle Hc1 Hc2) as (p' & Hp' & ?).
    unfold parent_of in *. congruence.
  - destruct (common_below_old _ _ _ _ Hpre Hne Hle Hc1 Hc2) as (p' & Hp' & ?).
    unfold parent_of in *. congruence.
Qed.

Lemma lca_post_same v new old cp ncp (b : L1Block) :
  b_header b = new → new = old → lca_post v new old cp ncp (Ok (b, cp, ncp)).
Proof.
  intros <- <-. exists [], []. rewrite !app_nil_r. split_and!; eauto using path.
Qed.

(** The walk terminates, leaves the store alone and finds the latest common
    ancestor with both paths to it, or there is none. *)
Lemma internalLCA_spec fuel : ∀ (new old : L1Block) cp ncp s,
  resolver_inv s → lca_pre (view s) (b_header new) (b_header old) →
  h_number (b_header new) + h_number (b_header old) < Z.of_nat fuel →
  resolver_inv (internalLCA fuel new old cp ncp s).1 ∧
  view (internalLCA fuel new old cp ncp s).1 = view s ∧
  lca_post (view s) (b_header new) (b_header old) cp ncp (internalLCA fuel new old cp ncp s).2.
Proof.
  induction fuel as [|fuel IH]; intros new old cp ncp s Hs Hpre Hfuel.
  { pose proof (lca_nonneg _ _ _ Hpre). pose proof (old_number _ _ _ Hpre). lia. }
  cbn [internalLCA]. unfold Block_NumberU64, Block_Hash, Block_ParentHash, L1GenesisHeight.
  destruct (bool_decide (h_number (b_header new) = 0) || bool_decide (h_number (b_header old) = 0)) eqn:Hgen.
  { do 2 (split; [done|]). apply orb_true_iff in Hgen. rewrite !bool_decide_eq_true in Hgen.
    apply lca_post_same; [done|]. by apply (lca_genesis _ _ _ Hpre). }
  apply orb_false_iff in Hgen as [Hn0 Ho0]. rewrite bool_decide_eq_false in Hn0, Ho0.
  pose proof (lca_nonneg _ _ _ Hpre) as Hn. pose proof (old_number _ _ _ Hpre) as Ho.
  pose proof (lca_linked _ _ _ Hpre) as Hlnk.
  case_bool_decide as Hhash.
  { do 2 (split; [done|]). apply lca_post_same; [done|].
    eapply fits_eq; eauto using lca_wf, lca_old, lca_fits. }
  destruct (Z.ltb_spec (h_number (b_header old)) (h_number (b_header new))) as [Hlt|Hge].
  { unfold wrap, mbind, M_bind.
    destruct (FetchBlock_cases s (h_parent (b_header new)) Hs)
      as [(s1 & p & -> & Hs1 & Hv1 & Hp)|(s1 & e & -> & Hs1 & Hv1 & Hp)]; simpl.
    - rewrite <-Hv1. pose proof (Hlnk _ Hp).
      destruct (IH p old (cp ++ [h_hash (b_header p)]) ncp s1 Hs1) as (? & ? & Hpost);
        [rewrite Hv1; eapply lca_pre_new; eauto; lia | lia |].
      do 2 (split; [done|]). rewrite Hv1 in *. eapply lca_post_new; eauto. lia.
    - do 2 (split; [done|]). eapply lca_post_missing; eauto; (left; split; [lia|done]). }
  destruct (Z.ltb_spec (h_number (b_header new)) (h_number (b_header old))) as [Hlt|Hge'].
  { unfold wrap, mbind, M_bind.
    destruct (FetchBlock_cases s (h_parent (b_header old)) Hs)
      as [(s1 & p & -> & Hs1 & Hv1 & Hp)|(s1 & e & -> & Hs1 & Hv1 & Hp)]; simpl.
    - rewrite <-Hv1. pose proof (wf_linked _ (lca_wf _ _ _ Hpre) _ _ (lca_old _ _ _ Hpre) _ Hp).
      destruct (IH new p cp (ncp ++ [h_hash (b_header p)]) s1 Hs1) as (? & ? & Hpost);
        [rewrite Hv1; eapply lca_pre_old; eauto; lia | lia |].
      do 2 (split; [done|]). rewrite Hv1 in *. eapply lca_post_old; eauto; lia.
    - do 2 (split; [done|]). eapply lca_post_missing; eauto; (right; split; [lia|done]). }
  assert (h_number (b_header new) = h_number (b_header old)) as Heq by lia.
  unfold wrap, mbind, M_bind.
  destruct (FetchBlock_cases s (h_parent (b_header new)) Hs)
    as [(s1 & p & -> & Hs1 & Hv1 & Hp)|(s1 & e & -> & Hs1 & Hv1 & Hp)]; simpl;
    [|do 2 (split; [done|]); eapply lca_post_missing; eauto; (left; split; [lia|done])].
  destruct (FetchBlock_cases s1 (h_parent (b_header old)) Hs1)
    as [(s2 & q & -> & Hs2 & Hv2 & Hq)|(s2 & e & -> & Hs2 & Hv2 & Hq)]; simpl; rewrite Hv1 in *;
    [|do 2 (split; [done|]); eapply lca_post_missing; eauto; (right; split; [lia|done])].
  pose proof (Hlnk _ Hp). pose proof (wf_linked _ (lca_wf _ _ _ Hpre) _ _ (lca_old _ _ _ Hpre) _ Hq).
  rewrite <-Hv2.
  destruct (IH p q (cp ++ [h_hash (b_header p)]) (ncp ++ [h_hash (b_header q)]) s2 Hs2) as (? & ? & Hpost);
    [rewrite Hv2; eapply lca_pre_both; eauto | lia |].
  do 2 (split; [done|]). rewrite Hv2 in *. eapply lca_post_both; eauto.
Qed.

(** The paths of a successful walk, as sets: the blocks that are only on the
    old chain and the blocks below the new one that are only on its chain. *)
Lemma lca_post_nonCanonical v new old ca cp ncp h :
  lca_pre v new old → lca_post v new old [] [h_hash old] (Ok (ca, cp, ncp)) →
  h ∈ drop_last ncp ↔ ∃ x, h = h_hash x ∧ ancestor v old x ∧ ¬ ancestor v new x.
Proof.
  intros Hpre (l1 & l2 & -> & -> & Hl1 & Hl2 & Hlow). simpl.
  pose proof (lca_wf _ _ _ Hpre) as Hwf.
  assert (linked v old) as Hlo by (eapply wf_linked; eauto using lca_old).
  assert (h ∈ drop_last (h_hash old :: l2) ↔
    ∃ x, h = h_hash x ∧ ancestor v old x ∧ ancestor v x (b_header ca) ∧ x ≠ b_header ca) as ->.
  { destruct l2 as [|h2 l2].
    - inversion Hl2; subst. split; [by intros ?%elem_of_nil|].
      intros (x & _ & Hox & Hxo & Hne). destruct Hne. symmetry. by eapply ancestor_antisym.
    - rewrite drop_last_cons, elem_of_cons, (elem_of_path_interior v Hwf _ _ _ _ Hlo Hl2). split.
      + intros [->|(x & ? & ? & ? & ? & ?)]; [|by eauto 10]. exists old. split_and!; eauto using path_ancestor, ancestor_refl.
        intros Heq. pose proof (path_number v Hwf _ _ _ Hlo Hl2) as Hn. rewrite <-Heq in Hn. simpl in Hn. lia.
      + intros (x & -> & Hox & Hxc & Hne). destruct (decide (x = old)) as [->|]; [by left|]. right. eauto 10. }
  assert (ancestor v old (b_header ca)) as Hoc by eauto using path_ancestor.
  assert (ancestor v new (b_header ca)) as Hnc by eauto using path_ancestor.
  split; intros (x & -> & Hox & Hx); exists x; split_and!; eauto.
  - destruct Hx as [Hxc Hne]. intros Hnx. apply Hne.
    symmetry. eapply ancestor_antisym; eauto. eapply ancestor_linked; eauto.
  - destruct (ancestor_total _ _ _ _ Hox Hoc) as [|Hcx]; [done|]. destruct Hx. by etrans.
  - intros ->. done.
Qed.

Lemma lca_post_canonical v new old ca cp ncp h :
  lca_pre v new old → lca_post v new old [] [h_hash old] (Ok (ca, cp, ncp)) →
  h ∈ drop_last cp ↔
  ∃ x, h = h_hash x ∧ x ≠ new ∧ ancestor v new x ∧ ¬ ancestor v old x.
Proof.
  intros Hpre (l1 & l2 & -> & -> & Hl1 & Hl2 & Hlow). simpl.
  pose proof (lca_wf _ _ _ Hpre) as Hwf. pose proof (lca_linked _ _ _ Hpre) as Hln.
  rewrite (elem_of_path_interior v Hwf _ _ _ _ Hln Hl1).
  assert (ancestor v old (b_header ca)) as Hoc by eauto using path_ancestor.
  assert (ancestor v new (b_header ca)) as Hnc by eauto using path_ancestor.
  split; intros (x & -> & Hx); exists x.
  - destruct Hx as (Hnx & Hne & Hxc & Hne'). split_and!; eauto. intros Hox. apply Hne'.
    symmetry. eapply ancestor_antisym; eauto. eapply ancestor_linked; eauto.
  - destruct Hx as (Hne & Hnx & Hox). split_and!; eauto; [|by intros ->].
    destruct (ancestor_total _ _ _ _ Hnx Hnc) as [|Hcx]; [done|]. destruct Hox. by etrans.
Qed.

Lemma LCA_spec fuel (new old : L1Block) s :
  resolver_inv s → lca_pre (view s) (b_header new) (b_header old) →
  h_number (b_header new) + h_number (b_header old) < Z.of_nat fuel →
  resolver_inv (LCA fuel new old s).1 ∧ view (LCA fuel new old s).1 = view s ∧
  match (LCA fuel new old s).2 with
  | Ok cf =>
      NewCanonical cf = new ∧ OldCanonical cf = old ∧
      let ca := b_header (CommonAncestor cf) in
      ancestor (view s) (b_header new) ca ∧ ancestor (view s) (b_header old) ca ∧
      (∀ c, ancestor (view s) (b_header new) c → ancestor (view s) (b_header old) c →
            ancestor (view s) ca c) ∧
      (∀ h, h ∈ NonCanonicalPath cf ↔ ∃ x, h = h_hash x ∧
            ancestor (view s) (b_header old) x ∧ ¬ ancestor (view s) (b_header new) x) ∧
      (∀ h, h ∈ CanonicalPath cf ↔ ∃ x, h = h_hash x ∧ x ≠ b_header new ∧
            ancestor (view s) (b_header new) x ∧ ¬ ancestor (view s) (b_header old) x)
  | Err e => ∀ c, ancestor (view s) (b_header new) c → ancestor (view s) (b_header old) c → False
  | Crash _ => False
  end.
Proof.
  intros Hs Hpre Hfuel. unfold LCA, mbind, M_bind.
  destruct (internalLCA_spec fuel new old [] [Block_Hash old] s Hs Hpre Hfuel) as (Hinv & Hview & Hpost).
  destruct (internalLCA fuel new old [] [Block_Hash old] s) as [s' [[[ca cp] ncp]|e|c]]; simpl in *;
    [|done..].
  pose proof (λ h, lca_post_nonCanonical _ _ _ _ _ _ h Hpre Hpost) as Hncp.
  pose proof (λ h, lca_post_canonical _ _ _ _ _ _ h Hpre Hpost) as Hcp.
  destruct Hpost as (l1 & l2 & -> & -> & Hl1 & Hl2 & Hlow). simpl in *.
  split_and!; eauto using path_ancestor.
  destruct (Nat.ltb_spec 0 (length l1)); [done|]. destruct l1; [done|simpl in *; lia].
Qed.

(** Ancestry of a block the storage holds, decided by its walk. *)
Lemma IsAncestor_spec fuel : ∀ (block anc : L1Block) s,
  resolver_inv s → wf_view (view s) → linked (view s) (b_header block) →
  fits (view s) (b_header block) → view s !! Block_Hash anc = Some (b_header anc) →
  h_number (b_header block) < Z.of_nat fuel → 0 ≤ h_number (b_header block) →
  resolver_inv (IsAncestor fuel block anc s).1 ∧ view (IsAncestor fuel block anc s).1 = view s ∧
  ∃ r, (IsAncestor fuel block anc s).2 = Ok r ∧
    (r = true ↔ ancestor (view s) (b_header block) (b_header anc)).
Proof.
  induction fuel as [|fuel IH]; intros block anc s Hs Hwf Hlnk Hfit Hanc Hfuel Hpos; [lia|].
  cbn [IsAncestor]. unfold Block_NumberU64, Block_Hash, Block_ParentHash in *.
  case_bool_decide as Hh.
  { do 2 (split; [done|]). exists true. split; [done|]. split; [|done]. intros _.
    by rewrite (fits_eq _ Hwf (b_header block) (b_header anc) _ Hanc Hfit). }
  destruct (Z.leb_spec (h_number (b_header block)) (h_number (b_header anc))) as [Hle|Hlt].
  { do 2 (split; [done|]). exists false. split; [done|]. split; [done|]. intros Ha.
    pose proof (ancestor_number _ Hwf _ _ Hlnk Ha).
    by rewrite (ancestor_number_eq _ Hwf _ _ Hlnk Ha) in Hh by lia. }
  unfold try, mbind, M_bind.
  assert (∀ p, view s !! h_parent (b_header block) = p →
    (ancestor (view s) (b_header block) (b_header anc) ↔
     ∃ q, p = Some q ∧ ancestor (view s) q (b_header anc))) as Hstep.
  { intros p <-. split.
    - intros [Heq|(q & Hq & Hqa)]%ancestor_inv; [by rewrite Heq in Hh|]. eauto.
    - intros (q & Hq & Hqa). by eapply rtc_l. }
  destruct (FetchBlock_cases s (h_parent (b_header block)) Hs)
    as [(s1 & p & -> & Hs1 & Hv1 & Hp)|(s1 & e & -> & Hs1 & Hv1 & Hp)]; simpl.
  - pose proof (Hlnk _ Hp). pose proof (wf_number _ Hwf _ _ Hp).
    destruct (IH p anc s1 Hs1) as (? & ? & r & Hr & Hiff); rewrite ?Hv1; eauto using wf_linked, fits_stored; [lia|].
    rewrite Hv1 in *. do 2 (split; [done|]). exists r. split; [done|].
    rewrite Hiff, (Hstep _ eq_refl), Hp.
    split; [by eauto | by intros (q & [= <-] & ?)].
  - do 2 (split; [done|]). exists false. split; [done|]. rewrite (Hstep _ eq_refl), Hp.
    split; [done | by intros (q & ? & _)].
Qed.

(** The block at a given height below a head. *)
Lemma getAncestorOfHeight_spec fuel : ∀ (n : Z) (head : L1Block) s,
  resolver_inv s → wf_view (view s) → view s !! Block_Hash head = Some (b_header head) →
  h_number (b_header head) < Z.of_nat fuel →
  resolver_inv (getAncestorOfHeight fuel n head s).1 ∧
  view (getAncestorOfHeight fuel n head s).1 = view s ∧
  match (getAncestorOfHeight fuel n head s).2 with
  | Ok b => ancestor (view s) (b_header head) (b_header b) ∧ h_number (b_header b) = Int.u64 n
  | Err e => ∀ c, ancestor (view s) (b_header head) c → h_number c ≠ Int.u64 n
  | Crash _ => False
  end.
Proof.
  induction fuel as [|fuel IH]; intros n head s Hs Hwf Hst Hfuel.
  { pose proof (wf_number _ Hwf _ _ Hst). lia. }
  cbn [getAncestorOfHeight]. unfold Block_NumberU64, Block_Hash, Block_ParentHash in *.
  case_bool_decide as Hh; [by eauto using ancestor_refl|].
  unfold mbind, M_bind. pose proof (wf_linked _ Hwf _ _ Hst) as Hlnk.
  destruct (FetchBlock_cases s (h_parent (b_header head)) Hs)
    as [(s1 & p & -> & Hs1 & Hv1 & Hp)|(s1 & e & -> & Hs1 & Hv1 & Hp)]; simpl.
  - pose proof (Hlnk _ Hp). pose proof (wf_hash _ Hwf _ _ Hp) as Hph.
    destruct (IH n p s1 Hs1) as (? & ? & Hr); rewrite ?Hv1, ?Hph; [done..|lia|].
    rewrite Hv1 in *. do 2 (split; [done|]).
    destruct (getAncestorOfHeight fuel n p s1).2 as [b|e|]; [|intros c Hc|done].
    + destruct Hr as [Hr ?]. split; [by eapply rtc_l|done].
    + apply ancestor_inv in Hc as [<-|(q & Hq & Hqc)]; [done|].
      rewrite (parent_of_det _ _ _ _ Hq Hp) in Hqc. by apply Hr.
  - do 2 (split; [done|]). intros c [<-|(q & Hq & Hqc)]%ancestor_inv; [done|].
    unfold parent_of in Hq. congruence.
Qed.
End correctness.
