(* ===== verification/EnclaveDB.v ===== *)
(** * The enclave database

    The tables of [go/enclave/storage/init/sqlite], the queries of
    [go/enclave/storage/enclavedb] ([batch.go], [block.go], [config.go],
    [keyvalue.go]) and the write transactions of [db_transaction.go].

    A table is a finite map from its primary key (a list where it has none).
    Inserts check the constraints the schema declares: primary keys, the unique
    sequence of a batch, and the foreign keys, which SQLite enforces
    ([_foreign_keys=on] in [db_init.go]). *)

From S2P Require Import Prelude Types Codec.

(** ** Tables *)

Record BlockRow := mkBlockRow {
  blk_hash : Hash;
  blk_parent : option Hash;
  blk_is_canonical : bool;
  blk_header : bytes;
  blk_height : Z
}.

Record BatchRow := mkBatchRow {
  bat_hash : Hash;
  bat_parent : option Hash;
  bat_sequence : Z;
  bat_height : Z;
  bat_is_canonical : bool;
  bat_header : bytes;
  bat_body : Hash;
  bat_l1_proof : Hash;
  bat_is_executed : bool
}.

Record TxRow := mkTxRow {
  txr_hash : Hash;
  txr_content : bytes;
  txr_sender : Address;
  txr_nonce : Z;
  txr_idx : Z;
  txr_body : Hash
}.

Record ExecRow := mkExecRow {
  ex_contract : Address;
  ex_receipt : bytes;
  ex_tx : Hash;
  ex_batch : Hash
}.

Record RollupRow := mkRollupRow {
  rol_hash : Hash;
  rol_start_seq : Z;
  rol_end_seq : Z;
  rol_header : bytes;
  rol_compression_block : Hash
}.

(** The [events] table; a [None] column is NULL. *)
Record EventRow := mkEventRow {
  ev_topics : list Hash;
  ev_data : option bytes;
  ev_idx : Z;
  ev_address : Address;
  ev_lifecycle : bool;
  ev_rel : list (option Address);
  ev_exec : Hash * Hash
}.

Record DB := mkDB {
  t_block : gmap Hash BlockRow;
  t_batch : gmap Hash BatchRow;
  t_body : gmap Hash bytes;
  t_tx : gmap Hash TxRow;
  t_exec : gmap (Hash * Hash) ExecRow;
  t_l1msg : list (bytes * Hash);
  t_rollup : gmap Hash RollupRow;
  t_att : list (Address * bytes);
  t_config : gmap bytes bytes;
  t_kv : gmap bytes bytes;
  t_events : list EventRow
}.

(** A database after the schema scripts: no rows but the configuration entry
    ["CURRENT_SEQ"], which nothing reads. *)
Definition emptyDB : DB :=
  mkDB ∅ ∅ ∅ ∅ ∅ [] ∅ [] {[ [67; 85; 82; 82; 69; 78; 84; 95; 83; 69; 81]%Z := [45; 49]%Z ]} ∅ [].

Definition upd_block f d := mkDB (f (t_block d)) (t_batch d) (t_body d) (t_tx d) (t_exec d)
  (t_l1msg d) (t_rollup d) (t_att d) (t_config d) (t_kv d) (t_events d).
Definition upd_batch f d := mkDB (t_block d) (f (t_batch d)) (t_body d) (t_tx d) (t_exec d)
  (t_l1msg d) (t_rollup d) (t_att d) (t_config d) (t_kv d) (t_events d).
Definition upd_body f d := mkDB (t_block d) (t_batch d) (f (t_body d)) (t_tx d) (t_exec d)
  (t_l1msg d) (t_rollup d) (t_att d) (t_config d) (t_kv d) (t_events d).
Definition upd_tx f d := mkDB (t_block d) (t_batch d) (t_body d) (f (t_tx d)) (t_exec d)
  (t_l1msg d) (t_rollup d) (t_att d) (t_config d) (t_kv d) (t_events d).
Definition upd_exec f d := mkDB (t_block d) (t_batch d) (t_body d) (t_tx d) (f (t_exec d))
  (t_l1msg d) (t_rollup d) (t_att d) (t_config d) (t_kv d) (t_events d).
Definition upd_l1msg f d := mkDB (t_block d) (t_batch d) (t_body d) (t_tx d) (t_exec d)
  (f (t_l1msg d)) (t_rollup d) (t_att d) (t_config d) (t_kv d) (t_events d).
Definition upd_rollup f d := mkDB (t_block d) (t_batch d) (t_body d) (t_tx d) (t_exec d)
  (t_l1msg d) (f (t_rollup d)) (t_att d) (t_config d) (t_kv d) (t_events d).
Definition upd_att f d := mkDB (t_block d) (t_batch d) (t_body d) (t_tx d) (t_exec d)
  (t_l1msg d) (t_rollup d) (f (t_att d)) (t_config d) (t_kv d) (t_events d).
Definition upd_config f d := mkDB (t_block d) (t_batch d) (t_body d) (t_tx d) (t_exec d)
  (t_l1msg d) (t_rollup d) (t_att d) (f (t_config d)) (t_kv d) (t_events d).
Definition upd_kv f d := mkDB (t_block d) (t_batch d) (t_body d) (t_tx d) (t_exec d)
  (t_l1msg d) (t_rollup d) (t_att d) (t_config d) (f (t_kv d)) (t_events d).
Definition upd_events f d := mkDB (t_block d) (t_batch d) (t_body d) (t_tx d) (t_exec d)
  (t_l1msg d) (t_rollup d) (t_att d) (t_config d) (t_kv d) (f (t_events d)).

(** ** Statements

    The SQL statements the code queues in a transaction or executes directly,
    with their arguments. *)

Inductive statement :=
  | bodyInsert (bodyHash : Hash) (body : bytes)
  | bInsert (row : BatchRow)
  | txInsert (rows : list TxRow)
  | updateBatchExecuted (hash : Hash)
  | txExecInsert (rows : list ExecRow)
  | blockInsert (row : BlockRow)
  | updateCanonicalBlock (isCanonical : bool) (values : list Hash)
  | updateCanonicalBatches (isCanonical : bool) (values : list Hash)
  | l1msgInsert (rows : list (bytes * Hash))
  | rollupInsert (row : RollupRow)
  | cfgInsert (ky val : bytes)
  | cfgUpdate (val ky : bytes)
  | attInsert (party : Address) (ky : bytes)
  | insertEvent (rows : list EventRow).

(** [database/sql] refuses a [uint64] with the high bit set as an argument. *)
Definition sql_uint64 (x : Z) : bool := (x <? 2 ^ 63)%Z.

Definition set_blk_canonical (c : bool) (r : BlockRow) : BlockRow :=
  mkBlockRow (blk_hash r) (blk_parent r) c (blk_header r) (blk_height r).
Definition set_bat_canonical (c : bool) (r : BatchRow) : BatchRow :=
  mkBatchRow (bat_hash r) (bat_parent r) (bat_sequence r) (bat_height r) c (bat_header r)
    (bat_body r) (bat_l1_proof r) (bat_is_executed r).
Definition set_bat_executed (r : BatchRow) : BatchRow :=
  mkBatchRow (bat_hash r) (bat_parent r) (bat_sequence r) (bat_height r) (bat_is_canonical r)
    (bat_header r) (bat_body r) (bat_l1_proof r) true.

(** [insert into exec_tx]: the key is the batch hash followed by the
    transaction hash; the batch must exist. *)
Definition insertExec (d : DB) (acc : option (gmap (Hash * Hash) ExecRow)) (r : ExecRow)
    : option (gmap (Hash * Hash) ExecRow) :=
  m ← acc;
  _ ← t_batch d !! ex_batch r;
  sql_insert (ex_batch r, ex_tx r) r m.

Definition exec_statement (q : statement) (d : DB) : option DB :=
  match q with
  | bodyInsert h b => Some (upd_body (<[h := b]>) d)
  | bInsert row =>
      _ ← t_body d !! bat_body row;
      if negb (sql_uint64 (bat_sequence row) && sql_uint64 (bat_height row)) then None
      else match sql_row (λ r, bool_decide (bat_sequence r = bat_sequence row)) (t_batch d) with
           | Some _ => None
           | None => m ← sql_insert (bat_hash row) row (t_batch d); Some (upd_batch (λ _, m) d)
           end
  | txInsert rows =>
      if forallb (λ r, sql_uint64 (txr_nonce r) && bool_decide (is_Some (t_body d !! txr_body r))) rows
      then Some (upd_tx (λ m, fold_left (λ m r, <[txr_hash r := r]> m) rows m) d)
      else None
  | updateBatchExecuted h =>
      Some (upd_batch (sql_update (λ r, bool_decide (bat_hash r = h)) set_bat_executed) d)
  | txExecInsert rows =>
      m ← fold_left (insertExec d) rows (Some (t_exec d)); Some (upd_exec (λ _, m) d)
  | blockInsert row =>
      if negb (sql_uint64 (blk_height row)) then None
      else m ← sql_insert (blk_hash row) row (t_block d); Some (upd_block (λ _, m) d)
  | updateCanonicalBlock c hs =>
      Some (upd_block (sql_update (λ r, bool_decide (blk_hash r ∈ hs)) (set_blk_canonical c)) d)
  | updateCanonicalBatches c hs =>
      Some (upd_batch (sql_update (λ r, bool_decide (bat_l1_proof r ∈ hs)) (set_bat_canonical c)) d)
  | l1msgInsert rows =>
      if forallb (λ r, bool_decide (is_Some (t_block d !! r.2))) rows
      then Some (upd_l1msg (λ l, l ++ rows) d) else None
  | rollupInsert row =>
      if sql_uint64 (rol_start_seq row) && sql_uint64 (rol_end_seq row)
      then Some (upd_rollup (<[rol_hash row := row]>) d) else None
  | cfgInsert k v => m ← sql_insert k v (t_config d); Some (upd_config (λ _, m) d)
  | cfgUpdate v k => Some (upd_config (alter (λ _, v) k) d)
  | attInsert p k => Some (upd_att (λ l, l ++ [(p, k)]) d)
  | insertEvent rows =>
      (* topic0 is NOT NULL *)
      if forallb (λ r, bool_decide (ev_topics r ≠ []) && bool_decide (is_Some (t_exec d !! ev_exec r))) rows
      then Some (upd_events (λ l, l ++ rows) d) else None
  end.

Fixpoint exec_all (qs : list statement) (d : DB) : option DB :=
  match qs with
  | [] => Some d
  | q :: qs => d' ← exec_statement q d; exec_all qs d'
  end.

Definition exec_statements (qs : list statement) : M DB unit := λ d,
  match exec_all qs d with
  | Some d' => (d', Ok tt)
  | None => (d, Err (ErrMsg "failed to exec db statement"))
  end.

(** [db.Exec] outside a transaction. *)
Definition db_Exec (q : statement) : M DB unit := λ d,
  match exec_statement q d with
  | Some d' => (d', Ok tt)
  | None => (d, Err (ErrMsg "constraint failed"))
  end.

(** ** Key-value operations ([keyvalue.go]) *)

Module KeyValue.
(** [Scan] is called without destinations for a query of one column, which
    [database/sql] reports as an error whenever there is a row. *)
Definition Has (key : bytes) (d : DB) : result bool :=
  match t_kv d !! key with
  | None => Ok false
  | Some _ => Err (ErrMsg "sql: expected 1 destination arguments in Scan, not 0")
  end.

Definition Get (key : bytes) (d : DB) : result bytes := of_option ErrNotFound (t_kv d !! key).

Definition Put (key value : bytes) : M DB unit := modify (upd_kv (<[key := value]>)).

Definition Delete (key : bytes) : M DB unit := modify (upd_kv (delete key)).

(** A single [replace] statement: rows are written in order. *)
Definition PutKeyValues (keys vals : list bytes) : M DB unit :=
  if bool_decide (length keys ≠ length vals)
  then fail (ErrMsg "invalid command. should not happen")
  else if (0 <? length keys)%nat
  then modify (upd_kv (λ m, fold_left (λ m kv, <[kv.1 := kv.2]> m) (zip keys vals) m))
  else mret tt.

Definition DeleteKeys (keys : list bytes) : M DB unit := forM keys Delete.
End KeyValue.

(** ** Write transactions ([db_transaction.go]) *)

Record keyvalue := mkKeyvalue { kv_key : bytes; kv_value : bytes; kv_delete : bool }.

Module dbTransaction.
Record t := mk { writes : list keyvalue; statements : list statement; size : Z }.

Definition new : t := mk [] [] 0.

Definition ExecuteSQL (q : statement) : M t unit :=
  modify (λ b, mk (writes b) (statements b ++ [q]) (size b)).

Definition Put (key value : bytes) : M t unit :=
  modify (λ b, mk (writes b ++ [mkKeyvalue key value false]) (statements b)
                 (size b + Z.of_nat (length key + length value))).

Definition Delete (key : bytes) : M t unit :=
  modify (λ b, mk (writes b ++ [mkKeyvalue key [] true]) (statements b)
                 (size b + Z.of_nat (length key))).

Definition ValueSize (b : t) : Z := size b.

Definition Reset : M t unit := modify (λ _, mk [] [] 0).

(** The updates of the batch and its deletions, split as [Write] does. *)
Definition deletes (b : t) : list bytes := kv_key <$> filter (λ kv, kv_delete kv = true) (writes b).
Definition updates (b : t) : list keyvalue := filter (λ kv, kv_delete kv = false) (writes b).

(** What the statements of the batch do inside the SQL transaction. *)
Definition body (b : t) : M DB unit :=
  _ ← wrap "failed to put key/value" (KeyValue.PutKeyValues (kv_key <$> updates b) (kv_value <$> updates b));
  _ ← wrap "failed to delete keys" (KeyValue.DeleteKeys (deletes b));
  exec_statements (statements b).

(** Nothing of a transaction that fails is visible: it is never committed. *)
Definition Write (b : t) : M DB unit := λ d,
  match body b d with
  | (d', Ok _) => (d', Ok tt)
  | (_, Err e) => (d, Err e)
  | (_, Crash m) => (d, Crash m)
  end.

(** Replays the batch on a key-value writer, in the order of the calls. *)
Definition Replay {W} (w_put : bytes → bytes → M W unit) (w_delete : bytes → M W unit) (b : t)
    : M W unit :=
  forM (writes b) (λ kv, if kv_delete kv then w_delete (kv_key kv) else w_put (kv_key kv) (kv_value kv)).
End dbTransaction.

(** ** Configuration and attested keys ([config.go]) *)

Definition WriteConfigToBatch (key value : bytes) : M dbTransaction.t unit :=
  dbTransaction.ExecuteSQL (cfgInsert key value).
Definition WriteConfig (key value : bytes) : M DB unit := db_Exec (cfgInsert key value).
(** The arguments fill the placeholders of [update config set val=? where ky=?]
    in the order they are given: the key first. *)
Definition UpdateConfigToBatch (key value : bytes) : M dbTransaction.t unit :=
  dbTransaction.ExecuteSQL (cfgUpdate key value).
Definition UpdateConfig (key value : bytes) : M DB unit := db_Exec (cfgUpdate key value).
Definition FetchConfig (key : bytes) (d : DB) : result bytes := of_option ErrNotFound (t_config d !! key).

Definition WriteAttKey (party : Address) (key : bytes) : M DB unit := db_Exec (attInsert party key).
Definition FetchAttKey (party : Address) (d : DB) : result bytes :=
  of_option ErrNotFound (snd <$> head (filter (λ r, r.1 = party) (t_att d))).

(** ** Codecs the queries use *)

(** RLP at the types the tables store, and the signer of go-ethereum. *)
Class DBCodecs := {
  #[global] codec_header :: Codec L1Header;
  #[global] codec_batch_header :: Codec BatchHeader;
  #[global] codec_txs :: Codec (list L2Tx);
  #[global] codec_tx :: Codec L2Tx;
  #[global] codec_msg :: Codec CrossChainMessage;
  #[global] codec_rollup :: Codec RollupHeader;
  Sender : L2Tx → option Address;
  (** [ReceiptForStorage], and the fields derived when it is read back: the
      batch hash, its height and the transaction. *)
  encode_receipt : Receipt → option bytes;
  decode_receipt : bytes → option Receipt;
  DeriveFields : Hash → Z → L2Tx → Receipt → option Receipt
}.

(** The laws the round trips rest on. *)
Class DBCodecsOk `{DBCodecs} : Prop := {
  #[global] codec_header_ok :: CodecOk L1Header;
  #[global] codec_batch_header_ok :: CodecOk BatchHeader;
  #[global] codec_txs_ok :: CodecOk (list L2Tx);
  #[global] codec_tx_ok :: CodecOk L2Tx;
  #[global] codec_msg_ok :: CodecOk CrossChainMessage;
  #[global] codec_rollup_ok :: CodecOk RollupHeader
}.

(** ** Blocks ([block.go]) *)

Section blocks.
Context `{DBCodecs, Hashing}.

Definition WriteBlock (b : L1Header) : M dbTransaction.t unit :=
  header ← wrap "could not encode block header" (lift (EncodeToBytes b));
  dbTransaction.ExecuteSQL (blockInsert {|
    blk_hash := h_hash b;
    blk_parent := if (1 <? Int.u64 (h_number b))%Z then Some (h_parent b) else None;
    blk_is_canonical := true;
    blk_header := header;
    blk_height := Int.u64 (h_number b) |}).

Definition updateCanonicalValue (isCanonical : bool) (values : list Hash) : M dbTransaction.t unit :=
  _ ← dbTransaction.ExecuteSQL (updateCanonicalBlock isCanonical values);
  dbTransaction.ExecuteSQL (updateCanonicalBatches isCanonical values).

Definition UpdateCanonicalBlocks (canonical nonCanonical : list Hash) : M dbTransaction.t unit :=
  _ ← when (0 <? length nonCanonical)%nat (updateCanonicalValue false nonCanonical);
  when (0 <? length canonical)%nat (updateCanonicalValue true canonical).

Definition fetchBlockHeader (whereQuery : BlockRow → bool) (d : DB) : result L1Header :=
  row ← of_option ErrNotFound (sql_row whereQuery (t_block d));
  match rlp_decode (blk_header row) with
  | Some h => Ok h
  | None => Err (ErrMsg "could not decode l1 block header")
  end.

Definition fetchBlock (whereQuery : BlockRow → bool) (d : DB) : result L1Block :=
  h ← fetchBlockHeader whereQuery d; Ok (NewBlockWithHeader h).

Definition FetchBlockHeader (hash : Hash) : DB → result L1Header :=
  fetchBlockHeader (λ r, bool_decide (blk_hash r = hash)).

Definition db_FetchBlock (hash : Hash) : DB → result L1Block :=
  fetchBlock (λ r, bool_decide (blk_hash r = hash)).

Definition FetchHeadBlock (d : DB) : result L1Block :=
  let max := sql_max blk_is_canonical blk_height (t_block d) in
  fetchBlock (λ r, blk_is_canonical r && bool_decide (Some (blk_height r) = max)) d.

Definition FetchBlockHeaderByHeight (height : Z) : DB → result L1Header :=
  fetchBlockHeader (λ r, blk_is_canonical r && bool_decide (blk_height r = Int.i64 height)).

(** With no message the statement is built but not executed. *)
Definition WriteL1Messages (blockHash : Hash) (messages : list CrossChainMessage) : M DB unit :=
  rows ← lift (mapR (λ msg, data ← EncodeToBytes msg; Ok (data, blockHash)) messages);
  when (0 <? length messages)%nat (db_Exec (l1msgInsert rows)).

Definition FetchL1Messages (blockHash : Hash) (d : DB) : result (list CrossChainMessage) :=
  mapR (λ row, match rlp_decode row.1 with
               | Some ccm => Ok ccm
               | None => Err (ErrMsg "could not decode cross chain message")
               end)
       (filter (λ row, row.2 = blockHash) (t_l1msg d)).

Definition WriteRollup (rollup : RollupHeader) (internalHeader : CalldataRollupHeader)
    : M dbTransaction.t unit :=
  data ← wrap "could not encode batch header" (lift (EncodeToBytes rollup));
  dbTransaction.ExecuteSQL (rollupInsert {|
    rol_hash := RollupHeader_Hash rollup;
    rol_start_seq := Int.u64 (FirstBatchSequence internalHeader);
    rol_end_seq := LastBatchSeqNo rollup;
    rol_header := data;
    rol_compression_block := CompressionL1Head rollup |}).

(** The placeholders of an empty list cannot be trimmed: the slice expression
    panics. *)
Definition FetchReorgedRollup (reorgedBlocks : list Hash) (d : DB) : result Hash :=
  match reorgedBlocks with
  | [] => Crash "slice bounds out of range"
  | _ => of_option ErrNotFound
           (rol_hash <$> sql_row (λ r, bool_decide (rol_compression_block r ∈ reorgedBlocks)) (t_rollup d))
  end.
End blocks.

(** ** Facts about transactions *)

(** A transaction without key-value writes is its statements, all or nothing. *)
Lemma Write_statements qs sz d :
  dbTransaction.Write (dbTransaction.mk [] qs sz) d =
  match exec_all qs d with
  | Some d' => (d', Ok tt)
  | None => (d, Err (ErrMsg "failed to exec db statement"))
  end.
Proof.
  unfold dbTransaction.Write, dbTransaction.body. simpl.
  unfold mbind, M_bind, exec_statements. simpl. by destruct (exec_all qs d).
Qed.

Lemma exec_all_single q d : exec_all [q] d = exec_statement q d.
Proof. simpl. by destruct (exec_statement q d). Qed.

Lemma exec_all_app qs qs' d : exec_all (qs ++ qs') d = exec_all qs d ≫= exec_all qs'.
Proof.
  revert d. induction qs as [|q qs IH]; intros d; simpl; [done|].
  destruct (exec_statement q d); simpl; [apply IH|done].
Qed.

(** A write that fails leaves the database as it was. *)
Lemma Write_fail b d e : (dbTransaction.Write b d).2 = Err e → (dbTransaction.Write b d).1 = d.
Proof. unfold dbTransaction.Write. by destruct (dbTransaction.body b d) as [d' [?|?|?]]. Qed.
