(* ===== verification/BatchDB.v ===== *)
(** * Batches in the enclave database

    [go/enclave/storage/enclavedb/batch.go]: writing batches, transactions and
    receipts, and every query over them. *)

From S2P Require Import Prelude Types Codec EnclaveDB.

Section batches.
Context `{DBCodecs, Hashing}.

(** ** Writing *)

(** [select is_canonical from block where hash=?]: false without such a block. *)
Definition isCanonQuery (d : DB) (hash : Hash) : bool :=
  match t_block d !! hash with Some r => blk_is_canonical r | None => false end.

(** The row of the [idx]-th transaction of a batch. *)
Definition txRow (bodyHash : Hash) (idx : nat) (tx : L2Tx) : result TxRow :=
  match rlp_encode tx, Sender tx with
  | None, _ => Err (ErrMsg "failed to encode block receipts")
  | _, None => Err (ErrMsg "unable to convert tx to message")
  | Some txBytes, Some from =>
      Ok {| txr_hash := tx_hash tx; txr_content := txBytes; txr_sender := from;
            txr_nonce := tx_nonce tx; txr_idx := Z.of_nat idx; txr_body := bodyHash |}
  end.

Definition WriteBatchAndTransactions (d : DB) (batch : Batch.t) : M dbTransaction.t unit :=
  let h := Batch.Header batch in
  let bodyHash := TxHash h in
  body ← wrap "could not encode L2 transactions" (lift (EncodeToBytes (Batch.Transactions batch)));
  header ← wrap "could not encode batch header" (lift (EncodeToBytes h));
  _ ← dbTransaction.ExecuteSQL (bodyInsert bodyHash body);
  _ ← dbTransaction.ExecuteSQL (bInsert {|
        bat_hash := Batch.hashOf batch;
        bat_parent := if (0 <? Int.u64 (Number h))%Z then Some (ParentHash h) else None;
        bat_sequence := Int.u64 (SequencerOrderNo h);
        bat_height := Int.u64 (Number h);
        bat_is_canonical := isCanonQuery d (L1Proof h);
        bat_header := header;
        bat_body := bodyHash;
        bat_l1_proof := L1Proof h;
        bat_is_executed := false |});
  if (0 <? length (Batch.Transactions batch))%nat
  then rows ← lift (mapR (λ p, txRow bodyHash p.1 p.2)
                     (zip (seq 0 (length (Batch.Transactions batch))) (Batch.Transactions batch)));
       dbTransaction.ExecuteSQL (txInsert rows)
  else mret tt.

Definition execRow (receipt : Receipt) : result ExecRow :=
  receiptBytes ← of_option (ErrMsg "failed to encode block receipts") (encode_receipt receipt);
  Ok {| ex_contract := r_contract receipt; ex_receipt := receiptBytes;
        ex_tx := r_txhash receipt; ex_batch := r_blockhash receipt |}.

Definition WriteBatchExecution (hash : Hash) (receipts : list Receipt) : M dbTransaction.t unit :=
  _ ← dbTransaction.ExecuteSQL (updateBatchExecuted hash);
  rows ← lift (mapR execRow receipts);
  when (0 <? length rows)%nat (dbTransaction.ExecuteSQL (txExecInsert rows)).

(** The key of an executed transaction: batch hash, then transaction hash. *)
Definition executedTransactionID (batchHash txHash : Hash) : Hash * Hash := (batchHash, txHash).

(** ** Reading batches *)

(** [select b.header, bb.content from batch b join batch_body bb on b.body=bb.hash] *)
Definition joinBody (d : DB) (r : BatchRow) : bool := bool_decide (is_Some (t_body d !! bat_body r)).

Definition decodeBatch (d : DB) (r : BatchRow) : result Batch.t :=
  content ← of_option ErrNotFound (t_body d !! bat_body r);
  h ← of_option (ErrMsg "could not decode batch header") (rlp_decode (bat_header r));
  txs ← of_option (ErrMsg "could not decode L2 transactions") (rlp_decode content);
  Ok (Batch.mk h None txs).

Definition fetchBatch (whereQuery : BatchRow → bool) (d : DB) : result Batch.t :=
  row ← of_option ErrNotFound (sql_row (λ r, joinBody d r && whereQuery r) (t_batch d));
  decodeBatch d row.

Definition by_sequence (r1 r2 : BatchRow) : Prop := (bat_sequence r1 ≤ bat_sequence r2)%Z.
#[global] Instance by_sequence_dec : RelDecision by_sequence.
Proof. intros r1 r2. unfold by_sequence. apply _. Defined.

(** The rows of a query ordered by sequence. *)
Definition fetchBatches (whereQuery : BatchRow → bool) (d : DB) : result (list Batch.t) :=
  mapR (decodeBatch d)
    (merge_sort by_sequence (sql_select (λ r, joinBody d r && whereQuery r) (t_batch d))).

Definition fetchBatchHeader (whereQuery : BatchRow → bool) (d : DB) : result BatchHeader :=
  row ← of_option ErrNotFound (sql_row whereQuery (t_batch d));
  of_option (ErrMsg "could not decode batch header") (rlp_decode (bat_header row)).

Definition ReadBatchBySeqNo (seqNo : Z) : DB → result Batch.t :=
  fetchBatch (λ r, bool_decide (bat_sequence r = seqNo)).
Definition ReadBatchByHash (hash : Hash) : DB → result Batch.t :=
  fetchBatch (λ r, bool_decide (bat_hash r = hash)).
Definition ReadCanonicalBatchByHeight (height : Z) : DB → result Batch.t :=
  fetchBatch (λ r, bool_decide (bat_height r = height) && bat_is_canonical r).
Definition ReadBatchHeader (hash : Hash) : DB → result BatchHeader :=
  fetchBatchHeader (λ r, bool_decide (bat_hash r = hash)).

Definition canonicalExecuted (r : BatchRow) : bool := bat_is_canonical r && bat_is_executed r.

Definition ReadCurrentHeadBatch (d : DB) : result Batch.t :=
  let max := sql_max canonicalExecuted bat_height (t_batch d) in
  fetchBatch (λ r, canonicalExecuted r && bool_decide (Some (bat_height r) = max)) d.

Definition ReadBatchesByBlock (hash : Hash) : DB → result (list Batch.t) :=
  fetchBatches (λ r, bool_decide (bat_l1_proof r = hash)).

Definition ReadCurrentSequencerNo (d : DB) : result Z :=
  of_option ErrNotFound (sql_max (λ _, true) bat_sequence (t_batch d)).

(** The height is the greatest of the block's batches; the row need not be one
    of them. *)
Definition ReadHeadBatchForBlock (l1Hash : Hash) (d : DB) : result Batch.t :=
  let max := sql_max (λ r, canonicalExecuted r && bool_decide (bat_l1_proof r = l1Hash))
               bat_height (t_batch d) in
  fetchBatch (λ r, canonicalExecuted r && bool_decide (Some (bat_height r) = max)) d.

Definition ReadUnexecutedBatches : DB → result (list Batch.t) :=
  fetchBatches (λ r, negb (bat_is_executed r) && bat_is_canonical r).

(** False also for a batch that is unknown or not canonical. *)
Definition BatchWasExecuted (hash : Hash) (d : DB) : result bool :=
  Ok (default false (bat_is_executed <$>
        sql_row (λ r, bat_is_canonical r && bool_decide (bat_hash r = hash)) (t_batch d))).

(** ** Receipts and transactions *)

(** [exec_tx join tx on tx.hash=exec_tx.tx join batch on batch.hash=exec_tx.batch] *)
Definition joinExec (d : DB) : list (ExecRow * TxRow * BatchRow) :=
  omap (λ e, tx ← t_tx d !! ex_tx e; b ← t_batch d !! ex_batch e; Some (e, tx, b))
       (map_to_list (t_exec d)).*2.

Definition decodeReceipt (row : ExecRow * TxRow * BatchRow) : result Receipt :=
  let '(e, t, b) := row in
  tx ← of_option (ErrMsg "could not decode L2 transaction") (rlp_decode (txr_content t));
  storageReceipt ← of_option (ErrMsg "unable to decode receipt") (decode_receipt (ex_receipt e));
  of_option (ErrMsg "failed to derive block receipts fields")
    (DeriveFields (ex_batch e) (bat_height b) tx storageReceipt).

Definition selectReceipts (rows : list (ExecRow * TxRow * BatchRow)) : result (list Receipt) :=
  mapR decodeReceipt rows.

Definition ReadReceiptsByBatchHash (hash : Hash) (d : DB) : result (list Receipt) :=
  selectReceipts (filter (λ r, bat_hash r.2 = hash) (joinExec d)).

Definition ReadReceipt (hash : Hash) (d : DB) : result Receipt :=
  row ← of_option ErrNotFound (head (filter (λ r, ex_tx r.1.1 = hash) (joinExec d)));
  decodeReceipt row.

(** The transaction, its batch, the height of the batch and its index. *)
Definition ReadTransaction (txHash : Hash) (d : DB) : result (L2Tx * Hash * Z * Z) :=
  row ← of_option ErrNotFound
          (head (filter (λ r, bat_is_canonical r.2 = true ∧ txr_hash r.1.2 = txHash) (joinExec d)));
  let '(e, t, b) := row in
  tx ← of_option (ErrMsg "could not decode L2 transaction") (rlp_decode (txr_content t));
  Ok (tx, ex_batch e, bat_height b, txr_idx t).

Definition GetContractCreationTx (address : Address) (d : DB) : result Hash :=
  of_option ErrNotFound
    (ex_tx <$> sql_row (λ e, bool_decide (ex_contract e = address)) (t_exec d)).

(** [count(distinct created_contract_address)] *)
Definition ReadContractCreationCount (d : DB) : result Z :=
  Ok (Z.of_nat (size (list_to_set (C := gset Address) (ex_contract <$> (map_to_list (t_exec d)).*2)))).

(** ** Paged queries *)

Definition by_height_desc (r1 r2 : ExecRow * TxRow * BatchRow) : Prop :=
  (bat_height r2.2 ≤ bat_height r1.2)%Z.
#[global] Instance by_height_desc_dec : RelDecision by_height_desc.
Proof. intros r1 r2. unfold by_height_desc. apply _. Defined.

(** [ORDER BY height DESC LIMIT ? OFFSET ?] *)
Definition page (limit offset : Z) (rows : list (ExecRow * TxRow * BatchRow)) :=
  take (Z.to_nat limit) (drop (Z.to_nat offset) (merge_sort by_height_desc rows)).

Record QueryPagination := mkPagination { Offset : Z; Size : Z }.

Definition GetReceiptsPerAddress (address : Address) (p : QueryPagination) (d : DB) : result (list Receipt) :=
  selectReceipts (page (Size p) (Offset p) (filter (λ r, txr_sender r.1.2 = address) (joinExec d))).

Definition GetReceiptsPerAddressCount (address : Address) (d : DB) : result Z :=
  Ok (Z.of_nat (length (filter (λ r, txr_sender r.1.2 = address) (joinExec d)))).

(** [exec_tx join batch on batch.hash=exec_tx.batch] *)
Definition joinExecBatch (d : DB) : list (ExecRow * BatchRow) :=
  omap (λ e, b ← t_batch d !! ex_batch e; Some (e, b)) (map_to_list (t_exec d)).*2.

Record PublicTransaction := mkPublicTransaction { TransactionHash : Hash; BatchHeight : Z }.

Definition by_batch_height_desc (r1 r2 : ExecRow * BatchRow) : Prop :=
  (bat_height r2.2 ≤ bat_height r1.2)%Z.
#[global] Instance by_batch_height_desc_dec : RelDecision by_batch_height_desc.
Proof. intros r1 r2. unfold by_batch_height_desc. apply _. Defined.

Definition GetPublicTransactionData (p : QueryPagination) (d : DB) : result (list PublicTransaction) :=
  Ok ((λ r, mkPublicTransaction (ex_tx r.1) (bat_height r.2)) <$>
      take (Z.to_nat (Size p)) (drop (Z.to_nat (Offset p))
        (merge_sort by_batch_height_desc (joinExecBatch d)))).

Definition GetPublicTransactionCount (d : DB) : result Z :=
  Ok (Z.of_nat (length (joinExecBatch d))).
End batches.
