(* ===== verification/Events.v ===== *)
(** * Event logs and who may see them

    [go/enclave/storage/enclavedb/events.go]: the relevancy metadata stored with
    every log and the queries that enforce it; and
    [go/enclave/events/subscription_manager.go]: the filtering of logs for
    subscriptions and receipts. *)

From S2P Require Import Prelude Types Codec EnclaveDB.

(** ** Addresses in topics *)

(** [big.Int.BitLen] *)
Definition BitLen (x : Z) : Z := if bool_decide (x = 0%Z) then 0%Z else (Z.log2 x + 1)%Z.

(** [gethcommon.BytesToAddress]: the last 20 bytes. *)
Definition BytesToAddress (h : Hash) : Address := (h mod 2 ^ 160)%Z.

Definition ExtractPotentialAddress (hash : Hash) : option Address :=
  let bitlen := BitLen hash in
  if (bitlen <? 80)%Z || (160 <? bitlen)%Z then None else Some (BytesToAddress hash).

Section store.
Context `{StateModel}.

(** ** Storing logs *)

(** [select count(1) from events where rel_address1=? OR ...] *)
Definition relCount (d : DB) (a : Address) : nat :=
  length (filter (λ r, Some a ∈ ev_rel r) (t_events d)).

(** Whether a topic is an end-user account, and its address. *)
Definition isEndUserAccount (d : DB) (topic : Hash) (stateDB : EState) : bool * option Address :=
  match ExtractPotentialAddress topic with
  | None => (false, None)
  | Some addr =>
      if (0 <? relCount d addr)%nat then (true, Some addr)
      else match GetCode stateDB addr with
           | None => (true, Some addr)
           | Some _ => (false, None)
           end
  end.

(** The steps for the topics 1 to 4: each one clears the lifecycle flag when it
    is a user account and yields the column [rel_address<i>]. *)
Fixpoint topicAddresses (d : DB) (stateDB : EState) (isLifecycle : bool) (topics : list Hash)
    : bool * list (option Address) :=
  match topics with
  | [] => (isLifecycle, [])
  | t :: topics =>
      let '(isUserAccount, addr) := isEndUserAccount d t stateDB in
      let '(lc, addrs) := topicAddresses d stateDB (isLifecycle && negb isUserAccount) topics in
      (lc, addr :: addrs)
  end.

Definition writeLog (d : DB) (l : Log) (receipt : Receipt) (stateDB : EState) : EventRow :=
  let '(isLifecycle, addrs) := topicAddresses d stateDB true (take 4 (drop 1 (log_topics l))) in
  {| ev_topics := take 5 (log_topics l);
     ev_data := if bool_decide (length (log_data l) = 0) then None else Some (log_data l);
     ev_idx := log_index l;
     ev_address := log_address l;
     ev_lifecycle := isLifecycle;
     ev_rel := addrs;
     ev_exec := (r_blockhash receipt, log_txhash l) |}.

(** The rows of the logs of the receipts, in order. *)
Definition eventRows (d : DB) (receipts : list Receipt) (stateDB : EState) : list EventRow :=
  flat_map (λ r, map (λ l, writeLog d l r stateDB) (r_logs r)) receipts.

Definition StoreEventLogs (d : DB) (receipts : list Receipt) (stateDB : EState)
    : M dbTransaction.t unit :=
  let rows := eventRows d receipts stateDB in
  when (0 <? length rows)%nat (dbTransaction.ExecuteSQL (insertEvent rows)).

(** ** Querying logs *)

Record LogFilter := mkFilter {
  f_batch : option Hash;
  f_from : option Z;
  f_to : option Z;
  f_addresses : list Address;
  f_topics : list (list Hash)
}.

(** The topic conditions: an empty set is a wildcard, a NULL column matches
    nothing. *)
Fixpoint topicsMatch (filters : list (list Hash)) (topics : list Hash) : bool :=
  match filters with
  | [] => true
  | sub :: filters =>
      (bool_decide (length sub = 0) ||
       match topics with [] => false | t :: _ => bool_decide (t ∈ sub) end) &&
      topicsMatch filters (tail topics)
  end.

(** [events e join exec_tx extx join tx join batch b]: the row with the batch
    and the transaction it belongs to. *)
Definition joinEvent (d : DB) (r : EventRow) : option (EventRow * TxRow * BatchRow) :=
  ex ← t_exec d !! ev_exec r;
  tx ← t_tx d !! ex_tx ex;
  b ← t_batch d !! ex_batch ex;
  Some (r, tx, b).

(** [lifecycle_event OR rel_address1=? OR ...] *)
Definition relevantTo (a : Address) (r : EventRow) : bool :=
  ev_lifecycle r || bool_decide (Some a ∈ ev_rel r).

(** The conditions [FilterLogs] adds. *)
Definition whereFilter (f : LogFilter) (row : EventRow * TxRow * BatchRow) : bool :=
  let '(r, tx, b) := row in
  (match f_batch f with None => true | Some h => bool_decide (bat_hash b = h) end) &&
  (match f_from f with Some n => negb (0 <? n)%Z || (Int.i64 n <=? bat_height b)%Z | None => true end) &&
  (match f_to f with Some n => negb (0 <? n)%Z || (bat_height b <=? Int.i64 n)%Z | None => true end) &&
  (bool_decide (length (f_addresses f) = 0) || bool_decide (ev_address r ∈ f_addresses f)) &&
  topicsMatch (f_topics f) (ev_topics r).

Definition rowLog (row : EventRow * TxRow * BatchRow) : Log :=
  let '(r, tx, b) := row in
  mkLog (ev_address r) (ev_topics r) (default [] (ev_data r)) (bat_height b)
    (txr_hash tx) (txr_idx tx) (bat_hash b) (ev_idx r).

(** [order by b.height, tx.idx asc] *)
Definition by_height_idx (r1 r2 : EventRow * TxRow * BatchRow) : Prop :=
  (bat_height r1.2 < bat_height r2.2)%Z ∨
  bat_height r1.2 = bat_height r2.2 ∧ (txr_idx r1.1.2 ≤ txr_idx r2.1.2)%Z.
#[global] Instance by_height_idx_dec : RelDecision by_height_idx.
Proof. intros r1 r2. unfold by_height_idx. apply _. Defined.

Definition loadLogs (requestingAccount : option Address)
    (whereCondition : EventRow * TxRow * BatchRow → bool) (d : DB) : result (list Log) :=
  match requestingAccount with
  | None => Err (ErrMsg "logs can only be requested for an account")
  | Some a =>
      let rows := filter (λ row, bat_is_canonical row.2 && relevantTo a row.1.1 && whereCondition row)
                    (omap (joinEvent d) (t_events d)) in
      Ok (rowLog <$> merge_sort by_height_idx rows)
  end.

Definition FilterLogs (requestingAccount : option Address) (f : LogFilter) (d : DB) : result (list Log) :=
  if (5 <? length (f_topics f))%nat then Err (ErrMsg "invalid filter. Too many topics")
  else loadLogs requestingAccount (whereFilter f) d.

(** ** Subscriptions *)

(** Twelve leading zero bytes. *)
Definition looksLikeAddress (topic : Hash) : bool := (topic <? 2 ^ 160)%Z.

Fixpoint userAddrs (topics : list Hash) (db : EState) : list Address :=
  match topics with
  | [] => []
  | topic :: topics =>
      if negb (looksLikeAddress topic) then userAddrs topics db
      else let potentialAddr := BytesToAddress topic in
           if bool_decide (GetNonce db potentialAddr ≠ 0%Z) && bool_decide (GetCode db potentialAddr = None)
           then potentialAddr :: userAddrs topics db else userAddrs topics db
  end.

(** [log.Topics[1:len(log.Topics)]] panics when there is no topic. *)
Definition getUserAddrsFromLogTopics (l : Log) (db : EState) : result (list Address) :=
  match log_topics l with
  | [] => Crash "slice bounds out of range"
  | _ :: topics => Ok (userAddrs topics db)
  end.

Definition isRelevant (sub : Address) (addrs : list Address) : bool :=
  if bool_decide (length addrs = 0) then true else existsb (λ a, bool_decide (a = sub)) addrs.

Definition includes (addresses : list Address) (a : Address) : bool :=
  existsb (λ b, bool_decide (b = a)) addresses.

(** Whether the loop over the logs keeps one. *)
Definition keepLog (fromBlock toBlock : option Z) (addresses : list Address)
    (topics : list (list Hash)) (l : Log) : bool :=
  negb (match fromBlock with
        | Some n => (0 <=? Int.i64 n)%Z && (log_blocknumber l <? Int.u64 n)%Z | None => false end) &&
  negb (match toBlock with
        | Some n => (0 <? Int.i64 n)%Z && (Int.u64 n <? log_blocknumber l)%Z | None => false end) &&
  negb ((0 <? length addresses)%nat && negb (includes addresses (log_address l))) &&
  negb (length (log_topics l) <? length topics)%nat &&
  forallb (λ p, bool_decide (length p.1 = 0) || existsb (λ t, bool_decide (p.2 = t)) p.1)
    (zip topics (log_topics l)).

Definition filterLogs (logs : list Log) (fromBlock toBlock : option Z) (addresses : list Address)
    (topics : list (list Hash)) : list Log :=
  filter (λ l, keepLog fromBlock toBlock addresses topics l = true) logs.

(** ** Relevancy *)

Definition indexedTopics (l : Log) : list Hash := take 4 (drop 1 (log_topics l)).

(** The topics that are accounts of users: numbers of 80 to 160 bits, the address of no
    contract, or known from an earlier log. The nonce of the account does not count. *)
Definition names (d : DB) (stateDB : EState) (topic : Hash) (u : Address) : Prop :=
  (2 ^ 79 ≤ topic < 2 ^ 160)%Z ∧ u = topic ∧
  (GetCode stateDB u = None ∨ ∃ row, row ∈ t_events d ∧ Some u ∈ ev_rel row).

(** The relevancy rules: a log is for everyone when none of its indexed topics names
    a user, and otherwise for the users it names. *)
Definition mayView (d : DB) (stateDB : EState) (l : Log) (a : Address) : Prop :=
  (∀ t u, t ∈ indexedTopics l → ¬ names d stateDB t u) ∨ (∃ t, t ∈ indexedTopics l ∧ names d stateDB t a).

(** The user account a topic names, as it is computed. *)
Definition userAccount (d : DB) (stateDB : EState) (topic : Hash) : option Address :=
  (isEndUserAccount d topic stateDB).2.

Lemma ExtractPotentialAddress_spec t u : ExtractPotentialAddress t = Some u ↔ (2 ^ 79 ≤ t < 2 ^ 160)%Z ∧ u = t.
Proof.
  unfold ExtractPotentialAddress, BitLen, BytesToAddress. case_bool_decide as Hz; [subst; split; [done|lia]|].
  destruct (Z_lt_le_dec t 0) as [Hneg|Hpos].
  { rewrite Z.log2_nonpos by lia. split; [done|lia]. }
  destruct (Z.log2_spec t ltac:(lia)) as [Hlo Hhi].
  destruct (Z.ltb_spec (Z.log2 t + 1) 80) as [Hl|Hl]; cbn [orb].
  { split; [done|]. intros [[H79 _] _]. pose proof (Z.log2_le_mono _ _ H79) as Hm. rewrite Z.log2_pow2 in Hm by lia. lia. }
  assert (2 ^ 79 ≤ t)%Z by (etrans; [|exact Hlo]; apply Z.pow_le_mono_r; lia).
  destruct (Z.ltb_spec 160 (Z.log2 t + 1)) as [Hr|Hr].
  { split; [done|]. intros [[_ H160] _]. apply Z.log2_lt_pow2 in H160; lia. }
  assert (t < 2 ^ 160)%Z by (eapply Z.lt_le_trans; [exact Hhi|apply Z.pow_le_mono_r; lia]).
  rewrite Z.mod_small by lia. naive_solver.
Qed.

Lemma relCount_pos d a : (0 <? relCount d a)%nat = true ↔ ∃ row, row ∈ t_events d ∧ Some a ∈ ev_rel row.
Proof.
  unfold relCount. rewrite Nat.ltb_lt. split.
  - destruct (filter _ _) as [|row rows] eqn:Hf; [simpl; lia|]. intros _. exists row.
    assert (row ∈ filter (λ r, Some a ∈ ev_rel r) (t_events d)) as [? ?]%list_elem_of_filter by (rewrite Hf; by left). done.
  - intros (row&Hin&Ha). assert (row ∈ filter (λ r, Some a ∈ ev_rel r) (t_events d)) as Hr by (by apply list_elem_of_filter).
    destruct (filter _ _); [by apply elem_of_nil in Hr|simpl; lia].
Qed.

Lemma userAccount_spec d st t u : userAccount d st t = Some u ↔ names d st t u.
Proof.
  unfold userAccount, isEndUserAccount, names.
  destruct (ExtractPotentialAddress t) as [addr|] eqn:He.
  - apply ExtractPotentialAddress_spec in He as [Hr ->]. pose proof (relCount_pos d t) as Hc.
    destruct (0 <? relCount d t)%nat; cbn; [naive_solver|]. destruct (GetCode st t) eqn:Hcode; cbn; naive_solver.
  - split; [done|]. intros (Hr&->&_). assert (ExtractPotentialAddress t = Some t) by (by apply ExtractPotentialAddress_spec). congruence.
Qed.

Lemma isEndUserAccount_flag d t st :
  (isEndUserAccount d t st).1 = bool_decide (is_Some (userAccount d st t)).
Proof.
  assert (∀ b (o : option Address), (b = true ↔ is_Some o) → b = bool_decide (is_Some o)) as Hflag.
  { intros b o Ho. by apply eq_bool_prop_intro; rewrite bool_decide_spec, Is_true_true. }
  apply Hflag. unfold userAccount, isEndUserAccount.
  destruct (ExtractPotentialAddress t); simpl; [|naive_solver].
  destruct (0 <? _)%nat; simpl; [by eauto|]. destruct (GetCode st _); simpl; naive_solver.
Qed.

Lemma topicAddresses_spec d st topics : ∀ lc,
  topicAddresses d st lc topics =
  (lc && forallb (λ t, negb (bool_decide (is_Some (userAccount d st t)))) topics,
   userAccount d st <$> topics).
Proof.
  induction topics as [|t topics IH]; intros lc; simpl; [by rewrite andb_true_r|].
  rewrite (surjective_pairing (isEndUserAccount d t st)), isEndUserAccount_flag, IH.
  by rewrite andb_assoc.
Qed.

Lemma relevantTo_writeLog d l r st a :
  relevantTo a (writeLog d l r st) = true ↔ mayView d st l a.
Proof.
  unfold relevantTo, writeLog. rewrite topicAddresses_spec. simpl.
  rewrite orb_true_iff, bool_decide_eq_true, forallb_forall, list_elem_of_fmap.
  unfold mayView, indexedTopics. f_equiv.
  - split.
    + intros Hall t u Ht Hu%userAccount_spec. specialize (Hall t). rewrite negb_true_iff, bool_decide_eq_false, <-list_elem_of_In in Hall.
      destruct (Hall Ht). eauto.
    + intros Hall t Ht%list_elem_of_In. destruct (userAccount d st t) as [u|] eqn:E; [|done]. apply userAccount_spec in E.
      by destruct (Hall t u Ht).
  - setoid_rewrite <-userAccount_spec. split; intros (t & H1 & H2); by exists t.
Qed.

Lemma elem_of_eventRows d receipts st row :
  row ∈ eventRows d receipts st ↔
  ∃ r l, r ∈ receipts ∧ l ∈ r_logs r ∧ row = writeLog d l r st.
Proof.
  unfold eventRows. rewrite list_elem_of_In, in_flat_map. split.
  - intros (r & Hr & (l & <- & Hl)%in_map_iff). apply list_elem_of_In in Hr, Hl. eauto.
  - intros (r & l & Hr & Hl & ->). apply list_elem_of_In in Hr, Hl. exists r. split; [done|].
    apply in_map_iff. eauto.
Qed.

Lemma joinEvent_Some d r row : joinEvent d r = Some row → row.1.1 = r.
Proof.
  unfold joinEvent. intros (ex & ? & (tx & ? & (b & ? & [= <-])%bind_Some)%bind_Some)%bind_Some. done.
Qed.

Lemma elem_of_FilterLogs a f d ls lg :
  FilterLogs (Some a) f d = Ok ls →
  lg ∈ ls ↔ ∃ r tx b, r ∈ t_events d ∧ joinEvent d r = Some (r, tx, b) ∧ lg = rowLog (r, tx, b) ∧
    bat_is_canonical b = true ∧ relevantTo a r = true ∧ whereFilter f (r, tx, b) = true.
Proof.
  unfold FilterLogs. destruct (5 <? _)%nat; [done|]. intros [= <-].
  rewrite list_elem_of_fmap. setoid_rewrite merge_sort_Permutation. split.
  - intros ([[r tx] b] & -> & Hin). apply list_elem_of_filter in Hin as [Hc Hin].
    apply list_elem_of_omap in Hin as (r' & Hr' & Hj). pose proof (joinEvent_Some _ _ _ Hj) as Hr. simpl in Hr. subst r'.
    simpl in Hc. apply Is_true_true, andb_true_iff in Hc as [[? ?]%andb_true_iff ?]. eauto 10.
  - intros (r & tx & b & Hr & Hj & -> & Hc & Hrel & Hw). exists (r, tx, b). split; [done|].
    apply list_elem_of_filter. split; [|by apply list_elem_of_omap; eauto].
    cbn [fst snd]. rewrite Hc, Hrel, Hw. done.
Qed.

Lemma Write_StoreEventLogs d receipts st d' :
  dbTransaction.Write (StoreEventLogs d receipts st dbTransaction.new).1 d = (d', Ok tt) →
  exec_statement (insertEvent (eventRows d receipts st)) d = Some d'.
Proof.
  unfold StoreEventLogs. destruct (eventRows d receipts st) as [|row rows] eqn:E; simpl.
  { intros [= <-]. unfold upd_events. rewrite app_nil_r. by destruct d. }
  rewrite Write_statements, exec_all_single. cbn [exec_statement]. case_match; intros; by simplify_eq.
Qed.

(** An event that was stored: the log, its receipt, and the database and the state at the time. *)
Record Stored := mkStored { sd_db : DB; sd_state : EState; sd_receipt : Receipt; sd_log : Log }.
Definition rowOf (e : Stored) : EventRow := writeLog (sd_db e) (sd_log e) (sd_receipt e) (sd_state e).
Definition storedNow (d : DB) (receipts : list Receipt) (st : EState) : list Stored :=
  flat_map (λ r, map (mkStored d st r) (r_logs r)) receipts.

Lemma eventRows_storedNow d receipts st : eventRows d receipts st = map rowOf (storedNow d receipts st).
Proof.
  unfold eventRows, storedNow. induction receipts as [|r rs IH]; [done|]. cbn. by rewrite IH, map_app, map_map.
Qed.

(** C32: a query for logs gives an account exactly what the relevancy rules allow. Whatever
    logs were stored before, and also after those of more receipts are stored: the query of
    account [a] returns the logs that match the filter, belong to a canonical batch, and
    name no user account or name [a], in the state they were stored with. A user account
    in a log is an indexed topic of 80 to 160 bits that is not the address of a contract,
    or was taken for an account in an earlier log; the check of the nonce is not implemented. *)
Theorem event_privacy stored d receipts st d' :
  t_events d = map rowOf stored →
  dbTransaction.Write (StoreEventLogs d receipts st dbTransaction.new).1 d = (d', Ok tt) →
  t_events d' = map rowOf (stored ++ storedNow d receipts st) ∧
  ∀ a f ls lg, FilterLogs (Some a) f d' = Ok ls →
    lg ∈ ls ↔ ∃ e tx b, e ∈ stored ++ storedNow d receipts st ∧ joinEvent d' (rowOf e) = Some (rowOf e, tx, b) ∧
      lg = rowLog (rowOf e, tx, b) ∧ bat_is_canonical b = true ∧ whereFilter f (rowOf e, tx, b) = true ∧
      mayView (sd_db e) (sd_state e) (sd_log e) a.
Proof.
  intros Hst Hw%Write_StoreEventLogs.
  assert (t_events d' = map rowOf (stored ++ storedNow d receipts st)) as Hev.
  { cbn [exec_statement] in Hw. case_match; [|done]. simplify_eq/=. by rewrite Hst, map_app, eventRows_storedNow. }
  split; [done|]. intros a f ls lg Hf. rewrite (elem_of_FilterLogs _ _ _ _ _ Hf), Hev. split.
  - intros (row & tx & b & (e & -> & He)%list_elem_of_fmap & Hj & -> & Hc & Hrel%relevantTo_writeLog & Hwf). by exists e, tx, b.
  - intros (e & tx & b & He & Hj & -> & Hc & Hwf & Hv%(relevantTo_writeLog _ _ (sd_receipt e))). exists (rowOf e), tx, b.
    split_and!; try done. apply list_elem_of_fmap. by exists e.
Qed.

(** The two ways to read logs disagree on accounts that have not sent a
    transaction yet: a log whose topic names such an account [u] is kept from
    every other account by the queries, but a subscription of any account
    receives it. *)
Theorem subscription_leak d st l r a u sig topic :
  log_topics l = [sig; topic] → ExtractPotentialAddress topic = Some u → a ≠ u →
  GetCode st u = None → GetNonce st u = 0%Z →
  relevantTo a (writeLog d l r st) = false ∧
  ∃ addrs, getUserAddrsFromLogTopics l st = Ok addrs ∧ isRelevant a addrs = true.
Proof.
  intros Hl Hu Hne Hcode Hnonce.
  assert (BytesToAddress topic = u) as Hb.
  { unfold ExtractPotentialAddress in Hu. by case_match; simplify_eq. }
  assert (userAccount d st topic = Some u) as Hacc.
  { unfold userAccount, isEndUserAccount. rewrite Hu, Hcode. by case_match. }
  split.
  - apply not_true_iff_false. rewrite relevantTo_writeLog. unfold mayView, indexedTopics. rewrite Hl. simpl.
    apply userAccount_spec in Hacc.
    intros [Hall|(t & ->%list_elem_of_singleton & (_&->&_))]; [by destruct (Hall topic u ltac:(by left))|by destruct Hacc as (_&->&_)].
  - exists []. split; [|done]. unfold getUserAddrsFromLogTopics. rewrite Hl. simpl.
    rewrite Hb, Hnonce, bool_decide_false by congruence. simpl. by case_match.
Qed.
End store.
