(* ===== verification/Storage.v ===== *)
(** * The enclave storage

    [storageImpl] of [go/enclave/storage/storage.go]: the database behind a
    cache of encoded blocks and batches, and the state tries.  Both caches of
    the code are views of one bigcache store, keyed by hash. *)

From S2P Require Import Prelude Types Codec L1Chain EnclaveDB BatchDB Events.

(** ** The cache store

    bigcache: an entry may be evicted, expire or be refused at any time. *)

Class Cache (C : Type) := {
  cache_get : C → Hash → option bytes;
  cache_set : C → Hash → bytes → C
}.

(** What is found was put there, under the same key. *)
Class CacheOk (C : Type) `{Cache C} : Prop :=
  cache_get_set : ∀ c k v k' w, cache_get (cache_set c k v) k' = Some w →
    (k' = k ∧ w = v) ∨ cache_get c k' = Some w.

(** The codecs of the cached values, and the keys of go-ethereum. *)
Class StorageCodecs := {
  #[global] storage_db :: DBCodecs;
  #[global] codec_block :: Codec L1Block;
  (** RLP ignores the unexported hash of a [core.Batch]. *)
  #[global] codec_batch :: Codec (BatchHeader * list L2Tx);
  DecompressPubkey : bytes → option bytes;
  CompressPubkey : bytes → bytes;
  ToECDSA : bytes → option bytes
}.

Class StorageCodecsOk `{StorageCodecs} : Prop := {
  #[global] storage_db_ok :: DBCodecsOk;
  #[global] codec_block_ok :: CodecOk L1Block;
  #[global] codec_batch_ok :: CodecOk (BatchHeader * list L2Tx);
  (** A block has three parts and a batch two: neither decodes as the other. *)
  block_of_batch : ∀ (p : BatchHeader * list L2Tx) v, rlp_encode p = Some v →
    rlp_decode (A:=L1Block) v = None;
  batch_of_block : ∀ (b : L1Block) v, rlp_encode b = Some v →
    rlp_decode (A:=BatchHeader * list L2Tx) v = None;
  Decompress_Compress : ∀ k, DecompressPubkey (CompressPubkey k) = Some k
}.

Record Storage {C : Type} `{StateModel} := mkStorage {
  s_db : DB;
  s_cache : C;
  s_tries : gmap Hash EState
}.
Arguments Storage C {_}.

(** ["MASTER_SEED"] and ["ek"] *)
Definition masterSeedCfg : bytes := [77; 65; 83; 84; 69; 82; 95; 83; 69; 69; 68]%Z.
Definition enclaveKeyKey : bytes := [101; 107]%Z.

Section storage.
Context {C : Type} `{Cache C, StateModel, StorageCodecs, Hashing}.
Implicit Types (s : Storage C).

Definition query {A} (q : DB → result A) : M (Storage C) A := λ s, (s, q (s_db s)).
Definition on_db {A} (m : M DB A) : M (Storage C) A :=
  zoom s_db (λ d s, mkStorage C _ d (s_cache s) (s_tries s)) m.
Definition set_cache (k : Hash) (v : bytes) : M (Storage C) unit :=
  modify (λ s, mkStorage C _ (s_db s) (cache_set (s_cache s) k v) (s_tries s)).

(** Running the queueing of statements and committing the transaction. *)
Definition transact (msg1 msg2 : string) (queue : DB → M dbTransaction.t unit) : M (Storage C) unit :=
  s ← gets id;
  let '(tx, r) := queue (s_db s) dbTransaction.new in
  _ ← wrap msg1 (lift r);
  wrap msg2 (on_db (dbTransaction.Write tx)).

(** ** Cache *)

(** A value that cannot be encoded is not cached. *)
Definition cacheBlock (blockHash : Hash) (b : L1Block) : M (Storage C) unit :=
  match rlp_encode b with
  | None => mret tt
  | Some buffer => set_cache blockHash buffer
  end.

Definition getCachedBlock (hash : Hash) (onFailed : M (Storage C) L1Block) : M (Storage C) L1Block :=
  value ← gets (λ s, cache_get (s_cache s) hash);
  match value with
  | None => b ← onFailed; _ ← cacheBlock hash b; mret b
  | Some value => lift (DecodeBytes value)
  end.

Definition cacheBatch (batchHash : Hash) (b : Batch.t) : M (Storage C) unit :=
  match rlp_encode (Batch.Header b, Batch.Transactions b) with
  | None => mret tt
  | Some value => set_cache batchHash value
  end.

Definition getCachedBatch (hash : Hash) (onFailed : M (Storage C) Batch.t) : M (Storage C) Batch.t :=
  value ← gets (λ s, cache_get (s_cache s) hash);
  match value with
  | None => b ← onFailed; _ ← cacheBatch hash b; mret b
  | Some value => '(h, txs) ← lift (DecodeBytes value); mret (Batch.mk h None txs)
  end.

(** ** Blocks *)

Definition storage_FetchBlock (blockHash : Hash) : M (Storage C) L1Block :=
  getCachedBlock blockHash (query (db_FetchBlock blockHash)).

#[global] Instance storage_resolver : BlockResolver (Storage C) := storage_FetchBlock.

Definition FetchCanonicaBlockByHeight (height : Z) : M (Storage C) L1Block :=
  header ← query (FetchBlockHeaderByHeight height);
  getCachedBlock (h_hash header) (query (db_FetchBlock (h_hash header))).

Definition storage_FetchHeadBlock : M (Storage C) L1Block := query FetchHeadBlock.

(** The statements a new block queues: the fork's updates, the update for
    batches that arrived before the block, the block itself. *)
Definition queueBlock (b : L1Block) (chainFork : option ChainFork) : M dbTransaction.t unit :=
  _ ← match chainFork with
      | Some cf => when (ChainFork_IsFork cf) (UpdateCanonicalBlocks (CanonicalPath cf) (NonCanonicalPath cf))
      | None => mret tt
      end;
  _ ← UpdateCanonicalBlocks [Block_Hash b] [];
  WriteBlock (b_header b).

Definition StoreBlock (b : L1Block) (chainFork : option ChainFork) : M (Storage C) unit :=
  _ ← transact "2. could not store block" "3. could not store block" (λ _, queueBlock b chainFork);
  cacheBlock (Block_Hash b) b.

(** ** Batches *)

Definition FetchBatch (hash : Hash) : M (Storage C) Batch.t :=
  getCachedBatch hash (query (ReadBatchByHash hash)).

Definition FetchBatchHeader (hash : Hash) : M (Storage C) BatchHeader :=
  b ← FetchBatch hash; mret (Batch.Header b).

Definition FetchHeadBatch : M (Storage C) Batch.t := query ReadCurrentHeadBatch.
Definition FetchCurrentSequencerNo : M (Storage C) Z := query ReadCurrentSequencerNo.
Definition FetchBatchByHeight (height : Z) : M (Storage C) Batch.t := query (ReadCanonicalBatchByHeight height).
Definition FetchHeadBatchForBlock (blockHash : Hash) : M (Storage C) Batch.t :=
  query (ReadHeadBatchForBlock blockHash).
Definition FetchBatchBySeqNo (seqNum : Z) : M (Storage C) Batch.t := query (ReadBatchBySeqNo seqNum).
Definition FetchBatchesByBlock (block : Hash) : M (Storage C) (list Batch.t) :=
  query (ReadBatchesByBlock block).
Definition FetchCanonicalUnexecutedBatches : M (Storage C) (list Batch.t) := query ReadUnexecutedBatches.
Definition storage_BatchWasExecuted (hash : Hash) : M (Storage C) bool := query (BatchWasExecuted hash).

Definition HealthCheck : M (Storage C) bool := _ ← FetchHeadBatch; mret true.

(** A different batch with the same sequence number ends the process. *)
Definition StoreBatch (batch : Batch.t) : M (Storage C) unit :=
  existing ← try (FetchBatchBySeqNo (Int.u64 (Batch.SeqNo batch)));
  match existing with
  | inl b =>
      if bool_decide (Batch.hashOf b = Batch.hashOf batch) then mret tt
      else crash "Conflicting batches for the same sequence"
  | inr _ =>
      _ ← transact "could not write batch" "could not commit batch"
            (λ d, WriteBatchAndTransactions d batch);
      cacheBatch (Batch.hashOf batch) batch
  end.

(** The state after a batch, opened by the root in its header. *)
Definition CreateStateDB (hash : Hash) : M (Storage C) EState :=
  batch ← FetchBatch hash;
  s ← gets id;
  lift (of_option (ErrInternal (ErrMsg "could not create state DB")) (s_tries s !! Root (Batch.Header batch))).

Definition EmptyStateDB : M (Storage C) EState := mret emptyState.

Definition queueExecution (batch : Batch.t) (receipts : list Receipt) (stateDB : option EState)
    (d : DB) : M dbTransaction.t unit :=
  _ ← wrap "could not write transaction receipts" (WriteBatchExecution (Batch.hashOf batch) receipts);
  match stateDB with
  | Some st => StoreEventLogs d receipts st
  | None => mret tt
  end.

(** The receipts are encoded before the state is opened; the event logs of the
    batches up to height 1 are not stored. *)
Definition StoreExecutedBatch (batch : Batch.t) (receipts : list Receipt) : M (Storage C) unit :=
  executed ← query (BatchWasExecuted (Batch.hashOf batch));
  if (executed : bool) then mret tt
  else
    _ ← wrap "could not write transaction receipts" (lift (mapR execRow receipts));
    stateDB ← (if (1 <? Int.i64 (Batch.NumberOf batch))%Z
               then st ← wrap "could not create state DB to filter logs"
                           (CreateStateDB (ParentHash (Batch.Header batch)));
                    mret (Some st)
               else mret None);
    transact "could not save logs" "could not commit batch" (queueExecution batch receipts stateDB).

(** ** Receipts and transactions *)

Definition GetReceiptsByBatchHash (hash : Hash) : M (Storage C) (list Receipt) :=
  query (ReadReceiptsByBatchHash hash).
Definition GetTransaction (txHash : Hash) : M (Storage C) (L2Tx * Hash * Z * Z) :=
  query (ReadTransaction txHash).
Definition storage_GetContractCreationTx (address : Address) : M (Storage C) Hash :=
  query (GetContractCreationTx address).
Definition GetTransactionReceipt (txHash : Hash) : M (Storage C) Receipt := query (ReadReceipt txHash).
Definition GetContractCount : M (Storage C) Z := query ReadContractCreationCount.

(** ** Messages, rollups, keys *)

Definition StoreL1Messages (blockHash : Hash) (messages : list CrossChainMessage) : M (Storage C) unit :=
  on_db (WriteL1Messages blockHash messages).
Definition GetL1Messages (blockHash : Hash) : M (Storage C) (list CrossChainMessage) :=
  query (FetchL1Messages blockHash).

Definition StoreRollup (rollup : ExtRollup) (internalHeader : CalldataRollupHeader) : M (Storage C) unit :=
  transact "could not write rollup" "could not write rollup to storage"
    (λ _, WriteRollup (ext_rollup_header rollup) internalHeader).
Definition storage_FetchReorgedRollup (reorgedBlocks : list Hash) : M (Storage C) Hash :=
  query (FetchReorgedRollup reorgedBlocks).

Definition StoreSecret `{Codec (list Z)} (secret : list Z) : M (Storage C) unit :=
  enc ← wrap "could not encode shared secret" (lift (EncodeToBytes secret));
  wrap "could not shared secret in DB" (on_db (WriteConfig masterSeedCfg enc)).
Definition FetchSecret `{Codec (list Z)} : M (Storage C) (list Z) :=
  cfg ← query (FetchConfig masterSeedCfg);
  lift (of_option (ErrMsg "could not decode shared secret") (rlp_decode cfg)).

Definition StoreAttestedKey (aggregator : Address) (key : bytes) : M (Storage C) unit :=
  on_db (WriteAttKey aggregator (CompressPubkey key)).
Definition FetchAttestedKey (address : Address) : M (Storage C) bytes :=
  key ← wrap "could not retrieve attestation key" (query (FetchAttKey address));
  lift (of_option (ErrMsg "could not parse key from db") (DecompressPubkey key)).

Definition StoreEnclaveKey (enclaveKey : option bytes) : M (Storage C) unit :=
  match enclaveKey with
  | None => fail (ErrMsg "enclaveKey cannot be nil")
  | Some keyBytes => on_db (WriteConfig enclaveKeyKey keyBytes)
  end.
Definition GetEnclaveKey : M (Storage C) bytes :=
  keyBytes ← query (FetchConfig enclaveKeyKey);
  lift (of_option (ErrMsg "unable to construct ECDSA private key") (ToECDSA keyBytes)).
End storage.
