(* ===== verification/StorageInv.v ===== *)
(** * What the storage holds

    The abstract content of the enclave database, the invariant of the storage
    and the specifications of its queries: the tables behind the cache implement
    two finite maps, from hashes to L1 headers and from hashes to batches. *)

From S2P Require Import Prelude Types Codec L1Chain EnclaveDB BatchDB Events Storage.

(** ** Abstract content *)

(** A stored batch, with its flags. *)
Record ABatch := mkABatch {
  ab_header : BatchHeader;
  ab_txs : list L2Tx;
  ab_canonical : bool;
  ab_executed : bool
}.

Definition ab_batch (ab : ABatch) : Batch.t := Batch.mk (ab_header ab) None (ab_txs ab).

Section content.
Context `{DBCodecs, Hashing}.
Implicit Types (d : DB).

Definition blocks d : gmap Hash L1Header := omap (λ r, rlp_decode (blk_header r)) (t_block d).

Definition abs_batch d (r : BatchRow) : option ABatch :=
  content ← t_body d !! bat_body r;
  h ← rlp_decode (bat_header r);
  txs ← rlp_decode content;
  Some (mkABatch h txs (bat_is_canonical r) (bat_is_executed r)).

Definition batches d : gmap Hash ABatch := omap (abs_batch d) (t_batch d).

(** ** Invariants of the tables *)

(** The row of a block agrees with the header it stores. *)
Record block_row_ok (h : Hash) (r : BlockRow) (hd : L1Header) : Prop := {
  bro_key : blk_hash r = h;
  bro_header : rlp_decode (blk_header r) = Some hd;
  bro_hash : h_hash hd = h;
  bro_height : blk_height r = h_number hd;
  bro_range : (0 ≤ h_number hd < 2 ^ 63)%Z
}.

(** The row of a batch agrees with the header and the body it stores. *)
Record batch_row_ok d (h : Hash) (r : BatchRow) (ab : ABatch) : Prop := {
  tro_key : bat_hash r = h;
  tro_abs : abs_batch d r = Some ab;
  tro_hash : BatchHeader_Hash (ab_header ab) = h;
  tro_sequence : bat_sequence r = SequencerOrderNo (ab_header ab);
  tro_height : bat_height r = Number (ab_header ab);
  tro_proof : bat_l1_proof r = L1Proof (ab_header ab);
  tro_body : bat_body r = TxHash (ab_header ab);
  tro_txs : TxHash (ab_header ab) = DeriveSha_txs (ab_txs ab);
  tro_range : (0 ≤ SequencerOrderNo (ab_header ab) < 2 ^ 63)%Z ∧ (0 ≤ Number (ab_header ab) < 2 ^ 63)%Z
}.

Record db_ok d : Prop := {
  do_blocks : ∀ h r, t_block d !! h = Some r → ∃ hd, block_row_ok h r hd;
  do_batches : ∀ h r, t_batch d !! h = Some r → ∃ ab, batch_row_ok d h r ab;
  (** the unique column *)
  do_sequence : ∀ h r h' r', t_batch d !! h = Some r → t_batch d !! h' = Some r' →
    bat_sequence r = bat_sequence r' → h = h';
  (** a batch is canonical when the block it is built on is *)
  do_canonical : ∀ h r, t_batch d !! h = Some r →
    bat_is_canonical r = isCanonQuery d (bat_l1_proof r);
  (** a hash names a block or a batch *)
  do_disjoint : ∀ h r r', t_block d !! h = Some r → t_batch d !! h = Some r' → False
}.

Lemma blocks_lookup d h hd :
  db_ok d → blocks d !! h = Some hd ↔ ∃ r, t_block d !! h = Some r ∧ block_row_ok h r hd.
Proof.
  intros Hok. unfold blocks. rewrite lookup_omap_Some. split.
  - intros (r & Hdec & Hr). destruct (do_blocks d Hok h r Hr) as [hd' Hrow].
    pose proof (bro_header _ _ _ Hrow). simplify_eq. eauto.
  - intros (r & Hr & Hrow). exists r. split; [by eapply bro_header | done].
Qed.

Lemma blocks_None d h : db_ok d → blocks d !! h = None ↔ t_block d !! h = None.
Proof.
  intros Hok. unfold blocks. rewrite lookup_omap. destruct (t_block d !! h) as [r|] eqn:E; simpl; [|done].
  destruct (do_blocks d Hok h r E) as [hd Hrow]. by rewrite (bro_header _ _ _ Hrow).
Qed.

Lemma batches_lookup d h ab :
  db_ok d → batches d !! h = Some ab ↔ ∃ r, t_batch d !! h = Some r ∧ batch_row_ok d h r ab.
Proof.
  intros Hok. unfold batches. rewrite lookup_omap_Some. split.
  - intros (r & Hdec & Hr). destruct (do_batches d Hok h r Hr) as [ab' Hrow].
    pose proof (tro_abs _ _ _ _ Hrow). simplify_eq. eauto.
  - intros (r & Hr & Hrow). exists r. split; [by eapply tro_abs | done].
Qed.

Lemma batches_None d h : db_ok d → batches d !! h = None ↔ t_batch d !! h = None.
Proof.
  intros Hok. unfold batches. rewrite lookup_omap. destruct (t_batch d !! h) as [r|] eqn:E; simpl; [|done].
  destruct (do_batches d Hok h r E) as [ab Hrow]. by rewrite (tro_abs _ _ _ _ Hrow).
Qed.

(** ** Queries *)

Lemma fetchBlockHeader_row d h r hd whereQuery :
  db_ok d → t_block d !! h = Some r → block_row_ok h r hd → whereQuery r = true →
  (∀ h' r', t_block d !! h' = Some r' → whereQuery r' = true → r' = r) →
  fetchBlockHeader whereQuery d = Ok hd.
Proof.
  intros Hok Hr Hrow HP Huniq. unfold fetchBlockHeader.
  rewrite (sql_row_unique _ _ _ _ Hr HP Huniq). simpl. by rewrite (bro_header _ _ _ Hrow).
Qed.

Lemma db_FetchBlock_spec d h :
  db_ok d →
  db_FetchBlock h d = match blocks d !! h with
                      | Some hd => Ok (NewBlockWithHeader hd)
                      | None => Err ErrNotFound
                      end.
Proof.
  intros Hok. unfold db_FetchBlock, fetchBlock. destruct (blocks d !! h) as [hd|] eqn:E.
  - apply blocks_lookup in E as (r & Hr & Hrow); [|done].
    erewrite fetchBlockHeader_row; eauto; [by eapply bool_decide_eq_true, bro_key|].
    intros h' r' Hr' Hh. apply bool_decide_eq_true in Hh.
    destruct (do_blocks d Hok h' r' Hr') as [hd' Hrow']. pose proof (bro_key _ _ _ Hrow'). simplify_eq. done.
  - apply blocks_None in E; [|done]. unfold fetchBlockHeader.
    rewrite (proj2 (sql_row_None _ _)); [done|]. intros h' r' Hr'. apply bool_decide_eq_false. intros <-.
    destruct (do_blocks d Hok h' r' Hr') as [hd' Hrow']. pose proof (bro_key _ _ _ Hrow'). simplify_eq.
Qed.

Lemma joinBody_ok d h r : db_ok d → t_batch d !! h = Some r → joinBody d r = true.
Proof.
  intros Hok Hr. destruct (do_batches d Hok h r Hr) as [ab Hrow]. apply bool_decide_eq_true.
  pose proof (tro_abs _ _ _ _ Hrow) as Habs. unfold abs_batch in Habs.
  apply bind_Some in Habs as (c & -> & _). eauto.
Qed.

Lemma decodeBatch_ok d h r ab : batch_row_ok d h r ab → decodeBatch d r = Ok (ab_batch ab).
Proof.
  intros Hrow. pose proof (tro_abs _ _ _ _ Hrow) as Habs. unfold abs_batch in Habs.
  apply bind_Some in Habs as (c & Hc & (hd & Hhd & (txs & Htxs & [= <-])%bind_Some)%bind_Some).
  unfold decodeBatch. rewrite Hc. simpl. rewrite Hhd. simpl. by rewrite Htxs.
Qed.

(** A query that holds of one row returns its batch; one that holds of none
    reports that there is none. *)
Lemma fetchBatch_row d h r ab whereQuery :
  db_ok d → t_batch d !! h = Some r → batch_row_ok d h r ab → whereQuery r = true →
  (∀ h' r', t_batch d !! h' = Some r' → whereQuery r' = true → r' = r) →
  fetchBatch whereQuery d = Ok (ab_batch ab).
Proof.
  intros Hok Hr Hrow HP Huniq. unfold fetchBatch.
  rewrite (sql_row_unique _ _ r h Hr).
  - simpl. by eapply decodeBatch_ok.
  - by rewrite (joinBody_ok d h r Hok Hr), HP.
  - intros h' r' Hr' [_ ?]%andb_true_iff. eauto.
Qed.

Lemma fetchBatch_None d whereQuery :
  (∀ h r, t_batch d !! h = Some r → whereQuery r = false) → fetchBatch whereQuery d = Err ErrNotFound.
Proof.
  intros Hn. unfold fetchBatch. rewrite (proj2 (sql_row_None _ _)); [done|].
  intros h r Hr. by rewrite (Hn h r Hr), andb_false_r.
Qed.

Lemma ReadBatchByHash_spec d h :
  db_ok d →
  ReadBatchByHash h d = match batches d !! h with
                        | Some ab => Ok (ab_batch ab)
                        | None => Err ErrNotFound
                        end.
Proof.
  intros Hok. unfold ReadBatchByHash. destruct (batches d !! h) as [ab|] eqn:E.
  - apply batches_lookup in E as (r & Hr & Hrow); [|done].
    eapply fetchBatch_row; eauto; [by eapply bool_decide_eq_true, tro_key|].
    intros h' r' Hr' Hh. apply bool_decide_eq_true in Hh.
    destruct (do_batches d Hok h' r' Hr') as [ab' Hrow']. pose proof (tro_key _ _ _ _ Hrow'). simplify_eq. done.
  - apply batches_None in E; [|done]. apply fetchBatch_None.
    intros h' r' Hr'. apply bool_decide_eq_false. intros <-.
    destruct (do_batches d Hok h' r' Hr') as [ab' Hrow']. pose proof (tro_key _ _ _ _ Hrow'). simplify_eq.
Qed.

Lemma ReadBatchBySeqNo_spec d n :
  db_ok d →
  (∀ h ab, batches d !! h = Some ab → SequencerOrderNo (ab_header ab) = n →
     ReadBatchBySeqNo n d = Ok (ab_batch ab)) ∧
  ((∀ h ab, batches d !! h = Some ab → SequencerOrderNo (ab_header ab) ≠ n) →
     ReadBatchBySeqNo n d = Err ErrNotFound).
Proof.
  intros Hok. unfold ReadBatchBySeqNo. split.
  - intros h ab Hab Hseq. apply batches_lookup in Hab as (r & Hr & Hrow); [|done].
    pose proof (tro_sequence _ _ _ _ Hrow) as Hs.
    eapply fetchBatch_row; eauto; [by rewrite bool_decide_true by congruence|].
    intros h' r' Hr' Hh. apply bool_decide_eq_true in Hh.
    pose proof (do_sequence d Hok h r h' r' Hr Hr' ltac:(congruence)). simplify_eq. done.
  - intros Hnone. apply fetchBatch_None. intros h r Hr. apply bool_decide_eq_false. intros Hseq.
    destruct (do_batches d Hok h r Hr) as [ab Hrow]. apply (Hnone h ab).
    + apply batches_lookup; eauto.
    + rewrite <-Hseq. symmetry. by eapply tro_sequence.
Qed.

(** Every query for one batch finds one that satisfies it, or there is none. *)
Lemma fetchBatch_cases d whereQuery :
  db_ok d →
  (∃ h r ab, t_batch d !! h = Some r ∧ batch_row_ok d h r ab ∧ whereQuery r = true ∧
     fetchBatch whereQuery d = Ok (ab_batch ab)) ∨
  ((∀ h r, t_batch d !! h = Some r → whereQuery r = false) ∧ fetchBatch whereQuery d = Err ErrNotFound).
Proof.
  intros Hok. unfold fetchBatch.
  destruct (sql_row (λ r, joinBody d r && whereQuery r) (t_batch d)) as [r|] eqn:E; simpl.
  - left. apply sql_row_Some in E as (h & Hr & [_ HP]%andb_true_iff).
    destruct (do_batches d Hok h r Hr) as [ab Hrow]. exists h, r, ab.
    split_and!; [done..|]. by eapply decodeBatch_ok.
  - right. split; [|done]. intros h r Hr. rewrite sql_row_None in E. specialize (E h r Hr).
    by rewrite (joinBody_ok d h r Hok Hr) in E.
Qed.

(** The flags of a row are those of the batch it stores. *)
Lemma abs_flags d h r ab :
  batch_row_ok d h r ab →
  ab_canonical ab = bat_is_canonical r ∧ ab_executed ab = bat_is_executed r.
Proof.
  intros Hrow. pose proof (tro_abs _ _ _ _ Hrow) as Habs. unfold abs_batch in Habs.
  by apply bind_Some in Habs as (c & Hc & (hd & Hhd & (txs & Htxs & [= <-])%bind_Some)%bind_Some).
Qed.

(** The head batch: executed, canonical, and no such batch is higher. *)
Definition is_head_batch d (ab : ABatch) : Prop :=
  (∃ h, batches d !! h = Some ab) ∧ ab_canonical ab = true ∧ ab_executed ab = true ∧
  ∀ h' ab', batches d !! h' = Some ab' → ab_canonical ab' = true → ab_executed ab' = true →
    (Number (ab_header ab') ≤ Number (ab_header ab))%Z.

Lemma ReadCurrentHeadBatch_cases d :
  db_ok d →
  (∃ ab, is_head_batch d ab ∧ ReadCurrentHeadBatch d = Ok (ab_batch ab)) ∨
  ((∀ h ab, batches d !! h = Some ab → ab_canonical ab && ab_executed ab = false) ∧
   ReadCurrentHeadBatch d = Err ErrNotFound).
Proof.
  intros Hok. unfold ReadCurrentHeadBatch.
  assert (∀ h r ab, batch_row_ok d h r ab → canonicalExecuted r = ab_canonical ab && ab_executed ab) as Hflags.
  { intros h r ab Hrow. destruct (abs_flags _ _ _ _ Hrow) as [-> ->]. done. }
  destruct (sql_max canonicalExecuted bat_height (t_batch d)) as [z|] eqn:E.
  - left. apply sql_max_Some in E as [(h & r & Hr & Hce & <-) Hmax].
    destruct (fetchBatch_cases d
      (λ r', canonicalExecuted r' && bool_decide (Some (bat_height r') = Some (bat_height r))) Hok)
      as [(h' & r' & ab & Hr' & Hrow & [Hce' Hh]%andb_true_iff & ->)|[Hnone _]].
    + exists ab. split; [|done]. apply bool_decide_eq_true in Hh. injection Hh as Hh.
      rewrite (Hflags _ _ _ Hrow), andb_true_iff in Hce'. destruct Hce' as [Hc He].
      split_and!; [by exists h'; apply batches_lookup; eauto|done..|].
      intros h2 ab2 Hab2 Hc2 He2. apply batches_lookup in Hab2 as (r2 & Hr2 & Hrow2); [|done].
      rewrite <-(tro_height _ _ _ _ Hrow2), <-(tro_height _ _ _ _ Hrow), Hh. apply (Hmax h2 r2 Hr2).
      by rewrite (Hflags _ _ _ Hrow2), Hc2, He2.
    + specialize (Hnone h r Hr). rewrite Hce, bool_decide_true in Hnone by done. done.
  - right. rewrite sql_max_None in E. split.
    + intros h ab Hab. apply batches_lookup in Hab as (r & Hr & Hrow); [|done].
      rewrite <-(Hflags _ _ _ Hrow). eauto.
    + apply fetchBatch_None. intros h r Hr. by rewrite (E h r Hr).
Qed.

Lemma ReadCurrentSequencerNo_spec d :
  db_ok d →
  match ReadCurrentSequencerNo d with
  | Ok n => (∃ h ab, batches d !! h = Some ab ∧ SequencerOrderNo (ab_header ab) = n) ∧
            ∀ h ab, batches d !! h = Some ab → (SequencerOrderNo (ab_header ab) ≤ n)%Z
  | Err e => e = ErrNotFound ∧ batches d = ∅
  | Crash _ => False
  end.
Proof.
  intros Hok. unfold ReadCurrentSequencerNo.
  destruct (sql_max (λ _, true) bat_sequence (t_batch d)) as [z|] eqn:E; simpl.
  - apply sql_max_Some in E as [(h & r & Hr & _ & <-) Hmax]. split.
    + destruct (do_batches d Hok h r Hr) as [ab Hrow]. exists h, ab.
      split; [by apply batches_lookup; eauto|]. symmetry. by eapply tro_sequence.
    + intros h' ab' (r' & Hr' & Hrow')%batches_lookup; [|done].
      rewrite <-(tro_sequence _ _ _ _ Hrow'). by apply (Hmax h').
  - split; [done|]. rewrite sql_max_None in E. apply map_eq. intros h. rewrite lookup_empty.
    apply batches_None; [done|]. destruct (t_batch d !! h) as [r|] eqn:Hr; [|done].
    by specialize (E h r Hr).
Qed.

Lemma BatchWasExecuted_spec d h :
  db_ok d →
  BatchWasExecuted h d =
  Ok (match batches d !! h with Some ab => ab_canonical ab && ab_executed ab | None => false end).
Proof.
  intros Hok. unfold BatchWasExecuted. f_equal.
  destruct (sql_row (λ r, bat_is_canonical r && bool_decide (bat_hash r = h)) (t_batch d)) as [r|] eqn:E; simpl.
  - apply sql_row_Some in E as (h' & Hr & [Hc Hh]%andb_true_iff). apply bool_decide_eq_true in Hh.
    destruct (do_batches d Hok h' r Hr) as [ab Hrow]. pose proof (tro_key _ _ _ _ Hrow) as Hk.
    assert (h' = h) as -> by congruence.
    rewrite (proj2 (batches_lookup d h ab Hok) (ex_intro _ r (conj Hr Hrow))).
    destruct (abs_flags _ _ _ _ Hrow) as [-> ->]. by rewrite Hc.
  - rewrite sql_row_None in E. destruct (batches d !! h) as [ab|] eqn:Hab; [|done].
    apply batches_lookup in Hab as (r & Hr & Hrow); [|done]. specialize (E h r Hr).
    rewrite (tro_key _ _ _ _ Hrow), bool_decide_true, andb_true_r in E by done.
    destruct (abs_flags _ _ _ _ Hrow) as [-> _]. by rewrite E.
Qed.

Definition ab_seq_le (a b : ABatch) : Prop :=
  (SequencerOrderNo (ab_header a) ≤ SequencerOrderNo (ab_header b))%Z.

#[global] Instance by_sequence_trans : Transitive by_sequence.
Proof. intros r1 r2 r3. unfold by_sequence. lia. Qed.
#[global] Instance by_sequence_total : Total by_sequence.
Proof. intros r1 r2. unfold by_sequence. lia. Qed.

(** The rows of a list of batches, each with the batch it stores. *)
Lemma rows_decoded d (rows : list BatchRow) :
  db_ok d → (∀ r, r ∈ rows → ∃ h, t_batch d !! h = Some r) →
  ∃ l, Forall2 (λ r ab, ∃ h, t_batch d !! h = Some r ∧ batch_row_ok d h r ab) rows l ∧
       mapR (decodeBatch d) rows = Ok (ab_batch <$> l).
Proof.
  intros Hok. induction rows as [|r rows IH]; intros Hrows; [by exists []|].
  destruct IH as (l & Hl & Hm); [intros r' Hr'; apply Hrows; by right|].
  destruct (Hrows r) as [h Hr]; [by left|]. destruct (do_batches d Hok h r Hr) as [ab Hrow].
  exists (ab :: l). split; [by constructor; eauto|]. simpl.
  rewrite (decodeBatch_ok d h r ab Hrow). simpl. by rewrite Hm.
Qed.

(** A query for batches returns those that satisfy it, in the order of their
    sequence numbers. *)
Lemma fetchBatches_spec d whereQuery :
  db_ok d →
  ∃ l, fetchBatches whereQuery d = Ok (ab_batch <$> l) ∧ StronglySorted ab_seq_le l ∧
    ∀ ab, ab ∈ l ↔ ∃ h r, t_batch d !! h = Some r ∧ batch_row_ok d h r ab ∧ whereQuery r = true.
Proof.
  intros Hok. unfold fetchBatches.
  set (rows := merge_sort by_sequence (sql_select (λ r, joinBody d r && whereQuery r) (t_batch d))).
  assert (∀ r, r ∈ rows ↔ ∃ h, t_batch d !! h = Some r ∧ whereQuery r = true) as Hin.
  { intros r. unfold rows. rewrite merge_sort_Permutation, elem_of_sql_select.
    split; intros (h & Hr & HP); exists h; (split; [done|]).
    - by apply andb_true_iff in HP as [_ ?].
    - by rewrite (joinBody_ok d h r Hok Hr). }
  assert (StronglySorted by_sequence rows) as Hsort.
  { apply StronglySorted_merge_sort; apply _. }
  destruct (rows_decoded d rows Hok) as (l & Hl & Hm).
  { intros r (h & Hr & _)%Hin. eauto. }
  exists l. split; [done|]. split.
  - clear Hin Hm. revert Hsort. induction Hl as [|r ab rows' l' (h & Hr & Hrow) Hl IH]; intros Hsort; [constructor|].
    apply StronglySorted_inv in Hsort as [Hs Hle]. constructor; [by apply IH|].
    clear IH Hs. induction Hl as [|r2 ab2 rows2 l2 (h2 & Hr2 & Hrow2) Hl IH]; constructor.
    + inversion Hle; subst. unfold ab_seq_le, by_sequence in *.
      by rewrite <-(tro_sequence _ _ _ _ Hrow), <-(tro_sequence _ _ _ _ Hrow2).
    + inversion Hle; subst. by apply IH.
  - intros ab. split.
    + intros Hab. apply list_elem_of_lookup_1 in Hab as [i Hi].
      destruct (Forall2_lookup_r _ _ _ _ _ Hl Hi) as (r & Hri & h & Hr & Hrow).
      apply list_elem_of_lookup_2, Hin in Hri as (h' & Hr' & HP). eauto 10.
    + intros (h & r & Hr & Hrow & HP). assert (r ∈ rows) as Hri by (apply Hin; eauto).
      apply list_elem_of_lookup_1 in Hri as [i Hi].
      destruct (Forall2_lookup_l _ _ _ _ _ Hl Hi) as (ab' & Habi & h' & Hr' & Hrow').
      pose proof (tro_abs _ _ _ _ Hrow). pose proof (tro_abs _ _ _ _ Hrow'). simplify_eq.
      by eapply list_elem_of_lookup_2.
Qed.
End content.
