(* ===== verification/StorageOps.v ===== *)
(** * What the storage operations do

    Each write of the storage as an update of its abstract content, with the
    invariants it keeps; the storage as a block resolver; the cache as an
    invisible optimisation. *)

From S2P Require Import Prelude Types Codec L1Chain EnclaveDB BatchDB Events Storage StorageInv.

(** ** Batches *)

Section batches.
Context `{DBCodecsOk, HashingOk}.
Implicit Types (d : DB) (b : Batch.t).

(** A batch the database can hold: its fields encode, the numbers fit the
    columns, the cached hash is right and the header commits to the
    transactions. *)
Record storable b : Prop := {
  sb_hash : Batch.hash_ok b;
  sb_txhash : TxHash (Batch.Header b) = DeriveSha_txs (Batch.Transactions b);
  sb_header : is_Some (rlp_encode (Batch.Header b));
  sb_body : is_Some (rlp_encode (Batch.Transactions b));
  sb_txs : ∀ tx, tx ∈ Batch.Transactions b →
    is_Some (rlp_encode tx) ∧ is_Some (Sender tx) ∧ (0 ≤ tx_nonce tx < 2 ^ 63)%Z;
  sb_seq : (0 ≤ Batch.SeqNo b < 2 ^ 63)%Z;
  sb_number : (0 ≤ Batch.NumberOf b < 2 ^ 63)%Z
}.

(** The row of a new batch. *)
Definition newRow d b (header : bytes) : BatchRow :=
  let h := Batch.Header b in
  {| bat_hash := Batch.hashOf b;
     bat_parent := if (0 <? Int.u64 (Number h))%Z then Some (ParentHash h) else None;
     bat_sequence := Int.u64 (SequencerOrderNo h);
     bat_height := Int.u64 (Number h);
     bat_is_canonical := isCanonQuery d (L1Proof h);
     bat_header := header;
     bat_body := TxHash h;
     bat_l1_proof := L1Proof h;
     bat_is_executed := false |}.

Definition newABatch d b : ABatch :=
  mkABatch (Batch.Header b) (Batch.Transactions b) (isCanonQuery d (L1Proof (Batch.Header b))) false.

Lemma u64_small n : (0 ≤ n < 2 ^ 63)%Z → Int.u64 n = n ∧ sql_uint64 n = true.
Proof.
  intros Hn. split; [|by apply Z.ltb_lt; lia].
  apply Int.u64_id. unfold Int.is_u64, Int.two64. lia.
Qed.

Lemma txRows_ok bodyHash (txs : list L2Tx) : ∀ k,
  (∀ tx, tx ∈ txs → is_Some (rlp_encode tx) ∧ is_Some (Sender tx) ∧ (0 ≤ tx_nonce tx < 2 ^ 63)%Z) →
  ∃ rows, mapR (λ p, txRow bodyHash p.1 p.2) (zip (seq k (length txs)) txs) = Ok rows ∧
    ∀ r, r ∈ rows → txr_body r = bodyHash ∧ sql_uint64 (txr_nonce r) = true.
Proof.
  induction txs as [|tx txs IH]; intros k Htxs; simpl.
  { exists []. split; [done|]. by intros r ?%elem_of_nil. }
  destruct (Htxs tx) as ([bs Hbs] & [from Hfrom] & Hn); [by left|].
  destruct (IH (S k)) as (rows & Hrows & Hbody); [intros tx' ?; apply Htxs; by right|].
  assert (txRow bodyHash k tx = Ok (mkTxRow (tx_hash tx) bs from (tx_nonce tx) (Z.of_nat k) bodyHash)) as ->.
  { unfold txRow. by rewrite Hbs, Hfrom. }
  simpl. rewrite Hrows. eexists. split; [done|]. intros r [->|Hr]%elem_of_cons; simpl; [|by apply Hbody].
  split; [done|]. by apply u64_small.
Qed.

(** The statements a storable batch queues. *)
Lemma WriteBatch_queue d b :
  storable b →
  ∃ header body rows,
    rlp_encode (Batch.Header b) = Some header ∧ rlp_encode (Batch.Transactions b) = Some body ∧
    (∀ r, r ∈ rows → txr_body r = TxHash (Batch.Header b) ∧ sql_uint64 (txr_nonce r) = true) ∧
    WriteBatchAndTransactions d b dbTransaction.new =
    (dbTransaction.mk [] ([bodyInsert (TxHash (Batch.Header b)) body; bInsert (newRow d b header)] ++
       (if bool_decide (Batch.Transactions b = []) then [] else [txInsert rows])) 0, Ok tt).
Proof.
  intros Hb. destruct (sb_header b Hb) as [header Hh]. destruct (sb_body b Hb) as [body Hbody].
  destruct (txRows_ok (TxHash (Batch.Header b)) _ 0 (sb_txs b Hb)) as (rows & Hrows & Hok).
  exists header, body, rows. split_and!; [done..|].
  unfold WriteBatchAndTransactions, EncodeToBytes. rewrite Hh, Hbody, Hrows. simpl.
  by destruct (Batch.Transactions b) as [|tx txs].
Qed.

Lemma exec_txInsert d rows :
  (∀ r, r ∈ rows → is_Some (t_body d !! txr_body r) ∧ sql_uint64 (txr_nonce r) = true) →
  ∃ d', exec_statement (txInsert rows) d = Some d' ∧ t_block d' = t_block d ∧
    t_batch d' = t_batch d ∧ t_body d' = t_body d ∧ t_exec d' = t_exec d.
Proof.
  intros Hrows. cbn [exec_statement]. rewrite (proj2 (forallb_forall _ _)); [by eexists|].
  intros r Hr. apply list_elem_of_In, Hrows in Hr as [Hbody ->]. by rewrite bool_decide_true.
Qed.

(** They insert the row and the body, when hash and sequence are free. *)
Lemma Write_batch d b header body rows :
  storable b → t_batch d !! Batch.hashOf b = None →
  (∀ h r, t_batch d !! h = Some r → bat_sequence r ≠ Batch.SeqNo b) →
  (∀ r, r ∈ rows → txr_body r = TxHash (Batch.Header b) ∧ sql_uint64 (txr_nonce r) = true) →
  ∃ d',
    exec_all ([bodyInsert (TxHash (Batch.Header b)) body; bInsert (newRow d b header)] ++
       (if bool_decide (Batch.Transactions b = []) then [] else [txInsert rows])) d = Some d' ∧
    t_block d' = t_block d ∧
    t_batch d' = <[Batch.hashOf b := newRow d b header]> (t_batch d) ∧
    t_body d' = <[TxHash (Batch.Header b) := body]> (t_body d) ∧
    t_exec d' = t_exec d.
Proof.
  intros Hb Hfree Hseq Hrows.
  destruct (u64_small _ (sb_seq b Hb)) as [Hs Hs']. destruct (u64_small _ (sb_number b Hb)) as [Hn Hn'].
  set (d1 := upd_batch (<[Batch.hashOf b := newRow d b header]>)
               (upd_body (<[TxHash (Batch.Header b) := body]>) d)).
  assert (exec_all [bodyInsert (TxHash (Batch.Header b)) body; bInsert (newRow d b header)] d = Some d1) as Hd1.
  { cbn -[sql_row sql_insert sql_uint64 Int.u64]. rewrite lookup_insert_eq. simpl.
    unfold Batch.SeqNo, Batch.NumberOf in *. rewrite Hs, Hn, Hs', Hn'. simpl.
    rewrite (proj2 (sql_row_None _ _)).
    - unfold sql_insert. by rewrite Hfree.
    - intros h r Hr. apply bool_decide_eq_false. by apply (Hseq h). }
  rewrite exec_all_app, Hd1. simpl. case_bool_decide; [by exists d1|].
  destruct (exec_txInsert d1 rows) as (d' & Hd' & Hbl & Hba & Hbo & Hex).
  { intros r Hr. destruct (Hrows r Hr) as [-> ?]. split; [|done]. simpl. rewrite lookup_insert_eq. eauto. }
  exists d'. cbn [exec_all]. rewrite Hd'. simpl. by rewrite Hbl, Hba, Hbo, Hex.
Qed.

(** Replacing the body a header commits to does not change the batches that
    share it. *)
Lemma abs_batch_body d d' b body h r ab :
  storable b → rlp_encode (Batch.Transactions b) = Some body →
  t_body d' = <[TxHash (Batch.Header b) := body]> (t_body d) →
  batch_row_ok d h r ab → abs_batch d' r = Some ab.
Proof.
  intros Hb Hbody Hd' Hrow. pose proof (tro_abs _ _ _ _ Hrow) as Habs.
  pose proof (tro_body _ _ _ _ Hrow) as Htb. pose proof (tro_txs _ _ _ _ Hrow) as Htx.
  unfold abs_batch in *. rewrite Hd'.
  destruct (decide (bat_body r = TxHash (Batch.Header b))) as [Heq|Hne]; [|by rewrite lookup_insert_ne].
  rewrite Heq, lookup_insert_eq. simpl.
  apply bind_Some in Habs as (c & Hc & (hd & Hhd & (txs & Htxs & [= <-])%bind_Some)%bind_Some).
  rewrite Hhd. simpl. rewrite (rlp_roundtrip _ _ Hbody). simpl in *.
  rewrite (sb_txhash b Hb) in Heq. assert (txs = Batch.Transactions b) as <-; [|done].
  apply (inj DeriveSha_txs). congruence.
Qed.

Lemma newRow_ok d d' b header body :
  storable b → rlp_encode (Batch.Header b) = Some header →
  rlp_encode (Batch.Transactions b) = Some body →
  t_body d' = <[TxHash (Batch.Header b) := body]> (t_body d) →
  batch_row_ok d' (Batch.hashOf b) (newRow d b header) (newABatch d b).
Proof.
  intros Hb Hh Hbody Hd'. destruct (u64_small _ (sb_seq b Hb)) as [Hs _].
  destruct (u64_small _ (sb_number b Hb)) as [Hn _].
  split; simpl; try done; [|by rewrite (sb_hash b Hb)|by apply sb_txhash|split; [by apply sb_seq|by apply sb_number]].
  unfold abs_batch. simpl. rewrite Hd', lookup_insert_eq. simpl.
  rewrite (rlp_roundtrip _ _ Hh). simpl. by rewrite (rlp_roundtrip _ _ Hbody).
Qed.

Lemma insert_batch_ok d d' b header body :
  db_ok d → storable b → rlp_encode (Batch.Header b) = Some header →
  rlp_encode (Batch.Transactions b) = Some body →
  t_block d !! Batch.hashOf b = None → t_batch d !! Batch.hashOf b = None →
  (∀ h r, t_batch d !! h = Some r → bat_sequence r ≠ Batch.SeqNo b) →
  t_block d' = t_block d →
  t_batch d' = <[Batch.hashOf b := newRow d b header]> (t_batch d) →
  t_body d' = <[TxHash (Batch.Header b) := body]> (t_body d) →
  db_ok d' ∧ blocks d' = blocks d ∧ batches d' = <[Batch.hashOf b := newABatch d b]> (batches d).
Proof.
  intros Hok Hb Hh Hbody Hnb Hfree Hseq Hbl Hba Hbo.
  pose proof (newRow_ok d d' b header body Hb Hh Hbody Hbo) as Hnew.
  assert (∀ h r, t_batch d' !! h = Some r →
    (h = Batch.hashOf b ∧ r = newRow d b header) ∨ (h ≠ Batch.hashOf b ∧ t_batch d !! h = Some r)) as Hcase.
  { intros h r. rewrite Hba, lookup_insert_Some. intros [[<- <-]|[? ?]]; auto. }
  assert (∀ h r, t_batch d' !! h = Some r → ∃ ab, batch_row_ok d' h r ab) as Hrows.
  { intros h r [[-> ->]|[_ Hr]]%Hcase; [by eauto|]. destruct (do_batches d Hok h r Hr) as [ab Hrow].
    exists ab. pose proof (abs_batch_body d d' b body h r ab Hb Hbody Hbo Hrow). by destruct Hrow; split. }
  assert (Int.u64 (SequencerOrderNo (Batch.Header b)) = Batch.SeqNo b) as Hu by by apply u64_small, sb_seq.
  split_and!.
  - split; [by rewrite Hbl; apply do_blocks|done|..].
    + intros h r h' r' [[-> ->]|[_ Hr]]%Hcase [[-> ->]|[_ Hr']]%Hcase; simpl; try done.
      * intros He. destruct (Hseq h' r' Hr'). congruence.
      * intros He. destruct (Hseq h r Hr). congruence.
      * by apply (do_sequence d Hok).
    + intros h r [[-> ->]|[_ Hr]]%Hcase; simpl; unfold isCanonQuery; rewrite Hbl; [done|].
      by apply (do_canonical d Hok h).
    + intros h r r'. rewrite Hbl. intros Hr [[-> ->]|[_ Hr']]%Hcase; [congruence|].
      by apply (do_disjoint d Hok h r r').
  - unfold blocks. by rewrite Hbl.
  - apply map_eq. intros h. unfold batches at 1. rewrite lookup_omap, Hba.
    destruct (decide (h = Batch.hashOf b)) as [->|Hne].
    + rewrite !lookup_insert_eq. simpl. by apply tro_abs in Hnew.
    + rewrite !lookup_insert_ne by done. unfold batches. rewrite lookup_omap.
      destruct (t_batch d !! h) as [r|] eqn:Hr; simpl; [|done].
      destruct (do_batches d Hok h r Hr) as [ab Hrow]. rewrite (tro_abs _ _ _ _ Hrow).
      by eapply abs_batch_body.
Qed.
End batches.

(** ** Canonical flags *)

Section canonical.
Context `{StorageCodecs}.
Implicit Types (d : DB) (f g : Hash → bool → bool).

(** Changing the flags of blocks, and of batches through the block they are
    built on. *)
Definition recanon_block f (r : BlockRow) : BlockRow :=
  set_blk_canonical (f (blk_hash r) (blk_is_canonical r)) r.
Definition recanon_batch f (r : BatchRow) : BatchRow :=
  set_bat_canonical (f (bat_l1_proof r) (bat_is_canonical r)) r.
Definition recanon f d : DB :=
  upd_batch (fmap (recanon_batch f)) (upd_block (fmap (recanon_block f)) d).

Definition canon_set (c : bool) (hs : list Hash) : Hash → bool → bool :=
  λ k c0, if bool_decide (k ∈ hs) then c else c0.

(** The flags after a fork: those of the abandoned chain are cleared, those of
    the adopted one are set. *)
Definition canon_fork (fork : option ChainFork) : Hash → bool → bool := λ k c,
  match fork with
  | Some cf =>
      if ChainFork_IsFork cf
      then canon_set true (CanonicalPath cf) k (canon_set false (NonCanonicalPath cf) k c)
      else c
  | None => c
  end.

Lemma recanon_compose f g d : recanon f (recanon g d) = recanon (λ k c, f k (g k c)) d.
Proof.
  unfold recanon, upd_batch, upd_block. simpl. f_equal.
  - by rewrite <-map_fmap_compose.
  - by rewrite <-map_fmap_compose.
Qed.

Lemma recanon_id d f : (∀ k c, f k c = c) → recanon f d = d.
Proof.
  intros Hf. unfold recanon, upd_batch, upd_block. simpl.
  assert (recanon_block f <$> t_block d = t_block d) as ->.
  { apply map_eq. intros k. rewrite lookup_fmap. destruct (t_block d !! k) as [[]|]; [|done].
    simpl. unfold recanon_block. simpl. by rewrite Hf. }
  assert (recanon_batch f <$> t_batch d = t_batch d) as ->; [|by destruct d].
  apply map_eq. intros k. rewrite lookup_fmap. destruct (t_batch d !! k) as [[]|]; [|done].
  simpl. unfold recanon_batch. simpl. by rewrite Hf.
Qed.

Lemma updateCanonical_exec c hs d :
  exec_all [updateCanonicalBlock c hs; updateCanonicalBatches c hs] d = Some (recanon (canon_set c hs) d).
Proof.
  simpl. unfold recanon, upd_batch, upd_block, sql_update. simpl. do 2 f_equal.
  - apply map_fmap_ext. intros k r _. unfold recanon_block, canon_set. by case_bool_decide; destruct r.
  - apply map_fmap_ext. intros k r _. unfold recanon_batch, canon_set. by case_bool_decide; destruct r.
Qed.

(** The statements queued for a list of updates. *)
Definition updateStatements (c : bool) (hs : list Hash) : list statement :=
  if (0 <? length hs)%nat then [updateCanonicalBlock c hs; updateCanonicalBatches c hs] else [].

Lemma updateStatements_exec c hs d : exec_all (updateStatements c hs) d = Some (recanon (canon_set c hs) d).
Proof.
  unfold updateStatements. destruct hs as [|h hs]; [|apply updateCanonical_exec].
  simpl. f_equal. symmetry. apply recanon_id. intros k b. unfold canon_set.
  by rewrite bool_decide_false by apply not_elem_of_nil.
Qed.

Lemma UpdateCanonicalBlocks_queue cp ncp tx :
  UpdateCanonicalBlocks cp ncp tx =
  (dbTransaction.mk (dbTransaction.writes tx)
     (dbTransaction.statements tx ++ updateStatements false ncp ++ updateStatements true cp)
     (dbTransaction.size tx), Ok tt).
Proof.
  unfold UpdateCanonicalBlocks, updateStatements, updateCanonicalValue, dbTransaction.ExecuteSQL.
  destruct tx as [w st sz], cp as [|h cp], ncp as [|h' ncp]; m_simpl;
    rewrite <-?app_assoc, ?app_nil_r; done.
Qed.

(** The row of a new block. *)
Definition newBlockRow (b : L1Header) (header : bytes) : BlockRow :=
  mkBlockRow (h_hash b) (if (1 <? Int.u64 (h_number b))%Z then Some (h_parent b) else None)
    true header (Int.u64 (h_number b)).

Definition forkStatements (fork : option ChainFork) : list statement :=
  match fork with
  | Some cf => if ChainFork_IsFork cf
               then updateStatements false (NonCanonicalPath cf) ++ updateStatements true (CanonicalPath cf)
               else []
  | None => []
  end.

Lemma queueBlock_queue b fork header :
  rlp_encode (b_header b) = Some header →
  queueBlock b fork dbTransaction.new =
  (dbTransaction.mk [] (forkStatements fork ++ updateStatements true [Block_Hash b] ++
     [blockInsert (newBlockRow (b_header b) header)]) 0, Ok tt).
Proof.
  intros Hh. unfold queueBlock, forkStatements, mbind, M_bind, WriteBlock, EncodeToBytes, when.
  rewrite Hh. destruct fork as [cf|]; simpl.
  - destruct (ChainFork_IsFork cf); simpl; [|done].
    rewrite UpdateCanonicalBlocks_queue. unfold dbTransaction.ExecuteSQL. m_simpl. by rewrite <-!app_assoc.
  - done.
Qed.

Lemma forkStatements_exec fork d : exec_all (forkStatements fork) d = Some (recanon (canon_fork fork) d).
Proof.
  unfold forkStatements, canon_fork. destruct fork as [cf|]; [destruct (ChainFork_IsFork cf)|].
  - rewrite exec_all_app, updateStatements_exec. simpl. by rewrite updateStatements_exec, recanon_compose.
  - simpl. by rewrite recanon_id.
  - simpl. by rewrite recanon_id.
Qed.

(** The tables after a block is stored. *)
Lemma StoreBlock_exec b fork header d :
  (0 ≤ h_number (b_header b) < 2 ^ 63)%Z → t_block d !! Block_Hash b = None →
  exec_all (forkStatements fork ++ updateStatements true [Block_Hash b] ++
     [blockInsert (newBlockRow (b_header b) header)]) d =
  Some (upd_block (<[Block_Hash b := newBlockRow (b_header b) header]>)
    (recanon (λ k c, canon_set true [Block_Hash b] k (canon_fork fork k c)) d)).
Proof.
  intros Hn Hfree. rewrite exec_all_app, forkStatements_exec. cbn [mbind option_bind].
  rewrite exec_all_app, updateStatements_exec. cbn [mbind option_bind].
  rewrite exec_all_single, recanon_compose. cbn [exec_statement].
  destruct (u64_small _ Hn) as [Hu Hs]. simpl. rewrite Hu, Hs. simpl.
  unfold sql_insert. rewrite lookup_fmap. unfold Block_Hash in *. by rewrite Hfree.
Qed.
End canonical.

Section store_block.
Context `{StorageCodecsOk, Hashing}.
Implicit Types (d : DB) (b : L1Block).

Definition ab_recanon (f : Hash → bool → bool) (ab : ABatch) : ABatch :=
  mkABatch (ab_header ab) (ab_txs ab) (f (L1Proof (ab_header ab)) (ab_canonical ab)) (ab_executed ab).

(** The flags of a stored block after a new one is. *)
Definition canon_store b (fork : option ChainFork) : Hash → bool → bool :=
  λ k c, canon_set true [Block_Hash b] k (canon_fork fork k c).

Definition stored_block d b (fork : option ChainFork) (header : bytes) : DB :=
  upd_block (<[Block_Hash b := newBlockRow (b_header b) header]>) (recanon (canon_store b fork) d).

Lemma recanon_row_ok f d d' h r ab :
  t_body d' = t_body d → batch_row_ok d h r ab → batch_row_ok d' h (recanon_batch f r) (ab_recanon f ab).
Proof.
  intros Hbody Hrow. pose proof (tro_abs _ _ _ _ Hrow) as Habs. pose proof (tro_proof _ _ _ _ Hrow) as Hp.
  destruct (abs_flags _ _ _ _ Hrow) as [Hc _].
  destruct Hrow; split; try done. unfold abs_batch in *. rewrite Hbody. simpl.
  apply bind_Some in Habs as (c & Hc' & (hd & Hhd & (txs & Htxs & [= <-])%bind_Some)%bind_Some).
  rewrite Hc'. simpl. rewrite Hhd. simpl. rewrite Htxs. simpl in *. unfold ab_recanon. simpl. by rewrite Hp.
Qed.

Lemma stored_block_ok d b fork header :
  db_ok d → rlp_encode (b_header b) = Some header → (0 ≤ h_number (b_header b) < 2 ^ 63)%Z →
  t_block d !! Block_Hash b = None → t_batch d !! Block_Hash b = None →
  (∀ cf k, fork = Some cf → k ∈ CanonicalPath cf → is_Some (t_block d !! k)) →
  let d' := stored_block d b fork header in
  db_ok d' ∧ blocks d' = <[Block_Hash b := b_header b]> (blocks d) ∧
  batches d' = ab_recanon (canon_store b fork) <$> batches d.
Proof.
  intros Hok Hh Hn Hfree Hnb Hcp d'.
  assert (∀ h r, t_batch d' !! h = Some r → ∃ r0 ab, t_batch d !! h = Some r0 ∧ batch_row_ok d h r0 ab ∧
    r = recanon_batch (canon_store b fork) r0 ∧ batch_row_ok d' h r (ab_recanon (canon_store b fork) ab)) as Hrows.
  { intros h r. simpl. rewrite lookup_fmap_Some. intros (r0 & <- & Hr0).
    destruct (do_batches d Hok h r0 Hr0) as [ab Hrow]. exists r0, ab. split_and!; try done.
    by apply (recanon_row_ok _ d). }
  assert (block_row_ok (Block_Hash b) (newBlockRow (b_header b) header) (b_header b)) as Hnew.
  { split; try done; simpl; [by apply rlp_roundtrip|]. by apply u64_small. }
  split_and!.
  - split.
    + intros h r. simpl. rewrite lookup_insert_Some, lookup_fmap_Some.
      intros [[<- <-]|[_ (r0 & <- & Hr0)]]; [by eauto|].
      destruct (do_blocks d Hok h r0 Hr0) as [hd Hrow]. exists hd. by destruct Hrow; split.
    + intros h r (r0 & ab & _ & _ & _ & Hrow)%Hrows. eauto.
    + intros h r h' r' (r0 & ab & Hr0 & _ & -> & _)%Hrows (r0' & ab' & Hr0' & _ & -> & _)%Hrows.
      exact (do_sequence d Hok h r0 h' r0' Hr0 Hr0').
    + intros h r (r0 & ab & Hr0 & _ & -> & _)%Hrows. simpl.
      rewrite (do_canonical d Hok h r0 Hr0). unfold isCanonQuery, canon_store, canon_set. simpl.
      destruct (decide (bat_l1_proof r0 = Block_Hash b)) as [Heq|Hne].
      * by rewrite Heq, lookup_insert_eq, bool_decide_true by by left.
      * rewrite lookup_insert_ne, lookup_fmap, bool_decide_false by (done || by rewrite list_elem_of_singleton).
        destruct (t_block d !! bat_l1_proof r0) as [rb|] eqn:Hrb; simpl.
        -- destruct (do_blocks d Hok _ _ Hrb) as [hd Hrow]. rewrite (bro_key _ _ _ Hrow).
           unfold canon_store, canon_set. by rewrite bool_decide_false by by rewrite list_elem_of_singleton.
        -- unfold canon_fork, canon_set. destruct fork as [cf|]; [|done]. case_match; [|done].
           rewrite bool_decide_false; [by case_bool_decide|].
           intros Hin. destruct (Hcp cf _ eq_refl Hin). congruence.
    + intros h r r'. simpl. rewrite lookup_insert_Some, !lookup_fmap_Some.
      intros [[<- <-]|[_ (r0 & _ & Hr0)]] (r1 & _ & Hr1); [congruence|]. by apply (do_disjoint d Hok h r0 r1).
  - apply map_eq. intros h. unfold blocks, d'. rewrite lookup_omap. simpl.
    destruct (decide (h = Block_Hash b)) as [->|Hne].
    + rewrite !lookup_insert_eq. simpl. by apply bro_header in Hnew.
    + rewrite !lookup_insert_ne, lookup_fmap, lookup_omap by done. by destruct (t_block d !! h).
  - apply map_eq. intros h. rewrite lookup_fmap. unfold batches at 2. rewrite lookup_omap.
    destruct (t_batch d !! h) as [r|] eqn:Hr; simpl.
    + destruct (Hrows h (recanon_batch (canon_store b fork) r)) as (r0 & ab & Hr0 & Hrow0 & _ & Hrow).
      { simpl. by rewrite lookup_fmap, Hr. }
      simplify_eq. rewrite (tro_abs _ _ _ _ Hrow0). simpl. unfold batches. rewrite lookup_omap. simpl.
      rewrite lookup_fmap, Hr. simpl. by eapply tro_abs.
    + unfold batches. rewrite lookup_omap. simpl. by rewrite lookup_fmap, Hr.
Qed.
End store_block.

(** ** Executed batches *)

Section executed.
Context `{DBCodecs, Hashing}.
Implicit Types (d : DB).

Definition ab_set_executed (ab : ABatch) : ABatch :=
  mkABatch (ab_header ab) (ab_txs ab) (ab_canonical ab) true.

Lemma executed_row_ok d d' h r ab :
  t_body d' = t_body d → batch_row_ok d h r ab → batch_row_ok d' h (set_bat_executed r) (ab_set_executed ab).
Proof.
  intros Hbody Hrow. pose proof (tro_abs _ _ _ _ Hrow) as Habs.
  destruct Hrow; split; try done. unfold abs_batch in *. rewrite Hbody. simpl.
  apply bind_Some in Habs as (c & Hc' & (hd & Hhd & (txs & Htxs & [= <-])%bind_Some)%bind_Some).
  rewrite Hc'. simpl. rewrite Hhd. simpl. by rewrite Htxs.
Qed.

Lemma same_row_ok d d' h r ab :
  t_body d' = t_body d → batch_row_ok d h r ab → batch_row_ok d' h r ab.
Proof. intros Hbody Hrow. destruct Hrow; split; try done. unfold abs_batch in *. by rewrite Hbody. Qed.

(** Marking a batch executed changes its flag and nothing else. *)
Lemma mark_executed_ok d d' h :
  db_ok d → t_block d' = t_block d → t_body d' = t_body d →
  t_batch d' = sql_update (λ r, bool_decide (bat_hash r = h)) set_bat_executed (t_batch d) →
  db_ok d' ∧ blocks d' = blocks d ∧ batches d' = alter ab_set_executed h (batches d).
Proof.
  intros Hok Hbl Hbo Hba.
  assert (∀ k, t_batch d' !! k =
    (λ r, if bool_decide (k = h) then set_bat_executed r else r) <$> t_batch d !! k) as Hlook.
  { intros k. rewrite Hba, lookup_sql_update. destruct (t_batch d !! k) as [r|] eqn:Hr; simpl; [|done].
    destruct (do_batches d Hok k r Hr) as [ab Hrow]. by rewrite (tro_key _ _ _ _ Hrow). }
  assert (∀ k r', t_batch d' !! k = Some r' → ∃ r ab, t_batch d !! k = Some r ∧ batch_row_ok d k r ab ∧
    r' = (if bool_decide (k = h) then set_bat_executed r else r) ∧
    batch_row_ok d' k r' (if bool_decide (k = h) then ab_set_executed ab else ab)) as Hrows.
  { intros k r'. rewrite Hlook, fmap_Some. intros (r & Hr & ->).
    destruct (do_batches d Hok k r Hr) as [ab Hrow]. exists r, ab. split_and!; try done.
    case_bool_decide; [by apply (executed_row_ok d) | by apply (same_row_ok d)]. }
  assert (∀ (b : bool) r, bat_sequence (if b then set_bat_executed r else r) = bat_sequence r ∧
    bat_is_canonical (if b then set_bat_executed r else r) = bat_is_canonical r ∧
    bat_l1_proof (if b then set_bat_executed r else r) = bat_l1_proof r) as Hsame.
  { by intros []. }
  split_and!.
  - split.
    + rewrite Hbl. by apply do_blocks.
    + intros k r' (r & ab & _ & _ & _ & Hrow)%Hrows. eauto.
    + intros k r h' r' (r0 & ab & Hr0 & _ & -> & _)%Hrows (r0' & ab' & Hr0' & _ & -> & _)%Hrows.
      rewrite !(proj1 (Hsame _ _)). exact (do_sequence d Hok k r0 h' r0' Hr0 Hr0').
    + intros k r' (r & ab & Hr & _ & -> & _)%Hrows. destruct (Hsame (bool_decide (k = h)) r) as (_ & -> & ->).
      unfold isCanonQuery. rewrite Hbl. by apply (do_canonical d Hok k).
    + intros k r r'. rewrite Hbl. intros Hr (r0 & ab & Hr0 & _)%Hrows. by apply (do_disjoint d Hok k r r0).
  - unfold blocks. by rewrite Hbl.
  - apply map_eq. intros k. unfold batches at 1. rewrite lookup_omap.
    destruct (t_batch d' !! k) as [r'|] eqn:Hr'; simpl.
    + destruct (Hrows k r' Hr') as (r & ab & Hr & Hrow & _ & Hrow'). rewrite (tro_abs _ _ _ _ Hrow').
      assert (batches d !! k = Some ab) as Hab by (apply batches_lookup; eauto).
      destruct (decide (k = h)) as [->|Hne].
      * rewrite lookup_alter_eq, Hab. by rewrite bool_decide_true.
      * rewrite lookup_alter_ne, Hab by done. by rewrite bool_decide_false.
    + assert (batches d !! k = None) as Hab.
      { apply batches_None; [done|]. rewrite Hlook in Hr'. by destruct (t_batch d !! k). }
      symmetry. destruct (decide (k = h)) as [->|Hne]; [rewrite lookup_alter_eq | rewrite lookup_alter_ne by done];
        by rewrite Hab.
Qed.
End executed.
