(* ===== verification/StorageSpec.v ===== *)
(** * The storage as its clients see it

    The cache never changes an answer; the storage implements the block
    resolver interface of the chain walks; the specifications of the
    operations that store blocks, batches and executions. *)

From S2P Require Import Prelude Types Codec L1Chain EnclaveDB BatchDB Events Storage StorageInv StorageOps.

Section spec.
Context {C : Type} `{CacheOk C, StateModel, StorageCodecsOk, HashingOk}.
Implicit Types (s : Storage C) (d : DB).

(** What is cached is the encoding of what the database holds. *)
Definition cache_ok s : Prop := ∀ h v, cache_get (s_cache s) h = Some v →
  (∃ b : L1Block, rlp_encode b = Some v ∧ blocks (s_db s) !! h = Some (b_header b)) ∨
  (∃ ab, rlp_encode (ab_header ab, ab_txs ab) = Some v ∧ batches (s_db s) !! h = Some ab).

Record storage_ok s : Prop := {
  so_db : db_ok (s_db s);
  so_cache : cache_ok s
}.

(** Only the cache may differ. *)
Definition same_content s s' : Prop := s_db s' = s_db s ∧ s_tries s' = s_tries s.

#[global] Instance same_content_preorder : PreOrder same_content.
Proof. split; [done|]. intros s1 s2 s3 [E1 E2] [E3 E4]. split; congruence. Qed.

Lemma blocks_batches_disjoint d h hd ab :
  db_ok d → blocks d !! h = Some hd → batches d !! h = Some ab → False.
Proof.
  intros Hok (r & Hr & _)%blocks_lookup (r' & Hr' & _)%batches_lookup; [|done..].
  by eapply (do_disjoint d Hok h).
Qed.

(** ** Filling the cache *)

Lemma set_cache_ok s h v :
  storage_ok s →
  (∃ b : L1Block, rlp_encode b = Some v ∧ blocks (s_db s) !! h = Some (b_header b)) ∨
  (∃ ab, rlp_encode (ab_header ab, ab_txs ab) = Some v ∧ batches (s_db s) !! h = Some ab) →
  storage_ok (set_cache h v s).1.
Proof.
  intros [Hdb Hc] Hv. split; [done|]. intros h' v' Hget. simpl in Hget.
  apply cache_get_set in Hget as [[-> ->]|Hget]; [done|]. by apply Hc.
Qed.

Lemma cacheBlock_ok s h b :
  storage_ok s → blocks (s_db s) !! h = Some (b_header b) →
  (cacheBlock h b s).2 = Ok tt ∧ storage_ok (cacheBlock h b s).1 ∧ same_content s (cacheBlock h b s).1.
Proof.
  intros Hok Hb. unfold cacheBlock. destruct (rlp_encode b) as [v|] eqn:E; [|done].
  split_and!; [done | | done]. apply set_cache_ok; eauto.
Qed.

Lemma cacheBatch_ok s h (b : Batch.t) ab :
  storage_ok s → batches (s_db s) !! h = Some ab →
  Batch.Header b = ab_header ab → Batch.Transactions b = ab_txs ab →
  (cacheBatch h b s).2 = Ok tt ∧ storage_ok (cacheBatch h b s).1 ∧ same_content s (cacheBatch h b s).1.
Proof.
  intros Hok Hab Hh Ht. unfold cacheBatch. rewrite Hh, Ht.
  destruct (rlp_encode (ab_header ab, ab_txs ab)) as [v|] eqn:E; [|done].
  split_and!; [done | | done]. apply set_cache_ok; eauto.
Qed.

(** ** Fetching *)

Lemma storage_FetchBlock_spec s h :
  storage_ok s →
  storage_ok (storage_FetchBlock h s).1 ∧ same_content s (storage_FetchBlock h s).1 ∧
  match blocks (s_db s) !! h with
  | Some hd => ∃ b, (storage_FetchBlock h s).2 = Ok b ∧ b_header b = hd
  | None => ∃ e, (storage_FetchBlock h s).2 = Err e ∧ (batches (s_db s) !! h = None → e = ErrNotFound)
  end.
Proof.
  intros Hok. pose proof (so_db s Hok) as Hdb.
  unfold storage_FetchBlock, getCachedBlock, mbind, M_bind, gets. simpl.
  destruct (cache_get (s_cache s) h) as [v|] eqn:Hget; simpl.
  - do 2 (split; [done|]). unfold DecodeBytes.
    destruct (so_cache s Hok h v Hget) as [(b & Henc & Hb)|(ab & Henc & Hab)].
    + rewrite Hb, (rlp_roundtrip _ _ Henc). by exists b.
    + rewrite (block_of_batch _ _ Henc). destruct (blocks (s_db s) !! h) as [hd|] eqn:Hhd.
      { by destruct (blocks_batches_disjoint _ _ _ _ Hdb Hhd Hab). }
      eexists. split; [done|]. intros. congruence.
  - rewrite (db_FetchBlock_spec _ h Hdb). destruct (blocks (s_db s) !! h) as [hd|] eqn:Hhd.
    + destruct (cacheBlock_ok s h (NewBlockWithHeader hd) Hok Hhd) as (Hr & Hok' & Hsame).
      destruct (cacheBlock h (NewBlockWithHeader hd) s) as [s' r]. simpl in *. subst r.
      split_and!; [done..|]. by eexists.
    + split_and!; [done..|]. by eexists.
Qed.

Lemma storage_FetchBlock_view s h :
  storage_ok s →
  storage_ok (FetchBlock h s).1 ∧ blocks (s_db (FetchBlock h s).1) = blocks (s_db s) ∧
  match blocks (s_db s) !! h with
  | Some hd => ∃ b, (FetchBlock h s).2 = Ok b ∧ b_header b = hd
  | None => ∃ e, (FetchBlock h s).2 = Err e
  end.
Proof.
  intros Hok. destruct (storage_FetchBlock_spec s h Hok) as (Hok' & [Hdb _] & Hr).
  unfold FetchBlock, storage_resolver. rewrite Hdb. do 2 (split; [done|]).
  destruct (blocks (s_db s) !! h); [done|]. destruct Hr as (e & He & _). by exists e.
Qed.

(** The storage is a block resolver. *)
#[global] Instance storage_resolver_ok : BlockResolverOk (Storage C) := {|
  resolver_inv := storage_ok;
  view s := blocks (s_db s);
  FetchBlock_spec := storage_FetchBlock_view
|}.

Lemma FetchBatch_spec s h :
  storage_ok s →
  storage_ok (FetchBatch h s).1 ∧ same_content s (FetchBatch h s).1 ∧
  match batches (s_db s) !! h with
  | Some ab => (FetchBatch h s).2 = Ok (ab_batch ab)
  | None => ∃ e, (FetchBatch h s).2 = Err e ∧ (blocks (s_db s) !! h = None → e = ErrNotFound)
  end.
Proof.
  intros Hok. pose proof (so_db s Hok) as Hdb.
  unfold FetchBatch, getCachedBatch, mbind, M_bind, gets. simpl.
  destruct (cache_get (s_cache s) h) as [v|] eqn:Hget; simpl.
  - unfold DecodeBytes, lift.
    destruct (so_cache s Hok h v Hget) as [(b & Henc & Hb)|(ab & Henc & Hab)].
    + rewrite (batch_of_block _ _ Henc). simpl. do 2 (split; [done|]).
      destruct (batches (s_db s) !! h) as [ab|] eqn:Hab.
      { by destruct (blocks_batches_disjoint _ _ _ _ Hdb Hb Hab). }
      eexists. split; [done|]. intros. congruence.
    + rewrite (rlp_roundtrip _ _ Henc). simpl. do 2 (split; [done|]). by rewrite Hab.
  - rewrite (ReadBatchByHash_spec _ h Hdb). destruct (batches (s_db s) !! h) as [ab|] eqn:Hab.
    + destruct (cacheBatch_ok s h (ab_batch ab) ab Hok Hab eq_refl eq_refl) as (Hr & Hok' & Hsame).
      destruct (cacheBatch h (ab_batch ab) s) as [s' r]. simpl in *. by subst r.
    + split_and!; [done..|]. by eexists.
Qed.

(** Fetching only fills the cache. *)
Lemma FetchBlock_same h s : same_content s (FetchBlock h s).1.
Proof.
  unfold FetchBlock, storage_resolver, storage_FetchBlock, getCachedBlock, mbind, M_bind, gets. simpl.
  destruct (cache_get (s_cache s) h); simpl; [done|]. destruct (db_FetchBlock h (s_db s)) as [b|e|c]; simpl; [|done..].
  unfold cacheBlock. by destruct (rlp_encode b).
Qed.

Lemma FetchBatch_same h s : same_content s (FetchBatch h s).1.
Proof.
  unfold FetchBatch, getCachedBatch, mbind, M_bind, gets. simpl.
  destruct (cache_get (s_cache s) h) as [v|]; simpl.
  - unfold lift. by destruct (DecodeBytes v) as [[hd txs]|e|c].
  - destruct (ReadBatchByHash h (s_db s)) as [b|e|c]; simpl; [|done..].
    unfold cacheBatch. by destruct (rlp_encode (Batch.Header b, Batch.Transactions b)).
Qed.

(** ** Storing *)

Definition with_db d s : Storage C := mkStorage C _ d (s_cache s) (s_tries s).

Lemma transact_Ok msg1 msg2 queue qs s d' :
  queue (s_db s) dbTransaction.new = (dbTransaction.mk [] qs 0, Ok tt) →
  exec_all qs (s_db s) = Some d' → transact msg1 msg2 queue s = (with_db d' s, Ok tt).
Proof.
  intros Hq He. unfold transact, mbind, M_bind, gets. simpl. rewrite Hq. simpl.
  unfold wrap, on_db, zoom. rewrite Write_statements, He. done.
Qed.

(** The content of the cache stays valid when the database only grows. *)
Lemma with_db_ok d s :
  db_ok d → cache_ok s →
  (∀ h hd, blocks (s_db s) !! h = Some hd → blocks d !! h = Some hd) →
  (∀ h ab, batches (s_db s) !! h = Some ab → ∃ ab', batches d !! h = Some ab' ∧
     ab_header ab' = ab_header ab ∧ ab_txs ab' = ab_txs ab) →
  storage_ok (with_db d s).
Proof.
  intros Hd Hc Hbl Hba. split; [done|]. intros h v Hget.
  destruct (Hc h v Hget) as [(b & Henc & Hb)|(ab & Henc & Hab)]; [by left; eauto|].
  right. destruct (Hba h ab Hab) as (ab' & ? & Hh & Ht). exists ab'. by rewrite Hh, Ht.
Qed.

(** A batch whose sequence number is taken is not stored again: the same batch
    is accepted silently, a different one ends the process. *)
Lemma StoreBatch_taken s b h ab :
  storage_ok s → storable b → batches (s_db s) !! h = Some ab →
  SequencerOrderNo (ab_header ab) = Batch.SeqNo b →
  StoreBatch b s = (s, if bool_decide (h = Batch.hashOf b) then Ok tt
                       else Crash "Conflicting batches for the same sequence").
Proof.
  intros [Hdb _] Hb Hab Hseq. unfold StoreBatch, mbind, M_bind, try, FetchBatchBySeqNo, query.
  rewrite (proj1 (u64_small _ (sb_seq b Hb))).
  rewrite (proj1 (ReadBatchBySeqNo_spec _ _ Hdb) h ab Hab Hseq).
  apply batches_lookup in Hab as (r & _ & Hrow); [|done].
  assert (Batch.hashOf (ab_batch ab) = h) as -> by apply (tro_hash _ _ _ _ Hrow).
  by case_bool_decide.
Qed.

(** A batch with a free sequence number is added. *)
Lemma StoreBatch_new s b :
  storage_ok s → storable b → blocks (s_db s) !! Batch.hashOf b = None →
  (∀ h ab, batches (s_db s) !! h = Some ab → SequencerOrderNo (ab_header ab) ≠ Batch.SeqNo b) →
  ∃ s', StoreBatch b s = (s', Ok tt) ∧ storage_ok s' ∧ s_tries s' = s_tries s ∧
    blocks (s_db s') = blocks (s_db s) ∧ t_block (s_db s') = t_block (s_db s) ∧
    batches (s_db s') = <[Batch.hashOf b := newABatch (s_db s) b]> (batches (s_db s)).
Proof.
  intros Hok Hb Hnb Hseq. pose proof (so_db s Hok) as Hdb.
  unfold StoreBatch, mbind, M_bind, try, FetchBatchBySeqNo, query.
  rewrite (proj1 (u64_small _ (sb_seq b Hb))).
  rewrite (proj2 (ReadBatchBySeqNo_spec _ _ Hdb) Hseq). simpl.
  assert (∀ h r, t_batch (s_db s) !! h = Some r → bat_sequence r ≠ Batch.SeqNo b) as Hseq'.
  { intros h r Hr. destruct (do_batches _ Hdb h r Hr) as [ab Hrow].
    rewrite (tro_sequence _ _ _ _ Hrow). apply (Hseq h). apply batches_lookup; eauto. }
  assert (t_batch (s_db s) !! Batch.hashOf b = None) as Hfree.
  { destruct (t_batch (s_db s) !! Batch.hashOf b) as [r|] eqn:Hr; [|done].
    destruct (do_batches _ Hdb _ r Hr) as [ab Hrow]. pose proof (tro_hash _ _ _ _ Hrow) as Hh.
    rewrite (sb_hash b Hb) in Hh. unfold BatchHeader_Hash in Hh. apply (inj rlpHash_batch) in Hh.
    destruct (Hseq' _ r Hr). rewrite (tro_sequence _ _ _ _ Hrow).
    apply (f_equal SequencerOrderNo) in Hh. exact Hh. }
  destruct (WriteBatch_queue (s_db s) b Hb) as (header & body & rows & Hh & Hbody & Hrows & Hq).
  destruct (Write_batch (s_db s) b header body rows Hb Hfree Hseq' Hrows) as (d' & He & Hbl & Hba & Hbo & _).
  rewrite (transact_Ok _ _ _ _ s d' Hq He). simpl.
  apply blocks_None in Hnb; [|done].
  destruct (insert_batch_ok _ d' b header body Hdb Hb Hh Hbody Hnb Hfree Hseq' Hbl Hba Hbo) as (Hok' & Hbs & Hbts).
  assert (storage_ok (with_db d' s)) as Hok1.
  { apply with_db_ok; [done|by apply so_cache|by rewrite Hbs|]. intros h ab Hab. exists ab.
    rewrite Hbts, lookup_insert_ne; [done|]. intros <-.
    apply batches_lookup in Hab as (r & Hr & _); [|done]. congruence. }
  destruct (cacheBatch_ok (with_db d' s) (Batch.hashOf b) b (newABatch (s_db s) b) Hok1) as (Hr & Hok2 & Hs1 & Hs2).
  { simpl. by rewrite Hbts, lookup_insert_eq. }
  { done. }
  { done. }
  destruct (cacheBatch (Batch.hashOf b) b (with_db d' s)) as [s' r]. simpl in *. subst r.
  exists s'. rewrite Hs1. split_and!; done.
Qed.

(** Storing a block the storage does not hold. *)
Lemma StoreBlock_spec s b fork header :
  storage_ok s → rlp_encode (b_header b) = Some header → (0 ≤ h_number (b_header b) < 2 ^ 63)%Z →
  blocks (s_db s) !! Block_Hash b = None → batches (s_db s) !! Block_Hash b = None →
  (∀ cf k, fork = Some cf → k ∈ CanonicalPath cf → is_Some (blocks (s_db s) !! k)) →
  ∃ s', StoreBlock b fork s = (s', Ok tt) ∧ storage_ok s' ∧ s_tries s' = s_tries s ∧
    s_db s' = stored_block (s_db s) b fork header.
Proof.
  intros Hok Hh Hn Hbl Hba Hcp. pose proof (so_db s Hok) as Hdb.
  apply blocks_None in Hbl; [|done]. apply batches_None in Hba; [|done].
  destruct (stored_block_ok (s_db s) b fork header Hdb Hh Hn Hbl Hba) as (Hok' & Hbs & Hbts).
  { intros cf k Hf Hk. destruct (Hcp cf k Hf Hk) as [hd Hhd].
    apply blocks_lookup in Hhd as (r & Hr & _); eauto. }
  unfold StoreBlock, mbind, M_bind.
  rewrite (transact_Ok _ _ (λ _, queueBlock b fork) _ s _ (queueBlock_queue b fork header Hh)
             (StoreBlock_exec b fork header (s_db s) Hn Hbl)).
  fold (canon_store b fork). fold (stored_block (s_db s) b fork header).
  assert (storage_ok (with_db (stored_block (s_db s) b fork header) s)) as Hok1.
  { apply with_db_ok; [done|by apply so_cache|..].
    - intros h hd Hhd. rewrite Hbs, lookup_insert_ne; [done|]. intros <-.
      apply blocks_lookup in Hhd as (r & Hr & _); [|done]. congruence.
    - intros h ab Hab. rewrite Hbts, lookup_fmap, Hab. by eexists. }
  destruct (cacheBlock_ok (with_db (stored_block (s_db s) b fork header) s) (Block_Hash b) b Hok1)
    as (Hr & Hok2 & Hs1 & Hs2).
  { simpl. by rewrite Hbs, lookup_insert_eq. }
  destruct (cacheBlock (Block_Hash b) b _) as [s' r]. simpl in *. subst r. by exists s'.
Qed.

(** *** Executions *)

(** Statements that do not touch blocks, batches or bodies. *)
Definition exec_only (q : statement) : Prop :=
  match q with txExecInsert _ | insertEvent _ => True | _ => False end.

Lemma exec_only_tables qs : ∀ d d',
  Forall exec_only qs → exec_all qs d = Some d' →
  t_block d' = t_block d ∧ t_batch d' = t_batch d ∧ t_body d' = t_body d.
Proof.
  induction qs as [|q qs IH]; intros d d' Hqs; cbn [exec_all]; [by intros [= <-]|].
  apply Forall_cons in Hqs as [Hq Hqs]. intros (d1 & Hd1 & Hd')%bind_Some.
  apply IH in Hd' as (-> & -> & ->); [|done].
  destruct q; try done; cbn [exec_statement] in Hd1.
  - by apply bind_Some in Hd1 as (m & _ & [= <-]).
  - by case_match; simplify_eq.
Qed.

Lemma queueExecution_queue b receipts rows st d :
  mapR execRow receipts = Ok rows →
  ∃ qs, Forall exec_only qs ∧
    queueExecution b receipts st d dbTransaction.new =
    (dbTransaction.mk [] (updateBatchExecuted (Batch.hashOf b) :: qs) 0, Ok tt).
Proof.
  intros Hrows. unfold queueExecution, WriteBatchExecution, StoreEventLogs, when, mbind, M_bind.
  unfold wrap, lift. simpl. rewrite Hrows.
  destruct (0 <? length rows)%nat; simpl; (destruct st as [st|]; simpl;
    [destruct (0 <? length (eventRows d receipts st))%nat; simpl|]); (eexists; split; [|done]);
    repeat constructor.
Qed.

Lemma commit_execution s b receipts rows st :
  storage_ok s → mapR execRow receipts = Ok rows →
  let r := transact "could not save logs" "could not commit batch" (queueExecution b receipts st) s in
  storage_ok r.1 ∧ s_tries r.1 = s_tries s ∧ blocks (s_db r.1) = blocks (s_db s) ∧
  t_block (s_db r.1) = t_block (s_db s) ∧
  match r.2 with
  | Ok _ => batches (s_db r.1) = alter ab_set_executed (Batch.hashOf b) (batches (s_db s))
  | _ => s_db r.1 = s_db s
  end.
Proof.
  intros Hok Hrows. pose proof (so_db s Hok) as Hdb.
  destruct (queueExecution_queue b receipts rows st (s_db s) Hrows) as (qs & Hqs & Hq).
  unfold transact, mbind, M_bind, gets. simpl. rewrite Hq. simpl. unfold wrap, on_db, zoom.
  rewrite Write_statements. cbn [exec_all exec_statement mbind option_bind].
  destruct (exec_all qs _) as [d'|] eqn:He; simpl; [|by destruct s].
  apply exec_only_tables in He as (Hbl & Hba & Hbo); [|done]. simpl in Hbl, Hba, Hbo.
  destruct (mark_executed_ok (s_db s) d' (Batch.hashOf b) Hdb Hbl Hbo Hba) as (Hok' & Hbs & Hbts).
  split_and!; [|done..]. apply (with_db_ok d' s); [done|by apply so_cache|by rewrite Hbs|].
  intros h ab Hab. rewrite Hbts. destruct (decide (h = Batch.hashOf b)) as [->|Hne].
  - rewrite lookup_alter_eq, Hab. by eexists.
  - rewrite lookup_alter_ne by done. by exists ab.
Qed.

(** The execution of a batch is recorded at once or not at all. *)
Lemma StoreExecutedBatch_spec s b receipts :
  storage_ok s →
  let r := StoreExecutedBatch b receipts s in
  storage_ok r.1 ∧ s_tries r.1 = s_tries s ∧ blocks (s_db r.1) = blocks (s_db s) ∧
  t_block (s_db r.1) = t_block (s_db s) ∧
  match r.2 with
  | Ok _ => batches (s_db r.1) = alter ab_set_executed (Batch.hashOf b) (batches (s_db s))
  | _ => s_db r.1 = s_db s
  end.
Proof.
  intros Hok. pose proof (so_db s Hok) as Hdb. unfold StoreExecutedBatch, mbind, M_bind, query.
  rewrite (BatchWasExecuted_spec _ _ Hdb). simpl.
  destruct (match batches (s_db s) !! Batch.hashOf b with Some ab => _ | None => false end) eqn:Hex; simpl.
  { split_and!; [done..|]. destruct (batches (s_db s) !! Batch.hashOf b) as [ab|] eqn:Hab; [|done].
    apply andb_true_iff in Hex as [_ Hex]. symmetry. apply map_eq. intros k.
    destruct (decide (k = Batch.hashOf b)) as [->|Hne]; [|by rewrite lookup_alter_ne].
    rewrite lookup_alter_eq, Hab. simpl. destruct ab; simpl in *. by subst. }
  clear Hex. unfold wrap, lift. simpl. destruct (mapR execRow receipts) as [rows|e|c] eqn:Hrows; simpl; [|done..].
  destruct (1 <? _)%Z; [|by apply (commit_execution s b receipts rows)].
  destruct (FetchBatch_spec s (ParentHash (Batch.Header b)) Hok) as (Hok1 & [Hd1 Ht1] & _).
  unfold CreateStateDB, mbind, M_bind. destruct (FetchBatch _ s) as [s1 [pb|e|c]]; simpl in *;
    [|by rewrite ?Hd1, ?Ht1..].
  destruct (of_option _ _) as [st|e|c]; simpl; [|by rewrite ?Hd1, ?Ht1..].
  rewrite <-Hd1, <-Ht1. by apply (commit_execution s1 b receipts rows).
Qed.
End spec.
