(* ===== verification/StorageTheorems.v ===== *)
(** * What the storage promises

    Round trips of batches, the queries the node's decisions rest on, and the
    semantics of a write transaction. *)

From S2P Require Import Prelude Types Codec L1Chain EnclaveDB BatchDB Events Storage StorageInv StorageOps StorageSpec.

Section batches.
Local Open Scope Z_scope.
Context {C : Type} `{CacheOk C, StateModel, StorageCodecsOk, HashingOk}.
Implicit Types (s : Storage C).

(** A batch with a free sequence number is stored, and is read back with its
    header and transactions by its hash and by its sequence number; it is canonical
    when its L1 block is, not executed, and no other batch or block changes. *)
Theorem StoreBatch_roundtrip s b :
  storage_ok s → storable b → blocks (s_db s) !! Batch.hashOf b = None →
  (∀ h ab, batches (s_db s) !! h = Some ab → SequencerOrderNo (ab_header ab) ≠ Batch.SeqNo b) →
  ∃ s', StoreBatch b s = (s', Ok tt) ∧ storage_ok s' ∧ blocks (s_db s') = blocks (s_db s) ∧
    batches (s_db s') = <[Batch.hashOf b := mkABatch (Batch.Header b) (Batch.Transactions b)
                           (isCanonQuery (s_db s) (L1Proof (Batch.Header b))) false]> (batches (s_db s)) ∧
    (FetchBatch (Batch.hashOf b) s').2 = Ok (Batch.mk (Batch.Header b) None (Batch.Transactions b)) ∧
    (FetchBatchBySeqNo (Batch.SeqNo b) s').2 = Ok (Batch.mk (Batch.Header b) None (Batch.Transactions b)).
Proof.
  intros Hs Hb Hnb Hseq. destruct (StoreBatch_new s b Hs Hb Hnb Hseq) as (s'&Hrun&Hok&_&Hbl&_&Hba).
  exists s'. split_and!; [done..| |].
  - destruct (FetchBatch_spec s' (Batch.hashOf b) Hok) as (_&_&Hr). by rewrite Hba, lookup_insert_eq in Hr.
  - unfold FetchBatchBySeqNo, query. cbn [snd].
    rewrite (proj1 (ReadBatchBySeqNo_spec _ _ (so_db _ Hok)) (Batch.hashOf b) (newABatch (s_db s) b));
      [done|by rewrite Hba, lookup_insert_eq|done].
Qed.

(** Storing a batch whose sequence number is taken changes nothing: it succeeds
    when it is the stored batch, and ends the process when it is another one. *)
Theorem StoreBatch_conflict s b h ab :
  storage_ok s → storable b → batches (s_db s) !! h = Some ab →
  SequencerOrderNo (ab_header ab) = Batch.SeqNo b →
  StoreBatch b s = (s, if bool_decide (h = Batch.hashOf b) then Ok tt
                       else Crash "Conflicting batches for the same sequence").
Proof. intros. by eapply StoreBatch_taken. Qed.

(** The head batch is the highest of the canonical and executed batches, and it
    is not found only when there is none. *)
Theorem FetchHeadBatch_correct s :
  storage_ok s →
  (∃ h ab, (FetchHeadBatch s).2 = Ok (ab_batch ab) ∧ batches (s_db s) !! h = Some ab ∧
     ab_canonical ab = true ∧ ab_executed ab = true ∧
     ∀ h' ab', batches (s_db s) !! h' = Some ab' → ab_canonical ab' = true → ab_executed ab' = true →
       Number (ab_header ab') ≤ Number (ab_header ab)) ∨
  ((FetchHeadBatch s).2 = Err ErrNotFound ∧
   ∀ h ab, batches (s_db s) !! h = Some ab → ab_canonical ab && ab_executed ab = false).
Proof.
  intros Hs. unfold FetchHeadBatch, query. cbn [snd].
  destruct (ReadCurrentHeadBatch_cases (s_db s) (so_db s Hs)) as [(ab&([h Hh]&Hc&He&Hm)&->)|[Hn ->]]; [left|by right].
  by exists h, ab.
Qed.

(** The batches a validator has to execute are exactly the stored ones that are
    canonical and not executed, in the order of their sequence numbers. *)
Theorem FetchCanonicalUnexecutedBatches_correct s :
  storage_ok s →
  ∃ l, (FetchCanonicalUnexecutedBatches s).2 = Ok (ab_batch <$> l) ∧ StronglySorted ab_seq_le l ∧
    ∀ ab, ab ∈ l ↔ ∃ h, batches (s_db s) !! h = Some ab ∧ ab_canonical ab = true ∧ ab_executed ab = false.
Proof.
  intros Hs. pose proof (so_db s Hs) as Hd. unfold FetchCanonicalUnexecutedBatches, query, ReadUnexecutedBatches. cbn [snd].
  destruct (fetchBatches_spec (s_db s) (λ r, negb (bat_is_executed r) && bat_is_canonical r) Hd) as (l&Hl&Hsort&Hin).
  exists l. split_and!; [done..|]. intros ab. rewrite Hin. split.
  - intros (h&r&Hr&Hrow&[He Hc]%andb_true_iff). exists h. destruct (abs_flags _ _ _ _ Hrow) as [-> ->].
    split; [apply batches_lookup; [done|]; by exists r|]. by apply negb_true_iff in He.
  - intros (h&Hab&Hc&He). apply batches_lookup in Hab as (r&Hr&Hrow); [|done]. exists h, r. split_and!; [done..|].
    destruct (abs_flags _ _ _ _ Hrow) as [Hc' He']. by rewrite <-Hc', <-He', Hc, He.
Qed.

(** Recording the execution of a batch marks that batch and changes no other
    batch, block or state; when it does not succeed, nothing changes. *)
Theorem StoreExecutedBatch_correct s b receipts :
  storage_ok s →
  let r := StoreExecutedBatch b receipts s in
  storage_ok r.1 ∧ s_tries r.1 = s_tries s ∧ blocks (s_db r.1) = blocks (s_db s) ∧
  match r.2 with
  | Ok _ => batches (s_db r.1) = alter ab_set_executed (Batch.hashOf b) (batches (s_db s))
  | _ => s_db r.1 = s_db s
  end.
Proof. intros Hs. by destruct (StoreExecutedBatch_spec s b receipts Hs) as (?&?&?&_&?). Qed.
End batches.

(** ** Write transactions *)

(** A write transaction applies its puts before its deletes, whatever the order
    of the calls: a key that is deleted and then put is gone after [Write], while
    replaying the same batch leaves it in place. *)
Theorem Write_puts_before_deletes (d : DB) key value :
  let b := (dbTransaction.Put key value (dbTransaction.Delete key dbTransaction.new).1).1 in
  (dbTransaction.Write b d).2 = Ok tt ∧
  KeyValue.Get key (dbTransaction.Write b d).1 = Err ErrNotFound ∧
  KeyValue.Get key (dbTransaction.Replay KeyValue.Put KeyValue.Delete b d).1 = Ok value.
Proof.
  intros b. assert (dbTransaction.Write b d = (upd_kv (λ m, delete key (<[key := value]> m)) d, Ok tt)) as -> by done.
  assert (dbTransaction.Replay KeyValue.Put KeyValue.Delete b d =
    (upd_kv (λ m, <[key := value]> (delete key m)) d, Ok tt)) as -> by done.
  unfold KeyValue.Get, upd_kv. cbn [fst snd t_kv]. by rewrite lookup_delete_eq, lookup_insert_eq.
Qed.

(** ** The walks of the L1 chain over the storage

    The specifications of [L1Chain], discharged by the storage. *)


Section walks.
Local Open Scope Z_scope.
Context {C : Type} `{CacheOk C, StateModel, StorageCodecsOk, HashingOk}.
Implicit Types (s : Storage C).

(** C27: Above the genesis block, [LCA] terminates and finds the latest common
    ancestor of the new and the old head; the non-canonical path holds exactly the
    blocks of the old chain that are not on the new one, the canonical path those of
    the new chain below its head that are not on the old one; it fails only when
    there is no common ancestor. *)
Theorem LCA_correct fuel (new old : L1Block) s :
  let v := blocks (s_db s) in
  storage_ok s → lca_pre v (b_header new) (b_header old) →
  h_number (b_header new) + h_number (b_header old) < Z.of_nat fuel →
  match (LCA fuel new old s).2 with
  | Ok cf =>
      let ca := b_header (CommonAncestor cf) in
      ancestor v (b_header new) ca ∧ ancestor v (b_header old) ca ∧
      (∀ c, ancestor v (b_header new) c → ancestor v (b_header old) c → ancestor v ca c) ∧
      (∀ h, h ∈ NonCanonicalPath cf ↔ ∃ x, h = h_hash x ∧
            ancestor v (b_header old) x ∧ ¬ ancestor v (b_header new) x) ∧
      (∀ h, h ∈ CanonicalPath cf ↔ ∃ x, h = h_hash x ∧ x ≠ b_header new ∧
            ancestor v (b_header new) x ∧ ¬ ancestor v (b_header old) x)
  | Err _ => ∀ c, ancestor v (b_header new) c → ancestor v (b_header old) c → False
  | Crash _ => False
  end.
Proof.
  intros v Hs Hpre Hfuel. pose proof (LCA_spec (St:=Storage C) fuel new old s) as Hspec.
  destruct (Hspec Hs Hpre Hfuel) as (_&_&Hr).
  destruct ((LCA fuel new old s).2); [|done..]. by destruct Hr as (_&_&?).
Qed.

(** [IsAncestor] terminates and decides whether a stored block is an ancestor. *)
Theorem IsAncestor_correct fuel (block anc : L1Block) s :
  let v := blocks (s_db s) in
  storage_ok s → wf_view v → linked v (b_header block) → fits v (b_header block) →
  v !! Block_Hash anc = Some (b_header anc) → 0 ≤ h_number (b_header block) < Z.of_nat fuel →
  ∃ r, (IsAncestor fuel block anc s).2 = Ok r ∧ (r = true ↔ ancestor v (b_header block) (b_header anc)).
Proof.
  intros v Hs Hwf Hl Hf Ha Hn.
  pose proof (IsAncestor_spec (St:=Storage C) fuel block anc s) as Hspec.
  destruct (Hspec Hs Hwf Hl Hf Ha) as (_&_&?); [lia..|done].
Qed.

(** When the old head is at the genesis height, [LCA] reports the new head as
    the common ancestor without looking at the chain, also when the old head does not
    have it among its ancestors. *)
Theorem LCA_genesis_shortcut fuel (new old : L1Block) s :
  let v := blocks (s_db s) in
  wf_view v → v !! Block_Hash old = Some (b_header old) →
  h_number (b_header old) = L1GenesisHeight → L1GenesisHeight < h_number (b_header new) →
  (∃ cf, LCA (S fuel) new old s = (s, Ok cf) ∧ CommonAncestor cf = new ∧ NonCanonicalPath cf = []) ∧
  ¬ ancestor v (b_header old) (b_header new).
Proof.
  intros v Hwf Hst Hold Hnew. split.
  - eexists. unfold LCA, mbind, M_bind. cbn [internalLCA]. unfold Block_NumberU64.
    rewrite (bool_decide_true (h_number (b_header old) = L1GenesisHeight)), orb_true_r by done. done.
  - intros Ha. pose proof (ancestor_number v Hwf _ _ (wf_linked v Hwf _ _ Hst) Ha). lia.
Qed.
End walks.
