(* ===== verification/CrossChain.v ===== *)
(** * Cross-chain messages

    [go/enclave/crosschain]: the messages published on the message bus
    contracts, extracted from the receipts of L1 blocks
    ([block_message_extractor.go]) and of batches ([message_bus_manager.go]),
    and submitted to the L2 as synthetic transactions. *)

From S2P Require Import Prelude Types Codec L1Chain EnclaveDB BatchDB Events Storage StorageInv StorageOps StorageSpec.

(** The ABI of the message bus contract and the key that owns it: generated
    code and go-ethereum's. *)
Class MessageBus := {
  CrossChainEventID : Hash;
  UnpackEvent : bytes → option CrossChainMessage;
  PackStore : CrossChainMessage → Z → option bytes;
  MessageBusBin : bytes;
  OwnerAddress : Address;
  (** [crypto.CreateAddress(owner, 0)] *)
  l2MessageBus : Address
}.

(** [types.LegacyTx] as the manager fills it. *)
Record LegacyTx := mkLegacyTx {
  lt_nonce : Z;
  lt_gas : Z;
  lt_data : bytes;
  lt_to : option Address
}.

(** The wallet of the owner: signing gives a transaction with the nonce, whose
    sender is the owner. *)
Class OwnerWallet `{MessageBus, DBCodecs} := SignTransaction : LegacyTx → option L2Tx.
Class OwnerWalletOk `{OwnerWallet} : Prop := {
  sign_total : ∀ tx, is_Some (SignTransaction tx);
  sign_nonce : ∀ tx stx, SignTransaction tx = Some stx → tx_nonce stx = lt_nonce tx;
  sign_sender : ∀ tx stx, SignTransaction tx = Some stx → Sender stx = Some OwnerAddress
}.

(** ** Extraction of messages ([common.go]) *)

Section extraction.
Context `{MessageBus}.

(** [log.Topics[0]] is read for every log, whatever its address. *)
Fixpoint filterLogsFromReceipt (logs : list Log) (address : option Address) (topic : option Hash)
    : result (list Log) :=
  match logs with
  | [] => Ok []
  | l :: logs =>
      let skipAddress := match address with Some a => bool_decide (log_address l ≠ a) | None => false end in
      skipTopic ← match topic with
                  | None => Ok false
                  | Some t => match log_topics l with
                              | [] => Crash "index out of range"
                              | t0 :: _ => Ok (bool_decide (t0 ≠ t))
                              end
                  end;
      rest ← filterLogsFromReceipt logs address topic;
      Ok (if skipAddress || (skipTopic : bool) then rest else l :: rest)
  end.

(** [receipt.Status] is read before any check for nil. *)
Fixpoint filterLogsFromReceipts (receipts : list (option Receipt)) (address : option Address)
    (topic : option Hash) : result (list Log) :=
  match receipts with
  | [] => Ok []
  | None :: _ => Crash "nil receipt"
  | Some r :: receipts =>
      if bool_decide (r_status r = 0%Z) then filterLogsFromReceipts receipts address topic
      else ls ← filterLogsFromReceipt (r_logs r) address topic;
           rest ← filterLogsFromReceipts receipts address topic;
           Ok (ls ++ rest)
  end.

(** The consistency level of the event is not copied. *)
Definition createCrossChainMessage (event : CrossChainMessage) : CrossChainMessage :=
  mkMessage (msg_sender event) (msg_sequence event) (msg_nonce event) (msg_topic event)
    (msg_payload event) 0.

Definition convertLogsToMessages (logs : list Log) : result (list CrossChainMessage) :=
  mapR (λ l, event ← of_option (ErrMsg "abi: cannot unpack") (UnpackEvent (log_data l));
             Ok (createCrossChainMessage event)) logs.

(** [getCrossChainMessages] of the extractor and [ExtractOutboundMessages] of
    the manager differ in the bus address only. *)
Definition messagesFrom (busAddress : Address) (receipts : list (option Receipt))
    : result (list CrossChainMessage) :=
  logs ← filterLogsFromReceipts receipts (Some busAddress) (Some CrossChainEventID);
  convertLogsToMessages logs.

Definition getCrossChainMessages (busAddress : Address) (receipts : list (option Receipt))
    : result (list CrossChainMessage) :=
  if bool_decide (length receipts = 0) then Ok [] else messagesFrom busAddress receipts.

Definition ExtractOutboundMessages (receipts : list Receipt) : result (list CrossChainMessage) :=
  messagesFrom l2MessageBus (map Some receipts).

(** What a receipt publishes on the bus, when nothing goes wrong. *)
Definition published (busAddress : Address) (r : Receipt) : list Log :=
  if bool_decide (r_status r = 0%Z) then []
  else filter (λ l, log_address l = busAddress ∧ head (log_topics l) = Some CrossChainEventID) (r_logs r).

Lemma filterLogsFromReceipt_ok (logs : list Log) a t :
  Forall (λ l, log_topics l ≠ []) logs →
  filterLogsFromReceipt logs (Some a) (Some t) =
  Ok (filter (λ l, log_address l = a ∧ head (log_topics l) = Some t) logs).
Proof.
  induction logs as [|l logs IH]; intros Hall; simpl; [done|].
  apply Forall_cons in Hall as [Hl Hall]. destruct (log_topics l) as [|t0 ts] eqn:E; [done|]. simpl.
  rewrite (IH Hall). simpl. rewrite filter_cons, E. simpl.
  do 2 case_bool_decide; case_decide as Hd; simpl; try done; exfalso;
    (apply Hd; split; congruence) || (destruct Hd; congruence).
Qed.

Lemma filterLogsFromReceipts_ok (rs : list Receipt) a :
  Forall (λ r, r_status r ≠ 0%Z → Forall (λ l, log_topics l ≠ []) (r_logs r)) rs →
  filterLogsFromReceipts (map Some rs) (Some a) (Some CrossChainEventID) = Ok (flat_map (published a) rs).
Proof.
  induction rs as [|r rs IH]; intros Hall; simpl; [done|].
  apply Forall_cons in Hall as [Hr Hall]. unfold published at 1. case_bool_decide as Hst; simpl; [by apply IH|].
  rewrite (filterLogsFromReceipt_ok _ _ _ (Hr Hst)). simpl. by rewrite (IH Hall).
Qed.
End extraction.

(** ** The extractor and the manager *)

Section manager.
Context {C : Type} `{Cache C, StateModel, StorageCodecs, Hashing, MB : MessageBus}.
Context `{OW : !OwnerWallet}.
Implicit Types (s : Storage C).

(** A failure to store the messages ends the process. *)
Definition StoreCrossChainMessages (busAddress : Address) (block : L1Block)
    (receipts : list (option Receipt)) : M (Storage C) unit :=
  if bool_decide (length receipts = 0) then mret tt
  else
    messages ← lift (getCrossChainMessages busAddress receipts);
    if (0 <? length messages)%nat
    then r ← try (StoreL1Messages (Block_Hash block) messages);
         match r with
         | inl _ => mret tt
         | inr _ => crash "Unable to store the messages"
         end
    else mret tt.

Definition IsSyntheticTransaction (tx : L2Tx) : bool :=
  match Sender tx with Some sender => bool_decide (sender = OwnerAddress) | None => false end.

Definition GenerateMessageBusDeployTx : result L2Tx :=
  of_option (ErrMsg "could not sign") (SignTransaction (mkLegacyTx 0 5000000 MessageBusBin None)).

(** The loop from [toBlock] down to [fromBlock]; [logger.Crit] ends the
    process. *)
Fixpoint inboundLoop (fuel : nat) (from : Hash) (height : Z) (b : L1Block)
    (messages : list CrossChainMessage) : M (Storage C) (list CrossChainMessage) :=
  match fuel with
  | O => crash "out of fuel"
  | S fuel =>
      if bool_decide (Block_Hash b = from) then mret messages
      else
        r ← try (GetL1Messages (Block_Hash b));
        match r with
        | inr _ => crash "Reading the key for the block failed with uncommon reason."
        | inl messagesForBlock =>
            let messages := messages ++ messagesForBlock in
            if (Block_NumberU64 b <? height)%Z then crash "block height is less than genesis height"
            else
              p ← try (FetchBlock (Block_ParentHash b));
              match p with
              | inr _ => crash "the rollups are not on the same Ethereum fork"
              | inl p => inboundLoop fuel from height p messages
              end
        end
  end.

Definition RetrieveInboundMessages (fuel : nat) (fromBlock toBlock : L1Block)
    : M (Storage C) (list CrossChainMessage) :=
  isAncestor ← IsAncestor fuel toBlock fromBlock;
  if negb isAncestor then crash "the rollups are not on the same Ethereum fork"
  else inboundLoop fuel (Block_Hash fromBlock) (Block_NumberU64 fromBlock) toBlock [].

(** One transaction per message, with consecutive nonces of the owner. *)
Fixpoint syntheticTransactions (startingNonce : Z) (idx : nat) (messages : list CrossChainMessage)
    : result (list L2Tx) :=
  match messages with
  | [] => Ok []
  | message :: messages =>
      match PackStore message (msg_consistency message) with
      | None => Crash "Failed packing submitOutOfNetwork message!"
      | Some data =>
          match SignTransaction (mkLegacyTx (Int.u64 (startingNonce + Z.of_nat idx)) 5000000 data
                                   (Some l2MessageBus)) with
          | None => Crash "could not sign"
          | Some stx => rest ← syntheticTransactions startingNonce (S idx) messages; Ok (stx :: rest)
          end
      end
  end.

Definition CreateSyntheticTransactions (messages : list CrossChainMessage) (rollupState : EState)
    : result (list L2Tx) :=
  syntheticTransactions (GetNonce rollupState OwnerAddress) 0 messages.
End manager.

(** ** Correctness *)

Section correctness.
Context {C : Type} `{CacheOk C, StateModel, StorageCodecsOk, HashingOk, MB : MessageBus}.
Context `{OW : !OwnerWallet, !OwnerWalletOk}.
Implicit Types (s : Storage C).

(** The messages stored for a block, in the order they were stored. *)
Definition messagesAt (d : DB) (h : Hash) : list CrossChainMessage :=
  omap (λ row, rlp_decode row.1) (filter (λ row, row.2 = h) (t_l1msg d)).

Definition msgs_ok (d : DB) : Prop :=
  Forall (λ row, is_Some (rlp_decode (A:=CrossChainMessage) row.1)) (t_l1msg d).

Lemma FetchL1Messages_ok d h : msgs_ok d → FetchL1Messages h d = Ok (messagesAt d h).
Proof.
  unfold msgs_ok, FetchL1Messages, messagesAt. induction (t_l1msg d) as [|[m k] rows IH]; [done|].
  intros [[msg Hm] Hrows]%Forall_cons. rewrite !filter_cons. case_decide; [|by apply IH].
  simpl in *. rewrite Hm. simpl. rewrite (IH Hrows). done.
Qed.

Lemma inboundLoop_spec fuel (from : L1Header) height : ∀ (b : L1Block) l acc s,
  storage_ok s → msgs_ok (s_db s) → wf_view (blocks (s_db s)) →
  linked (blocks (s_db s)) (b_header b) → fits (blocks (s_db s)) (b_header b) →
  blocks (s_db s) !! h_hash from = Some from → (height ≤ h_number from)%Z →
  path (blocks (s_db s)) (b_header b) l from → length l < fuel →
  ∃ s', inboundLoop fuel (h_hash from) height b acc s =
        (s', Ok (acc ++ flat_map (messagesAt (s_db s)) (drop_last (Block_Hash b :: l)))) ∧
    storage_ok s' ∧ same_content s s'.
Proof.
  induction fuel as [|fuel IH]; intros b l acc s Hok Hm Hwf Hlnk Hfit Hfrom Hh Hpath Hfuel; [lia|].
  cbn [inboundLoop]. pose proof (path_number _ Hwf _ _ _ Hlnk Hpath) as Hnum.
  inversion Hpath as [a Ha|a p l' c Hp Hpath']; subst.
  { rewrite bool_decide_true by (unfold Block_Hash; congruence). exists s. by rewrite app_nil_r. }
  rewrite bool_decide_false.
  2:{ intros Heq. pose proof (fits_eq _ Hwf _ _ _ Hfrom Hfit Heq) as Heq'. rewrite Heq' in Hnum. simpl in Hnum. lia. }
  unfold mbind at 1, M_bind, try, GetL1Messages, query. rewrite (FetchL1Messages_ok _ _ Hm).
  rewrite (proj2 (Z.ltb_ge _ _)) by (unfold Block_NumberU64; simpl in Hnum; lia).
  destruct (storage_FetchBlock_spec s (Block_ParentHash b) Hok) as (Hok1 & Hsame & Hr).
  unfold FetchBlock, storage_resolver, mbind, M_bind.
  unfold parent_of in Hp. fold (Block_ParentHash b) in Hp. rewrite Hp in Hr. destruct Hr as (pb & Hr & Hpb).
  destruct (storage_FetchBlock (Block_ParentHash b) s) as [s1 r] eqn:Ef. simpl in Hr, Hok1, Hsame. subst r.
  destruct Hsame as [Hd Ht]. cbn beta iota.
  destruct (IH pb l' (acc ++ messagesAt (s_db s) (Block_Hash b)) s1 Hok1) as (s' & -> & Hok' & Hsame');
    rewrite ?Hd, ?Hpb; eauto using wf_linked, fits_stored.
  { simpl in Hfuel. lia. }
  exists s'. split_and!; [|done|by etrans; [|exact Hsame']; split]. rewrite drop_last_cons. cbn [flat_map].
  unfold Block_Hash. by rewrite <-app_assoc, Hpb.
Qed.

(** C29: The messages handed to the L2 for the L1 blocks between two blocks are
    exactly those stored for the blocks above the first, up to and including
    the second, each block once; the walk terminates whenever the first block
    is an ancestor of the second. *)
Theorem RetrieveInboundMessages_correct s (fromBlock toBlock : L1Block) l fuel :
  storage_ok s → msgs_ok (s_db s) → wf_view (blocks (s_db s)) →
  linked (blocks (s_db s)) (b_header toBlock) → fits (blocks (s_db s)) (b_header toBlock) →
  blocks (s_db s) !! Block_Hash fromBlock = Some (b_header fromBlock) →
  path (blocks (s_db s)) (b_header toBlock) l (b_header fromBlock) →
  (h_number (b_header toBlock) < Z.of_nat fuel)%Z →
  ∃ s', RetrieveInboundMessages fuel fromBlock toBlock s =
        (s', Ok (flat_map (messagesAt (s_db s)) (drop_last (Block_Hash toBlock :: l)))) ∧
    same_content s s'.
Proof.
  intros Hok Hm Hwf Hlnk Hfit Hfrom Hpath Hfuel.
  pose proof (path_number _ Hwf _ _ _ Hlnk Hpath) as Hnum. pose proof (wf_number _ Hwf _ _ Hfrom) as Hpos.
  pose proof (IsAncestor_spec (St:=Storage C) fuel toBlock fromBlock s) as Hanc.
  destruct (Hanc Hok Hwf Hlnk Hfit Hfrom Hfuel ltac:(lia)) as (Hok1 & _ & r & Hr & Hiff).
  pose proof (IsAncestor_frame same_content (λ h s, FetchBlock_same h s) fuel toBlock fromBlock s) as Hsame.
  unfold RetrieveInboundMessages, mbind, M_bind. destruct (IsAncestor _ _ _ s) as [s1 r1]. simpl in *. subst r1.
  rewrite (proj2 Hiff (path_ancestor _ _ _ _ Hpath)). simpl. destruct Hsame as [Hd Ht].
  destruct (inboundLoop_spec fuel (b_header fromBlock) (Block_NumberU64 fromBlock) toBlock l [] s1)
    as (s' & Hl & _ & Hsame'); rewrite ?Hd; try done; [lia|].
  exists s'. split; [by rewrite Hd in Hl|]. by etrans; [|exact Hsame']; split.
Qed.

Lemma syntheticTransactions_spec (messages : list CrossChainMessage) start : ∀ idx,
  (∀ m, m ∈ messages → is_Some (PackStore m (msg_consistency m))) →
  ∃ txs, syntheticTransactions start idx messages = Ok txs ∧ length txs = length messages ∧
    ∀ i tx, txs !! i = Some tx →
      tx_nonce tx = Int.u64 (start + Z.of_nat (idx + i)) ∧ IsSyntheticTransaction tx = true.
Proof.
  induction messages as [|m messages IH]; intros idx Hpack; simpl; [by exists []|].
  destruct (Hpack m) as [data ->]; [by left|].
  destruct (sign_total (mkLegacyTx (Int.u64 (start + Z.of_nat idx)) 5000000 data (Some l2MessageBus))) as [stx Hs].
  rewrite Hs. destruct (IH (S idx)) as (txs & -> & Hlen & Htxs); [intros m' ?; apply Hpack; by right|].
  simpl. exists (stx :: txs). split_and!; [done|by simpl; rewrite Hlen|].
  intros [|i] tx Htx; simplify_eq/=.
  - split; [by rewrite (sign_nonce _ _ Hs), Nat.add_0_r|].
    unfold IsSyntheticTransaction. by rewrite (sign_sender _ _ Hs), bool_decide_true.
  - destruct (Htxs i tx Htx) as [-> ?]. split; [do 2 f_equal; lia|done].
Qed.

(** Every inbound message becomes one transaction of the bus owner, with the
    owner's nonces from the state on, without gaps. *)
Theorem CreateSyntheticTransactions_nonces messages st :
  (∀ m, m ∈ messages → is_Some (PackStore m (msg_consistency m))) →
  ∃ txs, CreateSyntheticTransactions messages st = Ok txs ∧ length txs = length messages ∧
    ∀ i tx, txs !! i = Some tx →
      tx_nonce tx = Int.u64 (GetNonce st OwnerAddress + Z.of_nat i) ∧ IsSyntheticTransaction tx = true.
Proof. apply (syntheticTransactions_spec messages (GetNonce st OwnerAddress) 0). Qed.

Lemma filterLogsFromReceipt_log0 (logs : list Log) l a t :
  l ∈ logs → log_topics l = [] →
  filterLogsFromReceipt logs (Some a) (Some t) = Crash "index out of range".
Proof.
  induction logs as [|l0 logs IH]; intros Hin Ht; [by apply elem_of_nil in Hin|]. simpl.
  apply elem_of_cons in Hin as [<-|Hin]; [by rewrite Ht|].
  destruct (log_topics l0) as [|t0 ts]; simpl; [done|]. by rewrite (IH Hin Ht).
Qed.

Lemma filterLogsFromReceipt_cases (logs : list Log) a t :
  (∃ ls, filterLogsFromReceipt logs (Some a) (Some t) = Ok ls) ∨
  filterLogsFromReceipt logs (Some a) (Some t) = Crash "index out of range".
Proof.
  induction logs as [|l logs IH]; simpl; [by eauto|]. destruct (log_topics l); simpl; [by right|].
  destruct IH as [[ls ->]| ->]; simpl; eauto.
Qed.

(** A successful receipt with a log that has no topic ends the process, even
    when the log is not of the message bus. *)
Theorem log_without_topics_crashes busAddress (rs : list Receipt) r l :
  r ∈ rs → r_status r ≠ 0%Z → l ∈ r_logs r → log_topics l = [] →
  getCrossChainMessages busAddress (map Some rs) = Crash "index out of range".
Proof.
  intros Hr Hst Hl Ht. unfold getCrossChainMessages, messagesFrom.
  rewrite bool_decide_false by (rewrite length_map; destruct rs; [by apply elem_of_nil in Hr|done]).
  assert (filterLogsFromReceipts (map Some rs) (Some busAddress) (Some CrossChainEventID) =
    Crash "index out of range") as ->; [|done].
  induction rs as [|r0 rs IH]; [by apply elem_of_nil in Hr|]. simpl. case_bool_decide as Hst0.
  - apply IH. apply elem_of_cons in Hr as [<-|?]; [by destruct (Hst Hst0)|done].
  - apply elem_of_cons in Hr as [<-|Hr]; [by rewrite (filterLogsFromReceipt_log0 _ _ _ _ Hl Ht)|].
    destruct (filterLogsFromReceipt_cases (r_logs r0) busAddress CrossChainEventID) as [[ls ->]| ->]; [|done].
    simpl. by rewrite (IH Hr).
Qed.

(** When every log of the successful receipts has a topic, the messages
    extracted are those of the logs published on the bus, in order. *)
Theorem getCrossChainMessages_correct busAddress (rs : list Receipt) :
  Forall (λ r, r_status r ≠ 0%Z → Forall (λ l, log_topics l ≠ []) (r_logs r)) rs →
  getCrossChainMessages busAddress (map Some rs) =
  convertLogsToMessages (flat_map (published busAddress) rs).
Proof.
  intros Hall. unfold getCrossChainMessages, messagesFrom.
  rewrite (filterLogsFromReceipts_ok rs busAddress Hall).
  by destruct rs.
Qed.
End correctness.
