(* ===== verification/BlockProcessor.v ===== *)
(** * Ingesting L1 blocks

    [l1BlockProcessor] of [go/enclave/components/block_processor.go]: a block is
    stored when it shares an ancestor with the current head, and becomes the
    new head; the canonical flags of the stored blocks follow it. *)

From S2P Require Import Prelude Types Codec L1Chain EnclaveDB BatchDB Events Storage StorageInv StorageOps StorageSpec CrossChain.

(** ** The component *)

Section processor.
Context {C : Type} `{Cache C, StateModel, StorageCodecs, Hashing, MB : MessageBus}.

Definition ingestBlock (fuel : nat) (block : L1Block) : M (Storage C) BlockIngestionType :=
  head ← try storage_FetchHeadBlock;
  match head with
  | inr e =>
      if errors_Is e ErrNotFound then mret (mkIngestion true None)
      else fail (ErrWrap "could not retrieve head block" e)
  | inl prevL1Head =>
      if bool_decide (Block_ParentHash block ≠ Block_Hash prevL1Head)
      then
        chainFork ← try (LCA fuel block prevL1Head);
        match chainFork with
        | inr _ => fail ErrBlockAncestorNotFound
        | inl chainFork => mret (mkIngestion false (Some chainFork))
        end
      else mret (mkIngestion false None)
  end.

Definition tryAndInsertBlock (fuel : nat) (block : L1Block) : M (Storage C) BlockIngestionType :=
  existing ← try (FetchBlock (Block_Hash block));
  match existing with
  | inl _ => fail ErrBlockAlreadyProcessed
  | inr e =>
      if negb (errors_Is e ErrNotFound) then fail (ErrWrap "could not retrieve block" e)
      else
        ingestionType ← ingestBlock fuel block;
        _ ← wrap "1. could not store block" (StoreBlock block (ingestion_fork ingestionType));
        mret ingestionType
  end.

(** The messages are stored after the block: a failure leaves the block behind. *)
Definition Process (fuel : nat) (busAddress : Address) (br : BlockAndReceipts.t)
    : M (Storage C) BlockIngestionType :=
  ingestion ← tryAndInsertBlock fuel (BlockAndReceipts.Block br);
  if PreGenesis ingestion then mret ingestion
  else
    r ← try (StoreCrossChainMessages busAddress (BlockAndReceipts.Block br) (BlockAndReceipts.Receipts br));
    match r with
    | inr _ => fail (ErrMsg "failed to process cross chain messages")
    | inl _ => mret ingestion
    end.

Definition GetHead : M (Storage C) L1Block := storage_FetchHeadBlock.
End processor.

(** ** The canonical chain *)

Section chain.
Local Open Scope Z_scope.
Context `{DBCodecs, Hashing}.
Implicit Types (d : DB) (v : gmap Hash L1Header).

(** The stored blocks form a tree, and the canonical ones are exactly the
    ancestors of the head, which is a leaf. *)
Record chain_ok d (head : L1Header) : Prop := {
  co_wf : wf_view (blocks d);
  co_head : blocks d !! h_hash head = Some head;
  co_root : ∃ root, ∀ h a, blocks d !! h = Some a → ancestor (blocks d) a root;
  co_leaf : ∀ h a, blocks d !! h = Some a → h_parent a ≠ h_hash head;
  co_canon : ∀ h r a, t_block d !! h = Some r → blocks d !! h = Some a →
    blk_is_canonical r = true ↔ ancestor (blocks d) head a
}.

(** Before the first block, and after. *)
Definition chain d : Prop := blocks d = ∅ ∨ ∃ head, chain_ok d head.

(** The L1 block that may come next: it is not stored, its height is one above
    its parent's and one below its children's, and only a child of the L1
    genesis may follow it. *)
Record valid_next v (head new : L1Header) : Prop := {
  vn_fresh : v !! h_hash new = None;
  vn_linked : linked v new;
  vn_children : ∀ h a, v !! h = Some a → h_parent a = h_hash new → h_number a = h_number new + 1;
  vn_range : 0 < h_number new < 2 ^ 63;
  vn_genesis : h_number head = 0 → h_parent new = h_hash head
}.

(** *** Adding a block to a store *)

Section extend.
Context v (new : L1Header).
Hypothesis Hfresh : v !! h_hash new = None.
Hypothesis Hnochild : ∀ h a, v !! h = Some a → h_parent a ≠ h_hash new.
Hypothesis Hnoself : h_parent new ≠ h_hash new.

Lemma extend_parent a p :
  h_parent a ≠ h_hash new → parent_of (<[h_hash new := new]> v) a p ↔ parent_of v a p.
Proof. intros Hne. unfold parent_of. by rewrite lookup_insert_ne. Qed.

Lemma extend_ancestor a x :
  h_parent a ≠ h_hash new → ancestor (<[h_hash new := new]> v) a x ↔ ancestor v a x.
Proof.
  intros Hne. split.
  - intros Hax. induction Hax as [|a p x Hp Hpx IH]; [by apply ancestor_refl|].
    apply extend_parent in Hp; [|done]. eapply rtc_l; [exact Hp|]. apply IH. by eapply Hnochild.
  - intros Hax. induction Hax as [|a p x Hp Hpx IH]; [by apply ancestor_refl|].
    eapply rtc_l; [by apply extend_parent|]. apply IH. by eapply Hnochild.
Qed.

Lemma extend_wf : wf_view v → linked v new → 0 < h_number new → wf_view (<[h_hash new := new]> v).
Proof.
  intros Hwf Hlnk Hpos. split.
  - intros h a. rewrite lookup_insert_Some. intros [[<- <-]|[_ Ha]]; [done|]. by apply (wf_hash v Hwf).
  - intros h a. rewrite lookup_insert_Some. intros [[<- <-]|[_ Ha]] p Hp.
    + apply extend_parent in Hp; [|done]. by apply Hlnk.
    + apply extend_parent in Hp; [|by eapply Hnochild]. by eapply (wf_linked v Hwf).
  - intros h a. rewrite lookup_insert_Some. intros [[<- <-]|[_ Ha]]; [lia|]. by eapply (wf_number v Hwf).
  - intros h a h' a'. rewrite !lookup_insert_Some.
    intros [[<- <-]|[_ Ha]] [[<- <-]|[_ Ha']]; [done|lia|lia|]. by eapply (wf_genesis v Hwf).
Qed.
End extend.

(** A block that has an ancestor in a rooted store is no stored block's parent. *)
Lemma no_child v new root c :
  wf_view v → v !! h_hash new = None → linked v new →
  (∀ h a, v !! h = Some a → h_parent a = h_hash new → h_number a = h_number new + 1) →
  (∀ h a, v !! h = Some a → ancestor v a root) →
  (∃ h, v !! h = Some c) → ancestor v new c →
  ∀ h a, v !! h = Some a → h_parent a ≠ h_hash new.
Proof.
  intros Hwf Hfresh Hlnk Hch Hroot [hc Hc] Hnc h a Ha Heq. pose proof (Hch h a Ha Heq) as Hnum.
  assert (a = root) as ->.
  { destruct (ancestor_inv _ _ _ (Hroot h a Ha)) as [|(p & Hp & _)]; [done|].
    unfold parent_of in Hp. rewrite Heq in Hp. congruence. }
  pose proof (ancestor_number v Hwf _ _ (wf_linked v Hwf _ _ Hc) (Hroot hc c Hc)).
  pose proof (ancestor_number v Hwf _ _ Hlnk Hnc). lia.
Qed.

(** The new head after a block is stored whose flags say what they should. *)
Lemma chain_extend d d' head new :
  chain_ok d head → valid_next (blocks d) head new →
  blocks d' = <[h_hash new := new]> (blocks d) →
  (∃ c, (∃ h, blocks d !! h = Some c) ∧ ancestor (blocks d) new c) →
  (∀ h r', t_block d' !! h = Some r' → h ≠ h_hash new → ∀ a, blocks d !! h = Some a →
     blk_is_canonical r' = true ↔ ancestor (blocks d) new a) →
  (∀ r', t_block d' !! h_hash new = Some r' → blk_is_canonical r' = true) →
  chain_ok d' new.
Proof.
  intros Hchain Hnext Hbl (c & Hc & Hnc) Hflags Hnewflag.
  destruct (co_root d head Hchain) as [root Hroot]. pose proof (co_wf d head Hchain) as Hwf.
  destruct Hnext as [Hfresh Hlnk Hch Hrange _].
  pose proof (no_child _ new root c Hwf Hfresh Hlnk Hch Hroot Hc Hnc) as Hnochild.
  assert (∃ p, blocks d !! h_parent new = Some p ∧ ancestor (blocks d) p root) as (p & Hp & Hproot).
  { destruct Hc as [hc Hc]. destruct (ancestor_inv _ _ _ Hnc) as [->|(p & Hp & _)].
    - pose proof (wf_hash _ Hwf _ _ Hc). congruence.
    - exists p. split; [done|]. by eapply Hroot. }
  assert (h_parent new ≠ h_hash new) as Hnoself by congruence.
  split; rewrite ?Hbl.
  - apply extend_wf; [done..|lia].
  - by rewrite lookup_insert_eq.
  - exists root. intros h a. rewrite lookup_insert_Some. intros [[<- <-]|[_ Ha]].
    + apply extend_ancestor; [done..|]. by eapply rtc_l.
    + apply extend_ancestor; [done..|by eapply Hnochild|by eapply Hroot].
  - intros h a. rewrite lookup_insert_Some. intros [[<- <-]|[_ Ha]]; [done|by eapply Hnochild].
  - intros h r a Hr. rewrite lookup_insert_Some, extend_ancestor by done. intros [[<- <-]|[Hne Ha]].
    + rewrite (Hnewflag r Hr). split; [|done]. intros _. apply ancestor_refl.
    + by apply (Hflags h r).
Qed.
End chain.

(** ** Correctness *)

Section correctness.
Local Open Scope Z_scope.
Context {C : Type} `{CacheOk C, StateModel, StorageCodecsOk, HashingOk, MB : MessageBus}.
Implicit Types (s : Storage C) (d : DB).

(** The head query returns the head of the chain. *)
Lemma FetchHeadBlock_chain d head :
  db_ok d → chain_ok d head → FetchHeadBlock d = Ok (NewBlockWithHeader head).
Proof.
  intros Hok Hchain. unfold FetchHeadBlock, fetchBlock.
  pose proof (co_wf d head Hchain) as Hwf. pose proof (co_head d head Hchain) as Hhead.
  pose proof (proj1 (blocks_lookup d _ _ Hok) Hhead) as (r & Hr & Hrow).
  assert (∀ h r' , t_block d !! h = Some r' → blk_is_canonical r' = true →
    ∃ a, blocks d !! h = Some a ∧ blk_height r' = h_number a ∧ ancestor (blocks d) head a) as Hcan.
  { intros h r' Hr' Hc. destruct (do_blocks d Hok h r' Hr') as [a Ha]. exists a.
    assert (blocks d !! h = Some a) as Hba by (apply blocks_lookup; eauto).
    split_and!; [done|by eapply bro_height|]. by apply (co_canon d head Hchain h r'). }
  assert (linked (blocks d) head) as Hlnk by (by eapply wf_linked).
  assert (blk_is_canonical r = true) as Hrc.
  { apply (co_canon d head Hchain _ _ _ Hr Hhead). apply ancestor_refl. }
  assert (sql_max blk_is_canonical blk_height (t_block d) = Some (blk_height r)) as ->.
  { apply sql_max_Some. split; [by eauto|]. intros h r' Hr' Hc.
    destruct (Hcan h r' Hr' Hc) as (a & Ha & -> & Hanc). rewrite (bro_height _ _ _ Hrow).
    by apply (ancestor_number _ Hwf). }
  rewrite (fetchBlockHeader_row d _ r head _ Hok Hr Hrow); [done|by rewrite Hrc, bool_decide_true|].
  intros h' r' Hr' [Hc Hh]%andb_true_iff. apply bool_decide_eq_true in Hh. injection Hh as Hh.
  destruct (Hcan h' r' Hr' Hc) as (a & Ha & Hn & Hanc). rewrite (bro_height _ _ _ Hrow) in Hh.
  assert (a = head) as -> by (apply (ancestor_number_eq _ Hwf _ _ Hlnk Hanc); congruence).
  pose proof (wf_hash _ Hwf _ _ Ha). congruence.
Qed.

Lemma FetchHeadBlock_empty d : db_ok d → blocks d = ∅ → FetchHeadBlock d = Err ErrNotFound.
Proof.
  intros Hok He. unfold FetchHeadBlock, fetchBlock, fetchBlockHeader.
  rewrite (proj2 (sql_row_None _ _)); [done|]. intros h r Hr.
  assert (t_block d !! h = None) by (apply blocks_None; [done|by rewrite He]). congruence.
Qed.

Lemma valid_next_lca v head new :
  wf_view v → v !! h_hash head = Some head → valid_next v head new → h_parent new ≠ h_hash head →
  lca_pre v new head.
Proof.
  intros Hwf Hhead [Hfresh Hlnk Hch Hrange Hgen] Hne. split; try done; [by left|lia|].
  intros [Hz|Hz]; [lia|]. by destruct (Hne (Hgen Hz)).
Qed.

(** A block that is not a child of the head is not below it either: the head has
    no stored children. *)
Lemma head_not_below d head new :
  chain_ok d head → valid_next (blocks d) head new → h_parent new ≠ h_hash head →
  ¬ ancestor (blocks d) new head.
Proof.
  intros Hchain Hnext Hne Hnh. pose proof (co_wf d head Hchain) as Hwf.
  destruct (rtc_inv_r _ _ Hnh) as [->|(y & Hny & Hy)].
  { pose proof (co_head _ _ Hchain). pose proof (vn_fresh _ _ _ Hnext). congruence. }
  unfold parent_of in Hy. pose proof (wf_hash _ Hwf _ _ Hy) as Hyp.
  destruct (ancestor_inv _ _ _ Hny) as [->|(p & Hp & Hpy)]; [congruence|].
  pose proof (ancestor_stored _ Hwf _ _ _ Hp Hpy) as Hst.
  by destruct (co_leaf _ _ Hchain _ _ Hst).
Qed.

(** The flags a fork sets are those of the chain of the new block. *)
Lemma fork_flags d head new cf :
  chain_ok d head → valid_next (blocks d) head new → h_parent new ≠ h_hash head →
  (∀ h, h ∈ NonCanonicalPath cf ↔ ∃ x, h = h_hash x ∧ ancestor (blocks d) head x ∧ ¬ ancestor (blocks d) new x) →
  (∀ h, h ∈ CanonicalPath cf ↔ ∃ x, h = h_hash x ∧ x ≠ new ∧ ancestor (blocks d) new x ∧
     ¬ ancestor (blocks d) head x) →
  ∀ h r a, t_block d !! h = Some r → blocks d !! h = Some a →
    canon_fork (Some cf) h (blk_is_canonical r) = true ↔ ancestor (blocks d) new a.
Proof.
  intros Hchain Hnext Hne Hncp Hcp h r a Hr Ha. pose proof (co_wf d head Hchain) as Hwf.
  pose proof (co_canon d head Hchain h r a Hr Ha) as Hcan. pose proof (wf_hash _ Hwf _ _ Ha) as Hha.
  assert (∀ x, h = h_hash x → ancestor (blocks d) head x ∨ (x ≠ new ∧ ancestor (blocks d) new x) → x = a) as Hsame.
  { intros x Hx Hor. assert (blocks d !! h_hash x = Some x); [|congruence].
    destruct Hor as [Hx'|[Hxn Hx']].
    - by eapply ancestor_stored, Hx'; eauto using co_head.
    - destruct (ancestor_inv _ _ _ Hx') as [->|(p & Hp & Hpx)]; [done|].
      by eapply ancestor_stored, Hpx. }
  assert (a ≠ new) as Han.
  { intros ->. rewrite <-Hha, (vn_fresh _ _ _ Hnext) in Ha. done. }
  unfold canon_fork, canon_set. destruct (ChainFork_IsFork cf) eqn:Hf.
  - case_bool_decide as Hin1; [|case_bool_decide as Hin2].
    + apply Hcp in Hin1 as (x & Hx & Hxn & Hnx & _). rewrite <-(Hsame x Hx (or_intror (conj Hxn Hnx))). done.
    + apply Hncp in Hin2 as (x & Hx & Hhx & Hnx). rewrite <-(Hsame x Hx (or_introl Hhx)). done.
    + rewrite Hcan. split; intros Hanc.
      * destruct (ancestor_dec _ Hwf new a (vn_linked _ _ _ Hnext)) as [|Hno]; [done|].
        destruct Hin2. apply Hncp. by exists a.
      * destruct (ancestor_dec _ Hwf head a (wf_linked _ Hwf _ _ (co_head _ _ Hchain))) as [|Hno]; [done|].
        destruct Hin1. apply Hcp. by exists a.
  - destruct (ancestor_dec _ Hwf new head (vn_linked _ _ _ Hnext)) as [Hnh|Hno].
    + by destruct (head_not_below d head new Hchain Hnext Hne).
    + assert (h_hash head ∈ NonCanonicalPath cf) as Hin.
      { apply Hncp. exists head. split_and!; [done|apply ancestor_refl|done]. }
      unfold ChainFork_IsFork in Hf. apply Nat.ltb_ge in Hf.
      destruct (NonCanonicalPath cf); [by apply elem_of_nil in Hin|simpl in Hf; lia].
Qed.

(** What storing a block does to the chain, given the flags the fork sets. *)
Lemma StoreBlock_chain s head b fork header :
  storage_ok s → chain_ok (s_db s) head → valid_next (blocks (s_db s)) head (b_header b) →
  rlp_encode (b_header b) = Some header → batches (s_db s) !! Block_Hash b = None →
  (∀ cf k, fork = Some cf → k ∈ CanonicalPath cf → is_Some (blocks (s_db s) !! k)) →
  (∃ c, (∃ h, blocks (s_db s) !! h = Some c) ∧ ancestor (blocks (s_db s)) (b_header b) c) →
  (∀ h r a, t_block (s_db s) !! h = Some r → blocks (s_db s) !! h = Some a →
     canon_fork fork h (blk_is_canonical r) = true ↔ ancestor (blocks (s_db s)) (b_header b) a) →
  ∃ s', StoreBlock b fork s = (s', Ok tt) ∧ storage_ok s' ∧ chain_ok (s_db s') (b_header b).
Proof.
  intros Hok Hchain Hnext Hh Hnb Hcp Hc Hflags. pose proof (so_db s Hok) as Hdb.
  pose proof (vn_range _ _ _ Hnext) as Hrange. pose proof (vn_fresh _ _ _ Hnext) as Hfresh.
  assert (0 ≤ h_number (b_header b) < 2 ^ 63) as Hn by lia.
  destruct (StoreBlock_spec s b fork header Hok Hh Hn Hfresh Hnb Hcp) as (s' & -> & Hok' & _ & Hd').
  exists s'. split_and!; [done..|]. rewrite Hd'.
  destruct (stored_block_ok (s_db s) b fork header Hdb Hh Hn) as (_ & Hbl & _).
  { by apply blocks_None. }
  { by apply batches_None. }
  { intros cf k Hf Hk. destruct (Hcp cf k Hf Hk) as [a (r & Hr & _)%blocks_lookup]; eauto. }
  apply (chain_extend (s_db s) _ head (b_header b) Hchain Hnext Hbl Hc).
  - intros h r'. simpl. unfold Block_Hash. intros Hr' Hne a Ha.
    rewrite lookup_insert_ne, lookup_fmap_Some in Hr' by done. destruct Hr' as (r & <- & Hr).
    rewrite <-(Hflags h r a Hr Ha). simpl. destruct (do_blocks _ Hdb h r Hr) as [a' Hrow].
    rewrite (bro_key _ _ _ Hrow). unfold canon_store, canon_set at 1, Block_Hash.
    by rewrite bool_decide_false by by rewrite list_elem_of_singleton.
  - intros r'. simpl. unfold Block_Hash. rewrite lookup_insert_eq. by intros [= <-].
Qed.

Lemma tryAndInsertBlock_fetch fuel s b :
  storage_ok s → blocks (s_db s) !! Block_Hash b = None → batches (s_db s) !! Block_Hash b = None →
  ∃ s1, storage_ok s1 ∧ same_content s s1 ∧
    tryAndInsertBlock fuel b s =
    (ingestionType ← ingestBlock fuel b;
     _ ← wrap "1. could not store block" (StoreBlock b (ingestion_fork ingestionType));
     mret ingestionType) s1.
Proof.
  intros Hok Hbl Hba. destruct (storage_FetchBlock_spec s (Block_Hash b) Hok) as (Hok1 & Hsame & Hr).
  rewrite Hbl in Hr. destruct Hr as (e & Hr & He). specialize (He Hba) as ->.
  unfold tryAndInsertBlock, try, mbind at 1, M_bind, FetchBlock, storage_resolver.
  destruct (storage_FetchBlock (Block_Hash b) s) as [s1 r]. simpl in *. subst r. by exists s1.
Qed.

(** The outcome of inserting a block that is not stored yet. *)
Lemma insert_outcome s head b header fuel :
  storage_ok s → chain_ok (s_db s) head → valid_next (blocks (s_db s)) head (b_header b) →
  rlp_encode (b_header b) = Some header → batches (s_db s) !! Block_Hash b = None →
  h_number (b_header b) + h_number head < Z.of_nat fuel →
  let v := blocks (s_db s) in
  match tryAndInsertBlock fuel b s with
  | (s', Ok ingestion) =>
      (∃ c, ancestor v (b_header b) c ∧ ancestor v head c) ∧ storage_ok s' ∧
      chain_ok (s_db s') (b_header b) ∧ (GetHead s').2 = Ok (NewBlockWithHeader (b_header b)) ∧
      PreGenesis ingestion = false
  | (s', Err e) =>
      (∀ c, ancestor v (b_header b) c → ancestor v head c → False) ∧
      e = ErrBlockAncestorNotFound ∧ storage_ok s' ∧ same_content s s'
  | (_, Crash _) => False
  end.
Proof.
  intros Hok Hchain Hnext Hh Hnb Hfuel v.
  destruct (tryAndInsertBlock_fetch fuel s b Hok (vn_fresh _ _ _ Hnext) Hnb) as (s1 & Hok1 & [Hd1 Ht1] & ->).
  subst v. rewrite <-Hd1 in *. clear Hok. pose proof (so_db s1 Hok1) as Hdb.
  pose proof (co_wf _ _ Hchain) as Hwf. pose proof (co_head _ _ Hchain) as Hhead.
  unfold ingestBlock, storage_FetchHeadBlock, query, try, mbind, M_bind. cbv beta.
  rewrite (FetchHeadBlock_chain _ _ Hdb Hchain). simpl. unfold Block_ParentHash, Block_Hash at 1. simpl.
  case_bool_decide as Hpar; simpl.
  - pose proof (LCA_spec (St:=Storage C) fuel b (NewBlockWithHeader head) s1) as Hlca.
    destruct (Hlca Hok1 (valid_next_lca _ _ _ Hwf Hhead Hnext Hpar) Hfuel) as (Hok2 & _ & Hpost).
    pose proof (LCA_frame same_content (λ h s, FetchBlock_same h s) fuel b (NewBlockWithHeader head) s1) as [Hd2 Ht2].
    unfold try, mbind, M_bind. destruct (LCA fuel b (NewBlockWithHeader head) s1) as [s2 [cf|e|c]]; simpl in *; [|by split_and!; [..|split; congruence]|done].
    destruct Hpost as (_ & _ & Hnc & Hhc & _ & Hncp & Hcp). rewrite <-Hd2 in *.
    destruct (StoreBlock_chain s2 head b (Some cf) header Hok2 Hchain Hnext Hh Hnb) as (s' & Hst & Hok' & Hchain').
    + intros cf' k [= <-] (x & -> & Hxn & Hnx & _)%Hcp.
      destruct (ancestor_inv _ _ _ Hnx) as [Heq|(p & Hp & Hpx)]; [congruence|].
      rewrite (ancestor_stored _ Hwf _ _ _ Hp Hpx). eauto.
    + exists (b_header (CommonAncestor cf)). split; [|done]. by eexists; eapply ancestor_stored.
    + by apply (fork_flags (s_db s2) head (b_header b) cf).
    + unfold wrap. rewrite Hst. simpl. split_and!; [by eauto|done..| |done]. unfold GetHead, storage_FetchHeadBlock, query. simpl.
      apply FetchHeadBlock_chain; [by apply so_db|done].
  - destruct (StoreBlock_chain s1 head b None header Hok1 Hchain Hnext Hh Hnb) as (s' & Hst & Hok' & Hchain').
    + done.
    + exists head. split; [by eauto|]. apply ancestor_once. unfold parent_of. by rewrite Hpar.
    + intros h r a Hr Ha. simpl. rewrite (co_canon _ _ Hchain h r a Hr Ha). split.
      * intros Hha. eapply rtc_l; [|exact Hha]. unfold parent_of. by rewrite Hpar.
      * intros [Heq|(p & Hp & Hpa)]%ancestor_inv.
        -- pose proof (wf_hash _ Hwf _ _ Ha). pose proof (vn_fresh _ _ _ Hnext). congruence.
        -- unfold parent_of in Hp. rewrite Hpar, Hhead in Hp. by injection Hp as ->.
    + unfold wrap. rewrite Hst. simpl. split_and!; [|done..| |done].
      * exists head. split; [|apply ancestor_refl]. apply ancestor_once. unfold parent_of. by rewrite Hpar.
      * unfold GetHead, storage_FetchHeadBlock, query. simpl. apply FetchHeadBlock_chain; [by apply so_db|done].
Qed.

(** C16: a block that is not stored yet, with a height one above that of its parent and one
    below that of its children, is accepted exactly when it has a stored ancestor in common
    with the head. It then becomes the head, and the blocks flagged canonical are again
    exactly the ancestors of the head; a block that is refused changes nothing. The walk
    terminates. While the head is the genesis block of L1 this holds for its children only:
    other blocks are accepted there without the walk ([LCA_genesis_shortcut]). *)
Theorem tryAndInsertBlock_correct s head b header fuel :
  storage_ok s → chain_ok (s_db s) head → valid_next (blocks (s_db s)) head (b_header b) →
  rlp_encode (b_header b) = Some header → batches (s_db s) !! Block_Hash b = None →
  h_number (b_header b) + h_number head < Z.of_nat fuel →
  let v := blocks (s_db s) in
  match tryAndInsertBlock fuel b s with
  | (s', Ok ingestion) =>
      (∃ c, ancestor v (b_header b) c ∧ ancestor v head c) ∧ storage_ok s' ∧
      chain_ok (s_db s') (b_header b) ∧ (GetHead s').2 = Ok (NewBlockWithHeader (b_header b)) ∧
      PreGenesis ingestion = false
  | (s', Err e) =>
      (∀ c, ancestor v (b_header b) c → ancestor v head c → False) ∧
      e = ErrBlockAncestorNotFound ∧ storage_ok s' ∧ same_content s s'
  | (_, Crash _) => False
  end.
Proof. apply insert_outcome. Qed.

(** A block that is stored is refused and nothing changes. *)
Theorem tryAndInsertBlock_duplicate s b fuel hd :
  storage_ok s → blocks (s_db s) !! Block_Hash b = Some hd →
  ∃ s', tryAndInsertBlock fuel b s = (s', Err ErrBlockAlreadyProcessed) ∧ same_content s s'.
Proof.
  intros Hok Hb. destruct (storage_FetchBlock_spec s (Block_Hash b) Hok) as (Hok1 & Hsame & Hr).
  rewrite Hb in Hr. destruct Hr as (b' & Hr & _).
  unfold tryAndInsertBlock, try, mbind, M_bind, FetchBlock, storage_resolver.
  destruct (storage_FetchBlock (Block_Hash b) s) as [s1 r]. simpl in *. subst r. by exists s1.
Qed.

(** The first block is accepted whatever it is, as the root of the chain. *)
Lemma tryAndInsertBlock_first s b header fuel :
  storage_ok s → blocks (s_db s) = ∅ → rlp_encode (b_header b) = Some header →
  0 ≤ h_number (b_header b) < 2 ^ 63 → h_parent (b_header b) ≠ h_hash (b_header b) →
  batches (s_db s) !! Block_Hash b = None →
  ∃ s', tryAndInsertBlock fuel b s = (s', Ok (mkIngestion true None)) ∧
    storage_ok s' ∧ chain_ok (s_db s') (b_header b).
Proof.
  intros Hok He Hh Hn Hself Hnb.
  destruct (tryAndInsertBlock_fetch fuel s b Hok ltac:(by rewrite He) Hnb) as (s1 & Hok1 & [Hd1 _] & ->).
  rewrite <-Hd1 in *. pose proof (so_db s1 Hok1) as Hdb.
  unfold ingestBlock, storage_FetchHeadBlock, query, try, mbind, M_bind. cbv beta.
  rewrite (FetchHeadBlock_empty _ Hdb He). simpl.
  destruct (StoreBlock_spec s1 b None header Hok1 Hh Hn ltac:(by rewrite He) Hnb) as (s' & Hst & Hok' & _ & Hd'); [done|].
  unfold wrap. rewrite Hst. simpl. exists s'. split_and!; [done..|]. rewrite Hd'.
  destruct (stored_block_ok (s_db s1) b None header Hdb Hh Hn) as (_ & Hbl & _); [| |done|].
  { apply blocks_None; [done|by rewrite He]. }
  { by apply batches_None. }
  rewrite He, insert_empty in Hbl. fold (Block_Hash b) in Hself.
  assert (∀ h a, blocks (stored_block (s_db s1) b None header) !! h = Some a → h = Block_Hash b ∧ a = b_header b) as Hone.
  { intros h a. rewrite Hbl, lookup_singleton_Some. by intros [<- <-]. }
  assert (∀ p, ¬ parent_of (blocks (stored_block (s_db s1) b None header)) (b_header b) p) as Hnop.
  { intros p Hp. by apply Hone in Hp as [? _]. }
  split.
  - split.
    + by intros h a [-> ->]%Hone.
    + by intros h a [-> ->]%Hone p ?%Hnop.
    + intros h a [-> ->]%Hone. lia.
    + by intros h a h' a' [_ ->]%Hone [_ ->]%Hone.
  - by rewrite Hbl, lookup_singleton_eq.
  - exists (b_header b). intros h a [_ ->]%Hone. apply ancestor_refl.
  - intros h a [_ ->]%Hone. done.
  - intros h r a Hr [-> ->]%Hone. simpl in Hr. rewrite lookup_insert_eq in Hr. simplify_eq/=.
    split; [|done]. intros _. apply ancestor_refl.
Qed.

(** *** Messages *)

(** Storing messages touches no other table. *)
Lemma upd_l1msg_db_ok f d : db_ok d → db_ok (upd_l1msg f d).
Proof.
  intros [Ho1 Ho2 Ho3 Ho4 Ho5]. split; [exact Ho1| |exact Ho3|exact Ho4|exact Ho5].
  intros h r Hr. destruct (Ho2 h r Hr) as [ab Hrow]. exists ab. by destruct Hrow; split.
Qed.

Lemma StoreCrossChainMessages_frame bus b rs s :
  ∃ f, s_db (StoreCrossChainMessages bus b rs s).1 = upd_l1msg f (s_db s) ∧
    s_cache (StoreCrossChainMessages bus b rs s).1 = s_cache s.
Proof.
  assert (∃ f, s_db s = upd_l1msg f (s_db s)) as [f0 Hf0] by (by exists id; destruct (s_db s)).
  unfold StoreCrossChainMessages. case_bool_decide; [by exists f0|].
  unfold mbind, M_bind, lift. destruct (getCrossChainMessages bus rs) as [ms|e|c]; simpl; [|by exists f0..].
  destruct (0 <? length ms)%nat; [|by exists f0].
  unfold try, StoreL1Messages, on_db, zoom, WriteL1Messages, mbind, M_bind, lift. simpl.
  destruct (mapR _ ms) as [rows|e|c]; simpl; [|by exists f0..].
  unfold when, db_Exec. destruct (0 <? length ms)%nat; simpl; [|by exists f0].
  destruct (forallb _ rows); simpl; [by eexists | by exists f0].
Qed.

Lemma upd_l1msg_ok f s c :
  storage_ok s → storage_ok (mkStorage C _ (upd_l1msg f (s_db s)) (s_cache s) c).
Proof.
  intros [Hdb Hc]. split; [by apply upd_l1msg_db_ok|exact Hc].
Qed.

Lemma upd_l1msg_chain f d head : chain_ok d head → chain_ok (upd_l1msg f d) head.
Proof. intros [Ho1 Ho2 Ho3 Ho4 Ho5]. by split. Qed.

(** *** The storage over time *)

(** A block the enclave may be given: it can be stored, its hash is not that of
    a batch, and it is stored already, the first, or a valid successor. *)
Definition valid_block s (b : L1Block) : Prop :=
  is_Some (rlp_encode (b_header b)) ∧ batches (s_db s) !! Block_Hash b = None ∧
  (blocks (s_db s) !! Block_Hash b = None →
     (blocks (s_db s) = ∅ ∧ 0 ≤ h_number (b_header b) < 2 ^ 63 ∧
      h_parent (b_header b) ≠ h_hash (b_header b)) ∨
     (∃ head, chain_ok (s_db s) head ∧ valid_next (blocks (s_db s)) head (b_header b))).

(** A fuel above twice every height in play. *)
Definition enough_fuel s (b : L1Block) (fuel : nat) : Prop :=
  ∀ h a, blocks (s_db s) !! h = Some a → h_number (b_header b) + h_number a < Z.of_nat fuel.

(** The writes to the storage: processing an L1 block, storing a batch, and
    recording an execution. *)
Inductive storage_step : relation (Storage C) :=
  | step_block s br bus fuel :
      valid_block s (BlockAndReceipts.Block br) → enough_fuel s (BlockAndReceipts.Block br) fuel →
      storage_step s (Process fuel bus br s).1
  | step_batch s b :
      storable b → blocks (s_db s) !! Batch.hashOf b = None → storage_step s (StoreBatch b s).1
  | step_execution s b receipts : storage_step s (StoreExecutedBatch b receipts s).1.

(** A new storage: no rows, nothing cached. *)
Definition initial s : Prop := s_db s = emptyDB ∧ ∀ h, cache_get (s_cache s) h = None.

Definition storage_inv s : Prop := storage_ok s ∧ chain (s_db s).

Lemma initial_inv s : initial s → storage_inv s.
Proof.
  intros [Hdb Hc]. split.
  - split; [|by intros h v; rewrite Hc]. rewrite Hdb. split; simpl; intros; by simplify_map_eq.
  - left. rewrite Hdb. apply omap_empty.
Qed.

Lemma same_content_chain s s' : same_content s s' → chain (s_db s) → chain (s_db s').
Proof. by intros [-> _]. Qed.

Lemma tryAndInsertBlock_inv s b fuel :
  storage_inv s → valid_block s b → enough_fuel s b fuel → storage_inv (tryAndInsertBlock fuel b s).1.
Proof.
  intros [Hok Hch] ([header Hh] & Hnb & Hcase) Hfuel.
  destruct (blocks (s_db s) !! Block_Hash b) as [hd|] eqn:Hb.
  - destruct (storage_FetchBlock_spec s (Block_Hash b) Hok) as (Hok1 & Hsame & Hr).
    rewrite Hb in Hr. destruct Hr as (b' & Hr & _).
    unfold tryAndInsertBlock, try, mbind, M_bind, FetchBlock, storage_resolver.
    destruct (storage_FetchBlock (Block_Hash b) s) as [s1 r]. simpl in *. subst r.
    split; [done|]. by apply (same_content_chain s).
  - destruct (Hcase eq_refl) as [(He & Hn & Hself)|(head & Hchain & Hnext)].
    + destruct (tryAndInsertBlock_first s b header fuel Hok He Hh Hn Hself Hnb) as (s' & -> & Hok' & Hc').
      split; [done|]. right. by eexists.
    + assert (h_number (b_header b) + h_number head < Z.of_nat fuel) as Hf.
      { eapply Hfuel. by apply co_head. }
      pose proof (insert_outcome s head b header fuel Hok Hchain Hnext Hh Hnb Hf) as Hout.
      destruct (tryAndInsertBlock fuel b s) as [s' [ing|e|c]]; [| |done].
      * destruct Hout as (_ & Hok' & Hc' & _). split; [done|]. right. by eexists.
      * destruct Hout as (_ & _ & Hok' & Hsame). split; [done|]. by apply (same_content_chain s).
Qed.

Lemma Process_inv s br bus fuel :
  storage_inv s → valid_block s (BlockAndReceipts.Block br) →
  enough_fuel s (BlockAndReceipts.Block br) fuel → storage_inv (Process fuel bus br s).1.
Proof.
  intros Hinv Hb Hfuel. pose proof (tryAndInsertBlock_inv s _ fuel Hinv Hb Hfuel) as Hinv'.
  unfold Process, mbind at 1, M_bind.
  destruct (tryAndInsertBlock fuel (BlockAndReceipts.Block br) s) as [s1 [ing|e|c]]; simpl in *; [|done..].
  destruct (PreGenesis ing); [done|].
  destruct (StoreCrossChainMessages_frame bus (BlockAndReceipts.Block br) (BlockAndReceipts.Receipts br) s1)
    as (f & Hd & Hc).
  assert (storage_inv (StoreCrossChainMessages bus (BlockAndReceipts.Block br) (BlockAndReceipts.Receipts br) s1).1)
    as Hinv2.
  { destruct (StoreCrossChainMessages bus _ _ s1) as [[d2 c2 t2] r]. simpl in *. subst.
    destruct Hinv' as [Hok' Hch']. split; [by apply (upd_l1msg_ok f s1 t2)|].
    destruct Hch' as [He|[head Hch']]; [by left|]. right. exists head. by apply upd_l1msg_chain. }
  unfold mbind, M_bind, try. by destruct (StoreCrossChainMessages bus _ _ s1) as [s2 [?|?|?]].
Qed.

Lemma StoreBatch_inv s b :
  storage_inv s → storable b → blocks (s_db s) !! Batch.hashOf b = None → storage_inv (StoreBatch b s).1.
Proof.
  intros [Hok Hch] Hb Hnb. pose proof (so_db s Hok) as Hdb.
  destruct (fetchBatch_cases (s_db s) (λ r, bool_decide (bat_sequence r = Batch.SeqNo b)) Hdb)
    as [(h & r & ab & Hr & Hrow & Hseq & _)|[Hnone _]].
  - apply bool_decide_eq_true in Hseq. rewrite (tro_sequence _ _ _ _ Hrow) in Hseq.
    assert (batches (s_db s) !! h = Some ab) as Hab by (apply batches_lookup; eauto).
    by rewrite (StoreBatch_taken s b h ab Hok Hb Hab Hseq).
  - destruct (StoreBatch_new s b Hok Hb Hnb) as (s' & -> & Hok' & _ & Hbl & Htb & _).
    { intros h ab (r & Hr & Hrow)%batches_lookup; [|done]. specialize (Hnone h r Hr).
      apply bool_decide_eq_false in Hnone. by rewrite <-(tro_sequence _ _ _ _ Hrow). }
    split; [done|]. simpl. destruct Hch as [He|[head [Ho1 Ho2 Ho3 Ho4 Ho5]]]; [by left; rewrite Hbl|].
    right. exists head. split; rewrite ?Hbl, ?Htb; done.
Qed.

Lemma storage_step_inv s s' : storage_inv s → storage_step s s' → storage_inv s'.
Proof.
  intros Hinv Hstep. destruct Hstep as [s br bus fuel Hb Hfuel|s b Hb Hnb|s b receipts].
  - by apply Process_inv.
  - by apply StoreBatch_inv.
  - destruct Hinv as [Hok Hch].
    destruct (StoreExecutedBatch_spec s b receipts Hok) as (Hok' & _ & Hbl & Htb & _).
    split; [done|]. destruct Hch as [He|[head [Ho1 Ho2 Ho3 Ho4 Ho5]]]; [by left; rewrite Hbl|].
    right. exists head. split; rewrite ?Hbl, ?Htb; done.
Qed.

Lemma reachable_inv s0 s : initial s0 → rtc storage_step s0 s → storage_inv s.
Proof.
  intros Hi Hr. apply initial_inv in Hi. induction Hr as [|s1 s2 s3 Hstep _ IH]; [done|].
  apply IH. by apply (storage_step_inv s1).
Qed.

(** In every state reached from an empty storage by processing L1 blocks,
    storing batches and recording executions, in any order, a stored block is
    flagged canonical exactly when it is an ancestor of the head, and a stored
    batch is flagged canonical exactly when the L1 block it was built on is
    stored and canonical. *)
Theorem canonical_chain_invariant s0 s :
  initial s0 → rtc storage_step s0 s → blocks (s_db s) ≠ ∅ →
  ∃ head, FetchHeadBlock (s_db s) = Ok (NewBlockWithHeader head) ∧
    (∀ h r a, t_block (s_db s) !! h = Some r → blocks (s_db s) !! h = Some a →
       blk_is_canonical r = true ↔ ancestor (blocks (s_db s)) head a) ∧
    (∀ h ab, batches (s_db s) !! h = Some ab →
       ab_canonical ab = true ↔
       ∃ a, blocks (s_db s) !! L1Proof (ab_header ab) = Some a ∧ ancestor (blocks (s_db s)) head a).
Proof.
  intros Hi Hr Hne. destruct (reachable_inv s0 s Hi Hr) as [Hok [He|[head Hchain]]]; [done|].
  pose proof (so_db s Hok) as Hdb. exists head.
  split_and!; [by apply FetchHeadBlock_chain|by apply co_canon|].
  intros h ab (r & Hrow & Hab)%batches_lookup; [|done].
  rewrite (proj1 (abs_flags _ _ _ _ Hab)), (do_canonical _ Hdb h r Hrow), (tro_proof _ _ _ _ Hab).
  unfold isCanonQuery. destruct (t_block (s_db s) !! L1Proof (ab_header ab)) as [rb|] eqn:Hrb.
  - destruct (do_blocks _ Hdb _ _ Hrb) as [a Ha].
    assert (blocks (s_db s) !! L1Proof (ab_header ab) = Some a) as Hba by (apply blocks_lookup; eauto).
    rewrite (co_canon _ _ Hchain _ _ _ Hrb Hba). split; [by eauto|]. intros (a' & Ha' & Hanc). by simplify_eq.
  - split; [done|]. intros (a & (rb & Hrb' & _)%blocks_lookup & _); [|done]. congruence.
Qed.
End correctness.
