(* ===== verification/Reads.v ===== *)
(** * Computations that only read the storage

    A relational logic for the parts of the enclave that compute from what is
    stored: run on two storages that differ in their caches at most, they give
    related results and leave both storages as they were up to the caches.
    Errors are related whatever their message. *)

From S2P Require Import Prelude Types Codec L1Chain EnclaveDB BatchDB Events Storage StorageInv StorageOps StorageSpec CrossChain.

Definition result_rel {A B} (R : A → B → Prop) (r1 : result A) (r2 : result B) : Prop :=
  match r1, r2 with
  | Ok a, Ok b => R a b
  | Err _, Err _ => True
  | Crash _, Crash _ => True
  | _, _ => False
  end.

Definition sum_rel {A B} (R : A → B → Prop) (r1 : A + GoError) (r2 : B + GoError) : Prop :=
  match r1, r2 with
  | inl a, inl b => R a b
  | inr _, inr _ => True
  | _, _ => False
  end.

(** A block comes with its body from the cache and without it from the
    database. *)
Definition same_header (b1 b2 : L1Block) : Prop := b_header b1 = b_header b2.

Section reads.
Context {C : Type} `{CacheOk C, StateModel, StorageCodecsOk, HashingOk}.
(** What is stored, and the tries: [d] and [tr] are fixed. *)
Context (d : DB) (tr : gmap Hash EState) (Hd : db_ok d).
Implicit Types (s : Storage C).

(** A storage with that content, whatever it has cached. *)
Definition holds s : Prop := s_db s = d ∧ s_tries s = tr ∧ cache_ok s.

Lemma holds_ok s : holds s → storage_ok s.
Proof. intros (Hdb&_&?). split; [by rewrite Hdb|done]. Qed.

Lemma holds_same s s' : holds s → storage_ok s' → same_content s s' → holds s'.
Proof. intros (Hdb&Ht&_) [_ Hc] [E1 E2]. split_and!; [congruence|congruence|done]. Qed.

Definition reads {A B} (R : A → B → Prop) (m1 : M (Storage C) A) (m2 : M (Storage C) B) : Prop :=
  ∀ s1 s2, holds s1 → holds s2 →
  holds (m1 s1).1 ∧ holds (m2 s2).1 ∧ result_rel R (m1 s1).2 (m2 s2).2.

(** Running again gives the same result. *)
Lemma reads_again {A} (m : M (Storage C) A) s s' a :
  reads (=) m m → holds s → m s = (s', Ok a) → holds s' ∧ ∀ s2, holds s2 → (m s2).2 = Ok a ∧ holds (m s2).1.
Proof.
  intros Hm Hs Hrun. destruct (Hm s s Hs Hs) as (Hs'&_). rewrite Hrun in Hs'. split; [done|].
  intros s2 Hs2. destruct (Hm s s2 Hs Hs2) as (_&?&Hr). rewrite Hrun in Hr. simpl in Hr.
  destruct ((m s2).2); simpl in Hr; [by subst|done..].
Qed.

Lemma reads_ret {A B} (R : A → B → Prop) a b : R a b → reads R (mret a) (mret b).
Proof. by intros Hab s1 s2 ? ?. Qed.
Lemma reads_fail {A B} (R : A → B → Prop) e1 e2 : reads R (fail e1) (fail e2).
Proof. by intros s1 s2 ? ?. Qed.
Lemma reads_crash {A B} (R : A → B → Prop) c1 c2 : reads R (crash c1) (crash c2).
Proof. by intros s1 s2 ? ?. Qed.
Lemma reads_lift {A B} (R : A → B → Prop) r1 r2 : result_rel R r1 r2 → reads R (lift r1) (lift r2).
Proof. by intros Hr s1 s2 ? ?. Qed.
Lemma result_rel_refl {A} (r : result A) : result_rel (=) r r.
Proof. by destruct r. Qed.

Lemma reads_query {A} (q : DB → result A) : reads (=) (query q) (query q).
Proof.
  intros s1 s2 Hs1 Hs2. split_and!; [done..|]. simpl. rewrite (proj1 Hs1), (proj1 Hs2). apply result_rel_refl.
Qed.

Lemma reads_bind {A1 A2 B1 B2} (R : A1 → A2 → Prop) (T : B1 → B2 → Prop) m1 m2 f1 f2 :
  reads R m1 m2 → (∀ a b, R a b → reads T (f1 a) (f2 b)) → reads T (m1 ≫= f1) (m2 ≫= f2).
Proof.
  intros Hm Hf s1 s2 Hs1 Hs2. destruct (Hm s1 s2 Hs1 Hs2) as (Ht1&Ht2&Hr).
  unfold mbind, M_bind. destruct (m1 s1) as [t1 r1], (m2 s2) as [t2 r2]. simpl in *.
  destruct r1 as [a|e|c], r2 as [b|e'|c']; simpl in Hr; try done. by apply (Hf a b Hr).
Qed.

Lemma reads_try {A B} (R : A → B → Prop) m1 m2 : reads R m1 m2 → reads (sum_rel R) (try m1) (try m2).
Proof.
  intros Hm s1 s2 Hs1 Hs2. destruct (Hm s1 s2 Hs1 Hs2) as (?&?&Hr). unfold try.
  destruct (m1 s1) as [t1 [a|e|c]], (m2 s2) as [t2 [b|e'|c']]; simpl in *; done.
Qed.

Lemma reads_wrap {A B} (R : A → B → Prop) msg1 msg2 m1 m2 :
  reads R m1 m2 → reads R (wrap msg1 m1) (wrap msg2 m2).
Proof.
  intros Hm s1 s2 Hs1 Hs2. destruct (Hm s1 s2 Hs1 Hs2) as (?&?&Hr). unfold wrap.
  destruct (m1 s1) as [t1 [a|e|c]], (m2 s2) as [t2 [b|e'|c']]; simpl in *; done.
Qed.

(** A continuation that depends on the storage only through its content. *)
Lemma reads_gets_id {B1 B2} (T : B1 → B2 → Prop) f1 f2 :
  (∀ s1 s2, holds s1 → holds s2 → reads T (f1 s1) (f2 s2)) → reads T (gets id ≫= f1) (gets id ≫= f2).
Proof. intros Hf s1 s2 Hs1 Hs2. unfold mbind, M_bind, gets, id. by apply Hf. Qed.

(** ** The storage's own reads *)

(** A stored block. *)
Definition fetched_block (h : Hash) (b1 b2 : L1Block) : Prop :=
  same_header b1 b2 ∧ blocks d !! h = Some (b_header b1) ∧ Block_Hash b1 = h.

Lemma reads_FetchBlock h : reads (fetched_block h) (FetchBlock h) (FetchBlock h).
Proof.
  intros s1 s2 Hs1 Hs2. unfold FetchBlock, storage_resolver.
  destruct (storage_FetchBlock_spec s1 h (holds_ok _ Hs1)) as (Hok1&Hsame1&Hr1).
  destruct (storage_FetchBlock_spec s2 h (holds_ok _ Hs2)) as (Hok2&Hsame2&Hr2).
  split_and!; [by apply (holds_same s1)|by apply (holds_same s2)|]. rewrite (proj1 Hs1) in Hr1. rewrite (proj1 Hs2) in Hr2.
  destruct (blocks d !! h) as [hd|] eqn:Hh.
  - destruct Hr1 as (b1&->&<-), Hr2 as (b2&->&Hb2). split_and!; [done|done|].
    apply blocks_lookup in Hh as (r&_&Hrow); [|done]. by apply (bro_hash _ _ _ Hrow).
  - destruct Hr1 as (e1&->&_), Hr2 as (e2&->&_). done.
Qed.

(** A stored batch. *)
Definition fetched_batch (h : Hash) (b1 b2 : Batch.t) : Prop :=
  b1 = b2 ∧ ∃ ab, batches d !! h = Some ab ∧ b1 = ab_batch ab.

Lemma reads_FetchBatch h : reads (fetched_batch h) (FetchBatch h) (FetchBatch h).
Proof.
  intros s1 s2 Hs1 Hs2.
  destruct (FetchBatch_spec s1 h (holds_ok _ Hs1)) as (?&?&Hr1), (FetchBatch_spec s2 h (holds_ok _ Hs2)) as (?&?&Hr2).
  split_and!; [by apply (holds_same s1)|by apply (holds_same s2)|]. rewrite (proj1 Hs1) in Hr1. rewrite (proj1 Hs2) in Hr2.
  destruct (batches d !! h) as [ab|] eqn:Hh.
  - rewrite Hr1, Hr2. split; [done|]. by exists ab.
  - destruct Hr1 as (e1&->&_), Hr2 as (e2&->&_). done.
Qed.

Lemma reads_CreateStateDB h : reads (=) (CreateStateDB h) (CreateStateDB h).
Proof.
  unfold CreateStateDB. eapply reads_bind; [apply reads_FetchBatch|]. intros b ? [<- _].
  apply reads_gets_id. intros s1 s2 (_&->&_) (_&->&_). apply reads_lift, result_rel_refl.
Qed.
End reads.

Create HintDb reads.
#[export] Hint Resolve reads_ret reads_fail reads_crash reads_query reads_wrap reads_try
  reads_FetchBlock reads_FetchBatch reads_CreateStateDB result_rel_refl : reads.
#[export] Hint Resolve reads_lift : reads.

Section walks.
Context {C : Type} `{CacheOk C, StateModel, StorageCodecsOk, HashingOk}.
Context `{MB : MessageBus, OW : !OwnerWallet}.
Context (d : DB) (tr : gmap Hash EState) (Hd : db_ok d).
Implicit Types (s : Storage C).

(** Walks only look at headers. *)
Lemma reads_IsAncestor fuel : ∀ b1 b2 a1 a2, same_header b1 b2 → same_header a1 a2 →
  reads (C:=C) d tr (=) (IsAncestor fuel b1 a1) (IsAncestor fuel b2 a2).
Proof.
  induction fuel as [|fuel IH]; intros b1 b2 a1 a2 Hb Ha; cbn [IsAncestor]; [apply reads_crash|].
  unfold Block_Hash, Block_NumberU64, Block_ParentHash. rewrite Hb, Ha.
  case_bool_decide; [by apply reads_ret|]. case_match; [by apply reads_ret|].
  eapply (reads_bind d tr (sum_rel (fetched_block d _))); [by apply reads_try, reads_FetchBlock|].
  intros [p1|e1] [p2|e2] Hp; simpl in Hp; first [done|by apply IH; [apply Hp|..]|by apply reads_ret].
Qed.

Lemma reads_inboundLoop fuel from height : ∀ b1 b2 acc, same_header b1 b2 →
  reads (C:=C) d tr (=) (inboundLoop fuel from height b1 acc) (inboundLoop fuel from height b2 acc).
Proof.
  induction fuel as [|fuel IH]; intros b1 b2 acc Hb; cbn [inboundLoop]; [apply reads_crash|].
  unfold Block_Hash, Block_NumberU64, Block_ParentHash. rewrite Hb.
  case_bool_decide; [by apply reads_ret|].
  eapply (reads_bind d tr (sum_rel (=))); [eauto with reads|]. intros [ms1|e1] [ms2|e2] Hms; simpl in Hms;
    [subst ms2|done|done|apply reads_crash]. case_match; [apply reads_crash|].
  eapply (reads_bind d tr (sum_rel (fetched_block d _))); [by apply reads_try, reads_FetchBlock|].
  intros [p1|e1] [p2|e2] Hp; simpl in Hp; first [done|by apply IH; [apply Hp|..]|apply reads_crash].
Qed.

Lemma reads_RetrieveInboundMessages fuel b1 b2 a1 a2 : same_header b1 b2 → same_header a1 a2 →
  reads (C:=C) d tr (=) (RetrieveInboundMessages fuel a1 b1) (RetrieveInboundMessages fuel a2 b2).
Proof.
  intros Hb Ha. unfold RetrieveInboundMessages.
  eapply (reads_bind d tr (=)); [by apply reads_IsAncestor|]. intros [] ? <-; simpl; [|apply reads_crash].
  unfold Block_Hash, Block_NumberU64. rewrite Ha. by apply reads_inboundLoop.
Qed.
End walks.
