(* ===== verification/Executor.v ===== *)
(** * Execution of batches

    [go/enclave/evm], [go/enclave/genesis] and
    [go/enclave/components/batch_executor.go]: the transactions of a batch run
    on go-ethereum's EVM over the state of the parent batch, and the batch
    computed from the outcome.  The EVM and its state database are parameters. *)

From S2P Require Import Prelude Types Codec Bytes L1Chain EnclaveDB BatchDB Events Storage StorageInv StorageOps StorageSpec CrossChain Reads.

(** ** Entropy ([crypto.go]) *)

(** Keccak over bytes, and the bytes of what it computes. *)
Class Keccak := {
  #[global] keccak_hash :: HashBytes;
  #[global] keccak_address :: AddressBytes;
  Keccak256Hash : bytes → Hash
}.

Definition intToBytes (val : Z) : bytes :=
  map (λ i, Z.land (Z.shiftr (Int.u64 val) (8 * Z.of_nat i)) 255) (seq 0 8).

(** The header handed to the EVM: the fields that are not constants. *)
Record EthHeader := mkEthHeader {
  eh_ParentHash : Hash;
  eh_Root : Hash;
  eh_TxHash : Hash;
  eh_ReceiptHash : Hash;
  eh_Number : Z;
  eh_Time : Z;
  eh_MixDigest : Hash
}.

Section entropy.
Context `{Keccak}.

Definition CalculateRootBatchEntropy (rootEntropy : bytes) (batchHeight : Z) : Hash :=
  Keccak256Hash (rootEntropy ++ Gob.nat_bytes batchHeight).
Definition CalculateTxRnd (rootBatchEntropy : bytes) (tCount : Z) : Hash :=
  Keccak256Hash (rootBatchEntropy ++ intToBytes tCount).

Definition CreateEthHeaderForBatch (h : BatchHeader) (secret : bytes) : EthHeader := {|
  eh_ParentHash := ParentHash h;
  eh_Root := Root h;
  eh_TxHash := TxHash h;
  eh_ReceiptHash := ReceiptHash h;
  eh_Number := Number h;
  eh_Time := Time h;
  eh_MixDigest := CalculateRootBatchEntropy secret (Number h)
|}.
Definition set_MixDigest (v : Hash) (h : EthHeader) : EthHeader :=
  mkEthHeader (eh_ParentHash h) (eh_Root h) (eh_TxHash h) (eh_ReceiptHash h) (eh_Number h) (eh_Time h) v.
End entropy.

(** ** go-ethereum's EVM and state database

    [ApplyTransaction] reads headers of earlier batches, the header of the
    batch, and takes the state and the two gas counters (used, available). *)

Class EVM `{StateModel} := {
  LatestSender : L2Tx → option Address;
  Prepare : EState → Address → L2Tx → EState;
  SetTxContext : EState → Hash → Z → EState;
  ApplyTransaction : (Hash → result (option EthHeader)) → EthHeader → L2Tx →
    EState * (Z * Z) → EState * (Z * Z) * result Receipt;
  GetLogs : EState → Hash → list Log;
  Finalise : EState → EState;
  IntermediateRoot : bool → EState → Hash;
  CommitState : bool → EState → option Hash;
  SetBalance : EState → Address → Z → EState
}.

(** The hashes go-ethereum asks the chain for: [BLOCKHASH] walks from the
    parent of the header to its ancestors. *)
Inductive asked (chain : Hash → result (option EthHeader)) (hd : EthHeader) : Hash → Prop :=
  | asked_parent : asked chain hd (eh_ParentHash hd)
  | asked_next h hd' : asked chain hd h → chain h = Ok (Some hd') → asked chain hd (eh_ParentHash hd').

(** The chain is read nowhere else; the receipt names its transaction and the index of the context; a finalised
    state is committed under its intermediate root. *)
Class EVMOk `{EVM} : Prop := {
  chain_asked : ∀ chain1 chain2 hd tx st,
    (∀ h, asked chain1 hd h → chain1 h = chain2 h) →
    ApplyTransaction chain1 hd tx st = ApplyTransaction chain2 hd tx st;
  receipt_of : ∀ chain hd tx st h i gas st' gas' r,
    ApplyTransaction chain hd tx (SetTxContext st h i, gas) = (st', gas', Ok r) →
    r_txhash r = tx_hash tx ∧ r_txindex r = i;
  commit_root : ∀ st, CommitState true (Finalise st) = Some (IntermediateRoot false (Finalise st))
}.

(** The fields of a receipt and of its logs that the node rewrites. *)
Definition log_in (batchHash : Hash) (l : Log) : Log :=
  mkLog (log_address l) (log_topics l) (log_data l) (log_blocknumber l) (log_txhash l) (log_txindex l)
    batchHash (log_index l).
Definition log_at (height : Z) (batchHash : Hash) (l : Log) : Log :=
  mkLog (log_address l) (log_topics l) (log_data l) height (log_txhash l) (log_txindex l)
    batchHash (log_index l).
Definition receipt_with (logs : list Log) (batchHash : Hash) (r : Receipt) : Receipt :=
  mkReceipt (r_status r) (r_txhash r) batchHash (r_txindex r) (r_contract r) logs.

(** ** The facade ([evm_facade.go]) *)

Section facade.
Context `{Keccak, EVM}.

(** The snapshot is taken after [Prepare]; reverting to it keeps the
    transaction context. *)
Definition executeTransaction (chain : Hash → result (option EthHeader)) (header : EthHeader) (t : L2Tx)
    (tCount : Z) (batchHash : Hash) (batchHeight : Z) (s : EState) (gas : Z * Z)
    : EState * (Z * Z) * result Receipt :=
  match LatestSender t with
  | None => (s, gas, Err (ErrMsg "invalid sender"))
  | Some from =>
      let s := SetTxContext (Prepare s from t) (tx_hash t) tCount in
      let before := eh_MixDigest header in
      let header := set_MixDigest (CalculateTxRnd (Hash_Bytes before) tCount) header in
      match ApplyTransaction chain header t (s, gas) with
      | (s', gas', Ok receipt) =>
          let logs := map (log_at batchHeight batchHash) (GetLogs s' (tx_hash t)) in
          (s', gas', Ok (receipt_with logs batchHash receipt))
      | (_, gas', Err err) => (s, gas', Err err)
      | (s', gas', Crash c) => (s', gas', Crash c)
      end
  end.

(** The results by transaction hash: a receipt, or an error. *)
Abbreviation txResults := (gmap Hash (Receipt + GoError)).

Fixpoint executeLoop (chain : Hash → result (option EthHeader)) (header : EthHeader) (batchHash : Hash)
    (batchHeight : Z) (txs : list L2Tx) (tCount : Z) (s : EState) (gas : Z * Z) (res : txResults)
    : result (EState * txResults) :=
  match txs with
  | [] => Ok (s, res)
  | t :: txs =>
      match executeTransaction chain header t tCount batchHash batchHeight s gas with
      | (s', gas', Ok r) =>
          executeLoop chain header batchHash batchHeight txs (tCount + 1) s' gas' (<[tx_hash t := inl r]> res)
      | (s', gas', Err err) =>
          executeLoop chain header batchHash batchHeight txs (tCount + 1) s' gas' (<[tx_hash t := inr err]> res)
      | (_, _, Crash c) => Crash c
      end
  end.

Context {C : Type} `{Cache C, StorageCodecs, Hashing, Codec (list Z)}.
Implicit Types (s : Storage C).

(** The error of [FetchSecret] is dropped, and the nil secret dereferenced. *)
Definition secret : M (Storage C) bytes :=
  r ← try FetchSecret;
  match r with
  | inl secret => mret secret
  | inr _ => crash "nil secret"
  end.

(** [ObscuroChainContext.GetHeader]; [logger.Crit] ends the process. *)
Definition GetHeader (hash : Hash) : M (Storage C) (option EthHeader) :=
  r ← try (FetchBatch hash);
  match r with
  | inr err => if errors_Is err ErrNotFound then mret None else crash "Could not retrieve rollup"
  | inl batch =>
      sec ← secret;
      mret (Some (CreateEthHeaderForBatch (Batch.Header batch) sec))
  end.

(** What the EVM reads of earlier batches; the cache entries this adds are not
    recorded. *)
Definition chainOf (s : Storage C) (hash : Hash) : result (option EthHeader) := (GetHeader hash s).2.

Definition MaxUint64 : Z := Int.two64 - 1.

Definition ExecuteTransactions (txs : list L2Tx) (st : EState) (header : BatchHeader) (fromTxIndex : Z)
    : M (Storage C) (EState * txResults) :=
  sec ← secret;
  let ethHeader := CreateEthHeaderForBatch header sec in
  let hash := BatchHeader_Hash header in
  s ← gets id;
  '(st, res) ← lift (executeLoop (chainOf s) ethHeader hash (Int.u64 (Number header)) txs fromTxIndex st
                       (0, MaxUint64)%Z ∅);
  mret (Finalise st, res).
End facade.

(** ** Genesis ([genesis.go]) *)

Record Account := mkAccount { acc_Address : Address; acc_Amount : Z }.
Record Genesis := mkGenesis { Accounts : list Account }.

(** ** The executor *)

(** [components.BatchExecutionContext]; the chain configuration is that of the
    EVM. *)
Record BatchExecutionContext := mkContext {
  BlockPtr : Hash;
  ParentPtr : Hash;
  ctx_Transactions : list L2Tx;
  AtTime : Z;
  SequencerNo : Z
}.

(** [components.ComputedBatch]: [cb_state] is the state database captured by the
    [Commit] closure. *)
Record ComputedBatch `{StateModel} := mkComputed {
  cb_Batch : Batch.t;
  cb_Receipts : list Receipt;
  cb_state : EState
}.

Definition by_txindex (r1 r2 : Receipt) : Prop := (r_txindex r1 ≤ r_txindex r2)%Z.
#[export] Instance by_txindex_dec : RelDecision by_txindex.
Proof. intros r1 r2. unfold by_txindex. apply _. Defined.
#[export] Instance by_txindex_trans : Transitive by_txindex.
Proof. intros x y z. unfold by_txindex. lia. Qed.
#[export] Instance by_txindex_total : Total by_txindex.
Proof. intros x y. unfold by_txindex. lia. Qed.

Definition allReceipts (txReceipts depositReceipts : list Receipt) : list Receipt :=
  txReceipts ++ depositReceipts.

Definition verifyInboundCrossChainTransactions (transactions executedTxs : list L2Tx)
    (receipts : list Receipt) : result unit :=
  if bool_decide (length transactions ≠ length executedTxs)
  then Err (ErrMsg "some synthetic transactions have not been executed")
  else if forallb (λ rec, bool_decide (r_status rec = 1%Z)) receipts then Ok tt
  else Err (ErrMsg "found a failed receipt for a synthetic transaction").

(** The loop over the results: the transactions with a receipt, and whether one
    was left out. *)
Fixpoint splitResults (txs : list L2Tx) (res : gmap Hash (Receipt + GoError))
    : result (list L2Tx * list Receipt * bool) :=
  match txs with
  | [] => Ok ([], [], false)
  | tx :: txs =>
      match res !! tx_hash tx with
      | None => Err (ErrMsg "there should be an entry for each transaction")
      | Some (inl rec) =>
          '(executed, receipts, excluded) ← splitResults txs res;
          Ok (tx :: executed, rec :: receipts, excluded)
      | Some (inr _) =>
          '(executed, receipts, _) ← splitResults txs res;
          Ok (executed, receipts, true)
      end
  end.

Section executor.
Context {C : Type} `{Cache C, StateModel, StorageCodecs, Hashing, MB : MessageBus}.
Context `{OW : !OwnerWallet, Keccak, EV : !EVM, CS : !Codec (list Z)}.
Implicit Types (s : Storage C).

Definition setBalances (accounts : list Account) (st : EState) : EState :=
  foldl (λ st acc, SetBalance st (acc_Address acc) (acc_Amount acc)) st accounts.

Definition applyAllocations (g : Genesis) : M (Storage C) EState :=
  st ← wrap "could not initialise empty state DB" EmptyStateDB;
  mret (setBalances (Accounts g) st).

Definition GetGenesisRoot (g : Genesis) : M (Storage C) Hash :=
  st ← applyAllocations g;
  mret (IntermediateRoot true st).

(** [stateDB.Commit]: the state is stored under its root. *)
Definition commitState (deleteEmptyObjects : bool) (st : EState) : M (Storage C) Hash :=
  h ← lift (of_option (ErrMsg "commit failed") (CommitState deleteEmptyObjects st));
  _ ← modify (λ s, mkStorage C _ (s_db s) (s_cache s) (<[h := st]> (s_tries s)));
  mret h.

Definition CommitGenesisState (g : Genesis) : M (Storage C) unit :=
  st ← applyAllocations g;
  _ ← commitState false st;
  mret tt.

(** [logger.Crit] after a failure to create the deployment transaction. *)
Definition CreateGenesisState (g : Genesis) (blkHash : Hash) (timeNow : Z) : M (Storage C) (Batch.t * L2Tx) :=
  preFundGenesisState ← GetGenesisRoot g;
  let genesisBatch := Batch.mk {|
    ParentHash := EmptyHash;
    Root := preFundGenesisState;
    TxHash := EmptyRootHash;
    ReceiptHash := EmptyRootHash;
    Number := 0;
    SequencerOrderNo := L2GenesisSeqNo;
    GasLimit := 0; GasUsed := 0;
    Time := timeNow;
    Extra := []; BaseFee := 0;
    L1Proof := blkHash;
    sigR := 0; sigS := 0;
    CrossChainMessages := [];
    LatestInboundCrossChainHash := EmptyHash;
    LatestInboundCrossChainHeight := 0
  |}%Z None [] in
  match GenerateMessageBusDeployTx with
  | Ok deployTx =>
      _ ← wrap "could not apply genesis preallocation" (CommitGenesisState g);
      mret (genesisBatch, deployTx)
  | Err _ => crash "Could not create message bus deployment transaction"
  | Crash c => crash c
  end.

(** The log line about an excluded transaction computes, and so caches, the
    hash of the batch. *)
Definition processTransactions (batch : Batch.t) (tCount : Z) (txs : list L2Tx) (st : EState)
    : M (Storage C) (Batch.t * EState * list L2Tx * list Receipt) :=
  '(st, txResults) ← ExecuteTransactions txs st (Batch.Header batch) tCount;
  '(executed, receipts, excluded) ← lift (splitResults txs txResults);
  mret (if (excluded : bool) then (Batch.Hash batch).1 else batch, st, executed, merge_sort by_txindex receipts).

Definition populateOutboundCrossChainData (batch : Batch.t) (block : L1Block) (receipts : list Receipt)
    : result Batch.t :=
  match ExtractOutboundMessages receipts with
  | Ok crossChainMessages =>
      Ok (Batch.mk (set_crosschain crossChainMessages (Block_Hash block) (h_number (b_header block))
                      (Batch.Header batch)) (Batch.hash batch) (Batch.Transactions batch))
  | Err err => Err (ErrWrap "could not extract cross chain messages" err)
  | Crash c => Crash c
  end.

Definition receiptHash (receipts : list Receipt) : Hash :=
  match receipts with [] => EmptyRootHash | _ => DeriveSha_receipts receipts end.
Definition transactionsHash (txs : list L2Tx) : Hash :=
  match txs with [] => EmptyRootHash | _ => DeriveSha_txs txs end.
Definition populateHeader (batch : Batch.t) (receipts : list Receipt) : Batch.t :=
  Batch.mk (set_txhash (transactionsHash (Batch.Transactions batch))
              (set_receipthash (receiptHash receipts) (Batch.Header batch)))
    (Batch.hash batch) (Batch.Transactions batch).

(** The receipts and their logs point to the hash of the finished batch, which
    the first of them computes. *)
Definition adjustReceipts (batch : Batch.t) (receipts : list Receipt) : Batch.t * list Receipt :=
  match receipts with
  | [] => (batch, [])
  | _ =>
      let '(batch, hash) := Batch.Hash batch in
      (batch, map (λ r, receipt_with (map (log_in hash) (r_logs r)) hash r) receipts)
  end.

(** From the block, the parent and the block of the parent on. *)
Definition computeOn (fuel : nat) (ctx : BatchExecutionContext) (block : L1Block) (parent : Batch.t)
    (parentBlock : L1Block) : M (Storage C) ComputedBatch :=
  let batch := Batch.DeterministicEmptyBatch (Batch.Header parent) block (AtTime ctx) (SequencerNo ctx) in
  stateDB ← wrap "could not create stateDB" (CreateStateDB (ParentHash (Batch.Header batch)));
  messages ← (if (L2GenesisSeqNo + 1 <? Int.i64 (SequencerNo ctx))%Z
              then RetrieveInboundMessages fuel parentBlock block else mret []);
  crossChainTransactions ← lift (CreateSyntheticTransactions messages stateDB);
  '(batch, stateDB, successfulTxs, txReceipts) ←
    wrap "could not process transactions" (processTransactions batch 0 (ctx_Transactions ctx) stateDB);
  '(batch, stateDB, ccSuccessfulTxs, ccReceipts) ←
    processTransactions batch (Z.of_nat (length successfulTxs)) crossChainTransactions stateDB;
  _ ← wrap "batch computation failed due to cross chain messages"
        (lift (verifyInboundCrossChainTransactions crossChainTransactions ccSuccessfulTxs ccReceipts));
  let copyBatch := Batch.ResetHash (Batch.mk (set_root (IntermediateRoot false stateDB) (Batch.Header batch))
                                      (Batch.hash batch) successfulTxs) in
  copyBatch ← wrap "failed adding cross chain data to batch"
                (lift (populateOutboundCrossChainData copyBatch block txReceipts));
  let copyBatch := populateHeader copyBatch (allReceipts txReceipts ccReceipts) in
  let '(copyBatch, txReceipts) := adjustReceipts copyBatch txReceipts in
  mret (mkComputed _ copyBatch txReceipts stateDB).

Definition ComputeBatch (fuel : nat) (ctx : BatchExecutionContext) : M (Storage C) ComputedBatch :=
  rblock ← try (storage_FetchBlock (BlockPtr ctx));
  match rblock with
  | inr err =>
      if errors_Is err ErrNotFound then fail ErrBlockForBatchNotFound
      else fail (ErrWrap "failed to retrieve block for batch" err)
  | inl block =>
      rparent ← try (FetchBatch (ParentPtr ctx));
      match rparent with
      | inr err =>
          if errors_Is err ErrNotFound then fail ErrAncestorBatchNotFound
          else fail (ErrWrap "failed to retrieve parent batch" err)
      | inl parent =>
          parentBlock ← (if bool_decide (L1Proof (Batch.Header parent) ≠ Block_Hash block)
                         then storage_FetchBlock (L1Proof (Batch.Header parent)) else mret block);
          computeOn fuel ctx block parent parentBlock
      end
  end.

(** The [Commit] closure. *)
Definition Commit (cb : ComputedBatch) (deleteEmptyObjects : bool) : M (Storage C) Hash :=
  commitState deleteEmptyObjects (cb_state cb).

(** What a validator recomputes a batch from. *)
Definition contextOf (batch : Batch.t) : BatchExecutionContext := {|
  BlockPtr := L1Proof (Batch.Header batch);
  ParentPtr := ParentHash (Batch.Header batch);
  ctx_Transactions := Batch.Transactions batch;
  AtTime := Time (Batch.Header batch);
  SequencerNo := SequencerOrderNo (Batch.Header batch)
|}.

Definition ExecuteBatch (fuel : nat) (batch : Batch.t) : M (Storage C) (list Receipt) :=
  cb ← wrap "failed computing batch" (ComputeBatch fuel (contextOf batch));
  if bool_decide (Batch.hashOf (cb_Batch cb) ≠ Batch.hashOf batch)
  then fail (ErrMsg "batch is in invalid state")
  else
    _ ← wrap "cannot commit stateDB for incoming valid batch" (Commit cb true);
    mret (cb_Receipts cb).
End executor.
