(* ===== verification/ExecutorSpec.v ===== *)
(** * Correctness of the execution of batches

    What [ComputeBatch] computes depends on what is stored and not on what is
    cached; [ExecuteBatch] accepts what a sequencer computed and nothing whose
    header differs from what it recomputes. *)

From S2P Require Import Prelude Types Codec L1Chain EnclaveDB BatchDB Events Storage StorageInv StorageOps StorageSpec CrossChain Reads Executor.

Section spec.
Context {C : Type} `{CacheOk C, StateModel, StorageCodecsOk, HashingOk, MB : MessageBus}.
Context `{OW : !OwnerWallet, Keccak, EV : !EVM, EVOK : !EVMOk, CS : !Codec (list Z)}.
Implicit Types (s : Storage C) (d : DB).

(** The hash of a parent is not the hash of an L1 block. *)
Definition parents_ok d : Prop :=
  ∀ h ab, batches d !! h = Some ab → blocks d !! ParentHash (ab_header ab) = None.

Lemma batch_key d h ab : db_ok d → batches d !! h = Some ab → BatchHeader_Hash (ab_header ab) = h.
Proof. intros Hd (r&_&Hrow)%batches_lookup; [|done]. by apply (tro_hash _ _ _ _ Hrow). Qed.

(** ** Reading *)

Section content.
Context (d : DB) (tr : gmap Hash EState) (Hd : db_ok d) (Hp : parents_ok d).

Lemma reads_secret : reads d tr (=) (secret (C:=C)) secret.
Proof.
  unfold secret, FetchSecret. eapply (reads_bind d tr (sum_rel (=))).
  - apply reads_try. eapply reads_bind; [apply reads_query|]. intros ? ? <-. apply reads_lift, result_rel_refl.
  - intros [x|e] [y|e'] Hxy; simpl in Hxy; first [done|subst; by apply reads_ret|apply reads_crash].
Qed.

(** Away from the hashes of blocks, a header is the same on both sides. *)
Lemma chainOf_eq s1 s2 h :
  holds d tr s1 → holds d tr s2 → blocks d !! h = None → chainOf s1 h = chainOf s2 h.
Proof.
  intros Hs1 Hs2 Hb. unfold chainOf, GetHeader, mbind, M_bind, try.
  destruct (FetchBatch_spec s1 h (holds_ok d tr Hd _ Hs1)) as (Hok1&Hsame1&Hr1).
  destruct (FetchBatch_spec s2 h (holds_ok d tr Hd _ Hs2)) as (Hok2&Hsame2&Hr2).
  pose proof (holds_same d tr s1 _ Hs1 Hok1 Hsame1) as Ht1. pose proof (holds_same d tr s2 _ Hs2 Hok2 Hsame2) as Ht2.
  rewrite (proj1 Hs1), Hb in Hr1. rewrite (proj1 Hs2), Hb in Hr2.
  destruct (FetchBatch h s1) as [t1 r1], (FetchBatch h s2) as [t2 r2]. simpl in *.
  destruct (batches d !! h) as [ab|].
  - subst r1 r2. cbv beta iota. unfold secret, FetchSecret, query, mbind, M_bind, try, lift.
    rewrite (proj1 Ht1), (proj1 Ht2). destruct (FetchConfig masterSeedCfg d) as [cfg|e|c]; simpl; [|done..].
    by destruct (rlp_decode cfg).
  - destruct Hr1 as (e1&->&He1), Hr2 as (e2&->&He2). by rewrite He1, He2.
Qed.

(** A header on the chain is that of a stored batch. *)
Lemma chainOf_batch s h hd :
  holds d tr s → chainOf s h = Ok (Some hd) →
  ∃ ab, batches d !! h = Some ab ∧ eh_ParentHash hd = ParentHash (ab_header ab).
Proof.
  intros Hs. unfold chainOf, GetHeader, mbind, M_bind, try.
  destruct (FetchBatch_spec s h (holds_ok d tr Hd _ Hs)) as (Hok&Hsame&Hr).
  rewrite (proj1 Hs) in Hr. destruct (FetchBatch h s) as [t r]. simpl in *. destruct (batches d !! h) as [ab|].
  - subst r. cbv beta iota. unfold mbind, M_bind. destruct (secret t) as [t' [sec|e|c]]; simpl; [|done..].
    intros [= <-]. by exists ab.
  - destruct Hr as (e&->&_). destruct (errors_Is e ErrNotFound); done.
Qed.

Lemma asked_not_block s hd h :
  holds d tr s → blocks d !! eh_ParentHash hd = None → asked (chainOf s) hd h → blocks d !! h = None.
Proof.
  intros Hs Hhd Hask. destruct Hask as [|h hd' Hask Hch]; [done|].
  destruct (chainOf_batch s h hd' Hs Hch) as (ab&Hab&->). by apply (Hp h ab).
Qed.

Lemma executeLoop_eq s1 s2 hd hash height txs : holds d tr s1 → holds d tr s2 →
  blocks d !! eh_ParentHash hd = None → ∀ n st gas res,
  executeLoop (chainOf s1) hd hash height txs n st gas res = executeLoop (chainOf s2) hd hash height txs n st gas res.
Proof.
  intros Hs1 Hs2 Hhd. induction txs as [|tx txs IH]; intros n st gas res; cbn [executeLoop]; [done|].
  assert (∀ v st, ApplyTransaction (chainOf s1) (set_MixDigest v hd) tx st =
                  ApplyTransaction (chainOf s2) (set_MixDigest v hd) tx st) as Happ.
  { intros v st'. apply chain_asked. intros h Hask. apply chainOf_eq; [done..|].
    by apply (asked_not_block s1 (set_MixDigest v hd)). }
  unfold executeTransaction. destruct (LatestSender tx); [|apply IH]. rewrite Happ.
  by destruct (ApplyTransaction _ _ _ _) as [[st' gas'] [r|e|c]].
Qed.

Lemma reads_ExecuteTransactions txs st header n : blocks d !! ParentHash header = None →
  reads d tr (=) (ExecuteTransactions (C:=C) txs st header n) (ExecuteTransactions txs st header n).
Proof.
  intros Hh. unfold ExecuteTransactions. eapply reads_bind; [apply reads_secret|]. intros sec ? <-.
  apply reads_gets_id. intros s1 s2 Hs1 Hs2.
  rewrite (executeLoop_eq s1 s2) by done.
  eapply reads_bind; [apply reads_lift, result_rel_refl|]. intros [st' res] ? <-. by apply reads_ret.
Qed.

Lemma reads_processTransactions batch n txs st : blocks d !! ParentHash (Batch.Header batch) = None →
  reads d tr (λ p q, p = q ∧ Batch.Header p.1.1.1 = Batch.Header batch)
    (processTransactions (C:=C) batch n txs st) (processTransactions batch n txs st).
Proof.
  intros Hb. unfold processTransactions. eapply reads_bind; [by apply reads_ExecuteTransactions|].
  intros [st' res] ? <-. eapply reads_bind; [apply reads_lift, result_rel_refl|].
  intros [[ex rs] excl] ? <-. apply reads_ret. split; [done|]. simpl. destruct excl; [|done].
  unfold Batch.Hash. by destruct (Batch.hash batch).
Qed.

Lemma reads_computeOn fuel ctx b1 b2 parent p1 p2 :
  same_header b1 b2 → same_header p1 p2 → blocks d !! BatchHeader_Hash (Batch.Header parent) = None →
  reads d tr (=) (computeOn (C:=C) fuel ctx b1 parent p1) (computeOn fuel ctx b2 parent p2).
Proof.
  intros Hb Hpb Hpar. unfold computeOn, Batch.DeterministicEmptyBatch, populateOutboundCrossChainData, Block_Hash.
  rewrite Hb. cbn [Batch.Header ParentHash].
  eapply reads_bind; [by apply reads_wrap, reads_CreateStateDB|]. intros st ? <-.
  eapply (reads_bind d tr (=)).
  { case_match; [by apply reads_RetrieveInboundMessages|by apply reads_ret]. }
  intros messages ? <-. eapply reads_bind; [apply reads_lift, result_rel_refl|]. intros cc ? <-.
  eapply reads_bind; [by apply reads_wrap, reads_processTransactions|].
  intros [[[batch st1] txs] rs] ? [<- Hbatch]. simpl in Hbatch.
  eapply reads_bind; [apply reads_processTransactions; by rewrite Hbatch|].
  intros [[[batch2 st2] ccTxs] ccRs] ? [<- Hbatch2].
  eapply reads_bind; [apply reads_wrap, reads_lift, result_rel_refl|]. intros _ _ _.
  eapply reads_bind; [apply reads_wrap, reads_lift, result_rel_refl|]. intros copy ? <-.
  destruct (adjustReceipts _ _). by apply reads_ret.
Qed.

Lemma batch_not_block h ab : batches d !! h = Some ab → blocks d !! h = None.
Proof.
  intros Hab. destruct (blocks d !! h) as [hd|] eqn:Hb; [|done].
  by destruct (blocks_batches_disjoint d h hd ab Hd Hb Hab).
Qed.

Lemma reads_ComputeBatch fuel ctx :
  reads d tr (=) (ComputeBatch (C:=C) fuel ctx) (ComputeBatch fuel ctx).
Proof.
  unfold ComputeBatch. eapply (reads_bind d tr (sum_rel (fetched_block d (BlockPtr ctx)))).
  { apply reads_try. by apply reads_FetchBlock. }
  intros [b1|e1] [b2|e2] Hb; simpl in Hb; try done.
  2:{ destruct (errors_Is e1 _), (errors_Is e2 _); apply reads_fail. }
  eapply (reads_bind d tr (sum_rel (fetched_batch d (ParentPtr ctx)))).
  { apply reads_try. by apply reads_FetchBatch. }
  intros [p1|e1] [p2|e2] Hpar; simpl in Hpar; try done.
  2:{ destruct (errors_Is e1 _), (errors_Is e2 _); apply reads_fail. }
  destruct Hpar as [<- (ab&Hab&->)]. destruct Hb as (Hb&_&_).
  assert (Block_Hash b1 = Block_Hash b2) as Hhash by (unfold Block_Hash; by rewrite Hb).
  eapply (reads_bind d tr same_header).
  - rewrite Hhash. case_bool_decide; [|by apply reads_ret]. intros s1 s2 Hs1 Hs2.
    destruct (reads_FetchBlock d tr Hd (L1Proof (Batch.Header (ab_batch ab))) s1 s2 Hs1 Hs2) as (?&?&Hr).
    split_and!; [done..|]. unfold FetchBlock, storage_resolver in Hr.
    destruct (storage_FetchBlock _ s1) as [? [x|?|?]], (storage_FetchBlock _ s2) as [? [y|?|?]]; simpl in *; try done.
    apply Hr.
  - intros pb1 pb2 Hpb. apply reads_computeOn; [done..|]. cbn [ab_batch Batch.Header]. rewrite (batch_key d _ ab Hd Hab).
    by eapply batch_not_block.
Qed.
End content.

(** ** The computed batch *)

(** What the batch computed in a context consists of. *)
Record computed (ctx : BatchExecutionContext) (parent : BatchHeader) (cb : ComputedBatch) : Prop := {
  co_hash : Batch.hash_ok (cb_Batch cb);
  co_parent : ParentHash (Batch.Header (cb_Batch cb)) = BatchHeader_Hash parent;
  co_proof : L1Proof (Batch.Header (cb_Batch cb)) = BlockPtr ctx;
  co_number : Number (Batch.Header (cb_Batch cb)) = (Number parent + 1)%Z;
  co_seq : SequencerOrderNo (Batch.Header (cb_Batch cb)) = SequencerNo ctx;
  co_time : Time (Batch.Header (cb_Batch cb)) = AtTime ctx;
  co_unsigned : set_sig 0 0 (Batch.Header (cb_Batch cb)) = Batch.Header (cb_Batch cb);
  co_root : CommitState true (cb_state cb) = Some (Root (Batch.Header (cb_Batch cb)));
  co_txhash : TxHash (Batch.Header (cb_Batch cb)) = DeriveSha_txs (Batch.Transactions (cb_Batch cb));
  co_txs : Batch.Transactions (cb_Batch cb) `sublist_of` ctx_Transactions ctx;
  co_receipts : length (cb_Receipts cb) = length (Batch.Transactions (cb_Batch cb));
  co_blockhash : Forall (λ r, r_blockhash r = Batch.hashOf (cb_Batch cb) ∧
    Forall (λ l, log_blockhash l = Batch.hashOf (cb_Batch cb)) (r_logs r)) (cb_Receipts cb)
}.

Lemma splitResults_spec txs res : ∀ ex rs excl,
  splitResults txs res = Ok (ex, rs, excl) → ex `sublist_of` txs ∧ length rs = length ex.
Proof.
  induction txs as [|tx txs IH]; intros ex rs excl; cbn [splitResults]; result_unfold.
  { intros [= <- <- <-]. split; [constructor|done]. }
  destruct (res !! tx_hash tx) as [[r|e]|]; [| |done];
    destruct (splitResults txs res) as [[[ex' rs'] excl']|e'|c'] eqn:E; try done;
    destruct (IH _ _ _ eq_refl) as [Hsub Hlen]; intros [= <- <- <-].
  - split; [by apply sublist_skip|]. simpl. by rewrite Hlen.
  - split; [by apply sublist_cons|done].
Qed.

Lemma ExecuteTransactions_Ok txs st header n s s' st' res :
  ExecuteTransactions txs st header n s = (s', Ok (st', res)) → ∃ st0, st' = Finalise st0.
Proof.
  unfold ExecuteTransactions. intros (s1&sec&_&Hrun)%bind_Ok. unfold mbind, M_bind, gets, lift, mret, M_ret in Hrun.
  destruct (executeLoop _ _ _ _ _ _ _ _) as [[st0 res0]|e|c]; try done. injection Hrun as _ <- _. by exists st0.
Qed.

Lemma processTransactions_Ok batch n txs st s s' batch' st' ex rs :
  processTransactions batch n txs st s = (s', Ok (batch', st', ex, rs)) →
  Batch.Header batch' = Batch.Header batch ∧ ex `sublist_of` txs ∧ length rs = length ex ∧ ∃ st0, st' = Finalise st0.
Proof.
  unfold processTransactions. intros (s1&[st1 res]&Hex&Hrun)%bind_Ok. apply ExecuteTransactions_Ok in Hex as [st0 ->].
  unfold mbind, M_bind, lift, mret, M_ret in Hrun.
  destruct (splitResults txs res) as [[[ex0 rs0] excl]|e|c] eqn:Hsplit; try done.
  apply splitResults_spec in Hsplit as [Hsub Hlen]. injection Hrun as _ <- <- <- <-.
  split_and!; [|done| |by exists st0].
  - destruct excl; [|done]. unfold Batch.Hash. by destruct (Batch.hash batch).
  - rewrite <-Hlen. apply Permutation_length, merge_sort_Permutation.
Qed.

Lemma adjustReceipts_spec batch rs batch' rs' :
  Batch.hash batch = None → adjustReceipts batch rs = (batch', rs') →
  Batch.hash_ok batch' ∧ Batch.Header batch' = Batch.Header batch ∧
  Batch.Transactions batch' = Batch.Transactions batch ∧ length rs' = length rs ∧
  Forall (λ r, r_blockhash r = Batch.hashOf batch' ∧
    Forall (λ l, log_blockhash l = Batch.hashOf batch') (r_logs r)) rs'.
Proof.
  unfold adjustReceipts, Batch.hash_ok, Batch.hashOf, Batch.Hash. intros Hb. rewrite Hb. destruct rs as [|r rs].
  - intros [= <- <-]. rewrite Hb. by split_and!.
  - intros [<- <-]%pair_equal_spec. cbn [Batch.hash Batch.Header Batch.Transactions fst snd].
    split_and!; [done..|by rewrite length_map|].
    apply Forall_map, Forall_forall. intros r' _. split; [done|].
    apply Forall_map, Forall_forall. done.
Qed.

Lemma computeOn_Ok fuel ctx block parent parentBlock s s' cb :
  Block_Hash block = BlockPtr ctx →
  computeOn fuel ctx block parent parentBlock s = (s', Ok cb) → computed ctx (Batch.Header parent) cb.
Proof.
  intros Hblock. unfold computeOn.
  intros (s1&st&_&Hrun)%bind_Ok. apply bind_Ok in Hrun as (s2&messages&_&Hrun).
  apply bind_Ok in Hrun as (s3&cc&_&Hrun). apply bind_Ok in Hrun as (s4&[[[batch st1] txs] rs]&Hproc&Hrun).
  assert (processTransactions (Batch.DeterministicEmptyBatch (Batch.Header parent) block (AtTime ctx)
    (SequencerNo ctx)) 0 (ctx_Transactions ctx) st s3 = (s4, Ok (batch, st1, txs, rs))) as Hproc'.
  { unfold wrap in Hproc. by destruct (processTransactions _ _ _ _ _) as [? [?|?|?]]. }
  apply processTransactions_Ok in Hproc' as (Hb1&Hsub&Hlen&_).
  apply bind_Ok in Hrun as (s5&[[[batch2 st2] ccTxs] ccRs]&Hproc2&Hrun).
  apply processTransactions_Ok in Hproc2 as (Hb2&_&_&st0&->).
  apply bind_Ok in Hrun as (s6&[]&_&Hrun). apply bind_Ok in Hrun as (s7&copy&Hcopy&Hrun).
  unfold wrap, lift, populateOutboundCrossChainData in Hcopy.
  destruct (ExtractOutboundMessages rs) as [msgs|e|c]; try done. injection Hcopy as _ <-.
  destruct (adjustReceipts _ _) as [batch3 rs3] eqn:Hadj.
  apply adjustReceipts_spec in Hadj as (Hhash&Hh&Ht&Hlen3&Hbh); [|done]. injection Hrun as _ <-.
  rewrite Hb2, Hb1 in Hh.
  split; cbn [cb_Batch cb_Receipts cb_state]; try (rewrite Hh; done); [done|..].
  - rewrite Hh. apply commit_root.
  - rewrite Hh, Ht. cbn. unfold transactionsHash. destruct txs; [by rewrite DeriveSha_txs_nil|done].
  - by rewrite Ht.
  - by rewrite Ht, Hlen3.
  - done.
Qed.

Lemma ComputeBatch_Ok d tr fuel ctx s s' cb :
  db_ok d → parents_ok d → holds d tr s → ComputeBatch fuel ctx s = (s', Ok cb) →
  holds d tr s' ∧ ∃ ab, batches d !! ParentPtr ctx = Some ab ∧ computed ctx (ab_header ab) cb.
Proof.
  intros Hd Hp Hs Hrun. destruct (reads_again d tr _ _ _ _ (reads_ComputeBatch d tr Hd Hp fuel ctx) Hs Hrun) as [Hs' _].
  split; [done|]. unfold ComputeBatch in Hrun. apply bind_Ok in Hrun as (s1&rb&Hrb&Hrun).
  destruct (reads_FetchBlock d tr Hd (BlockPtr ctx) s s Hs Hs) as (Hs1&_&Hfb).
  unfold FetchBlock, storage_resolver in Hs1, Hfb. unfold try in Hrb.
  destruct (storage_FetchBlock (BlockPtr ctx) s) as [s1' [b|e|c]]; simplify_eq/=.
  2:{ by destruct (errors_Is e ErrNotFound). }
  destruct Hfb as (_&_&Hhash). apply bind_Ok in Hrun as (s2&rp&Hrp&Hrun).
  destruct (reads_FetchBatch d tr Hd (ParentPtr ctx) s1 s1 Hs1 Hs1) as (Hs2&_&Hfp). unfold try in Hrp.
  destruct (FetchBatch (ParentPtr ctx) s1) as [s2' [p|e|c]]; simplify_eq/=.
  2:{ by destruct (errors_Is e ErrNotFound). }
  destruct Hfp as (_&ab&Hab&->). exists ab. split; [done|].
  apply bind_Ok in Hrun as (s3&pb&_&Hrun). by eapply computeOn_Ok in Hrun.
Qed.

(** "Call with same BatchContext should always produce identical extBatch": on
    storages with the same content, whatever each has cached, [ComputeBatch] gives
    the same batch, receipts and state, or fails on both. *)
Theorem ComputeBatch_deterministic d tr fuel ctx (s1 s2 : Storage C) :
  db_ok d → parents_ok d → holds d tr s1 → holds d tr s2 →
  result_rel (=) (ComputeBatch fuel ctx s1).2 (ComputeBatch fuel ctx s2).2.
Proof. intros Hd Hp Hs1 Hs2. by destruct (reads_ComputeBatch d tr Hd Hp fuel ctx s1 s2 Hs1 Hs2) as (_&_&Hr). Qed.

(** C11: A batch that [ComputeBatch] returns extends the parent of its context at the
    next height, carries the time, sequence and L1 block of the context, commits to
    its state and its transactions, contains transactions of the context in their
    order, and has one receipt per transaction, pointing to the batch. *)
Theorem ComputeBatch_correct d tr fuel ctx s s' cb :
  db_ok d → parents_ok d → holds d tr s → ComputeBatch fuel ctx s = (s', Ok cb) →
  holds d tr s' ∧ ∃ ab, batches d !! ParentPtr ctx = Some ab ∧ computed ctx (ab_header ab) cb.
Proof. apply ComputeBatch_Ok. Qed.

Lemma Commit_computed ctx parent cb (s : Storage C) :
  computed ctx parent cb →
  Commit cb true s = (mkStorage C _ (s_db s) (s_cache s)
    (<[Root (Batch.Header (cb_Batch cb)) := cb_state cb]> (s_tries s)), Ok (Root (Batch.Header (cb_Batch cb)))).
Proof. intros Hc. unfold Commit, commitState. by rewrite (co_root _ _ _ Hc). Qed.

(** A batch as its sequencer publishes it: the computed one, signed. *)
Definition signed (r sg : headerInt) (b : Batch.t) : Batch.t :=
  Batch.mk (set_sig r sg (Batch.Header b)) None (Batch.Transactions b).

Lemma contextOf_signed d ctx ab cb r sg :
  db_ok d → batches d !! ParentPtr ctx = Some ab → computed ctx (ab_header ab) cb →
  Batch.Transactions (cb_Batch cb) = ctx_Transactions ctx → contextOf (signed r sg (cb_Batch cb)) = ctx.
Proof.
  intros Hd Hab Hc Htxs. unfold contextOf, signed. simpl. destruct ctx. simpl in *.
  rewrite (co_parent _ _ _ Hc), (co_proof _ _ _ Hc), (co_time _ _ _ Hc), (co_seq _ _ _ Hc), Htxs.
  by rewrite (batch_key d _ ab Hd Hab).
Qed.

(** A validator with the same content accepts the batch a sequencer computed and
    signed, when no transaction of the context was left out; it gets the same
    receipts and stores the state under the root of the batch, and nothing else. *)
Theorem ExecuteBatch_accepts d tr fuel ctx (s1 s1' s2 : Storage C) cb r sg :
  db_ok d → parents_ok d → holds d tr s1 → holds d tr s2 →
  ComputeBatch fuel ctx s1 = (s1', Ok cb) → Batch.Transactions (cb_Batch cb) = ctx_Transactions ctx →
  ∃ s2', ExecuteBatch fuel (signed r sg (cb_Batch cb)) s2 = (s2', Ok (cb_Receipts cb)) ∧
    holds d (<[Root (Batch.Header (cb_Batch cb)) := cb_state cb]> tr) s2'.
Proof.
  intros Hd Hp Hs1 Hs2 Hrun Htxs. destruct (ComputeBatch_Ok _ _ _ _ _ _ _ Hd Hp Hs1 Hrun) as (_&ab&Hab&Hc).
  destruct (reads_again d tr _ _ _ _ (reads_ComputeBatch d tr Hd Hp fuel ctx) Hs1 Hrun) as [_ Hagain].
  destruct (Hagain s2 Hs2) as [Hr2 Hs2']. unfold ExecuteBatch.
  rewrite (contextOf_signed d ctx ab cb r sg Hd Hab Hc Htxs). unfold mbind, M_bind, wrap.
  destruct (ComputeBatch fuel ctx s2) as [t r2]. simpl in Hr2, Hs2'. subst r2.
  rewrite bool_decide_false.
  2:{ intros Hne. apply Hne. by rewrite (co_hash _ _ _ Hc). }
  rewrite (Commit_computed _ _ _ t Hc). eexists. split; [done|]. destruct Hs2' as (<-&<-&Hcache). done.
Qed.

(** C10: A batch that [ExecuteBatch] accepts has, up to its signature, the header the
    validator recomputes from its transactions, so no field of it was tampered with;
    the recomputed state is stored under the root in the header, and the database
    is untouched. *)
Theorem ExecuteBatch_sound d tr fuel batch (s s' : Storage C) receipts :
  db_ok d → parents_ok d → holds d tr s → Batch.hash_ok batch →
  ExecuteBatch fuel batch s = (s', Ok receipts) →
  ∃ cb, (ComputeBatch fuel (contextOf batch) s).2 = Ok cb ∧ cb_Receipts cb = receipts ∧
    set_sig 0 0 (Batch.Header batch) = set_sig 0 0 (Batch.Header (cb_Batch cb)) ∧
    holds d (<[Root (Batch.Header batch) := cb_state cb]> tr) s'.
Proof.
  intros Hd Hp Hs Hb. unfold ExecuteBatch. intros (s1&cb&Hcomp&Hrun)%bind_Ok.
  assert (ComputeBatch fuel (contextOf batch) s = (s1, Ok cb)) as Hcomp'.
  { unfold wrap in Hcomp. by destruct (ComputeBatch _ _ s) as [? [?|?|?]]. }
  destruct (ComputeBatch_Ok _ _ _ _ _ _ _ Hd Hp Hs Hcomp') as (Hs1&ab&Hab&Hc).
  exists cb. rewrite Hcomp'. split; [done|]. case_bool_decide as Hhash; [done|].
  rewrite (co_hash _ _ _ Hc), Hb in Hhash. apply (inj rlpHash_batch) in Hhash.
  unfold mbind, M_bind, wrap in Hrun. rewrite (Commit_computed _ _ _ s1 Hc) in Hrun. injection Hrun as <- <-.
  assert (Root (Batch.Header (cb_Batch cb)) = Root (Batch.Header batch)) as Hroot by (by injection Hhash).
  split_and!; [done|done|]. rewrite <-Hroot. destruct Hs1 as (<-&<-&?). done.
Qed.
End spec.
