(* ===== verification/Growth.v ===== *)
(** * Storages that have grown

    A validator executes a batch on a storage that has more in it than the
    sequencer's had when it computed the batch: later L1 blocks, later batches,
    other flags.  A second relational logic, next to [Reads], for two storages
    where one extends the other: what succeeds on the smaller one succeeds on the
    larger one with the same result. *)

From S2P Require Import Prelude Types Codec L1Chain EnclaveDB BatchDB Events Storage StorageInv StorageOps StorageSpec CrossChain Reads Executor ExecutorSpec.

(** The L1 blocks [B], closed under parents, are in [d2] as in [d1], with their
    messages. *)
Record l1_history `{DBCodecs, Hashing} (B : Hash → Prop) (d1 d2 : DB) : Prop := {
  lh_block : ∀ h hd, B h → blocks d1 !! h = Some hd → blocks d2 !! h = Some hd;
  lh_parent : ∀ h hd, B h → blocks d1 !! h = Some hd → B (h_parent hd);
  lh_messages : ∀ h, B h → FetchL1Messages h d2 = FetchL1Messages h d1
}.

(** The batches [T], closed under parents, are stored in [d2] when they are in
    [d1], and so is the state of the batch [p]. *)
Record l2_history `{DBCodecs, Hashing, StateModel} (T : Hash → Prop) (p : Hash) (d1 : DB) (tr1 : gmap Hash EState)
    (d2 : DB) (tr2 : gmap Hash EState) : Prop := {
  th_batch : ∀ h, T h → is_Some (batches d1 !! h) ↔ is_Some (batches d2 !! h);
  th_parent : ∀ h ab, T h → batches d1 !! h = Some ab → T (ParentHash (ab_header ab));
  th_state : ∀ ab st, batches d1 !! p = Some ab → tr1 !! Root (ab_header ab) = Some st →
    tr2 !! Root (ab_header ab) = Some st
}.

(** The history of a batch with the parent [p], its L1 blocks [B] and its ancestors
    [T], is in both storages. *)
Record extends `{DBCodecs, Hashing, StateModel} (B T : Hash → Prop) (p : Hash) (d1 : DB) (tr1 : gmap Hash EState)
    (d2 : DB) (tr2 : gmap Hash EState) : Prop := {
  ext_l1 :> l1_history B d1 d2;
  ext_l2 :> l2_history T p d1 tr1 d2 tr2;
  ext_proof : ∀ h ab, T h → batches d1 !! h = Some ab → B (L1Proof (ab_header ab));
  ext_secret : FetchConfig masterSeedCfg d2 = FetchConfig masterSeedCfg d1
}.

(** Batches that differ in their signatures at most. *)
Definition same_unsigned (b1 b2 : Batch.t) : Prop :=
  set_sig 0 0 (Batch.Header b1) = set_sig 0 0 (Batch.Header b2).

Section grows.
Context {C : Type} `{CacheOk C, StateModel, StorageCodecsOk, HashingOk, MB : MessageBus}.
Context `{OW : !OwnerWallet, Keccak, EV : !EVM, EVOK : !EVMOk, CS : !Codec (list Z)}.
Context (B T : Hash → Prop) (par : Hash) (d1 d2 : DB) (tr1 tr2 : gmap Hash EState).
Context (Hd1 : db_ok d1) (Hd2 : db_ok d2) (Hp1 : parents_ok d1) (Hp2 : parents_ok d2).
Context (Hext : extends B T par d1 tr1 d2 tr2).
Implicit Types (s : Storage C).

Definition grows {X Y} (R : X → Y → Prop) (m1 : M (Storage C) X) (m2 : M (Storage C) Y) : Prop :=
  ∀ s1 s2 s1' a, holds d1 tr1 s1 → holds d2 tr2 s2 → m1 s1 = (s1', Ok a) →
  holds d1 tr1 s1' ∧ ∃ s2' b, m2 s2 = (s2', Ok b) ∧ holds d2 tr2 s2' ∧ R a b.

Lemma grows_ret {X Y} (R : X → Y → Prop) a b : R a b → grows R (mret a) (mret b).
Proof. intros Hab s1 s2 s1' a' Hs1 Hs2 [= <- <-]. split; [done|]. by exists s2, b. Qed.
Lemma grows_fail {X Y} (R : X → Y → Prop) e m : grows R (fail e) m.
Proof. by intros s1 s2 s1' a. Qed.
Lemma grows_crash {X Y} (R : X → Y → Prop) c m : grows R (crash c) m.
Proof. by intros s1 s2 s1' a. Qed.
Lemma grows_lift {A} (r : result A) : grows (=) (lift r) (lift r).
Proof. intros s1 s2 s1' a Hs1 Hs2 [= <- ->]. split; [done|]. by exists s2, a. Qed.

Lemma grows_bind {A1 A2 B1 B2} (R : A1 → A2 → Prop) (Q : B1 → B2 → Prop) m1 m2 f1 f2 :
  grows R m1 m2 → (∀ a b, R a b → grows Q (f1 a) (f2 b)) → grows Q (m1 ≫= f1) (m2 ≫= f2).
Proof.
  intros Hm Hf s1 s2 s1' c Hs1 Hs2 (t1&a&Ha&Hc)%bind_Ok.
  destruct (Hm s1 s2 t1 a Hs1 Hs2 Ha) as (Ht1&t2&b&Hb&Ht2&Hab).
  rewrite (bind_eq _ _ _ _ _ Hb). by apply (Hf a b Hab t1).
Qed.

Lemma grows_wrap {X Y} (R : X → Y → Prop) msg1 msg2 m1 m2 : grows R m1 m2 → grows R (wrap msg1 m1) (wrap msg2 m2).
Proof.
  intros Hm s1 s2 s1' a Hs1 Hs2 Hw. assert (m1 s1 = (s1', Ok a)) as Hrun.
  { unfold wrap in Hw. by destruct (m1 s1) as [? [?|?|?]]. }
  destruct (Hm s1 s2 s1' a Hs1 Hs2 Hrun) as (?&s2'&b&Hb&?&?). split; [done|].
  exists s2', b. unfold wrap. by rewrite Hb.
Qed.

(** A call whose errors end the computation. *)
Lemma grows_try {A1 A2 B1 B2} (R : A1 → A2 → Prop) (Q : B1 → B2 → Prop) m1 m2 f1 f2 :
  grows R m1 m2 → (∀ a b, R a b → grows Q (f1 (inl a)) (f2 (inl b))) →
  (∀ e s, ¬ is_ok (f1 (inr e) s).2) → grows Q (try m1 ≫= f1) (try m2 ≫= f2).
Proof.
  intros Hm Hf Herr s1 s2 s1' c Hs1 Hs2 (t1&a&Ha&Hc)%bind_Ok. unfold try in Ha.
  destruct (m1 s1) as [? [a'|e|?]] eqn:Hm1; simplify_eq.
  - destruct (Hm s1 s2 t1 a' Hs1 Hs2 Hm1) as (Ht1&t2&b&Hb&Ht2&Hab).
    rewrite (bind_eq (try m2) f2 s2 t2 (inl b)); [by apply (Hf a' b Hab t1)|]. unfold try. by rewrite Hb.
  - destruct (Herr e t1). by rewrite Hc.
Qed.

Lemma grows_gets_id {B1 B2} (Q : B1 → B2 → Prop) f1 f2 :
  (∀ s1 s2, holds d1 tr1 s1 → holds d2 tr2 s2 → grows Q (f1 s1) (f2 s2)) → grows Q (gets id ≫= f1) (gets id ≫= f2).
Proof. intros Hf s1 s2 s1' b Hs1 Hs2. unfold mbind, M_bind, gets, id. by apply Hf. Qed.

(** ** Reads of the storage *)

(** A block of the history: its parent is one too. *)
Definition stored_block (h : Hash) (b1 b2 : L1Block) : Prop :=
  same_header b1 b2 ∧ Block_Hash b1 = h ∧ B (Block_ParentHash b1).

Lemma grows_FetchBlock h : B h → grows (stored_block h) (storage_FetchBlock h) (storage_FetchBlock h).
Proof.
  intros HB s1 s2 s1' b1 Hs1 Hs2 Hrun.
  destruct (reads_FetchBlock d1 tr1 Hd1 h s1 s1 Hs1 Hs1) as (Ht1&_&Hr1).
  unfold FetchBlock, storage_resolver in Ht1, Hr1. rewrite Hrun in Ht1, Hr1. destruct Hr1 as (_&Hb1&Hh).
  split; [done|]. destruct (storage_FetchBlock_spec s2 h (holds_ok d2 tr2 Hd2 _ Hs2)) as (Hok2&Hsame2&Hr2).
  pose proof (holds_same d2 tr2 s2 _ Hs2 Hok2 Hsame2) as Ht2. rewrite (proj1 Hs2) in Hr2.
  rewrite (lh_block _ _ _ Hext h _ HB Hb1) in Hr2. destruct Hr2 as (b2&Hb2&Heq).
  exists (storage_FetchBlock h s2).1, b2. split_and!; [|done|].
  - rewrite <-Hb2. by destruct (storage_FetchBlock h s2).
  - split_and!; [done|done|]. by apply (lh_parent _ _ _ Hext h).
Qed.

(** Batches under the same hash differ in their signatures at most. *)
Lemma same_key h ab1 ab2 : batches d1 !! h = Some ab1 → batches d2 !! h = Some ab2 →
  same_unsigned (ab_batch ab1) (ab_batch ab2).
Proof.
  intros H1'%(batch_key d1); [|done]. intros H2'%(batch_key d2); [|done].
  rewrite <-H2' in H1'. by apply (inj rlpHash_batch) in H1'.
Qed.

Lemma both_store h ab : T h → batches d1 !! h = Some ab →
  ∃ ab', batches d2 !! h = Some ab' ∧ same_unsigned (ab_batch ab) (ab_batch ab').
Proof.
  intros HT Hab. destruct (proj1 (th_batch _ _ _ _ _ _ Hext h HT) (ex_intro _ ab Hab)) as [ab' Hab'].
  exists ab'. split; [done|]. by apply (same_key h).
Qed.

Lemma unsigned_fields b1 b2 : same_unsigned b1 b2 →
  Root (Batch.Header b1) = Root (Batch.Header b2) ∧ ParentHash (Batch.Header b1) = ParentHash (Batch.Header b2) ∧
  Number (Batch.Header b1) = Number (Batch.Header b2) ∧ L1Proof (Batch.Header b1) = L1Proof (Batch.Header b2) ∧
  ∀ sec, CreateEthHeaderForBatch (Batch.Header b1) sec = CreateEthHeaderForBatch (Batch.Header b2) sec.
Proof.
  unfold same_unsigned, CreateEthHeaderForBatch. destruct (Batch.Header b1), (Batch.Header b2). cbn. intros [=]. subst. by split_and!.
Qed.

Definition stored_batch (h : Hash) (b1 b2 : Batch.t) : Prop :=
  same_unsigned b1 b2 ∧ ∃ ab, batches d1 !! h = Some ab ∧ b1 = ab_batch ab.

Lemma grows_FetchBatch h : T h → grows (stored_batch h) (FetchBatch h) (FetchBatch h).
Proof.
  intros HT s1 s2 s1' b1 Hs1 Hs2 Hrun.
  destruct (reads_FetchBatch d1 tr1 Hd1 h s1 s1 Hs1 Hs1) as (Ht1&_&Hr1). rewrite Hrun in Ht1, Hr1.
  destruct Hr1 as (_&ab&Hab&->). split; [done|].
  destruct (FetchBatch_spec s2 h (holds_ok d2 tr2 Hd2 _ Hs2)) as (Hok2&Hsame2&Hr2).
  pose proof (holds_same d2 tr2 s2 _ Hs2 Hok2 Hsame2) as Ht2. rewrite (proj1 Hs2) in Hr2.
  destruct (both_store h ab HT Hab) as (ab'&Hab'&Heq). rewrite Hab' in Hr2.
  exists (FetchBatch h s2).1, (ab_batch ab'). split_and!; [|done|].
  - rewrite <-Hr2. by destruct (FetchBatch h s2).
  - split; [done|]. by exists ab.
Qed.

Lemma grows_CreateStateDB : T par → grows (=) (CreateStateDB par) (CreateStateDB par).
Proof.
  intros HT. unfold CreateStateDB. eapply grows_bind; [by apply grows_FetchBatch|].
  intros b1 b2 [(HR&_)%unsigned_fields (ab&Hab&->)]. rewrite <-HR.
  apply grows_gets_id. intros s1 s2 (_&->&_) (_&->&_) t1 t2 t1' st Ht1 Ht2. unfold lift.
  destruct (tr1 !! _) as [st'|] eqn:Hst; [|done]. intros [= <- <-]. split; [done|].
  pose proof (th_state _ _ _ _ _ _ Hext ab st' Hab Hst) as Hst2. cbn [ab_batch Batch.Header]. rewrite Hst2. by exists t2, st'.
Qed.

Lemma grows_secret : grows (=) (secret (C:=C)) secret.
Proof.
  intros s1 s2 s1' sec Hs1 Hs2. unfold secret, FetchSecret, query, mbind, M_bind, try, lift.
  rewrite (proj1 Hs1), (proj1 Hs2), (ext_secret _ _ _ _ _ _ _ Hext).
  destruct (FetchConfig masterSeedCfg d1) as [cfg|e|c]; [|done..].
  destruct (rlp_decode cfg) as [v|]; [|done]. intros [= <- <-]. split; [done|]. by exists s2, v.
Qed.

(** ** Walks along the L1 chain *)

Lemma grows_IsAncestor fuel : ∀ b1 b2 a1 a2 s1 s2 s1', same_header b1 b2 → same_header a1 a2 →
  B (Block_ParentHash b1) → holds d1 tr1 s1 → holds d2 tr2 s2 → IsAncestor fuel b1 a1 s1 = (s1', Ok true) →
  holds d1 tr1 s1' ∧ ∃ s2', IsAncestor fuel b2 a2 s2 = (s2', Ok true) ∧ holds d2 tr2 s2'.
Proof.
  induction fuel as [|fuel IH]; intros b1 b2 a1 a2 s1 s2 s1' Hb Ha HB Hs1 Hs2; cbn [IsAncestor]; [done|].
  unfold Block_Hash, Block_NumberU64, Block_ParentHash in *. rewrite <-Hb, <-Ha.
  case_bool_decide; [intros [= <-]; eauto|]. case_match; [done|].
  intros (t1&p&Hp&Hrun)%bind_Ok. unfold try in Hp.
  destruct (FetchBlock (h_parent (b_header b1)) s1) as [? [p1|e|?]] eqn:Hf; simplify_eq.
  destruct (grows_FetchBlock _ HB _ _ _ _ Hs1 Hs2 Hf) as (Ht1&t2&p2&Hfp&Ht2&Hpp&_&HBp).
  destruct (IH p1 p2 a1 a2 t1 t2 s1' Hpp Ha HBp Ht1 Ht2 Hrun) as (?&s2'&Hrun2&?).
  split; [done|]. exists s2'. split; [|done].
  rewrite (bind_eq _ _ s2 t2 (inl p2)); [done|]. unfold try, FetchBlock, storage_resolver. by rewrite Hfp.
Qed.

Lemma grows_GetL1Messages h : B h → grows (=) (GetL1Messages (C:=C) h) (GetL1Messages h).
Proof.
  intros Hh s1 s2 s1' ms Hs1 Hs2. unfold GetL1Messages, query. rewrite (proj1 Hs1), (proj1 Hs2).
  rewrite (lh_messages _ _ _ Hext h Hh). intros [= <- ->]. split; [done|]. by exists s2, ms.
Qed.

Lemma grows_inboundLoop fuel from height : ∀ b1 b2 acc,
  same_header b1 b2 → B (Block_Hash b1) → B (Block_ParentHash b1) →
  grows (=) (inboundLoop (C:=C) fuel from height b1 acc) (inboundLoop fuel from height b2 acc).
Proof.
  induction fuel as [|fuel IH]; intros b1 b2 acc Hb HB HBp; cbn [inboundLoop]; [apply grows_crash|].
  unfold Block_Hash, Block_NumberU64, Block_ParentHash in *. rewrite <-Hb.
  case_bool_decide; [by apply grows_ret|].
  eapply grows_try; [by apply grows_GetL1Messages| |intros e s Hok; exact Hok].
  intros ms ? <-. case_match; [apply grows_crash|].
  eapply grows_try; [by apply grows_FetchBlock| |intros e s Hok; exact Hok].
  intros p1 p2 (Hp&Hph&HBpp). apply IH; [done| |done]. unfold Block_Hash in Hph. by rewrite Hph.
Qed.

Lemma grows_RetrieveInboundMessages fuel b1 b2 a1 a2 :
  same_header b1 b2 → same_header a1 a2 → B (Block_Hash b1) → B (Block_ParentHash b1) →
  grows (=) (RetrieveInboundMessages (C:=C) fuel a1 b1) (RetrieveInboundMessages fuel a2 b2).
Proof.
  intros Hb Ha HB HBp s1 s2 s1' ms Hs1 Hs2. unfold RetrieveInboundMessages.
  intros (t1&[]&Hanc&Hrun)%bind_Ok; simpl in Hrun; [|done].
  destruct (grows_IsAncestor fuel b1 b2 a1 a2 s1 s2 t1 Hb Ha HBp Hs1 Hs2 Hanc) as (Ht1&t2&Hanc2&Ht2).
  rewrite (bind_eq _ _ _ _ _ Hanc2). simpl. unfold Block_Hash, Block_NumberU64 in *. rewrite <-Ha.
  by apply (grows_inboundLoop _ _ _ b1 b2 [] Hb HB HBp t1 t2).
Qed.

(** ** Execution *)

Lemma not_block d h ab : db_ok d → batches d !! h = Some ab → blocks d !! h = None.
Proof. intros Hd. by apply batch_not_block. Qed.

(** A hash of the history names no block, in either storage. *)
Lemma grows_chain s1 s2 h : holds d1 tr1 s1 → holds d2 tr2 s2 → T h →
  blocks d1 !! h = None → blocks d2 !! h = None → chainOf s1 h = chainOf s2 h.
Proof.
  intros Hs1 Hs2 HT Hb1 Hb2. unfold chainOf, GetHeader, mbind, M_bind, try.
  destruct (FetchBatch_spec s1 h (holds_ok d1 tr1 Hd1 _ Hs1)) as (Hok1&Hsame1&Hr1).
  destruct (FetchBatch_spec s2 h (holds_ok d2 tr2 Hd2 _ Hs2)) as (Hok2&Hsame2&Hr2).
  pose proof (holds_same d1 tr1 s1 _ Hs1 Hok1 Hsame1) as Ht1. pose proof (holds_same d2 tr2 s2 _ Hs2 Hok2 Hsame2) as Ht2.
  rewrite (proj1 Hs1), Hb1 in Hr1. rewrite (proj1 Hs2), Hb2 in Hr2.
  destruct (FetchBatch h s1) as [t1 r1], (FetchBatch h s2) as [t2 r2]. simpl in *.
  destruct (batches d1 !! h) as [ab|] eqn:Hab.
  - destruct (both_store h ab HT Hab) as (ab'&Hab'&(_&_&_&_&Heq)%unsigned_fields). rewrite Hab' in Hr2.
    subst r1 r2. cbv beta iota. unfold secret, FetchSecret, query, mbind, M_bind, try, lift.
    rewrite (proj1 Ht1), (proj1 Ht2), (ext_secret _ _ _ _ _ _ _ Hext).
    destruct (FetchConfig masterSeedCfg d1) as [cfg|e|c]; simpl; [|done..].
    destruct (rlp_decode cfg); simpl; [|done]. by rewrite Heq.
  - destruct (batches d2 !! h) as [ab2|] eqn:Hab2.
    { destruct (proj2 (th_batch _ _ _ _ _ _ Hext h HT)) as [ab1 Hab1]; [by eexists|]. congruence. }
    destruct Hr1 as (e1&->&He1), Hr2 as (e2&->&He2). by rewrite He1, He2.
Qed.

(** The header of a batch under execution: its parent is stored. *)
Definition on_chain (parent : Hash) : Prop := T parent ∧ is_Some (batches d1 !! parent).

Lemma on_chain_not_block p : on_chain p → blocks d1 !! p = None ∧ blocks d2 !! p = None.
Proof.
  intros [HT [ab Hab]]. destruct (both_store p ab HT Hab) as (ab'&Hab'&_).
  split; [by eapply (not_block d1)|by eapply (not_block d2)].
Qed.

Lemma grows_asked s1 s2 hd h : holds d1 tr1 s1 → holds d2 tr2 s2 → on_chain (eh_ParentHash hd) →
  asked (chainOf s1) hd h → T h ∧ chainOf s1 h = chainOf s2 h.
Proof.
  intros Hs1 Hs2 Hhd Hask. induction Hask as [|h hd' Hask [HT _] Hch].
  - destruct (on_chain_not_block _ Hhd), Hhd as [HT _]. split; [done|]. by apply grows_chain.
  - destruct (chainOf_batch d1 tr1 Hd1 s1 h hd' Hs1 Hch) as (ab&Hab&->).
    destruct (both_store h ab HT Hab) as (ab'&Hab'&(_&Heq&_)%unsigned_fields).
    pose proof (th_parent _ _ _ _ _ _ Hext h ab HT Hab) as HTp. split; [done|].
    apply grows_chain; [done..|by apply (Hp1 h)|]. cbn in Heq. rewrite Heq. by apply (Hp2 h).
Qed.

Lemma grows_executeLoop s1 s2 hd hash height txs : holds d1 tr1 s1 → holds d2 tr2 s2 →
  on_chain (eh_ParentHash hd) → ∀ n st gas res,
  executeLoop (chainOf s1) hd hash height txs n st gas res = executeLoop (chainOf s2) hd hash height txs n st gas res.
Proof.
  intros Hs1 Hs2 Hhd. induction txs as [|tx txs IH]; intros n st gas res; cbn [executeLoop]; [done|].
  assert (∀ v st, ApplyTransaction (chainOf s1) (set_MixDigest v hd) tx st =
                  ApplyTransaction (chainOf s2) (set_MixDigest v hd) tx st) as Happ.
  { intros v st'. apply chain_asked. intros h Hask. by apply (grows_asked s1 s2 (set_MixDigest v hd)). }
  unfold executeTransaction. destruct (LatestSender tx); [|apply IH]. rewrite Happ.
  by destruct (ApplyTransaction _ _ _ _) as [[st' gas'] [r|e|c]].
Qed.

Lemma grows_processTransactions batch n txs st : on_chain (ParentHash (Batch.Header batch)) →
  grows (λ p q, p = q ∧ Batch.Header p.1.1.1 = Batch.Header batch)
    (processTransactions (C:=C) batch n txs st) (processTransactions batch n txs st).
Proof.
  intros Hb. unfold processTransactions, ExecuteTransactions. eapply (grows_bind (=)).
  - eapply grows_bind; [apply grows_secret|]. intros sec ? <-. apply grows_gets_id. intros s1 s2 Hs1 Hs2.
    rewrite (grows_executeLoop s1 s2) by done.
    eapply grows_bind; [apply grows_lift|]. intros [st' res] ? <-. by apply grows_ret.
  - intros [st' res] ? <-. eapply grows_bind; [apply grows_lift|].
    intros [[ex rs] excl] ? <-. apply grows_ret. split; [done|]. simpl. destruct excl; [|done].
    unfold Batch.Hash. by destruct (Batch.hash batch).
Qed.

Lemma grows_computeOn fuel ctx b1 b2 pt1 pt2 p1 p2 :
  same_header b1 b2 → same_header p1 p2 → B (Block_Hash b1) → B (Block_ParentHash b1) →
  same_unsigned pt1 pt2 → on_chain par → BatchHeader_Hash (Batch.Header pt1) = par →
  grows (=) (computeOn (C:=C) fuel ctx b1 pt1 p1) (computeOn fuel ctx b2 pt2 p2).
Proof.
  intros Hb Hpb HB HBp Hpt Hpar Hp. unfold computeOn, Batch.DeterministicEmptyBatch, populateOutboundCrossChainData.
  assert (BatchHeader_Hash (Batch.Header pt2) = BatchHeader_Hash (Batch.Header pt1)) as ->.
  { unfold BatchHeader_Hash. by rewrite Hpt. }
  destruct (unsigned_fields _ _ Hpt) as (_&_&<-&_).
  assert (Block_Hash b2 = Block_Hash b1) as -> by (unfold Block_Hash; by rewrite Hb).
  rewrite <-Hb, Hp. cbn [Batch.Header ParentHash].
  eapply grows_bind; [by apply grows_wrap, grows_CreateStateDB; destruct Hpar|]. intros st ? <-.
  eapply (grows_bind (=)).
  { case_match; [by apply grows_RetrieveInboundMessages|by apply grows_ret]. }
  intros messages ? <-. eapply grows_bind; [apply grows_lift|]. intros cc ? <-.
  eapply grows_bind; [by apply grows_wrap, grows_processTransactions|].
  intros [[[batch st1] txs] rs] ? [<- Hbatch]. simpl in Hbatch.
  eapply grows_bind; [apply grows_processTransactions; by rewrite Hbatch|].
  intros [[[batch2 st2] ccTxs] ccRs] ? [<- Hbatch2].
  eapply grows_bind; [apply grows_wrap, grows_lift|]. intros _ _ _.
  eapply grows_bind; [apply grows_wrap, grows_lift|]. intros copy ? <-.
  destruct (adjustReceipts _ _). by apply grows_ret.
Qed.

Lemma grows_ComputeBatch fuel ctx : B (BlockPtr ctx) → T par → ParentPtr ctx = par →
  grows (=) (ComputeBatch (C:=C) fuel ctx) (ComputeBatch fuel ctx).
Proof.
  intros HB HT Hctx. unfold ComputeBatch. rewrite Hctx. eapply grows_try; [by apply grows_FetchBlock| |].
  2:{ intros e s. destruct (errors_Is e _); intros Hok; exact Hok. }
  intros b1 b2 (Hb&Hh&HBp). eapply grows_try; [by apply grows_FetchBatch| |].
  2:{ intros e s. destruct (errors_Is e _); intros Hok; exact Hok. }
  intros p p2 [Hpt (ab&Hab&->)]. destruct (unsigned_fields _ _ Hpt) as (_&_&_&<-&_).
  assert (Block_Hash b1 = Block_Hash b2) as Hhash by (unfold Block_Hash; by rewrite Hb).
  eapply (grows_bind same_header).
  - rewrite <-Hhash. case_bool_decide; [|by apply grows_ret].
    intros s1 s2 s1' pb Hs1 Hs2 Hrun.
    destruct (grows_FetchBlock _ (ext_proof _ _ _ _ _ _ _ Hext _ ab HT Hab) _ _ _ _ Hs1 Hs2 Hrun) as (?&s2'&pb2&?&?&?&_).
    eauto 6.
  - intros pb1 pb2 Hpb. apply grows_computeOn; [done|done|by rewrite Hh|done|done|split; [done|by exists ab]|].
    cbn [ab_batch Batch.Header]. by rewrite (batch_key d1 _ ab Hd1 Hab).
Qed.
End grows.

Section acceptance.
Context {C : Type} `{CacheOk C, StateModel, StorageCodecsOk, HashingOk, MB : MessageBus}.
Context `{OW : !OwnerWallet, Keccak, EV : !EVM, EVOK : !EVMOk, CS : !Codec (list Z)}.

(** C9: A validator accepts the batch a sequencer computed and signed, when no
    transaction was left out: the validator may have stored more L1 blocks, more
    batches and other states since, and need only share the history of the batch, its
    L1 blocks [B] and its ancestors [T], and have the state of its parent.  It gets the same receipts, stores the state
    under the root of the batch, and nothing else. *)
Theorem ExecuteBatch_accepts_history B T d1 tr1 d2 tr2 fuel ctx (s1 s1' s2 : Storage C) cb r sg :
  db_ok d1 → db_ok d2 → parents_ok d1 → parents_ok d2 → extends B T (ParentPtr ctx) d1 tr1 d2 tr2 →
  B (BlockPtr ctx) → T (ParentPtr ctx) → holds d1 tr1 s1 → holds d2 tr2 s2 →
  ComputeBatch fuel ctx s1 = (s1', Ok cb) → Batch.Transactions (cb_Batch cb) = ctx_Transactions ctx →
  ∃ s2', ExecuteBatch fuel (signed r sg (cb_Batch cb)) s2 = (s2', Ok (cb_Receipts cb)) ∧
    holds d2 (<[Root (Batch.Header (cb_Batch cb)) := cb_state cb]> tr2) s2'.
Proof.
  intros Hd1 Hd2 Hp1 Hp2 Hext HB HT Hs1 Hs2 Hrun Htxs.
  destruct (ComputeBatch_Ok _ _ _ _ _ _ _ Hd1 Hp1 Hs1 Hrun) as (_&ab&Hab&Hc).
  destruct (grows_ComputeBatch B T _ d1 d2 tr1 tr2 Hd1 Hd2 Hp1 Hp2 Hext fuel ctx HB HT eq_refl s1 s2 s1' cb Hs1 Hs2 Hrun)
    as (_&t&cb'&Hrun2&Ht&<-).
  unfold ExecuteBatch. rewrite (contextOf_signed d1 ctx ab cb r sg Hd1 Hab Hc Htxs). unfold mbind, M_bind, wrap.
  rewrite Hrun2, bool_decide_false.
  2:{ intros Hne. apply Hne. by rewrite (co_hash _ _ _ Hc). }
  rewrite (Commit_computed _ _ _ t Hc). eexists. split; [done|]. destruct Ht as (<-&<-&Hcache). done.
Qed.
End acceptance.
