(* ===== verification/Mempool.v ===== *)
(** * The mempool and the size limiters

    [go/enclave/limiters] and [go/enclave/mempool]: the transactions waiting for
    a batch, and the selection of those that go into the next one. *)

From S2P Require Import Prelude Types Codec.

(** ** Limiters *)

(** [limiters.BatchSizeLimiter] *)
Class BatchSizeLimiter (L : Type) := AcceptTransaction : L2Tx → M L unit.

Section limiters.
Local Open Scope Z_scope.
Context `{Codec L2Tx}.

Definition getRlpSize `{Codec A} (val : A) : result Z :=
  enc ← EncodeToBytes val; Ok (Z.of_nat (length enc)).

(** The state of a limiter is the size that remains. *)
Record batchSizeLimiter := mkBatchSizeLimiter { remainingSize : Z }.

Definition NewBatchSizeLimiter (size : Z) : batchSizeLimiter := mkBatchSizeLimiter size.

#[global] Instance batchSizeLimiter_accept : BatchSizeLimiter batchSizeLimiter := λ tx,
  rlpSize ← lift (getRlpSize tx);
  l ← gets id;
  if remainingSize l <? rlpSize then fail ErrInsufficientSpace
  else modify (λ l, mkBatchSizeLimiter (Int.u64 (remainingSize l - rlpSize))).

Record unlimitedBatchSize := mkUnlimited {}.
#[global] Instance unlimited_accept : BatchSizeLimiter unlimitedBatchSize := λ _, mret tt.

(** [limiters.RollupLimiter] *)
Record rollupLimiter := mkRollupLimiter { rollupRemaining : Z }.

Definition NewRollupLimiter (size : Z) : rollupLimiter := mkRollupLimiter size.

Definition AcceptBatch `{Codec A} (encodable : A) : M rollupLimiter bool :=
  r ← try (lift (EncodeToBytes encodable));
  match r with
  | inr e => fail (ErrWrap "failed to encode data" ErrFailedToEncode)
  | inl encodedData =>
      let encodedSize := Z.of_nat (length encodedData) in
      rl ← gets id;
      if rollupRemaining rl <? encodedSize then mret false
      else _ ← modify (λ rl, mkRollupLimiter (Int.u64 (rollupRemaining rl - encodedSize))); mret true
  end.
End limiters.

(** ** The nonce tracker *)

Module NonceTracker.
Abbreviation t := (gmap Address Z).

Section tracker.
Context `{StateModel}.

(** The nonce of an account, read from the state on the first call. *)
Definition GetNonce (st : EState) (nt : t) (address : Address) : t * Z :=
  match nt !! address with
  | Some nonce => (nt, nonce)
  | None => let nonce := Types.GetNonce st address in (<[address := nonce]> nt, nonce)
  end.

(** Go's map yields zero for a missing key. *)
Definition IncrementNonce (nt : t) (address : Address) : t :=
  <[address := Int.u64 (default 0%Z (nt !! address) + 1)]> nt.

(** The nonce the tracker would answer. *)
Definition nonceOf (st : EState) (nt : t) (address : Address) : Z :=
  default (Types.GetNonce st address) (nt !! address).
End tracker.
End NonceTracker.

(** ** The mempool *)

Module Mempool.
Abbreviation t := (gmap Hash L2Tx).

Section mempool.
Local Open Scope Z_scope.
Context `{StateModel}.
(** [core.GetAuthenticatedSender] for the chain of the mempool. *)
Context (AuthSender : L2Tx → option Address).

Definition AddMempoolTx (tx : L2Tx) : M t unit :=
  match AuthSender tx with
  | None => fail (ErrMsg "invalid sender")
  | Some _ => modify (<[tx_hash tx := tx]>)
  end.

(** The order in which Go iterates over a map is not specified: [txes] is any
    permutation of the values. *)
Definition FetchMempoolTxs (db : t) (txes : list L2Tx) : Prop := txes ≡ₚ (map_to_list db).*2.

Fixpoint removeAll (transactions : list L2Tx) (db : t) : t :=
  match transactions with
  | [] => db
  | tx :: transactions => removeAll transactions (delete (tx_hash tx) db)
  end.
Definition RemoveTxs (transactions : list L2Tx) : M t unit := modify (removeAll transactions).

Definition by_nonce (tx1 tx2 : L2Tx) : Prop := tx_nonce tx1 ≤ tx_nonce tx2.
#[global] Instance by_nonce_dec : RelDecision by_nonce.
Proof. intros tx1 tx2. unfold by_nonce. apply _. Defined.
#[global] Instance by_nonce_trans : Transitive by_nonce.
Proof. intros x y z. unfold by_nonce. lia. Qed.
#[global] Instance by_nonce_total : Total by_nonce.
Proof. intros x y. unfold by_nonce. lia. Qed.

Context {L : Type} `{BatchSizeLimiter L}.

(** The loop over the sorted transactions. *)
Fixpoint selectTxs (st : EState) (txes : list L2Tx) (nonceTracker : NonceTracker.t)
    (applicable : list L2Tx) : M L (list L2Tx) :=
  match txes with
  | [] => mret applicable
  | tx :: txes =>
      match AuthSender tx with
      | None => selectTxs st txes nonceTracker applicable
      | Some sender =>
          let '(nonceTracker, nonce) := NonceTracker.GetNonce st nonceTracker sender in
          if bool_decide (tx_nonce tx ≠ nonce) then selectTxs st txes nonceTracker applicable
          else
            r ← try (AcceptTransaction tx);
            match r with
            | inr err => if errors_Is err ErrInsufficientSpace then mret applicable else fail err
            | inl _ => selectTxs st txes (NonceTracker.IncrementNonce nonceTracker sender) (applicable ++ [tx])
            end
      end
  end.

(** [sort.Sort] is not stable: any order of equal nonces comes from some order
    of the iteration. *)
Definition CurrentTxs (st : EState) (txes : list L2Tx) : M L (list L2Tx) :=
  selectTxs st (merge_sort by_nonce txes) ∅ [].

(** ** Correctness *)

(** The transactions of an account, in order. *)
Definition from (a : Address) (txs : list L2Tx) : list L2Tx := filter (λ tx, AuthSender tx = Some a) txs.

(** The selected transactions of each account have its next nonces, without
    gaps. *)
Definition contiguous (st : EState) (txs : list L2Tx) : Prop :=
  ∀ a i tx, from a txs !! i = Some tx → tx_nonce tx = Int.u64 (GetNonce st a + Z.of_nat i).

(** The tracker is where the selection left it. *)
Definition tracks (st : EState) (nt : NonceTracker.t) (txs : list L2Tx) : Prop :=
  ∀ a, NonceTracker.nonceOf st nt a = Int.u64 (GetNonce st a + Z.of_nat (length (from a txs))).

Lemma tracker_get st nt a :
  (NonceTracker.GetNonce st nt a).2 = NonceTracker.nonceOf st nt a ∧
  (∀ b, NonceTracker.nonceOf st (NonceTracker.GetNonce st nt a).1 b = NonceTracker.nonceOf st nt b) ∧
  (NonceTracker.GetNonce st nt a).1 !! a = Some (NonceTracker.nonceOf st nt a).
Proof.
  unfold NonceTracker.GetNonce, NonceTracker.nonceOf. destruct (nt !! a) as [n|] eqn:E; simpl; [by rewrite E|].
  split; [done|]. split; [|by rewrite lookup_insert_eq]. intros b.
  destruct (decide (a = b)) as [<-|Hne]; [by rewrite lookup_insert_eq, E|by rewrite lookup_insert_ne].
Qed.

Lemma from_snoc a txs tx :
  from a (txs ++ [tx]) = from a txs ++ (if bool_decide (AuthSender tx = Some a) then [tx] else []).
Proof.
  unfold from. rewrite filter_app, filter_cons, filter_nil. case_decide; case_bool_decide; done.
Qed.

Lemma tracks_increment st nt txs tx a :
  AuthSender tx = Some a → tracks st nt txs → nt !! a = Some (NonceTracker.nonceOf st nt a) →
  tracks st (NonceTracker.IncrementNonce nt a) (txs ++ [tx]).
Proof.
  intros Hs Ht Ha b. unfold NonceTracker.nonceOf, NonceTracker.IncrementNonce. rewrite from_snoc, Hs.
  specialize (Ht b). unfold NonceTracker.nonceOf in Ht, Ha.
  destruct (decide (a = b)) as [<-|Hne].
  - rewrite lookup_insert_eq, bool_decide_true, length_app by done. simpl. rewrite Ha in *. simpl in *. rewrite Ht.
    unfold Int.u64. rewrite Zplus_mod_idemp_l. f_equal. lia.
  - rewrite lookup_insert_ne, bool_decide_false, app_nil_r by congruence. done.
Qed.

Lemma contiguous_snoc st nt txs tx a :
  AuthSender tx = Some a → contiguous st txs → tracks st nt txs →
  tx_nonce tx = NonceTracker.nonceOf st nt a → contiguous st (txs ++ [tx]).
Proof.
  intros Hs Hc Ht Hn b i tx'. rewrite from_snoc, Hs. case_bool_decide as Hab; [|rewrite app_nil_r; apply Hc].
  injection Hab as <-. rewrite lookup_app. destruct (from a txs !! i) as [t|] eqn:Hi; [intros [= <-]; by apply Hc|].
  rewrite list_lookup_singleton_Some. intros [Hlen <-]. rewrite Hn, (Ht a). do 3 f_equal.
  apply lookup_ge_None in Hi. lia.
Qed.

(** One step of the loop keeps the selection contiguous and a sublist of what
    was offered, whatever the limiter answers. *)
Lemma selectTxs_safe st txes : ∀ nt acc l l' res,
  tracks st nt acc → contiguous st acc → selectTxs st txes nt acc l = (l', Ok res) →
  contiguous st res ∧ ∃ sel, res = acc ++ sel ∧ sel `sublist_of` txes ∧ Forall (λ tx, is_Some (AuthSender tx)) sel.
Proof.
  induction txes as [|tx txes IH]; intros nt acc l l' res Ht Hc Hrun; cbn [selectTxs] in Hrun.
  { m_simpl. simplify_eq. split; [done|]. exists []. rewrite app_nil_r. auto using sublist_nil. }
  assert (∀ nt, tracks st nt acc → selectTxs st txes nt acc l = (l', Ok res) →
    contiguous st res ∧ ∃ sel, res = acc ++ sel ∧ sel `sublist_of` tx :: txes ∧
      Forall (λ tx, is_Some (AuthSender tx)) sel) as Hskip.
  { intros nt' Ht' Hrun'. destruct (IH _ _ _ _ _ Ht' Hc Hrun') as (?&sel&?&?&?).
    split; [done|]. exists sel. split_and!; [done|by apply sublist_cons|done]. }
  destruct (AuthSender tx) as [a|] eqn:Hs; [|by apply (Hskip nt)].
  destruct (tracker_get st nt a) as (Hn&Hsame&Ha). destruct (NonceTracker.GetNonce st nt a) as [nt1 n].
  simpl in Hn, Hsame, Ha. subst n.
  assert (tracks st nt1 acc) as Ht1 by (intros b; rewrite Hsame; apply Ht).
  case_bool_decide as Hnonce; [by apply (Hskip nt1)|].
  unfold mbind, M_bind, try in Hrun. destruct (AcceptTransaction tx l) as [l1 [[]|e|c]] eqn:Hacc; [| |done].
  - destruct (IH _ _ _ _ _ (tracks_increment _ _ _ _ _ Hs Ht1 ltac:(by rewrite Hsame))
      (contiguous_snoc _ _ _ _ _ Hs Hc Ht Hnonce) Hrun) as (?&sel&->&?&?).
    split; [done|]. exists (tx :: sel). rewrite <-app_assoc.
    split_and!; [done|by apply sublist_skip|]. constructor; [by rewrite Hs|done].
  - destruct (errors_Is e ErrInsufficientSpace); m_simpl; simplify_eq. split; [done|].
    exists []. rewrite app_nil_r. split_and!; [done|apply sublist_nil_l|constructor].
Qed.

Lemma tracks_empty st : (∀ a, Int.is_u64 (GetNonce st a)) → tracks st ∅ [].
Proof.
  intros Hst a. unfold NonceTracker.nonceOf. rewrite lookup_empty. simpl.
  rewrite Z.add_0_r, Int.u64_id; [done|apply Hst].
Qed.

(** Whoever the limiter admits, an account that offers all its nonces up to
    [n] gets the one with nonce [n] selected. *)
Definition offers (st : EState) (txes : list L2Tx) (a : Address) (n : Z) : Prop :=
  ∀ m, GetNonce st a ≤ m ≤ n → ∃ tx, tx ∈ txes ∧ AuthSender tx = Some a ∧ tx_nonce tx = m.

Lemma contiguous_nonce st acc a n :
  contiguous st acc → GetNonce st a ≤ n < GetNonce st a + Z.of_nat (length (from a acc)) →
  0 ≤ GetNonce st a → n < Int.two64 →
  ∃ tx, tx ∈ acc ∧ AuthSender tx = Some a ∧ tx_nonce tx = n.
Proof.
  intros Hc Hn Hlo Hhi.
  destruct (lookup_lt_is_Some_2 (from a acc) (Z.to_nat (n - GetNonce st a))) as [tx Htx]; [lia|].
  exists tx. pose proof (Hc _ _ _ Htx) as Hnonce. apply list_elem_of_lookup_2 in Htx.
  apply list_elem_of_filter in Htx as [Hs Hin]. split_and!; [done|done|].
  rewrite Hnonce, Int.u64_id; unfold Int.is_u64; lia.
Qed.

(** While the loop runs over sorted transactions, what an account still offers
    above its tracked nonce is ahead. *)
Lemma selectTxs_complete st txes a n :
  (∀ tx l, ∃ l', AcceptTransaction tx l = (l', Ok tt)) →
  (∀ a, Int.is_u64 (GetNonce st a)) → GetNonce st a ≤ n < Int.two64 - 1 →
  ∀ nt acc l, tracks st nt acc → contiguous st acc → StronglySorted by_nonce txes →
  (∀ m, GetNonce st a + Z.of_nat (length (from a acc)) ≤ m ≤ n →
     ∃ tx, tx ∈ txes ∧ AuthSender tx = Some a ∧ tx_nonce tx = m) →
  ∃ l' res, selectTxs st txes nt acc l = (l', Ok res) ∧
    ∃ tx, tx ∈ res ∧ AuthSender tx = Some a ∧ tx_nonce tx = n.
Proof.
  intros Hacc Hst Hn. induction txes as [|tx txes IH]; intros nt acc l Ht Hc Hsort Hoff; cbn [selectTxs].
  { exists l, acc. split; [done|]. apply (contiguous_nonce st); [done| |apply Hst|lia].
    destruct (decide (GetNonce st a + Z.of_nat (length (from a acc)) ≤ n)) as [Hle|]; [|lia].
    destruct (Hoff n ltac:(lia)) as (tx&Hin&_). by apply not_elem_of_nil in Hin. }
  apply StronglySorted_inv in Hsort as [Hsort Hhd]. rewrite Forall_forall in Hhd.
  set (k := GetNonce st a + Z.of_nat (length (from a acc))) in *.
  destruct (AuthSender tx) as [b|] eqn:Hs.
  2:{ apply IH; try done. intros m Hm. destruct (Hoff m Hm) as (tx'&Hin&Hs'&?).
      exists tx'. apply elem_of_cons in Hin as [->|Hin]; [congruence|done]. }
  destruct (tracker_get st nt b) as (Hnb&Hsame&Hb). destruct (NonceTracker.GetNonce st nt b) as [nt1 n1].
  simpl in Hnb, Hsame, Hb. subst n1.
  assert (tracks st nt1 acc) as Ht1 by (intros c; rewrite Hsame; apply Ht).
  case_bool_decide as Hnonce.
  - apply IH; try done. intros m Hm. destruct (decide (b = a)) as [->|Hne].
    + destruct (Hoff k ltac:(lia)) as (txk&Hink&Hsk&Hmk). destruct (Hoff m Hm) as (tx'&Hin&Hs'&Hm').
      exists tx'. apply elem_of_cons in Hin as [->|Hin]; [|done]. exfalso. apply Hnonce.
      assert (tx_nonce tx = k) as ->.
      { apply elem_of_cons in Hink as [->|Hink]; [done|]. specialize (Hhd _ Hink). unfold by_nonce in Hhd. lia. }
      rewrite (Ht a). rewrite Int.u64_id; [done|]. pose proof (Hst a). unfold Int.is_u64 in *. lia.
    + destruct (Hoff m Hm) as (tx'&Hin&Hs'&Hm'). exists tx'.
      apply elem_of_cons in Hin as [->|Hin]; [congruence|done].
  - unfold mbind, M_bind, try. destruct (Hacc tx l) as [l1 ->].
    apply IH; [by apply tracks_increment; [done|done|rewrite Hsame]|by apply (contiguous_snoc st nt acc tx b)|done|].
    intros m. rewrite from_snoc, Hs, length_app. intros Hm. unfold k in *.
    destruct (Hoff m) as (tx'&Hin&Hs'&Hm'); [case_bool_decide; simpl in *; lia|].
    exists tx'. apply elem_of_cons in Hin as [->|Hin]; [|done]. exfalso.
    assert (b = a) as -> by congruence. rewrite bool_decide_true in Hm by done. simpl in Hm.
    assert (tx_nonce tx = k) as Hk; [|unfold k in Hk; lia]. rewrite Hnonce, (Ht a).
    rewrite Int.u64_id; [done|]. pose proof (Hst a). unfold Int.is_u64 in *. lia.
Qed.
End mempool.

Section sized.
Local Open Scope Z_scope.
Context `{StateModel, Codec L2Tx} (AuthSender : L2Tx → option Address).

Definition txSize (tx : L2Tx) : Z := match rlp_encode tx with Some b => Z.of_nat (length b) | None => 0 end.
Definition totalSize (txs : list L2Tx) : Z := foldr (λ tx n, txSize tx + n) 0 txs.

Lemma totalSize_app txs1 txs2 : totalSize (txs1 ++ txs2) = totalSize txs1 + totalSize txs2.
Proof. induction txs1; simpl; [done|]. unfold totalSize in *. lia. Qed.

Lemma totalSize_nonneg txs : 0 ≤ totalSize txs.
Proof.
  induction txs as [|tx txs IH]; simpl; [done|]. unfold totalSize, txSize in *.
  destruct (rlp_encode tx); lia.
Qed.

Lemma accept_cases tx l :
  is_Some (rlp_encode tx) → 0 ≤ remainingSize l < Int.two64 →
  if txSize tx <=? remainingSize l
  then AcceptTransaction tx l = (mkBatchSizeLimiter (remainingSize l - txSize tx), Ok tt)
  else AcceptTransaction tx l = (l, Err ErrInsufficientSpace).
Proof.
  intros [b Hb] Hl. unfold txSize, AcceptTransaction, batchSizeLimiter_accept, getRlpSize, EncodeToBytes.
  rewrite Hb. m_simpl. result_unfold. simpl.
  destruct (Z.leb_spec (Z.of_nat (length b)) (remainingSize l)).
  - rewrite (proj2 (Z.ltb_ge _ _)) by done. rewrite Int.u64_id; [done|]. unfold Int.is_u64. lia.
  - by rewrite (proj2 (Z.ltb_lt _ _)).
Qed.

(** What is selected and what remains add up to the limit. *)
Lemma selectTxs_sized st txes : Forall (λ tx, is_Some (rlp_encode tx)) txes →
  ∀ nt acc l, 0 ≤ remainingSize l < Int.two64 →
  ∃ l' res, selectTxs AuthSender st txes nt acc l = (l', Ok res) ∧
    totalSize res + remainingSize l' = totalSize acc + remainingSize l ∧ 0 ≤ remainingSize l'.
Proof.
  induction 1 as [|tx txes Henc Hencs IH]; intros nt acc l Hl; cbn [selectTxs].
  { exists l, acc. split_and!; [done|done|lia]. }
  destruct (AuthSender tx); [|by apply IH]. destruct (NonceTracker.GetNonce _ _ _).
  case_bool_decide; [by apply IH|]. unfold mbind, M_bind, try.
  pose proof (accept_cases tx l Henc Hl) as Hacc. destruct (Z.leb_spec (txSize tx) (remainingSize l)); rewrite Hacc.
  - edestruct IH as (l'&res&Hrun&Hsum&Hpos); [|exists l', res; split_and!; [exact Hrun| |done]].
    + simpl. pose proof (totalSize_nonneg [tx]). simpl in *. lia.
    + rewrite Hsum, totalSize_app. simpl. unfold totalSize. simpl. lia.
  - exists l, acc. split_and!; [done|done|lia].
Qed.

(** C28: [CurrentTxs] with the batch size limiter returns whatever the order in which
    the mempool's map is iterated; it returns transactions of the mempool, none
    twice, each with a valid sender; the ones of an account have its next
    nonces without a gap; and their encodings fit the limit. *)
Theorem CurrentTxs_correct st (db : Mempool.t) txes limit :
  (∀ h tx, db !! h = Some tx → tx_hash tx = h ∧ is_Some (rlp_encode tx)) →
  (∀ a, Int.is_u64 (GetNonce st a)) → Int.is_u64 limit → FetchMempoolTxs db txes →
  ∃ l' txs, CurrentTxs AuthSender st txes (NewBatchSizeLimiter limit) = (l', Ok txs) ∧
    NoDup txs ∧ (∀ tx, tx ∈ txs → db !! tx_hash tx = Some tx ∧ is_Some (AuthSender tx)) ∧
    contiguous AuthSender st txs ∧ totalSize txs ≤ limit.
Proof.
  intros Hdb Hst Hlimit Hperm. unfold CurrentTxs. set (sorted := merge_sort by_nonce txes).
  assert (sorted ≡ₚ (map_to_list db).*2) as Hsorted by (by unfold sorted; rewrite merge_sort_Permutation).
  assert (∀ tx, tx ∈ sorted → db !! tx_hash tx = Some tx) as Hin.
  { intros tx. rewrite Hsorted. intros ([h tx']&->&Hel)%list_elem_of_fmap. apply elem_of_map_to_list in Hel.
    simpl. by rewrite (proj1 (Hdb _ _ Hel)). }
  destruct (selectTxs_sized st sorted) with (nt := (∅ : NonceTracker.t)) (acc := @nil L2Tx)
    (l := NewBatchSizeLimiter limit) as (l'&res&Hrun&Hsum&Hpos); [|done|].
  { apply Forall_forall. intros tx Htx. by destruct (Hdb _ _ (Hin _ Htx)). }
  destruct (selectTxs_safe AuthSender (L:=batchSizeLimiter) st sorted ∅ [] _ _ _ (tracks_empty _ _ Hst) ltac:(done) Hrun)
    as (Hcont&sel&Heq&Hsub&Hauth). simpl in Heq. subst sel.
  rewrite Forall_forall in Hauth. exists l', res. split_and!; [done| | |done|].
  - apply (sublist_NoDup _ sorted); [|done]. rewrite Hsorted.
    apply NoDup_fmap_2_strong; [|apply NoDup_map_to_list].
    intros [h1 tx1] [h2 tx2] Hel1%elem_of_map_to_list Hel2%elem_of_map_to_list Heq. simpl in Heq.
    destruct (Hdb _ _ Hel1), (Hdb _ _ Hel2). congruence.
  - intros tx Htx. split; [|by apply Hauth]. by apply Hin, (elem_of_sublist res).
  - simpl in Hsum. lia.
Qed.

(** With room for every transaction, an account that has all the nonces
    from its next one up to [n] in the mempool gets the one with nonce [n] into
    the batch. *)
Theorem CurrentTxs_complete st (db : Mempool.t) txes a n :
  (∀ a, Int.is_u64 (GetNonce st a)) → FetchMempoolTxs db txes →
  GetNonce st a ≤ n < Int.two64 - 1 → offers AuthSender st txes a n →
  ∃ txs, CurrentTxs AuthSender st txes mkUnlimited = (mkUnlimited, Ok txs) ∧
    ∃ tx, tx ∈ txs ∧ AuthSender tx = Some a ∧ tx_nonce tx = n.
Proof.
  intros Hst Hperm Hn Hoff. unfold CurrentTxs.
  destruct (selectTxs_complete AuthSender (L:=unlimitedBatchSize) st (merge_sort by_nonce txes) a n) with
    (nt := (∅ : NonceTracker.t)) (acc := @nil L2Tx) (l := mkUnlimited) as ([]&res&Hrun&Htx); try done.
  - intros tx []. by exists mkUnlimited.
  - by apply tracks_empty.
  - apply (StronglySorted_merge_sort by_nonce txes).
  - simpl. intros m Hm. destruct (Hoff m) as (tx&Hin&?); [lia|]. exists tx. by rewrite merge_sort_Permutation.
  - by exists res.
Qed.
End sized.
End Mempool.
