(* ===== verification/Registry.v ===== *)
(** * The batch registry

    [go/enclave/components/batch_registry.go]: notification of executed
    batches, and the batches a rollup is made of; and the state of an enclave,
    of which the registry is a part. *)

From S2P Require Import Prelude Types Codec L1Chain EnclaveDB BatchDB Events Storage StorageInv StorageOps StorageSpec CrossChain Reads Mempool.

(** The registered callback, and the batches it was called with. *)
Record Registry := mkRegistry {
  batchesCallback : bool;
  delivered : list (Batch.t * list Receipt)
}.

Definition SubscribeForExecutedBatches : M Registry unit := modify (λ br, mkRegistry true (delivered br)).
Definition UnsubscribeFromBatches : M Registry unit := modify (λ br, mkRegistry false (delivered br)).
Definition OnBatchExecuted (batch : Batch.t) (receipts : list Receipt) : M Registry unit :=
  modify (λ br, if batchesCallback br then mkRegistry true (delivered br ++ [(batch, receipts)]) else br).

(** The state of an enclave: the storage, the registry, the mempool and the
    key of the sequencer, once it was read. *)
Record Enclave {C : Type} `{StateModel} := mkEnclave {
  e_storage : Storage C;
  e_registry : Registry;
  e_mempool : Mempool.t;
  e_attestedKey : option bytes
}.
Arguments Enclave C {_}.

Section enclave.
Context {C : Type} `{StateModel}.
Implicit Types (e : Enclave C).

Definition set_storage (s : Storage C) e : Enclave C := mkEnclave C _ s (e_registry e) (e_mempool e) (e_attestedKey e).
Definition set_registry (r : Registry) e : Enclave C := mkEnclave C _ (e_storage e) r (e_mempool e) (e_attestedKey e).
Definition set_mempool (m : Mempool.t) e : Enclave C := mkEnclave C _ (e_storage e) (e_registry e) m (e_attestedKey e).
Definition set_attestedKey (k : bytes) e : Enclave C :=
  mkEnclave C _ (e_storage e) (e_registry e) (e_mempool e) (Some k).

Definition on_storage {A} (m : M (Storage C) A) : M (Enclave C) A := zoom e_storage set_storage m.
Definition on_registry {A} (m : M Registry A) : M (Enclave C) A := zoom e_registry set_registry m.
Definition on_mempool {A} (m : M Mempool.t A) : M (Enclave C) A := zoom e_mempool set_mempool m.
End enclave.

(** ** Batches for a rollup *)

(** [gethrpc.BlockNumber] *)
Definition EarliestBlockNumber : Z := 0.
Definition SafeBlockNumber : Z := -4.
Definition FinalizedBlockNumber : Z := -3.
Definition LatestBlockNumber : Z := -2.
Definition PendingBlockNumber : Z := -1.

Section registry.
Local Open Scope Z_scope.
Context {C : Type} `{Cache C, StateModel, StorageCodecs, Hashing}.
Implicit Types (s : Storage C).

Definition HasGenesisBatch : M (Storage C) bool :=
  r ← try FetchHeadBatch;
  match r with
  | inl _ => mret true
  | inr err => if errors_Is err ErrNotFound then mret false
               else fail (ErrWrap "could not retrieve current head batch" err)
  end.

(** The storage and the limiter of the rollup. *)
Abbreviation limited := (Storage C * rollupLimiter)%type.
Definition from_storage {A} (m : M (Storage C) A) : M limited A := zoom fst (λ s p, (s, p.2)) m.
Definition from_limiter {A} (m : M rollupLimiter A) : M limited A := zoom snd (λ l p, (p.1, l)) m.

(** RLP encodes the exported fields of a batch. *)
Definition encodable (b : Batch.t) : BatchHeader * list L2Tx := (Batch.Header b, Batch.Transactions b).

Fixpoint batchesLoop (fuel : nat) (headSeq upToL1Height currentBatchSeq : Z) (resultBatches : list Batch.t)
    : M limited (list Batch.t) :=
  match fuel with
  | O => crash "out of fuel"
  | S fuel =>
      if headSeq <? currentBatchSeq then mret resultBatches
      else
        batch ← from_storage (wrap "could not retrieve batch by sequence number" (FetchBatchBySeqNo currentBatchSeq));
        block ← from_storage (wrap "could not retrieve block" (storage_FetchBlock (L1Proof (Batch.Header batch))));
        if upToL1Height <? Block_NumberU64 block then mret resultBatches
        else
          didAcceptBatch ← from_limiter (AcceptBatch (encodable batch));
          if negb didAcceptBatch then mret resultBatches
          else batchesLoop fuel headSeq upToL1Height (Int.u64 (currentBatchSeq + 1)) (resultBatches ++ [batch])
  end.

(** The sanity check on the sequence numbers. *)
Fixpoint inSequence (current : Z) (batches : list Batch.t) : bool :=
  match batches with
  | [] => true
  | b :: batches => bool_decide (Int.u64 current = Int.u64 (Batch.SeqNo b)) && inSequence (current + 1) batches
  end.

Definition BatchesAfter (fuel : nat) (batchSeqNo upToL1Height : Z) : M limited (list Batch.t) :=
  headBatch ← from_storage FetchHeadBatch;
  if Int.u64 (Batch.SeqNo headBatch) <? batchSeqNo
  then fail (ErrMsg "head batch height is in the past compared to requested batch")
  else
    resultBatches ← batchesLoop fuel (Int.u64 (Batch.SeqNo headBatch)) upToL1Height batchSeqNo [];
    if match resultBatches with [] => true | b :: _ => inSequence (Int.u64 (Batch.SeqNo b)) resultBatches end
    then mret resultBatches
    else fail (ErrMsg "created invalid rollup with batches out of sequence").

Definition GetBatchAtHeight (height : Z) : M (Storage C) Batch.t :=
  if bool_decide (height = EarliestBlockNumber)
  then wrap "could not retrieve genesis rollup" (FetchBatchByHeight 0)
  else if bool_decide (height = PendingBlockNumber)
  then fail (ErrMsg "requested balance for pending block. This is not handled currently")
  else if bool_decide (height = SafeBlockNumber ∨ height = FinalizedBlockNumber ∨ height = LatestBlockNumber)
  then wrap "batch with requested height was not found" FetchHeadBatch
  else wrap "batch with requested height could not be retrieved" (FetchBatchByHeight (Int.u64 height)).

Definition GetBatchStateAtHeight (blockNumber : Z) : M (Storage C) EState :=
  batch ← GetBatchAtHeight blockNumber;
  wrap "could not create stateDB" (CreateStateDB (Batch.hashOf batch)).
End registry.

(** ** Correctness of the selection *)

Section selection.
Local Open Scope Z_scope.
Context {C : Type} `{CacheOk C, StateModel, StorageCodecsOk, HashingOk}.
Context (d : DB) (tr : gmap Hash EState) (Hd : db_ok d).
Implicit Types (s : Storage C).

Definition batchSize (b : Batch.t) : Z :=
  match rlp_encode (encodable b) with Some v => Z.of_nat (length v) | None => 0 end.
Definition batchesSize (bs : list Batch.t) : Z := foldr (λ b n, batchSize b + n) 0 bs.

Lemma batchesSize_snoc bs b : batchesSize (bs ++ [b]) = batchesSize bs + batchSize b.
Proof. induction bs as [|c bs IH]; simpl; [lia|]. rewrite IH. lia. Qed.

(** The batch with sequence number [n], on a block of height [k]. *)
Definition has_batch (n : Z) (b : Batch.t) (k : Z) : Prop :=
  ∃ h ab hd, batches d !! h = Some ab ∧ SequencerOrderNo (ab_header ab) = n ∧ b = ab_batch ab ∧
    blocks d !! L1Proof (ab_header ab) = Some hd ∧ h_number hd = k ∧ is_Some (rlp_encode (encodable b)).

(** All the batches from [n] to [m] are there. *)
Definition complete (n m : Z) : Prop := ∀ i, n ≤ i ≤ m → ∃ b k, has_batch i b k.

Lemma AcceptBatch_cases (b : Batch.t) l :
  is_Some (rlp_encode (encodable b)) → Int.is_u64 (rollupRemaining l) →
  AcceptBatch (encodable b) l =
  if batchSize b <=? rollupRemaining l then (mkRollupLimiter (rollupRemaining l - batchSize b), Ok true)
  else (l, Ok false).
Proof.
  intros [v Hv] Hl. unfold AcceptBatch, batchSize, EncodeToBytes. rewrite Hv. m_unfold. simpl.
  destruct (Z.leb_spec (Z.of_nat (length v)) (rollupRemaining l)).
  - rewrite (proj2 (Z.ltb_ge _ _)) by done. rewrite Int.u64_id; [done|]. unfold Int.is_u64 in *. lia.
  - by rewrite (proj2 (Z.ltb_lt _ _)).
Qed.

(** One turn of the loop. *)
Lemma batchesLoop_step fuel head upTo cur acc s l b k :
  holds d tr s → has_batch cur b k → Int.is_u64 (rollupRemaining l) → cur ≤ head →
  ∃ s', holds d tr s' ∧
  batchesLoop (S fuel) head upTo cur acc (s, l) =
    if upTo <? k then ((s', l), Ok acc)
    else if batchSize b <=? rollupRemaining l
    then batchesLoop fuel head upTo (Int.u64 (cur + 1)) (acc ++ [b])
           (s', mkRollupLimiter (rollupRemaining l - batchSize b))
    else ((s', l), Ok acc).
Proof.
  intros Hs (h&ab&hd&Hab&Hseq&->&Hhd&Hk&Henc) Hl Hcur. cbn [batchesLoop].
  rewrite (proj2 (Z.ltb_ge _ _)) by done.
  destruct (storage_FetchBlock_spec s (L1Proof (ab_header ab)) (holds_ok d tr Hd s Hs)) as (Hok&Hsame&Hb).
  rewrite (proj1 Hs), Hhd in Hb. destruct Hb as (blk&Hblk&Hhdr).
  exists (storage_FetchBlock (L1Proof (ab_header ab)) s).1. split; [by eapply holds_same|].
  unfold mbind, M_bind, from_storage, zoom, wrap, FetchBatchBySeqNo, query. simpl fst.
  rewrite (proj1 Hs), (proj1 (ReadBatchBySeqNo_spec d cur Hd) h ab Hab Hseq). cbn [ab_batch Batch.Header fst snd].
  destruct (storage_FetchBlock _ s) as [s' r]. simpl in Hblk. subst r. unfold Block_NumberU64. rewrite Hhdr, Hk.
  cbn [fst snd]. destruct (upTo <? k); [done|]. unfold from_limiter, zoom. cbn [fst snd].
  fold (ab_batch ab). rewrite (AcceptBatch_cases (ab_batch ab) l Henc Hl).
  by destruct (batchSize (ab_batch ab) <=? rollupRemaining l).
Qed.

(** What the loop selects: the batches from [cur] on, as far as the height and
    the size allow. *)
Definition selected (head upTo cur room : Z) (bs : list Batch.t) : Prop :=
  (∀ i b, bs !! i = Some b → ∃ k, has_batch (cur + Z.of_nat i) b k ∧ k ≤ upTo) ∧
  cur + Z.of_nat (length bs) ≤ head + 1 ∧ batchesSize bs ≤ room ∧
  (cur + Z.of_nat (length bs) = head + 1 ∨
   ∃ b k, has_batch (cur + Z.of_nat (length bs)) b k ∧ (upTo < k ∨ room < batchesSize (bs ++ [b]))).

Lemma batchesLoop_spec fuel head upTo : ∀ cur acc s l,
  holds d tr s → complete cur head → 0 ≤ cur ≤ head + 1 → head + 1 < Int.two64 →
  Int.is_u64 (rollupRemaining l) → head + 1 - cur < Z.of_nat fuel →
  ∃ s' l' bs, batchesLoop fuel head upTo cur acc (s, l) = ((s', l'), Ok (acc ++ bs)) ∧ holds d tr s' ∧
    selected head upTo cur (rollupRemaining l) bs.
Proof.
  induction fuel as [|fuel IH]; intros cur acc s l Hs Hcomp Hcur Hhead Hl Hfuel; [lia|].
  destruct (decide (cur = head + 1)) as [->|Hne].
  { exists s, l, []. cbn [batchesLoop]. rewrite (proj2 (Z.ltb_lt _ _)), app_nil_r by lia.
    split; [done|]. split; [done|]. split_and!; [done|simpl; lia|simpl; unfold Int.is_u64 in Hl; lia|left; simpl; lia]. }
  destruct (Hcomp cur) as (b&k&Hb); [lia|].
  destruct (batchesLoop_step fuel head upTo cur acc s l b k Hs Hb Hl) as (s1&Hs1&->); [lia|].
  assert (upTo < k ∨ rollupRemaining l < batchSize b → selected head upTo cur (rollupRemaining l) []) as Hstop.
  { intros Hwhy. split_and!; [done|simpl; lia|simpl; unfold Int.is_u64 in Hl; lia|].
    right. exists b, k. simpl. rewrite Z.add_0_r. split; [done|]. destruct Hwhy; [by left|right; lia]. }
  destruct (Z.ltb_spec upTo k).
  { exists s1, l, []. rewrite app_nil_r. split_and!; [done|done|]. by apply Hstop; left. }
  destruct (Z.leb_spec (batchSize b) (rollupRemaining l)) as [Hfits|Hbig].
  2:{ exists s1, l, []. rewrite app_nil_r. split_and!; [done|done|]. by apply Hstop; right. }
  assert (0 ≤ batchSize b) as Hpos by (unfold batchSize; case_match; lia).
  rewrite Int.u64_id by (unfold Int.is_u64; lia).
  destruct (IH (cur + 1) (acc ++ [b]) s1 (mkRollupLimiter (rollupRemaining l - batchSize b)))
    as (s'&l'&bs&Hrun&Hs'&Hel&Hlen&Hsize&Hmax); [done| |lia|lia|simpl; unfold Int.is_u64 in *; lia|lia|].
  { intros i Hi. apply Hcomp. lia. }
  exists s', l', (b :: bs). rewrite Hrun, <-app_assoc. do 2 (split; [done|]). simpl in Hsize, Hmax.
  split_and!; [|simpl; lia|simpl; lia|].
  - intros [|i] b' Hi; simplify_eq/=; [exists k; by rewrite Z.add_0_r|].
    destruct (Hel i b' Hi) as (k'&?&?). exists k'. split; [|done]. by replace (cur + Z.of_nat (S i)) with (cur + 1 + Z.of_nat i) by lia.
  - destruct Hmax as [Hm|(b'&k'&Hb'&Hm)]; [left; simpl; lia|right]. exists b', k'. simpl.
    split; [by replace (cur + Z.of_nat (S (length bs))) with (cur + 1 + Z.of_nat (length bs)) by lia|]. destruct Hm; [by left|right; lia].
Qed.

Lemma inSequence_ok bs : ∀ cur, (∀ i b, bs !! i = Some b → Batch.SeqNo b = cur + Z.of_nat i) → inSequence cur bs = true.
Proof.
  induction bs as [|b bs IH]; intros cur Hbs; cbn [inSequence]; [done|].
  rewrite bool_decide_true by (rewrite (Hbs 0%nat b) by done; f_equal; lia). apply IH. intros i b' Hi.
  rewrite (Hbs (S i) b') by done. lia.
Qed.

Lemma has_batch_seq n b k : has_batch n b k → Batch.SeqNo b = n.
Proof. by intros (h&ab&hd&_&<-&->&_). Qed.

End selection.
