(* ===== verification/Params.v ===== *)
(** * The parameters of a request

    [go/common/gethencoding/geth_encoding.go] and [go/enclave/rpc]: a request is a
    JSON list whose elements are taken apart with type assertions.  An assertion
    without [ok] ends the process on a value of another type. *)

From S2P Require Import Prelude Types Codec L1Chain EnclaveDB BatchDB Events.
Local Open Scope Z_scope.

(** ** JSON values *)

(** [interface{}] as [encoding/json] decodes it.  A map is the list of its entries
    in the order in which a loop visits them, which the runtime chooses. *)
#[warnings="-register-all"]
Inductive JSON :=
  | JNull
  | JBool (b : bool)
  | JNumber (n : Z)
  | JString (s : string)
  | JArray (l : list JSON)
  | JObject (fields : list (string * JSON)).

(** ** ASCII strings *)

Definition isSpace (c : Ascii.ascii) : bool :=
  let n := Z.of_N (Ascii.N_of_ascii c) in (n =? 32) || (9 <=? n) && (n <=? 13).

Definition lowerAscii (c : Ascii.ascii) : Ascii.ascii :=
  let n := Ascii.N_of_ascii c in
  if (65 <=? n)%N && (n <=? 90)%N then Ascii.ascii_of_N (n + 32) else c.

(** [strings.ToLower] *)
Fixpoint ToLower (s : string) : string :=
  match s with
  | EmptyString => EmptyString
  | String c s => String (lowerAscii c) (ToLower s)
  end.

(** [len(strings.TrimSpace(s)) == 0] *)
Fixpoint isBlank (s : string) : bool :=
  match s with
  | EmptyString => true
  | String c s => isSpace c && isBlank s
  end.

(** [filters.FilterCriteria] *)
Record FilterCriteria := mkFilterCriteria {
  fc_BlockHash : option Hash;
  fc_FromBlock : option Z;
  fc_ToBlock : option Z;
  fc_Addresses : list Address;
  fc_Topics : list (list Hash)
}.

(** [common.PrivateCustomQueryListTransactions] *)
Record PrivateCustomQueryListTransactions := mkPrivateCustomQuery {
  pq_Address : Address;
  pq_Pagination : QueryPagination
}.

(** The encodings of go-ethereum and of the standard library: hexadecimal
    numbers, block numbers, filters and requests. *)
Class GethEncoding := {
  HexToAddress : string → Address;
  HexToHash : string → Hash;
  hexutil_Decode : string → option bytes;
  hexutil_DecodeBig : string → option Z;
  hexutil_DecodeUint64 : string → option Z;
  UnmarshalBlockNumber : string → option Z;
  json_params : bytes → option (list JSON);
  json_filter : JSON → option FilterCriteria;
  json_query : JSON → option PrivateCustomQueryListTransactions;
  Hex2Bytes : string → bytes;
  UnmarshalBinary : bytes → option L2Tx
}.

(** [gethapi.TransactionArgs]; the access list, the chain ID and the second name
    of the data are never set. *)
Record TransactionArgs := mkTransactionArgs {
  ta_From : option Address;
  ta_To : option Address;
  ta_Gas : option Z;
  ta_GasPrice : option Z;
  ta_MaxFeePerGas : option Z;
  ta_MaxPriorityFeePerGas : option Z;
  ta_Value : option Z;
  ta_Nonce : option Z;
  ta_Data : option bytes
}.

Section extract.
Context `{GethEncoding}.

Definition DecodeParamBytes (paramBytes : bytes) : result (list JSON) :=
  of_option (ErrMsg "unable to unmarshal params") (json_params paramBytes).

Definition ExtractAddress (param : JSON) : result Address :=
  match param with
  | JNull => Err (ErrMsg "no address specified")
  | JString paramStr =>
      if isBlank paramStr then Err (ErrMsg "no address specified") else Ok (HexToAddress paramStr)
  | _ => Err (ErrMsg "unexpectd address value")
  end.

Definition ExtractBlockNumber (param : JSON) : result Z :=
  match param with
  | JNull => Err ErrNotFound
  | JString s => of_option (ErrMsg "could not parse requested rollup number") (UnmarshalBlockNumber s)
  | _ => Crash "interface conversion"
  end.

Definition ExtractOptionalBlockNumber (params : list JSON) (idx : nat) : result Z :=
  match params !! idx with
  | None | Some JNull => ExtractBlockNumber (JString "latest")
  | Some (JString s) => ExtractBlockNumber (JString (if isBlank s then "latest" else s))
  | Some param => ExtractBlockNumber param
  end.

(** [vkBytesList[i].(string)] *)
Definition decodeVK (msg : string) (v : JSON) : result bytes :=
  match v with
  | JString s => of_option (ErrMsg msg) (hexutil_Decode s)
  | _ => Crash "interface conversion"
  end.

Definition ExtractViewingKey (vkBytesIntf : JSON) : result (bytes * bytes) :=
  match vkBytesIntf with
  | JArray [vkPubkey; accountSignature] =>
      vkPubkeyHexBytes ← decodeVK "could not decode data in vk pub key" vkPubkey;
      accountSignatureHexBytes ← decodeVK "could not decode data in vk signature" accountSignature;
      Ok (vkPubkeyHexBytes, accountSignatureHexBytes)
  | JArray _ => Err (ErrMsg "wrong size of viewing key params")
  | _ => Err (ErrMsg "unable to cast the vk to []interface")
  end.

Definition ExtractPrivateCustomQuery (query : JSON) : result PrivateCustomQueryListTransactions :=
  of_option (ErrMsg "json") (json_query query).

(** [txBinary[2:]] of a shorter string panics. *)
Definition ExtractTx (txBinary : string) : result L2Tx :=
  if (String.length txBinary <? 2)%nat then Crash "slice bounds out of range"
  else of_option (ErrMsg "could not unmarshal transaction from bytes")
         (UnmarshalBinary (Hex2Bytes (String.substring 2 (String.length txBinary - 2) txBinary))).

(** *** Call messages *)

Definition emptyArgs : TransactionArgs := mkTransactionArgs None None None None None None None (Some 0) None.

Definition decodeField {A} (decoded : option A) (f : A → TransactionArgs) : result TransactionArgs :=
  match decoded with Some a => Ok (f a) | None => Err (ErrMsg "could not decode value in CallMsg") end.

(** One case of the switch; the gas price is assigned to the value. *)
Definition setField (field : string) (val : string) (a : TransactionArgs) : result TransactionArgs :=
  let '(mkTransactionArgs from to gas gasPrice maxFee maxPrio value nonce data) := a in
  let name := ToLower field in
  if String.eqb name "to" then Ok (mkTransactionArgs from (Some (HexToAddress val)) gas gasPrice maxFee maxPrio value nonce data)
  else if String.eqb name "from" then Ok (mkTransactionArgs (Some (HexToAddress val)) to gas gasPrice maxFee maxPrio value nonce data)
  else if String.eqb name "data" then
    match hexutil_Decode val with
    | Some v => Ok (mkTransactionArgs from to gas gasPrice maxFee maxPrio value nonce (Some v))
    | None => Err (ErrMsg "could not decode data in CallMsg")
    end
  else if String.eqb name "value" then
    decodeField (hexutil_DecodeBig val) (λ v, mkTransactionArgs from to gas gasPrice maxFee maxPrio (Some v) nonce data)
  else if String.eqb name "nonce" then
    decodeField (hexutil_DecodeUint64 val) (λ v, mkTransactionArgs from to gas gasPrice maxFee maxPrio value (Some v) data)
  else if String.eqb name "gas" then
    decodeField (hexutil_DecodeUint64 val) (λ v, mkTransactionArgs from to (Some v) gasPrice maxFee maxPrio value nonce data)
  else if String.eqb name "gasprice" then
    decodeField (hexutil_DecodeBig val) (λ v, mkTransactionArgs from to gas gasPrice maxFee maxPrio (Some v) nonce data)
  else if String.eqb name "maxfeepergas" then
    decodeField (hexutil_DecodeBig val) (λ v, mkTransactionArgs from to gas gasPrice (Some v) maxPrio value nonce data)
  else if String.eqb name "maxpriorityfeepergas" then
    decodeField (hexutil_DecodeBig val) (λ v, mkTransactionArgs from to gas gasPrice maxFee (Some v) value nonce data)
  else Ok a.

Fixpoint callLoop (fields : list (string * JSON)) (a : TransactionArgs) : result TransactionArgs :=
  match fields with
  | [] => Ok a
  | (field, val) :: fields =>
      match val with
      | JNull => callLoop fields a
      | JString valString =>
          if isBlank valString then callLoop fields a
          else a ← setField field valString a; callLoop fields a
      | _ => Err (ErrMsg "unexpected type supplied in field")
      end
  end.

Definition ExtractEthCall (param : JSON) : result TransactionArgs :=
  match param with
  | JObject fields => callLoop fields emptyArgs
  | _ => Crash "interface conversion"
  end.

(** *** The call message as a map of strings *)

(** The names that are stored in lower case. *)
Definition callFields : list string := ["to"; "from"; "data"; "value"; "gas"; "maxfeepergas"; "maxpriorityfeepergas"].

Fixpoint mapLoop (fields : list (string * JSON)) (m : gmap string string) : result (gmap string string) :=
  match fields with
  | [] => Ok m
  | (field, val) :: fields =>
      match val with
      | JNull => mapLoop fields m
      | JString valString =>
          if isBlank valString then mapLoop fields m
          else
            let name := ToLower field in
            mapLoop fields (<[(if bool_decide (name ∈ callFields) then name else field) := valString]> m)
      | _ => Err (ErrMsg "unexpected type supplied in field")
      end
  end.

(** [zeroHex] is [gethcommon.HexToAddress("0x0").Hex()]. *)
Definition ExtractEthCallMapString (zeroHex : string) (paramBytes : JSON) : result (gmap string string) :=
  match paramBytes with
  | JObject fields => mapLoop fields {["from" := zeroHex]}
  | _ => Crash "interface conversion"
  end.
End extract.

(** ** The parameters of calls, in any order

    Go visits the entries of a map in an order of its own: what a call message
    means must not depend on it. *)


Section order.
Context `{GethEncoding}.

(** The fields that are assigned: not null and not blank. *)
Definition given (f : string * JSON) : bool :=
  match f.2 with JNull => false | JString s => negb (isBlank s) | _ => true end.

(** What a field is assigned to: names in any case; the gas price goes to the
    value. *)
Definition target (f : string * JSON) : string :=
  let name := ToLower f.1 in if String.eqb name "gasprice" then "value" else name.

(** No two fields are assigned to the same place. *)
Definition unambiguous (fields : list (string * JSON)) : Prop := NoDup (map target (filter given fields)).

(** One turn of the loop. *)
Definition visit (f : string * JSON) (a : TransactionArgs) : result TransactionArgs :=
  match f.2 with
  | JNull => Ok a
  | JString s => if isBlank s then Ok a else setField f.1 s a
  | _ => Err (ErrMsg "unexpected type supplied in field")
  end.

Lemma callLoop_cons f fields a : callLoop (f :: fields) a = a' ← visit f a; callLoop fields a'.
Proof. destruct f as [name [| | |s| |]]; try done. cbn. by destruct (isBlank s). Qed.

(** The result up to the text of the error. *)
Definition same_result {A} (r1 r2 : result A) : Prop :=
  match r1, r2 with
  | Ok a, Ok b => a = b
  | Err _, Err _ => True
  | _, _ => False
  end.

(** The assignments of the switch. *)
Inductive Assign :=
  | SetTo (a : Address) | SetFrom (a : Address) | SetData (b : bytes) | SetValue (n : Z) | SetNonce (n : Z) | SetGas (n : Z)
  | SetMaxFee (n : Z) | SetMaxPriority (n : Z) | SetNothing.

Definition assign (u : Assign) (a : TransactionArgs) : TransactionArgs :=
  let '(mkTransactionArgs from to gas gasPrice maxFee maxPrio value nonce data) := a in
  match u with
  | SetTo x => mkTransactionArgs from (Some x) gas gasPrice maxFee maxPrio value nonce data
  | SetFrom x => mkTransactionArgs (Some x) to gas gasPrice maxFee maxPrio value nonce data
  | SetData x => mkTransactionArgs from to gas gasPrice maxFee maxPrio value nonce (Some x)
  | SetValue x => mkTransactionArgs from to gas gasPrice maxFee maxPrio (Some x) nonce data
  | SetNonce x => mkTransactionArgs from to gas gasPrice maxFee maxPrio value (Some x) data
  | SetGas x => mkTransactionArgs from to (Some x) gasPrice maxFee maxPrio value nonce data
  | SetMaxFee x => mkTransactionArgs from to gas gasPrice (Some x) maxPrio value nonce data
  | SetMaxPriority x => mkTransactionArgs from to gas gasPrice maxFee (Some x) value nonce data
  | SetNothing => a
  end.

Definition assignment (name v : string) : option Assign :=
  if String.eqb name "to" then Some (SetTo (HexToAddress v))
  else if String.eqb name "from" then Some (SetFrom (HexToAddress v))
  else if String.eqb name "data" then SetData <$> hexutil_Decode v
  else if String.eqb name "value" then SetValue <$> hexutil_DecodeBig v
  else if String.eqb name "nonce" then SetNonce <$> hexutil_DecodeUint64 v
  else if String.eqb name "gas" then SetGas <$> hexutil_DecodeUint64 v
  else if String.eqb name "gasprice" then SetValue <$> hexutil_DecodeBig v
  else if String.eqb name "maxfeepergas" then SetMaxFee <$> hexutil_DecodeBig v
  else if String.eqb name "maxpriorityfeepergas" then SetMaxPriority <$> hexutil_DecodeBig v
  else Some SetNothing.

Lemma setField_assign field v a :
  match assignment (ToLower field) v with
  | Some u => setField field v a = Ok (assign u a)
  | None => ∃ e, setField field v a = Err e
  end.
Proof.
  destruct a. unfold assignment, setField, decodeField.
  repeat match goal with |- context [String.eqb ?x ?y] => destruct (String.eqb x y) end;
    try done; match goal with |- context [_ <$> ?o] => destruct o end; simpl; eauto.
Qed.

(** The place of an assignment. *)
Definition place (u : Assign) : option string :=
  match u with
  | SetTo _ => Some "to" | SetFrom _ => Some "from" | SetData _ => Some "data" | SetValue _ => Some "value"
  | SetNonce _ => Some "nonce" | SetGas _ => Some "gas" | SetMaxFee _ => Some "maxfeepergas"
  | SetMaxPriority _ => Some "maxpriorityfeepergas" | SetNothing => None
  end.

Lemma assignment_place f v u p : assignment (ToLower f.1) v = Some u → place u = Some p → p = target f.
Proof.
  unfold assignment, target. generalize (ToLower f.1) as name. intros name.
  repeat match goal with
  | |- context [if String.eqb name ?y then _ else _] => destruct (String.eqb_spec name y) as [->|?]
  end; simpl; try (match goal with |- context [_ <$> ?o] => destruct o end); simpl; intros; by simplify_eq/=.
Qed.

Lemma assign_commute u1 u2 a : place u1 = None ∨ place u1 ≠ place u2 → assign u1 (assign u2 a) = assign u2 (assign u1 a).
Proof. destruct a, u1, u2; intros [Hp|Hp]; done. Qed.

(** The assignment of a field, [None] if it is refused. *)
Definition visited (f : string * JSON) : option Assign :=
  match f.2 with
  | JNull => Some SetNothing
  | JString s => if isBlank s then Some SetNothing else assignment (ToLower f.1) s
  | _ => None
  end.

Lemma visit_visited f a :
  match visited f with
  | Some u => visit f a = Ok (assign u a)
  | None => ∃ e, visit f a = Err e
  end.
Proof.
  unfold visited, visit. destruct a, f as [name [| | |s| |]]; cbn [fst snd]; eauto. destruct (isBlank s); [done|].
  apply setField_assign.
Qed.

Lemma visited_place f u p : visited f = Some u → place u = Some p → given f = true ∧ p = target f.
Proof.
  unfold visited, given. destruct f as [name [| | |s| |]]; cbn [fst snd]; try (intros; by simplify_eq/=).
  destruct (isBlank s); [intros; by simplify_eq/=|]. intros Hu Hp. split; [done|]. by eapply assignment_place.
Qed.

(** The loop performs the assignments in turn. *)
Fixpoint assignAll (fields : list (string * JSON)) (a : TransactionArgs) : option TransactionArgs :=
  match fields with
  | [] => Some a
  | f :: fields => u ← visited f; assignAll fields (assign u a)
  end.

Lemma callLoop_assignAll fields : ∀ a,
  match assignAll fields a with
  | Some a' => callLoop fields a = Ok a'
  | None => ∃ e, callLoop fields a = Err e
  end.
Proof.
  induction fields as [|f fields IH]; intros a; [done|]. rewrite callLoop_cons. simpl assignAll.
  pose proof (visit_visited f a) as Hv. destruct (visited f) as [u|]; simpl.
  - rewrite Hv. result_unfold. apply IH.
  - destruct Hv as [e ->]. by exists e.
Qed.

Lemma assignAll_perm fields1 fields2 : fields1 ≡ₚ fields2 → unambiguous fields1 →
  ∀ a, assignAll fields1 a = assignAll fields2 a.
Proof.
  unfold unambiguous. induction 1 as [|f l1 l2 Hl IH|f1 f2 l|l1 l2 l3 H12 IH12 H23 IH23]; intros Hnd a.
  - done.
  - simpl. destruct (visited f) as [u|]; [|done]. simpl. apply IH. simpl in Hnd. rewrite filter_cons in Hnd.
    case_decide; [by apply NoDup_cons in Hnd as [_ ?]|done].
  - simpl. destruct (visited f1) as [u1|] eqn:H1, (visited f2) as [u2|] eqn:H2; simpl; try done. f_equal.
    apply assign_commute. destruct (place u1) as [p1|] eqn:Hp1; [right|by left]. destruct (place u2) as [p2|] eqn:Hp2; [|done].
    destruct (visited_place f1 u1 p1 H1 Hp1) as [Hg1 ->], (visited_place f2 u2 p2 H2 Hp2) as [Hg2 ->].
    rewrite !filter_cons_True in Hnd by (by apply Is_true_true). apply NoDup_cons in Hnd as [Hnot _].
    intros [= Heq]. apply Hnot. rewrite Heq. by left.
  - rewrite IH12 by done. apply IH23. by rewrite <-H12.
Qed.

(** The gas price is never set. *)
Lemma assignAll_GasPrice fields : ∀ a a', assignAll fields a = Some a' → ta_GasPrice a' = ta_GasPrice a.
Proof.
  induction fields as [|f fields IH]; intros a a'; simpl; [congruence|]. destruct (visited f) as [u|]; simpl; [|done].
  intros Ha. rewrite (IH _ _ Ha). by destruct a, u.
Qed.

(** A call message means the same whatever the order in which its fields are
    visited, as long as no two fields that are given are assigned to the same
    place: the extracted call is equal, or every order is refused.  The gas price of
    the message is never taken over; it is one of the fields assigned to the value. *)
Theorem ExtractEthCall_order fields1 fields2 : fields1 ≡ₚ fields2 → unambiguous fields1 →
  same_result (ExtractEthCall (JObject fields1)) (ExtractEthCall (JObject fields2)) ∧
  ∀ a, ExtractEthCall (JObject fields1) = Ok a → ta_GasPrice a = None.
Proof.
  intros Hperm Hun. unfold ExtractEthCall.
  pose proof (callLoop_assignAll fields1 emptyArgs) as H1. pose proof (callLoop_assignAll fields2 emptyArgs) as H2.
  rewrite <-(assignAll_perm fields1 fields2) in H2 by done. destruct (assignAll fields1 emptyArgs) as [a|] eqn:Ha.
  - rewrite H1, H2. split; [done|]. intros a' [= <-]. by rewrite (assignAll_GasPrice _ _ _ Ha).
  - destruct H1 as [e1 ->], H2 as [e2 ->]. by split.
Qed.

(** A gas price next to a value: the order decides what is transferred. *)
Lemma ExtractEthCall_gasPrice v1 v2 n1 n2 :
  isBlank v1 = false → isBlank v2 = false → hexutil_DecodeBig v1 = Some n1 → hexutil_DecodeBig v2 = Some n2 →
  ∃ a b, ExtractEthCall (JObject [("value", JString v1); ("gasPrice", JString v2)]) = Ok a ∧
    ExtractEthCall (JObject [("gasPrice", JString v2); ("value", JString v1)]) = Ok b ∧
    ta_Value a = Some n2 ∧ ta_Value b = Some n1.
Proof.
  intros H1 H2 H3 H4.
  assert (∀ a, setField "gasPrice" v2 a = Ok (assign (SetValue n2) a)) as Hprice.
  { intros a. pose proof (setField_assign "gasPrice" v2 a) as E. change (ToLower "gasPrice") with "gasprice" in E.
    unfold assignment in E. cbn in E. by rewrite H4 in E. }
  assert (∀ a, setField "value" v1 a = Ok (assign (SetValue n1) a)) as Hvalue.
  { intros a. pose proof (setField_assign "value" v1 a) as E. change (ToLower "value") with "value" in E.
    unfold assignment in E. cbn in E. by rewrite H3 in E. }
  unfold ExtractEthCall. rewrite !callLoop_cons. unfold visit. cbn [fst snd]. rewrite H1, H2, Hvalue, Hprice. result_unfold.
  rewrite !callLoop_cons. unfold visit. cbn [fst snd]. rewrite H1, H2, Hvalue, Hprice. eexists _, _. by split_and!.
Qed.
End order.
