(* ===== verification/L2Chain.v ===== *)
(** * Calls on the state of a batch

    [go/enclave/l2chain/l2_chain.go], [ExecuteObsCall] of [go/enclave/evm] and
    [ToMessage] of [go/common/gethapi]: a call runs on the state after a batch and
    writes nothing. *)

From S2P Require Import Prelude Types Codec L1Chain EnclaveDB BatchDB Events Storage StorageInv StorageOps StorageSpec CrossChain Reads Executor Mempool Registry Params.
Local Open Scope Z_scope.

(** [gethcore.Message]; account checks are skipped. *)
Record Message := mkMsg {
  ms_To : option Address;
  ms_From : Address;
  ms_Nonce : Z;
  ms_Value : Z;
  ms_GasLimit : Z;
  ms_GasPrice : Z;
  ms_GasFeeCap : Z;
  ms_GasTipCap : Z;
  ms_Data : bytes
}.

(** [gethcore.ExecutionResult] *)
Record ExecutionResult := mkExecutionResult {
  er_UsedGas : Z;
  er_Err : option GoError;
  er_ReturnData : bytes
}.
Definition Failed (r : ExecutionResult) : bool := match er_Err r with Some _ => true | None => false end.
Definition Revert (r : ExecutionResult) : bytes :=
  match er_Err r with Some ErrExecutionReverted => er_ReturnData r | _ => [] end.

(** What go-ethereum does with a message: the error recorded in the state, the
    result and the error. *)
Class Calls `{StateModel} := {
  GetBalance : EState → Address → Z;
  ApplyMessage : (Hash → result (option EthHeader)) → EthHeader → Message → EState →
    option string * option ExecutionResult * option GoError;
  UnpackRevert : bytes → option string;
  hexutil_Encode : bytes → string;
  (** [types.Sender] with the signer of the London fork *)
  LondonSender : L2Tx → option Address
}.

(** The chain is read for the ancestors of the header only. *)
Class CallsOk `{Calls} : Prop := {
  call_asked : ∀ chain1 chain2 hd msg st,
    (∀ h, asked chain1 hd h → chain1 h = chain2 h) → ApplyMessage chain1 hd msg st = ApplyMessage chain2 hd msg st
}.

Definition GlobalGasCap : Z := 5000000000.
Definition chainBaseFee : Z := 0.

(** [math.MaxUint64 / 2] *)
Definition maxUint64Half : Z := 2 ^ 63 - 1.

Definition args_from (a : TransactionArgs) : Address := default 0 (ta_From a).
Definition args_data (a : TransactionArgs) : bytes := default [] (ta_Data a).

Definition isSet {A} (o : option A) : bool := match o with Some _ => true | None => false end.

(** Whether both kinds of fees are given. *)
Definition bothFees (a : TransactionArgs) : bool :=
  isSet (ta_GasPrice a) && (isSet (ta_MaxFeePerGas a) || isSet (ta_MaxPriorityFeePerGas a)).

(** The base fee of the chain is never nil. *)
Definition ToMessage (args : TransactionArgs) (globalGasCap baseFee : Z) : result Message :=
  if bothFees args
  then Err (ErrMsg "both gasPrice and (maxFeePerGas or maxPriorityFeePerGas) specified")
  else
    let gas := if globalGasCap =? 0 then maxUint64Half else globalGasCap in
    let gas := match ta_Gas args with Some g => g | None => gas end in
    let gas := if negb (globalGasCap =? 0) && (globalGasCap <? gas) then globalGasCap else gas in
    let '(gasPrice, gasFeeCap, gasTipCap) :=
      match ta_GasPrice args with
      | Some p => (p, p, p)
      | None =>
          let gasFeeCap := default 0 (ta_MaxFeePerGas args) in
          let gasTipCap := default 0 (ta_MaxPriorityFeePerGas args) in
          (if negb (gasFeeCap =? 0) || negb (gasTipCap =? 0) then Z.min (gasTipCap + baseFee) gasFeeCap else 0,
           gasFeeCap, gasTipCap)
      end in
    Ok (mkMsg (ta_To args) (args_from args) (default 0 (ta_Nonce args)) (default 0 (ta_Value args)) gas
          gasPrice gasFeeCap gasTipCap (args_data args)).

Section chain.
Context {C : Type} `{Cache C, StateModel, StorageCodecs, Hashing, Keccak, CL : !Calls, CS : !Codec (list Z)}.

Definition revertText (r : ExecutionResult) : string :=
  match UnpackRevert (Revert r) with
  | Some reason => "execution reverted: " +:+ reason
  | None => "execution reverted"
  end.

(** [newRevertError] of the package [evm]. *)
Definition evm_newRevertError (r : ExecutionResult) : GoError := ErrEVM (revertText r) (Some (hexutil_Encode (Revert r))) 3.

(** The result of a message that could not be applied is returned next to the
    error. *)
Definition ExecuteObsCall (msg : Message) (st : EState) (header : BatchHeader)
    : M (Storage C) (option ExecutionResult * option GoError) :=
  sec ← secret;
  s ← gets id;
  let ethHeader := CreateEthHeaderForBatch header sec in
  let '(dbErr, result, err) := ApplyMessage (chainOf s) ethHeader msg st in
  match dbErr with
  | Some e => mret (None, Some (ErrEVM e None 0))
  | None =>
      match result with
      | Some r => if (0 <? length (Revert r))%nat then mret (None, Some (evm_newRevertError r)) else mret (result, err)
      | None => mret (result, err)
      end
  end.

Definition GetBalanceAtBlock (accountAddr : Address) (blockNumber : Z) : M (Storage C) Z :=
  chainState ← wrap "unable to get blockchain state" (GetBatchStateAtHeight blockNumber);
  mret (GetBalance chainState accountAddr).

Definition isAccountContractAtBlock (accountAddr : Address) (blockNumber : Z) : M (Storage C) bool :=
  chainState ← wrap "unable to get blockchain state" (GetBatchStateAtHeight blockNumber);
  mret (match GetCode chainState accountAddr with Some code => (0 <? length code)%nat | None => false end).

(** The address to encrypt with, and the balance. *)
Definition chain_GetBalance (accountAddress : Address) (blockNumber : Z) : M (Storage C) (Address * Z) :=
  balance ← GetBalanceAtBlock accountAddress blockNumber;
  isAddrContract ← isAccountContractAtBlock accountAddress blockNumber;
  if (isAddrContract : bool) then
    txHash ← storage_GetContractCreationTx accountAddress;
    '(transaction, _, _, _) ← GetTransaction txHash;
    sender ← lift (of_option (ErrMsg "invalid sender") (LondonSender transaction));
    mret (sender, balance)
  else mret (accountAddress, balance).

(** [None] stands for the nil result of an error that comes with none. *)
Definition ObsCallAtBlock (apiArgs : TransactionArgs) (blockNumber : Z)
    : M (Storage C) (option ExecutionResult * option GoError) :=
  callMsg ← wrap "unable to convert TransactionArgs to Message" (lift (ToMessage apiArgs GlobalGasCap chainBaseFee));
  blockState ← GetBatchStateAtHeight blockNumber;
  batch ← wrap "unable to fetch head state batch" (GetBatchAtHeight blockNumber);
  ExecuteObsCall callMsg blockState (Batch.Header batch).

(** A nil result without an error is dereferenced. *)
Definition chain_ObsCall (apiArgs : TransactionArgs) (blockNumber : Z) : M (Storage C) ExecutionResult :=
  '(result, err) ← ObsCallAtBlock apiArgs blockNumber;
  match err, result with
  | Some e, _ => fail e
  | None, None => crash "nil result"
  | None, Some r =>
      match er_Err r with
      | Some e => fail e
      | None => mret r
      end
  end.
End chain.
