(* ===== verification/RollupCompression.v ===== *)
(** * Compression of rollups

    [go/enclave/components/rollup_compression.go]: the metadata of the batches
    of a rollup as deltas, and the batches recreated from them and executed. *)

From S2P Require Import Prelude Types Codec L1Chain EnclaveDB BatchDB Events Storage StorageInv StorageOps StorageSpec CrossChain Reads Executor Mempool Registry.

(** The codecs of what a rollup carries. *)
Class RollupCodecs := {
  #[global] codec_calldata :: Codec CalldataRollupHeader;
  #[global] codec_payloads :: Codec (list (list L2Tx))
}.
Class RollupCodecsOk `{DBCodecs, RollupCodecs} : Prop := {
  #[global] codec_calldata_ok :: CodecOk CalldataRollupHeader;
  #[global] codec_payloads_ok :: CodecOk (list (list L2Tx));
  (** RLP encodes a structure as a list, in at least one byte. *)
  header_nonempty : ∀ (h : BatchHeader) v, rlp_encode h = Some v → v ≠ []
}.

Record batchFromRollup := mkBatchFromRollup {
  fr_transactions : list L2Tx;
  fr_seqNo : Z;
  fr_height : Z;
  fr_txHash : Hash;
  fr_time : Z;
  fr_l1Proof : Hash;
  fr_header : option BatchHeader
}.

(** ** Blobs *)

Section blobs.
Context `{BlobServices}.

Definition serialiseCompressAndEncrypt `{Codec A} (obj : A) : result bytes :=
  serialised ← EncodeToBytes obj;
  compressed ← CompressRollup serialised;
  bs_encrypt compressed.

Definition decryptDecompressAndDeserialise `{Codec A} (blob : bytes) : result A :=
  plaintextBlob ← bs_decrypt blob;
  serialisedBlob ← Decompress plaintextBlob;
  DecodeBytes serialisedBlob.

Lemma blob_roundtrip `{!BlobServicesOk, CodecOk A} (obj : A) blob :
  serialiseCompressAndEncrypt obj = Ok blob → decryptDecompressAndDeserialise blob = Ok obj.
Proof.
  unfold serialiseCompressAndEncrypt, decryptDecompressAndDeserialise. result_unfold.
  destruct (EncodeToBytes obj) as [v|e|c] eqn:Henc; try done.
  destruct (CompressRollup v) as [z|e|c] eqn:Hz; try done. intros Hblob.
  rewrite (decrypt_encrypt _ _ Hblob), (decompress_rollup _ _ Hz). by apply DecodeBytes_Encode.
Qed.
End blobs.

Section compression.
Local Open Scope Z_scope.
Context {C : Type} `{Cache C, StateModel, StorageCodecs, Hashing, MB : MessageBus}.
Context `{OW : !OwnerWallet, Keccak, EV : !EVM, CS : !Codec (list Z), RollupCodecs, BlobServices}.
Implicit Types (s : Storage C).

(** ** From batches to the header *)

(** The loop over the batches: the header of a batch that is not the canonical
    one of its height, the time and the L1 height relative to the previous
    batch ([prevL1Height] is nil at the first). *)
Fixpoint rollupLoop (batches : list Batch.t) (prev : Z) (prevL1Height : option Z)
    : M (Storage C) (list (option BatchHeader * Z * Z)) :=
  match batches with
  | [] => mret []
  | batch :: batches =>
      can ← FetchBatchByHeight (Int.u64 (Batch.NumberOf batch));
      let reorg := if bool_decide (Batch.hashOf can ≠ Batch.hashOf batch) then Some (Batch.Header batch) else None in
      let time := Time (Batch.Header batch) in
      let deltaTime := Int.i64 (Int.u64 (time - prev)) in
      block ← storage_FetchBlock (L1Proof (Batch.Header batch));
      let number := h_number (b_header block) in
      let l1HeightDelta := match prevL1Height with
                           | None => number
                           | Some p => Int.i64 (Int.i64 number - Int.i64 p)
                           end in
      rest ← rollupLoop batches time (Some number);
      mret ((reorg, deltaTime, l1HeightDelta) :: rest)
  end.

Definition transformToByteArray (reorgs : list (option BatchHeader)) : result (list bytes) :=
  mapR (λ reorg, match reorg with Some h => EncodeToBytes h | None => Ok [] end) reorgs.

(** The first batch without an entry in the reorgs, or the first batch. *)
Fixpoint firstCanonical (batches : list Batch.t) (reorgs : list (option BatchHeader)) (first : Batch.t) : Batch.t :=
  match batches, reorgs with
  | b :: batches, None :: _ => b
  | _ :: batches, Some _ :: reorgs => firstCanonical batches reorgs first
  | _, _ => first
  end.

Definition createRollupHeader (batches : list Batch.t) : M (Storage C) CalldataRollupHeader :=
  match batches with
  | [] => crash "index out of range"
  | first :: _ =>
      let startTime := Time (Batch.Header first) in
      entries ← rollupLoop batches startTime None;
      let reorgs := map (λ e, e.1.1) entries in
      reorgsBA ← lift (transformToByteArray reorgs);
      let isReorg := existsb (λ r, bool_decide (is_Some r)) reorgs in
      let canon := firstCanonical batches reorgs first in
      mret {| FirstBatchSequence := Batch.SeqNo first;
              FirstCanonBatchHeight := Batch.NumberOf canon;
              FirstCanonParentHash := ParentHash (Batch.Header canon);
              StartTime := startTime;
              BatchTimeDeltas := map (λ e, Gob.GobEncode e.1.2) entries;
              L1HeightDeltas := map (λ e, Gob.GobEncode e.2) entries;
              ReOrgs := if isReorg then reorgsBA else [] |}
  end.

Definition CreateExtRollup (r : Rollup) : M (Storage C) ExtRollup :=
  header ← createRollupHeader (rollup_batches r);
  encryptedHeader ← lift (serialiseCompressAndEncrypt header);
  encryptedTransactions ← lift (serialiseCompressAndEncrypt (map Batch.Transactions (rollup_batches r)));
  mret (mkExtRollup (rollup_header r) encryptedHeader encryptedTransactions).

(** ** From the header to batches *)

Definition index {A} (l : list A) (i : nat) : result A :=
  match l !! i with Some x => Ok x | None => Crash "index out of range" end.

(** The entry of a batch in the reorgs: nothing when there are none, or when it
    is empty. *)
Definition reorgOf (header : CalldataRollupHeader) (idx : nat) : result (option BatchHeader) :=
  match ReOrgs header with
  | [] => Ok None
  | reorgs =>
      encHeader ← index reorgs idx;
      match encHeader with
      | [] => Ok None
      | _ => h ← DecodeBytes encHeader; Ok (Some h)
      end
  end.

Definition txHashOf (txs : list L2Tx) : Hash :=
  match txs with [] => EmptyRootHash | _ => DeriveSha_txs txs end.

Fixpoint incompleteLoop (fuel : nat) (header : CalldataRollupHeader) (rollupL1Block : L1Block)
    (transactionsPerBatch : list (list L2Tx)) (idx : nat) (currentHeight currentTime : Z)
    (currentL1Height : option Z) : M (Storage C) (list batchFromRollup) :=
  match transactionsPerBatch with
  | [] => mret []
  | batchTransactions :: transactionsPerBatch =>
      encL1 ← lift (index (L1HeightDeltas header) idx);
      l1Delta ← lift (Gob.GobDecode encL1);
      let l1Height := match currentL1Height with
                      | None => l1Delta
                      | Some p => Int.i64 (Int.i64 l1Delta + Int.i64 p)
                      end in
      block ← getAncestorOfHeight fuel l1Height rollupL1Block;
      encTime ← lift (index (BatchTimeDeltas header) idx);
      timeDelta ← lift (Gob.GobDecode encTime);
      let currentTime := Int.i64 (currentTime + Int.i64 timeDelta) in
      let currentSeqNo := Int.i64 (Int.i64 (FirstBatchSequence header) + Z.of_nat idx) in
      fullReorgedHeader ← lift (reorgOf header idx);
      let currentHeight := match fullReorgedHeader with
                           | None => Int.i64 (currentHeight + 1)
                           | Some _ => currentHeight
                           end in
      rest ← incompleteLoop fuel header rollupL1Block transactionsPerBatch (S idx) currentHeight currentTime (Some l1Height);
      mret ({| fr_transactions := batchTransactions;
               fr_seqNo := currentSeqNo;
               fr_height := currentHeight;
               fr_txHash := txHashOf batchTransactions;
               fr_time := Int.u64 currentTime;
               fr_l1Proof := Block_Hash block;
               fr_header := fullReorgedHeader |} :: rest)
  end.

Definition createIncompleteBatches (fuel : nat) (header : CalldataRollupHeader)
    (transactionsPerBatch : list (list L2Tx)) (compressionL1Head : Hash) : M (Storage C) (list batchFromRollup) :=
  rollupL1Block ← storage_FetchBlock compressionL1Head;
  incompleteLoop fuel header rollupL1Block transactionsPerBatch 0
    (Int.i64 (Int.i64 (FirstCanonBatchHeight header) - 1)) (Int.i64 (StartTime header)) None.

(** ** Executing the batches *)

Definition computeBatch (fuel : nat) (blockPtr parentPtr : Hash) (txs : list L2Tx) (atTime seqNo : Z)
    : M (Storage C) ComputedBatch :=
  ComputeBatch fuel (mkContext blockPtr parentPtr txs atTime seqNo).

(** One batch of the loop: the hash that becomes the parent of the next. *)
Definition saveIncompleteBatch (fuel : nat) (g : Genesis) (parentHash : Hash) (ib : batchFromRollup)
    : M (Enclave C) Hash :=
  r ← on_storage (try (FetchBatchBySeqNo (Int.u64 (fr_seqNo ib))));
  match r with
  | inl b => mret (Batch.hashOf b)
  | inr err =>
      if negb (errors_Is err ErrNotFound) then fail err
      else if bool_decide (Int.u64 (fr_seqNo ib) = L2GenesisSeqNo) then
        '(genBatch, _) ← on_storage (CreateGenesisState g (fr_l1Proof ib) (fr_time ib));
        _ ← on_storage (StoreBatch genBatch);
        _ ← on_storage (StoreExecutedBatch genBatch []);
        _ ← on_registry (OnBatchExecuted genBatch []);
        mret (Batch.hashOf genBatch)
      else
        match fr_header ib with
        | Some header =>
            _ ← on_storage (StoreBatch (Batch.mk header None (fr_transactions ib)));
            mret parentHash
        | None =>
            computedBatch ← on_storage (computeBatch fuel (fr_l1Proof ib) parentHash (fr_transactions ib)
                                          (fr_time ib) (fr_seqNo ib));
            _ ← on_storage (wrap "cannot commit stateDB for incoming valid batch" (Commit computedBatch true));
            _ ← on_storage (StoreBatch (cb_Batch computedBatch));
            _ ← on_storage (StoreExecutedBatch (cb_Batch computedBatch) (cb_Receipts computedBatch));
            _ ← on_registry (OnBatchExecuted (cb_Batch computedBatch) []);
            mret (Batch.hashOf (cb_Batch computedBatch))
        end
  end.

Fixpoint saveLoop (fuel : nat) (g : Genesis) (parentHash : Hash) (ibs : list batchFromRollup) : M (Enclave C) unit :=
  match ibs with
  | [] => mret tt
  | ib :: ibs =>
      parentHash ← saveIncompleteBatch fuel g parentHash ib;
      saveLoop fuel g parentHash ibs
  end.

Definition executeAndSaveIncompleteBatches (fuel : nat) (g : Genesis) (header : CalldataRollupHeader)
    (incompleteBatches : list batchFromRollup) : M (Enclave C) unit :=
  let parentHash := FirstCanonParentHash header in
  _ ← (if bool_decide (Int.u64 (FirstBatchSequence header) ≠ L2GenesisSeqNo)
       then _ ← on_storage (FetchBatch parentHash); mret tt
       else mret tt);
  saveLoop fuel g parentHash incompleteBatches.

Definition ProcessExtRollup (fuel : nat) (g : Genesis) (rollup : ExtRollup) : M (Enclave C) CalldataRollupHeader :=
  transactionsPerBatch ← lift (decryptDecompressAndDeserialise (BatchPayloads rollup));
  header ← lift (decryptDecompressAndDeserialise (CalldataRollupHeaderBlob rollup));
  incompleteBatches ← on_storage (createIncompleteBatches fuel header transactionsPerBatch
                                    (CompressionL1Head (ext_rollup_header rollup)));
  _ ← executeAndSaveIncompleteBatches fuel g header incompleteBatches;
  mret header.
End compression.
