(* ===== verification/RollupSpec.v ===== *)
(** * Rollups restore their batches

    What [createRollupHeader] compresses, [createIncompleteBatches] restores,
    on another node and from other caches. *)

From S2P Require Import Prelude Types Codec L1Chain EnclaveDB BatchDB Events Storage StorageInv StorageOps StorageSpec CrossChain Reads Executor Mempool Registry RollupCompression.

Section spec.
Local Open Scope Z_scope.
Context {C : Type} `{CacheOk C, StateModel, StorageCodecsOk, HashingOk, RollupCodecs, !RollupCodecsOk}.
Implicit Types (s : Storage C) (d : DB).

(** A batch of the rollup, its L1 block, and whether it is canonical. *)
Abbreviation member := (Batch.t * L1Header * bool)%type.

(** The sequencer has the batch and its block. *)
Definition sequencer_has d (e : member) : Prop :=
  blocks d !! L1Proof (Batch.Header e.1.1) = Some e.1.2 ∧ is_Some (rlp_encode (Batch.Header e.1.1)) ∧
  ∃ can, ReadCanonicalBatchByHeight (Int.u64 (Batch.NumberOf e.1.1)) d = Ok can ∧
    e.2 = bool_decide (Batch.hashOf can = Batch.hashOf e.1.1).

(** The other node finds a block of the same height below the head of the
    rollup; for a canonical batch it is the block of the batch. *)
Definition validator_finds d (head : L1Header) (e : member) : Prop :=
  ∃ c, ancestor (blocks d) head c ∧ h_number c = h_number e.1.2 ∧
    (e.2 = true → h_hash c = L1Proof (Batch.Header e.1.1)).

(** The canonical batches have consecutive heights from [n + 1] on. *)
Fixpoint canon_heights (n : Z) (l : list member) : Prop :=
  match l with
  | [] => True
  | (b, _, true) :: l => Batch.NumberOf b = n + 1 ∧ canon_heights (n + 1) l
  | (_, _, false) :: l => canon_heights n l
  end.

Definition reorgEntry (e : member) : option BatchHeader := if e.2 then None else Some (Batch.Header e.1.1).

(** What the loop over the batches computes. *)
Fixpoint entries (prev : Z) (prevL1 : option Z) (l : list member) : list (option BatchHeader * Z * Z) :=
  match l with
  | [] => []
  | e :: l =>
      let time := Time (Batch.Header e.1.1) in
      (reorgEntry e, Int.i64 (Int.u64 (time - prev)),
       match prevL1 with None => h_number e.1.2 | Some p => Int.i64 (Int.i64 (h_number e.1.2) - Int.i64 p) end)
      :: entries time (Some (h_number e.1.2)) l
  end.

Lemma entries_reorgs prev prevL1 l : map (λ e, e.1.1) (entries prev prevL1 l) = map reorgEntry l.
Proof. revert prev prevL1. induction l as [|e l IH]; intros prev prevL1; cbn; [done|]. by rewrite IH. Qed.

Lemma rollupLoop_spec d tr (l : list member) : db_ok d → Forall (sequencer_has d) l → ∀ prev prevL1 s, holds d tr s →
  ∃ s', rollupLoop (map (λ e, e.1.1) l) prev prevL1 s = (s', Ok (entries prev prevL1 l)) ∧ holds d tr s'.
Proof.
  intros Hd. induction 1 as [|[[b hd] canon] l (Hhd&_&can&Hcan&Hc) _ IH]; intros prev prevL1 s Hs;
    cbn [map rollupLoop entries fst snd] in *; [by exists s|].
  unfold mbind, M_bind, FetchBatchByHeight, query. rewrite (proj1 Hs), Hcan.
  destruct (storage_FetchBlock_spec s (L1Proof (Batch.Header b)) (holds_ok d tr Hd s Hs)) as (Hok&Hsame&Hb).
  rewrite (proj1 Hs), Hhd in Hb. destruct Hb as (blk&Hblk&Hhdr).
  pose proof (holds_same d tr s _ Hs Hok Hsame) as Hs1.
  destruct (storage_FetchBlock (L1Proof (Batch.Header b)) s) as [s1 r]. simpl in Hblk, Hs1. subst r.
  destruct (IH (Time (Batch.Header b)) (Some (h_number hd)) s1 Hs1) as (s'&Hrun&Hs').
  rewrite Hhdr, Hrun. exists s'. split; [|done]. unfold mret, M_ret, reorgEntry. cbn [fst snd]. rewrite Hc.
  by case_bool_decide; case_bool_decide.
Qed.

Lemma transformToByteArray_spec d (l : list member) :
  Forall (sequencer_has d) l →
  ∃ ba, transformToByteArray (map reorgEntry l) = Ok ba ∧
    Forall2 (λ e v, match reorgEntry e with Some h => rlp_encode h = Some v ∧ v ≠ [] | None => v = [] end) l ba.
Proof.
  unfold transformToByteArray. setoid_rewrite mapR_Ok.
  induction 1 as [|[[b hd] canon] l (_&[v Hv]&_) _ (ba&IH&Hba)]; [by exists []|]. cbn [map fst snd] in *.
  destruct canon.
  - exists ([] :: ba). by split; constructor.
  - exists (v :: ba). split; constructor; try done; cbn.
    + unfold EncodeToBytes. by rewrite Hv.
    + split; [done|]. by eapply header_nonempty.
Qed.

(** The reorgs are left out when there are none. *)
Lemma reorgOf_spec (l : list member) ba hdr : 
  Forall2 (λ e v, match reorgEntry e with Some h => rlp_encode h = Some v ∧ v ≠ [] | None => v = [] end) l ba →
  ReOrgs hdr = (if existsb (λ r, bool_decide (is_Some r)) (map reorgEntry l) then ba else []) →
  ∀ i e, l !! i = Some e → reorgOf hdr i = Ok (reorgEntry e).
Proof.
  intros Hba Hro i e Hi. unfold reorgOf. rewrite Hro.
  destruct (existsb _ _) eqn:Hex.
  - destruct (Forall2_lookup_l _ _ _ _ _ Hba Hi) as (v&Hv&Hev).
    destruct ba as [|v0 ba]; [done|]. result_unfold. unfold index. rewrite Hv.
    destruct (reorgEntry e) as [h|]; [|by subst v]. destruct Hev as [Henc Hne]. destruct v; [done|].
    unfold DecodeBytes. by rewrite (rlp_roundtrip _ _ Henc).
  - destruct (reorgEntry e) as [h|] eqn:He; [|done]. exfalso.
    assert (existsb (λ r : option BatchHeader, bool_decide (is_Some r)) (map reorgEntry l) = true) as Htrue; [|congruence].
    apply existsb_exists. exists (Some h). split; [|done]. apply in_map_iff.
    exists e. split; [done|]. by apply list_elem_of_In, (list_elem_of_lookup_2 _ i).
Qed.

(** ** Restoring *)

(** What the other node knows of a batch before it executes it. *)
Definition restored (e : member) (ib : batchFromRollup) : Prop :=
  fr_transactions ib = Batch.Transactions e.1.1 ∧ fr_seqNo ib = Batch.SeqNo e.1.1 ∧
  fr_txHash ib = txHashOf (Batch.Transactions e.1.1) ∧ fr_time ib = Time (Batch.Header e.1.1) ∧
  fr_header ib = reorgEntry e ∧
  (e.2 = true → fr_height ib = Batch.NumberOf e.1.1 ∧ fr_l1Proof ib = L1Proof (Batch.Header e.1.1)).

Lemma getAncestorOfHeight_holds d tr fuel n head s :
  db_ok d → holds d tr s → holds d tr (getAncestorOfHeight fuel n head s).1.
Proof.
  intros Hd. assert (PreOrder (λ s s' : Storage C, holds d tr s → holds d tr s')) by (split; red; auto).
  apply (getAncestorOfHeight_frame (λ s s', holds d tr s → holds d tr s')). intros h s' Hs'.
  by destruct (reads_FetchBlock d tr Hd h s' s' Hs' Hs') as (?&_).
Qed.

(** The block of a batch, found by its height. *)
Lemma getAncestor_finds d tr fuel head s (e : member) :
  db_ok d → wf_view (blocks d) → holds d tr s → blocks d !! Block_Hash head = Some (b_header head) →
  h_number (b_header head) < Z.of_nat fuel → validator_finds d (b_header head) e → 0 ≤ h_number e.1.2 < 2 ^ 63 →
  ∃ s' b, getAncestorOfHeight fuel (h_number e.1.2) head s = (s', Ok b) ∧ holds d tr s' ∧
    (e.2 = true → Block_Hash b = L1Proof (Batch.Header e.1.1)).
Proof.
  intros Hd Hwf Hs Hhead Hfuel (c&Hc&Hnum&Hcanon) Hn.
  pose proof (getAncestorOfHeight_holds d tr fuel (h_number e.1.2) head s Hd Hs) as Hs'.
  pose proof (getAncestorOfHeight_spec (St:=Storage C) fuel (h_number e.1.2) head s) as Hspec.
  cbn [view resolver_inv storage_resolver_ok] in Hspec. rewrite (proj1 Hs) in Hspec.
  destruct (Hspec (holds_ok d tr Hd s Hs) Hwf Hhead Hfuel) as (_&_&Hr). clear Hspec.
  rewrite Int.u64_id in Hr by (unfold Int.is_u64, Int.two64; lia).
  destruct (getAncestorOfHeight fuel (h_number e.1.2) head s) as [s' [b|err|cr]]; simpl in *; [|by destruct (Hr c)|done].
  exists s', b. split_and!; [done..|]. intros Hec. rewrite <-(Hcanon Hec). unfold Block_Hash. f_equal.
  apply (ancestor_at_height (blocks d) Hwf (b_header head)); [by eapply wf_linked|by destruct Hr|done|].
  destruct Hr. congruence.
Qed.

(** The header agrees with the entries of the members from index [idx] on. *)
Definition encodes (hdr : CalldataRollupHeader) (idx : nat) (es : list (option BatchHeader * Z * Z)) : Prop :=
  ∀ j e, es !! j = Some e →
    L1HeightDeltas hdr !! (idx + j)%nat = Some (Gob.GobEncode e.2) ∧
    BatchTimeDeltas hdr !! (idx + j)%nat = Some (Gob.GobEncode e.1.2) ∧ reorgOf hdr (idx + j) = Ok e.1.1.

Lemma encodes_cons hdr idx e es : encodes hdr idx (e :: es) →
  L1HeightDeltas hdr !! idx = Some (Gob.GobEncode e.2) ∧ BatchTimeDeltas hdr !! idx = Some (Gob.GobEncode e.1.2) ∧
  reorgOf hdr idx = Ok e.1.1 ∧ encodes hdr (S idx) es.
Proof.
  intros Henc. destruct (Henc 0%nat e eq_refl) as (H1'&H2'&H3'). rewrite Nat.add_0_r in *. split_and!; [done..|].
  intros j e' Hj. replace (S idx + j)%nat with (idx + S j)%nat by lia. by apply Henc.
Qed.

(** The ranges of a member at sequence number [n]. *)
Definition member_at (n : Z) (e : member) : Prop :=
  Batch.SeqNo e.1.1 = n ∧ Int.is_i64 n ∧ Int.is_u64 (Time (Batch.Header e.1.1)) ∧
  0 ≤ h_number e.1.2 < 2 ^ 63 ∧ 0 ≤ Batch.NumberOf e.1.1 < 2 ^ 63.

Lemma incompleteLoop_spec d tr fuel hdr head : db_ok d → wf_view (blocks d) →
  blocks d !! Block_Hash head = Some (b_header head) → h_number (b_header head) < Z.of_nat fuel →
  ∀ (l : list member) idx height prev prevL1 s, holds d tr s →
  Forall (validator_finds d (b_header head)) l → canon_heights height l →
  (∀ i e, l !! i = Some e → member_at (Int.i64 (FirstBatchSequence hdr) + Z.of_nat (idx + i)) e) →
  (∀ p, prevL1 = Some p → 0 ≤ p < 2 ^ 63) →
  encodes hdr idx (entries prev prevL1 l) →
  ∃ s' ibs, incompleteLoop fuel hdr head (map (λ e, Batch.Transactions e.1.1) l) idx height (Int.i64 prev) prevL1 s
      = (s', Ok ibs) ∧ holds d tr s' ∧ Forall2 restored l ibs.
Proof.
  intros Hd Hwf Hhead Hfuel. induction l as [|e l IH]; intros idx height prev prevL1 s Hs Hfind Hcan Hat Hp1 Henc.
  { exists s, []. split_and!; [done..|constructor]. }
  apply Forall_cons in Hfind as [Hfe Hfind]. cbn [entries] in Henc. apply encodes_cons in Henc as (HL&HT&HR&Henc).
  cbn [fst snd] in HL, HT, HR. destruct (Hat 0%nat e eq_refl) as (Hseq&Hseqr&Htime&Hn&Hnum). rewrite Nat.add_0_r in Hseq, Hseqr.
  destruct (getAncestor_finds d tr fuel head s e) as (s1&blk&Hblk&Hs1&Hproof); [done..|].
  set (height' := match reorgEntry e with None => Int.i64 (height + 1) | Some _ => height end).
  assert (canon_heights height' l ∧ (e.2 = true → height' = Batch.NumberOf e.1.1)) as [Hcan' Hheight].
  { unfold height', reorgEntry. destruct e as [[b hd] []]; cbn [fst snd canon_heights] in *; [|done].
    destruct Hcan as [<- Hcan]. by rewrite Int.i64_id by (unfold Int.is_i64; lia). }
  destruct (IH (S idx) height' (Time (Batch.Header e.1.1)) (Some (h_number e.1.2)) s1) as (s'&ibs&Hrun&Hs'&Hres);
    [done|done|done| |by intros ? [= <-]|done|].
  { intros i e' Hi. replace (S idx + i)%nat with (idx + S i)%nat by lia. by apply Hat. }
  exists s'. eexists. split; [|split; [done|constructor; [|exact Hres]]].
  - cbn [map incompleteLoop]. unfold mbind, M_bind, lift, index. rewrite HL, Gob.GobDecode_GobEncode.
    replace (match prevL1 with None => _ | Some p => _ end) with (h_number e.1.2); [rewrite Hblk, HT, Gob.GobDecode_GobEncode, HR|].
    + fold height'. replace (Int.i64 (Int.i64 prev + _)) with (Int.i64 (Time (Batch.Header e.1.1))); [by rewrite Hrun|].
      autorewrite with go_int. f_equal. lia.
    + destruct prevL1 as [p|]; [|done]. autorewrite with go_int. rewrite Int.i64_id; unfold Int.is_i64; lia.
  - unfold restored. cbn [fr_transactions fr_seqNo fr_txHash fr_time fr_header fr_height fr_l1Proof].
    split_and!; [done| |done| |done|].
    + rewrite Int.i64_id by done. done.
    + autorewrite with go_int. by apply Int.u64_id.
    + intros He. split; [by apply Hheight|by apply Hproof].
Qed.

(** Counted from the first canonical one, the canonical batches have
    consecutive heights. *)
Definition canon_consecutive (l : list member) : Prop :=
  ∀ i e, l !! i = Some e → e.2 = true → (∀ j e', (j < i)%nat → l !! j = Some e' → e'.2 = false) →
    canon_heights (Batch.NumberOf e.1.1 - 1) l.

Lemma firstCanonical_heights (l : list member) : ∀ first, canon_consecutive l →
  canon_heights (Batch.NumberOf (firstCanonical (map (λ e, e.1.1) l) (map reorgEntry l) first) - 1) l.
Proof.
  induction l as [|[[b hd] []] l IH]; intros first Hcan; cbn [map firstCanonical reorgEntry fst snd]; [done|..].
  - apply (Hcan 0%nat (b, hd, true)); [done..|]. intros j e' Hj. lia.
  - cbn [canon_heights]. apply IH. intros i e Hi He Hlt. apply (Hcan (S i) e); [done..|].
    intros [|j] e' Hj Hj'; [by simplify_eq/=|]. apply (Hlt j); [lia|done].
Qed.

Lemma firstCanonical_in (l : list member) : ∀ first,
  firstCanonical (map (λ e, e.1.1) l) (map reorgEntry l) first ∈ first :: map (λ e, e.1.1) l.
Proof.
  induction l as [|[[b hd] []] l IH]; intros first; cbn [map firstCanonical reorgEntry fst snd]; [left|right; left|].
  specialize (IH first). rewrite !elem_of_cons in *. tauto.
Qed.

(** The parent of the first canonical batch, or of the first one. *)
Definition firstParent (e : member) (l : list member) : Hash :=
  ParentHash (Batch.Header (firstCanonical (map (λ e, e.1.1) (e :: l)) (map reorgEntry (e :: l)) e.1.1)).

Lemma createRollupHeader_spec d tr e (l : list member) s :
  db_ok d → Forall (sequencer_has d) (e :: l) → holds d tr s →
  ∃ s' hdr, createRollupHeader (map (λ e, e.1.1) (e :: l)) s = (s', Ok hdr) ∧ holds d tr s' ∧
    FirstBatchSequence hdr = Batch.SeqNo e.1.1 ∧ StartTime hdr = Time (Batch.Header e.1.1) ∧
    FirstCanonBatchHeight hdr =
      Batch.NumberOf (firstCanonical (map (λ e, e.1.1) (e :: l)) (map reorgEntry (e :: l)) e.1.1) ∧
    FirstCanonParentHash hdr = firstParent e l ∧
    encodes hdr 0 (entries (Time (Batch.Header e.1.1)) None (e :: l)).
Proof.
  intros Hd Hl Hs. destruct (rollupLoop_spec d tr (e :: l) Hd Hl (Time (Batch.Header e.1.1)) None s Hs) as (s'&Hrun&Hs').
  destruct (transformToByteArray_spec d (e :: l) Hl) as (ba&Hba&Hall).
  unfold createRollupHeader, mbind, M_bind. cbn [map]. cbn [map] in Hrun. rewrite Hrun.
  rewrite entries_reorgs, Hba. unfold lift. eexists s', _. split; [done|]. split_and!; [done..|].
  intros j en Hj. cbn [L1HeightDeltas BatchTimeDeltas Nat.add]. rewrite !list_lookup_fmap, Hj. split_and!; [done..|].
  assert (reorgEntry <$> (e :: l) !! j = Some en.1.1) as Hre.
  { rewrite <-list_lookup_fmap. change (reorgEntry <$> e :: l) with (map reorgEntry (e :: l)).
    rewrite <-(entries_reorgs (Time (Batch.Header e.1.1)) None (e :: l)).
    rewrite (list_lookup_fmap (λ e, e.1.1) (entries _ _ _)), Hj. done. }
  destruct ((e :: l) !! j) as [m|] eqn:Hm; [|done]. injection Hre as <-.
  by eapply (reorgOf_spec (e :: l) ba).
Qed.

Lemma firstCanonical_range (l : list member) e n :
  (∀ i e', (e :: l) !! i = Some e' → member_at (n + Z.of_nat i) e') →
  0 ≤ Batch.NumberOf (firstCanonical (map (λ e, e.1.1) (e :: l)) (map reorgEntry (e :: l)) e.1.1) < 2 ^ 63.
Proof.
  intros Hat. assert (firstCanonical (map (λ e, e.1.1) (e :: l)) (map reorgEntry (e :: l)) e.1.1
    ∈ map (λ e, e.1.1) (e :: l)) as Hin.
  { pose proof (firstCanonical_in (e :: l) e.1.1) as Hin. apply elem_of_cons in Hin as [->|Hin]; [left|done]. }
  apply list_elem_of_fmap in Hin as (e'&->&[i Hi]%list_elem_of_lookup_1). by destruct (Hat i e' Hi) as (_&_&_&_&?).
Qed.

(** The decoding side, for a header that encodes the members. *)
Lemma createIncompleteBatches_spec d tr fuel s e l hdr l1Head (head : L1Header) :
  db_ok d → wf_view (blocks d) → holds d tr s → Forall (validator_finds d head) (e :: l) →
  blocks d !! l1Head = Some head → h_number head < Z.of_nat fuel →
  (∀ i e', (e :: l) !! i = Some e' → member_at (Batch.SeqNo e.1.1 + Z.of_nat i) e') → canon_consecutive (e :: l) →
  FirstBatchSequence hdr = Batch.SeqNo e.1.1 → StartTime hdr = Time (Batch.Header e.1.1) →
  FirstCanonBatchHeight hdr =
    Batch.NumberOf (firstCanonical (map (λ e, e.1.1) (e :: l)) (map reorgEntry (e :: l)) e.1.1) →
  encodes hdr 0 (entries (Time (Batch.Header e.1.1)) None (e :: l)) →
  ∃ s' ibs, createIncompleteBatches fuel hdr (map (λ e, Batch.Transactions e.1.1) (e :: l)) l1Head s = (s', Ok ibs) ∧
    holds d tr s' ∧ Forall2 restored (e :: l) ibs.
Proof.
  intros Hd Hwf Hs Hval Hhead Hfuel Hat Hcan HF HT HH Henc.
  destruct (storage_FetchBlock_spec s l1Head (holds_ok d tr Hd s Hs)) as (Hok&Hsame&Hb).
  rewrite (proj1 Hs), Hhead in Hb. destruct Hb as (blk&Hblk&Hhdr).
  pose proof (holds_same d tr s _ Hs Hok Hsame) as Hs1.
  unfold createIncompleteBatches, mbind, M_bind. destruct (storage_FetchBlock l1Head s) as [s1 r]. simpl in Hblk, Hs1. subst r.
  pose proof (firstCanonical_range l e _ Hat) as Hr. rewrite <-HH in Hr. rewrite HT.
  rewrite (Int.i64_id (FirstCanonBatchHeight hdr)) by (unfold Int.is_i64; lia).
  rewrite (Int.i64_id (FirstCanonBatchHeight hdr - 1)) by (unfold Int.is_i64; lia).
  apply (incompleteLoop_spec d tr fuel hdr blk); try done; try (by rewrite Hhdr).
  - unfold Block_Hash. by rewrite Hhdr, (wf_hash _ Hwf _ _ Hhead).
  - rewrite HH. by apply firstCanonical_heights.
  - intros i e' Hi. destruct (Hat 0%nat e eq_refl) as (_&Hi0&_). rewrite Z.add_0_r in Hi0.
    rewrite HF, Int.i64_id by done. by apply Hat.
Qed.

Context `{BS : BlobServices, !BlobServicesOk}.

(** The rollup decrypts to the transactions and the header, from which the
    batches are recovered. *)
Lemma rollup_restored d1 tr1 d2 tr2 fuel s1 s1' s2 e l header (head : L1Header) ext :
  db_ok d1 → db_ok d2 → wf_view (blocks d2) → holds d1 tr1 s1 → holds d2 tr2 s2 →
  Forall (sequencer_has d1) (e :: l) → Forall (validator_finds d2 head) (e :: l) →
  blocks d2 !! CompressionL1Head header = Some head → h_number head < Z.of_nat fuel →
  (∀ i e', (e :: l) !! i = Some e' → member_at (Batch.SeqNo e.1.1 + Z.of_nat i) e') → canon_consecutive (e :: l) →
  CreateExtRollup (mkRollup header (map (λ e, e.1.1) (e :: l))) s1 = (s1', Ok ext) →
  ∃ txs hdr s2' ibs, decryptDecompressAndDeserialise (BatchPayloads ext) = Ok txs ∧
    decryptDecompressAndDeserialise (CalldataRollupHeaderBlob ext) = Ok hdr ∧
    createIncompleteBatches fuel hdr txs (CompressionL1Head (ext_rollup_header ext)) s2 = (s2', Ok ibs) ∧
    holds d2 tr2 s2' ∧ Forall2 restored (e :: l) ibs ∧
    FirstBatchSequence hdr = Batch.SeqNo e.1.1 ∧ FirstCanonParentHash hdr = firstParent e l.
Proof.
  intros Hd1 Hd2 Hwf Hs1 Hs2 Hseq Hval Hhead Hfuel Hat Hcan Hext.
  destruct (createRollupHeader_spec d1 tr1 e l s1 Hd1 Hseq Hs1) as (s1a&hdr&Hcreate&_&HF&HT&HH&HP&Henc).
  unfold CreateExtRollup, mbind, M_bind, lift in Hext. cbn [rollup_batches rollup_header] in Hext. rewrite Hcreate in Hext.
  destruct (serialiseCompressAndEncrypt hdr) as [encHdr|?|?] eqn:Hh; try done.
  destruct (serialiseCompressAndEncrypt (map _ _)) as [encTxs|?|?] eqn:Ht; try done. injection Hext as _ <-.
  destruct (createIncompleteBatches_spec d2 tr2 fuel s2 e l hdr (CompressionL1Head header) head)
    as (s2'&ibs&Hrun&Hs2'&Hres); [done..|].
  exists (map (λ e, Batch.Transactions e.1.1) (e :: l)), hdr, s2', ibs.
  split_and!; [|by apply blob_roundtrip|done..]. apply blob_roundtrip. cbn [BatchPayloads]. by rewrite <-Ht, map_map.
Qed.

(** C12: A rollup restores its batches: what the sequencer compresses and encrypts with
    [CreateExtRollup] decrypts, on a node with the L1 chain below the rollup's head,
    to the transactions and a header from which [createIncompleteBatches] recovers
    the sequence number, time and transactions of each batch, the height and L1
    block of each canonical one, and the whole header of each reorged one. *)
Theorem rollup_restores_batches d1 tr1 d2 tr2 fuel s1 s1' s2 e l header (head : L1Header) ext :
  db_ok d1 → db_ok d2 → wf_view (blocks d2) → holds d1 tr1 s1 → holds d2 tr2 s2 →
  Forall (sequencer_has d1) (e :: l) → Forall (validator_finds d2 head) (e :: l) →
  blocks d2 !! CompressionL1Head header = Some head → h_number head < Z.of_nat fuel →
  (∀ i e', (e :: l) !! i = Some e' → member_at (Batch.SeqNo e.1.1 + Z.of_nat i) e') → canon_consecutive (e :: l) →
  CreateExtRollup (mkRollup header (map (λ e, e.1.1) (e :: l))) s1 = (s1', Ok ext) →
  ∃ txs hdr s2' ibs, decryptDecompressAndDeserialise (BatchPayloads ext) = Ok txs ∧
    decryptDecompressAndDeserialise (CalldataRollupHeaderBlob ext) = Ok hdr ∧
    createIncompleteBatches fuel hdr txs (CompressionL1Head (ext_rollup_header ext)) s2 = (s2', Ok ibs) ∧
    holds d2 tr2 s2' ∧ Forall2 restored (e :: l) ibs.
Proof.
  intros Hd1 Hd2 Hwf Hs1 Hs2 Hseq Hval Hhead Hfuel Hat Hcan Hext.
  destruct (rollup_restored d1 tr1 d2 tr2 fuel s1 s1' s2 e l header head ext) as (txs&hdr&s2'&ibs&?&?&?&?&?&_); [done..|].
  by exists txs, hdr, s2', ibs.
Qed.
End spec.
