(* ===== verification/Rollups.v ===== *)
(** * Rollups and secrets of the network

    [rollup_producer.go], [rollup_consumer.go], [sigverifier.go],
    [shared_secret_process.go] and [attestation.go] of [go/enclave/components],
    and [DecodeTx] of [go/ethadapter/mgmtcontractlib]. *)

From S2P Require Import Prelude Types Codec L1Chain EnclaveDB BatchDB Events Storage StorageInv StorageOps StorageSpec CrossChain Reads Executor Mempool Registry RollupCompression.

(** ** The management contract *)

(** The methods [DecodeTx] tells apart. *)
Inductive MgmtMethod :=
  | AddRollupMethod
  | RespondSecretMethod
  | RequestSecretMethod
  | InitializeSecretMethod
  | OtherMethod.

(** The fields of [ethadapter.L1RespondSecretTx] that decoding sets. *)
Record RespondSecret := mkRespondSecret {
  rs_AttesterID : Address;
  rs_RequesterID : Address;
  rs_Secret : bytes;
  rs_HostAddress : string
}.

(** [ethadapter.L1Transaction] *)
Inductive L1Transaction :=
  | L1RollupTx (rollup : bytes)
  | L1RespondSecretTx (response : RespondSecret)
  | L1RequestSecretTx (attestation : bytes)
  | L1InitializeSecretTx (attestation : bytes).

(** The ABI of the contract: the method of a selector, the argument that is read,
    unpacked and decoded from base 64, and the arguments of a response. *)
Class MgmtABI := {
  mgmt_addr : Address;
  MethodById : bytes → option MgmtMethod;
  UnpackArg : MgmtMethod → bytes → option bytes;
  UnpackRespond : bytes → option RespondSecret
}.

Definition methodBytesLen : nat := 4.

(** Data that does not decode is a panic. *)
Definition DecodeTx `{MgmtABI} (tx : L1Tx) : result (option L1Transaction) :=
  if bool_decide (l1tx_to tx ≠ Some mgmt_addr ∨ l1tx_data tx = []) then Ok None
  else if bool_decide (length (l1tx_data tx) < methodBytesLen)%nat then Crash "slice bounds out of range"
  else
    match MethodById (take methodBytesLen (l1tx_data tx)) with
    | None => Crash "no method with id"
    | Some OtherMethod => Ok None
    | Some RespondSecretMethod =>
        match UnpackRespond (drop methodBytesLen (l1tx_data tx)) with
        | None => Crash "could not unpack transaction."
        | Some response => Ok (Some (L1RespondSecretTx response))
        end
    | Some method =>
        match UnpackArg method (drop methodBytesLen (l1tx_data tx)) with
        | None => Crash "cannot unpack"
        | Some arg =>
            Ok (match method with
                | AddRollupMethod => Some (L1RollupTx arg)
                | RequestSecretMethod => Some (L1RequestSecretTx arg)
                | InitializeSecretMethod => Some (L1InitializeSecretTx arg)
                | RespondSecretMethod | OtherMethod => None
                end)
        end
    end.

(** ** Signatures *)

(** ECDSA over go-ethereum's curve; the randomness of signing is part of the
    instance. *)
Class Signatures := {
  PublicKey : bytes → bytes;
  ecdsa_Sign : bytes → Hash → option (Z * Z);
  ecdsa_Verify : bytes → Hash → Z → Z → bool
}.
Class SignaturesOk `{Signatures} : Prop :=
  verify_sign : ∀ key h r s, ecdsa_Sign key h = Some (r, s) → ecdsa_Verify (PublicKey key) h r s = true.

(** ** Attestation *)

Record AttestationReport := mkAttestation {
  att_Report : bytes;
  att_PubKey : bytes;
  att_Owner : Address;
  att_HostAddress : string
}.

(** Verification of a report by the enclave runtime, hashing of the identity
    and encryption under a public key. *)
Class Attestations := {
  #[global] codec_attestation :: Codec AttestationReport;
  (** what a decoding that fails leaves in the structure *)
  partialAttestation : bytes → AttestationReport;
  VerifyReport : AttestationReport → option bytes;
  IDHash : Address → bytes → string → option bytes;
  EncryptWithPublicKey : bytes → bytes → option bytes
}.

Record ProducedSecretResponse := mkSecretResponse {
  sr_Secret : bytes;
  sr_RequesterID : Address;
  sr_HostAddress : string
}.

Definition getIDHash `{Attestations} (owner : Address) (pubKey : bytes) (hostAddress : string) : result bytes :=
  of_option (ErrMsg "failed to format ID data as JSON") (IDHash owner pubKey hostAddress).

Definition VerifyIdentity `{Attestations} (data : bytes) (att : AttestationReport) : result unit :=
  expectedIDHash ← getIDHash (att_Owner att) (att_PubKey att) (att_HostAddress att);
  if bool_decide (length data < length expectedIDHash)%nat then Crash "slice bounds out of range"
  else if bool_decide (expectedIDHash = take (length expectedIDHash) data) then Ok tt
  else Err (ErrMsg "failed to verify hash for attestation report").

Section components.
Local Open Scope Z_scope.
Context {C : Type} `{Cache C, StateModel, StorageCodecs, Hashing, MB : MessageBus}.
Context `{OW : !OwnerWallet, Keccak, EV : !EVM, CS : !Codec (list Z), RollupCodecs, BlobServices}.
Context `{MgmtABI, Signatures, AT : !Attestations, CE : !Codec ExtRollup}.
Implicit Types (s : Storage C).

(** ** The producer *)

Definition createNextRollup (sequencerID : Address) (batches : list Batch.t) (lastBatch : Batch.t) (block : L1Block)
    : Rollup := {|
  rollup_header := {|
    Coinbase := sequencerID;
    CompressionL1Head := Block_Hash block;
    RollupMessages := flat_map (λ b, CrossChainMessages (Batch.Header b)) batches;
    PayloadHash := EmptyHash;
    rollupR := 0; rollupS := 0;
    LastBatchSeqNo := Int.u64 (Batch.SeqNo lastBatch) |};
  rollup_batches := batches
|}.

Definition CreateRollup (fuel : nat) (sequencerID : Address) (fromBatchNo upToL1Height : Z)
    : M (Storage C * rollupLimiter) Rollup :=
  batches ← wrap "could not fetch 'from' batch for rollup" (BatchesAfter fuel fromBatchNo upToL1Height);
  match last batches with
  | None => fail (ErrMsg "no batches for rollup")
  | Some lastBatch =>
      block ← from_storage (FetchCanonicaBlockByHeight (Int.i64 upToL1Height));
      mret (createNextRollup sequencerID batches lastBatch block)
  end.

(** ** The signature validator *)

Definition CheckSequencerSignature (sequencerID : Address) (headerHash : Hash) (sigR sigS : bigInt)
    : M (Enclave C) unit :=
  match sigR, sigS with
  | Some r, Some s =>
      cached ← gets e_attestedKey;
      key ← match cached with
            | Some key => mret key
            | None =>
                attestedKey ← wrap "could not retrieve attested key for aggregator"
                                (on_storage (FetchAttestedKey sequencerID));
                _ ← modify (set_attestedKey attestedKey);
                mret attestedKey
            end;
      if ecdsa_Verify key headerHash r s then mret tt else fail (ErrMsg "could not verify ECDSA signature")
  | _, _ => fail (ErrMsg "missing signature on batch")
  end.

(** ** The consumer *)

(** The loop over the successful transactions; [logger.Crit] on a rollup that
    does not decode. *)
Fixpoint decodeRollups (txs : list L1Tx) : result (list ExtRollup) :=
  match txs with
  | [] => Ok []
  | tx :: txs =>
      t ← DecodeTx tx;
      match t with
      | Some (L1RollupTx rollup) =>
          match rlp_decode rollup with
          | None => Crash "could not decode rollup."
          | Some r => rest ← decodeRollups txs; Ok (r :: rest)
          end
      | _ => decodeRollups txs
      end
  end.

Definition extractRollups (br : BlockAndReceipts.t) : result (list ExtRollup) :=
  txs ← (BlockAndReceipts.SuccessfulTransactions br).2;
  decodeRollups txs.

Fixpoint getSignedRollup (sequencerID : Address) (rollups : list ExtRollup) : M (Enclave C) (list ExtRollup) :=
  match rollups with
  | [] => mret []
  | rollup :: rollups =>
      _ ← wrap "rollup signature was invalid"
            (CheckSequencerSignature sequencerID (ExtRollup_Hash rollup) (Some (rollupR (ext_rollup_header rollup)))
               (Some (rollupS (ext_rollup_header rollup))));
      signedRollup ← getSignedRollup sequencerID rollups;
      mret (rollup :: signedRollup)
  end.

Definition processRollup (fuel : nat) (g : Genesis) (rollup : ExtRollup) : M (Enclave C) unit :=
  internalHeader ← ProcessExtRollup fuel g rollup;
  on_storage (StoreRollup rollup internalHeader).

Definition ProcessRollupsInBlock (fuel : nat) (g : Genesis) (sequencerID : Address) (b : BlockAndReceipts.t)
    : M (Enclave C) unit :=
  rollups ← lift (extractRollups b);
  match rollups with
  | [] => mret tt
  | _ =>
      rollups ← getSignedRollup sequencerID rollups;
      forM rollups (processRollup fuel g)
  end.

(** ** The shared secret *)

Definition storeAttestation (att : AttestationReport) : M (Storage C) unit :=
  match DecompressPubkey (att_PubKey att) with
  | None => fail (ErrMsg "failed to parse public key")
  | Some key => wrap "could not store attested key" (StoreAttestedKey (att_Owner att) key)
  end.

Definition EncryptSecret (pubKeyEncoded secret : bytes) : result bytes :=
  key ← of_option (ErrMsg "failed to parse public key") (DecompressPubkey pubKeyEncoded);
  of_option (ErrMsg "failed to encrypt with public key") (EncryptWithPublicKey secret key).

Definition verifyAttestationAndEncryptSecret (att : AttestationReport) : M (Storage C) bytes :=
  data ← lift (of_option (ErrMsg "unable to verify report") (VerifyReport att));
  _ ← wrap "unable to verify identity" (lift (VerifyIdentity data att));
  secret ← wrap "could not retrieve secret; this should not happen" FetchSecret;
  lift (EncryptSecret (att_PubKey att) secret).

Definition processSecretRequest (attestation : bytes) : M (Storage C) ProducedSecretResponse :=
  match rlp_decode attestation with
  | None => fail (ErrMsg "failed to decode attestation")
  | Some att =>
      secret ← wrap "secret request failed, no response will be published" (verifyAttestationAndEncryptSecret att);
      _ ← wrap "could not store attestation, no response will be published" (storeAttestation att);
      mret (mkSecretResponse secret (att_Owner att) (att_HostAddress att))
  end.

(** Errors are logged; a failed decoding still tries to store what it left. *)
Fixpoint secretLoop (txs : list L1Tx) : M (Storage C) (list ProducedSecretResponse) :=
  match txs with
  | [] => mret []
  | tx :: txs =>
      t ← lift (DecodeTx tx);
      match t with
      | Some (L1RequestSecretTx attestation) =>
          r ← try (processSecretRequest attestation);
          rest ← secretLoop txs;
          mret (match r with inl resp => resp :: rest | inr _ => rest end)
      | Some (L1InitializeSecretTx attestation) =>
          let att := default (partialAttestation attestation) (rlp_decode attestation) in
          _ ← try (storeAttestation att);
          secretLoop txs
      | _ => secretLoop txs
      end
  end.

Definition ProcessNetworkSecretMsgs (br : BlockAndReceipts.t) : M (Storage C) (list ProducedSecretResponse) :=
  transactions ← lift (BlockAndReceipts.SuccessfulTransactions br).2;
  secretLoop transactions.
End components.

(** ** Correctness *)

Section correctness.
Local Open Scope Z_scope.
Context {C : Type} `{Cache C, StateModel, StorageCodecs, Hashing, MB : MessageBus}.
Context `{OW : !OwnerWallet, Keccak, EV : !EVM, CS : !Codec (list Z), RollupCodecs, BlobServices}.
Context `{MgmtABI, Signatures, AT : !Attestations, CE : !Codec ExtRollup}.
Implicit Types (s : Storage C) (e : Enclave C).

(** The key the signatures of the sequencer are checked with. *)
Definition sequencerKey (sequencerID : Address) e : option bytes :=
  match e_attestedKey e with
  | Some key => Some key
  | None => match (FetchAttestedKey sequencerID (e_storage e)).2 with Ok key => Some key | _ => None end
  end.

Definition signed_by (key : option bytes) (h : Hash) (sigR sigS : bigInt) : bool :=
  match key, sigR, sigS with
  | Some key, Some r, Some s => ecdsa_Verify key h r s
  | _, _, _ => false
  end.

(** Checking a signature changes nothing but the cached key, which stays the
    key the checks use. *)
Definition same_but_key (sequencerID : Address) e e' : Prop :=
  e_storage e' = e_storage e ∧ e_registry e' = e_registry e ∧ e_mempool e' = e_mempool e ∧
  sequencerKey sequencerID e' = sequencerKey sequencerID e.

Lemma FetchAttestedKey_pure sequencerID s :
  FetchAttestedKey sequencerID s = (s, (FetchAttestedKey sequencerID s).2) ∧
  ∀ c, (FetchAttestedKey sequencerID s).2 ≠ Crash c.
Proof.
  unfold FetchAttestedKey, mbind, M_bind, wrap, query, lift, FetchAttKey.
  destruct (of_option _ _) as [k|err|c] eqn:Hk; simpl; [|done|unfold of_option in Hk; by case_match].
  by destruct (DecompressPubkey k).
Qed.

Lemma CheckSequencerSignature_spec sequencerID h sigR sigS e :
  ∃ e', same_but_key sequencerID e e' ∧
  CheckSequencerSignature sequencerID h sigR sigS e =
    (e', if signed_by (sequencerKey sequencerID e) h sigR sigS then Ok tt
         else Err (match sigR, sigS with
                   | Some _, Some _ => match sequencerKey sequencerID e with
                                       | Some _ => ErrMsg "could not verify ECDSA signature"
                                       | None => match (FetchAttestedKey sequencerID (e_storage e)).2 with
                                                 | Err err => ErrWrap "could not retrieve attested key for aggregator" err
                                                 | _ => ErrNotFound
                                                 end
                                       end
                   | _, _ => ErrMsg "missing signature on batch"
                   end)).
Proof.
  unfold CheckSequencerSignature, signed_by. destruct sigR as [r|], sigS as [sg|];
    try (exists e; split; [done|by destruct (sequencerKey sequencerID e)]).
  unfold mbind, M_bind, gets, sequencerKey. destruct (e_attestedKey e) as [key|] eqn:Hkey; cbv beta iota.
  { exists e. split; [done|]. unfold mret, M_ret. by destruct (ecdsa_Verify key h r sg). }
  destruct (FetchAttestedKey_pure sequencerID (e_storage e)) as [Hpure Hnc].
  unfold wrap, on_storage, zoom. rewrite Hpure. destruct (FetchAttestedKey sequencerID (e_storage e)).2 as [key|err|c] eqn:Hf.
  - unfold modify, mret, M_ret. exists (set_attestedKey key (set_storage (e_storage e) e)).
    split; [|cbn; by destruct (ecdsa_Verify key h r sg)]. split_and!; [done..|]. unfold sequencerKey. by rewrite Hkey, Hf.
  - exists (set_storage (e_storage e) e). split; [|done]. split_and!; [done..|]. unfold sequencerKey. simpl. by rewrite Hkey, Hf.
  - by destruct (Hnc c).
Qed.

Definition rollup_signed (key : option bytes) (r : ExtRollup) : bool :=
  signed_by key (ExtRollup_Hash r) (Some (rollupR (ext_rollup_header r))) (Some (rollupS (ext_rollup_header r))).

(** All the rollups, or none. *)
Lemma getSignedRollup_spec sequencerID (rs : list ExtRollup) : ∀ e,
  ∃ e', same_but_key sequencerID e e' ∧
  if forallb (rollup_signed (sequencerKey sequencerID e)) rs
  then getSignedRollup sequencerID rs e = (e', Ok rs)
  else ∃ err, getSignedRollup sequencerID rs e = (e', Err err).
Proof.
  induction rs as [|r rs IH]; intros e; cbn [getSignedRollup forallb]; [by exists e|].
  destruct (CheckSequencerSignature_spec sequencerID (ExtRollup_Hash r) (Some (rollupR (ext_rollup_header r)))
    (Some (rollupS (ext_rollup_header r))) e) as (e1&Hsame1&Hcheck).
  unfold mbind, M_bind, wrap. rewrite Hcheck. fold (rollup_signed (sequencerKey sequencerID e) r).
  destruct (rollup_signed _ r); [|exists e1; split; [done|]; by eexists]. cbn [andb].
  destruct (IH e1) as (e2&Hsame2&Hrest). destruct Hsame1 as (E1&E2&E3&E4), Hsame2 as (F1&F2&F3&F4).
  exists e2. split; [split_and!; congruence|]. rewrite E4 in Hrest.
  destruct (forallb _ rs); [by rewrite Hrest|]. destruct Hrest as [err ->]. by exists err.
Qed.

(** One rollup that is not signed keeps the signed ones of its block from being processed;
    several signed ones are processed one after the other. *)
Lemma unsigned_rollup_blocks fuel g sequencerID br rs e :
  extractRollups br = Ok rs → rs ≠ [] →
  ∃ e', same_but_key sequencerID e e' ∧
  if forallb (rollup_signed (sequencerKey sequencerID e)) rs
  then ProcessRollupsInBlock fuel g sequencerID br e = forM rs (processRollup fuel g) e'
  else ∃ err, ProcessRollupsInBlock fuel g sequencerID br e = (e', Err err).
Proof.
  intros Hrs Hne. destruct (getSignedRollup_spec sequencerID rs e) as (e'&Hsame&Hget). exists e'. split; [done|].
  unfold ProcessRollupsInBlock, mbind, M_bind, lift. rewrite Hrs. destruct rs as [|r rs]; [done|].
  destruct (forallb _ _); [by rewrite Hget|]. destruct Hget as [err ->]. by exists err.
Qed.

(** C30: a rollup gets into the node only with the signature of the sequencer. Whatever
    rollups a block has, those that are processed are signed with the attested key of the
    sequencer; without one there is nothing done but the fetching of this key; and a
    signed rollup that is the only one of its block is processed. *)
Theorem ProcessRollupsInBlock_signed fuel g sequencerID br rs e :
  extractRollups br = Ok rs →
  ∃ e' l, same_but_key sequencerID e e' ∧ l ⊆ rs ∧ Forall (λ r, rollup_signed (sequencerKey sequencerID e) r = true) l ∧
    (ProcessRollupsInBlock fuel g sequencerID br e = forM l (processRollup fuel g) e' ∨
     l = [] ∧ ∃ err, ProcessRollupsInBlock fuel g sequencerID br e = (e', Err err)) ∧
    ∀ r, rs = [r] → rollup_signed (sequencerKey sequencerID e) r = true → l = [r].
Proof.
  intros Hrs. destruct (decide (rs = [])) as [->|Hne].
  { exists e, []. split_and!; [done..| |done]. left. unfold ProcessRollupsInBlock, mbind, M_bind, lift. by rewrite Hrs. }
  destruct (unsigned_rollup_blocks fuel g sequencerID br rs e Hrs Hne) as (e'&Hsame&Hrun).
  destruct (forallb _ rs) eqn:Hall.
  - exists e', rs. split_and!; [done..| |by left|done]. apply Forall_forall. intros r Hr.
    apply (proj1 (forallb_forall _ _) Hall). by apply list_elem_of_In.
  - exists e', []. split_and!; [done|apply list_subseteq_nil|done|by right|]. intros r -> Hr. cbn in Hall. by rewrite Hr in Hall.
Qed.

(** ** Who gets the secret *)

(** A response answers an attestation that verifies, whose identity hash covers
    the owner, the key and the host, and is encrypted under that key. *)
Definition attested_response (resp : ProducedSecretResponse) : Prop :=
  ∃ att data idHash secret,
    VerifyReport att = Some data ∧ IDHash (att_Owner att) (att_PubKey att) (att_HostAddress att) = Some idHash ∧
    take (length idHash) data = idHash ∧ EncryptSecret (att_PubKey att) secret = Ok (sr_Secret resp) ∧
    sr_RequesterID resp = att_Owner att ∧ sr_HostAddress resp = att_HostAddress att.

Lemma processSecretRequest_attested attestation s s' resp :
  processSecretRequest attestation s = (s', Ok resp) → attested_response resp.
Proof.
  unfold processSecretRequest. destruct (rlp_decode attestation) as [att|]; [|done].
  intros (s1&enc&Henc&Hrun)%bind_Ok. apply bind_Ok in Hrun as (s2&[]&_&Hrun). injection Hrun as _ <-.
  unfold wrap in Henc. destruct (verifyAttestationAndEncryptSecret att s) as [s1' [enc'|?|?]] eqn:Hver; simplify_eq/=.
  unfold verifyAttestationAndEncryptSecret in Hver. apply bind_Ok in Hver as (s3&data&Hdata&Hver).
  unfold lift, of_option in Hdata. destruct (VerifyReport att) as [data'|] eqn:Hrep; simplify_eq/=.
  apply bind_Ok in Hver as (s4&[]&Hid&Hver). apply bind_Ok in Hver as (s5&sec&_&Hver). injection Hver as _ Hver.
  unfold wrap, lift, VerifyIdentity, getIDHash in Hid. result_unfold.
  destruct (IDHash _ _ _) as [idh|] eqn:Hidh; simpl in Hid; [|done].
  case_bool_decide; [done|]. case_bool_decide as Heq; [|done].
  exists att, data, idh, sec. by split_and!.
Qed.

Lemma secretLoop_attested txs : ∀ s s' resps,
  secretLoop txs s = (s', Ok resps) → Forall attested_response resps.
Proof.
  induction txs as [|tx txs IH]; intros s s' resps; cbn [secretLoop]; [by intros [= _ <-]|].
  intros (s1&t&_&Hrun)%bind_Ok. destruct t as [[rollup| |att|att]|]; try (by eapply IH).
  - apply bind_Ok in Hrun as (s2&r&Hreq&Hrun). apply bind_Ok in Hrun as (s3&rest&Hrest&Hrun). injection Hrun as _ <-.
    apply IH in Hrest. destruct r as [resp|]; [|done]. constructor; [|done].
    unfold try in Hreq. destruct (processSecretRequest att s1) as [? [resp'|?|?]] eqn:Hp; simplify_eq/=.
    by eapply processSecretRequest_attested.
  - apply bind_Ok in Hrun as (s2&r&_&Hrun). by eapply IH.
Qed.

(** C31: The secret of the network is sent only in answer to an attestation that the
    runtime verifies and whose report covers the owner, host and public key of the
    answer, encrypted under that key. *)
Theorem secret_only_to_attested br s s' resps :
  ProcessNetworkSecretMsgs br s = (s', Ok resps) → Forall attested_response resps.
Proof.
  unfold ProcessNetworkSecretMsgs. intros (s1&txs&_&Hrun)%bind_Ok. by eapply secretLoop_attested.
Qed.
End correctness.
