(* ===== verification/Sequencer.v ===== *)
(** * The sequencer

    [go/enclave/nodetype/sequencer.go]: batches are produced on top of the head
    batch, duplicated when their L1 blocks are reorged, and rolled up. *)

From S2P Require Import Prelude Types Codec L1Chain EnclaveDB BatchDB Events Storage StorageInv StorageOps StorageSpec CrossChain BlockProcessor Reads Executor ExecutorSpec Mempool Registry RollupCompression Rollups.

Definition RollupDelay : Z := 2.

(** The settings, the identity, the key of the enclave and the genesis. *)
Record SequencerConfig := mkSequencerConfig {
  MaxBatchSize : Z;
  MaxRollupSize : Z;
  sequencerID : Address;
  enclavePrivateKey : bytes;
  genesis : Genesis
}.

Definition by_number (b1 b2 : Batch.t) : Prop := (Batch.NumberOf b1 ≤ Batch.NumberOf b2)%Z.
#[export] Instance by_number_dec : RelDecision by_number.
Proof. intros b1 b2. unfold by_number. apply _. Defined.
#[export] Instance by_number_trans : Transitive by_number.
Proof. intros x y z. unfold by_number. lia. Qed.
#[export] Instance by_number_total : Total by_number.
Proof. intros x y. unfold by_number. lia. Qed.

Section sequencer.
Local Open Scope Z_scope.
Context {C : Type} `{Cache C, StateModel, StorageCodecs, Hashing, MB : MessageBus}.
Context `{OW : !OwnerWallet, Keccak, EV : !EVM, CS : !Codec (list Z), RollupCodecs, BlobServices, Signatures}.
(** The fuel of the walks, the configuration, the sender of a transaction for the
    chain of the node, and the order in which the map of the mempool is iterated. *)
Context (fuel : nat) (cfg : SequencerConfig) (AuthSender : L2Tx → option Address) (iterate : Mempool.t → list L2Tx).
Implicit Types (e : Enclave C).

(** The hash is computed, and so cached, before the signature is set. *)
Definition signBatch (batch : Batch.t) : result Batch.t :=
  let '(batch, h) := Batch.Hash batch in
  match ecdsa_Sign (enclavePrivateKey cfg) h with
  | None => Err (ErrMsg "could not sign batch")
  | Some (r, s) => Ok (Batch.mk (set_sig r s (Batch.Header batch)) (Batch.hash batch) (Batch.Transactions batch))
  end.

Definition signRollup (rollup : Rollup) : result Rollup :=
  match ecdsa_Sign (enclavePrivateKey cfg) (RollupHeader_Hash (rollup_header rollup)) with
  | None => Err (ErrMsg "could not sign batch")
  | Some (r, s) => Ok (mkRollup (set_rollup_sig r s (rollup_header rollup)) (rollup_batches rollup))
  end.

Definition sequencer_StoreExecutedBatch (batch : Batch.t) (receipts : list Receipt) : M (Enclave C) unit :=
  r ← on_storage (try (FetchBatchHeader (Batch.hashOf batch)));
  match r with
  | inl _ => mret tt
  | inr _ =>
      _ ← on_storage (wrap "failed to store batch" (StoreBatch batch));
      _ ← on_storage (wrap "failed to store batch" (StoreExecutedBatch batch receipts));
      on_registry (OnBatchExecuted batch receipts)
  end.

Definition produceBatch (sequencerNo : Z) (l1Hash headBatch : Hash) (transactions : list L2Tx) (batchTime : Z)
    : M (Enclave C) Batch.t :=
  cb ← on_storage (wrap "failed computing batch"
         (ComputeBatch fuel (mkContext l1Hash headBatch transactions batchTime sequencerNo)));
  _ ← on_storage (wrap "failed committing batch state" (Commit cb true));
  batch ← wrap "failed signing created batch" (lift (signBatch (cb_Batch cb)));
  _ ← wrap "2. failed storing batch" (sequencer_StoreExecutedBatch batch (cb_Receipts cb));
  mret batch.

Definition initGenesis (now : Z) (block : L1Block) : M (Enclave C) unit :=
  '(batch, msgBusTx) ← on_storage (CreateGenesisState (genesis cfg) (Block_Hash block) now);
  _ ← wrap "failed to queue message bus creation transaction to genesis"
        (on_mempool (Mempool.AddMempoolTx AuthSender msgBusTx));
  batch ← wrap "failed signing created batch" (lift (signBatch batch));
  wrap "1. failed storing batch" (sequencer_StoreExecutedBatch batch []).

(** The transactions for the next batch; the limiter is used once. *)
Definition currentTxs (stateDB : EState) : M (Enclave C) (list L2Tx) := λ e,
  (e, (Mempool.CurrentTxs AuthSender stateDB (iterate (e_mempool e)) (NewBatchSizeLimiter (MaxBatchSize cfg))).2).

Definition createNewHeadBatch (now : Z) (l1HeadBlock : L1Block) : M (Enclave C) unit :=
  headBatch ← on_storage FetchHeadBatch;
  b ← on_storage (storage_FetchBlock (L1Proof (Batch.Header headBatch)));
  isAncestor ← on_storage (IsAncestor fuel l1HeadBlock b);
  if negb isAncestor then fail (ErrMsg "attempted to create batch on top of batch")
  else
    stateDB ← on_storage (wrap "unable to create stateDB for selecting transactions"
                            (CreateStateDB (Batch.hashOf headBatch)));
    transactions ← currentTxs stateDB;
    sequencerNo ← on_storage FetchCurrentSequencerNo;
    _ ← wrap " failed producing batch"
          (produceBatch (sequencerNo + 1) (Block_Hash l1HeadBlock) (Batch.hashOf headBatch) transactions now);
    on_mempool (Mempool.RemoveTxs transactions).

Definition CreateBatch (now : Z) : M (Enclave C) unit :=
  hasGenesis ← wrap "unknown genesis batch state" (on_storage HasGenesisBatch);
  l1HeadBlock ← wrap "failed retrieving l1 head" (on_storage GetHead);
  if negb hasGenesis then initGenesis now l1HeadBlock else createNewHeadBatch now l1HeadBlock.

(** [NumberU64() - RollupDelay] wraps around below the delay. *)
Definition sequencer_CreateRollup (lastBatchNo : Z) : M (Enclave C) ExtRollup :=
  currentL1Head ← on_storage storage_FetchHeadBlock;
  let upToL1Height := Int.u64 (Block_NumberU64 currentL1Head - RollupDelay) in
  rollup ← on_storage (λ s, let '((s', _), r) :=
             CreateRollup fuel (sequencerID cfg) lastBatchNo upToL1Height (s, NewRollupLimiter (MaxRollupSize cfg))
           in (s', r));
  rollup ← wrap "failed to sign created rollup" (lift (signRollup rollup));
  on_storage (CreateExtRollup rollup).

(** The batches built on the blocks of a path. *)
Fixpoint batchesOnPath (nonCanonicalL1Path : list Hash) : M (Storage C) (list Batch.t) :=
  match nonCanonicalL1Path with
  | [] => mret []
  | l1BlockHash :: path =>
      r ← try (FetchBatchesByBlock l1BlockHash);
      match r with
      | inl batches => rest ← batchesOnPath path; mret (batches ++ rest)
      | inr err => if errors_Is err ErrNotFound then batchesOnPath path
                   else fail (ErrWrap "could not FetchBatchesByBlock" err)
      end
  end.

(** [prev] is the orphan duplicated before this one. *)
Fixpoint duplicateLoop (l1Hash currentHead : Hash) (prev : option Hash) (orphans : list Batch.t) : M (Enclave C) unit :=
  match orphans with
  | [] => mret tt
  | orphanBatch :: orphans =>
      if match prev with
         | Some h => bool_decide (ParentHash (Batch.Header orphanBatch) ≠ h)
         | None => false
         end
      then crash "the batches that must be duplicated are invalid"
      else
        sequencerNo ← wrap "could not fetch sequencer no" (on_storage FetchCurrentSequencerNo);
        b ← wrap "could not produce batch"
              (produceBatch (sequencerNo + 1) l1Hash currentHead (Batch.Transactions orphanBatch)
                 (Time (Batch.Header orphanBatch)));
        duplicateLoop l1Hash (Batch.hashOf b) (Some (Batch.hashOf orphanBatch)) orphans
  end.

(** Two batches of the same height are no parent and child, so the loop ends the
    process whichever of them the sort puts first. *)
Definition duplicateBatches (l1Head : L1Block) (nonCanonicalL1Path : list Hash) : M (Enclave C) unit :=
  batches ← on_storage (batchesOnPath nonCanonicalL1Path);
  match merge_sort by_number batches with
  | [] => mret tt
  | first :: rest =>
      duplicateLoop (Block_ParentHash l1Head) (ParentHash (Batch.Header first)) None (first :: rest)
  end.

Definition sequencer_SubmitTransaction (transaction : L2Tx) : M (Enclave C) unit :=
  on_mempool (Mempool.AddMempoolTx AuthSender transaction).

Definition sequencer_OnL1Fork (fork : ChainFork) : M (Enclave C) unit :=
  if negb (ChainFork_IsFork fork) then mret tt
  else
    _ ← wrap "could not duplicate batches" (duplicateBatches (NewCanonical fork) (NonCanonicalPath fork));
    r ← on_storage (try (storage_FetchReorgedRollup (NonCanonicalPath fork)));
    match r with
    | inl _ => mret tt
    | inr err => if errors_Is err ErrNotFound then mret tt
                 else fail (ErrWrap "could not call FetchReorgedRollup" err)
    end.

Definition sequencer_OnL1Block : M (Enclave C) unit := mret tt.
End sequencer.
