(* ===== verification/Validator.v ===== *)
(** * The validator

    [go/enclave/nodetype/validator.go]: the canonical batches that were stored
    are executed in order, each after its parent. *)

From S2P Require Import Prelude Types Codec L1Chain EnclaveDB BatchDB Events Storage StorageInv StorageOps StorageSpec CrossChain Reads Executor ExecutorSpec Mempool Registry.

Section validator.
Local Open Scope Z_scope.
Context {C : Type} `{Cache C, StateModel, StorageCodecs, Hashing, MB : MessageBus}.
Context `{OW : !OwnerWallet, Keccak, EV : !EVM, CS : !Codec (list Z)}.
Context (fuel : nat) (g : Genesis).
Implicit Types (e : Enclave C).

Definition validator_SubmitTransaction (transaction : L2Tx) : M (Enclave C) unit := mret tt.
Definition validator_OnL1Fork (fork : ChainFork) : M (Enclave C) unit := mret tt.
Definition VerifySequencerSignature (b : Batch.t) : M (Enclave C) unit := mret tt.

(** An error other than "not found" leaves the block nil. *)
Definition executionPrerequisites (batch : Batch.t) : M (Storage C) bool :=
  block ← try (storage_FetchBlock (L1Proof (Batch.Header batch)));
  match block with
  | inr err =>
      if errors_Is err ErrNotFound then fail err
      else _ ← storage_BatchWasExecuted (ParentHash (Batch.Header batch)); mret false
  | inl _ => storage_BatchWasExecuted (ParentHash (Batch.Header batch))
  end.

Definition handleGenesis (batch : Batch.t) : M (Enclave C) unit :=
  '(genBatch, _) ← on_storage (CreateGenesisState g (L1Proof (Batch.Header batch)) (Time (Batch.Header batch)));
  if bool_decide (Batch.hashOf genBatch ≠ Batch.hashOf batch) then fail (ErrMsg "received invalid genesis batch")
  else
    _ ← on_storage (StoreExecutedBatch genBatch []);
    on_registry (OnBatchExecuted batch []).

(** One batch of the loop. *)
Definition executeStoredBatch (batch : Batch.t) : M (Enclave C) unit :=
  _ ← when (Batch.IsGenesis batch) (handleGenesis batch);
  canExecute ← on_storage (wrap "could not determine the execution prerequisites for batch"
                             (executionPrerequisites batch));
  if (canExecute : bool) then
    receipts ← on_storage (wrap "could not execute batch" (ExecuteBatch fuel batch));
    _ ← on_storage (wrap "could not store executed batch" (StoreExecutedBatch batch receipts));
    on_registry (OnBatchExecuted batch receipts)
  else mret tt.

Definition ExecuteStoredBatches : M (Enclave C) unit :=
  r ← on_storage (try FetchCanonicalUnexecutedBatches);
  match r with
  | inr err => if errors_Is err ErrNotFound then mret tt else fail err
  | inl batches => forM batches executeStoredBatch
  end.

Definition validator_OnL1Block : M (Enclave C) unit := ExecuteStoredBatches.
End validator.

(** ** Correctness of the validator

    Batches are executed after their parents, whatever fails on the way. *)


Section keeps.
Context {C : Type} `{CacheOk C, StateModel, StorageCodecsOk, HashingOk, MB : MessageBus}.
Context `{OW : !OwnerWallet, Keccak, EV : !EVM, EVOK : !EVMOk, CS : !Codec (list Z)}.
Implicit Types (s : Storage C) (d : DB).

Definition sound s : Prop := storage_ok s ∧ parents_ok (s_db s).

(** [m] leaves the database as it is, whatever it returns. *)
Definition keeps_db {A} (m : M (Storage C) A) : Prop :=
  ∀ s, sound s → sound (m s).1 ∧ s_db (m s).1 = s_db s.

Lemma keeps_reads {A} (R : DB → A → A → Prop) (m : M (Storage C) A) :
  (∀ d tr, db_ok d → parents_ok d → reads d tr (R d) m m) → keeps_db m.
Proof.
  intros Hm s [[Hd Hc] Hp]. destruct (Hm (s_db s) (s_tries s) Hd Hp s s) as ((Hdb&_&Hc')&_); [done..|].
  split; [|done]. unfold sound. rewrite Hdb. split; [|done]. split; [by rewrite Hdb|done].
Qed.

Lemma keeps_ret {A} (a : A) : keeps_db (mret a).
Proof. by intros s Hs. Qed.
Lemma keeps_fail {A} err : keeps_db (fail (A:=A) err).
Proof. by intros s Hs. Qed.
Lemma keeps_crash {A} c : keeps_db (crash (A:=A) c).
Proof. by intros s Hs. Qed.
Lemma keeps_lift {A} (r : result A) : keeps_db (lift r).
Proof. by intros s Hs. Qed.
Lemma keeps_query {A} (q : DB → result A) : keeps_db (query q).
Proof. by intros s Hs. Qed.

Lemma keeps_bind {A B} (m : M (Storage C) A) (f : A → M (Storage C) B) :
  keeps_db m → (∀ a, keeps_db (f a)) → keeps_db (m ≫= f).
Proof.
  intros Hm Hf s Hs. destruct (Hm s Hs) as [Hs1 Hdb]. unfold mbind, M_bind.
  destruct (m s) as [s1 [a|err|c]]; simpl in *; [|done..]. destruct (Hf a s1 Hs1) as [? Hdb2].
  split; [done|congruence].
Qed.

Lemma keeps_try {A} (m : M (Storage C) A) : keeps_db m → keeps_db (try m).
Proof. intros Hm s Hs. specialize (Hm s Hs). unfold try. by destruct (m s) as [? [?|?|?]]. Qed.
Lemma keeps_wrap {A} msg (m : M (Storage C) A) : keeps_db m → keeps_db (wrap msg m).
Proof. intros Hm s Hs. specialize (Hm s Hs). unfold wrap. by destruct (m s) as [? [?|?|?]]. Qed.

(** Committing a state stores a trie. *)
Lemma keeps_commitState del st : keeps_db (commitState del st).
Proof.
  intros s [[Hd Hc] Hp]. unfold commitState, mbind, M_bind, lift, of_option.
  by destruct (CommitState del st).
Qed.

Lemma keeps_applyAllocations g : keeps_db (applyAllocations g).
Proof. apply keeps_bind; [apply keeps_wrap, keeps_ret|intros; apply keeps_ret]. Qed.

Lemma keeps_CreateGenesisState g h t : keeps_db (CreateGenesisState g h t).
Proof.
  unfold CreateGenesisState, GetGenesisRoot, CommitGenesisState. apply keeps_bind; [|intros root].
  - apply keeps_bind; [apply keeps_applyAllocations|intros; apply keeps_ret].
  - destruct GenerateMessageBusDeployTx; [|apply keeps_crash..].
    apply keeps_bind; [apply keeps_wrap|intros; apply keeps_ret].
    apply keeps_bind; [apply keeps_applyAllocations|intros st].
    apply keeps_bind; [apply keeps_commitState|intros; apply keeps_ret].
Qed.

Lemma keeps_ComputeBatch fuel ctx : keeps_db (ComputeBatch fuel ctx).
Proof. apply (keeps_reads (λ _, (=))). intros d tr Hd Hp. by apply reads_ComputeBatch. Qed.

Lemma keeps_ExecuteBatch fuel b : keeps_db (ExecuteBatch fuel b).
Proof.
  unfold ExecuteBatch. apply keeps_bind; [apply keeps_wrap, keeps_ComputeBatch|intros cb].
  case_bool_decide; [apply keeps_fail|].
  apply keeps_bind; [apply keeps_wrap, keeps_commitState|intros; apply keeps_ret].
Qed.

Lemma keeps_executionPrerequisites b : keeps_db (executionPrerequisites b).
Proof.
  unfold executionPrerequisites, storage_BatchWasExecuted. apply keeps_bind.
  - apply keeps_try, (keeps_reads (λ d, fetched_block d (L1Proof (Batch.Header b)))). intros d tr Hd Hp.
    by apply (reads_FetchBlock d tr Hd).
  - intros [?|?]; [apply keeps_query|]. destruct (errors_Is _ _); [apply keeps_fail|].
    apply keeps_bind; [apply keeps_query|intros; apply keeps_ret].
Qed.
End keeps.

Section order.
Context {C : Type} `{CacheOk C, StateModel, StorageCodecsOk, HashingOk, MB : MessageBus}.
Context `{OW : !OwnerWallet, Keccak, EV : !EVM, EVOK : !EVMOk, CS : !Codec (list Z)}.
Context (fuel : nat) (g : Genesis).
Implicit Types (s : Storage C) (d : DB) (e : Enclave C).

(** The parent of every executed batch, the genesis apart, is stored and
    executed. *)
Definition executed_closed d : Prop :=
  ∀ h ab, batches d !! h = Some ab → ab_executed ab = true → Number (ab_header ab) ≠ L2GenesisHeight →
  ∃ pab, batches d !! ParentHash (ab_header ab) = Some pab ∧ ab_executed pab = true.

Definition validator_inv s : Prop := sound s ∧ executed_closed (s_db s).

(** Marking a batch whose parent is executed, or a genesis batch. *)
Lemma executed_closed_alter d d' h :
  executed_closed d → batches d' = alter ab_set_executed h (batches d) →
  (∀ ab, batches d !! h = Some ab → Number (ab_header ab) ≠ L2GenesisHeight →
    ∃ pab, batches d !! ParentHash (ab_header ab) = Some pab ∧ ab_executed pab = true) →
  executed_closed d'.
Proof.
  intros Hcl Hb Hh k ab Hk Hex Hnum. rewrite Hb in *.
  assert (∃ ab0, batches d !! k = Some ab0 ∧ ab_header ab0 = ab_header ab ∧ (k = h ∨ ab_executed ab0 = true)) as (ab0&Hk0&Hhd&Hwhy).
  { destruct (decide (k = h)) as [->|Hne].
    - rewrite lookup_alter_eq in Hk. destruct (batches d !! h) as [ab0|]; [|done]. injection Hk as <-. exists ab0. auto.
    - rewrite lookup_alter_ne in Hk by done. exists ab. auto. }
  assert (∃ pab, batches d !! ParentHash (ab_header ab) = Some pab ∧ ab_executed pab = true) as (pab&Hp&Hpe).
  { rewrite <-Hhd in Hnum |- *. destruct Hwhy as [->|Hex0]; [by apply Hh|by apply (Hcl k)]. }
  destruct (decide (ParentHash (ab_header ab) = h)) as [<-|Hne].
  - exists (ab_set_executed pab). by rewrite lookup_alter_eq, Hp.
  - exists pab. by rewrite lookup_alter_ne.
Qed.

Lemma parents_ok_alter d d' h :
  parents_ok d → blocks d' = blocks d → batches d' = alter ab_set_executed h (batches d) → parents_ok d'.
Proof.
  intros Hp Hbl Hb k ab Hk. rewrite Hbl. rewrite Hb in Hk. destruct (decide (k = h)) as [->|Hne].
  - rewrite lookup_alter_eq in Hk. destruct (batches d !! h) as [ab0|] eqn:E; [|done]. injection Hk as <-. by apply (Hp h ab0).
  - rewrite lookup_alter_ne in Hk by done. by apply (Hp k).
Qed.

Lemma StoreExecutedBatch_inv b receipts s :
  validator_inv s →
  (∀ ab, batches (s_db s) !! Batch.hashOf b = Some ab → Number (ab_header ab) ≠ L2GenesisHeight →
    ∃ pab, batches (s_db s) !! ParentHash (ab_header ab) = Some pab ∧ ab_executed pab = true) →
  validator_inv (StoreExecutedBatch b receipts s).1.
Proof.
  intros [[Hok Hp] Hcl] Hpar. destruct (StoreExecutedBatch_spec s b receipts Hok) as (Hok'&_&Hbl&_&Hr).
  destruct (StoreExecutedBatch b receipts s) as [s' r]. simpl in *.
  destruct r as [[]|err|c]; [|by unfold validator_inv, sound; rewrite Hr..].
  split; [split; [done|by eapply parents_ok_alter]|by eapply executed_closed_alter].
Qed.

Lemma keeps_inv {A} (m : M (Storage C) A) s : keeps_db m → validator_inv s → validator_inv (m s).1 ∧ s_db (m s).1 = s_db s.
Proof. intros Hm [Hs Hcl]. destruct (Hm s Hs) as [Hs' Hdb]. by rewrite <-Hdb in Hcl. Qed.

Lemma executionPrerequisites_true b s s' :
  sound s → executionPrerequisites b s = (s', Ok true) →
  ∃ pab, batches (s_db s) !! ParentHash (Batch.Header b) = Some pab ∧ ab_canonical pab = true ∧ ab_executed pab = true.
Proof.
  intros [[Hd Hc] Hp]. unfold executionPrerequisites. intros (s1&r&Hr&Hrun)%bind_Ok.
  assert (s_db s1 = s_db s) as Hdb.
  { destruct (reads_FetchBlock (s_db s) (s_tries s) Hd (L1Proof (Batch.Header b)) s s) as ((Hdb&_)&_); [done..|].
    unfold FetchBlock, storage_resolver in Hdb. unfold try in Hr.
    destruct (storage_FetchBlock _ s) as [? [?|?|?]]; simplify_eq/=; done. }
  destruct r as [blk|err].
  2:{ destruct (errors_Is err ErrNotFound); [done|]. apply bind_Ok in Hrun as (?&?&_&Hrun). done. }
  unfold storage_BatchWasExecuted, query in Hrun. apply pair_equal_spec in Hrun as [_ Hrun].
  rewrite Hdb, (BatchWasExecuted_spec _ _ Hd) in Hrun. injection Hrun as Hrun.
  destruct (batches (s_db s) !! ParentHash (Batch.Header b)) as [pab|]; [|done].
  apply andb_true_iff in Hrun as [? ?]. by exists pab.
Qed.

(** ** The loop *)

Lemma on_storage_run {A} (m : M (Storage C) A) e :
  on_storage m e = (set_storage (m (e_storage e)).1 e, (m (e_storage e)).2).
Proof. unfold on_storage, zoom. by destruct (m (e_storage e)). Qed.

(** The headers of the batches; executing changes none. *)
Definition headers d : gmap Hash BatchHeader := ab_header <$> batches d.

Definition enclave_inv (hs : gmap Hash BatchHeader) e : Prop :=
  validator_inv (e_storage e) ∧ headers (s_db (e_storage e)) = hs.

Lemma headers_lookup d h ab : batches d !! h = Some ab → headers d !! h = Some (ab_header ab).
Proof. intros Hab. unfold headers. by rewrite lookup_fmap, Hab. Qed.

Lemma headers_alter d d' h : batches d' = alter ab_set_executed h (batches d) → headers d' = headers d.
Proof.
  intros Hb. unfold headers. rewrite Hb. apply map_eq. intros k. rewrite !lookup_fmap.
  destruct (decide (k = h)) as [->|Hne]; [|by rewrite lookup_alter_ne].
  rewrite lookup_alter_eq. by destruct (batches d !! h).
Qed.

Lemma keeps_enclave {A} (m : M (Storage C) A) hs e :
  keeps_db m → enclave_inv hs e → enclave_inv hs (on_storage m e).1.
Proof.
  intros Hm [Hinv Hhs]. rewrite on_storage_run. destruct (keeps_inv m (e_storage e) Hm Hinv) as [? Hdb].
  split; [done|]. simpl. by rewrite Hdb.
Qed.

(** Recording the execution of a batch that may be executed. *)
Lemma store_enclave b h rs hs e :
  enclave_inv hs e → hs !! Batch.hashOf b = Some h →
  (Number h ≠ L2GenesisHeight → ∃ pab, batches (s_db (e_storage e)) !! ParentHash h = Some pab ∧ ab_executed pab = true) →
  enclave_inv hs (on_storage (StoreExecutedBatch b rs) e).1.
Proof.
  intros [Hinv Hhs] Hh Hpar. rewrite on_storage_run. split; simpl.
  - apply StoreExecutedBatch_inv; [done|]. intros ab Hab. apply headers_lookup in Hab.
    rewrite Hhs, Hh in Hab. injection Hab as ->. done.
  - destruct (StoreExecutedBatch_spec (e_storage e) b rs (proj1 (proj1 Hinv))) as (_&_&_&_&Hr).
    destruct (StoreExecutedBatch b rs (e_storage e)) as [s' [[]|err|c]]; simpl in *; [|by rewrite Hr..].
    by rewrite (headers_alter _ _ _ Hr).
Qed.

Lemma handleGenesis_inv b h hs e :
  hs !! Batch.hashOf b = Some h → Batch.Header b = h → Batch.IsGenesis b = true →
  enclave_inv hs e → enclave_inv hs (handleGenesis g b e).1.
Proof.
  intros Hh Hhd Hgen Hinv. unfold handleGenesis, mbind, M_bind.
  pose proof (keeps_enclave _ _ e (keeps_CreateGenesisState g (L1Proof (Batch.Header b)) (Time (Batch.Header b))) Hinv) as Hinv1.
  destruct (on_storage (CreateGenesisState _ _ _) e) as [e1 [[genBatch tx]|err|c]]; simpl in *; [|done..].
  case_bool_decide as Hne; [done|].
  assert (enclave_inv hs (on_storage (StoreExecutedBatch genBatch []) e1).1) as Hinv2.
  { apply (store_enclave genBatch h); [done|by rewrite Hne|]. intros []. apply bool_decide_eq_true in Hgen. by rewrite <-Hhd. }
  by destruct (on_storage (StoreExecutedBatch genBatch []) e1) as [e2 [[]|err|c]].
Qed.

Lemma on_storage_wrap {A} msg (m : M (Storage C) A) e : (on_storage (wrap msg m) e).1 = (on_storage m e).1.
Proof. rewrite !on_storage_run. unfold wrap. by destruct (m (e_storage e)) as [? [?|?|?]]. Qed.

Lemma on_storage_wrap_Ok {A} msg (m : M (Storage C) A) e e' a :
  on_storage (wrap msg m) e = (e', Ok a) → m (e_storage e) = (e_storage e', Ok a).
Proof.
  rewrite on_storage_run. unfold wrap. by destruct (m (e_storage e)) as [? [?|?|?]]; intros [= <- <-].
Qed.

Lemma executeStoredBatch_inv b h hs e :
  hs !! Batch.hashOf b = Some h → Batch.Header b = h →
  enclave_inv hs e → enclave_inv hs (executeStoredBatch fuel g b e).1.
Proof.
  intros Hh Hhd Hinv. unfold executeStoredBatch, mbind, M_bind.
  assert (enclave_inv hs (when (Batch.IsGenesis b) (handleGenesis g b) e).1) as Hinv1.
  { unfold when. destruct (Batch.IsGenesis b) eqn:Hgen; [|done]. by apply (handleGenesis_inv b h). }
  destruct (when _ _ e) as [e1 [[]|err|c]]; [|done..]. cbn [fst] in Hinv1.
  assert (enclave_inv hs (on_storage (wrap "could not determine the execution prerequisites for batch"
    (executionPrerequisites b)) e1).1) as Hinv2 by (by apply keeps_enclave; [apply keeps_wrap, keeps_executionPrerequisites|]).
  destruct (on_storage _ e1) as [e2 [canExecute|err|c]] eqn:Hpre; [|done..]. cbn [fst] in Hinv2.
  destruct canExecute; [|done].
  assert (∃ pab, batches (s_db (e_storage e2)) !! ParentHash h = Some pab ∧ ab_executed pab = true) as Hpar.
  { apply on_storage_wrap_Ok in Hpre.
    destruct (keeps_inv _ (e_storage e1) (keeps_executionPrerequisites b) (proj1 Hinv1)) as [_ Hdb]. rewrite Hpre in Hdb.
    simpl in Hdb. rewrite Hdb, <-Hhd.
    destruct (executionPrerequisites_true b _ _ (proj1 (proj1 Hinv1)) Hpre) as (pab&?&?&?). by exists pab. }
  assert (keeps_db (wrap "could not execute batch" (ExecuteBatch fuel b))) as Hk by (apply keeps_wrap, keeps_ExecuteBatch).
  pose proof (keeps_enclave _ _ e2 Hk Hinv2) as Hinv3.
  destruct (keeps_inv _ (e_storage e2) Hk (proj1 Hinv2)) as [_ Hdb3]. rewrite on_storage_run in *.
  destruct (wrap _ (ExecuteBatch fuel b) (e_storage e2)) as [s3 [rs|err|c]]; [|done..]. cbn [fst snd] in *.
  assert (enclave_inv hs (on_storage (wrap "could not store executed batch" (StoreExecutedBatch b rs)) (set_storage s3 e2)).1) as Hinv4.
  { rewrite on_storage_wrap. apply (store_enclave b h); [done..|]. intros _. simpl. by rewrite Hdb3. }
  by destruct (on_storage _ (set_storage s3 e2)) as [e4 [[]|err|c]].
Qed.

Lemma forM_executeStoredBatch bs hs : ∀ e,
  Forall (λ b, hs !! Batch.hashOf b = Some (Batch.Header b)) bs →
  enclave_inv hs e → enclave_inv hs (forM bs (executeStoredBatch fuel g) e).1.
Proof.
  induction bs as [|b bs IH]; intros e Hbs Hinv; cbn [forM]; [done|].
  apply Forall_cons in Hbs as [Hb Hbs]. unfold mbind, M_bind.
  pose proof (executeStoredBatch_inv b _ hs e Hb eq_refl Hinv) as Hinv1.
  destruct (executeStoredBatch fuel g b e) as [e1 [[]|err|c]]; [by apply IH|done..].
Qed.

(** The batches that were fetched are those stored. *)
Lemma unexecuted_headers d bs :
  db_ok d → ReadUnexecutedBatches d = Ok bs →
  Forall (λ b, headers d !! Batch.hashOf b = Some (Batch.Header b)) bs.
Proof.
  intros Hd Hbs. destruct (fetchBatches_spec d (λ r, negb (bat_is_executed r) && bat_is_canonical r) Hd) as (l&Hl&_&Hin).
  unfold ReadUnexecutedBatches in Hbs. rewrite Hl in Hbs. injection Hbs as <-.
  apply Forall_fmap, Forall_forall. intros ab Hab. apply Hin in Hab as (h&r&Hr&Hrow&_).
  unfold Batch.hashOf, Batch.Hash, ab_batch. simpl. rewrite (tro_hash _ _ _ _ Hrow).
  apply headers_lookup, batches_lookup; [done|]. by exists r.
Qed.

(** C15: A validator executes a batch only after its parent: whether
    [ExecuteStoredBatches] succeeds, fails or crashes, the storage stays well
    formed, no batch is added, removed or changed, and every executed batch except
    a genesis has a stored, executed parent. *)
Theorem validator_executes_in_order e :
  validator_inv (e_storage e) →
  let e' := (ExecuteStoredBatches fuel g e).1 in
  validator_inv (e_storage e') ∧ headers (s_db (e_storage e')) = headers (s_db (e_storage e)).
Proof.
  intros Hinv. unfold ExecuteStoredBatches, mbind, M_bind. rewrite on_storage_run.
  unfold try, FetchCanonicalUnexecutedBatches, query. destruct (ReadUnexecutedBatches (s_db (e_storage e))) as [bs|err|c] eqn:Hbs;
    cbn [fst snd]; [|by destruct (errors_Is err ErrNotFound)|done].
  apply unexecuted_headers in Hbs; [|apply Hinv].
  by apply (forM_executeStoredBatch bs (headers (s_db (e_storage e)))).
Qed.
End order.
