(* ===== verification/SequencerSpec.v ===== *)
(** * Correctness of the sequencer

    A new batch extends the head of the chain under the next sequence number. *)

From S2P Require Import Prelude Types Codec L1Chain EnclaveDB BatchDB Events Storage StorageInv StorageOps StorageSpec CrossChain BlockProcessor Reads Executor ExecutorSpec Mempool Registry RollupCompression Rollups Sequencer Validator.

Section spec.
Local Open Scope Z_scope.
Context {C : Type} `{CacheOk C, StateModel, StorageCodecsOk, HashingOk, MB : MessageBus}.
Context `{OW : !OwnerWallet, Keccak, EV : !EVM, EVOK : !EVMOk, CS : !Codec (list Z), RollupCodecs, BlobServices}.
Context `{Signatures, !SignaturesOk} (fuel : nat) (cfg : SequencerConfig).
Context (AuthSender : L2Tx → option Address) (iterate : Mempool.t → list L2Tx).
Implicit Types (s : Storage C) (d : DB) (e : Enclave C).

(** What storing a batch encodes. *)
Definition encoded (b : Batch.t) : Prop :=
  is_Some (rlp_encode (Batch.Header b)) ∧ is_Some (rlp_encode (Batch.Transactions b)) ∧
  ∀ tx, tx ∈ Batch.Transactions b → is_Some (rlp_encode tx).

Lemma EncodeToBytes_Ok {A} `{Codec A} (x : A) v : EncodeToBytes x = Ok v → is_Some (rlp_encode x).
Proof. unfold EncodeToBytes. destruct (rlp_encode x); [by eexists|done]. Qed.

Lemma WriteBatch_encoded d b q q' : WriteBatchAndTransactions d b q = (q', Ok tt) → encoded b.
Proof.
  unfold WriteBatchAndTransactions. intros (q1&body&Hbody&Hrun)%bind_Ok. apply bind_Ok in Hrun as (q2&header&Hheader&Hrun).
  apply wrap_Ok in Hbody, Hheader. injection Hbody as _ Hbody. injection Hheader as _ Hheader.
  split; [by eapply EncodeToBytes_Ok|]. split; [by eapply EncodeToBytes_Ok|].
  apply bind_Ok in Hrun as (q3&[]&_&Hrun). apply bind_Ok in Hrun as (q4&[]&_&Hrun).
  generalize dependent (Batch.Transactions b). intros l _ Hrun.
  destruct (0 <? length l)%nat eqn:Hlen; [|destruct l; [by intros tx ?%elem_of_nil|done]]. apply bind_Ok in Hrun as (q5&rows&Hrows&_). injection Hrows as _ Hrows.
  apply mapR_Ok in Hrows. intros tx [i Hi]%list_elem_of_lookup.
  assert (zip (seq 0 (length l)) l !! i = Some (i, tx)) as Hz.
  { rewrite lookup_zip_with. rewrite lookup_seq_lt by (by eapply lookup_lt_Some). cbn. by rewrite Hi. }
  destruct (Forall2_lookup_l _ _ _ _ _ Hrows Hz) as (row&_&Hrow). unfold txRow in Hrow. cbn [fst snd] in Hrow.
  by destruct (rlp_encode tx).
Qed.

(** A batch that was stored under a free sequence number could be encoded. *)
Lemma StoreBatch_encoded s s' b : db_ok (s_db s) → 0 ≤ Batch.SeqNo b < 2 ^ 63 →
  (∀ h ab, batches (s_db s) !! h = Some ab → SequencerOrderNo (ab_header ab) ≠ Batch.SeqNo b) →
  StoreBatch b s = (s', Ok tt) → encoded b.
Proof.
  intros Hd Hsmall Hseq. unfold StoreBatch. intros (s1&o&Hex&Hrun)%bind_Ok. unfold try, FetchBatchBySeqNo, query in Hex.
  rewrite (proj1 (u64_small _ Hsmall)), (proj2 (ReadBatchBySeqNo_spec _ _ Hd) Hseq) in Hex. injection Hex as <- <-.
  apply bind_Ok in Hrun as (s2&[]&Htr&_). unfold transact in Htr. apply bind_Ok in Htr as (s3&s3'&[= <- <-]&Htr).
  cbn [id] in Htr. destruct (WriteBatchAndTransactions (s_db s) b dbTransaction.new) as [q r] eqn:Hq.
  apply bind_Ok in Htr as (s4&[]&Hr%wrap_Ok&_). injection Hr as _ ->. by eapply WriteBatch_encoded.
Qed.

(** No L1 block has the hash of a batch. *)
Definition hashes_apart d : Prop := ∀ h : BatchHeader, blocks d !! BatchHeader_Hash h = None.

(** A transaction the database stores. *)
Definition admissible (tx : L2Tx) : Prop := is_Some (Sender tx) ∧ 0 ≤ tx_nonce tx < 2 ^ 63.

(** The computed batch with the signature of the enclave. *)
Definition signed_by_enclave (b sb : Batch.t) : Prop :=
  ∃ r sg, Batch.Header sb = set_sig r sg (Batch.Header b) ∧
    Batch.Transactions sb = Batch.Transactions b ∧ Batch.hash_ok sb ∧ Batch.hashOf sb = Batch.hashOf b ∧
    ecdsa_Verify (PublicKey (enclavePrivateKey cfg)) (Batch.hashOf sb) r sg = true.

Lemma signBatch_spec b sb : Batch.hash_ok b → signBatch cfg b = Ok sb → signed_by_enclave b sb.
Proof.
  intros Hb. unfold signBatch. pose proof (Batch.hash_ok_Hash b Hb) as [Hok Hhd].
  destruct (Batch.Hash b) as [b' h] eqn:Hh. cbn [fst] in *.
  assert (h = Batch.hashOf b) as Hhb by (unfold Batch.hashOf; by rewrite Hh).
  assert (Batch.Transactions b' = Batch.Transactions b ∧ Batch.hash b' = Some h) as [Htx Hc].
  { unfold Batch.Hash in Hh. destruct (Batch.hash b) eqn:E; by injection Hh as <- <-. }
  destruct (ecdsa_Sign (enclavePrivateKey cfg) h) as [[r sg]|] eqn:Hsig; [|done]. intros [= <-]. exists r, sg.
  unfold Batch.hash_ok, Batch.hashOf, Batch.Hash. cbn [Batch.hash Batch.Header Batch.Transactions]. rewrite Hc.
  cbn [snd]. rewrite Hhd, Htx, BatchHeader_Hash_sig. split_and!; [done|done| |done|by apply verify_sign].
  by rewrite Hhb, Hb.
Qed.

Lemma storable_signed ctx parent cb sb :
  encoded sb → computed ctx parent cb → signed_by_enclave (cb_Batch cb) sb →
  Forall admissible (ctx_Transactions ctx) → 0 ≤ SequencerNo ctx < 2 ^ 63 → 0 ≤ Number parent + 1 < 2 ^ 63 → storable sb.
Proof.
  intros (Eh&Et&Etx) Hc (r&sg&Hh&Htx&Hok&_) Hadm Hseq Hnum.
  split; [done|by rewrite Hh, Htx; apply (co_txhash _ _ _ Hc)|done|done| | |].
  - intros tx Hin. rewrite Htx in Hin. rewrite Forall_forall in Hadm.
    destruct (Hadm tx) as [? ?]; [by apply (elem_of_sublist _ _ _ Hin), (co_txs _ _ _ Hc)|]. split; [by apply Etx; rewrite Htx|done].
  - unfold Batch.SeqNo. rewrite Hh. simpl. by rewrite (co_seq _ _ _ Hc).
  - unfold Batch.NumberOf. rewrite Hh. simpl. by rewrite (co_number _ _ _ Hc).
Qed.

(** The batches with a new, executed one. *)
Definition with_executed d (b : Batch.t) : gmap Hash ABatch :=
  <[Batch.hashOf b := ab_set_executed (newABatch d b)]> (batches d).

Lemma FetchBatchHeader_missing d tr h s :
  db_ok d → holds d tr s → batches d !! h = None →
  ∃ err, (FetchBatchHeader h s).2 = Err err ∧ holds d tr (FetchBatchHeader h s).1.
Proof.
  intros Hd Hs Hh. unfold FetchBatchHeader, mbind, M_bind.
  destruct (FetchBatch_spec s h (holds_ok d tr Hd s Hs)) as (Hok&Hsame&Hr). rewrite (proj1 Hs), Hh in Hr.
  destruct Hr as (err&Hr&_). pose proof (holds_same d tr s _ Hs Hok Hsame) as Hs1.
  destruct (FetchBatch h s) as [s1 r]. simpl in *. subst r. by exists err.
Qed.

(** A hash under which nothing is stored. *)
Lemma hash_free d b : db_ok d → Batch.hash_ok b →
  (∀ h ab, batches d !! h = Some ab → SequencerOrderNo (ab_header ab) ≠ Batch.SeqNo b) → batches d !! Batch.hashOf b = None.
Proof.
  intros Hd Hb Hseq. destruct (batches d !! Batch.hashOf b) as [ab|] eqn:Hab; [|done]. destruct (Hseq _ _ Hab).
  pose proof (batch_key d _ ab Hd Hab) as Hk. rewrite Hb in Hk. apply (inj rlpHash_batch) in Hk.
  by apply (f_equal SequencerOrderNo) in Hk.
Qed.

Lemma sequencer_StoreExecutedBatch_encoded d tr b rs e e' :
  db_ok d → holds d tr (e_storage e) → Batch.hash_ok b → 0 ≤ Batch.SeqNo b < 2 ^ 63 →
  (∀ h ab, batches d !! h = Some ab → SequencerOrderNo (ab_header ab) ≠ Batch.SeqNo b) →
  sequencer_StoreExecutedBatch b rs e = (e', Ok tt) → encoded b.
Proof.
  intros Hd Hs Hb Hsmall Hseq. unfold sequencer_StoreExecutedBatch. intros (e1&o&Htry&Hrun)%bind_Ok.
  rewrite on_storage_run in Htry. unfold try in Htry.
  destruct (FetchBatchHeader_missing d tr (Batch.hashOf b) (e_storage e) Hd Hs (hash_free d b Hd Hb Hseq)) as (err&Hr&Hs1).
  destruct (FetchBatchHeader (Batch.hashOf b) (e_storage e)) as [s1 r]. simpl in Hr, Hs1. subst r. injection Htry as <- <-.
  apply bind_Ok in Hrun as (e2&[]&Hstore&_). rewrite on_storage_run in Hstore. cbn [e_storage set_storage] in Hstore.
  injection Hstore as _ Hstore. destruct (wrap _ (StoreBatch b) s1) as [s2 r] eqn:Hw. cbn [snd] in Hstore. subst r.
  apply wrap_Ok in Hw. eapply StoreBatch_encoded; [| |  |exact Hw]; rewrite ?(proj1 Hs1); done.
Qed.

(** Storing a batch that is new, and its execution. *)
Lemma sequencer_StoreExecutedBatch_new d tr b rs e e' :
  db_ok d → holds d tr (e_storage e) → storable b → blocks d !! Batch.hashOf b = None →
  (∀ h ab, batches d !! h = Some ab → SequencerOrderNo (ab_header ab) ≠ Batch.SeqNo b) →
  sequencer_StoreExecutedBatch b rs e = (e', Ok tt) →
  storage_ok (e_storage e') ∧ s_tries (e_storage e') = tr ∧ blocks (s_db (e_storage e')) = blocks d ∧
  batches (s_db (e_storage e')) = with_executed d b ∧
  e_registry e' = (OnBatchExecuted b rs (e_registry e)).1 ∧ e_mempool e' = e_mempool e.
Proof.
  intros Hd Hs Hb Hnb Hseq. pose proof (hash_free d b Hd (sb_hash b Hb) Hseq) as Hnew.
  unfold sequencer_StoreExecutedBatch, mbind, M_bind. rewrite on_storage_run. unfold try.
  destruct (FetchBatchHeader_missing d tr (Batch.hashOf b) (e_storage e) Hd Hs Hnew) as (err&Hr&Hs1).
  destruct (FetchBatchHeader (Batch.hashOf b) (e_storage e)) as [s1 r]. simpl in Hr, Hs1. subst r. cbn [fst snd].
  rewrite on_storage_run. cbn [e_storage set_storage].
  destruct (StoreBatch_new s1 b) as (s2&Hrun2&Hok2&Ht2&Hbl2&_&Hba2); [by apply holds_ok with d tr|done|..].
  { by rewrite (proj1 Hs1). } { by rewrite (proj1 Hs1). }
  rewrite (proj1 Hs1) in Hbl2, Hba2. unfold wrap. rewrite Hrun2. cbn [fst snd].
  rewrite on_storage_run. cbn [e_storage set_storage].
  destruct (StoreExecutedBatch_spec s2 b rs Hok2) as (Hok3&Ht3&Hbl3&_&Hr3).
  destruct (StoreExecutedBatch b rs s2) as [s3 [[]|?|?]]; cbn [fst snd] in *; try done.
  intros [= <-]. cbn [e_storage e_registry e_mempool set_storage set_registry].
  split_and!; [done|by rewrite Ht3, Ht2, (proj1 (proj2 Hs1))|congruence| |done|done].
  rewrite Hr3, Hba2. unfold with_executed. apply map_eq. intros k.
  destruct (decide (k = Batch.hashOf b)) as [->|Hne].
  - by rewrite lookup_alter_eq, !lookup_insert_eq.
  - by rewrite lookup_alter_ne, !lookup_insert_ne.
Qed.

(** What producing a batch leaves behind. *)
Record produced d tr (ctx : BatchExecutionContext) (e e' : Enclave C) (sb : Batch.t) : Prop := {
  pr_ok : storage_ok (e_storage e');
  pr_blocks : blocks (s_db (e_storage e')) = blocks d;
  pr_batches : batches (s_db (e_storage e')) = with_executed d sb;
  pr_mempool : e_mempool e' = e_mempool e;
  pr_batch : ∃ cb pab, batches d !! ParentPtr ctx = Some pab ∧ computed ctx (ab_header pab) cb ∧
    signed_by_enclave (cb_Batch cb) sb ∧ s_tries (e_storage e') = <[Root (Batch.Header sb) := cb_state cb]> tr ∧
    e_registry e' = (OnBatchExecuted sb (cb_Receipts cb) (e_registry e)).1
}.

Lemma produceBatch_spec d tr seq l1 head txs time e e' sb :
  db_ok d → parents_ok d → hashes_apart d → holds d tr (e_storage e) → Forall admissible txs →
  0 ≤ seq < 2 ^ 63 → (∀ h ab, batches d !! h = Some ab → SequencerOrderNo (ab_header ab) ≠ seq) →
  (∀ pab, batches d !! head = Some pab → 0 ≤ Number (ab_header pab) + 1 < 2 ^ 63) →
  produceBatch fuel cfg seq l1 head txs time e = (e', Ok sb) →
  produced d tr (mkContext l1 head txs time seq) e e' sb.
Proof.
  intros Hd Hp Hap Hs Hadm Hseq Hfresh Hnum. unfold produceBatch. set (ctx := mkContext l1 head txs time seq).
  unfold mbind, M_bind. rewrite on_storage_run. unfold wrap.
  destruct (ComputeBatch fuel ctx (e_storage e)) as [s1 [cb|?|?]] eqn:Hcomp; cbn [fst snd]; try done.
  destruct (ComputeBatch_Ok d tr fuel ctx _ _ _ Hd Hp Hs Hcomp) as (Hs1&pab&Hpab&Hc).
  rewrite on_storage_run. cbn [e_storage set_storage]. rewrite (Commit_computed _ _ _ s1 Hc). cbn [fst snd].
  unfold lift. destruct (signBatch cfg (cb_Batch cb)) as [sb'|?|?] eqn:Hsign; try done.
  apply signBatch_spec in Hsign; [|by apply (co_hash _ _ _ Hc)].
  set (e2 := set_storage _ _). destruct (sequencer_StoreExecutedBatch sb' (cb_Receipts cb) e2) as [e3 [[]|?|?]] eqn:Hstore; try done.
  intros [= <- <-]. pose proof Hsign as (r&sg&Hh&Htx&Hok&Hhash&_).
  assert (Batch.SeqNo sb' = seq) as Hsq by (unfold Batch.SeqNo; rewrite Hh; apply (co_seq _ _ _ Hc)).
  assert (holds d (<[Root (Batch.Header (cb_Batch cb)) := cb_state cb]> tr) (e_storage e2)) as Hs2 by (by destruct Hs1 as (<-&<-&?)).
  assert (storable sb') as Hst.
  { eapply storable_signed; [|done..|by apply Hnum].
    eapply sequencer_StoreExecutedBatch_encoded; [done|exact Hs2|done| | |exact Hstore]; by rewrite Hsq. }
  destruct (sequencer_StoreExecutedBatch_new d (<[Root (Batch.Header (cb_Batch cb)) := cb_state cb]> tr) sb' (cb_Receipts cb) e2 e3)
    as (Hok3&Ht3&Hbl3&Hba3&Hreg&Hmem); [done|exact Hs2|done| |by rewrite Hsq|done|].
  - rewrite Hok. apply Hap.
  - split; [done..|]. exists cb, pab. split_and!; [done..| |done]. rewrite Ht3, Hh. done.
Qed.

(** The order of the iteration is one of the map's. *)
Hypothesis Hiterate : ∀ db, Mempool.FetchMempoolTxs db (iterate db).

(** The mempool holds admissible transactions under their hashes. *)
Definition mempool_ok (mp : Mempool.t) : Prop := ∀ h tx, mp !! h = Some tx → tx_hash tx = h ∧ admissible tx.

Lemma currentTxs_spec st e e' txs :
  mempool_ok (e_mempool e) → currentTxs cfg AuthSender iterate st e = (e', Ok txs) → (∀ a, Int.is_u64 (GetNonce st a)) →
  e' = e ∧ Forall admissible txs ∧ ∀ tx, tx ∈ txs → e_mempool e !! tx_hash tx = Some tx.
Proof.
  intros Hmp Hrun Hst. unfold currentTxs in Hrun. injection Hrun as <- Hrun. split; [done|].
  destruct (Mempool.CurrentTxs AuthSender st _ _) as [l' r] eqn:Hcur. simpl in Hrun. subst r. unfold Mempool.CurrentTxs in Hcur.
  destruct (Mempool.selectTxs_safe AuthSender (L:=batchSizeLimiter) st _ ∅ [] _ _ _ (Mempool.tracks_empty _ _ Hst) ltac:(done) Hcur)
    as (_&sel&Heq&Hsub&_). simpl in Heq. subst sel.
  assert (∀ tx, tx ∈ txs → e_mempool e !! tx_hash tx = Some tx) as Hin.
  { intros tx Htx. apply (elem_of_sublist _ _ _ Htx) in Hsub. rewrite merge_sort_Permutation, (Hiterate (e_mempool e)) in Hsub.
    apply list_elem_of_fmap in Hsub as ([h tx']&->&Hel%elem_of_map_to_list). simpl. by rewrite (proj1 (Hmp _ _ Hel)). }
  split; [|done]. apply Forall_forall. intros tx Htx. by apply (Hmp _ _ (Hin tx Htx)).
Qed.

Lemma removeAll_lookup txs : ∀ (db : Mempool.t) h, h ∈ map tx_hash txs ∨ db !! h = None → Mempool.removeAll txs db !! h = None.
Proof.
  induction txs as [|tx txs IH]; intros db h Hh; cbn [Mempool.removeAll].
  - destruct Hh as [Hh|?]; [by apply not_elem_of_nil in Hh|done].
  - apply IH. cbn [map] in Hh. destruct (decide (tx_hash tx = h)) as [<-|Hne]; [right; by apply lookup_delete_eq|].
    destruct Hh as [[->|?]%elem_of_cons|Hn]; [done|by left|right; by rewrite lookup_delete_ne].
Qed.

(** A canonical, executed batch above the head is the new head. *)
Lemma with_executed_head d d' sb hab :
  is_head_batch d hab → batches d' = with_executed d sb → Batch.NumberOf sb = Number (ab_header hab) + 1 →
  isCanonQuery d (L1Proof (Batch.Header sb)) = true → is_head_batch d' (ab_set_executed (newABatch d sb)).
Proof.
  intros (_&_&_&Hmax) Hb Hnum Hcan. split_and!; [|done|done|].
  - exists (Batch.hashOf sb). by rewrite Hb; unfold with_executed; rewrite lookup_insert_eq.
  - intros h ab. rewrite Hb. unfold with_executed. destruct (decide (h = Batch.hashOf sb)) as [->|Hne].
    + rewrite lookup_insert_eq. by intros [= <-].
    + rewrite lookup_insert_ne by done. intros Hab Hc Hx. pose proof (Hmax h ab Hab Hc Hx).
      unfold Batch.NumberOf in Hnum. cbn. lia.
Qed.

Lemma on_storage_reads {A} (R : A → A → Prop) (m : M (Storage C) A) d tr e e1 a :
  reads d tr R m m → holds d tr (e_storage e) → on_storage m e = (e1, Ok a) →
  holds d tr (e_storage e1) ∧ e_mempool e1 = e_mempool e ∧ e_registry e1 = e_registry e ∧ R a a.
Proof.
  intros Hm Hs. rewrite on_storage_run. destruct (Hm _ _ Hs Hs) as (Hs1&_&Hr).
  destruct (m (e_storage e)) as [s1 r]. intros [= <- ->]. done.
Qed.

Lemma on_storage_query {A} (q : DB → result A) d tr e e1 a :
  holds d tr (e_storage e) → on_storage (query q) e = (e1, Ok a) → e1 = e ∧ q d = Ok a.
Proof.
  intros Hs. rewrite on_storage_run. unfold query. rewrite (proj1 Hs). intros [= <- Hq]. by destruct e.
Qed.

(** The run up to the transactions: reads only. *)
Lemma createNewHeadBatch_inv d tr now l1 e e' :
  db_ok d → parents_ok d → holds d tr (e_storage e) → createNewHeadBatch fuel cfg AuthSender iterate now l1 e = (e', Ok tt) →
  ∃ head st txs n e1 e2 sb, ReadCurrentHeadBatch d = Ok head ∧ ReadCurrentSequencerNo d = Ok n ∧
    holds d tr (e_storage e1) ∧ e_mempool e1 = e_mempool e ∧ e_registry e1 = e_registry e ∧
    currentTxs cfg AuthSender iterate st e1 = (e1, Ok txs) ∧
    produceBatch fuel cfg (n + 1) (Block_Hash l1) (Batch.hashOf head) txs now e1 = (e2, Ok sb) ∧
    e' = set_mempool (Mempool.removeAll txs (e_mempool e2)) e2.
Proof.
  intros Hd Hp Hs. unfold createNewHeadBatch. intros (e1&head&Hhead&Hrun)%bind_Ok.
  destruct (on_storage_query ReadCurrentHeadBatch d tr e e1 head Hs Hhead) as [-> Hread].
  apply bind_Ok in Hrun as (e2&b&Hb&Hrun).
  destruct (on_storage_reads _ _ d tr _ _ _ (reads_FetchBlock d tr Hd (L1Proof (Batch.Header head))) Hs Hb) as (Hs2&Hm2&Hr2&_).
  apply bind_Ok in Hrun as (e3&anc&Hanc&Hrun).
  destruct (on_storage_reads (=) _ d tr _ _ _ (reads_IsAncestor d tr Hd fuel l1 l1 b b eq_refl eq_refl) Hs2 Hanc) as (Hs3&Hm3&Hr3&_).
  destruct anc; [|done]. cbn [negb] in Hrun. apply bind_Ok in Hrun as (e4&st&Hst&Hrun).
  destruct (on_storage_reads (=) _ d tr _ _ _ (reads_wrap d tr _ _ "unable to create stateDB for selecting transactions" _ _ (reads_CreateStateDB d tr Hd (Batch.hashOf head))) Hs3 Hst)
    as (Hs4&Hm4&Hr4&_).
  apply bind_Ok in Hrun as (e5&txs&Htxs&Hrun). assert (e5 = e4) as -> by (unfold currentTxs in Htxs; by injection Htxs as <- _).
  apply bind_Ok in Hrun as (e6&n&Hn&Hrun). destruct (on_storage_query ReadCurrentSequencerNo d tr e4 e6 n Hs4 Hn) as [-> Hseq].
  apply bind_Ok in Hrun as (e7&sb&Hprod&Hrun).
  assert (produceBatch fuel cfg (n + 1) (Block_Hash l1) (Batch.hashOf head) txs now e4 = (e7, Ok sb)) as Hprod'.
  { unfold wrap in Hprod. by destruct (produceBatch _ _ _ _ _ _ _ e4) as [? [?|?|?]]. }
  exists head, st, txs, n, e4, e7, sb. split_and!; try done; [congruence|congruence|].
  unfold on_mempool, zoom, Mempool.RemoveTxs, modify in Hrun. by injection Hrun as <-.
Qed.

(** Room for one more batch. *)
Definition room d : Prop := ∀ h ab, batches d !! h = Some ab →
  0 ≤ SequencerOrderNo (ab_header ab) < 2 ^ 63 - 1 ∧ 0 ≤ Number (ab_header ab) < 2 ^ 63 - 1.

(** What [createNewHeadBatch] adds on top of the head batch [hab]. *)
Record new_head d (l1 : L1Block) (now : Z) (e e' : Enclave C) (hab : ABatch) (sb : Batch.t) : Prop := {
  nh_batches : batches (s_db (e_storage e')) = with_executed d sb;
  nh_seq : ReadCurrentSequencerNo d = Ok (Batch.SeqNo sb - 1);
  nh_parent : ParentHash (Batch.Header sb) = BatchHeader_Hash (ab_header hab);
  nh_number : Batch.NumberOf sb = Number (ab_header hab) + 1;
  nh_proof : L1Proof (Batch.Header sb) = Block_Hash l1;
  nh_time : Time (Batch.Header sb) = now;
  nh_head : is_head_batch (s_db (e_storage e')) (ab_set_executed (newABatch d sb));
  nh_txs : ∀ tx, tx ∈ Batch.Transactions sb →
    e_mempool e !! tx_hash tx = Some tx ∧ e_mempool e' !! tx_hash tx = None;
  nh_state : is_Some (s_tries (e_storage e') !! Root (Batch.Header sb));
  nh_sig : ecdsa_Verify (PublicKey (enclavePrivateKey cfg)) (Batch.hashOf sb)
             (sigR (Batch.Header sb)) (sigS (Batch.Header sb)) = true
}.

(** C1: A batch created on a canonical L1 block extends the head batch. When
    [createNewHeadBatch] succeeds, in a consistent storage with room for one more number,
    the batch has the sequence number after the greatest one stored, the next height, the
    head as parent, and transactions of the mempool, which are removed from it; it is
    signed, stored with its state and marked executed, no other batch changes, and it is the
    new head. *)
Theorem createNewHeadBatch_correct d tr now l1 e e' :
  db_ok d → parents_ok d → hashes_apart d → room d → holds d tr (e_storage e) →
  mempool_ok (e_mempool e) → (∀ st a, Int.is_u64 (GetNonce st a)) → isCanonQuery d (Block_Hash l1) = true →
  createNewHeadBatch fuel cfg AuthSender iterate now l1 e = (e', Ok tt) →
  ∃ hab sb, is_head_batch d hab ∧ storage_ok (e_storage e') ∧ new_head d l1 now e e' hab sb.
Proof.
  intros Hd Hp Hap Hroom Hs Hmp Hnonce Hcan Hrun.
  destruct (createNewHeadBatch_inv d tr now l1 e e' Hd Hp Hs Hrun)
    as (head&st&txs&n&e1&e2&sb&Hread&Hseq&Hs1&Hm1&_&Htxs&Hprod&->).
  destruct (ReadCurrentHeadBatch_cases d Hd) as [(hab&Hhab&Hread')|[_ Hread']]; [|congruence].
  rewrite Hread in Hread'. injection Hread' as ->. pose proof (ReadCurrentSequencerNo_spec d Hd) as Hmax. rewrite Hseq in Hmax.
  destruct Hmax as [(hn&abn&Habn&Hn) Hmax]. destruct (Hroom _ _ Habn) as [Hrn _].
  rewrite <-Hm1 in Hmp. destruct (currentTxs_spec st e1 e1 txs Hmp Htxs (Hnonce st)) as (_&Hadm&Hpool).
  assert (Batch.hashOf (ab_batch hab) = BatchHeader_Hash (ab_header hab)) as Hhash by done.
  destruct (produceBatch_spec d tr (n + 1) (Block_Hash l1) (Batch.hashOf (ab_batch hab)) txs now e1 e2 sb)
    as [Hok _ Hba Hmem (cb&pab&Hpab&Hc&(r&sg&Hh&Htx&_&_&Hver)&Htr&_)]; [done..|lia| | |done|].
  { intros h ab Hab Heq. pose proof (Hmax h ab Hab). lia. }
  { intros pab Hpab. destruct (Hroom _ _ Hpab). lia. }
  assert (ab_header pab = ab_header hab) as Hpar.
  { destruct Hhab as ([h Hh']&_). rewrite Hhash in Hpab. pose proof (batch_key d _ _ Hd Hh') as Hk.
    cbn [ParentPtr] in Hpab. rewrite Hk, Hh' in Hpab. by injection Hpab as ->. }
  rewrite Hpar in Hc. exists hab, sb. split; [done|]. split; [done|].
  assert (Batch.NumberOf sb = Number (ab_header hab) + 1) as Hnum.
  { unfold Batch.NumberOf. rewrite Hh. apply (co_number _ _ _ Hc). }
  assert (L1Proof (Batch.Header sb) = Block_Hash l1) as Hproof by (rewrite Hh; apply (co_proof _ _ _ Hc)).
  split; [done| | |done|done| | | | |].
  - unfold Batch.SeqNo. rewrite Hh. cbn [set_sig SequencerOrderNo]. rewrite (co_seq _ _ _ Hc), Hseq. cbn. f_equal. lia.
  - rewrite Hh. apply (co_parent _ _ _ Hc).
  - rewrite Hh. apply (co_time _ _ _ Hc).
  - eapply with_executed_head; [done|done|done|]. by rewrite Hproof.
  - intros tx Hin. rewrite Htx in Hin. pose proof (elem_of_sublist _ _ _ Hin (co_txs _ _ _ Hc)) as Hin'.
    cbn [ctx_Transactions] in Hin'. rewrite <-Hm1. split; [by apply Hpool|]. cbn [e_mempool set_mempool].
    apply removeAll_lookup. left. apply list_elem_of_fmap. by exists tx.
  - cbn [e_storage set_mempool]. rewrite Htr, lookup_insert_eq. by eexists.
  - by rewrite Hh.
Qed.
End spec.
