(* ===== verification/Replay.v ===== *)
(** * A rollup gives another node the batches of the sequencer

    The batches recovered from a rollup are executed on the state of their
    parents and stored.  A node that shares the history of the first of them, and
    has none of them, ends with the batches the sequencer put in the rollup, under
    the same hashes and with the same states.  On the way: when recording an
    execution succeeds ([receipts_ok], [exec_fk]). *)

From S2P Require Import Prelude Types Codec L1Chain EnclaveDB BatchDB Events Storage StorageInv StorageOps StorageSpec CrossChain BlockProcessor Reads Executor ExecutorSpec Growth Mempool Registry RollupCompression RollupSpec Rollups Sequencer Validator SequencerSpec.

(** ** Tables that batches do not touch *)

Definition side (d : DB) : gmap bytes bytes * list (bytes * Hash) := (t_config d, t_l1msg d).

Definition side_free (q : statement) : Prop :=
  match q with l1msgInsert _ | cfgInsert _ _ | cfgUpdate _ _ => False | _ => True end.

Lemma exec_side qs : ∀ d d', Forall side_free qs → exec_all qs d = Some d' → side d' = side d.
Proof.
  induction qs as [|q qs IH]; intros d d' Hqs; cbn [exec_all]; [by intros [= <-]|].
  apply Forall_cons in Hqs as [Hq Hqs]. intros (d1 & Hd1 & Hd')%bind_Some. rewrite (IH d1 d' Hqs Hd'). clear IH Hd' Hqs.
  destruct q; try done; cbn [exec_statement] in Hd1;
    repeat first [ apply bind_Some in Hd1 as (? & ? & Hd1)
                 | match type of Hd1 with (if ?b then _ else _) = _ => destruct b
                                        | match ?o with _ => _ end = _ => destruct o end ]; by simplify_eq.
Qed.

Section frame.
Context {C : Type} `{CacheOk C, StateModel, StorageCodecsOk, HashingOk}.
Implicit Types (s : Storage C).

Lemma cacheBatch_db h b s : s_db (cacheBatch h b s).1 = s_db s.
Proof. unfold cacheBatch. by destruct (rlp_encode _). Qed.

Lemma transact_side msg1 msg2 queue qs s :
  queue (s_db s) dbTransaction.new = (dbTransaction.mk [] qs 0, Ok tt) → Forall side_free qs →
  side (s_db (transact msg1 msg2 queue s).1) = side (s_db s).
Proof.
  intros Hq Hqs. unfold transact, mbind, M_bind, gets. simpl. rewrite Hq. simpl. unfold wrap, on_db, zoom.
  rewrite Write_statements. destruct (exec_all qs (s_db s)) as [d'|] eqn:He; [|done]. by apply (exec_side qs).
Qed.

Lemma StoreBatch_side s b : storable b → side (s_db (StoreBatch b s).1) = side (s_db s).
Proof.
  intros Hb. unfold StoreBatch, mbind, M_bind, try, FetchBatchBySeqNo, query.
  destruct (ReadBatchBySeqNo _ _) as [b'|e|c]; [by case_bool_decide| |done].
  destruct (WriteBatch_queue (s_db s) b Hb) as (header&body&rows&_&_&_&Hq).
  pose proof (transact_side "could not write batch" "could not commit batch" (λ d, WriteBatchAndTransactions d b) _ s Hq) as Hside.
  destruct (transact _ _ _ s) as [s1 [[]|e1|c1]]; simpl in *; rewrite ?cacheBatch_db; apply Hside;
    (case_bool_decide; repeat constructor).
Qed.

Lemma StoreExecutedBatch_side s b rs : storage_ok s → side (s_db (StoreExecutedBatch b rs s).1) = side (s_db s).
Proof.
  intros Hok. unfold StoreExecutedBatch, mbind, M_bind, query. destruct (BatchWasExecuted _ _) as [[]|?|?]; try done.
  unfold wrap, lift. destruct (mapR execRow rs) as [rows|?|?] eqn:Hrows; try done.
  assert (∀ s' st, s_db s' = s_db s →
    side (s_db (transact "could not save logs" "could not commit batch" (queueExecution b rs st) s').1) = side (s_db s)) as Hcommit.
  { intros s' st Hs'. destruct (queueExecution_queue b rs rows st (s_db s') Hrows) as (qs&Hqs&Hq). rewrite <-Hs'.
    eapply transact_side; [exact Hq|]. constructor; [done|]. eapply Forall_impl; [exact Hqs|]. by intros []. }
  destruct (1 <? _)%Z; [|by apply Hcommit].
  destruct (FetchBatch_spec s (ParentHash (Batch.Header b)) Hok) as (_&[Hd1 _]&_).
  unfold CreateStateDB, mbind, M_bind. destruct (FetchBatch _ s) as [s1 [pb|?|?]]; simpl in *; [|by rewrite Hd1..].
  destruct (of_option _ _) as [st|?|?]; simpl; [|by rewrite Hd1..]. by apply Hcommit.
Qed.

Lemma side_messages d d' h : side d' = side d → FetchL1Messages h d' = FetchL1Messages h d.
Proof. intros [= _ Hm]. unfold FetchL1Messages. by rewrite Hm. Qed.
Lemma side_config d d' k : side d' = side d → FetchConfig k d' = FetchConfig k d.
Proof. intros [= Hc _]. unfold FetchConfig. by rewrite Hc. Qed.
End frame.

Local Open Scope Z_scope.

(** ** Recording an execution succeeds *)

(** The receipts of a batch, as an execution returns them: encodable, one per
    transaction, and their logs name the transaction and have a topic. *)
Record receipts_ok `{DBCodecs} (h : Hash) (receipts : list Receipt) : Prop := {
  rk_encode : ∀ r, r ∈ receipts → is_Some (encode_receipt r);
  rk_batch : ∀ r, r ∈ receipts → r_blockhash r = h;
  rk_nodup : NoDup (r_txhash <$> receipts);
  rk_logs : ∀ r l, r ∈ receipts → l ∈ r_logs r → log_txhash l = r_txhash r;
  rk_topics : ∀ r l, r ∈ receipts → l ∈ r_logs r → log_topics l ≠ []
}.

(** Rows with distinct free keys are all inserted. *)
Lemma insertExec_all d rows : ∀ m,
  NoDup ((λ r, (ex_batch r, ex_tx r)) <$> rows) → (∀ r, r ∈ rows → is_Some (t_batch d !! ex_batch r)) →
  (∀ r, r ∈ rows → m !! (ex_batch r, ex_tx r) = None) →
  ∃ m', fold_left (insertExec d) rows (Some m) = Some m' ∧
    (∀ k, is_Some (m !! k) → is_Some (m' !! k)) ∧ ∀ r, r ∈ rows → is_Some (m' !! (ex_batch r, ex_tx r)).
Proof.
  induction rows as [|r rows IH]; intros m Hnd Hb Hfree; [exists m; split_and!; [done|done|by intros r ?%not_elem_of_nil]|].
  apply NoDup_cons in Hnd as [Hnew Hnd]. cbn [fold_left].
  assert (insertExec d (Some m) r = Some (<[(ex_batch r, ex_tx r) := r]> m)) as ->.
  { unfold insertExec. cbn [mbind option_bind]. destruct (Hb r) as [br ->]; [by left|]. cbn [mbind option_bind].
    unfold sql_insert. by rewrite (Hfree r) by (by left). }
  destruct (IH (<[(ex_batch r, ex_tx r) := r]> m)) as (m'&->&Hold&Hin); [done|intros r' Hr'; apply Hb; by right| |].
  - intros r' Hr'. rewrite lookup_insert_ne; [apply Hfree; by right|]. intros Heq. apply Hnew, list_elem_of_fmap. by exists r'.
  - exists m'. split; [done|]. split; [|intros r' [->|Hr']%elem_of_cons; [|by apply Hin]].
    + intros k Hk. apply Hold. rewrite lookup_insert_is_Some. destruct (decide ((ex_batch r, ex_tx r) = k)); auto.
    + apply Hold. rewrite lookup_insert_eq. by eexists.
Qed.

Section record.
Context {C : Type} `{CacheOk C, StateModel, StorageCodecsOk, HashingOk}.
Implicit Types (s : Storage C) (d : DB).

(** The statements that record an execution, spelled out. *)
Definition eventStatements d receipts (st : option EState) : list statement :=
  match st with
  | Some st => if (0 <? length (eventRows d receipts st))%nat then [insertEvent (eventRows d receipts st)] else []
  | None => []
  end.

Lemma queueExecution_eq b receipts rows st d :
  mapR execRow receipts = Ok rows →
  queueExecution b receipts st d dbTransaction.new =
  (dbTransaction.mk [] (updateBatchExecuted (Batch.hashOf b) ::
     (if (0 <? length rows)%nat then [txExecInsert rows] else []) ++ eventStatements d receipts st) 0, Ok tt).
Proof.
  intros Hrows. unfold queueExecution, WriteBatchExecution, StoreEventLogs, eventStatements, when, mbind, M_bind, wrap, lift.
  simpl. rewrite Hrows. destruct (0 <? length rows)%nat, st as [st|]; simpl; try done;
    by destruct (0 <? length (eventRows d receipts st))%nat.
Qed.

Lemma execRows receipts h : receipts_ok h receipts →
  ∃ rows, mapR execRow receipts = Ok rows ∧ length rows = length receipts ∧
    (λ r, (ex_batch r, ex_tx r)) <$> rows = (λ r, (h, r_txhash r)) <$> receipts.
Proof.
  intros [He Hb _ _ _]. induction receipts as [|r rs IH]; [by exists []|].
  destruct IH as (rows&Hrows&Hlen&Hkeys); [intros; apply He; by right|intros; apply Hb; by right|].
  destruct (He r) as [v Hv]; [by left|].
  assert (execRow r = Ok (mkExecRow (r_contract r) v (r_txhash r) (r_blockhash r))) as Hr by (unfold execRow; by rewrite Hv).
  exists (mkExecRow (r_contract r) v (r_txhash r) (r_blockhash r) :: rows). cbn [mapR]. rewrite Hr, Hrows.
  split; [done|]. split; [by rewrite !length_cons, Hlen|]. rewrite !fmap_cons, Hkeys. cbn. by rewrite (Hb r) by (by left).
Qed.

Lemma commit_execution_Ok s b receipts rows st :
  storage_ok s → receipts_ok (Batch.hashOf b) receipts → mapR execRow receipts = Ok rows → length rows = length receipts →
  (λ r, (ex_batch r, ex_tx r)) <$> rows = (λ r, (Batch.hashOf b, r_txhash r)) <$> receipts →
  is_Some (t_batch (s_db s) !! Batch.hashOf b) → (∀ t, t_exec (s_db s) !! (Batch.hashOf b, t) = None) →
  (transact "could not save logs" "could not commit batch" (queueExecution b receipts st) s).2 = Ok tt.
Proof.
  intros Hok [_ Hb Hnd Hlogs Htopics] Hrows Hlen Hkeys Hbatch Hfree.
  unfold transact, mbind, M_bind, gets. cbn [id]. rewrite (queueExecution_eq b receipts rows st (s_db s) Hrows).
  unfold wrap, lift, on_db, zoom. rewrite Write_statements. cbn [exec_all exec_statement mbind option_bind].
  set (d1 := upd_batch _ (s_db s)).
  assert (∀ r, r ∈ rows → ex_batch r = Batch.hashOf b) as Hrb.
  { intros r Hr. assert ((ex_batch r, ex_tx r) ∈ (λ r, (ex_batch r, ex_tx r)) <$> rows) as Hin by (apply list_elem_of_fmap; by exists r).
    rewrite Hkeys in Hin. by apply list_elem_of_fmap in Hin as (r'&[= -> _]&_). }
  destruct (insertExec_all d1 rows (t_exec (s_db s))) as (m'&Hm'&Hold&Hin).
  - rewrite Hkeys. change (λ r, (Batch.hashOf b, r_txhash r)) with (pair (B:=Hash) (Batch.hashOf b) ∘ r_txhash).
    rewrite list_fmap_compose. apply NoDup_fmap_2; [|done]. by intros x y [= ->].
  - intros r Hr. rewrite (Hrb r Hr). unfold d1. simpl. rewrite lookup_sql_update. by apply fmap_is_Some.
  - intros r Hr. rewrite (Hrb r Hr). apply Hfree.
  - assert (∀ st row, row ∈ eventRows (s_db s) receipts st → ev_topics row ≠ [] ∧ is_Some (m' !! ev_exec row)) as Hev.
    { intros st' row (r&l&Hr&Hl&->)%elem_of_eventRows. unfold writeLog. destruct (topicAddresses _ _ _ _). cbn [ev_exec ev_topics].
      split; [pose proof (Htopics r l Hr Hl); by destruct (log_topics l)|].
      rewrite (Hlogs r l Hr Hl), (Hb r Hr).
      assert ((Batch.hashOf b, r_txhash r) ∈ (λ r, (Batch.hashOf b, r_txhash r)) <$> receipts) as Hk by (apply list_elem_of_fmap; by exists r).
      rewrite <-Hkeys in Hk. apply list_elem_of_fmap in Hk as (row&->&Hrow). by apply Hin. }
    assert (∀ d2, t_exec d2 = m' → is_Some (exec_all (eventStatements (s_db s) receipts st) d2)) as Hlast.
    { intros d2 Hd2. unfold eventStatements. destruct st as [st'|]; [|by eexists]. destruct (0 <? length _)%nat; [|by eexists].
      cbn [exec_all exec_statement].
      assert (forallb (λ r, bool_decide (ev_topics r ≠ []) && bool_decide (is_Some (t_exec d2 !! ev_exec r))) (eventRows (s_db s) receipts st') = true) as ->.
      { apply forallb_forall. intros row Hrow%list_elem_of_In. rewrite Hd2. apply andb_true_iff. by rewrite !bool_decide_eq_true; apply (Hev st'). }
      by eexists. }
    destruct (0 <? length rows)%nat eqn:Hpos.
    + cbn [app exec_all exec_statement]. change (t_exec d1) with (t_exec (s_db s)). rewrite Hm'. cbn [mbind option_bind].
      destruct (Hlast (upd_exec (λ _, m') d1) eq_refl) as [d3 ->]. done.
    + assert (receipts = []) as -> by (destruct receipts; [done|]; rewrite Hlen in Hpos; done).
      unfold eventStatements. by destruct st.
Qed.

(** The execution of a stored batch can be recorded when the state of its
    parent is there. *)
Lemma StoreExecutedBatch_Ok s b receipts pab st :
  storage_ok s → receipts_ok (Batch.hashOf b) receipts → is_Some (batches (s_db s) !! Batch.hashOf b) →
  (∀ t, t_exec (s_db s) !! (Batch.hashOf b, t) = None) →
  batches (s_db s) !! ParentHash (Batch.Header b) = Some pab → s_tries s !! Root (ab_header pab) = Some st →
  (StoreExecutedBatch b receipts s).2 = Ok tt.
Proof.
  intros Hok Hrec [ab Hab] Hfree Hpab Hst. pose proof (so_db s Hok) as Hd.
  destruct (execRows receipts _ Hrec) as (rows&Hrows&Hlen&Hkeys).
  assert (is_Some (t_batch (s_db s) !! Batch.hashOf b)) as Hbatch.
  { apply batches_lookup in Hab as (r&Hr&_); [by eexists|done]. }
  unfold StoreExecutedBatch, mbind, M_bind, query. rewrite (BatchWasExecuted_spec _ _ Hd), Hab. cbv beta iota.
  destruct (ab_canonical ab && ab_executed ab); [done|]. unfold wrap, lift. rewrite Hrows. cbv beta iota.
  destruct (1 <? _); [|by apply (commit_execution_Ok s b receipts rows)]. unfold CreateStateDB, mbind, M_bind.
  destruct (FetchBatch_spec s (ParentHash (Batch.Header b)) Hok) as (Hok1&[Hd1 Ht1]&Hr). rewrite Hpab in Hr.
  destruct (FetchBatch _ s) as [s1 r]. cbn [fst snd] in *. subst r. cbv beta iota. unfold gets. cbn [id].
  cbn [ab_batch Batch.Header]. rewrite Ht1, Hst. cbn [of_option]. cbv beta iota.
  by apply (commit_execution_Ok s1 b receipts rows); rewrite ?Hd1.
Qed.
End record.

(** ** Executions belong to stored batches *)

Definition exec_fk (d : DB) : Prop := ∀ k, is_Some (t_exec d !! k) → is_Some (t_batch d !! k.1).

Lemma insertExec_fk d rows : ∀ m m',
  fold_left (insertExec d) rows (Some m) = Some m' → (∀ k, is_Some (m !! k) → is_Some (t_batch d !! k.1)) →
  ∀ k, is_Some (m' !! k) → is_Some (t_batch d !! k.1).
Proof.
  induction rows as [|r rows IH]; intros m m'; cbn [fold_left]; [by intros [= <-]|].
  destruct (insertExec d (Some m) r) as [m1|] eqn:E.
  2:{ assert (∀ l, fold_left (insertExec d) l None = None) as -> by (by induction l). done. }
  intros Hf Hm. apply (IH m1 m' Hf). unfold insertExec in E. cbn [mbind option_bind] in E.
  destruct (t_batch d !! ex_batch r) as [br|] eqn:Hbr; [|done]. revert E. cbn [mbind option_bind]. unfold sql_insert.
  destruct (m !! _); [done|]. intros [= <-] k Hk. destruct (decide ((ex_batch r, ex_tx r) = k)) as [<-|Hne].
  - cbn. rewrite Hbr. by eexists.
  - apply Hm. by rewrite lookup_insert_ne in Hk.
Qed.

(** No statement takes a batch away. *)
Lemma exec_statement_fk q d d' : exec_statement q d = Some d' → exec_fk d → exec_fk d'.
Proof.
  intros Hq Hfk.
  assert (∀ P f, exec_fk (upd_batch (sql_update P f) d)) as Hupd.
  { intros P f k Hk. cbn. rewrite lookup_sql_update. apply fmap_is_Some, Hfk, Hk. }
  destruct q; cbn [exec_statement] in Hq;
    try (repeat first [ apply bind_Some in Hq as (? & ? & Hq)
                      | match type of Hq with (if ?b then _ else _) = _ => destruct b end ]; by simplify_eq).
  - apply bind_Some in Hq as (? & _ & Hq). destruct (negb _); [done|]. destruct (sql_row _ _); [done|].
    apply bind_Some in Hq as (m & Hm & [= <-]). revert Hm. unfold sql_insert. destruct (t_batch d !! _); [done|].
    intros [= <-] k Hk. cbn. rewrite lookup_insert_is_Some. destruct (decide (bat_hash row = k.1)); [by left|right]. split; [done|by apply Hfk].
  - apply bind_Some in Hq as (m & Hm & [= <-]). exact (insertExec_fk d rows _ _ Hm Hfk).
Qed.

Lemma exec_all_fk qs : ∀ d d', exec_all qs d = Some d' → exec_fk d → exec_fk d'.
Proof.
  induction qs as [|q qs IH]; intros d d'; cbn [exec_all]; [by intros [= <-]|].
  intros (d1 & Hd1 & Hd')%bind_Some Hfk. by eapply IH, exec_statement_fk.
Qed.

(** Only an execution adds rows of executions. *)
Definition execution_free (q : statement) : Prop := match q with txExecInsert _ => False | _ => True end.

Lemma exec_all_executions qs : ∀ d d', Forall execution_free qs → exec_all qs d = Some d' → t_exec d' = t_exec d.
Proof.
  induction qs as [|q qs IH]; intros d d' Hqs; cbn [exec_all]; [by intros [= <-]|].
  apply Forall_cons in Hqs as [Hq Hqs]. intros (d1 & Hd1 & Hd')%bind_Some. rewrite (IH d1 d' Hqs Hd'). clear IH Hd' Hqs.
  destruct q; try done; cbn [exec_statement] in Hd1;
    repeat first [ apply bind_Some in Hd1 as (? & ? & Hd1)
                 | match type of Hd1 with (if ?b then _ else _) = _ => destruct b
                                        | match ?o with _ => _ end = _ => destruct o end ]; by simplify_eq.
Qed.

Section foreign.
Context {C : Type} `{CacheOk C, StateModel, StorageCodecsOk, HashingOk}.
Implicit Types (s : Storage C).

Lemma transact_fk msg1 msg2 queue qs s :
  queue (s_db s) dbTransaction.new = (dbTransaction.mk [] qs 0, Ok tt) → exec_fk (s_db s) →
  exec_fk (s_db (transact msg1 msg2 queue s).1).
Proof.
  intros Hq Hfk. unfold transact, mbind, M_bind, gets. cbn [id]. rewrite Hq. unfold wrap, lift, on_db, zoom. cbv beta iota.
  rewrite Write_statements. destruct (exec_all qs (s_db s)) as [d'|] eqn:He; [|done]. by apply (exec_all_fk qs _ _ He).
Qed.

Lemma StoreBatch_fk s b : storable b → exec_fk (s_db s) → exec_fk (s_db (StoreBatch b s).1).
Proof.
  intros Hb Hfk. unfold StoreBatch, mbind, M_bind, try, FetchBatchBySeqNo, query.
  destruct (ReadBatchBySeqNo _ _) as [b'|e|c]; [by case_bool_decide| |done].
  destruct (WriteBatch_queue (s_db s) b Hb) as (header&body&rows&_&_&_&Hq).
  pose proof (transact_fk "could not write batch" "could not commit batch" (λ d, WriteBatchAndTransactions d b) _ s Hq Hfk) as Hs1.
  destruct (transact _ _ _ s) as [s1 [[]|e1|c1]]; simpl in *; by rewrite ?cacheBatch_db.
Qed.

Lemma StoreBatch_executions s b : storable b → t_exec (s_db (StoreBatch b s).1) = t_exec (s_db s).
Proof.
  intros Hb. unfold StoreBatch, mbind, M_bind, try, FetchBatchBySeqNo, query.
  destruct (ReadBatchBySeqNo _ _) as [b'|e|c]; [by case_bool_decide| |done].
  destruct (WriteBatch_queue (s_db s) b Hb) as (header&body&rows&_&_&_&Hq).
  unfold transact, mbind, M_bind, gets. cbn [id]. rewrite Hq. unfold wrap, lift, on_db, zoom. cbv beta iota.
  rewrite Write_statements. destruct (exec_all _ (s_db s)) as [d'|] eqn:He; cbn; rewrite ?cacheBatch_db; [|done].
  apply (exec_all_executions _ _ _) in He; [done|]. case_bool_decide; repeat constructor.
Qed.

Lemma StoreExecutedBatch_fk s b rs : storage_ok s → exec_fk (s_db s) → exec_fk (s_db (StoreExecutedBatch b rs s).1).
Proof.
  intros Hok Hfk. unfold StoreExecutedBatch, mbind, M_bind, query. destruct (BatchWasExecuted _ _) as [[]|?|?]; try done.
  unfold wrap, lift. destruct (mapR execRow rs) as [rows|?|?] eqn:Hrows; try done.
  assert (∀ s' st, s_db s' = s_db s →
    exec_fk (s_db (transact "could not save logs" "could not commit batch" (queueExecution b rs st) s').1)) as Hcommit.
  { intros s' st Hs'. eapply transact_fk; [by apply queueExecution_eq|]. by rewrite Hs'. }
  destruct (1 <? _); [|by apply Hcommit].
  destruct (FetchBatch_spec s (ParentHash (Batch.Header b)) Hok) as (_&[Hd1 _]&_).
  unfold CreateStateDB, mbind, M_bind. destruct (FetchBatch _ s) as [s1 [pb|?|?]]; simpl in *; [|by rewrite Hd1..].
  destruct (of_option _ _) as [st|?|?]; simpl; [|by rewrite Hd1..]. by apply Hcommit.
Qed.
End foreign.

(** A batch and its ancestors, as far as they are stored. *)
Inductive lineage (bs : gmap Hash ABatch) (p : Hash) : Hash → Prop :=
  | lineage_refl : lineage bs p p
  | lineage_parent h ab : lineage bs p h → bs !! h = Some ab → lineage bs p (ParentHash (ab_header ab)).

Lemma lineage_inv bs q ab h : bs !! q = Some ab → lineage bs q h → h = q ∨ lineage bs (ParentHash (ab_header ab)) h.
Proof.
  intros Hq. induction 1 as [|h ab' _ IH Hh]; [by left|]. right. destruct IH as [->|IH].
  - rewrite Hq in Hh. injection Hh as <-. constructor.
  - by eapply lineage_parent.
Qed.

Section replay.
Local Open Scope Z_scope.
Context {C : Type} `{CacheOk C, StateModel, StorageCodecsOk, HashingOk, MB : MessageBus}.
Context `{OW : !OwnerWallet, Keccak, EV : !EVM, EVOK : !EVMOk, CS : !Codec (list Z), RollupCodecs, !RollupCodecsOk}.
(** The walks' fuel, the genesis, the storage of the sequencer, and the L1 blocks of the history of the rollup. *)
Context (fuel : nat) (g : Genesis) (d1 : DB) (tr1 : gmap Hash EState) (Hd1 : db_ok d1) (Hp1 : parents_ok d1).
Context (B : Hash → Prop).
Implicit Types (s : Storage C) (d : DB) (e : Enclave C).
Abbreviation member := (Batch.t * L1Header * bool)%type.
Abbreviation ancestry p := (lineage (batches d1) p).

(** The sequencer has the batch and its parent. *)
Definition at_sequencer (b : Batch.t) : Prop :=
  Batch.hash_ok b ∧ (∃ ab, batches d1 !! Batch.hashOf b = Some ab ∧ ab_header ab = Batch.Header b) ∧
  is_Some (batches d1 !! ParentHash (Batch.Header b)).

(** Computing a canonical batch on the storage of the sequencer gives the batch,
    with its transactions and the state stored under its root. *)
Definition recomputed (b : Batch.t) (cb : ComputedBatch) : Prop :=
  ∃ (s s' : Storage C), holds d1 tr1 s ∧ ComputeBatch fuel (contextOf b) s = (s', Ok cb) ∧
    same_unsigned (cb_Batch cb) b ∧ Batch.Transactions (cb_Batch cb) = Batch.Transactions b ∧
    tr1 !! Root (Batch.Header b) = Some (cb_state cb).
Definition recomputes (b : Batch.t) : Prop := ∃ cb, recomputed b cb.
(** The receipts of the execution can be stored. *)
Definition recordable (b : Batch.t) : Prop := ∃ cb, recomputed b cb ∧ receipts_ok (Batch.hashOf b) (cb_Receipts cb).

Definition unsigned (b : Batch.t) : Batch.t := Batch.mk (set_sig 0 0 (Batch.Header b)) None (Batch.Transactions b).

Definition member_ok (m : member) : Prop :=
  at_sequencer m.1.1 ∧
  if m.2 then B (L1Proof (Batch.Header m.1.1)) ∧ recordable m.1.1 ∧ storable (unsigned m.1.1)
  else storable (Batch.mk (Batch.Header m.1.1) None (Batch.Transactions m.1.1)).

(** The other node: what it shares with the sequencer. *)
Record replica d2 (tr2 : gmap Hash EState) s : Prop := {
  re_holds : holds d2 tr2 s;
  re_db : db_ok d2;
  re_parents : parents_ok d2;
  re_apart : hashes_apart d2;
  re_l1 : l1_history B d1 d2;
  re_secret : FetchConfig masterSeedCfg d2 = FetchConfig masterSeedCfg d1
}.

(** It has the history of a batch, and its state. *)
Definition knows d2 (tr2 : gmap Hash EState) (p : Hash) : Prop :=
  l2_history (ancestry p) p d1 tr1 d2 tr2 ∧
  ∀ h ab, ancestry p h → batches d1 !! h = Some ab → B (L1Proof (ab_header ab)).

Lemma knows_extends d2 tr2 s p : replica d2 tr2 s → knows d2 tr2 p → extends B (ancestry p) p d1 tr1 d2 tr2.
Proof. intros Hr [Hk HB]. split; [apply (re_l1 _ _ _ Hr)|done|done|apply (re_secret _ _ _ Hr)]. Qed.

(** A batch of the sequencer is added, with nothing but the tables of batches
    touched. *)
Lemma replica_add d2 tr2 tr2' s s' b ab :
  replica d2 tr2 s → at_sequencer b → storage_ok s' → s_tries s' = tr2' → blocks (s_db s') = blocks d2 →
  side (s_db s') = side d2 → batches (s_db s') = <[Batch.hashOf b := ab]> (batches d2) →
  ParentHash (ab_header ab) = ParentHash (Batch.Header b) → replica (s_db s') tr2' s'.
Proof.
  intros [Hs Hd Hp Ha Hl Hsec] (_&_&pab&Hpab) Hok Ht Hbl Hside Hba Hpar. split.
  - split_and!; [done|done|by apply so_cache].
  - by apply so_db.
  - intros h ab' Hab'. rewrite Hbl. rewrite Hba in Hab'. apply lookup_insert_Some in Hab' as [[_ <-]|[_ Hab']].
    + rewrite Hpar, <-(batch_key d1 _ pab Hd1 Hpab). apply Ha.
    + by apply (Hp h).
  - intros h. rewrite Hbl. apply Ha.
  - destruct Hl as [L1 L2 L3]. split; [by rewrite Hbl|done|]. intros h Hh. by rewrite (side_messages d2 _ h Hside), L3.
  - by rewrite (side_config d2 _ _ Hside).
Qed.

(** The history stays known: the new batch is one of the sequencer's, and the
    states of the sequencer are kept. *)
Lemma knows_add d2 tr2 d2' tr2' p b ab :
  knows d2 tr2 p → at_sequencer b → batches d2' = <[Batch.hashOf b := ab]> (batches d2) →
  (∀ r st, tr1 !! r = Some st → tr2 !! r = Some st → tr2' !! r = Some st) → knows d2' tr2' p.
Proof.
  intros [[K1 K2 K3] HB] (_&(ab1&Hab1&_)&_) Hba Htr. split; [|done]. split; [|done|].
  - intros h Hh. rewrite Hba. destruct (decide (h = Batch.hashOf b)) as [->|Hne].
    + rewrite Hab1, lookup_insert_eq. by split; eexists.
    + rewrite lookup_insert_ne by done. by apply K1.
  - intros ab' st Hab' Hst. apply Htr; [done|]. by apply K3.
Qed.

Lemma knows_next d2 tr2 b ab :
  at_sequencer b → B (L1Proof (Batch.Header b)) → knows d2 tr2 (ParentHash (Batch.Header b)) → batches d2 !! Batch.hashOf b = Some ab →
  tr2 !! Root (Batch.Header b) = tr1 !! Root (Batch.Header b) → knows d2 tr2 (Batch.hashOf b).
Proof.
  intros (_&(ab1&Hab1&Hhd)&_) HBb [[K1 K2 K3] HB] Hab Htr.
  assert (∀ h, ancestry (Batch.hashOf b) h → h = Batch.hashOf b ∨ ancestry (ParentHash (Batch.Header b)) h) as Hinv.
  { intros h Hh. rewrite <-Hhd. by apply (lineage_inv _ _ _ _ Hab1). }
  split.
  2:{ intros h ab' [->|Hh]%Hinv Hab'; [|by apply (HB h)]. rewrite Hab1 in Hab'. injection Hab' as <-. by rewrite Hhd. }
  split.
  - intros h [->|Hh]%Hinv; [|by apply K1]. rewrite Hab1, Hab. by split; eexists.
  - intros h ab' Hh Hab'. by eapply lineage_parent.
  - intros ab' st Hab' Hst. rewrite Hab1 in Hab'. injection Hab' as <-. rewrite Hhd in *. by rewrite Htr.
Qed.
(** ** One batch *)

(** No stored batch has the sequence number. *)
Definition fresh d (n : Z) : Prop := ∀ h ab, batches d !! h = Some ab → SequencerOrderNo (ab_header ab) ≠ n.

Lemma FetchBatchBySeqNo_fresh d2 tr2 s n : replica d2 tr2 s → fresh d2 n → 0 ≤ n < 2 ^ 63 →
  try (FetchBatchBySeqNo (Int.u64 n)) s = (s, Ok (inr ErrNotFound)).
Proof.
  intros Hr Hf Hn. unfold try, FetchBatchBySeqNo, query. rewrite (proj1 (re_holds _ _ _ Hr)), (proj1 (u64_small n Hn)).
  by rewrite (proj2 (ReadBatchBySeqNo_spec d2 n (re_db _ _ _ Hr)) Hf).
Qed.

(** A batch with a new sequence number is new. *)
Lemma fresh_new d b : db_ok d → Batch.hash_ok b → fresh d (Batch.SeqNo b) → batches d !! Batch.hashOf b = None.
Proof.
  intros Hd Hb Hf. destruct (batches d !! Batch.hashOf b) as [ab|] eqn:Hab; [|done]. destruct (Hf _ _ Hab).
  pose proof (batch_key _ _ ab Hd Hab) as Hkey. rewrite Hb in Hkey. apply (inj rlpHash_batch) in Hkey.
  by apply (f_equal SequencerOrderNo) in Hkey.
Qed.

(** What adding one batch of the rollup leaves behind. *)
Record added d2 (tr2 : gmap Hash EState) (m : member) d2' (tr2' : gmap Hash EState) : Prop := {
  ad_blocks : blocks d2' = blocks d2;
  ad_batches : ∃ ab, batches d2' = <[Batch.hashOf m.1.1 := ab]> (batches d2) ∧
    same_unsigned (ab_batch ab) m.1.1 ∧ ab_txs ab = Batch.Transactions m.1.1 ∧ (m.2 = true → ab_executed ab = true);
  ad_states : ∀ r, tr2 !! r = tr1 !! r → tr2' !! r = tr1 !! r;
  ad_state : m.2 = true → tr2' !! Root (Batch.Header m.1.1) = tr1 !! Root (Batch.Header m.1.1)
}.

Lemma storable_computed cb ctx parent b :
  computed ctx parent cb → same_unsigned (cb_Batch cb) b → Batch.Transactions (cb_Batch cb) = Batch.Transactions b →
  storable (unsigned b) → storable (cb_Batch cb) ∧ Batch.hashOf (cb_Batch cb) = BatchHeader_Hash (Batch.Header b).
Proof.
  intros Hc Hu Htx [S1 S2 S3 S4 S5 S6 S7]. pose proof (co_hash _ _ _ Hc) as Hok.
  assert (Batch.Header (cb_Batch cb) = Batch.Header (unsigned b)) as Hh.
  { rewrite <-(co_unsigned _ _ _ Hc). exact Hu. }
  split.
  - split; [done|..]; unfold Batch.SeqNo, Batch.NumberOf in *; rewrite ?Hh, ?Htx; done.
  - rewrite Hok, Hh. apply BatchHeader_Hash_sig.
Qed.

(** A batch was computed on the state of its parent. *)
Lemma ComputeBatch_state d tr ctx s s' cb ab : db_ok d → holds d tr s → ComputeBatch fuel ctx s = (s', Ok cb) →
  batches d !! ParentPtr ctx = Some ab → is_Some (tr !! Root (ab_header ab)).
Proof.
  intros Hd Hs Hrun Hab. unfold ComputeBatch in Hrun. apply bind_Ok in Hrun as (s1&rb&Hrb&Hrun).
  destruct (reads_FetchBlock d tr Hd (BlockPtr ctx) s s Hs Hs) as (Hs1&_&_). unfold FetchBlock, storage_resolver in Hs1. unfold try in Hrb.
  destruct (storage_FetchBlock (BlockPtr ctx) s) as [s1' [bl|err|c]]; simplify_eq/=; [|by destruct (errors_Is err ErrNotFound)].
  apply bind_Ok in Hrun as (s2&rp&Hrp&Hrun). unfold try in Hrp.
  destruct (reads_FetchBatch d tr Hd (ParentPtr ctx) s1 s1 Hs1 Hs1) as (Hs2&_&Hfp).
  destruct (FetchBatch (ParentPtr ctx) s1) as [s2' [p|err|c]]; simplify_eq/=; [|by destruct (errors_Is err ErrNotFound)].
  destruct Hfp as (_&ab'&Hab'&->). rewrite Hab in Hab'. injection Hab' as <-.
  apply bind_Ok in Hrun as (s3&pb&Hpb&Hrun).
  assert (holds d tr s3) as Hs3.
  { destruct (bool_decide _); [|by injection Hpb as <-].
    destruct (reads_FetchBlock d tr Hd (L1Proof (Batch.Header (ab_batch ab))) s2 s2 Hs2 Hs2) as (Hs3&_&_). unfold FetchBlock, storage_resolver in Hs3.
    by rewrite Hpb in Hs3. }
  unfold computeOn in Hrun. apply bind_Ok in Hrun as (s4&st&Hst&_). apply wrap_Ok in Hst. unfold CreateStateDB in Hst.
  apply bind_Ok in Hst as (s5&pb'&Hpb'&Hst).
  assert (BatchHeader_Hash (Batch.Header (ab_batch ab)) = ParentPtr ctx) as Hkey by (exact (batch_key d _ _ Hd Hab)).
  cbn [ParentHash Batch.Header Batch.DeterministicEmptyBatch] in Hpb'. rewrite Hkey in Hpb'.
  destruct (reads_FetchBatch d tr Hd (ParentPtr ctx) s3 s3 Hs3 Hs3) as (Hs5&_&Hfp). rewrite Hpb' in Hs5, Hfp. cbn [fst snd] in *.
  destruct Hfp as (_&ab'&Hab'&->). rewrite Hab in Hab'. injection Hab' as <-.
  apply bind_Ok in Hst as (s6&s6'&Hg&Hst). injection Hg as <- <-. destruct Hs5 as (_&Ht5&_). rewrite Ht5 in Hst.
  cbn [Batch.Header ab_batch] in Hst. by destruct (tr !! Root (ab_header ab)).
Qed.

(** A new batch is stored, and its execution recorded. *)
Lemma store_execute d tr s b rs pab :
  holds d tr s → db_ok d → storable b → blocks d !! Batch.hashOf b = None → fresh d (Batch.SeqNo b) →
  exec_fk d → receipts_ok (Batch.hashOf b) rs → batches d !! ParentHash (Batch.Header b) = Some pab → is_Some (tr !! Root (ab_header pab)) →
  ∃ s4 s5, StoreBatch b s = (s4, Ok tt) ∧ StoreExecutedBatch b rs s4 = (s5, Ok tt) ∧
  storage_ok s5 ∧ s_tries s5 = tr ∧ blocks (s_db s5) = blocks d ∧ side (s_db s5) = side d ∧
  batches (s_db s5) = with_executed d b ∧ exec_fk (s_db s5).
Proof.
  intros Hs Hd Hb Hnb Hf Hfk Hrs Hpab [st Hst]. pose proof (proj1 Hs) as Hdb.
  destruct (StoreBatch_new s b) as (s4&Hrun4&Hok4&Ht4&Hbl4&_&Hba4); [by eapply holds_ok|done|by rewrite Hdb..|].
  pose proof (StoreBatch_side s b Hb) as Hside4. pose proof (StoreBatch_fk s b Hb) as Hfk4. pose proof (StoreBatch_executions s b Hb) as Hex4.
  rewrite Hrun4 in Hside4, Hfk4, Hex4. cbn [fst snd] in *. rewrite Hdb in *. rewrite (proj1 (proj2 Hs)) in Ht4.
  pose proof (fresh_new d b Hd (sb_hash _ Hb) Hf) as Hnew.
  assert ((StoreExecutedBatch b rs s4).2 = Ok tt) as Hr.
  { apply (StoreExecutedBatch_Ok s4 b rs pab st); [done|done|by rewrite Hba4, lookup_insert_eq| | |by rewrite Ht4].
    - intros t. rewrite Hex4. apply eq_None_not_Some. intros Hin%Hfk. cbn in Hin. apply eq_None_not_Some in Hnew as [].
      destruct Hin as [r Hr]. destruct (do_batches _ Hd _ r Hr) as [ab Hrow]. exists ab. apply batches_lookup; eauto.
    - rewrite Hba4, lookup_insert_ne; [done|]. intros Heq. rewrite <-Heq in Hpab. congruence. }
  destruct (StoreExecutedBatch_spec s4 b rs Hok4) as (Hok5&Ht5&Hbl5&_&Hr5).
  pose proof (StoreExecutedBatch_side s4 b rs Hok4) as Hside5. pose proof (StoreExecutedBatch_fk s4 b rs Hok4 (Hfk4 Hfk)) as Hfk5.
  exists s4, (StoreExecutedBatch b rs s4).1. destruct (StoreExecutedBatch b rs s4) as [s5 r]. cbn [fst snd] in *. subst r.
  split_and!; [done|done|done|by rewrite Ht5, Ht4|congruence..| |done].
  rewrite Hr5, Hba4. unfold with_executed. by rewrite alter_insert_eq.
Qed.

Lemma storeExecuted_run b rs rs' e s4 s5 : StoreBatch b (e_storage e) = (s4, Ok tt) → StoreExecutedBatch b rs s4 = (s5, Ok tt) →
  ∃ e', (_ ← on_storage (StoreBatch b); _ ← on_storage (StoreExecutedBatch b rs); _ ← on_registry (OnBatchExecuted b rs');
   mret (Batch.hashOf b)) e = (e', Ok (Batch.hashOf b)) ∧ e_storage e' = s5.
Proof.
  intros Hrun4 Hrun5. unfold mbind, M_bind. rewrite on_storage_run, Hrun4. cbn [fst snd]. cbv beta iota.
  rewrite on_storage_run. cbn [e_storage set_storage]. rewrite Hrun5. cbn [fst snd]. by eexists.
Qed.

(** The members of the rollup are new to the other node, and not the genesis batch. *)
Lemma saveIncompleteBatch_new d2 tr2 b ib p e : replica d2 tr2 (e_storage e) → fr_seqNo ib = Batch.SeqNo b → 0 ≤ Batch.SeqNo b < 2 ^ 63 →
  fresh d2 (Batch.SeqNo b) → Batch.SeqNo b ≠ L2GenesisSeqNo →
  saveIncompleteBatch fuel g p ib e =
    match fr_header ib with
    | Some header => (_ ← on_storage (StoreBatch (Batch.mk header None (fr_transactions ib))); mret p) e
    | None =>
        (cb ← on_storage (computeBatch fuel (fr_l1Proof ib) p (fr_transactions ib) (fr_time ib) (fr_seqNo ib));
         _ ← on_storage (wrap "cannot commit stateDB for incoming valid batch" (Commit cb true));
         _ ← on_storage (StoreBatch (cb_Batch cb));
         _ ← on_storage (StoreExecutedBatch (cb_Batch cb) (cb_Receipts cb));
         _ ← on_registry (OnBatchExecuted (cb_Batch cb) []);
         mret (Batch.hashOf (cb_Batch cb))) e
    end.
Proof.
  intros Hrep Rs Hseq Hfresh Hgen.
  unfold saveIncompleteBatch. erewrite bind_eq; [|rewrite on_storage_run, Rs, (FetchBatchBySeqNo_fresh d2 tr2 _ _ Hrep Hfresh Hseq); reflexivity].
  cbv beta iota.
  rewrite errors_Is_refl, Rs. cbn [negb]. rewrite bool_decide_false by (rewrite (proj1 (u64_small _ Hseq)); done).
  cbn [fst]. replace (set_storage (e_storage e) e) with e by (by destruct e). by destruct (fr_header ib).
Qed.

(** A canonical batch is computed again, stored and executed. *)
Lemma replay_canonical d2 tr2 b hd ib e :
  replica d2 tr2 (e_storage e) → knows d2 tr2 (ParentHash (Batch.Header b)) → member_ok (b, hd, true) →
  restored (b, hd, true) ib → fresh d2 (Batch.SeqNo b) → Batch.SeqNo b ≠ L2GenesisSeqNo → exec_fk d2 →
  ∃ e', saveIncompleteBatch fuel g (ParentHash (Batch.Header b)) ib e = (e', Ok (Batch.hashOf b)) ∧
  ∃ d2' tr2', replica d2' tr2' (e_storage e') ∧ knows d2' tr2' (Batch.hashOf b) ∧
    added d2 tr2 (b, hd, true) d2' tr2' ∧ exec_fk d2'.
Proof.
  intros Hrep Hk (Hat&HBb&(cb&(s1&s1'&Hs1&Hcomp&Hu&Htx&Hst)&Hrs)&Hsto) (Rt&Rs&_&Rti&Rh&Rc) Hfresh Hgen Hfk.
  cbn [fst snd reorgEntry] in *. destruct (Rc eq_refl) as [_ Rp]. clear Rc.
  rewrite (saveIncompleteBatch_new d2 tr2 b) by first [done|apply (sb_seq _ Hsto)]. rewrite Rh, Rp, Rt, Rti, Rs.
  pose proof (knows_extends _ _ _ _ Hrep Hk) as Hext. pose proof Hrep as [Hs2 Hd2 Hp2 Ha2 _ _].
  destruct (grows_ComputeBatch B _ _ d1 d2 tr1 tr2 Hd1 Hd2 Hp1 Hp2 Hext fuel (contextOf b) HBb (lineage_refl _ _) eq_refl
    s1 (e_storage e) s1' cb Hs1 Hs2 Hcomp) as (_&t&cb'&Hrun2&Ht&<-).
  destruct (ComputeBatch_Ok _ _ _ _ _ _ _ Hd2 Hp2 Hs2 Hrun2) as (_&pab&Hpab&Hc).
  pose proof (ComputeBatch_state _ _ _ _ _ _ _ Hd2 Hs2 Hrun2 Hpab) as Hpst. change (ParentPtr (contextOf b)) with (ParentHash (Batch.Header b)) in Hpab.
  destruct (storable_computed cb _ _ b Hc Hu Htx Hsto) as [Hsc Hhash].
  assert (Batch.hashOf (cb_Batch cb) = Batch.hashOf b) as Hhb by (by rewrite Hhash, (proj1 Hat)).
  destruct (unsigned_fields _ _ Hu) as (Hroot&Hpar&_).
  erewrite bind_eq; [|unfold computeBatch; rewrite on_storage_run; change (mkContext _ _ _ _ _) with (contextOf b); rewrite Hrun2; reflexivity].
  erewrite bind_eq; [|rewrite on_storage_run; unfold wrap; cbn [e_storage set_storage fst]; rewrite (Commit_computed _ _ _ t Hc); reflexivity].
  cbn [fst snd]. set (s3 := mkStorage C _ _ _ _).
  assert (holds d2 (<[Root (Batch.Header (cb_Batch cb)) := cb_state cb]> tr2) s3) as Hs3.
  { destruct Ht as (<-&<-&?). done. }
  destruct (store_execute d2 _ s3 (cb_Batch cb) (cb_Receipts cb) pab Hs3 Hd2 Hsc) as (s4&s5&Hrun4&Hrun5&Hok5&Ht5&Hbl5&Hside5&Hba5&Hfk5).
  { rewrite Hhash. apply Ha2. } { rewrite (f_equal SequencerOrderNo Hu : Batch.SeqNo (cb_Batch cb) = _). exact Hfresh. }
  { done. } { by rewrite Hhb. } { by rewrite Hpar. }
  { apply lookup_insert_is_Some'. by right. }
  destruct (storeExecuted_run (cb_Batch cb) (cb_Receipts cb) [] (set_storage s3 (set_storage t e)) s4 s5 Hrun4 Hrun5) as (e'&Hrun&He').
  rewrite Hhb in Hrun. exists e'. rewrite He'. split; [by rewrite Hhb|].
  unfold with_executed in Hba5. rewrite Hhb in Hba5. exists (s_db s5), (s_tries s5).
  assert (∀ r, tr2 !! r = tr1 !! r → s_tries s5 !! r = tr1 !! r) as Hstates.
  { intros r Hr. rewrite Ht5. destruct (decide (r = Root (Batch.Header (cb_Batch cb)))) as [->|Hne].
    - by rewrite lookup_insert_eq, Hroot, Hst.
    - by rewrite lookup_insert_ne. }
  assert (s_tries s5 !! Root (Batch.Header b) = tr1 !! Root (Batch.Header b)) as Hstate.
  { by rewrite Ht5, <-Hroot, lookup_insert_eq, Hroot, Hst. }
  split_and!.
  - by eapply (replica_add d2 tr2 _ (e_storage e)).
  - eapply knows_next; [done|done| |by rewrite Hba5, lookup_insert_eq|done].
    eapply knows_add; [done..|]. intros r st Hr1 Hr2. rewrite <-Hr1. apply Hstates. by rewrite Hr1, Hr2.
  - split; [done| |done|done]. eexists. split; [exact Hba5|]. by split_and!.
  - done.
Qed.

(** A reorged batch is stored with the header of the sequencer and not executed. *)
Lemma replay_reorged d2 tr2 b hd ib e p :
  replica d2 tr2 (e_storage e) → knows d2 tr2 p → member_ok (b, hd, false) →
  restored (b, hd, false) ib → fresh d2 (Batch.SeqNo b) → Batch.SeqNo b ≠ L2GenesisSeqNo → exec_fk d2 →
  ∃ e', saveIncompleteBatch fuel g p ib e = (e', Ok p) ∧
  ∃ d2' tr2', replica d2' tr2' (e_storage e') ∧ knows d2' tr2' p ∧ added d2 tr2 (b, hd, false) d2' tr2' ∧ exec_fk d2'.
Proof.
  intros Hrep Hk (Hat&Hsto) (Rt&Rs&_&_&Rh&_) Hfresh Hgen Hfk. cbn [fst snd reorgEntry] in *.
  rewrite (saveIncompleteBatch_new d2 tr2 b) by first [done|apply (sb_seq _ Hsto)]. rewrite Rh, Rt.
  set (b' := Batch.mk (Batch.Header b) None (Batch.Transactions b)) in *.
  assert (Batch.hashOf b' = Batch.hashOf b) as Hhash by (symmetry; exact (proj1 Hat)).
  pose proof Hrep as [Hs2 Hd2 Hp2 Ha2 _ _]. pose proof (proj1 Hs2) as Hdb.
  destruct (StoreBatch_new (e_storage e) b') as (s3&Hrun3&Hok3&Ht3&Hbl3&_&Hba3); [by eapply holds_ok|done|..].
  { rewrite Hdb. apply Ha2. } { rewrite Hdb. exact Hfresh. }
  pose proof (StoreBatch_side (e_storage e) b' Hsto) as Hside. pose proof (StoreBatch_fk (e_storage e) b' Hsto) as Hfk3.
  erewrite bind_eq by (rewrite on_storage_run, Hrun3; reflexivity). rewrite Hrun3 in Hside, Hfk3.
  eexists. split; [reflexivity|]. rewrite Hdb in *. rewrite Hhash in Hba3. cbn [e_storage set_storage fst] in *.
  rewrite (proj1 (proj2 Hs2)) in Ht3. exists (s_db s3), (s_tries s3). split_and!.
  - by eapply (replica_add d2 tr2 _ (e_storage e)).
  - eapply knows_add; [done..|]. by rewrite Ht3.
  - split; [done| |by rewrite Ht3|done]. eexists. split; [exact Hba3|]. by split_and!.
  - auto.
Qed.

(** ** The loop *)

(** The canonical batches form a chain on top of [p]. *)
Fixpoint chained (p : Hash) (l : list member) : Prop :=
  match l with
  | [] => True
  | (b, _, true) :: l => ParentHash (Batch.Header b) = p ∧ chained (Batch.hashOf b) l
  | (_, _, false) :: l => chained p l
  end.

(** The batches of the sequencer, as the other node has them. *)
Definition has_member d2 (tr2 : gmap Hash EState) (m : member) : Prop :=
  (∃ ab, batches d2 !! Batch.hashOf m.1.1 = Some ab ∧ same_unsigned (ab_batch ab) m.1.1 ∧
     ab_txs ab = Batch.Transactions m.1.1 ∧ (m.2 = true → ab_executed ab = true)) ∧
  (m.2 = true → tr2 !! Root (Batch.Header m.1.1) = tr1 !! Root (Batch.Header m.1.1)).

(** Members added later leave the others alone. *)
Record grown d2 (tr2 : gmap Hash EState) d2' (tr2' : gmap Hash EState) : Prop := {
  gr_batches : batches d2 ⊆ batches d2';
  gr_states : ∀ r, tr2 !! r = tr1 !! r → tr2' !! r = tr1 !! r
}.

Lemma added_grown d2 tr2 m d2' tr2' : added d2 tr2 m d2' tr2' → fresh d2 (Batch.SeqNo m.1.1) → db_ok d2 →
  Batch.hash_ok m.1.1 → grown d2 tr2 d2' tr2' ∧ has_member d2' tr2' m.
Proof.
  intros [_ (ab&Hba&Hu&Htx&Hex) Hsts Hst] Hf Hd Hok. split; [split; [|done]|split; [|done]].
  - rewrite Hba. apply insert_subseteq. destruct (batches d2 !! Batch.hashOf m.1.1) as [ab'|] eqn:Hab; [|done].
    destruct (Hf _ _ Hab). pose proof (batch_key d2 _ ab' Hd Hab) as Hk. rewrite Hok in Hk.
    apply (inj rlpHash_batch) in Hk. by apply (f_equal SequencerOrderNo) in Hk.
  - exists ab. by rewrite Hba, lookup_insert_eq.
Qed.

Lemma has_member_grown d2 tr2 d2' tr2' m : grown d2 tr2 d2' tr2' → has_member d2 tr2 m → has_member d2' tr2' m.
Proof.
  intros [Hb Hs] [(ab&Hab&Hrest) Hst]. split; [|auto]. exists ab. split; [|done]. by apply (lookup_weaken _ _ _ _ Hab Hb).
Qed.

Lemma replay_loop l : ∀ ibs n p d2 tr2 e,
  Forall member_ok l → chained p l → Forall2 restored l ibs → (∀ i m, l !! i = Some m → Batch.SeqNo m.1.1 = n + Z.of_nat i) →
  L2GenesisSeqNo < n → (∀ h ab, batches d2 !! h = Some ab → SequencerOrderNo (ab_header ab) < n) →
  replica d2 tr2 (e_storage e) → knows d2 tr2 p → exec_fk d2 →
  ∃ e', saveLoop fuel g p ibs e = (e', Ok tt) ∧
  ∃ d2' tr2', replica d2' tr2' (e_storage e') ∧ grown d2 tr2 d2' tr2' ∧ Forall (has_member d2' tr2') l ∧ exec_fk d2'.
Proof.
  induction l as [|[[b hd] canon] l IH]; intros ibs n p d2 tr2 e Hok Hch Hres Hn Hgen Hmax Hrep Hk Hfk.
  { inversion Hres; subst. exists e. split; [done|]. exists d2, tr2. split_and!; [done|by split|constructor|done]. }
  inversion Hres as [|? ib ? ibs' Hib Hibs]; subst. apply Forall_cons in Hok as [Hm Hok]. cbn [saveLoop].
  pose proof (Hn 0%nat _ eq_refl) as Hseq. cbn [fst] in Hseq. rewrite Z.add_0_r in Hseq.
  assert (fresh d2 (Batch.SeqNo b)) as Hf by (intros k ab Hab; pose proof (Hmax k ab Hab); lia).
  assert (Batch.SeqNo b ≠ L2GenesisSeqNo) as Hng by lia.
  assert (∃ q e1 d2' tr2', saveIncompleteBatch fuel g p ib e = (e1, Ok q) ∧ chained q l ∧ replica d2' tr2' (e_storage e1) ∧ knows d2' tr2' q ∧
    added d2 tr2 (b, hd, canon) d2' tr2' ∧ exec_fk d2') as (q&e1&d2a&tr2a&Hstep&Hch'&Hrep'&Hk'&Hadd&Hfk').
  { destruct canon; cbn [chained] in Hch.
    - destruct Hch as [<- Hch]. destruct (replay_canonical d2 tr2 b hd ib e) as (e1&?&d2'&tr2'&?&?&?&?); [done..|]. eauto 12.
    - destruct (replay_reorged d2 tr2 b hd ib e p) as (e1&?&d2'&tr2'&?&?&?&?); [done..|]. eauto 12. }
  destruct (added_grown _ _ _ _ _ Hadd Hf (re_db _ _ _ Hrep) (proj1 (proj1 Hm))) as [Hg Hhas].
  destruct (IH ibs' (n + 1) q d2a tr2a e1 Hok Hch' Hibs) as (e'&Hloop&d2'&tr2'&Hrep2&Hg2&Hall&Hfk2); [|lia| |done..|].
  { intros i m Hi. rewrite (Hn (S i) m Hi). lia. }
  { intros k ab Hab. destruct (ad_batches _ _ _ _ _ Hadd) as (ab'&Hba&Hu&_). rewrite Hba in Hab.
    apply lookup_insert_Some in Hab as [[_ <-]|[_ Hab]]; [|pose proof (Hmax k ab Hab); lia].
    pose proof (f_equal SequencerOrderNo Hu : SequencerOrderNo (ab_header ab') = Batch.SeqNo b). lia. }
  exists e'. split; [by erewrite bind_eq|]. exists d2', tr2'. split_and!; [done| | |done].
  - destruct Hg as [G1 G2], Hg2 as [G3 G4]. split; [by etrans|auto].
  - constructor; [|done]. by apply (has_member_grown d2a tr2a).
Qed.
End replay.

Section rollup.
Local Open Scope Z_scope.
Context {C : Type} `{CacheOk C, StateModel, StorageCodecsOk, HashingOk, MB : MessageBus}.
Context `{OW : !OwnerWallet, Keccak, EV : !EVM, EVOK : !EVMOk, CS : !Codec (list Z), RollupCodecs, !RollupCodecsOk}.
Context `{BS : BlobServices, !BlobServicesOk}.

(** The node that knows the history of the rollup has the parent of its first batch. *)
Lemma firstParent_stored fuel B d1 tr1 d2 tr2 m l : Forall (member_ok (C:=C) fuel d1 tr1 B) (m :: l) → knows d1 tr1 B d2 tr2 (firstParent m l) →
  is_Some (batches d2 !! firstParent m l).
Proof.
  intros Hok [Hk _]. apply (th_batch _ _ _ _ _ _ Hk); [apply lineage_refl|]. unfold firstParent.
  set (fc := firstCanonical _ _ _). assert (fc ∈ map (λ e, e.1.1) (m :: l)) as Hin.
  { pose proof (firstCanonical_in (m :: l) m.1.1) as Hin. apply elem_of_cons in Hin as [Hin|Hin]; [|done]. unfold fc. rewrite Hin. left. }
  apply list_elem_of_fmap in Hin as (m'&->&Hin). rewrite Forall_forall in Hok. by apply (Hok m' Hin).
Qed.

(** C2: a rollup carries the batches of the sequencer to another node. The node knows the L1
    chain of the rollup, the history of the first canonical batch with its state, and no
    batch from the first sequence number of the rollup on; each canonical batch computes to
    itself on its parent, which is so if the sequencer left no transaction out of it, with
    receipts that can be stored. Then the node processes the rollup without an error: every
    member is stored under the hash it has at the sequencer, with its transactions, each
    canonical one is executed, with the state the sequencer has under its root, and the
    batches stored before are kept. *)
Theorem ProcessExtRollup_faithful fuel g B d1 tr1 d2 tr2 (s1 s1' : Storage C) (e2 : Enclave C) m l header head ext :
  db_ok d1 → parents_ok d1 → holds d1 tr1 s1 → replica d1 B d2 tr2 (e_storage e2) → wf_view (blocks d2) → exec_fk d2 →
  Forall (sequencer_has d1) (m :: l) → Forall (validator_finds d2 head) (m :: l) →
  Forall (member_ok (C:=C) fuel d1 tr1 B) (m :: l) →
  blocks d2 !! CompressionL1Head header = Some head → h_number head < Z.of_nat fuel →
  (∀ i m', (m :: l) !! i = Some m' → member_at (Batch.SeqNo m.1.1 + Z.of_nat i) m') → canon_consecutive (m :: l) →
  chained (firstParent m l) (m :: l) → knows d1 tr1 B d2 tr2 (firstParent m l) → L2GenesisSeqNo < Batch.SeqNo m.1.1 →
  (∀ h ab, batches d2 !! h = Some ab → SequencerOrderNo (ab_header ab) < Batch.SeqNo m.1.1) →
  CreateExtRollup (mkRollup header (map (λ e, e.1.1) (m :: l))) s1 = (s1', Ok ext) →
  ∃ e2' hdr, ProcessExtRollup fuel g ext e2 = (e2', Ok hdr) ∧
  ∃ d2' tr2', replica d1 B d2' tr2' (e_storage e2') ∧ grown tr1 d2 tr2 d2' tr2' ∧ Forall (has_member tr1 d2' tr2') (m :: l).
Proof.
  intros Hd1 Hp1 Hs1 Hrep Hwf Hfk Hseq Hval Hok Hhead Hfuel Hat Hcan Hch Hk Hgen Hmax Hcreate.
  pose proof Hrep as [Hs2 Hd2 Hp2 Ha2 Hl2 Hsec2].
  destruct (rollup_restored d1 tr1 d2 tr2 fuel s1 s1' (e_storage e2) m l header head ext)
    as (txs&hdr'&s3&ibs&Htxs&Hhdr&Hinc&Hs3&Hres&Hfirst&Hpar); [done..|].
  destruct (firstParent_stored _ _ _ _ _ _ _ _ Hok Hk) as [pab Hpab].
  assert (∃ e5, (if bool_decide (Int.u64 (FirstBatchSequence hdr') ≠ L2GenesisSeqNo)
       then _ ← on_storage (FetchBatch (FirstCanonParentHash hdr')); mret tt else mret tt) (set_storage s3 e2) = (e5, Ok tt) ∧
    replica d1 B d2 tr2 (e_storage e5)) as (e5&Hfetch&Hrep5).
  { case_bool_decide; [|by eexists]. destruct (FetchBatch_spec s3 (firstParent m l) (holds_ok _ _ Hd2 _ Hs3)) as (_&_&Hr).
    rewrite (proj1 Hs3), Hpab in Hr. eexists. split.
    - erewrite bind_eq; [reflexivity|]. rewrite on_storage_run, Hpar. cbn [e_storage set_storage]. rewrite Hr. reflexivity.
    - cbn [e_storage set_storage]. split; try done.
      by destruct (reads_FetchBatch d2 tr2 Hd2 (firstParent m l) s3 s3 Hs3 Hs3) as (?&_). }
  destruct (replay_loop fuel g d1 tr1 Hd1 Hp1 B (m :: l) ibs (Batch.SeqNo m.1.1) (firstParent m l) d2 tr2 e5)
    as (e'&Hloop&d2'&tr2'&?&?&?&_); [done..| |done|done|done|done|done|].
  { intros i m' Hi. by destruct (Hat i m' Hi) as (?&_). }
  exists e', hdr'. split; [|by exists d2', tr2'].
  unfold ProcessExtRollup. erewrite bind_eq by (unfold lift; rewrite Htxs; reflexivity).
  erewrite bind_eq by (unfold lift; rewrite Hhdr; reflexivity). erewrite bind_eq by (rewrite on_storage_run, Hinc; reflexivity).
  cbn [fst]. unfold executeAndSaveIncompleteBatches. rewrite Hpar in Hfetch |- *.
  erewrite bind_eq; [reflexivity|]. rewrite (bind_eq _ _ _ _ _ Hfetch). exact Hloop.
Qed.
End rollup.
