(* ===== verification/ViewingKeys.v ===== *)
(** * Viewing keys

    [go/common/viewingkey/viewing_key.go] and
    [go/enclave/vkhandler/vk_handler.go]: an account signs the public key its
    answers are to be encrypted with, and the enclave checks the signature
    before it uses the key.  ECDSA recovery and ECIES are parameters. *)

From S2P Require Import Prelude Types Codec Bytes EnclaveDB Storage Executor.
Local Open Scope Z_scope.

(** ** Hexadecimal text *)

Definition hexDigit (n : Z) : string :=
  match String.get (Z.to_nat n) "0123456789abcdef" with
  | Some c => String.String c String.EmptyString
  | None => String.EmptyString
  end.

(** [hex.EncodeToString] *)
Fixpoint hex_EncodeToString (b : bytes) : string :=
  match b with
  | [] => ""
  | x :: b => hexDigit (Z.shiftr (Z.land x 255) 4) +:+ hexDigit (Z.land x 15) +:+ hex_EncodeToString b
  end.

(** The value of a hexadecimal digit, in either case. *)
Definition hexValue (c : Ascii.ascii) : option Z :=
  let n := Z.of_nat (Ascii.nat_of_ascii c) in
  if (48 <=? n) && (n <=? 57) then Some (n - 48)
  else if (97 <=? n) && (n <=? 102) then Some (n - 87)
  else if (65 <=? n) && (n <=? 70) then Some (n - 55)
  else None.

(** [hex.DecodeString]: pairs of digits. *)
Fixpoint hex_DecodeString (s : string) : option bytes :=
  match s with
  | String.EmptyString => Some []
  | String.String _ String.EmptyString => None
  | String.String a (String.String b s) =>
      x ← hexValue a; y ← hexValue b; rest ← hex_DecodeString s; Some (16 * x + y :: rest)
  end.

(** ** Keys and messages *)

(** What the code uses of go-ethereum's crypto packages: [crypto.Sign] and
    [crypto.SigToPub] on [accounts.TextHash] of a message, the latter followed
    by [crypto.PubkeyToAddress]; ECIES under a public key, and with the private
    key of the enclave. *)
Class ViewingCrypto := {
  SignText : bytes → string → option bytes;
  RecoverAddress : string → bytes → option Address;
  AddressOfKey : bytes → Address;
  ecies_Encrypt : bytes → bytes → option bytes;
  ecies_Decrypt : bytes → option bytes
}.

(** A signature has 65 bytes, and its signer is recovered from it. *)
Class ViewingCryptoOk `{ViewingCrypto} : Prop := {
  sign_bytes : ∀ key msg sig, SignText key msg = Some sig →
    length sig = 65%nat ∧ Forall (λ x, 0 <= x < 256) sig;
  sign_recover : ∀ key msg sig, SignText key msg = Some sig → RecoverAddress msg sig = Some (AddressOfKey key)
}.

Definition SignedMsgPrefix : string := "vk".

Definition GenerateSignMessage (vkPubKey : bytes) : string := SignedMsgPrefix +:+ hex_EncodeToString vkPubKey.

(** [strings.ToLower(addr.Hex())] drops the checksum case of the digits. *)
Definition GenerateSignMessageOG `{Keccak} (vkPubKey : bytes) (addr : Address) : string :=
  "Register " +:+ hex_EncodeToString (Hash_Bytes (Keccak256Hash vkPubKey)) +:+ " for 0x" +:+
  hex_EncodeToString (Address_Bytes addr).

(** [viewingkey.ViewingKey], without the private key. *)
Record ViewingKey := mkViewingKey {
  vk_Account : Address;
  vk_PublicKey : bytes;
  vk_Signature : bytes
}.

(** [vkhandler.VKHandler] *)
Record VKHandler := mkVKHandler { publicViewingKey : bytes }.

(** ["0x"] *)
Definition placeholderResult : bytes := [48; 120].

Section keys.
Context `{ViewingCrypto, Keccak, StorageCodecs}.

Definition Sign (userPrivKey vkPubKey : bytes) : result bytes :=
  of_option (ErrMsg "unable to sign messages") (SignText userPrivKey (GenerateSignMessage vkPubKey)).

(** [signature[64] += v] on bytes. *)
Definition add_V (v : Z) (signature : bytes) : bytes := alter (λ x, (x + v) mod 256) 64%nat signature.

(** [append([]byte("0"), signature...)], and [sigStr[2:]] takes it off again. *)
Definition mmSignViewingKey (viewingPubKeyBytes signerKey : bytes) : result bytes :=
  signature ← Sign signerKey viewingPubKeyBytes;
  if bool_decide (length signature <= 64)%nat then Crash "index out of range"
  else
    let sigStr := hex_EncodeToString (48 :: add_V 27 signature) in
    outputSig ← of_option (ErrMsg "failed to decode signature string")
                  (hex_DecodeString (String.substring 2 (String.length sigStr - 2) sigStr));
    Ok (add_V (-27) outputSig).

(** [vk] is the key pair [crypto.GenerateKey] returned. *)
Definition GenerateViewingKeyForWallet (walletKey vk : bytes) : result ViewingKey :=
  let viewingPubKeyBytes := CompressPubkey vk in
  signature ← mmSignViewingKey viewingPubKeyBytes walletKey;
  Ok (mkViewingKey (AddressOfKey walletKey) viewingPubKeyBytes signature).

(** Both message formats must recover an account; one of them must be the
    requested one. *)
Definition New (requestedAddr : Address) (vkPubKeyBytes accountSignature : bytes) : result VKHandler :=
  recovered ← of_option (ErrMsg "viewing key but could not validate its signature")
                (RecoverAddress (GenerateSignMessageOG vkPubKeyBytes requestedAddr) accountSignature);
  recoveredLegacy ← of_option (ErrMsg "viewing key but could not validate its signature")
                      (RecoverAddress (GenerateSignMessage vkPubKeyBytes) accountSignature);
  if bool_decide (requestedAddr ≠ recovered) && bool_decide (requestedAddr ≠ recoveredLegacy)
  then Err (ErrMsg "invalid viewing key signature for requested address")
  else
    viewingKey ← of_option (ErrMsg "could not decompress viewing key bytes") (DecompressPubkey vkPubKeyBytes);
    Ok (mkVKHandler viewingKey).

Definition Encrypt (m : VKHandler) (b : bytes) : result bytes :=
  let b := if bool_decide (length b = 0%nat) then placeholderResult else b in
  of_option (ErrMsg "unable to encrypt with given public VK") (ecies_Encrypt (publicViewingKey m) b).

(** ** What a handler stands for *)

(** The account [addr] signed the viewing key [key]. *)
Definition authorised (addr : Address) (key : bytes) : Prop :=
  ∃ vkBytes sig, DecompressPubkey vkBytes = Some key ∧
    (RecoverAddress (GenerateSignMessageOG vkBytes addr) sig = Some addr ∨
     RecoverAddress (GenerateSignMessage vkBytes) sig = Some addr).

Lemma New_authorised addr vkBytes sig h : New addr vkBytes sig = Ok h → authorised addr (publicViewingKey h).
Proof.
  unfold New, of_option. result_unfold.
  destruct (RecoverAddress (GenerateSignMessageOG vkBytes addr) sig) as [r|] eqn:Hr; [|done].
  destruct (RecoverAddress (GenerateSignMessage vkBytes) sig) as [rl|] eqn:Hl; [|done].
  destruct (bool_decide (addr ≠ r) && bool_decide (addr ≠ rl)) eqn:Hb; [done|].
  destruct (DecompressPubkey vkBytes) as [k|] eqn:Hk; [|done]. intros [= <-]. exists vkBytes, sig. split; [done|].
  apply andb_false_iff in Hb as [Hb|Hb]; apply bool_decide_eq_false in Hb.
  - left. rewrite Hr. f_equal. by destruct (decide (addr = r)).
  - right. rewrite Hl. f_equal. by destruct (decide (addr = rl)).
Qed.
End keys.

(** ** Keys made for a wallet *)

Lemma hex_digit_value n : 0 <= n < 16 →
  ∃ c, hexDigit n = String.String c String.EmptyString ∧ hexValue c = Some n.
Proof.
  intros Hn. assert (n ∈ (Z.of_nat <$> seq 0 16)) as Hin.
  { apply list_elem_of_fmap. exists (Z.to_nat n). split; [lia|]. apply elem_of_seq. lia. }
  repeat (apply elem_of_cons in Hin as [->|Hin]; [by eexists|]). by apply not_elem_of_nil in Hin.
Qed.

Lemma hex_roundtrip b : Forall (λ x, 0 <= x < 256) b → hex_DecodeString (hex_EncodeToString b) = Some b.
Proof.
  induction 1 as [|x b Hx Hb IH]; [done|]. cbn [hex_EncodeToString].
  assert (Z.land x 255 = x) as Hl by (change 255 with (Z.ones 8); rewrite Z.land_ones by lia; apply Z.mod_small; lia).
  assert (Z.land x 15 = x mod 16) as Hm by (by change 15 with (Z.ones 4); rewrite Z.land_ones by lia).
  assert (Z.shiftr x 4 = x / 16) as Hs by (by rewrite Z.shiftr_div_pow2 by lia).
  rewrite Hl, Hm, Hs. destruct (hex_digit_value (x / 16)) as (c1&->&H1).
  { split; [apply Z.div_pos; lia|apply Z.div_lt_upper_bound; lia]. }
  destruct (hex_digit_value (x mod 16)) as (c2&->&H2); [apply Z.mod_pos_bound; lia|].
  simpl. rewrite H1, H2. simpl. change (String.append "" (hex_EncodeToString b)) with (hex_EncodeToString b).
  rewrite IH. simpl. f_equal. f_equal. pose proof (Z.div_mod x 16). lia.
Qed.

Lemma substring_all s : String.substring 0 (String.length s) s = s.
Proof. induction s as [|c s IH]; [done|]. simpl. by rewrite IH. Qed.

(** Cutting the text of the first byte off. *)
Lemma hex_tail b : let s := hex_EncodeToString (48 :: b) in
  String.substring 2 (String.length s - 2) s = hex_EncodeToString b.
Proof.
  intros s. set (t := hex_EncodeToString b). change s with ("3" +:+ ("0" +:+ t)).
  simpl. rewrite Nat.sub_0_r. apply substring_all.
Qed.

Section wallet.
Context `{ViewingCryptoOk, Keccak, StorageCodecsOk}.

Lemma add_V_bytes v sig : Forall (λ x, 0 <= x < 256) sig → Forall (λ x, 0 <= x < 256) (add_V v sig).
Proof.
  intros Hsig. unfold add_V. rewrite Forall_lookup in Hsig |- *. intros i x Hi.
  destruct (decide (i = 64%nat)) as [->|Hne].
  - rewrite list_lookup_alter_eq in Hi. apply fmap_Some in Hi as (y&_&->). apply Z.mod_pos_bound. lia.
  - rewrite list_lookup_alter_ne in Hi by done. by eapply Hsig.
Qed.

Lemma add_V_cancel sig : Forall (λ x, 0 <= x < 256) sig → add_V (-27) (add_V 27 sig) = sig.
Proof.
  intros Hsig. apply list_eq. intros i. unfold add_V. destruct (decide (i = 64%nat)) as [->|Hne].
  - rewrite !list_lookup_alter_eq. destruct (sig !! 64%nat) as [x|] eqn:Hx; [|done]. simpl. f_equal.
    rewrite Forall_lookup in Hsig. specialize (Hsig _ _ Hx).
    rewrite Zplus_mod_idemp_l. replace (x + 27 + -27) with x by lia. apply Z.mod_small. lia.
  - by rewrite !list_lookup_alter_ne.
Qed.

(** The trip of the signature through the text form of the wallet is the
    identity. *)
Lemma mmSignViewingKey_sign key vk sig : Sign key vk = Ok sig → mmSignViewingKey vk key = Ok sig.
Proof.
  intros Hs. unfold mmSignViewingKey. rewrite Hs. result_unfold.
  unfold Sign, of_option in Hs. destruct (SignText key _) as [sg|] eqn:Hsig; [|done]. injection Hs as ->.
  destruct (sign_bytes _ _ _ Hsig) as [Hlen Hb]. rewrite bool_decide_false by lia.
  rewrite (hex_tail (add_V 27 sig)), hex_roundtrip by (by apply add_V_bytes).
  simpl. by rewrite add_V_cancel.
Qed.

(** A viewing key generated for a wallet is accepted by the enclave for the
    address of the wallet, and the handler encrypts under the generated key. *)
Theorem viewing_key_accepted walletKey vk k :
  GenerateViewingKeyForWallet walletKey vk = Ok k →
  is_Some (RecoverAddress (GenerateSignMessageOG (vk_PublicKey k) (vk_Account k)) (vk_Signature k)) →
  vk_Account k = AddressOfKey walletKey ∧
  New (vk_Account k) (vk_PublicKey k) (vk_Signature k) = Ok (mkVKHandler vk).
Proof.
  unfold GenerateViewingKeyForWallet. destruct (Sign walletKey (CompressPubkey vk)) as [sig|e|c] eqn:Hs.
  2,3: unfold mmSignViewingKey; rewrite Hs; by result_unfold.
  rewrite (mmSignViewingKey_sign _ _ _ Hs). result_unfold. intros [= <-] [og Hog]. split; [done|].
  cbn [vk_Account vk_PublicKey vk_Signature] in *. unfold New. rewrite Hog. unfold of_option. result_unfold.
  unfold Sign, of_option in Hs. destruct (SignText walletKey _) as [sg|] eqn:Hsig; simplify_eq/=.
  rewrite (sign_recover _ _ _ Hsig), (bool_decide_false (AddressOfKey walletKey ≠ AddressOfKey walletKey)) by congruence.
  by rewrite andb_false_r, Decompress_Compress.
Qed.
End wallet.
