(* ===== verification/Subscriptions.v ===== *)
(** * Subscriptions to logs

    [go/enclave/events/subscription_manager.go]: who is subscribed, which logs
    of a batch each subscription receives, and under which key they are
    encrypted. *)

From S2P Require Import Prelude Types Codec EnclaveDB Events Storage StorageInv StorageOps StorageSpec Reads Executor ViewingKeys.

(** [common.LogSubscription] *)
Record LogSubscription := mkLogSubscription {
  sub_Account : Address;
  sub_Signature : bytes;
  sub_PublicViewingKey : bytes;
  sub_Filter : LogFilter;
  sub_VkHandler : VKHandler
}.

Definition set_VkHandler (h : VKHandler) (s : LogSubscription) : LogSubscription :=
  mkLogSubscription (sub_Account s) (sub_Signature s) (sub_PublicViewingKey s) (sub_Filter s) h.

(** The formats of the requests and of the logs: RLP and JSON. *)
Class SubscriptionCodecs := {
  #[global] codec_subscription :: Codec LogSubscription;
  json_logs : list Log → option bytes
}.

(** [map[gethrpc.ID]*common.LogSubscription] *)
Abbreviation Subscriptions := (gmap string LogSubscription).

Section manager.
Context {C : Type} `{Cache C, StateModel, StorageCodecs, Hashing, Keccak, ViewingCrypto, SubscriptionCodecs}.
(** The order in which the map is iterated. *)
Context (iterateSubs : Subscriptions → list (string * LogSubscription)).
Implicit Types (s : Storage C) (subs : Subscriptions).

Definition AddSubscription (id : string) (encryptedSubscription : bytes) : M Subscriptions unit :=
  encodedSubscription ← lift (of_option (ErrMsg "could not decrypt params in eth_subscribe logs request")
                                (ecies_Decrypt encryptedSubscription));
  subscription ← lift (of_option (ErrMsg "could not decocde log subscription from RLP") (rlp_decode encodedSubscription));
  encryptor ← wrap "unable to create vk encryption for request"
                (lift (New (sub_Account subscription) (sub_PublicViewingKey subscription) (sub_Signature subscription)));
  modify (<[id := set_VkHandler encryptor subscription]>).

Definition RemoveSubscription (id : string) : M Subscriptions unit := modify (delete id).

(** The logs that are relevant to an account: a log without topics panics. *)
Fixpoint relevantLogs (account : Address) (stateDB : EState) (logs : list Log) : result (list Log) :=
  match logs with
  | [] => Ok []
  | logItem :: logs =>
      userAddrs ← getUserAddrsFromLogTopics logItem stateDB;
      rest ← relevantLogs account stateDB logs;
      Ok (if isRelevant account userAddrs then logItem :: rest else rest)
  end.

Definition FilterLogsForReceipt (receipt : Receipt) (account : Address) : M (Storage C) (list Log) :=
  stateDB ← wrap "could not create state DB to filter logs" (CreateStateDB (r_blockhash receipt));
  lift (relevantLogs account stateDB (r_logs receipt)).

(** The logs for one subscription; the addresses of a log are computed once and
    kept for the other subscriptions. *)
Definition logsForSubscription (stateDB : EState) (allLogs : list Log) (sub : LogSubscription) : result (list Log) :=
  let f := sub_Filter sub in
  relevantLogs (sub_Account sub) stateDB
    (filterLogs allLogs (f_from f) (f_to f) (f_addresses f) (f_topics f)).

Fixpoint logsPerSubscription (stateDB : EState) (allLogs : list Log) (l : list (string * LogSubscription))
    : result (gmap string (list Log)) :=
  match l with
  | [] => Ok ∅
  | (id, sub) :: l =>
      relevantLogsForSub ← logsForSubscription stateDB allLogs sub;
      rest ← logsPerSubscription stateDB allLogs l;
      Ok (if bool_decide (relevantLogsForSub = []) then rest else <[id := relevantLogsForSub]> rest)
  end.

(** A subscription that has gone is skipped. *)
Fixpoint encryptLoop subs (l : list (string * list Log)) : result (gmap string bytes) :=
  match l with
  | [] => Ok ∅
  | (subID, logs) :: l =>
      match subs !! subID with
      | None => encryptLoop subs l
      | Some subscription =>
          jsonLogs ← of_option (ErrMsg "could not marshal logs to JSON") (json_logs logs);
          encryptedLogs ← match Encrypt (sub_VkHandler subscription) jsonLogs with
                          | Err e => Err (ErrWrap "unable to encrypt logs" e)
                          | r => r
                          end;
          rest ← encryptLoop subs l;
          Ok (<[subID := encryptedLogs]> rest)
      end
  end.

Definition encryptLogs subs (logsByID : gmap string (list Log)) : result (gmap string bytes) :=
  encryptLoop subs (map_to_list logsByID).

(** [None] is the nil map of the early returns. *)
Definition GetSubscribedLogsForBatch subs (batch : Batch.t) (receipts : list Receipt)
    : M (Storage C) (option (gmap string bytes)) :=
  if bool_decide (subs = ∅) then mret None
  else
    let allLogs := flat_map r_logs receipts in
    if bool_decide (allLogs = []) then mret None
    else
      stateDB ← wrap "could not create state DB to filter logs" (CreateStateDB (Batch.hashOf batch));
      relevantLogsPerSubscription ← lift (logsPerSubscription stateDB allLogs (iterateSubs subs));
      encrypted ← lift (encryptLogs subs relevantLogsPerSubscription);
      mret (Some encrypted).
End manager.

(** ** What a subscription receives *)

Section delivery.
Context {C : Type} `{CacheOk C, StateModel, StorageCodecsOk, HashingOk, Keccak, ViewingCrypto, SubscriptionCodecs}.
Context (iterateSubs : Subscriptions → list (string * LogSubscription)).
Hypothesis Hiterate : ∀ m, iterateSubs m ≡ₚ map_to_list m.
Implicit Types (subs : Subscriptions).

(** Every subscription has the key its account signed. *)
Definition subs_ok subs : Prop :=
  ∀ id sub, subs !! id = Some sub → authorised (sub_Account sub) (publicViewingKey (sub_VkHandler sub)).

Lemma AddSubscription_ok id enc subs : subs_ok subs → subs_ok (AddSubscription id enc subs).1.
Proof.
  intros Hok. unfold AddSubscription. m_unfold.
  destruct (of_option _ (ecies_Decrypt enc)) as [b|e|c]; [|done..].
  destruct (of_option _ (rlp_decode b)) as [sub|e|c]; [|done..].
  destruct (New _ _ _) as [h|e|c] eqn:Hnew; [|done..]. cbn [fst]. intros id' sub'.
  rewrite lookup_insert_Some. intros [[_ <-]|[_ Hsub]]; [|by apply (Hok id')]. by eapply New_authorised.
Qed.

Lemma RemoveSubscription_ok id subs : subs_ok subs → subs_ok (RemoveSubscription id subs).1.
Proof. intros Hok id' sub'. cbn. rewrite lookup_delete_Some. intros [_ Hsub]. by apply (Hok id'). Qed.

(** The logs a subscription may see: it matches the filter, and names no user
    account or the one subscribed. *)
Definition may_receive (st : EState) (sub : LogSubscription) (l : Log) : Prop :=
  let f := sub_Filter sub in
  keepLog (f_from f) (f_to f) (f_addresses f) (f_topics f) l = true ∧
  ∃ addrs, getUserAddrsFromLogTopics l st = Ok addrs ∧ (addrs = [] ∨ sub_Account sub ∈ addrs).

Lemma isRelevant_spec a addrs : isRelevant a addrs = true ↔ addrs = [] ∨ a ∈ addrs.
Proof.
  unfold isRelevant. case_bool_decide as Hl; [|rewrite existsb_exists].
  - split; [|done]. intros _. left. by destruct addrs.
  - split.
    + intros (x&Hx&->%bool_decide_eq_true). right. by apply list_elem_of_In.
    + intros [->|Hin]; [done|]. exists a. split; [by apply list_elem_of_In|by apply bool_decide_eq_true].
Qed.

Lemma relevantLogs_Ok a st logs ls : relevantLogs a st logs = Ok ls →
  ∀ l, l ∈ ls ↔ l ∈ logs ∧ ∃ addrs, getUserAddrsFromLogTopics l st = Ok addrs ∧ (addrs = [] ∨ a ∈ addrs).
Proof.
  revert ls. induction logs as [|x logs IH]; intros ls; cbn [relevantLogs]; result_unfold.
  { intros [= <-] l. rewrite !elem_of_nil. tauto. }
  destruct (getUserAddrsFromLogTopics x st) as [addrs|e|c] eqn:Hx; [|done..].
  destruct (relevantLogs a st logs) as [rest|e|c]; [|done..]. intros [= <-] l. specialize (IH rest eq_refl l).
  destruct (isRelevant a addrs) eqn:Hr.
  - apply isRelevant_spec in Hr. rewrite !elem_of_cons, IH. split.
    + intros [->|[Hl Ha]]; [split; [by left|by exists addrs]|split; [by right|exact Ha]].
    + intros [[->|Hl] Ha]; [by left|by right].
  - rewrite elem_of_cons, IH. split; [intros [Hl Ha]; split; [by right|exact Ha]|].
    intros [[->|Hl] (addrs'&Ha&Hin)]; [|by split; [|exists addrs']]. assert (addrs' = addrs) as -> by congruence.
    apply isRelevant_spec in Hin. congruence.
Qed.

Lemma logsForSubscription_Ok st logs sub ls : logsForSubscription st logs sub = Ok ls →
  ∀ l, l ∈ ls ↔ l ∈ logs ∧ may_receive st sub l.
Proof.
  intros Hls l. unfold logsForSubscription in Hls. rewrite (relevantLogs_Ok _ _ _ _ Hls).
  unfold filterLogs, may_receive. rewrite list_elem_of_filter. tauto.
Qed.

Lemma logsPerSubscription_Ok st logs l m : NoDup l.*1 → logsPerSubscription st logs l = Ok m →
  ∀ id ls, m !! id = Some ls ↔ ls ≠ [] ∧ ∃ sub, (id, sub) ∈ l ∧ logsForSubscription st logs sub = Ok ls.
Proof.
  revert m. induction l as [|[id0 sub0] l IH]; intros m Hnd; cbn [logsPerSubscription]; result_unfold.
  { intros [= <-] id ls. rewrite lookup_empty. split; [done|]. by intros (_&sub&?%not_elem_of_nil&_). }
  apply NoDup_cons in Hnd as [Hnew Hnd]. destruct (logsForSubscription st logs sub0) as [ls0|e|c] eqn:Hls0; [|done..].
  destruct (logsPerSubscription st logs l) as [rest|e|c]; [|done..]. intros [= <-] id ls.
  specialize (IH rest Hnd eq_refl id ls).
  assert (∀ sub, (id, sub) ∈ l → id ≠ id0) as Hid.
  { intros sub Hin ->. apply Hnew, list_elem_of_fmap. by exists (id0, sub). }
  setoid_rewrite elem_of_cons. case_bool_decide as Hempty; rewrite ?lookup_insert_Some, IH; split.
  - intros (Hne&sub&Hin&Hls). split; [done|]. exists sub. split; [by right|done].
  - intros (Hne&sub&[[= -> ->]|Hin]&Hls); [congruence|]. split; [done|by exists sub].
  - intros [[-> ->]|(_&Hne&sub&Hin&Hls)]; (split; [done|]); [exists sub0; split; [by left|done]|exists sub; split; [by right|done]].
  - intros (Hne&sub&[[= -> ->]|Hin]&Hls); [left; split; congruence|]. right. split; [|split; [done|by exists sub]].
    intros <-. by apply (Hid sub).
Qed.

Lemma encryptLoop_Ok subs l m : NoDup l.*1 → encryptLoop subs l = Ok m →
  ∀ id enc, m !! id = Some enc ↔ ∃ logs sub b, (id, logs) ∈ l ∧ subs !! id = Some sub ∧
    json_logs logs = Some b ∧ Encrypt (sub_VkHandler sub) b = Ok enc.
Proof.
  revert m. induction l as [|[id0 ls0] l IH]; intros m Hnd; cbn [encryptLoop]; result_unfold.
  { intros [= <-] id enc. rewrite lookup_empty. split; [done|]. by intros (?&?&?&?%not_elem_of_nil&_). }
  apply NoDup_cons in Hnd as [Hnew Hnd].
  assert (∀ logs, (id0, logs) ∉ l) as Hid.
  { intros logs Hin. apply Hnew, list_elem_of_fmap. by exists (id0, logs). }
  destruct (subs !! id0) as [sub0|] eqn:Hs0.
  - unfold of_option. destruct (json_logs ls0) as [b0|] eqn:Hb0; [|done].
    destruct (Encrypt (sub_VkHandler sub0) b0) as [e0|e|c] eqn:He0; [|done..].
    destruct (encryptLoop subs l) as [rest|e|c]; [|done..]. intros [= <-] id enc.
    rewrite lookup_insert_Some, (IH rest Hnd eq_refl id enc). split.
    + intros [[<- <-]|(_&logs&sub&b&Hin&Hrest)]; [exists ls0, sub0, b0; split; [by left|done]|].
      exists logs, sub, b. split; [by right|done].
    + intros (logs&sub&b&[[= -> ->]|Hin]%elem_of_cons&Hs&Hb&He); [left; split; [done|congruence]|].
      right. split; [intros <-; by apply (Hid logs)|by exists logs, sub, b].
  - intros Hl id enc. rewrite (IH m Hnd Hl id enc). split.
    + intros (logs&sub&b&Hin&Hrest). exists logs, sub, b. split; [by right|done].
    + intros (logs&sub&b&[[= -> ->]|Hin]%elem_of_cons&Hs&Hrest); [congruence|]. by exists logs, sub, b.
Qed.

(** C33: The logs pushed for a batch: a subscription receives something exactly
    when a log of the receipts is for it, and what it receives are those logs,
    all of them and in a form only a key signed by its account opens. *)
Theorem GetSubscribedLogsForBatch_correct subs batch receipts (s s' : Storage C) m :
  subs_ok subs →
  GetSubscribedLogsForBatch iterateSubs subs batch receipts s = (s', Ok (Some m)) →
  ∃ st, (CreateStateDB (Batch.hashOf batch) s).2 = Ok st ∧
  ∀ id enc, m !! id = Some enc ↔ ∃ sub logs b, subs !! id = Some sub ∧
    authorised (sub_Account sub) (publicViewingKey (sub_VkHandler sub)) ∧
    Encrypt (sub_VkHandler sub) b = Ok enc ∧ json_logs logs = Some b ∧ logs ≠ [] ∧
    logsForSubscription st (flat_map r_logs receipts) sub = Ok logs ∧
    ∀ l, l ∈ logs ↔ (∃ r, r ∈ receipts ∧ l ∈ r_logs r) ∧ may_receive st sub l.
Proof.
  intros Hok. unfold GetSubscribedLogsForBatch. case_bool_decide; [done|]. case_bool_decide; [done|].
  intros (s1&st&Hst&Hrun)%bind_Ok. unfold wrap in Hst. destruct (CreateStateDB _ s) as [s2 [st'|e|c]]; simplify_eq.
  apply bind_Ok in Hrun as (s3&per&Hper&Hrun). apply bind_Ok in Hrun as (s4&enc&Henc&Hrun).
  unfold lift in Hper, Henc. injection Hper as <- Hper. injection Henc as <- Henc. injection Hrun as _ <-.
  exists st. split; [done|]. intros id e.
  assert (NoDup (iterateSubs subs).*1) as Hnd by (rewrite Hiterate; apply NoDup_fst_map_to_list).
  rewrite (encryptLoop_Ok _ _ _ (NoDup_fst_map_to_list per) Henc). split.
  - intros (logs&sub&b&Hin%elem_of_map_to_list&Hs&Hb&He).
    apply (logsPerSubscription_Ok _ _ _ _ Hnd Hper) in Hin as (Hne&sub'&Hin'&Hls).
    rewrite Hiterate, elem_of_map_to_list in Hin'. assert (sub' = sub) as -> by congruence.
    exists sub, logs, b. do 6 (split; [by eauto|]). intros l. rewrite (logsForSubscription_Ok _ _ _ _ Hls).
    by rewrite list_elem_of_In, in_flat_map; setoid_rewrite <-list_elem_of_In.
  - intros (sub&logs&b&Hs&_&He&Hb&Hne&Hls&_). exists logs, sub, b. split; [|done]. apply elem_of_map_to_list.
    apply (logsPerSubscription_Ok _ _ _ _ Hnd Hper). split; [done|]. exists sub. split; [|done].
    by rewrite Hiterate, elem_of_map_to_list.
Qed.
End delivery.
