(* ===== verification/Service.v ===== *)
(** * The enclave service

    [go/enclave/enclave.go]: the handlers that feed the enclave with L1 blocks
    and batches, make it produce batches and rollups, and start and stop it.
    They compose the components of the node. *)

From S2P Require Import Prelude Types Codec Bytes L1Chain EnclaveDB BatchDB Events Storage StorageInv StorageOps StorageSpec CrossChain BlockProcessor Reads Executor Mempool Registry RollupCompression Rollups Sequencer Validator ViewingKeys Subscriptions.

(** ** The interface ([common/enclave.go]) *)

Inductive StatusCode := Running | AwaitingSecret | Unavailable.

(** [common.Status]: the zero hash and a nil number where nothing is set. *)
Record Status := mkStatus {
  st_StatusCode : StatusCode;
  st_L1Head : Hash;
  st_L2Head : option Z
}.

(** [common.BlockSubmissionResponse]; the enclave leaves [RejectError] nil. *)
Record BlockSubmissionResponse := mkBlockSubmissionResponse {
  ProducedSecretResponses : list ProducedSecretResponse
}.

(** [common.StreamL2UpdatesResponse] *)
Inductive StreamL2UpdatesResponse :=
  | StreamBatch (batch : ExtBatch)
  | StreamLogs (logs : gmap string bytes).

(** ** Configuration and state *)

Inductive NodeType := SequencerNode | ValidatorNode.

(** What the handlers read of [config.EnclaveConfig]; the settings of the
    sequencer hold the keys and the genesis. *)
Record EnclaveConfig := mkEnclaveConfig {
  NodeRole : NodeType;
  cfg_sequencer : SequencerConfig;
  cfg_SequencerID : Address;
  MessageBusAddress : Address;
  MinGasPrice : Z;
  HostID : Address;
  HostAddress : string
}.

(** [enclaveImpl]: the components, the subscriptions and the stop control. *)
Record Service {C : Type} `{StateModel} := mkService {
  sv_enclave : Enclave C;
  sv_subscriptions : Subscriptions;
  sv_stopping : bool
}.
Arguments Service C {_}.

Section plumbing.
Context {C : Type} `{StateModel}.
Implicit Types (sv : Service C).

Definition on_enclave {A} (m : M (Enclave C) A) : M (Service C) A :=
  zoom sv_enclave (λ e sv, mkService C _ e (sv_subscriptions sv) (sv_stopping sv)) m.
Definition on_subscriptions {A} (m : M Subscriptions A) : M (Service C) A :=
  zoom sv_subscriptions (λ m sv, mkService C _ (sv_enclave sv) m (sv_stopping sv)) m.
Definition on_database {A} (m : M (Storage C) A) : M (Service C) A := on_enclave (on_storage m).

(** [responses.ToInternalError] around the error of a call. *)
Definition ToInternalError {St A} (m : M St A) : M St A := λ s,
  match m s with
  | (s', Err e) => (s', Err (ErrInternal e))
  | r => r
  end.

(** The check every handler starts with. *)
Definition unless_stopping {A} (msg : string) (m : M (Service C) A) : M (Service C) A := λ sv,
  if sv_stopping sv then (sv, Err (ErrInternal (ErrMsg msg))) else m sv.
End plumbing.

(** ** The handlers *)

Section service.
Local Open Scope Z_scope.
Context {C : Type} `{Cache C, StateModel, StorageCodecs, Hashing, MB : MessageBus}.
Context `{OW : !OwnerWallet, Keccak, EV : !EVM, CS : !Codec (list Z), RollupCodecs, BlobServices, Signatures}.
Context `{MgmtABI, AT : !Attestations, CE : !Codec ExtRollup, ViewingCrypto, SubscriptionCodecs}.
Context (fuel : nat) (cfg : EnclaveConfig) (AuthSender : L2Tx → option Address) (iterate : Mempool.t → list L2Tx).
Context (iterateSubs : Subscriptions → list (string * LogSubscription)).

(** *** The node type behind the interface [nodetype.NodeType] *)

Definition service_OnL1Block : M (Enclave C) unit :=
  match NodeRole cfg with
  | SequencerNode => sequencer_OnL1Block
  | ValidatorNode => validator_OnL1Block fuel (genesis (cfg_sequencer cfg))
  end.

Definition service_OnL1Fork (fork : ChainFork) : M (Enclave C) unit :=
  match NodeRole cfg with
  | SequencerNode => sequencer_OnL1Fork fuel (cfg_sequencer cfg) fork
  | ValidatorNode => validator_OnL1Fork fork
  end.

Definition service_SubmitTransaction (tx : L2Tx) : M (Enclave C) unit :=
  match NodeRole cfg with
  | SequencerNode => sequencer_SubmitTransaction AuthSender tx
  | ValidatorNode => validator_SubmitTransaction tx
  end.

(** The accessors panic on a node of the other type. *)
Definition as_Validator {A} (m : M (Enclave C) A) : M (Enclave C) A :=
  match NodeRole cfg with
  | ValidatorNode => m
  | SequencerNode => crash "enclave service is not a validator but validator was requested!"
  end.
Definition as_Sequencer {A} (m : M (Enclave C) A) : M (Enclave C) A :=
  match NodeRole cfg with
  | SequencerNode => m
  | ValidatorNode => crash "enclave service is not a sequencer but sequencer was requested!"
  end.

(** *** Batches out *)

Definition GetBatch (hash : Hash) : M (Service C) ExtBatch :=
  batch ← ToInternalError (wrap "failed getting batch" (on_database (FetchBatch hash)));
  ToInternalError (lift (ToExtBatch batch)).

Definition GetBatchBySeqNo (seqNo : Z) : M (Service C) ExtBatch :=
  batch ← ToInternalError (wrap "failed getting batch" (on_database (FetchBatchBySeqNo seqNo)));
  ToInternalError (lift (ToExtBatch batch)).

(** *** Status *)

Definition noHeadBatch : Z := 0.

(** A status and an error may both be returned. *)
Definition GetStatus : M (Service C) (Status * option GoError) := λ sv,
  if sv_stopping sv
  then (sv, Ok (mkStatus Unavailable EmptyHash None,
                Some (ErrInternal (ErrMsg "requested Status with the enclave stopping"))))
  else
    (secret ← try (on_database FetchSecret);
     match secret with
     | inr err =>
         if errors_Is err ErrNotFound then mret (mkStatus AwaitingSecret EmptyHash (Some noHeadBatch), None)
         else mret (mkStatus Unavailable EmptyHash None, Some (ErrInternal err))
     | inl _ =>
         l1Head ← try (on_database storage_FetchHeadBlock);
         currSeqNo ← try (on_database FetchCurrentSequencerNo);
         mret (mkStatus Running
                 (match l1Head with inl b => Block_Hash b | inr _ => EmptyHash end)
                 (Some (match currSeqNo with inl n => n | inr _ => noHeadBatch end)), None)
     end) sv.

(** *** Streaming: what the callback given to the registry sends *)

Definition sendBatch (batch : Batch.t) : result StreamL2UpdatesResponse :=
  match ToExtBatch batch with
  | Ok extBatch => Ok (StreamBatch extBatch)
  | Err _ => Crash "failed to convert batch"
  | Crash c => Crash c
  end.

(** An error is logged. *)
Definition streamEventsForNewHeadBatch (batch : Batch.t) (receipts : list Receipt)
    : M (Service C) (list StreamL2UpdatesResponse) :=
  subs ← gets sv_subscriptions;
  logs ← try (on_database (GetSubscribedLogsForBatch iterateSubs subs batch receipts));
  mret (match logs with
        | inl (Some logs) => [StreamLogs logs]
        | inl None | inr _ => []
        end).

(** Nil receipts are the empty list, for which there are no logs. *)
Definition streamExecutedBatch (batch : Batch.t) (receipts : list Receipt) : M (Service C) (list StreamL2UpdatesResponse) :=
  b ← lift (sendBatch batch);
  logs ← streamEventsForNewHeadBatch batch receipts;
  mret (b :: logs).

(** The channel is closed at once while stopping. *)
Definition StreamL2Updates : M (Service C) unit := λ sv,
  if sv_stopping sv then (sv, Ok tt) else on_enclave (on_registry SubscribeForExecutedBatches) sv.

(** *** L1 blocks *)

(** The head the enclave knows is reported with the error. *)
Definition rejectBlockErr (cause : GoError) : M (Service C) GoError :=
  l1Head ← try (on_database storage_FetchHeadBlock);
  mret (ErrBlockReject (match l1Head with inl b => Block_Hash b | inr _ => EmptyHash end) cause).

Definition rejecting {A} (m : M (Service C) A) : M (Service C) A :=
  r ← try m;
  match r with
  | inl a => mret a
  | inr err => e ← rejectBlockErr (ErrWrap "could not submit L1 block" err); fail e
  end.

(** The error of the rollup consumer is logged: the block is already stored. *)
Definition ingestL1Block (br : BlockAndReceipts.t) : M (Enclave C) BlockIngestionType :=
  ingestion ← on_storage (Process fuel (MessageBusAddress cfg) br);
  _ ← try (ProcessRollupsInBlock fuel (genesis (cfg_sequencer cfg)) (cfg_SequencerID cfg) br);
  _ ← match ingestion_fork ingestion with
      | Some fork => when (ChainFork_IsFork fork) (service_OnL1Fork fork)
      | None => mret tt
      end;
  mret ingestion.

Definition SubmitL1Block (block : L1Block) (receipts : list (option Receipt)) : M (Service C) BlockSubmissionResponse :=
  unless_stopping "requested SubmitL1Block with the enclave stopping" (
    br ← rejecting (lift (BlockAndReceipts.ParseBlockAndReceipts block receipts));
    _ ← rejecting (on_enclave (ingestL1Block br));
    _ ← rejecting (on_enclave service_OnL1Block);
    responses ← on_database (ProcessNetworkSecretMsgs br);
    mret (mkBlockSubmissionResponse responses)).

(** *** Batches in, batches and rollups made *)

Definition SubmitBatch (extBatch : ExtBatch) : M (Service C) unit :=
  unless_stopping "requested SubmitBatch with the enclave stopping" (
    batch ← ToInternalError (wrap "could not convert batch" (lift (ToBatch extBatch)));
    _ ← ToInternalError (wrap "invalid batch received. Could not verify signature"
          (on_enclave (as_Validator (VerifySequencerSignature batch))));
    _ ← ToInternalError (wrap "could not store batch" (on_database (StoreBatch batch)));
    ToInternalError (wrap "could not execute batches"
      (on_enclave (as_Validator (ExecuteStoredBatches fuel (genesis (cfg_sequencer cfg))))))).

Definition enclave_CreateBatch (now : Z) : M (Service C) unit :=
  unless_stopping "requested CreateBatch with the enclave stopping"
    (ToInternalError (on_enclave (as_Sequencer (CreateBatch fuel (cfg_sequencer cfg) AuthSender iterate now)))).

Definition enclave_CreateRollup (fromSeqNo : Z) : M (Service C) ExtRollup :=
  unless_stopping "requested GenerateRollup with the enclave stopping"
    (ToInternalError (on_enclave (as_Sequencer (sequencer_CreateRollup fuel (cfg_sequencer cfg) fromSeqNo)))).

(** *** Secrets *)

(** [entropy] is what [crypto.GenerateEntropy] returned. *)
Definition GenerateSecret (entropy : bytes) : M (Service C) bytes :=
  unless_stopping "requested GenerateSecret with the enclave stopping" (
    _ ← ToInternalError (wrap "could not store secret" (on_database (StoreSecret entropy)));
    ToInternalError (wrap "failed to encrypt secret"
      (lift (EncryptSecret (CompressPubkey (PublicKey (enclavePrivateKey (cfg_sequencer cfg)))) entropy)))).

(** [copy(temp[:], value)] into 32 bytes: longer values are cut, shorter ones
    padded. *)
Definition sharedSecretLen : nat := 32.
Definition DecryptSecret (decrypted : option bytes) : result bytes :=
  value ← of_option (ErrMsg "could not decrypt with private key") decrypted;
  Ok (take sharedSecretLen value ++ replicate (sharedSecretLen - length value) 0).

(** [decrypted] is the message opened with the private key of the enclave. *)
Definition InitEnclave (decrypted : option bytes) : M (Service C) unit :=
  unless_stopping "requested InitEnclave with the enclave stopping" (
    secret ← ToInternalError (lift (DecryptSecret decrypted));
    ToInternalError (wrap "could not store secret" (on_database (StoreSecret secret)))).

(** The enclave key: read, or generated once. *)
Definition loadEnclaveKey (generated : bytes) : M (Storage C) bytes :=
  r ← try GetEnclaveKey;
  match r with
  | inl key => mret key
  | inr err =>
      if negb (errors_Is err ErrNotFound) then crash "Failed to fetch enclave key"
      else
        stored ← try (StoreEnclaveKey (Some generated));
        match stored with
        | inl _ => mret generated
        | inr _ => crash "Failed to store enclave key."
        end
  end.

(** *** The rest of the interface *)

Definition enclave_GetCode (address : Address) (batchHash : Hash) : M (Service C) (option bytes) :=
  unless_stopping "requested GetCode with the enclave stopping" (
    stateDB ← ToInternalError (wrap "could not create stateDB" (on_database (CreateStateDB batchHash)));
    mret (GetCode stateDB address)).

Definition Subscribe (id : string) (encryptedSubscription : bytes) : M (Service C) unit :=
  unless_stopping "requested SubscribeForExecutedBatches with the enclave stopping"
    (on_subscriptions (AddSubscription id encryptedSubscription)).

Definition Unsubscribe (id : string) : M (Service C) unit :=
  unless_stopping "requested Unsubscribe with the enclave stopping" (on_subscriptions (RemoveSubscription id)).

(** Without a profiler; [closed] is the outcome of closing the database. *)
Definition Stop (closed : result unit) : M (Service C) unit :=
  _ ← modify (λ sv, mkService C _ (sv_enclave sv) (sv_subscriptions sv) true);
  _ ← on_enclave (on_registry UnsubscribeFromBatches);
  lift closed.

(** The storage error is logged. *)
Definition enclave_HealthCheck : M (Service C) bool :=
  unless_stopping "requested HealthCheck with the enclave stopping" (
    r ← try (on_database HealthCheck);
    mret (match r with inl storageHealthy => storageHealthy && true | inr _ => false end)).

Definition GetTotalContractCount : M (Service C) Z :=
  unless_stopping "requested GetTotalContractCount with the enclave stopping" (on_database GetContractCount).

Definition enclave_GetPublicTransactionData (pagination : QueryPagination) : M (Service C) (list PublicTransaction * Z) :=
  unless_stopping "requested GetPublicTransactionData with the enclave stopping" (
    paginatedData ← ToInternalError (wrap "unable to fetch data" (on_database (query (GetPublicTransactionData pagination))));
    totalData ← ToInternalError (wrap "unable to fetch data" (on_database (query GetPublicTransactionCount)));
    mret (paginatedData, totalData)).

(** *** Restart: the state databases that were lost are computed again *)

Definition stateDBAvailableForBatch (hash : Hash) : M (Storage C) bool :=
  r ← try (CreateStateDB hash);
  mret (match r with inl _ => true | inr _ => false end).

(** The batches without a state, from [batch] backwards; newest last. *)
Fixpoint collectBatches (n : nat) (batch : Batch.t) (batchesToReplay : list Batch.t) : M (Storage C) (list Batch.t) :=
  match n with
  | O => crash "out of fuel"
  | S n =>
      available ← stateDBAvailableForBatch (Batch.hashOf batch);
      if (available : bool) then mret batchesToReplay
      else
        let batchesToReplay := batch :: batchesToReplay in
        if bool_decide (Int.u64 (Batch.NumberOf batch) = 0) then mret batchesToReplay
        else
          parent ← wrap "unable to fetch previous batch while rolling back to stable state"
                     (FetchBatch (ParentHash (Batch.Header batch)));
          collectBatches n parent batchesToReplay
  end.

Definition replayBatch (batch : Batch.t) : M (Storage C) unit :=
  if bool_decide (Int.u64 (Batch.NumberOf batch) = 0)
  then _ ← CommitGenesisState (genesis (cfg_sequencer cfg)); mret tt
  else _ ← ExecuteBatch fuel batch; mret tt.

(** The log line reads the last batch of the list. *)
Definition replayBatchesToValidState (n : nat) : M (Storage C) unit :=
  head ← wrap "no head batch found in DB but expected to replay batches" FetchHeadBatch;
  batchesToReplay ← collectBatches n head [];
  if bool_decide (batchesToReplay = []) then crash "index out of range"
  else forM batchesToReplay replayBatch.

Definition restoreStateDBCache (n : nat) : M (Storage C) unit :=
  r ← try FetchHeadBatch;
  match r with
  | inr err =>
      if errors_Is err ErrNotFound then mret tt
      else fail (ErrWrap "unexpected error fetching head batch to resync" err)
  | inl batch =>
      available ← stateDBAvailableForBatch (Batch.hashOf batch);
      if (available : bool) then mret tt
      else wrap "unable to replay batches to restore valid state" (replayBatchesToValidState n)
  end.
End service.
