(* ===== verification/RPC.v ===== *)
(** * Requests of users

    The handlers of [go/enclave/enclave.go] that answer users: the parameters are
    decrypted, the viewing key is checked against the account the answer belongs
    to, and the answer is encrypted under that key.  [go/responses]: the answers. *)

From S2P Require Import Prelude Types Codec Bytes L1Chain EnclaveDB BatchDB Events Storage CrossChain BlockProcessor Executor Mempool Registry Params L2Chain RollupCompression Rollups Sequencer Validator ViewingKeys Subscriptions Service.
Local Open Scope Z_scope.

(** ** Answers ([responses.go]) *)

(** [responses.EnclaveResponse] *)
Record EnclaveResponse := mkEnclaveResponse {
  EncUserResponse : option bytes;
  resp_Err : option string
}.

(** What go-ethereum tells of a transaction. *)
Class TxFields := {
  tx_Type : L2Tx → Z;
  tx_Gas : L2Tx → Z;
  tx_GasPrice : L2Tx → option Z;
  tx_Data : L2Tx → bytes;
  tx_To : L2Tx → option Address;
  tx_Value : L2Tx → Z;
  tx_RawSignatureValues : L2Tx → Z * Z * Z;
  tx_AccessList : L2Tx → list (Address * list Hash);
  tx_ChainId : L2Tx → Z;
  tx_GasFeeCap : L2Tx → Z;
  tx_GasTipCap : L2Tx → Z;
  (** whether the error of the recovery is [types.ErrInvalidSig] *)
  invalidSig : L2Tx → bool
}.

(** [rpcTransaction] *)
Record rpcTransaction := mkRpcTransaction {
  rt_BlockHash : option Hash;
  rt_BlockNumber : option Z;
  rt_From : Address;
  rt_Gas : Z;
  rt_GasPrice : option Z;
  rt_GasFeeCap : option Z;
  rt_GasTipCap : option Z;
  rt_Hash : Hash;
  rt_Input : bytes;
  rt_Nonce : Z;
  rt_To : option Address;
  rt_TransactionIndex : option Z;
  rt_Value : Z;
  rt_Type : Z;
  rt_Accesses : option (list (Address * list Hash));
  rt_ChainID : option Z;
  rt_VRS : Z * Z * Z
}.

(** What an answer is about. *)
Inductive UserData :=
  | URawTx (hash : string)
  | UCall (encodedResult : string)
  | UTxCount (encoded : string)
  | UTransaction (tx : rpcTransaction)
  | UReceipt (r : Receipt)
  | UBalance (balance : Z)
  | UGas (gas : Z)
  | ULogs (logs : list Log)
  | UQuery (receipts : list Receipt) (total : Z).

(** The JSON of an answer or of an error text, and the texts. *)
Class ResponseCodecs := {
  json_response : UserData + string → option bytes;
  json_evm : string → option string → Z → option string;
  Hash_Hex : Hash → string;
  EncodeUint64 : Z → string;
  (** [fmt.Errorf] of a text without arguments *)
  Errorf : string → string
}.

Section responses.
Context `{ViewingCrypto, ResponseCodecs}.

Definition AsPlaintextResponse (encResp : bytes) : EnclaveResponse := mkEnclaveResponse (Some encResp) None.
Definition AsEmptyResponse : EnclaveResponse := mkEnclaveResponse None None.
Definition AsPlaintextError (err : GoError) : EnclaveResponse := mkEnclaveResponse None (Some (err_text err)).

(** The common end of the two: serialise and encrypt. *)
Definition encryptUserResponse (userResp : UserData + string) (encrypt : VKHandler) : EnclaveResponse :=
  match json_response userResp with
  | None => AsPlaintextError (ErrMsg "json")
  | Some encoded =>
      match Encrypt encrypt encoded with
      | Ok encrypted => AsPlaintextResponse encrypted
      | Err err => AsPlaintextError err
      | Crash c => AsPlaintextError (ErrMsg c)
      end
  end.

Definition AsEncryptedResponse (data : UserData) (encryptHandler : VKHandler) : EnclaveResponse :=
  encryptUserResponse (inl data) encryptHandler.
Definition AsEncryptedError (err : GoError) (encrypt : VKHandler) : EnclaveResponse :=
  encryptUserResponse (inr (err_text err)) encrypt.
End responses.

(** ** Transactions for users ([rpc_transaction.go]) *)

Definition AccessListTxType : Z := 1.
Definition DynamicFeeTxType : Z := 2.

(** The base fee is never nil; the error of the signer leaves the zero address. *)
Definition newRPCTransaction `{TF : TxFields, CL : Calls} (tx : L2Tx) (blockHash : Hash) (blockNumber index baseFee : Z)
    : rpcTransaction :=
  let mined := negb (blockHash =? EmptyHash) in
  let accesses := (tx_Type tx =? AccessListTxType) || (tx_Type tx =? DynamicFeeTxType) in
  let dynamic := tx_Type tx =? DynamicFeeTxType in
  {|
    rt_BlockHash := if mined then Some blockHash else None;
    rt_BlockNumber := if mined then Some blockNumber else None;
    rt_From := default 0 (LondonSender tx);
    rt_Gas := tx_Gas tx;
    rt_GasPrice :=
      if dynamic
      then Some (if mined then Z.min (tx_GasTipCap tx + baseFee) (tx_GasFeeCap tx) else tx_GasFeeCap tx)
      else tx_GasPrice tx;
    rt_GasFeeCap := if dynamic then Some (tx_GasFeeCap tx) else None;
    rt_GasTipCap := if dynamic then Some (tx_GasTipCap tx) else None;
    rt_Hash := tx_hash tx;
    rt_Input := tx_Data tx;
    rt_Nonce := tx_nonce tx;
    rt_To := tx_To tx;
    rt_TransactionIndex := if mined then Some index else None;
    rt_Value := tx_Value tx;
    rt_Type := tx_Type tx;
    rt_Accesses := if accesses then Some (tx_AccessList tx) else None;
    rt_ChainID := if accesses then Some (tx_ChainId tx) else None;
    rt_VRS := tx_RawSignatureValues tx
  |}.

(** ** The handlers *)

(** [errors.As(err, *errutil.EVMSerialisableError)] *)
Fixpoint as_EVM (err : GoError) : option (string * option string * Z) :=
  match err with
  | ErrEVM msg reason code => Some (msg, reason, code)
  | ErrWrap _ cause | ErrInternal cause | ErrBlockReject _ cause => as_EVM cause
  | _ => None
  end.

Section handlers.
Context {C : Type} `{Cache C, StateModel, StorageCodecs, Hashing, MB : MessageBus}.
Context `{OW : !OwnerWallet, Keccak, EV : !EVM, CS : !Codec (list Z), RollupCodecs, BlobServices, Signatures}.
Context `{MgmtABI, AT : !Attestations, CE : !Codec ExtRollup, VC : ViewingCrypto, SubscriptionCodecs}.
Context `{GE : GethEncoding, CL : !Calls, TF : TxFields, RC : ResponseCodecs}.
Context (cfg : EnclaveConfig) (AuthSender : L2Tx → option Address).
Implicit Types (sv : Service C).

(** *** Errors as answers *)

(** A call whose error is answered in the clear. *)
Definition or_plain {St A} (msg : string) (m : M St A) (k : A → M St EnclaveResponse) : M St EnclaveResponse :=
  r ← try m;
  match r with
  | inl a => k a
  | inr err => mret (AsPlaintextError (ErrWrap msg err))
  end.

(** A call whose error is answered under the key of the user. *)
Definition or_encrypted {St A} (vkHandler : VKHandler) (msg : string) (m : M St A) (k : A → M St EnclaveResponse)
    : M St EnclaveResponse :=
  r ← try m;
  match r with
  | inl a => k a
  | inr err => mret (AsEncryptedError (ErrWrap msg err) vkHandler)
  end.

Definition wrongParameters : EnclaveResponse := AsPlaintextError (ErrMsg "unexpected number of parameters").

Definition decodeRequest (tx : bytes) : result (list JSON) :=
  paramBytes ← of_option (ErrMsg "could not decrypt params") (ecies_Decrypt tx);
  wrapR "unable to decode params" (DecodeParamBytes paramBytes).

Definition createVKHandler (address : Address) (vkIntf : JSON) : result VKHandler :=
  '(vkPubKeyHexBytes, accountSignatureHexBytes) ← wrapR "unable to decode viewing key" (ExtractViewingKey vkIntf);
  wrapR "unable to create vk encryption for request" (New address vkPubKeyHexBytes accountSignatureHexBytes).

(** The handlers go on with the viewing key of an account. *)
Definition with_key {St} (address : Address) (vkIntf : JSON) (k : VKHandler → M St EnclaveResponse) : M St EnclaveResponse :=
  or_plain "unable to create VK encryptor" (lift (createVKHandler address vkIntf)) k.

Definition serializeEVMError (err : GoError) : option string :=
  match as_EVM err with
  | Some (msg, reason, code) => json_evm msg reason code
  | None => json_evm (err_text err) None 0
  end.

(** The end of a failed call: an internal error is for the host, the others are
    for the user. *)
Definition callError {St} (err : GoError) (vkHandler : VKHandler) : M St EnclaveResponse :=
  if errors_Is err ErrInternalValue then fail (ErrInternal err)
  else mret (AsEncryptedError (match serializeEVMError err with Some evmErr => ErrMsg (Errorf evmErr) | None => ErrMsg "json" end)
               vkHandler).

(** *** Transactions *)

Definition checkGas (tx : L2Tx) : result unit :=
  match tx_GasPrice tx with
  | None => Err (ErrMsg "rejected transaction. No gas price was set")
  | Some txGasPrice =>
      if txGasPrice <? MinGasPrice cfg then Err (ErrMsg "rejected transaction. Gas price too low") else Ok tt
  end.

Definition SubmitTx (tx : bytes) : M (Service C) EnclaveResponse :=
  unless_stopping "requested SubmitTx with the enclave stopping" (
    or_plain "unable to decode eth_call params" (lift (decodeRequest tx)) (λ paramList,
      match paramList with
      | [vk; JString txBinary] =>
          or_plain "could not decrypt transaction" (lift (ExtractTx txBinary)) (λ decryptedTx,
            match Sender decryptedTx with
            | None =>
                mret (AsPlaintextError (if invalidSig decryptedTx then ErrMsg "transaction contains invalid signature"
                                        else ErrMsg "could not recover from address"))
            | Some viewingKeyAddress =>
                with_key viewingKeyAddress vk (λ vkHandler,
                  if IsSyntheticTransaction decryptedTx
                  then mret (AsPlaintextError (ErrInternal (ErrMsg "synthetic transaction coming from external rpc")))
                  else
                    match checkGas decryptedTx with
                    | Err err => mret (AsEncryptedError err vkHandler)
                    | _ =>
                        r ← try (on_enclave (service_SubmitTransaction cfg AuthSender decryptedTx));
                        mret (match r with
                              | inr err => AsEncryptedError err vkHandler
                              | inl _ => AsEncryptedResponse (URawTx (Hash_Hex (tx_hash decryptedTx))) vkHandler
                              end)
                    end)
            end)
      | [_; _] => crash "interface conversion"
      | _ => mret wrongParameters
      end)).

Definition GetTransactionCount (encryptedParams : bytes) : M (Service C) EnclaveResponse :=
  unless_stopping "requested GetTransactionCount with the enclave stopping" (
    or_plain "unable to decode eth_transactionCount params" (lift (decodeRequest encryptedParams)) (λ paramList,
      match paramList with
      | vk :: JString addressStr :: _ =>
          let address := HexToAddress addressStr in
          with_key address vk (λ vkHandler,
            l2Head ← try (on_database FetchHeadBatch);
            nonce ← match l2Head with
                    | inl batch =>
                        s ← ToInternalError (on_database (CreateStateDB (Batch.hashOf batch)));
                        mret (GetNonce s address)
                    | inr _ => mret 0
                    end;
            mret (AsEncryptedResponse (UTxCount (EncodeUint64 nonce)) vkHandler))
      | _ :: _ :: _ => mret (AsPlaintextError (ErrMsg "unexpected address parameter"))
      | _ => mret wrongParameters
      end)).

(** A transaction, or the answer when there is none. *)
Definition with_transaction (txHash : Hash) (k : L2Tx * Hash * Z * Z → M (Service C) EnclaveResponse)
    : M (Service C) EnclaveResponse :=
  r ← try (on_database (GetTransaction txHash));
  match r with
  | inl tx => k tx
  | inr err => mret (if errors_Is err ErrNotFound then AsEmptyResponse else AsPlaintextError err)
  end.

Definition enclave_GetTransaction (encryptedParams : bytes) : M (Service C) EnclaveResponse :=
  unless_stopping "requested GetTransaction with the enclave stopping" (
    or_plain "unable to decode eth_getTransaction params" (lift (decodeRequest encryptedParams)) (λ paramList,
      match paramList with
      | [vk; JString txHashStr] =>
          with_transaction (HexToHash txHashStr) (λ '(tx, blockHash, blockNumber, index),
            match Sender tx with
            | None => mret (AsPlaintextError (ErrMsg "could not recover viewing key address"))
            | Some viewingKeyAddress =>
                with_key viewingKeyAddress vk (λ vkHandler,
                  mret (AsEncryptedResponse (UTransaction (newRPCTransaction tx blockHash blockNumber index 0)) vkHandler))
            end)
      | [_; _] => mret (AsPlaintextError (ErrMsg "unexpected tx hash parameter"))
      | _ => mret wrongParameters
      end)).

Definition enclave_GetTransactionReceipt (encryptedParams : bytes) : M (Service C) EnclaveResponse :=
  unless_stopping "requested GetTransactionReceipt with the enclave stopping" (
    or_plain "unable to decode eth_getTransaction params" (lift (decodeRequest encryptedParams)) (λ paramList,
      match paramList with
      | [vk; JString txHashStr] =>
          let txHash := HexToHash txHashStr in
          with_transaction txHash (λ '(tx, _, _, _),
            match Sender tx with
            | None => mret (AsPlaintextError (ErrMsg "could not recover viewing key address"))
            | Some sender =>
                with_key sender vk (λ vkHandler,
                  r ← try (on_database (GetTransactionReceipt txHash));
                  match r with
                  | inr err =>
                      mret (if errors_Is err ErrNotFound then AsEmptyResponse
                            else AsEncryptedError (ErrWrap "could not retrieve transaction receipt" err) vkHandler)
                  | inl txReceipt =>
                      logs ← ToInternalError (on_database (FilterLogsForReceipt txReceipt sender));
                      mret (AsEncryptedResponse (UReceipt (receipt_with logs (r_blockhash txReceipt) txReceipt)) vkHandler)
                  end)
            end)
      | [_; _] => mret (AsPlaintextError (ErrMsg "unable to parse the tx hash"))
      | _ => mret wrongParameters
      end)).

(** *** Balances and calls *)

Definition enclave_GetBalance (encryptedParams : bytes) : M (Service C) EnclaveResponse :=
  unless_stopping "requested GetBalance with the enclave stopping" (
    or_plain "unable to decode eth_getBalance params" (lift (decodeRequest encryptedParams)) (λ paramList,
      match paramList with
      | [vk; address; number] =>
          or_plain "unable to extract requested address" (lift (ExtractAddress address)) (λ requestedAddress,
          or_plain "unable to extract requested block number" (lift (ExtractBlockNumber number)) (λ blockNumber,
          or_plain "unable to get balance" (on_database (chain_GetBalance requestedAddress blockNumber))
            (λ '(encryptAddress, balance),
          with_key encryptAddress vk (λ vkHandler, mret (AsEncryptedResponse (UBalance balance) vkHandler)))))
      | _ => mret wrongParameters
      end)).

Definition ObsCall (encryptedParams : bytes) : M (Service C) EnclaveResponse :=
  unless_stopping "requested ObsCall with the enclave stopping" (
    or_plain "unable to decode eth_call params" (lift (decodeRequest encryptedParams)) (λ paramList,
      match paramList with
      | [vk; call; number] =>
          or_plain "unable to decode EthCall Params" (lift (ExtractEthCall call)) (λ apiArgs,
            match ta_From apiArgs with
            | None => mret (AsPlaintextError (ErrMsg "no from address provided"))
            | Some from =>
                with_key from vk (λ vkHandler,
                or_encrypted vkHandler "unable to extract requested block number" (lift (ExtractBlockNumber number)) (λ blkNumber,
                  r ← try (on_database (chain_ObsCall apiArgs blkNumber));
                  match r with
                  | inr err => callError err vkHandler
                  | inl execResult =>
                      mret (AsEncryptedResponse
                              (UCall (if bool_decide (er_ReturnData execResult = []) then ""
                                      else hexutil_Encode (er_ReturnData execResult))) vkHandler)
                  end))
            end)
      | _ => mret wrongParameters
      end)).

(** *** Gas estimates *)

(** [params.TxGas] *)
Definition TxGas : Z := 21000.

Definition set_Gas (gas : Z) (a : TransactionArgs) : TransactionArgs :=
  mkTransactionArgs (ta_From a) (ta_To a) (Some gas) (ta_GasPrice a) (ta_MaxFeePerGas a) (ta_MaxPriorityFeePerGas a)
    (ta_Value a) (ta_Nonce a) (ta_Data a).
Definition set_From (from : Address) (a : TransactionArgs) : TransactionArgs :=
  mkTransactionArgs (Some from) (ta_To a) (ta_Gas a) (ta_GasPrice a) (ta_MaxFeePerGas a) (ta_MaxPriorityFeePerGas a)
    (ta_Value a) (ta_Nonce a) (ta_Data a).

(** Whether the gas limit has to be raised, and the result. *)
Definition isGasEnough (args : TransactionArgs) (gas blkNumber : Z) : M (Storage C) (bool * option ExecutionResult) :=
  r ← try (ObsCallAtBlock (set_Gas gas args) blkNumber);
  match (match r with inl p => p | inr e => (None, Some e) end) with
  | (_, Some err) => if errors_Is err ErrIntrinsicGas then mret (true, None) else fail err
  | (Some result, None) => mret (Failed result, Some result)
  | (None, None) => crash "nil result"
  end.

(** [newRevertError] of the package [enclave]. *)
Definition newRevertError (r : ExecutionResult) : GoError := ErrRevert (revertText r) (hexutil_Encode (Revert r)).

(** The binary search. *)
Fixpoint estimateLoop (n : nat) (args : TransactionArgs) (blkNumber lo hi : Z) : M (Storage C) Z :=
  match n with
  | O => crash "out of fuel"
  | S n =>
      if Int.u64 (lo + 1) <? hi then
        let mid := Int.u64 (hi + lo) / 2 in
        '(failed, _) ← isGasEnough args mid blkNumber;
        if (failed : bool) then estimateLoop n args blkNumber mid hi else estimateLoop n args blkNumber lo mid
      else mret hi
  end.

Definition feeCapOf (args : TransactionArgs) : Z :=
  match ta_GasPrice args, ta_MaxFeePerGas args with
  | Some p, _ => p
  | None, Some f => f
  | None, None => 0
  end.

(** The highest limit the funds of the account allow. *)
Definition recapByBalance (args : TransactionArgs) (from blkNumber feeCap hi : Z) : M (Storage C) Z :=
  balance ← wrap "unable to fetch account balance" (GetBalanceAtBlock from blkNumber);
  available ← match ta_Value args with
              | Some value => if balance <=? value then fail (ErrMsg "insufficient funds for transfer") else mret (balance - value)
              | None => mret balance
              end;
  let allowance := available / feeCap in
  mret (if (0 <=? allowance) && (allowance <? 2 ^ 64) && (allowance <? hi) then allowance else hi).

(** The limit of the search. *)
Definition gasCeiling (args : TransactionArgs) (blkNumber gasCap : Z) : M (Storage C) Z :=
  let hi := match ta_Gas args with
            | Some gas => if TxGas <=? gas then gas else GlobalGasCap
            | None => GlobalGasCap
            end in
  if bothFees args
  then fail (ErrMsg "both gasPrice and (maxFeePerGas or maxPriorityFeePerGas) specified")
  else
    let feeCap := feeCapOf args in
    hi ← (if feeCap =? 0 then mret hi else recapByBalance args (args_from args) blkNumber feeCap hi);
    mret (if negb (gasCap =? 0) && (gasCap <? hi) then gasCap else hi).

(** The search below the limit; the last call tells why the limit is too low. *)
Definition estimateBelow (n : nat) (args : TransactionArgs) (blkNumber cap : Z) : M (Storage C) Z :=
  hi ← estimateLoop n args blkNumber (TxGas - 1) cap;
  if hi =? cap then
    '(failed, result) ← isGasEnough args hi blkNumber;
    if (failed : bool) then
      match result with
      | Some r =>
          match er_Err r with
          | Some err =>
              if bool_decide (err = ErrOutOfGas) then fail (ErrMsg "gas required exceeds allowance")
              else if (0 <? length (Revert r))%nat then fail (newRevertError r) else fail err
          | None => mret 0
          end
      | None => fail (ErrMsg "gas required exceeds allowance")
      end
    else mret hi
  else mret hi.

Definition DoEstimateGas (n : nat) (args : TransactionArgs) (blkNumber gasCap : Z) : M (Storage C) Z :=
  let args := set_From (args_from args) args in
  cap ← gasCeiling args blkNumber gasCap;
  estimateBelow n args blkNumber cap.

(** [n] bounds the steps of the search. *)
Definition EstimateGas (n : nat) (encryptedParams : bytes) : M (Service C) EnclaveResponse :=
  unless_stopping "requested EstimateGas with the enclave stopping" (
    or_plain "unable to decode eth_estimateGas params" (lift (decodeRequest encryptedParams)) (λ paramList,
      match paramList with
      | vk :: call :: _ =>
          or_plain "unable to decode EthCall Params" (lift (ExtractEthCall call)) (λ callMsg,
            match ta_From callMsg with
            | None => mret (AsPlaintextError (ErrMsg "no from address provided"))
            | Some from =>
                with_key from vk (λ vkHandler,
                or_encrypted vkHandler "unable to extract requested block number"
                  (lift (ExtractOptionalBlockNumber paramList 2)) (λ blockNumber,
                  r ← try (on_database (DoEstimateGas n callMsg blockNumber GlobalGasCap));
                  match r with
                  | inr err => callError (ErrWrap "unable to estimate transaction" err) vkHandler
                  | inl gasEstimate => mret (AsEncryptedResponse (UGas gasEstimate) vkHandler)
                  end))
            end)
      | _ => mret wrongParameters
      end)).

(** *** Logs *)

Definition extractGetLogsParams (filterParam addressParam : JSON) : result (FilterCriteria * Address) :=
  filter ← of_option (ErrMsg "could not unmarshal filter criteria from JSON") (json_filter filterParam);
  match addressParam with
  | JString forAddressHex => Ok (filter, HexToAddress forAddressHex)
  | _ => Err (ErrMsg "expected second argument in GetLogs request to be of type string")
  end.

(** The first block of the query, or the answer. *)
Definition logsFrom (filter : FilterCriteria) : M (Service C) (option Z + EnclaveResponse) :=
  r ← match fc_FromBlock filter with
      | Some n =>
          if Int.i64 n <? 0 then
            head ← try (on_database FetchHeadBatch);
            mret (match head with
                  | inl batch => inl (Some (Number (Batch.Header batch)))
                  | inr err => inr (AsPlaintextError (ErrWrap "could not retrieve head batch" err))
                  end)
          else mret (inl (Some n))
      | None => mret (inl None)
      end;
  match r, fc_BlockHash filter with
  | inl None, Some h =>
      header ← ToInternalError (on_database (FetchBatchHeader h));
      mret (inl (Some (Number header)))
  | _, _ => mret r
  end.

(** The batch hash of the filter is not passed on. *)
Definition enclave_GetLogs (encryptedParams : bytes) : M (Service C) EnclaveResponse :=
  unless_stopping "requested GetLogs with the enclave stopping" (
    or_plain "unable to decode eth_estimateGas params" (lift (decodeRequest encryptedParams)) (λ paramList,
      match paramList with
      | [vk; filterParam; addressParam] =>
          extracted ← try (lift (extractGetLogsParams filterParam addressParam));
          match extracted with
          | inr err => mret (AsPlaintextError err)
          | inl (filter, forAddress) =>
              with_key forAddress vk (λ vkHandler,
                if isSet (fc_BlockHash filter) && isSet (fc_FromBlock filter)
                then mret (AsEncryptedError (ErrMsg "invalid filter. Cannot have both blockhash and fromBlock") vkHandler)
                else
                  r ← logsFrom filter;
                  match r with
                  | inr answer => mret answer
                  | inl from =>
                      let to := match fc_ToBlock filter with Some n => if Int.i64 n <? 0 then None else Some n | None => None end in
                      if match from, to with Some f, Some t => t <? f | _, _ => false end
                      then mret (AsEncryptedError (ErrMsg "invalid filter. from > to") vkHandler)
                      else
                        logs ← try (on_database (query (FilterLogs (Some forAddress)
                                      (mkFilter None from to (fc_Addresses filter) (fc_Topics filter)))));
                        match logs with
                        | inr err =>
                            if errors_Is err ErrInternalValue then fail (ErrInternal err)
                            else mret (AsEncryptedError (ErrWrap "could not retrieve logs matching the filter" err) vkHandler)
                        | inl filteredLogs => mret (AsEncryptedResponse (ULogs filteredLogs) vkHandler)
                        end
                  end)
          end
      | _ => mret wrongParameters
      end)).

(** *** The receipts of an account *)

Definition GetCustomQuery (encryptedParams : bytes) : M (Service C) EnclaveResponse :=
  unless_stopping "requested GetReceiptsByAddress with the enclave stopping" (
    or_plain "unable to decode eth_getStorageAt params" (lift (decodeRequest encryptedParams)) (λ paramList,
      match paramList with
      | [vk; _; queryParam; _] =>
          or_plain "unable to extract query" (lift (ExtractPrivateCustomQuery queryParam)) (λ privateCustomQuery,
          let address := pq_Address privateCustomQuery in
          with_key address vk (λ vkHandler,
          or_plain "unable to get storage" (on_database (query (GetReceiptsPerAddress address (pq_Pagination privateCustomQuery))))
            (λ encryptReceipts,
          or_plain "unable to get storage" (on_database (query (GetReceiptsPerAddressCount address))) (λ receiptsCount,
          mret (AsEncryptedResponse (UQuery encryptReceipts receiptsCount) vkHandler)))))
      | _ => mret wrongParameters
      end)).

(** *** Attestation *)

(** [report] is what the attestation provider returned. *)
Definition Attestation (enclavePubKey : option bytes) (report : result AttestationReport) : M (Service C) AttestationReport :=
  unless_stopping "requested ObsCall with the enclave stopping" (
    match enclavePubKey with
    | None => fail (ErrInternal (ErrMsg "public key not initialized, we can't produce the attestation report"))
    | Some _ => ToInternalError (wrap "could not produce remote report" (lift report))
    end).
(** *** The requests of users *)

Inductive Request :=
  | RSubmitTx | RGetTransactionCount | RGetTransaction | RGetTransactionReceipt | RGetBalance
  | RObsCall | REstimateGas | RGetLogs | RGetCustomQuery.

Definition handle (n : nat) (req : Request) (params : bytes) : M (Service C) EnclaveResponse :=
  match req with
  | RSubmitTx => SubmitTx params
  | RGetTransactionCount => GetTransactionCount params
  | RGetTransaction => enclave_GetTransaction params
  | RGetTransactionReceipt => enclave_GetTransactionReceipt params
  | RGetBalance => enclave_GetBalance params
  | RObsCall => ObsCall params
  | REstimateGas => EstimateGas n params
  | RGetLogs => enclave_GetLogs params
  | RGetCustomQuery => GetCustomQuery params
  end.
End handlers.
