(* ===== verification/NodeInv.v ===== *)
(** * An invariant of the whole enclave

    Every handler of the service keeps the database well formed: whatever
    sequence of L1 blocks, batches, rollups and requests reaches the enclave, and
    whether the handlers succeed, fail or crash. *)

From S2P Require Import Prelude Types Codec Bytes L1Chain EnclaveDB BatchDB Events Storage StorageInv StorageOps StorageSpec CrossChain BlockProcessor Reads Executor ExecutorSpec Mempool Registry RollupCompression Rollups Sequencer Validator SequencerSpec ViewingKeys Subscriptions Service.
Local Open Scope Z_scope.

(** ** Computations that keep the database *)

Section keeps.
Context {C : Type} `{CacheOk C, StateModel, StorageCodecsOk, HashingOk, MB : MessageBus}.
Context `{OW : !OwnerWallet, Keccak, EV : !EVM, EVOK : !EVMOk, CS : !Codec (list Z), RollupCodecs, BlobServices, Signatures}.
Implicit Types (s : Storage C).

Definition kept s s' : Prop := sound s → sound s' ∧ s_db s' = s_db s.

#[local] Instance kept_preorder : PreOrder kept.
Proof.
  split; [by intros s Hs|]. intros s1 s2 s3 H12 H23 Hs. destruct (H12 Hs) as [Hs2 E2]. destruct (H23 Hs2) as [Hs3 E3].
  split; [done|congruence].
Qed.

Lemma keeps_same {A} (m : M (Storage C) A) :
  (∀ s, storage_ok s → storage_ok (m s).1 ∧ same_content s (m s).1) → keeps_db m.
Proof.
  intros Hm s [Hok Hp]. destruct (Hm s Hok) as [Hok' [Hd _]]. split; [|done]. split; [done|]. by rewrite Hd.
Qed.

Lemma keeps_FetchBlock h : keeps_db (FetchBlock h : M (Storage C) _).
Proof. apply keeps_same. intros s Hok. destruct (storage_FetchBlock_spec s h Hok) as (Hok'&Hs&_). by split. Qed.
Lemma keeps_FetchBatch h : keeps_db (FetchBatch h : M (Storage C) _).
Proof. apply keeps_same. intros s Hok. destruct (FetchBatch_spec s h Hok) as (Hok'&Hs&_). by split. Qed.

Lemma keeps_LCA fuel b1 b2 : keeps_db (LCA fuel b1 b2 : M (Storage C) _).
Proof. intros s Hs. apply (LCA_frame kept); [|done]. intros h s' Hs'. by apply keeps_FetchBlock. Qed.
Lemma keeps_IsAncestor fuel b1 b2 : keeps_db (IsAncestor fuel b1 b2 : M (Storage C) _).
Proof. intros s Hs. apply (IsAncestor_frame kept); [|done]. intros h s' Hs'. by apply keeps_FetchBlock. Qed.
Lemma keeps_getAncestorOfHeight fuel n b : keeps_db (getAncestorOfHeight fuel n b : M (Storage C) _).
Proof. intros s Hs. apply (getAncestorOfHeight_frame kept); [|done]. intros h s' Hs'. by apply keeps_FetchBlock. Qed.

Lemma keeps_gets {A} (f : Storage C → A) : keeps_db (gets f).
Proof. by intros s Hs. Qed.

Lemma keeps_CreateStateDB h : keeps_db (CreateStateDB h : M (Storage C) _).
Proof.
  apply keeps_bind; [apply keeps_FetchBatch|]. intros b. apply keeps_bind; [apply keeps_gets|]. intros s. apply keeps_lift.
Qed.
End keeps.

Create HintDb keeps.
#[export] Hint Resolve keeps_ret keeps_fail keeps_crash keeps_lift keeps_query keeps_bind keeps_try keeps_wrap keeps_gets
  keeps_FetchBlock keeps_FetchBatch keeps_LCA keeps_IsAncestor keeps_getAncestorOfHeight keeps_CreateStateDB
  keeps_commitState keeps_CreateGenesisState keeps_ComputeBatch keeps_ExecuteBatch keeps_executionPrerequisites : keeps.

(** ** What the writes leave alone *)

(** The statements that store an L1 block [h]. *)
Definition block_statement (h : Hash) (q : statement) : Prop :=
  match q with
  | blockInsert row => blk_hash row = h
  | updateCanonicalBlock _ _ | updateCanonicalBatches _ _ => True
  | _ => False
  end.

(** They add no other block and keep the content of the batches. *)
Record block_written (h : Hash) (d d' : DB) : Prop := {
  bw_blocks : ∀ k, is_Some (t_block d' !! k) → k = h ∨ is_Some (t_block d !! k);
  bw_body : t_body d' = t_body d;
  bw_batches : ∀ k r', t_batch d' !! k = Some r' →
    ∃ r, t_batch d !! k = Some r ∧ bat_header r' = bat_header r ∧ bat_body r' = bat_body r
}.

Lemma block_written_refl h d : block_written h d d.
Proof. split; eauto. Qed.

Lemma block_written_trans h d1 d2 d3 : block_written h d1 d2 → block_written h d2 d3 → block_written h d1 d3.
Proof.
  intros [A1 B1 C1] [A2 B2 C2]. split.
  - intros k Hk. destruct (A2 k Hk) as [->|Hk2]; [by left|by apply A1].
  - congruence.
  - intros k r3 Hr3. destruct (C2 k r3 Hr3) as (r2&Hr2&E1&E2). destruct (C1 k r2 Hr2) as (r1&Hr1&E3&E4).
    exists r1. split_and!; [done|congruence..].
Qed.

Lemma exec_block_statements h qs : ∀ d d',
  Forall (block_statement h) qs → exec_all qs d = Some d' → block_written h d d'.
Proof.
  induction qs as [|q qs IH]; intros d d' Hqs; cbn [exec_all]; [intros [= <-]; apply block_written_refl|].
  apply Forall_cons in Hqs as [Hq Hqs]. intros (d1&Hd1&Hd')%bind_Some.
  apply (block_written_trans h d d1); [|by apply IH]. clear IH Hd' Hqs. destruct q; try done; cbn [exec_statement] in Hd1.
  - case_match; [done|]. apply bind_Some in Hd1 as (m&Hm&[= <-]). unfold sql_insert in Hm. case_match; simplify_eq.
    split; [|done|eauto]. intros k. simpl. rewrite lookup_insert_is_Some. cbn in Hq. rewrite Hq. intros [->|[_ ?]]; auto.
  - injection Hd1 as <-. split; [|done|eauto]. intros k. simpl. rewrite lookup_sql_update, fmap_is_Some. by right.
  - injection Hd1 as <-. split; [by right|done|]. intros k r'. simpl. rewrite lookup_sql_update.
    intros (r&Hr&->)%fmap_Some. exists r. by destruct (bool_decide _).
Qed.

(** The tables blocks and batches are read from. *)
Definition same_tables (d d' : DB) : Prop :=
  t_block d' = t_block d ∧ t_batch d' = t_batch d ∧ t_body d' = t_body d.

Section content.
Context `{DBCodecs, Hashing}.

Lemma same_tables_content d d' : same_tables d d' → blocks d' = blocks d ∧ batches d' = batches d.
Proof.
  intros (E1&E2&E3). unfold blocks, batches. rewrite E1, E2. split; [done|].
  apply map_eq. intros k. rewrite !lookup_omap. unfold abs_batch. by rewrite E3.
Qed.

Lemma same_tables_ok d d' : same_tables d d' → db_ok d → db_ok d'.
Proof.
  intros (E1&E2&E3) [O1 O2 O3 O4 O5]. split; rewrite ?E1, ?E2; try done.
  - intros h r Hr. destruct (O2 h r Hr) as [ab Hrow]. exists ab. destruct Hrow. split; try done.
    unfold abs_batch in *. by rewrite E3.
  - intros h r Hr. rewrite (O4 h r Hr). unfold isCanonQuery. by rewrite E1.
Qed.

Lemma same_tables_chain d d' : same_tables d d' → chain d → chain d'.
Proof.
  intros Hs Hc. destruct (same_tables_content d d' Hs) as [Eb _]. destruct Hs as (E1&_).
  destruct Hc as [He|[head [A1 A2 A3 A4 A5]]]; [left; by rewrite Eb|]. right. exists head.
  split; rewrite ?Eb, ?E1; done.
Qed.

Lemma block_written_headers h d d' k ab' :
  block_written h d d' → batches d' !! k = Some ab' → ∃ ab, batches d !! k = Some ab ∧ ab_header ab = ab_header ab'.
Proof.
  intros [_ Eb Hr]. unfold batches. rewrite !lookup_omap. intros (r'&Hr'&Habs)%bind_Some.
  destruct (Hr k r' Hr') as (r&->&Eh&Ebody). simpl. unfold abs_batch in *. rewrite Eb, Eh, Ebody in Habs.
  apply bind_Some in Habs as (c&Hc&(hd&Hhd&(txs&Htxs&[= <-])%bind_Some)%bind_Some).
  rewrite Hc. simpl. rewrite Hhd. simpl. rewrite Htxs. simpl. by eexists.
Qed.
End content.

(** *** A batch that is written is one that can be stored *)

Section stored.
Context `{DBCodecs, Hashing}.
(** The nonce of a transaction is a [uint64]. *)
Hypothesis nonces : ∀ (tx : L2Tx) v, rlp_encode tx = Some v → 0 <= tx_nonce tx.

(** A batch whose cached hash is right and whose header commits to its
    transactions; its numbers are [int64] or [uint64]. *)
Record committed (b : Batch.t) : Prop := {
  cm_hash : Batch.hash_ok b;
  cm_txhash : TxHash (Batch.Header b) = DeriveSha_txs (Batch.Transactions b);
  cm_seq : - 2 ^ 63 <= Batch.SeqNo b < 2 ^ 64;
  cm_number : - 2 ^ 63 <= Batch.NumberOf b < 2 ^ 64
}.

Lemma sql_u64_range n : - 2 ^ 63 <= n < 2 ^ 64 → sql_uint64 (Int.u64 n) = true → 0 <= n < 2 ^ 63.
Proof.
  unfold sql_uint64, Int.u64, Int.two64. intros Hn Hs%Z.ltb_lt. destruct (decide (0 <= n)) as [Hp|Hp].
  - rewrite Z.mod_small in Hs by lia. lia.
  - rewrite <-(Z.mod_add _ 1) in Hs by lia. rewrite Z.mod_small in Hs; lia.
Qed.

Lemma txRows_Ok bodyHash (txs : list L2Tx) : ∀ k rows,
  mapR (λ p, txRow bodyHash p.1 p.2) (zip (seq k (length txs)) txs) = Ok rows →
  forallb (λ r, sql_uint64 (txr_nonce r)) rows = true →
  ∀ tx, tx ∈ txs → is_Some (rlp_encode tx) ∧ is_Some (Sender tx) ∧ 0 <= tx_nonce tx < 2 ^ 63.
Proof.
  induction txs as [|tx txs IH]; intros k rows; simpl; [by intros _ _ tx ?%not_elem_of_nil|]. result_unfold.
  unfold txRow at 1. cbn [fst snd]. destruct (rlp_encode tx) as [v|] eqn:Hv; [|done].
  destruct (Sender tx) as [from|] eqn:Hf; [|done]. destruct (mapR _ _) as [rest|e|c] eqn:Hrest; [|done..].
  intros [= <-]. simpl. intros [Hn Hall]%andb_true_iff tx' [->|Hin]%elem_of_cons; [|by eapply IH].
  split_and!; [done|done|by eapply nonces|]. by apply Z.ltb_lt in Hn.
Qed.

Lemma written_storable d b q d' :
  committed b → WriteBatchAndTransactions d b dbTransaction.new = (q, Ok tt) →
  dbTransaction.Write q d = (d', Ok tt) → storable b.
Proof.
  intros [Hh Ht Hs Hn]. unfold WriteBatchAndTransactions, EncodeToBytes, of_option. m_unfold.
  destruct (rlp_encode (Batch.Transactions b)) as [body|] eqn:Hbody; [|done].
  destruct (rlp_encode (Batch.Header b)) as [header|] eqn:Hheader; [|done]. simpl.
  destruct (0 <? length (Batch.Transactions b))%nat eqn:Hlen.
  - destruct (mapR _ _) as [rows|e|c] eqn:Hrows; [|done..]. simpl. intros [= <-]. rewrite Write_statements.
    cbn [exec_all exec_statement app mbind option_bind]. simpl. rewrite lookup_insert_eq. cbn [mbind option_bind].
    destruct (negb _) eqn:Hneg; [done|]. apply negb_false_iff, andb_true_iff in Hneg as [Hs' Hn']. simpl in Hs', Hn'.
    destruct (sql_row _ _); [done|]. destruct (sql_insert _ _ _); [|done]. cbn [mbind option_bind].
    destruct (forallb _ rows) eqn:Hall; [|done]. intros _.
    assert (forallb (λ r, sql_uint64 (txr_nonce r)) rows = true) as Hall'.
    { apply forallb_forall. intros r Hr. rewrite forallb_forall in Hall. by apply Hall, andb_true_iff in Hr as [? _]. }
    split; try done; [by eapply txRows_Ok|by apply sql_u64_range|by apply sql_u64_range].
  - intros [= <-]. rewrite Write_statements.
    cbn [exec_all exec_statement app mbind option_bind]. simpl. rewrite lookup_insert_eq. cbn [mbind option_bind].
    destruct (negb _) eqn:Hneg; [done|]. apply negb_false_iff, andb_true_iff in Hneg as [Hs' Hn']. simpl in Hs', Hn'.
    intros _. split; try done; [|by apply sql_u64_range|by apply sql_u64_range].
    destruct (Batch.Transactions b); [|done]. by intros tx ?%not_elem_of_nil.
Qed.
End stored.

Section store.
Context {C : Type} `{CacheOk C, StateModel, StorageCodecsOk, HashingOk}.
Hypothesis nonces : ∀ (tx : L2Tx) v, rlp_encode tx = Some v → 0 <= tx_nonce tx.
Implicit Types (s : Storage C).

Lemma WriteBatch_statements d b q :
  WriteBatchAndTransactions d b dbTransaction.new = (q, Ok tt) → ∃ qs, q = dbTransaction.mk [] qs 0.
Proof.
  unfold WriteBatchAndTransactions. m_unfold. destruct (EncodeToBytes (Batch.Transactions b)); [|done..].
  destruct (EncodeToBytes (Batch.Header b)); [|done..]. simpl. destruct (0 <? length _)%nat.
  - destruct (mapR _ _); [|done..]. intros [= <-]. by eexists.
  - intros [= <-]. by eexists.
Qed.

(** A batch that cannot be stored leaves the storage as it was. *)
Lemma StoreBatch_cases s b : committed b → storable b ∨ (StoreBatch b s).1 = s.
Proof.
  intros Hb. unfold StoreBatch, mbind at 1, M_bind, try, FetchBatchBySeqNo, query.
  destruct (ReadBatchBySeqNo _ _) as [b'|err|c]; [by right; case_bool_decide| |by right].
  unfold transact, mbind, M_bind, gets. cbn [id].
  destruct (WriteBatchAndTransactions (s_db s) b dbTransaction.new) as [q [[]|e|c]] eqn:Hq; [|by right..].
  unfold lift, wrap, on_db, zoom. destruct (dbTransaction.Write q (s_db s)) as [d' [[]|e|c]] eqn:Hw.
  - left. by eapply written_storable.
  - right. destruct (WriteBatch_statements _ _ _ Hq) as [qs ->]. rewrite Write_statements in Hw.
    destruct (exec_all qs (s_db s)); simplify_eq. by destruct s.
  - right. destruct (WriteBatch_statements _ _ _ Hq) as [qs ->]. rewrite Write_statements in Hw.
    destruct (exec_all qs (s_db s)); simplify_eq.
Qed.

Lemma StoreBatch_content s b :
  storage_ok s → storable b → blocks (s_db s) !! Batch.hashOf b = None →
  (StoreBatch b s).1 = s ∨
  (blocks (s_db (StoreBatch b s).1) = blocks (s_db s) ∧
   batches (s_db (StoreBatch b s).1) = <[Batch.hashOf b := newABatch (s_db s) b]> (batches (s_db s))).
Proof.
  intros Hok Hb Hnb. pose proof (so_db s Hok) as Hdb.
  destruct (fetchBatch_cases (s_db s) (λ r, bool_decide (bat_sequence r = Batch.SeqNo b)) Hdb)
    as [(h&r&ab&Hr&Hrow&Hseq&_)|[Hnone _]].
  - apply bool_decide_eq_true in Hseq. rewrite (tro_sequence _ _ _ _ Hrow) in Hseq. left.
    by rewrite (StoreBatch_taken s b h ab Hok Hb (proj2 (batches_lookup _ _ _ Hdb) (ex_intro _ r (conj Hr Hrow))) Hseq).
  - right. destruct (StoreBatch_new s b Hok Hb Hnb) as (s'&->&_&_&Hbl&_&Hba); [|done].
    intros h ab (r&Hr&Hrow)%batches_lookup; [|done]. specialize (Hnone h r Hr). apply bool_decide_eq_false in Hnone.
    by rewrite <-(tro_sequence _ _ _ _ Hrow).
Qed.
End store.

(** *** An L1 block *)

Section l1.
Context {C : Type} `{CacheOk C, StateModel, StorageCodecsOk, HashingOk, MB : MessageBus}.
Context (h : Hash).
Implicit Types (s : Storage C).

Definition wrote_block s s' : Prop := block_written h (s_db s) (s_db s').
#[local] Instance wrote_block_preorder : PreOrder wrote_block.
Proof. split; [intros s; apply block_written_refl|]. intros s1 s2 s3. apply block_written_trans. Qed.

Lemma wrote_same s s' : s_db s' = s_db s → wrote_block s s'.
Proof. unfold wrote_block. intros ->. apply block_written_refl. Qed.

Lemma wrote_FetchBlock k s : wrote_block s (FetchBlock k s).1.
Proof. apply wrote_same. by destruct (FetchBlock_same k s). Qed.

Lemma wrote_StoreBlock b fork s : Block_Hash b = h → wrote_block s (StoreBlock b fork s).1.
Proof.
  intros Hh. apply (bind_frame wrote_block).
  2:{ intros [] s'. apply wrote_same. unfold cacheBlock. by destruct (rlp_encode b). }
  unfold transact, mbind, M_bind, gets. cbn [id].
  destruct (rlp_encode (b_header b)) as [header|] eqn:Hhead.
  - rewrite (queueBlock_queue b fork header Hhead). unfold wrap, lift, on_db, zoom. rewrite Write_statements.
    destruct (exec_all _ (s_db s)) as [d'|] eqn:Hexec; [|by apply wrote_same]. cbn [fst]. unfold wrote_block. cbn [s_db].
    eapply exec_block_statements; [|exact Hexec]. rewrite !Forall_app.
    assert (∀ c l, Forall (block_statement h) (updateStatements c l)) as Hupd.
    { intros c l. unfold updateStatements. destruct (0 <? length l)%nat; repeat constructor. }
    split_and!; [|by apply Hupd|by repeat constructor].
    unfold forkStatements. destruct fork as [cf|]; [|constructor]. destruct (ChainFork_IsFork cf); [|constructor].
    rewrite Forall_app. by split.
  - destruct (queueBlock b fork dbTransaction.new) as [q [[]|e|c]] eqn:Hq; [|by apply wrote_same..].
    exfalso. revert Hq. unfold queueBlock, WriteBlock, EncodeToBytes. rewrite Hhead. m_unfold.
    repeat case_match; simplify_eq/=; done.
Qed.

Lemma wrote_Process fuel bus br s : Block_Hash (BlockAndReceipts.Block br) = h → wrote_block s (Process fuel bus br s).1.
Proof.
  intros Hh. apply (bind_frame wrote_block).
  - apply (bind_frame wrote_block); [by apply (try_frame wrote_block), wrote_FetchBlock|]. intros [b|err] s1; [done|].
    destruct (negb _); [done|]. apply (bind_frame wrote_block).
    + apply (bind_frame wrote_block); [by apply (try_frame wrote_block), wrote_same|]. intros [b|e'] s2; [|by destruct (errors_Is _ _)].
      case_bool_decide; [|done]. apply (bind_frame wrote_block); [|by intros [?|?] s3].
      apply (try_frame wrote_block), (LCA_frame wrote_block). intros k s3. apply wrote_FetchBlock.
    + intros ing s2. apply (bind_frame wrote_block); [by apply (wrap_frame wrote_block), wrote_StoreBlock|done].
  - intros ing s1. destruct (PreGenesis ing); [done|]. apply (bind_frame wrote_block); [|by intros [?|?] s2].
    apply (try_frame wrote_block).
    destruct (StoreCrossChainMessages_frame bus (BlockAndReceipts.Block br) (BlockAndReceipts.Receipts br) s1) as (f&Hd&_).
    unfold wrote_block. rewrite Hd. split; eauto.
Qed.
End l1.

(** ** Invariants with results *)

Section internal.
Context {St : Type}.

Lemma preserves_ToInternalError {A} I (m : M St A) : preserves I m → preserves I (ToInternalError m).
Proof. intros Hm s Hs. specialize (Hm s Hs). unfold ToInternalError. by destruct (m s) as [s1 [a|e|c]]. Qed.

Lemma yields_internal {A} I (m : M St A) P : yields I m P → yields I (ToInternalError m) P.
Proof.
  intros Hm s Hs. destruct (Hm s Hs) as [Hs1 HP]. unfold ToInternalError. by destruct (m s) as [s1 [a|e|c]].
Qed.
End internal.

(** ** The invariant *)

Section node.
Context {C : Type} `{CacheOk C, StateModel, StorageCodecsOk, HashingOk, MB : MessageBus}.
Context `{OW : !OwnerWallet, Keccak, EV : !EVM, EVOK : !EVMOk, CS : !Codec (list Z), RollupCodecs, BlobServices, Signatures}.
Context `{MgmtABI, AT : !Attestations, CE : !Codec ExtRollup, ViewingCrypto, SubscriptionCodecs}.
Implicit Types (s : Storage C) (e : Enclave C).

(** The hashes of L1 blocks; no batch has one of them, and neither has the
    parent of the genesis batch. *)
Context (l1_hash : Hash → Prop).
Hypothesis l1_batch : ∀ h : BatchHeader, ¬ l1_hash (BatchHeader_Hash h).
Hypothesis l1_empty : ¬ l1_hash EmptyHash.
Hypothesis nonces : ∀ (tx : L2Tx) v, rlp_encode tx = Some v → 0 <= tx_nonce tx.

Record node_inv s : Prop := {
  ni_ok : storage_ok s;
  ni_chain : chain (s_db s);
  ni_blocks : ∀ h, is_Some (blocks (s_db s) !! h) → l1_hash h;
  ni_parents : ∀ h ab, batches (s_db s) !! h = Some ab → ¬ l1_hash (ParentHash (ab_header ab))
}.

Lemma ni_no_block s h : node_inv s → ¬ l1_hash h → blocks (s_db s) !! h = None.
Proof.
  intros Hn Hh. destruct (blocks (s_db s) !! h) as [hd|] eqn:E; [|done]. destruct Hh. by apply (ni_blocks s Hn); eauto.
Qed.

Lemma ni_sound s : node_inv s → sound s.
Proof.
  intros Hn. split; [by apply ni_ok|]. intros h ab Hab. apply ni_no_block; [done|]. by apply (ni_parents s Hn h).
Qed.

Lemma keeps_node {A} (m : M (Storage C) A) : keeps_db m → preserves node_inv m.
Proof.
  intros Hm s Hn. destruct (Hm s (ni_sound s Hn)) as [[Hok _] Hd]. destruct Hn as [_ Hc Hb Hp].
  split; [done|by rewrite Hd..].
Qed.

Lemma StoreExecutedBatch_node b rs : preserves node_inv (StoreExecutedBatch b rs).
Proof.
  intros s [Hok Hc Hb Hp]. destruct (StoreExecutedBatch_spec s b rs Hok) as (Hok'&_&Hbl&Htb&Hr).
  destruct (StoreExecutedBatch b rs s) as [s' r]. cbn [fst snd] in *. split; [done| |by rewrite Hbl|].
  - destruct Hc as [He|[head [A1 A2 A3 A4 A5]]]; [left; by rewrite Hbl|]. right. exists head.
    split; rewrite ?Hbl, ?Htb; done.
  - destruct r as [[]|err|c]; [|by rewrite Hr..]. intros h ab. rewrite Hr.
    destruct (decide (h = Batch.hashOf b)) as [->|Hne]; [|rewrite lookup_alter_ne by done; apply Hp].
    rewrite lookup_alter_eq. intros (ab0&Hab0&->)%fmap_Some. by apply (Hp (Batch.hashOf b) ab0).
Qed.

(** Storing a batch, whether it is accepted or not. *)
Lemma StoreBatch_node b :
  committed b → ¬ l1_hash (ParentHash (Batch.Header b)) → preserves node_inv (StoreBatch b).
Proof.
  intros Hb Hpar s Hn. destruct (StoreBatch_cases nonces s b Hb) as [Hst| ->]; [|done].
  assert (blocks (s_db s) !! Batch.hashOf b = None) as Hnb.
  { apply ni_no_block; [done|]. rewrite (cm_hash b Hb). apply l1_batch. }
  destruct Hn as [Hok Hc Hbl Hp]. destruct (StoreBatch_inv s b (conj Hok Hc) Hst Hnb) as [Hok' Hc'].
  destruct (StoreBatch_content s b Hok Hst Hnb) as [-> |[Ebl Eba]]; [by split|].
  split; [done|done|by rewrite Ebl|]. intros h ab. rewrite Eba, lookup_insert_Some.
  intros [[<- <-]|[_ Hab]]; [done|]. by apply (Hp h).
Qed.

(** An L1 block of the chain the enclave follows. *)
Lemma Process_node fuel bus br s :
  node_inv s → valid_block s (BlockAndReceipts.Block br) → enough_fuel s (BlockAndReceipts.Block br) fuel →
  l1_hash (Block_Hash (BlockAndReceipts.Block br)) → node_inv (Process fuel bus br s).1.
Proof.
  intros [Hok Hc Hb Hp] Hval Hfuel Hl1.
  destruct (Process_inv s br bus fuel (conj Hok Hc) Hval Hfuel) as [Hok' Hc'].
  pose proof (wrote_Process (Block_Hash (BlockAndReceipts.Block br)) fuel bus br s eq_refl) as Hw.
  split; [done|done| |].
  - intros h [hd Hhd]. destruct (bw_blocks _ _ _ Hw h) as [-> |Hold]; [|done|].
    + apply blocks_lookup in Hhd as (r&Hr&_); [by eexists|by apply so_db].
    + apply Hb. destruct (blocks (s_db s) !! h) eqn:E; [done|]. apply blocks_None in E; [|by apply so_db].
      rewrite E in Hold. by destruct Hold.
  - intros h ab Hab. destruct (block_written_headers _ _ _ _ _ Hw Hab) as (ab0&Hab0&<-). by apply (Hp h).
Qed.

(** Writes to other tables. *)
Lemma tables_node {A} (m : M DB A) : (∀ d, same_tables d (m d).1) → preserves node_inv (on_db m).
Proof.
  intros Hm s [Hok Hc Hb Hp]. unfold on_db, zoom. specialize (Hm (s_db s)). destruct (m (s_db s)) as [d r]. cbn [fst] in *.
  destruct (same_tables_content _ _ Hm) as [Ebl Eba].
  split; cbn [s_db]; [|by eapply same_tables_chain|by rewrite Ebl|by rewrite Eba].
  apply (with_db_ok d s); [by eapply same_tables_ok; [|apply so_db]|by apply so_cache|by rewrite Ebl|rewrite Eba; eauto].
Qed.

Lemma StoreRollup_node r hd : preserves node_inv (StoreRollup r hd).
Proof.
  unfold StoreRollup, transact. apply preserves_bind; [apply preserves_gets|]. intros s0.
  destruct (WriteRollup _ hd dbTransaction.new) as [q res] eqn:Hq.
  apply preserves_bind; [apply preserves_wrap, preserves_lift|]. intros []. apply preserves_wrap, tables_node. intros d.
  unfold WriteRollup in Hq. m_unfold. destruct (EncodeToBytes _); simplify_eq/=; [|done..].
  unfold dbTransaction.ExecuteSQL, modify in Hq. simplify_eq/=. rewrite Write_statements. cbn [exec_all exec_statement].
  by destruct (sql_uint64 _ && _).
Qed.

Lemma StoreAttestedKey_node a k : preserves node_inv (StoreAttestedKey a k).
Proof. apply tables_node. by intros d. Qed.

Lemma StoreSecret_node secret : preserves node_inv (StoreSecret secret).
Proof.
  unfold StoreSecret. apply preserves_bind; [apply preserves_wrap, preserves_lift|]. intros enc.
  apply preserves_wrap, tables_node. intros d. unfold WriteConfig, db_Exec. cbn [exec_statement]. unfold sql_insert.
  by destruct (t_config d !! masterSeedCfg).
Qed.

(** *** Batches that are computed *)

Lemma ComputeBatch_yields fuel ctx :
  yields node_inv (ComputeBatch fuel ctx) (λ cb, ∃ parent, computed ctx parent cb ∧ 0 <= Number parent < 2 ^ 63).
Proof.
  intros s Hn. split; [by apply (keeps_node _ (keeps_ComputeBatch fuel ctx))|]. intros cb Hcb.
  destruct (ni_sound s Hn) as [[Hd Hcache] Hp]. destruct (ComputeBatch fuel ctx s) as [s' r] eqn:Hrun. cbn [snd] in Hcb. subst r.
  destruct (ComputeBatch_Ok (s_db s) (s_tries s) fuel ctx s s' cb Hd Hp) as (_&ab&Hab&Hc); [done|done|].
  exists (ab_header ab). split; [done|]. apply batches_lookup in Hab as (r&_&Hrow); [|done]. apply (tro_range _ _ _ _ Hrow).
Qed.

Lemma computed_committed ctx parent cb :
  computed ctx parent cb → 0 <= Number parent < 2 ^ 63 → - 2 ^ 63 <= SequencerNo ctx < 2 ^ 64 →
  committed (cb_Batch cb) ∧ ¬ l1_hash (ParentHash (Batch.Header (cb_Batch cb))).
Proof.
  intros Hc Hn Hs. split; [|rewrite (co_parent _ _ _ Hc); apply l1_batch].
  split; [apply (co_hash _ _ _ Hc)|apply (co_txhash _ _ _ Hc)| |];
    unfold Batch.SeqNo, Batch.NumberOf; rewrite ?(co_seq _ _ _ Hc), ?(co_number _ _ _ Hc); lia.
Qed.

Lemma CreateGenesisState_yields g h t :
  yields node_inv (CreateGenesisState g h t) (λ p, committed p.1 ∧ ¬ l1_hash (ParentHash (Batch.Header p.1))).
Proof.
  intros s Hn. split; [by apply (keeps_node _ (keeps_CreateGenesisState g h t))|]. intros [b tx]. cbn [fst].
  unfold CreateGenesisState, mbind, M_bind. destruct (GetGenesisRoot g s) as [s1 [root|e|c]]; [|done..].
  destruct GenerateMessageBusDeployTx as [dtx|e|c]; [|done..].
  destruct (wrap _ _ s1) as [s2 [[]|e|c]]; [|done..]. intros [= <- _].
  split; [|done]. split; [done|by rewrite DeriveSha_txs_nil|done|done].
Qed.

Lemma signBatch_committed cfg b sb :
  committed b ∧ ¬ l1_hash (ParentHash (Batch.Header b)) → signBatch cfg b = Ok sb →
  committed sb ∧ ¬ l1_hash (ParentHash (Batch.Header sb)).
Proof.
  intros [[Hh Ht Hs Hn] Hp]. unfold signBatch, Batch.Hash.
  destruct (Batch.hash b) as [v|] eqn:Hv; (destruct (ecdsa_Sign _ _) as [[r sg]|]; [|done]); intros [= <-];
    (split; [|done]); (split; [|done..]); unfold Batch.hash_ok, Batch.hashOf, Batch.Hash in *; cbn in *; by rewrite ?Hv in *.
Qed.

Lemma FetchCurrentSequencerNo_yields : yields node_inv FetchCurrentSequencerNo (λ n, 0 <= n < 2 ^ 63).
Proof.
  intros s Hn. split; [done|]. intros n Hq. pose proof (so_db s (ni_ok s Hn)) as Hd.
  pose proof (ReadCurrentSequencerNo_spec (s_db s) Hd) as Hr. unfold FetchCurrentSequencerNo, query in Hq. cbn [snd] in Hq.
  rewrite Hq in Hr. destruct Hr as [(h&ab&Hab&<-) _].
  apply batches_lookup in Hab as (r&_&Hrow); [|done]. apply (tro_range _ _ _ _ Hrow).
Qed.

(** *** The components of an enclave *)

Definition enclave_ok e : Prop := node_inv (e_storage e).

Lemma on_storage_node {A} (m : M (Storage C) A) : preserves node_inv m → preserves enclave_ok (on_storage m).
Proof. intros Hm e He. specialize (Hm _ He). unfold on_storage, zoom. by destruct (m (e_storage e)). Qed.

Lemma on_storage_yields {A} (m : M (Storage C) A) Q : yields node_inv m Q → yields enclave_ok (on_storage m) Q.
Proof. intros Hm e He. specialize (Hm _ He). unfold on_storage, zoom. by destruct (m (e_storage e)). Qed.

Lemma on_registry_node {A} (m : M Registry A) : preserves enclave_ok (on_registry m).
Proof. intros e He. unfold on_registry, zoom. by destruct (m (e_registry e)). Qed.

Lemma on_mempool_node {A} (m : M Mempool.t A) : preserves enclave_ok (on_mempool m).
Proof. intros e He. unfold on_mempool, zoom. by destruct (m (e_mempool e)). Qed.
End node.

Create HintDb node.
#[export] Hint Resolve preserves_ret preserves_fail preserves_crash preserves_gets preserves_lift preserves_bind
  preserves_try preserves_wrap preserves_when preserves_ToInternalError on_registry_node on_mempool_node : node.
#[export] Hint Resolve on_storage_node keeps_node StoreExecutedBatch_node StoreRollup_node StoreAttestedKey_node StoreSecret_node : node.
