(* ===== verification/RPCSpec.v ===== *)
(** * What the answers disclose

    Every encrypted answer is for one account, is encrypted under a key this
    account signed, and holds data of this account only.  Gas estimates. *)

From S2P Require Import Prelude Types Codec Bytes L1Chain EnclaveDB BatchDB Events Storage StorageInv StorageOps StorageSpec CrossChain BlockProcessor Reads Executor ExecutorSpec Growth Mempool Registry Params L2Chain RollupCompression RollupSpec Rollups Sequencer Validator SequencerSpec ViewingKeys Subscriptions Service RPC NodeInv.
Local Open Scope Z_scope.

Section disclosure.
Context {C : Type} `{CacheOk C, StateModel, StorageCodecsOk, HashingOk, MB : MessageBus}.
Context `{OW : !OwnerWallet, Keccak, EV : !EVM, EVOK : !EVMOk, CS : !Codec (list Z), RollupCodecs, BlobServices, Signatures}.
Context `{MgmtABI, AT : !Attestations, CE : !Codec ExtRollup, VC : ViewingCrypto, SubscriptionCodecs}.
Context `{GE : GethEncoding, CL : !Calls, TF : TxFields, RC : ResponseCodecs}.
Context (cfg : EnclaveConfig) (AuthSender : L2Tx → option Address).
Implicit Types (sv : Service C) (s : Storage C) (d : DB).

(** The account an answer belongs to: the sender of the transaction, the account of
    the call, the account of the query, or the creator of the contract. *)
Definition entitled d (req : Request) (paramList : list JSON) (a : Address) : Prop :=
  match req, paramList with
  | RSubmitTx, [_; JString txBinary] => ∃ tx, ExtractTx txBinary = Ok tx ∧ Sender tx = Some a
  | RGetTransactionCount, _ :: JString s :: _ => a = HexToAddress s
  | (RGetTransaction | RGetTransactionReceipt), [_; JString h] =>
      ∃ tx rest, ReadTransaction (HexToHash h) d = Ok (tx, rest.1.1, rest.1.2, rest.2) ∧ Sender tx = Some a
  | RGetBalance, [_; address; _] =>
      ∃ account, ExtractAddress address = Ok account ∧
        (a = account ∨ ∃ txHash tx rest, GetContractCreationTx account d = Ok txHash ∧
           ReadTransaction txHash d = Ok (tx, rest.1.1, rest.1.2, rest.2) ∧ LondonSender tx = Some a)
  | RObsCall, [_; call; _] | REstimateGas, _ :: call :: _ => ∃ args, ExtractEthCall call = Ok args ∧ ta_From args = Some a
  | RGetLogs, [_; _; JString s] => a = HexToAddress s
  | RGetCustomQuery, [_; _; q; _] => ∃ pq, ExtractPrivateCustomQuery q = Ok pq ∧ a = pq_Address pq
  | _, _ => False
  end.

(** The states [tr] of the storage: the one under the root of a stored batch. *)
Definition stateOf d (tr : gmap Hash EState) (h : Hash) (st : EState) : Prop :=
  ∃ ab, batches d !! h = Some ab ∧ tr !! Root (ab_header ab) = Some st.

(** The storage with the database [d] and the states [tr]. *)
Definition reading d (tr : gmap Hash EState) s : Prop := sound s ∧ s_db s = d ∧ s_tries s = tr.

(** A topic is the account of a user: of 160 bits at most, with a transaction and without
    code.  The log names no user, or it names [a]. *)
Definition namesUser (st : EState) (topic : Hash) (u : Address) : Prop :=
  topic < 2 ^ 160 ∧ u = topic mod 2 ^ 160 ∧ GetNonce st u ≠ 0 ∧ GetCode st u = None.
Definition log_for (st : EState) (a : Address) (l : Log) : Prop :=
  (∀ t u, t ∈ tail (log_topics l) → ¬ namesUser st t u) ∨ ∃ t, t ∈ tail (log_topics l) ∧ namesUser st t a.

(** What a call returns to the user, and its error. *)
Definition callResult (r : ExecutionResult) : string :=
  if bool_decide (er_ReturnData r = []) then "" else hexutil_Encode (er_ReturnData r).
Definition evmText (err : GoError) : string :=
  match serializeEVMError err with Some evmErr => Errorf evmErr | None => "json" end.

(** The errors that are for a user: of the transaction that was sent, of the parameters,
    of a query, and of a call or an estimate in the name of the account. *)
Inductive refusal d (tr : gmap Hash EState) (a : Address) : Request → list JSON → string → Prop :=
  | refused_transaction vk txBinary tx err : ExtractTx txBinary = Ok tx → Sender tx = Some a →
      (checkGas cfg tx = Err err ∨ ∃ e e' : Enclave C, service_SubmitTransaction cfg AuthSender tx e = (e', Err err)) →
      refusal d tr a RSubmitTx [vk; JString txBinary] (err_text err)
  | refused_receipt vk txHash err : ReadReceipt (HexToHash txHash) d = Err err →
      refusal d tr a RGetTransactionReceipt [vk; JString txHash] (err_text (ErrWrap "could not retrieve transaction receipt" err))
  | refused_number vk call number err : ExtractBlockNumber number = Err err →
      refusal d tr a RObsCall [vk; call; number] (err_text (ErrWrap "unable to extract requested block number" err))
  | refused_optional l err : ExtractOptionalBlockNumber l 2 = Err err →
      refusal d tr a REstimateGas l (err_text (ErrWrap "unable to extract requested block number" err))
  | refused_call vk call number args n s s' err : ExtractEthCall call = Ok args → ta_From args = Some a →
      reading d tr s → chain_ObsCall args n s = (s', Err err) → refusal d tr a RObsCall [vk; call; number] (evmText err)
  | refused_estimate vk call l args fuel n s s' err : ExtractEthCall call = Ok args → ta_From args = Some a →
      reading d tr s → DoEstimateGas fuel args n GlobalGasCap s = (s', Err err) →
      refusal d tr a REstimateGas (vk :: call :: l) (evmText (ErrWrap "unable to estimate transaction" err))
  | refused_filter l msg : msg ∈ ["invalid filter. Cannot have both blockhash and fromBlock"; "invalid filter. from > to"] →
      refusal d tr a RGetLogs l msg
  | refused_logs l f err : FilterLogs (Some a) f d = Err err →
      refusal d tr a RGetLogs l (err_text (ErrWrap "could not retrieve logs matching the filter" err)).

(** Data that belongs to an account: the hash of a transaction it sent, the results of
    calls and estimates in its name, its nonce, its transactions and their receipts with
    the logs for it, a balance, and the logs it may see ([Events.event_privacy]). *)
Inductive about d (tr : gmap Hash EState) (a : Address) : Request → list JSON → UserData + string → Prop :=
  | about_refusal req l msg : refusal d tr a req l msg → about d tr a req l (inr msg)
  | about_submitted vk txBinary tx : ExtractTx txBinary = Ok tx → Sender tx = Some a →
      about d tr a RSubmitTx [vk; JString txBinary] (inl (URawTx (Hash_Hex (tx_hash tx))))
  | about_call vk call number args msg chain hd h st r : ExtractEthCall call = Ok args → ta_From args = Some a →
      ToMessage args GlobalGasCap chainBaseFee = Ok msg → ms_From msg = a → stateOf d tr h st →
      ApplyMessage chain hd msg st = (None, Some r, None) →
      about d tr a RObsCall [vk; call; number] (inl (UCall (callResult r)))
  | about_gas vk call l args fuel n s s' gas : ExtractEthCall call = Ok args → ta_From args = Some a →
      reading d tr s → DoEstimateGas fuel args n GlobalGasCap s = (s', Ok gas) →
      about d tr a REstimateGas (vk :: call :: l) (inl (UGas gas))
  | about_count l n : (n = 0 ∨ ∃ h st, stateOf d tr h st ∧ n = GetNonce st a) →
      about d tr a RGetTransactionCount l (inl (UTxCount (EncodeUint64 n)))
  | about_transaction vk txHash tx h n i : ReadTransaction (HexToHash txHash) d = Ok (tx, h, n, i) → Sender tx = Some a →
      about d tr a RGetTransaction [vk; JString txHash] (inl (UTransaction (newRPCTransaction tx h n i 0)))
  | about_receipt vk txHash r st logs : ReadReceipt (HexToHash txHash) d = Ok r → stateOf d tr (r_blockhash r) st →
      (∀ l, l ∈ logs → l ∈ r_logs r ∧ log_for st a l) →
      about d tr a RGetTransactionReceipt [vk; JString txHash] (inl (UReceipt (receipt_with logs (r_blockhash r) r)))
  | about_balance vk address number h st account : ExtractAddress address = Ok account → stateOf d tr h st →
      about d tr a RGetBalance [vk; address; number] (inl (UBalance (GetBalance st account)))
  | about_logs vk filterParam addressParam fc f logs : json_filter filterParam = Some fc →
      f_addresses f = fc_Addresses fc → f_topics f = fc_Topics fc → FilterLogs (Some a) f d = Ok logs →
      about d tr a RGetLogs [vk; filterParam; addressParam] (inl (ULogs logs)).

(** The receipts of the query for those of an account: of transactions it sent, with all
    their logs, which are not filtered. *)
Definition ownReceipts d (a : Address) (req : Request) (l : list JSON) (x : UserData + string) : Prop :=
  req = RGetCustomQuery ∧ ∃ rs n, x = inl (UQuery rs n) ∧
    ∀ r, r ∈ rs → ∃ row, row ∈ joinExec d ∧ txr_sender row.1.2 = a ∧ decodeReceipt row = Ok r.

Definition told d (tr : gmap Hash EState) (a : Address) (req : Request) (l : list JSON) (x : UserData + string) : Prop :=
  about d tr a req l x ∨ ownReceipts d a req l x.

(** The handler of the viewing key that comes with the request. *)
Definition keyed (paramList : list JSON) (a : Address) (h : VKHandler) : Prop :=
  match paramList with vk :: _ => createVKHandler a vk = Ok h | [] => False end.

(** An answer without an encrypted part, or one for an account that may have it. *)
Definition discreet d tr (req : Request) (params : bytes) (resp : EnclaveResponse) : Prop :=
  EncUserResponse resp = None ∨
  ∃ paramList a h x, decodeRequest params = Ok paramList ∧ entitled d req paramList a ∧
    keyed paramList a h ∧ told d tr a req paramList x ∧ resp = encryptUserResponse x h.

(** ** The handlers *)

(** The service with the database [d], the states [tr] and the subscriptions [subs]. *)
Definition rests d tr (subs : Subscriptions) sv : Prop :=
  reading d tr (e_storage (sv_enclave sv)) ∧ sv_subscriptions sv = subs.

Lemma still_same {A} d tr (m : M (Storage C) A) :
  (∀ s, storage_ok s → storage_ok (m s).1 ∧ same_content s (m s).1) → preserves (reading d tr) m.
Proof.
  intros Hm s ([Hok Hp]&Hd&Ht). destruct (Hm s Hok) as [Hok' [Hd' Ht']]. split; [|split; congruence]. split; [done|]. by rewrite Hd'.
Qed.

Lemma query_yields {A} d tr (q : DB → result A) : yields (reading d tr) (query q) (λ a, q d = Ok a).
Proof. intros s (Hs&<-&Ht). by split. Qed.

Lemma CreateStateDB_yields d tr h : yields (reading d tr) (CreateStateDB h) (stateOf d tr h).
Proof.
  intros s Hs. pose proof Hs as ([Hok _]&Hd&Ht). destruct (FetchBatch_spec s h Hok) as (Hok1&Hsame&Hr).
  assert (reading d tr (FetchBatch h s).1) as Hr1.
  { apply still_same; [|done]. intros s0 Hs0. by destruct (FetchBatch_spec s0 h Hs0) as (?&?&_). }
  unfold CreateStateDB, mbind, M_bind. rewrite Hd in Hr. destruct (batches d !! h) as [ab|] eqn:Hab.
  - destruct (FetchBatch h s) as [s1 r]. cbn [fst snd] in *. subst r. cbn. pose proof Hr1 as (_&_&Ht1). rewrite Ht1.
    destruct (tr !! Root (ab_header ab)) as [st|] eqn:Hst; cbn; [|by split].
    split; [done|]. intros ? [= <-]. exists ab. by split.
  - destruct Hr as (e&Hr&_). destruct (FetchBatch h s) as [s1 r]. cbn [fst snd] in *. by subst r.
Qed.

Lemma on_database_yields {A} d tr subs (m : M (Storage C) A) Q :
  yields (reading d tr) m Q → yields (rests d tr subs) (on_database m) Q.
Proof.
  intros Hm sv (Hs&Hsub). destruct (Hm _ Hs) as [Hs' HQ].
  unfold on_database, on_enclave, zoom. rewrite on_storage_run. by destruct (m (e_storage (sv_enclave sv))) as [s' r].
Qed.

(** What was tried, and how it ended. *)
Definition ended {A} d tr (m : M (Storage C) A) (r : A + GoError) : Prop :=
  ∃ s s', reading d tr s ∧ m s = (s', match r with inl a => Ok a | inr err => Err err end).

Lemma try_ended {A} d tr subs (m : M (Storage C) A) Q : yields (reading d tr) m Q →
  yields (rests d tr subs) (try (on_database m)) (λ r, ended d tr m r ∧ ∀ a, r = inl a → Q a).
Proof.
  intros Hm sv (Hs&Hsub). destruct (Hm _ Hs) as [Hs' HQ].
  unfold try, on_database, on_enclave, zoom. rewrite on_storage_run.
  destruct (m (e_storage (sv_enclave sv))) as [s' [a|err|c]] eqn:Hrun; cbn in *; (split; [done|]); intros ? [= <-];
    (split; [by exists (e_storage (sv_enclave sv)), s'|]); [|done]. intros ? [= <-]. by apply HQ.
Qed.

Lemma or_plain_yields {A} d tr subs msg (m : M (Service C) A) k P Q :
  yields (rests d tr subs) m P → (∀ a, P a → yields (rests d tr subs) (k a) Q) → (∀ err, Q (AsPlaintextError err)) →
  yields (rests d tr subs) (or_plain msg m k) Q.
Proof.
  intros Hm Hk HQ. unfold or_plain. eapply yields_seq; [apply yields_try, Hm|].
  intros [a|err] Ha; [by apply Hk|]. by apply yields_ret.
Qed.

Lemma lift_yields {St A} (I : St → Prop) (r : result A) : yields I (lift r) (λ a, r = Ok a).
Proof. by apply yields_lift. Qed.

Lemma createVKHandler_authorised a vk h : createVKHandler a vk = Ok h → authorised a (publicViewingKey h).
Proof.
  unfold createVKHandler. destruct (wrapR _ (ExtractViewingKey vk)) as [[pk sig]|e|c]; [|done..]. cbn.
  unfold wrapR. destruct (New a pk sig) as [h'|e|c] eqn:Hnew; [|done..]. intros [= <-]. by eapply New_authorised.
Qed.

Lemma with_key_yields d tr subs a vk k (Q : EnclaveResponse → Prop) :
  (∀ h, createVKHandler a vk = Ok h → yields (rests d tr subs) (k h) Q) → (∀ err, Q (AsPlaintextError err)) →
  yields (rests d tr subs) (with_key a vk k) Q.
Proof. intros Hk HQ. by eapply or_plain_yields; [apply lift_yields| |done]. Qed.

Lemma keyed_authorised l a h : keyed l a h → authorised a (publicViewingKey h).
Proof. destruct l as [|vk l]; [done|]. apply createVKHandler_authorised. Qed.

Lemma discreet_plain d tr req params err : discreet d tr req params (AsPlaintextError err).
Proof. by left. Qed.
Lemma discreet_empty d tr req params : discreet d tr req params AsEmptyResponse.
Proof. by left. Qed.
Lemma discreet_wrong d tr req params : discreet d tr req params wrongParameters.
Proof. by left. Qed.
#[local] Hint Resolve discreet_plain discreet_empty discreet_wrong : core.

(** Answers without an encrypted part. *)
Ltac plain := first [apply yields_crash | apply yields_fail | apply yields_ret; solve [auto]].

(** The handlers decode their parameters first. *)
Lemma decoded_yields d tr subs req msg params k :
  (∀ l, decodeRequest params = Ok l → yields (rests d tr subs) (k l) (discreet d tr req params)) →
  yields (rests d tr subs) (or_plain msg (lift (decodeRequest params)) k) (discreet d tr req params).
Proof. intros Hk. eapply or_plain_yields; [apply lift_yields|done|auto]. Qed.

Lemma unless_stopping_yields {A} d tr subs msg (m : M (Service C) A) Q :
  yields (rests d tr subs) m Q → yields (rests d tr subs) (unless_stopping msg m) Q.
Proof. intros Hm sv Hsv. unfold unless_stopping. destruct (sv_stopping sv); [done|by apply Hm]. Qed.

(** An answer for an account. *)
Section answer.
Context (d : DB) (tr : gmap Hash EState) (subs : Subscriptions) (req : Request) (params : bytes) (l : list JSON) (a : Address) (h : VKHandler).
Context (Hl : decodeRequest params = Ok l) (Ha : entitled d req l a) (Hh : keyed l a h).

Lemma discreet_answer x : about d tr a req l (inl x) → discreet d tr req params (AsEncryptedResponse x h).
Proof. intros Hx. right. exists l, a, h, (inl x). split_and!; try done. by left. Qed.
Lemma discreet_error err : refusal d tr a req l (err_text err) → discreet d tr req params (AsEncryptedError err h).
Proof. intros Hr. right. exists l, a, h, (inr (err_text err)). split_and!; try done. left. by constructor. Qed.

Lemma or_encrypted_yields {A} msg (r : result A) k :
  (∀ err, r = Err err → refusal d tr a req l (err_text (ErrWrap msg err))) →
  (∀ x, r = Ok x → yields (rests d tr subs) (k x) (discreet d tr req params)) →
  yields (rests d tr subs) (or_encrypted h msg (lift r) k) (discreet d tr req params).
Proof.
  intros Herr Hk. unfold or_encrypted, try, lift. destruct r as [x|err|c].
  - eapply yields_seq; [apply (yields_ret _ (inl x) (λ y, y = inl x)); done|]. intros ? ->. by apply Hk.
  - eapply yields_seq; [apply (yields_ret _ (inr err) (λ y, y = inr err)); done|]. intros ? ->. apply yields_ret, discreet_error. by apply Herr.
  - by intros sv Hsv.
Qed.

Lemma callError_yields err : refusal d tr a req l (evmText err) → yields (rests d tr subs) (callError err h) (discreet d tr req params).
Proof.
  intros Hr. unfold callError. destruct (errors_Is _ _); [apply yields_fail|apply yields_ret, discreet_error]. unfold evmText in Hr.
  by destruct (serializeEVMError err).
Qed.
End answer.

Lemma submit_rests d tr subs tx : preserves (rests d tr subs) (on_enclave (service_SubmitTransaction cfg AuthSender tx)).
Proof.
  intros sv Hsv. unfold on_enclave, zoom, service_SubmitTransaction, sequencer_SubmitTransaction, validator_SubmitTransaction.
  destruct (NodeRole cfg); [|done]. unfold on_mempool, zoom. by destruct (Mempool.AddMempoolTx _ _ _).
Qed.

Lemma submit_ended d tr subs tx : yields (rests d tr subs) (try (on_enclave (service_SubmitTransaction cfg AuthSender tx)))
  (λ r, match r with inl _ => True | inr err => ∃ e e' : Enclave C, service_SubmitTransaction cfg AuthSender tx e = (e', Err err) end).
Proof.
  intros sv Hsv. pose proof (submit_rests d tr subs tx sv Hsv) as Hsv'. unfold try, on_enclave, zoom in *.
  destruct (service_SubmitTransaction cfg AuthSender tx (sv_enclave sv)) as [e' [r|err|c]] eqn:Hrun; cbn in *;
    (split; [done|]); intros ? [= <-]; [done|]. by eexists _, _.
Qed.

Lemma SubmitTx_discreet d tr subs params :
  yields (rests d tr subs) (SubmitTx cfg AuthSender params) (discreet d tr RSubmitTx params).
Proof.
  apply unless_stopping_yields, decoded_yields. intros l Hl.
  destruct l as [|vk [|[] [|? ?]]]; try plain.
  eapply or_plain_yields; [apply lift_yields| |auto]. intros tx Htx.
  destruct (Sender tx) as [a|] eqn:Hs; [|destruct (invalidSig tx); plain].
  assert (entitled d RSubmitTx [vk; JString s] a) as Ha by (by exists tx).
  apply with_key_yields; [|auto]. intros h Hh. destruct (IsSyntheticTransaction tx); [plain|].
  assert (∀ err, (checkGas cfg tx = Err err ∨ ∃ e e' : Enclave C, service_SubmitTransaction cfg AuthSender tx e = (e', Err err)) →
    discreet d tr RSubmitTx params (AsEncryptedError err h)) as Herr by (intros err He; eapply discreet_error; [done..|exact (refused_transaction _ _ _ _ _ _ _ Htx Hs He)]).
  destruct (checkGas cfg tx) as [[]|err|c] eqn:Hgas; [|apply yields_ret, Herr; by left|].
  all: eapply yields_seq; [apply submit_ended|].
  all: intros [[]|err] He; apply yields_ret; [eapply discreet_answer; [done..|by econstructor]|apply Herr; by right].
Qed.

Lemma GetTransactionCount_discreet d tr subs params :
  yields (rests d tr subs) (GetTransactionCount params) (discreet d tr RGetTransactionCount params).
Proof.
  apply unless_stopping_yields, decoded_yields. intros l Hl. destruct l as [|vk [|[] l']]; try plain.
  apply with_key_yields; [|auto]. intros h Hh.
  eapply yields_seq; [apply yields_try, on_database_yields, query_yields|]. intros head _.
  eapply (yields_seq _ _ _ (λ n, n = 0 ∨ ∃ h st, stateOf d tr h st ∧ n = GetNonce st (HexToAddress s))).
  - destruct head as [b|err]; [|apply yields_ret; by left].
    eapply yields_seq; [apply yields_internal, on_database_yields, CreateStateDB_yields|].
    intros st Hst. apply yields_ret. right. by eexists _, st.
  - intros n Hn. apply yields_ret. eapply discreet_answer; [done|done|done|by constructor].
Qed.

(** The transaction was read from the database. *)
Lemma with_transaction_yields d tr subs req params txHash k :
  (∀ tx h n i, ReadTransaction txHash d = Ok (tx, h, n, i) → yields (rests d tr subs) (k (tx, h, n, i)) (discreet d tr req params)) →
  yields (rests d tr subs) (with_transaction txHash k) (discreet d tr req params).
Proof.
  intros Hk. eapply yields_seq; [apply yields_try, on_database_yields, query_yields|].
  intros [[[[tx h] n] i]|err] Hr; [by apply Hk|]. apply yields_ret. destruct (errors_Is _ _); auto.
Qed.

Lemma GetTransaction_discreet d tr subs params :
  yields (rests d tr subs) (enclave_GetTransaction params) (discreet d tr RGetTransaction params).
Proof.
  apply unless_stopping_yields, decoded_yields. intros l Hl. destruct l as [|vk [|[] [|? ?]]]; try plain.
  apply with_transaction_yields. intros tx bh n i Htx. destruct (Sender tx) as [a|] eqn:Hs; [|plain].
  apply with_key_yields; [|auto]. intros h Hh. apply yields_ret.
  eapply discreet_answer; [done|by exists tx, (bh, n, i)|done|by econstructor].
Qed.

Lemma userAddrs_names st u topics : u ∈ userAddrs topics st ↔ ∃ t, t ∈ topics ∧ namesUser st t u.
Proof.
  induction topics as [|t topics IH]; cbn [userAddrs]; [by split; [intros ?%not_elem_of_nil|intros (t&?%not_elem_of_nil&_)]|].
  assert (u ∈ userAddrs (t :: topics) st ↔ namesUser st t u ∨ u ∈ userAddrs topics st) as Ht.
  { cbn [userAddrs]. unfold looksLikeAddress, namesUser, Events.BytesToAddress. destruct (Z.ltb_spec t (2 ^ 160)); cbn [negb]; [|naive_solver lia].
    destruct (_ && _) eqn:Hc.
    - rewrite elem_of_cons. apply andb_true_iff in Hc as [Hn%bool_decide_eq_true Hc%bool_decide_eq_true]. naive_solver.
    - apply andb_false_iff in Hc as [Hc%bool_decide_eq_false|Hc%bool_decide_eq_false]; naive_solver. }
  cbn [userAddrs] in Ht. rewrite Ht, IH. setoid_rewrite elem_of_cons. naive_solver.
Qed.

Lemma relevant_log_for st a l addrs : getUserAddrsFromLogTopics l st = Ok addrs → addrs = [] ∨ a ∈ addrs → log_for st a l.
Proof.
  unfold getUserAddrsFromLogTopics, log_for. destruct (log_topics l) as [|t0 topics]; [done|]. intros [= <-]. cbn [tail].
  intros [Hnil|Ha%userAddrs_names]; [left|by right]. intros t u Ht Hu.
  assert (u ∈ userAddrs topics st) as Hin by (apply userAddrs_names; by exists t). rewrite Hnil in Hin. by apply not_elem_of_nil in Hin.
Qed.

Lemma relevantLogs_for a st logs : ∀ res, relevantLogs a st logs = Ok res → ∀ l, l ∈ res → l ∈ logs ∧ log_for st a l.
Proof.
  induction logs as [|l0 logs IH]; intros res; cbn [relevantLogs]; [intros [= <-] l Hl; by apply not_elem_of_nil in Hl|].
  result_unfold. destruct (getUserAddrsFromLogTopics l0 st) as [addrs|e|c] eqn:Haddr; [|done..].
  destruct (relevantLogs a st logs) as [rest|e|c]; [|done..]. intros [= <-] l.
  assert (l ∈ rest → l ∈ l0 :: logs ∧ log_for st a l) as Hrest.
  { intros Hl. destruct (IH rest eq_refl l Hl). split; [by right|done]. }
  destruct (isRelevant a addrs) eqn:Hrel; [|done]. intros [->|Hl]%elem_of_cons; [|auto].
  split; [by left|]. apply (relevant_log_for st a l0 addrs Haddr). by apply isRelevant_spec.
Qed.

Lemma FilterLogsForReceipt_yields d tr r a :
  yields (reading d tr) (FilterLogsForReceipt r a) (λ logs, ∃ st, stateOf d tr (r_blockhash r) st ∧ ∀ l, l ∈ logs → l ∈ r_logs r ∧ log_for st a l).
Proof.
  eapply yields_seq; [apply yields_wrap, CreateStateDB_yields|]. intros st Hst.
  eapply yields_mono; [apply lift_yields|]. intros logs Hlogs. exists st. split; [done|]. by apply relevantLogs_for.
Qed.

Lemma GetTransactionReceipt_discreet d tr subs params :
  yields (rests d tr subs) (enclave_GetTransactionReceipt params) (discreet d tr RGetTransactionReceipt params).
Proof.
  apply unless_stopping_yields, decoded_yields. intros l Hl. destruct l as [|vk [|[] [|? ?]]]; try plain.
  apply with_transaction_yields. intros tx bh n i Htx. destruct (Sender tx) as [a|] eqn:Hs; [|plain].
  assert (entitled d RGetTransactionReceipt [vk; JString s] a) as Ha by (by exists tx, (bh, n, i)).
  apply with_key_yields; [|auto]. intros h Hh.
  eapply yields_seq; [apply try_ended, query_yields|]. intros [r|err] [(s1&s2&(_&Hd&_)&Hrun) Hr].
  - eapply yields_seq; [apply yields_internal, on_database_yields, FilterLogsForReceipt_yields|]. intros logs (st&Hst&Hlogs).
    apply yields_ret. eapply discreet_answer; [done..|]. by apply (about_receipt _ _ _ vk s r st logs (Hr r eq_refl)).
  - apply yields_ret. destruct (errors_Is _ _); [auto|]. eapply discreet_error; [done..|]. apply refused_receipt. rewrite <-Hd. by injection Hrun.
Qed.

(** *** Balances and calls *)

Lemma still_query {A} d tr (q : DB → result A) : preserves (reading d tr) (query q).
Proof. by intros s Hs. Qed.
Lemma still_gets {A} d tr (f : Storage C → A) : preserves (reading d tr) (gets f).
Proof. by intros s Hs. Qed.
Lemma still_CreateStateDB d tr h : preserves (reading d tr) (CreateStateDB h).
Proof. intros s Hs. by apply (CreateStateDB_yields d tr h s Hs). Qed.
Lemma still_GetBatchAtHeight d tr n : preserves (reading d tr) (GetBatchAtHeight n).
Proof.
  unfold GetBatchAtHeight, FetchBatchByHeight, FetchHeadBatch. repeat case_bool_decide; [apply preserves_wrap, still_query|apply preserves_fail|apply preserves_wrap, still_query..].
Qed.

Lemma GetBatchStateAtHeight_yields d tr n : yields (reading d tr) (GetBatchStateAtHeight n) (λ st, ∃ h, stateOf d tr h st).
Proof.
  eapply yields_seq; [apply preserves_yields, still_GetBatchAtHeight|]. intros b _.
  eapply yields_mono; [apply yields_wrap, CreateStateDB_yields|]. eauto.
Qed.
Lemma still_GetBatchStateAtHeight d tr n : preserves (reading d tr) (GetBatchStateAtHeight n).
Proof. intros s Hs. by apply (GetBatchStateAtHeight_yields d tr n s Hs). Qed.

Lemma GetBalanceAtBlock_yields d tr account n :
  yields (reading d tr) (GetBalanceAtBlock account n) (λ b, ∃ h st, stateOf d tr h st ∧ b = GetBalance st account).
Proof.
  eapply yields_seq; [apply yields_wrap, GetBatchStateAtHeight_yields|]. intros st [h Hst]. apply yields_ret. by exists h, st.
Qed.

Lemma chain_GetBalance_yields d tr account n :
  yields (reading d tr) (chain_GetBalance account n) (λ '(a, b), (∃ h st, stateOf d tr h st ∧ b = GetBalance st account) ∧
    (a = account ∨ ∃ txHash tx rest, GetContractCreationTx account d = Ok txHash ∧
      ReadTransaction txHash d = Ok (tx, rest.1.1, rest.1.2, rest.2) ∧ LondonSender tx = Some a)).
Proof.
  eapply yields_seq; [apply GetBalanceAtBlock_yields|]. intros b Hb.
  eapply yields_seq; [|intros contract _].
  { apply preserves_yields, preserves_bind; [apply preserves_wrap, still_GetBatchStateAtHeight|]. intros st. apply preserves_ret. }
  destruct contract; [|by apply yields_ret; split; [done|left]].
  eapply yields_seq; [apply query_yields|]. intros txHash Hh.
  eapply yields_seq; [apply query_yields|]. intros [[[tx bh] bn] i] Htx.
  eapply yields_seq; [apply lift_yields|]. intros a Ha. apply yields_ret. split; [done|].
  right. exists txHash, tx, (bh, bn, i). split_and!; try done. by destruct (LondonSender tx); simplify_eq/=.
Qed.

Lemma GetBalance_discreet d tr subs params :
  yields (rests d tr subs) (enclave_GetBalance params) (discreet d tr RGetBalance params).
Proof.
  apply unless_stopping_yields, decoded_yields. intros l Hl. destruct l as [|vk [|address [|number [|? ?]]]]; try plain.
  eapply or_plain_yields; [apply lift_yields| |auto]. intros account Hacc.
  eapply or_plain_yields; [apply lift_yields| |auto]. intros n Hn.
  eapply or_plain_yields; [apply on_database_yields, chain_GetBalance_yields| |auto]. intros [a b] [(sh&st&Hst&->) Ha].
  apply with_key_yields; [|auto]. intros h Hh. apply yields_ret.
  eapply discreet_answer; [done|by exists account|done|by econstructor].
Qed.

(** The message of a call is from the account of the call. *)
Lemma ToMessage_From args cap fee msg : ToMessage args cap fee = Ok msg → ms_From msg = args_from args.
Proof.
  unfold ToMessage. destruct (bothFees args); [done|].
  destruct (ta_GasPrice args); intros [= <-]; done.
Qed.

(** The results of calls: the state recorded no error. *)
Definition applied (msg : Message) (st : EState) (p : option ExecutionResult * option GoError) : Prop :=
  match p with
  | (Some r, err) => ∃ chain hd, ApplyMessage chain hd msg st = (None, Some r, err)
  | (None, _) => True
  end.
Definition called d tr (args : TransactionArgs) (p : option ExecutionResult * option GoError) : Prop :=
  ∃ msg h st, ToMessage args GlobalGasCap chainBaseFee = Ok msg ∧ stateOf d tr h st ∧ applied msg st p.

Lemma still_secret d tr : preserves (reading d tr) (secret : M (Storage C) _).
Proof.
  unfold secret, FetchSecret. apply preserves_bind; [|intros [?|?]; [apply preserves_ret|apply preserves_crash]].
  apply preserves_try, preserves_bind; [apply still_query|intros; apply preserves_lift].
Qed.

Lemma ExecuteObsCall_yields d tr msg st hd : yields (reading d tr) (ExecuteObsCall msg st hd) (applied msg st).
Proof.
  eapply yields_seq; [apply preserves_yields, still_secret|]. intros sec _.
  eapply yields_seq; [apply preserves_yields, still_gets|]. intros s _. cbv beta zeta.
  destruct (ApplyMessage _ _ _ _) as [[[e|] [r|]] err] eqn:Happ; try by apply yields_ret.
  destruct (0 <? length (Revert r))%nat; apply yields_ret; [done|]. unfold applied. by eexists _, _.
Qed.

Lemma ObsCallAtBlock_yields d tr args n : yields (reading d tr) (ObsCallAtBlock args n) (called d tr args).
Proof.
  eapply yields_seq; [apply yields_wrap, lift_yields|]. intros msg Hmsg.
  eapply yields_seq; [apply GetBatchStateAtHeight_yields|]. intros st [h Hst].
  eapply yields_seq; [apply preserves_yields, preserves_wrap, still_GetBatchAtHeight|]. intros b _.
  eapply yields_mono; [apply ExecuteObsCall_yields|]. intros p Hp. by exists msg, h, st.
Qed.

Lemma chain_ObsCall_yields d tr args n :
  yields (reading d tr) (chain_ObsCall args n) (λ r, called d tr args (Some r, None)).
Proof.
  eapply yields_seq; [apply ObsCallAtBlock_yields|]. intros [[r|] [err|]] Hr; try apply yields_fail; [|apply yields_crash].
  destruct (er_Err r); [apply yields_fail|by apply yields_ret].
Qed.

Lemma ObsCall_discreet d tr subs params : yields (rests d tr subs) (ObsCall params) (discreet d tr RObsCall params).
Proof.
  apply unless_stopping_yields, decoded_yields. intros l Hl. destruct l as [|vk [|call [|number [|? ?]]]]; try plain.
  eapply or_plain_yields; [apply lift_yields| |auto]. intros args Hargs. destruct (ta_From args) as [a|] eqn:Hfrom; [|plain].
  assert (entitled d RObsCall [vk; call; number] a) as Ha by (by exists args).
  apply with_key_yields; [|auto]. intros h Hh. eapply or_encrypted_yields; [done..|intros err; apply refused_number|]. intros n _.
  eapply yields_seq; [apply try_ended, chain_ObsCall_yields|].
  intros [r|err] [(s1&s2&Hs1&Hrun) Hr]; [|eapply callError_yields; [done..|exact (refused_call _ _ _ _ _ _ _ _ _ _ _ Hargs Hfrom Hs1 Hrun)]].
  destruct (Hr r eq_refl) as (msg&sh&st&Hmsg&Hst&chain&hd&Happ). apply yields_ret. eapply discreet_answer; [done..|].
  refine (about_call _ _ _ _ _ _ args msg chain hd sh st r Hargs Hfrom Hmsg _ Hst Happ). rewrite (ToMessage_From _ _ _ _ Hmsg). unfold args_from. by rewrite Hfrom.
Qed.

(** *** Gas estimates *)

Lemma still_isGasEnough d tr args gas n : preserves (reading d tr) (isGasEnough args gas n).
Proof.
  apply preserves_bind; [apply preserves_try; intros s Hs; by apply (ObsCallAtBlock_yields d tr (set_Gas gas args) n s Hs)|].
  intros [[[r|] [err|]]|err]; try destruct (errors_Is _ _); auto using preserves_ret, preserves_fail, preserves_crash.
Qed.

Lemma still_estimateLoop d tr args n : ∀ fuel lo hi, preserves (reading d tr) (estimateLoop fuel args n lo hi).
Proof.
  induction fuel as [|fuel IH]; intros lo hi; cbn [estimateLoop]; [apply preserves_crash|].
  destruct (_ <? hi); [|apply preserves_ret]. apply preserves_bind; [apply still_isGasEnough|]. intros [[] r]; apply IH.
Qed.

Lemma still_gasCeiling d tr args n cap : preserves (reading d tr) (gasCeiling args n cap).
Proof.
  unfold gasCeiling, recapByBalance. destruct (bothFees args); [apply preserves_fail|].
  apply preserves_bind; [|intros; apply preserves_ret]. destruct (_ =? 0); [apply preserves_ret|].
  apply preserves_bind; [apply preserves_wrap; intros s Hs; by apply (GetBalanceAtBlock_yields d tr (args_from args) n s Hs)|].
  intros b. apply preserves_bind; [|intros; apply preserves_ret]. destruct (ta_Value args); [destruct (_ <=? _)|]; auto using preserves_ret, preserves_fail.
Qed.

Lemma still_DoEstimateGas d tr fuel args n cap : preserves (reading d tr) (DoEstimateGas fuel args n cap).
Proof.
  apply preserves_bind; [apply still_gasCeiling|]. intros c. apply preserves_bind; [apply still_estimateLoop|]. intros hi.
  destruct (hi =? c); [|apply preserves_ret]. apply preserves_bind; [apply still_isGasEnough|].
  intros [[] [r|]]; try apply preserves_fail; try apply preserves_ret.
  destruct (er_Err r); [|apply preserves_ret]. case_bool_decide; [apply preserves_fail|]. destruct (_ <? _)%nat; apply preserves_fail.
Qed.

Lemma EstimateGas_discreet d tr subs fuel params :
  yields (rests d tr subs) (EstimateGas fuel params) (discreet d tr REstimateGas params).
Proof.
  apply unless_stopping_yields, decoded_yields. intros l Hl. destruct l as [|vk [|call l']]; try plain.
  eapply or_plain_yields; [apply lift_yields| |auto]. intros args Hargs. destruct (ta_From args) as [a|] eqn:Hfrom; [|plain].
  assert (entitled d REstimateGas (vk :: call :: l') a) as Ha by (by exists args).
  apply with_key_yields; [|auto]. intros h Hh. eapply or_encrypted_yields; [done..|intros err; apply refused_optional|]. intros n _.
  eapply yields_seq; [apply try_ended, preserves_yields, still_DoEstimateGas|].
  intros [g|err] [(s1&s2&Hs1&Hrun) _]; [|eapply callError_yields; [done..|exact (refused_estimate _ _ _ _ _ _ _ _ _ _ _ _ Hargs Hfrom Hs1 Hrun)]].
  apply yields_ret. eapply discreet_answer; [done..|exact (about_gas _ _ _ _ _ _ _ _ _ _ _ _ Hargs Hfrom Hs1 Hrun)].
Qed.

(** *** Logs and receipts *)

Lemma logsFrom_yields d tr subs req params f :
  yields (rests d tr subs) (logsFrom f) (λ r, match r with inl _ => True | inr resp => discreet d tr req params resp end).
Proof.
  eapply (yields_seq _ _ _ (λ r, match r with inl _ => True | inr resp => discreet d tr req params resp end)).
  - destruct (fc_FromBlock f) as [n|]; [|by apply yields_ret]. destruct (_ <? 0); [|by apply yields_ret].
    eapply yields_seq; [apply yields_try, on_database_yields, query_yields|]. intros [b|err] _; apply yields_ret; auto.
  - intros [[n|]|resp] Hr; [by apply yields_ret| |by apply yields_ret]. destruct (fc_BlockHash f) as [h|]; [|by apply yields_ret].
    eapply yields_seq; [apply yields_internal, on_database_yields, preserves_yields|intros hd _; by apply yields_ret].
    unfold FetchBatchHeader. apply preserves_bind; [|intros; apply preserves_ret]. apply still_same. intros s Hs.
    by destruct (FetchBatch_spec s h Hs) as (?&?&_).
Qed.

Lemma GetLogs_discreet d tr subs params : yields (rests d tr subs) (enclave_GetLogs params) (discreet d tr RGetLogs params).
Proof.
  apply unless_stopping_yields, decoded_yields. intros l Hl. destruct l as [|vk [|fp [|ap [|? ?]]]]; try plain.
  eapply yields_seq; [apply yields_try, lift_yields|]. intros [[f a]|err] Hex; [|plain].
  assert (json_filter fp = Some f ∧ entitled d RGetLogs [vk; fp; ap] a) as [Hf Ha].
  { unfold extractGetLogsParams in Hex. destruct (json_filter fp); [|done]. by destruct ap; simplify_eq/=. }
  apply with_key_yields; [|auto]. intros h Hh.
  assert (∀ err, refusal d tr a RGetLogs [vk; fp; ap] (err_text err) → discreet d tr RGetLogs params (AsEncryptedError err h)) as Herr
    by (intros err; by eapply discreet_error).
  destruct (_ && _); [apply yields_ret, Herr, refused_filter; by left|]. eapply yields_seq; [apply logsFrom_yields|].
  intros [from|resp] Hr; [|by apply yields_ret].
  cbv zeta. match goal with |- context [if ?c then mret _ else _] => destruct c end; [apply yields_ret, Herr, refused_filter; right; by left|].
  eapply yields_seq; [apply try_ended, query_yields|]. intros [logs|err] [(s1&s2&(_&Hd&_)&Hrun) Hlogs].
  - apply yields_ret. eapply discreet_answer; [done..|]. by eapply about_logs; [exact Hf| | |apply Hlogs].
  - destruct (errors_Is _ _); [apply yields_fail|]. apply yields_ret, Herr. eapply refused_logs. rewrite <-Hd. by injection Hrun.
Qed.

Lemma receipts_sent a p d rs : GetReceiptsPerAddress a p d = Ok rs →
  ∀ r, r ∈ rs → ∃ row, row ∈ joinExec d ∧ txr_sender row.1.2 = a ∧ decodeReceipt row = Ok r.
Proof.
  intros Hrs%mapR_Ok r [i Hi]%list_elem_of_lookup. destruct (Forall2_lookup_r _ _ _ _ _ Hrs Hi) as (row&Hrow&Hdec).
  exists row. apply list_elem_of_lookup_2 in Hrow. unfold page in Hrow.
  apply subseteq_take, subseteq_drop in Hrow. rewrite merge_sort_Permutation in Hrow. by apply list_elem_of_filter in Hrow as [? ?].
Qed.

Lemma GetCustomQuery_discreet d tr subs params :
  yields (rests d tr subs) (GetCustomQuery params) (discreet d tr RGetCustomQuery params).
Proof.
  apply unless_stopping_yields, decoded_yields. intros l Hl. destruct l as [|vk [|x1 [|q [|x3 [|? ?]]]]]; try plain.
  eapply or_plain_yields; [apply lift_yields| |auto]. intros pq Hpq.
  apply with_key_yields; [|auto]. intros h Hh.
  eapply or_plain_yields; [apply on_database_yields, query_yields| |auto]. intros rs Hrs.
  eapply or_plain_yields; [apply on_database_yields, query_yields| |auto]. intros n Hn.
  apply yields_ret. right. eexists _, (pq_Address pq), h, _. split_and!; [exact Hl|by exists pq|done| |done].
  right. split; [done|]. exists rs, n. split; [done|]. exact (receipts_sent _ _ _ _ Hrs).
Qed.

Lemma handle_discreet d tr subs fuel req params :
  yields (rests d tr subs) (handle cfg AuthSender fuel req params) (discreet d tr req params).
Proof.
  destruct req; [apply SubmitTx_discreet|apply GetTransactionCount_discreet|apply GetTransaction_discreet
    |apply GetTransactionReceipt_discreet|apply GetBalance_discreet|apply ObsCall_discreet|apply EstimateGas_discreet
    |apply GetLogs_discreet|apply GetCustomQuery_discreet].
Qed.


(** ** Requests that are not checked *)

(** Parameters of a type the handler asserts without checking, before any key is
    needed: a call that is no object, a transaction that is no string or too short
    for its prefix, a block number that is no string, a viewing key whose first part
    is no string. *)
Definition unchecked (req : Request) (paramList : list JSON) : bool :=
  match req, paramList with
  | RSubmitTx, [_; JString s] => (String.length s <? 2)%nat
  | RSubmitTx, [_; _] => true
  | RObsCall, [_; call; _] | REstimateGas, _ :: call :: _ => match call with JObject _ => false | _ => true end
  | RGetBalance, [_; JString address; number] =>
      negb (isBlank address) && match number with JString _ | JNull => false | _ => true end
  | RGetTransactionCount, JArray [key; _] :: JString _ :: _ => match key with JString _ => false | _ => true end
  | _, _ => false
  end.

Lemma decoded_run msg params l k sv :
  decodeRequest params = Ok l → or_plain msg (lift (decodeRequest params)) k sv = k l sv.
Proof. intros Hl. unfold or_plain, mbind, M_bind, try, lift. by rewrite Hl. Qed.

Lemma or_plain_crash {A} msg (m : M (Service C) A) k sv sv' c : m sv = (sv', Crash c) → or_plain msg m k sv = (sv', Crash c).
Proof. intros Hm. unfold or_plain, mbind, M_bind, try. by rewrite Hm. Qed.

(** A request with a parameter of an unexpected JSON type ends the process of
    the enclave: the type assertions are not checked, whoever sends the request and
    without a viewing key. *)
Theorem malformed_request_crashes fuel req params paramList sv :
  sv_stopping sv = false → decodeRequest params = Ok paramList → unchecked req paramList = true →
  ∃ c, handle cfg AuthSender fuel req params sv = (sv, Crash c).
Proof.
  intros Hstop Hl Hun. destruct req; simpl in Hun; try done; cbn [handle];
    unfold SubmitTx, GetTransactionCount, enclave_GetBalance, ObsCall, EstimateGas, unless_stopping; rewrite Hstop;
    rewrite (decoded_run _ _ _ _ _ Hl).
  - destruct paramList as [|vk [|[| | |s| |] [|? ?]]]; try done; try (by eexists).
    eexists. apply or_plain_crash. unfold lift, ExtractTx. by rewrite Hun.
  - destruct paramList as [|[| | | |[|key [|sig [|? ?]]]|] [|[| | |address| |] l]]; try done.
    eexists. apply or_plain_crash. unfold lift, createVKHandler, ExtractViewingKey. by destruct key.
  - destruct paramList as [|vk [|[| | |address| |] [|number [|? ?]]]]; try done. apply andb_true_iff in Hun as [Hblank Hnum].
    eexists. unfold or_plain at 1, mbind, M_bind, try, lift, ExtractAddress. apply negb_true_iff in Hblank. rewrite Hblank.
    apply or_plain_crash. unfold lift, ExtractBlockNumber. by destruct number.
  - destruct paramList as [|vk [|call [|number [|? ?]]]]; try done. eexists. apply or_plain_crash. by destruct call.
  - destruct paramList as [|vk [|call l]]; try done. eexists. apply or_plain_crash. by destruct call.
Qed.
End disclosure.
