(* ===== verification/GasSpec.v ===== *)
(** * Gas estimates

    The binary search of [DoEstimateGas] ([go/enclave/enclave.go]): it ends, stays
    in range, and finds the least limit with which the call succeeds. *)

From S2P Require Import Prelude Types Codec L1Chain EnclaveDB BatchDB Events Storage StorageInv StorageOps StorageSpec CrossChain Reads Executor ExecutorSpec Mempool Registry Params L2Chain RollupCompression Rollups Sequencer Validator ViewingKeys Subscriptions Service RPC NodeInv.
Local Open Scope Z_scope.

(** ** Results that depend on what is stored only *)

Section determined.
Context {C : Type} `{CacheOk C, StateModel, StorageCodecsOk, HashingOk, Keccak, CS : !Codec (list Z)}.
Context `{EV : !EVM, CL : !Calls, CLOK : !CallsOk}.
Context (d : DB) (tr : gmap Hash EState) (Hd : db_ok d) (Hp : parents_ok d).
Implicit Types (s : Storage C).

(** The result, errors included, does not depend on the cache. *)
Definition determined {A} (m : M (Storage C) A) : Prop :=
  ∀ s1 s2, holds d tr s1 → holds d tr s2 → holds d tr (m s1).1 ∧ (m s1).2 = (m s2).2.

Lemma determined_lift {A} (r : result A) : determined (lift r).
Proof. by intros s1 s2 ? ?. Qed.
Lemma determined_ret {A} (a : A) : determined (mret a).
Proof. by intros s1 s2 ? ?. Qed.
Lemma determined_query {A} (q : DB → result A) : determined (query q).
Proof. intros s1 s2 Hs1 Hs2. split; [done|]. simpl. by rewrite (proj1 Hs1), (proj1 Hs2). Qed.

(** The continuation is run on results of the first part. *)
Lemma determined_bind {A B} (m : M (Storage C) A) (f : A → M (Storage C) B) :
  determined m → (∀ s a, holds d tr s → (m s).2 = Ok a → determined (f a)) → determined (m ≫= f).
Proof.
  intros Hm Hf s1 s2 Hs1 Hs2. destruct (Hm s1 s2 Hs1 Hs2) as [Ht1 Hr]. destruct (Hm s2 s1 Hs2 Hs1) as [Ht2 _].
  specialize (Hf s1). unfold mbind, M_bind. destruct (m s1) as [t1 r1], (m s2) as [t2 r2]. simpl in *. subst r2.
  destruct r1 as [a|e|c]; [|done..]. by apply Hf.
Qed.

Lemma determined_try {A} (m : M (Storage C) A) : determined m → determined (try m).
Proof.
  intros Hm s1 s2 Hs1 Hs2. destruct (Hm s1 s2 Hs1 Hs2) as [Ht Hr]. unfold try.
  destruct (m s1) as [t1 r1], (m s2) as [t2 r2]. simpl in *. subst r2. by destruct r1.
Qed.
Lemma determined_wrap {A} msg (m : M (Storage C) A) : determined m → determined (wrap msg m).
Proof.
  intros Hm s1 s2 Hs1 Hs2. destruct (Hm s1 s2 Hs1 Hs2) as [Ht Hr]. unfold wrap.
  destruct (m s1) as [t1 r1], (m s2) as [t2 r2]. simpl in *. subst r2. by destruct r1.
Qed.

(** A stored batch. *)
Definition stored (b : Batch.t) : Prop := ∃ ab h, batches d !! h = Some ab ∧ b = ab_batch ab.

Lemma fetchBatch_stored q b : fetchBatch q d = Ok b → stored b.
Proof.
  intros Hb. destruct (fetchBatch_cases d q Hd) as [(h&r&ab&Hr&Hrow&_&Hf)|[_ Hf]]; rewrite Hf in Hb; [|done].
  injection Hb as <-. exists ab, h. split; [|done]. apply batches_lookup; eauto.
Qed.

Lemma stored_key b : stored b → ∃ ab, batches d !! Batch.hashOf b = Some ab ∧ b = ab_batch ab.
Proof.
  intros (ab&h&Hab&->). exists ab. split; [|done]. unfold Batch.hashOf. by rewrite <-(batch_key d h ab Hd Hab) in Hab.
Qed.

Lemma determined_CreateStateDB b : stored b → determined (CreateStateDB (Batch.hashOf b)).
Proof.
  intros (ab&Hab&_)%stored_key s1 s2 Hs1 Hs2.
  destruct (FetchBatch_spec s1 (Batch.hashOf b) (holds_ok d tr Hd s1 Hs1)) as (Hok1&Hsame1&Hr1).
  destruct (FetchBatch_spec s2 (Batch.hashOf b) (holds_ok d tr Hd s2 Hs2)) as (Hok2&Hsame2&Hr2).
  pose proof (holds_same d tr s1 _ Hs1 Hok1 Hsame1) as Ht1. pose proof (holds_same d tr s2 _ Hs2 Hok2 Hsame2) as Ht2.
  rewrite (proj1 Hs1), Hab in Hr1. rewrite (proj1 Hs2), Hab in Hr2.
  unfold CreateStateDB, mbind, M_bind. destruct (FetchBatch _ s1) as [t1 r1], (FetchBatch _ s2) as [t2 r2]. simpl in *.
  subst r1 r2. simpl. split; [done|]. by destruct Ht1 as (_&->&_), Ht2 as (_&->&_).
Qed.

Lemma query_stored msg f s b :
  holds d tr s → (∀ b, f d = Ok b → stored b) → (wrap msg (query f) s).2 = Ok b → stored b.
Proof. intros Hs Hf. unfold wrap, query. rewrite (proj1 Hs). destruct (f d) as [b'|e|c] eqn:Hb; [|done..]. intros [= <-]. eauto. Qed.

Lemma GetBatchAtHeight_stored n s b : holds d tr s → (GetBatchAtHeight n s).2 = Ok b → stored b.
Proof.
  intros Hs. unfold GetBatchAtHeight. repeat case_bool_decide; try done;
    apply query_stored; try done; intros b'; apply fetchBatch_stored.
Qed.

Lemma determined_GetBatchAtHeight n : determined (GetBatchAtHeight n).
Proof.
  unfold GetBatchAtHeight. repeat case_bool_decide; try (by intros s1 s2 ? ?);
    apply determined_wrap, determined_query.
Qed.

Lemma determined_GetBatchStateAtHeight n : determined (GetBatchStateAtHeight n).
Proof.
  apply determined_bind; [apply determined_GetBatchAtHeight|]. intros s b Hs Hb.
  apply determined_wrap, determined_CreateStateDB. by eapply GetBatchAtHeight_stored.
Qed.

Lemma determined_secret : determined secret.
Proof.
  apply determined_bind.
  - apply determined_try, determined_bind; [apply determined_query|]. intros s v _ _. apply determined_lift.
  - intros s [x|e] _ _; by intros s1 s2 ? ?.
Qed.

Lemma determined_ExecuteObsCall msg st b : stored b → determined (ExecuteObsCall msg st (Batch.Header b)).
Proof.
  intros (ab&h&Hab&->). apply determined_bind; [apply determined_secret|]. intros s sec _ _.
  intros s1 s2 Hs1 Hs2. unfold mbind, M_bind, gets, id. cbv zeta.
  rewrite (call_asked (chainOf s1) (chainOf s2)).
  - destruct (ApplyMessage _ _ _ _) as [[[e|] [r|]] err]; try done. by destruct (_ <? _)%nat.
  - intros h' Hask. apply (chainOf_eq d tr Hd); [done..|]. eapply (asked_not_block d tr Hd Hp s1); [done| |done].
    by apply (Hp h ab).
Qed.

Lemma determined_ObsCallAtBlock args n : determined (ObsCallAtBlock args n).
Proof.
  apply determined_bind; [apply determined_wrap, determined_lift|]. intros _ msg _ _.
  apply determined_bind; [apply determined_GetBatchStateAtHeight|]. intros _ st _ _.
  apply determined_bind; [apply determined_wrap, determined_GetBatchAtHeight|]. intros s b Hs Hb.
  apply determined_ExecuteObsCall. apply (GetBatchAtHeight_stored n s); [done|]. unfold wrap in Hb.
  by destruct (GetBatchAtHeight n s) as [? [?|?|?]].
Qed.

Lemma determined_gasCeiling args n cap : determined (gasCeiling args n cap).
Proof.
  unfold gasCeiling. destruct (bothFees args); [by intros s1 s2 ? ?|]. cbv zeta.
  apply determined_bind; [|intros; apply determined_ret]. destruct (_ =? 0); [apply determined_ret|].
  apply determined_bind; [apply determined_wrap, determined_bind; [apply determined_wrap, determined_GetBatchStateAtHeight|]|].
  { intros; apply determined_ret. }
  intros _ b _ _. apply determined_bind; [|intros; apply determined_ret].
  destruct (ta_Value args); [destruct (_ <=? _)|]; by intros s1 s2 ? ?.
Qed.

Lemma determined_isGasEnough args gas n : determined (isGasEnough args gas n).
Proof.
  apply determined_bind; [apply determined_try, determined_ObsCallAtBlock|].
  intros s [[[r|] [err|]]|err] _ _; try destruct (errors_Is _ _); by intros s1 s2 ? ?.
Qed.
End determined.

(** ** The search *)

Section search.
Context {C : Type} `{CacheOk C, StateModel, StorageCodecsOk, HashingOk, Keccak, CS : !Codec (list Z)}.
Context `{EV : !EVM, CL : !Calls, CLOK : !CallsOk}.
Context (args : TransactionArgs) (n : Z) (s0 : Storage C) (Hs0 : sound s0).
Implicit Types (s : Storage C).

(** What trying a limit gives. *)
Definition verdict (gas : Z) : result (bool * option ExecutionResult) := (isGasEnough args gas n s0).2.
Definition enough (gas : Z) : Prop := ∃ r, verdict gas = Ok (false, r).
Definition short (gas : Z) : Prop := ∃ r, verdict gas = Ok (true, r).

Abbreviation same := (holds (s_db s0) (s_tries s0)).

Lemma same_refl : same s0.
Proof. destruct Hs0 as [[Hd Hc] Hp]. by split. Qed.

Lemma isGasEnough_run s gas : same s → ∃ s', isGasEnough args gas n s = (s', verdict gas) ∧ same s'.
Proof.
  intros Hs. destruct Hs0 as [[Hd Hc] Hp].
  destruct (determined_isGasEnough _ _ Hd Hp args gas n s s0 Hs same_refl) as [Hs' Hr].
  exists (isGasEnough args gas n s).1. split; [|done]. unfold verdict. rewrite <-Hr. by destruct (isGasEnough args gas n s).
Qed.

(** The outcome of the search between two limits. *)
Definition found (lo hi : Z) (r : result Z) : Prop :=
  match r with
  | Ok g => g ≤ hi ∧ (g < hi → lo < g ∧ enough g) ∧ (lo + 1 < g → short (g - 1))
  | Err e => ∃ gas, lo < gas < hi ∧ verdict gas = Err e
  | Crash c => ∃ gas, lo < gas < hi ∧ verdict gas = Crash c
  end.

Lemma found_up lo mid hi r : lo < mid < hi → short mid → found mid hi r → found lo hi r.
Proof.
  intros Hmid Hshort. destruct r as [g|e|c]; simpl.
  - intros (Hg&Hlt&Hle). split; [done|]. split; [intros Hg'; destruct (Hlt Hg'); split; [lia|done]|].
    intros Hlo. destruct (decide (mid + 1 < g)) as [|Hn]; [auto|].
    destruct (decide (g < hi)) as [Hg'|]; [destruct (Hlt Hg')|]; (replace (g - 1) with mid by lia); done.
  - intros (gas&?&?). exists gas. split; [lia|done].
  - intros (gas&?&?). exists gas. split; [lia|done].
Qed.

Lemma found_down lo mid hi r : lo < mid < hi → enough mid → found lo mid r → found lo hi r.
Proof.
  intros Hmid Hen. destruct r as [g|e|c]; simpl.
  - intros (Hg&Hlt&Hle). split; [lia|]. split; [|done]. intros _. destruct (decide (g = mid)) as [->|]; [by split; [lia|]|].
    apply Hlt. lia.
  - intros (gas&?&?). exists gas. split; [lia|done].
  - intros (gas&?&?). exists gas. split; [lia|done].
Qed.

Lemma estimateLoop_S fuel lo hi :
  estimateLoop (C:=C) (S fuel) args n lo hi =
  if Int.u64 (lo + 1) <? hi then
    '(failed, _) ← isGasEnough args (Int.u64 (hi + lo) / 2) n;
    if (failed : bool) then estimateLoop fuel args n (Int.u64 (hi + lo) / 2) hi
    else estimateLoop fuel args n lo (Int.u64 (hi + lo) / 2)
  else mret hi.
Proof. done. Qed.

(** The distance of the limits halves in each turn. *)
Lemma estimateLoop_found : ∀ fuel lo hi s, same s → 0 ≤ lo → 0 ≤ hi → lo < 2 ^ 63 → hi < 2 ^ 63 →
  hi - lo ≤ 2 ^ (Z.of_nat fuel) →
  ∃ s' r, estimateLoop (S fuel) args n lo hi s = (s', r) ∧ same s' ∧ found lo hi r.
Proof.
  intros fuel. induction fuel as [|fuel IH]; intros lo hi s Hs Hlo Hhi Hlo' Hhi' Hdist; rewrite estimateLoop_S;
    rewrite (Int.u64_id (lo + 1)) by (unfold Int.is_u64, Int.two64 in *; lia);
    (destruct (Z.ltb_spec (lo + 1) hi); [|exists s, (Ok hi); split; [done|]; split; [done|]; simpl; split_and!; lia]).
  { simpl in Hdist. lia. }
  rewrite (Int.u64_id (hi + lo)) by (unfold Int.is_u64, Int.two64 in *; lia).
  assert (lo < (hi + lo) / 2 < hi) as Hmid by (pose proof (Z.div_mod (hi + lo) 2); pose proof (Z.mod_pos_bound (hi + lo) 2); lia).
  rewrite Nat2Z.inj_succ, Z.pow_succ_r in Hdist by lia.
  assert (hi - (hi + lo) / 2 ≤ 2 ^ Z.of_nat fuel ∧ (hi + lo) / 2 - lo ≤ 2 ^ Z.of_nat fuel) as [Hup Hdown].
  { pose proof (Z.div_mod (hi + lo) 2). pose proof (Z.mod_pos_bound (hi + lo) 2). lia. }
  destruct (isGasEnough_run s ((hi + lo) / 2) Hs) as (s1&Hrun&Hs1). unfold mbind, M_bind at 1. rewrite Hrun.
  destruct (verdict ((hi + lo) / 2)) as [[failed res]|e|c] eqn:Hv.
  2:{ exists s1, (Err e). split; [done|]. split; [done|]. by eexists. }
  2:{ exists s1, (Crash c). split; [done|]. split; [done|]. by eexists. }
  destruct failed.
  - destruct (IH ((hi + lo) / 2) hi s1) as (s2&r&Hr&Hs2&Hf); [done|lia..|]. exists s2, r. split; [done|]. split; [done|].
    eapply found_up; [done|by exists res|done].
  - destruct (IH lo ((hi + lo) / 2) s1) as (s2&r&Hr&Hs2&Hf); [done|lia..|]. exists s2, r. split; [done|]. split; [done|].
    eapply found_down; [done|by exists res|done].
Qed.
End search.

Section estimate.
Context {C : Type} `{CacheOk C, StateModel, StorageCodecsOk, HashingOk, Keccak, CS : !Codec (list Z)}.
Context `{EV : !EVM, CL : !Calls, CLOK : !CallsOk}.
Implicit Types (s : Storage C).

(** A result that comes back from a call carries no revert data: those are an
    error already. *)
Lemma ExecuteObsCall_no_revert msg st hd :
  yields (λ _, True) (ExecuteObsCall (C:=C) msg st hd) (λ p, match p.1 with Some r => Revert r = [] | None => True end).
Proof.
  eapply yields_seq; [by apply preserves_yields|]. intros sec _. eapply yields_seq; [by apply preserves_yields|]. intros s _.
  cbv beta zeta. destruct (ApplyMessage _ _ _ _) as [[[e|] [r|]] err]; try by apply yields_ret.
  destruct (Nat.ltb_spec 0 (length (Revert r))); apply yields_ret; [done|]. simpl. destruct (Revert r); [done|simpl in *; lia].
Qed.

Lemma isGasEnough_no_revert args gas n :
  yields (λ _, True) (isGasEnough (C:=C) args gas n)
    (λ p, match p.2 with Some r => p.1 = Failed r ∧ Revert r = [] | None => p.1 = true end).
Proof.
  eapply yields_seq; [apply yields_try|].
  - do 3 (eapply yields_seq; [by apply preserves_yields|]; intros ? _). apply ExecuteObsCall_no_revert.
  - intros [[[r|] [err|]]|err] Hr; try destruct (errors_Is _ _); try apply yields_fail; try apply yields_crash; by apply yields_ret.
Qed.

(** The search starts within the limits of the enclave. *)
Lemma gasCeiling_range args n :
  match ta_Gas args with Some gas => 0 ≤ gas | None => True end →
  yields (λ _ : Storage C, True) (gasCeiling args n GlobalGasCap) (λ cap, 0 ≤ cap ≤ GlobalGasCap).
Proof.
  intros Hgas. unfold gasCeiling. destruct (bothFees args); [apply yields_fail|]. cbv zeta.
  eapply (yields_seq _ _ _ (λ hi, 0 ≤ hi)).
  - assert (0 ≤ match ta_Gas args with Some gas => if TxGas <=? gas then gas else GlobalGasCap | None => GlobalGasCap end) as Hhi.
    { destruct (ta_Gas args) as [g|]; [destruct (_ <=? _)|]; unfold GlobalGasCap; lia. }
    destruct (_ =? 0); [by apply yields_ret|]. do 2 (eapply yields_seq; [by apply preserves_yields|]; intros ? _).
    apply yields_ret. destruct (0 <=? _) eqn:E0; [|done]. simpl. destruct (_ && _); [by apply Z.leb_le|done].
  - intros hi Hhi. apply yields_ret. destruct (Z.ltb_spec GlobalGasCap hi); unfold GlobalGasCap in *; simpl; lia.
Qed.

(** The outcome of an estimate up to [cap]. *)
Definition estimated (args : TransactionArgs) (n : Z) s (cap : Z) (r : result Z) : Prop :=
  match r with
  | Ok g => g ≤ cap ∧ enough args n s g ∧ (TxGas < g → short args n s (g - 1))
  | Err e => short args n s cap ∨ ∃ gas, gas ≤ cap ∧ verdict args n s gas = Err e
  | Crash c => ∃ gas, gas ≤ cap ∧ verdict args n s gas = Crash c
  end.

Lemma estimateBelow_estimated fuel args n s cap :
  sound s → 0 ≤ cap ≤ GlobalGasCap → (34 ≤ fuel)%nat →
  ∀ s1, holds (s_db s) (s_tries s) s1 → estimated args n s cap (estimateBelow fuel args n cap s1).2.
Proof.
  intros Hs Hcap Hfuel s1 Hs1. destruct fuel as [|k]; [lia|].
  destruct (estimateLoop_found args n s Hs k (TxGas - 1) cap s1 Hs1) as (s2&r&Hrun&Hs2&Hf).
  1-4: unfold TxGas, GlobalGasCap in *; lia.
  { transitivity (2 ^ 33); [unfold TxGas, GlobalGasCap in *; lia|]. apply Z.pow_le_mono_r; lia. }
  unfold estimateBelow, mbind, M_bind at 1. rewrite Hrun. destruct r as [g|e|c]; simpl in Hf.
  2:{ destruct Hf as (gas&Hgas&Hv). right. exists gas. split; [lia|done]. }
  2:{ destruct Hf as (gas&Hgas&Hv). exists gas. split; [lia|done]. }
  destruct Hf as (Hg&Hlt&Hle). destruct (Z.eqb_spec g cap) as [->|Hne].
  2:{ simpl. destruct Hlt as [_ Hen]; [lia|]. split; [done|]. split; [done|]. intros. apply Hle. lia. }
  destruct (isGasEnough_run args n s Hs s2 cap Hs2) as (s3&Hrun3&_). unfold mbind, M_bind. rewrite Hrun3.
  destruct (isGasEnough_no_revert args cap n s2 I) as [_ Hres]. rewrite Hrun3 in Hres.
  destruct (verdict args n s cap) as [[failed res]|e|c] eqn:Hv.
  2:{ right. by exists cap. }
  2:{ by exists cap. }
  specialize (Hres _ eq_refl). simpl in Hres. destruct failed.
  2:{ split; [done|]. split; [by exists res|]. intros. apply Hle. lia. }
  assert (short args n s cap) as Hshort by (by exists res).
  destruct res as [r|]; [|by left]. destruct Hres as [HF _]. unfold Failed in HF. destruct (er_Err r); [|done].
  case_bool_decide; [by left|]. destruct (_ <? _)%nat; by left.
Qed.

(** C14: The gas estimate terminates within 34 turns for every limit of the enclave
    and stays below the ceiling.  The limit it returns is enough and,
    above the cost of a plain transaction, one unit less is not.  Where success is
    monotone in the gas it is the least limit that is enough, and it is found
    whenever there is one.  An error is that of a limit that was tried, or the
    highest limit is short. *)
Theorem DoEstimateGas_least fuel args n s s1 cap :
  let args' := set_From (args_from args) args in
  let outcome := (DoEstimateGas fuel args n GlobalGasCap s).2 in
  sound s → match ta_Gas args with Some gas => 0 ≤ gas | None => True end → (34 ≤ fuel)%nat →
  gasCeiling args' n GlobalGasCap s = (s1, Ok cap) →
  0 ≤ cap ≤ GlobalGasCap ∧ estimated args' n s cap outcome ∧
  ∀ need, TxGas ≤ need ≤ cap →
    (∀ gas, gas ≤ cap → if decide (need ≤ gas) then enough args' n s gas else short args' n s gas) → outcome = Ok need.
Proof.
  intros args' outcome Hs Hgas Hfuel Hcap.
  assert (0 ≤ cap ≤ GlobalGasCap) as Hrange.
  { destruct (gasCeiling_range args' n Hgas s I) as [_ Hr]. apply Hr. by rewrite Hcap. }
  assert (estimated args' n s cap outcome) as Hest.
  { unfold outcome, DoEstimateGas. fold args'. rewrite (bind_eq _ _ _ _ _ Hcap).
    apply estimateBelow_estimated; [done..|]. destruct Hs as [[Hd Hc] Hp].
    destruct (determined_gasCeiling _ (s_tries s) Hd args' n GlobalGasCap s s) as [Hs1 _]; [done..|]. by rewrite Hcap in Hs1. }
  split; [done|]. split; [done|]. intros need Hneed Hmono.
  assert (∀ gas, enough args' n s gas → short args' n s gas → False) as Hnot by (intros gas [? E1] [? E2]; congruence).
  assert (∀ gas e, gas ≤ cap → verdict args' n s gas = Err e → False) as HErr.
  { intros gas e Hle Hv. specialize (Hmono gas Hle). case_decide; destruct Hmono as [? E]; congruence. }
  destruct outcome as [g|e|c]; simpl in Hest.
  - destruct Hest as (Hle&Hen&Hshort). f_equal. destruct (Z.lt_trichotomy g need) as [Hlt|[|Hgt]]; [exfalso|done|exfalso].
    + specialize (Hmono g Hle). rewrite decide_False in Hmono by lia. eauto.
    + specialize (Hmono (g - 1)). rewrite decide_True in Hmono by lia. apply (Hnot (g - 1)); [apply Hmono; lia|apply Hshort; lia].
  - exfalso. destruct Hest as [Hshort|(gas&Hle&Hv)]; [|by apply (HErr gas e)].
    specialize (Hmono cap). rewrite decide_True in Hmono by lia. apply (Hnot cap); [apply Hmono; lia|done].
  - destruct Hest as (gas&Hle&Hv). specialize (Hmono gas Hle). exfalso. case_decide; destruct Hmono as [? E]; congruence.
Qed.
End estimate.
