(* ===== verification/ServiceInv.v ===== *)
(** * The handlers keep the invariant

    The invariant of [NodeInv] through the sequencer, the validator, the rollups
    and the handlers of the service; the states an enclave can reach. *)

From S2P Require Import Prelude Types Codec Bytes L1Chain EnclaveDB BatchDB Events Storage StorageInv StorageOps StorageSpec CrossChain BlockProcessor Reads Executor ExecutorSpec Mempool Registry Params L2Chain RollupCompression Rollups Sequencer Validator SequencerSpec ViewingKeys Subscriptions Service RPC NodeInv RPCSpec.
Local Open Scope Z_scope.

(** Take a computation apart; what is left are its writes. *)
Ltac node_step :=
  lazymatch goal with
  | |- preserves _ (mret _) => apply preserves_ret
  | |- preserves _ (fail _) => apply preserves_fail
  | |- preserves _ (crash _) => apply preserves_crash
  | |- preserves _ (gets _) => apply preserves_gets
  | |- preserves _ (lift _) => apply preserves_lift
  | |- preserves _ (on_registry _) => apply on_registry_node
  | |- preserves _ (on_mempool _) => apply on_mempool_node
  | |- preserves _ (_ ≫= _) => apply preserves_bind; [|intros ?]
  | |- preserves _ (try _) => apply preserves_try
  | |- preserves _ (wrap _ _) => apply preserves_wrap
  | |- preserves _ (when _ _) => apply preserves_when
  | |- preserves _ (ToInternalError _) => apply preserves_ToInternalError
  | |- preserves _ (on_storage _) => apply on_storage_node
  end.

Section handlers.
Context {C : Type} `{CacheOk C, StateModel, StorageCodecsOk, HashingOk, MB : MessageBus}.
Context `{OW : !OwnerWallet, Keccak, EV : !EVM, EVOK : !EVMOk, CS : !Codec (list Z), RollupCodecs, BlobServices, Signatures}.
Context `{MgmtABI, AT : !Attestations, CE : !Codec ExtRollup, ViewingCrypto, SubscriptionCodecs}.
Context `{GE : GethEncoding, CL : !Calls, TF : TxFields, RC : ResponseCodecs}.
Context (l1_hash : Hash → Prop).
Hypothesis l1_batch : ∀ h : BatchHeader, ¬ l1_hash (BatchHeader_Hash h).
Hypothesis l1_empty : ¬ l1_hash EmptyHash.
Hypothesis nonces : ∀ (tx : L2Tx) v, rlp_encode tx = Some v → 0 <= tx_nonce tx.
Context (fuel : nat) (cfg : EnclaveConfig) (AuthSender : L2Tx → option Address) (iterate : Mempool.t → list L2Tx).
Context (iterateSubs : Subscriptions → list (string * LogSubscription)).
Implicit Types (s : Storage C) (e : Enclave C) (sv : Service C).

Abbreviation inv := (node_inv l1_hash).
Abbreviation ok := (enclave_ok l1_hash).

(** *** The sequencer *)

(** A batch a component may store. *)
Definition may_store (b : Batch.t) : Prop := committed b ∧ ¬ l1_hash (ParentHash (Batch.Header b)).

Lemma store_batch b : may_store b → preserves inv (StoreBatch b).
Proof. intros [Hb Hp]. by apply StoreBatch_node. Qed.

Lemma sequencer_StoreExecutedBatch_ok b rs : may_store b → preserves ok (sequencer_StoreExecutedBatch b rs).
Proof.
  intros Hb. unfold sequencer_StoreExecutedBatch, FetchBatchHeader. node_step.
  - do 2 node_step. apply keeps_node. auto with keeps.
  - destruct a; repeat node_step; [by apply store_batch|apply StoreExecutedBatch_node].
Qed.

Lemma produceBatch_ok c seq l1 head txs time :
  - 2 ^ 63 <= seq < 2 ^ 64 → preserves ok (produceBatch fuel c seq l1 head txs time).
Proof.
  intros Hseq. unfold produceBatch. eapply yields_bind; [apply on_storage_yields, yields_wrap, ComputeBatch_yields|].
  intros cb (parent&Hc&Hnum). node_step; [repeat node_step; apply keeps_node; unfold Commit; auto with keeps|].
  eapply yields_bind; [apply yields_wrap, (yields_lift _ _ may_store)|].
  - intros sb Hsb. eapply signBatch_committed; [|exact Hsb]. by eapply computed_committed.
  - intros sb Hsb. repeat node_step. by apply sequencer_StoreExecutedBatch_ok.
Qed.

Lemma initGenesis_ok c now block : preserves ok (initGenesis c AuthSender now block).
Proof.
  unfold initGenesis. eapply yields_bind; [by apply on_storage_yields, CreateGenesisState_yields|].
  intros [b tx] Hb. cbn [fst] in Hb. node_step; [repeat node_step|].
  eapply yields_bind; [apply yields_wrap, (yields_lift _ _ may_store)|].
  - intros sb Hsb. by eapply signBatch_committed.
  - intros sb Hsb. node_step. by apply sequencer_StoreExecutedBatch_ok.
Qed.

Lemma createNewHeadBatch_ok c now l1 : preserves ok (createNewHeadBatch fuel c AuthSender iterate now l1).
Proof.
  unfold createNewHeadBatch. node_step; [node_step; apply keeps_node; unfold FetchHeadBatch; auto with keeps|].
  node_step; [node_step; apply keeps_node; apply keeps_FetchBlock|].
  node_step; [node_step; apply keeps_node; auto with keeps|]. destruct (negb _); [node_step|].
  node_step; [repeat node_step; apply keeps_node; auto with keeps|]. node_step; [by intros e He|].
  eapply yields_bind; [apply on_storage_yields, FetchCurrentSequencerNo_yields|]. cbn beta. intros n Hn.
  node_step; [node_step; apply produceBatch_ok; lia|node_step].
Qed.

Lemma CreateBatch_ok c now : preserves ok (CreateBatch fuel c AuthSender iterate now).
Proof.
  unfold CreateBatch. node_step.
  - do 2 node_step. apply keeps_node. unfold HasGenesisBatch, FetchHeadBatch. apply keeps_bind; [auto with keeps|].
    intros [?|?]; [apply keeps_ret|]. destruct (errors_Is _ _); auto with keeps.
  - node_step; [repeat node_step; apply keeps_node; unfold GetHead, storage_FetchHeadBlock; auto with keeps|].
    destruct (negb a); [apply initGenesis_ok|apply createNewHeadBatch_ok].
Qed.

Lemma batchesOnPath_keeps path : keeps_db (batchesOnPath path : M (Storage C) _).
Proof.
  induction path as [|h path IH]; cbn [batchesOnPath]; [apply keeps_ret|].
  apply keeps_bind; [apply keeps_try; unfold FetchBatchesByBlock; auto with keeps|]. intros [bs|err].
  - apply keeps_bind; [done|]. intros. apply keeps_ret.
  - destruct (errors_Is _ _); [done|apply keeps_fail].
Qed.

Lemma duplicateLoop_ok c l1 orphans : ∀ head prev, preserves ok (duplicateLoop fuel c l1 head prev orphans).
Proof.
  induction orphans as [|b orphans IH]; intros head prev; cbn [duplicateLoop]; [node_step|].
  destruct (match prev with Some _ => _ | None => _ end); [node_step|].
  eapply yields_bind; [apply yields_wrap, on_storage_yields, FetchCurrentSequencerNo_yields|]. cbn beta. intros n Hn.
  node_step; [node_step; apply produceBatch_ok; lia|apply IH].
Qed.

Lemma sequencer_OnL1Fork_ok c fork : preserves ok (sequencer_OnL1Fork fuel c fork).
Proof.
  unfold sequencer_OnL1Fork. destruct (negb _); [node_step|]. node_step.
  - node_step. unfold duplicateBatches. node_step; [node_step; apply keeps_node, batchesOnPath_keeps|].
    destruct (merge_sort _ _); [node_step|apply duplicateLoop_ok].
  - node_step; [node_step; apply keeps_node; unfold storage_FetchReorgedRollup; auto with keeps|].
    destruct a0; [node_step|]. destruct (errors_Is _ _); node_step.
Qed.

(** *** The validator *)

Lemma ExecuteStoredBatches_ok g : preserves ok (ExecuteStoredBatches fuel g).
Proof.
  unfold ExecuteStoredBatches. node_step; [do 2 node_step; apply keeps_node; unfold FetchCanonicalUnexecutedBatches; auto with keeps|].
  destruct a as [bs|err]; [|destruct (errors_Is _ _); node_step]. apply preserves_forM. intros b _. unfold executeStoredBatch.
  node_step; [node_step; unfold handleGenesis; node_step|].
  - node_step. apply keeps_node. auto with keeps.
  - destruct a as [gb tx]. case_bool_decide; repeat node_step. apply StoreExecutedBatch_node.
  - node_step; [repeat node_step; apply keeps_node; auto with keeps|]. destruct a0; [|node_step].
    repeat node_step; [apply keeps_node; auto with keeps|apply StoreExecutedBatch_node].
Qed.

(** *** Rollups *)

(** The reorged headers of a rollup commit to the transactions it carries for
    them, as those of a rollup made by the sequencer do. *)
Definition rollup_honest (r : ExtRollup) : Prop :=
  ∀ (txs : list (list L2Tx)) header i ts hd,
    decryptDecompressAndDeserialise (BatchPayloads r) = Ok txs →
    decryptDecompressAndDeserialise (CalldataRollupHeaderBlob r) = Ok header →
    txs !! i = Some ts → reorgOf header i = Ok (Some hd) → may_store (Batch.mk hd None ts).

(** What is recovered for each batch. *)
Definition recovered_ok (ib : batchFromRollup) : Prop :=
  - 2 ^ 63 <= fr_seqNo ib < 2 ^ 63 ∧
  ∀ hd, fr_header ib = Some hd → may_store (Batch.mk hd None (fr_transactions ib)).

Lemma incompleteLoop_yields header block txs : ∀ idx h t l1,
  (∀ i ts hd, txs !! i = Some ts → reorgOf header (idx + i) = Ok (Some hd) → may_store (Batch.mk hd None ts)) →
  yields inv (incompleteLoop fuel header block txs idx h t l1) (Forall recovered_ok).
Proof.
  induction txs as [|ts txs IH]; intros idx h t l1 Hok s Hs; cbn [incompleteLoop]; [by split; [|intros a [= <-]]|].
  unfold mbind, M_bind, lift. destruct (index (L1HeightDeltas header) idx) as [encL1|?|?]; [|done..].
  destruct (Gob.GobDecode encL1) as [l1Delta|?|?]; [|done..].
  set (l1Height := match l1 with Some p => _ | None => _ end).
  pose proof (keeps_node l1_hash _ (keeps_getAncestorOfHeight fuel l1Height block) s Hs) as Hs1.
  destruct (getAncestorOfHeight fuel l1Height block s) as [s1 [b|?|?]]; cbn [fst] in Hs1; [|done..].
  destruct (index (BatchTimeDeltas header) idx) as [encTime|?|?]; [|done..].
  destruct (Gob.GobDecode encTime) as [timeDelta|?|?]; [|done..].
  destruct (reorgOf header idx) as [re|?|?] eqn:Hre; [|done..].
  assert (∀ h' t' l1', yields inv (incompleteLoop fuel header block txs (S idx) h' t' l1') (Forall recovered_ok)) as Hrec.
  { intros h' t' l1'. apply IH. intros i ts' hd Hi Hr. apply (Hok (S i) ts' hd); [done|]. by rewrite Nat.add_succ_r. }
  match goal with |- context [incompleteLoop fuel header block txs (S idx) ?h' ?t' ?l1' s1] =>
    destruct (Hrec h' t' l1' s1 Hs1) as [Hs2 Hrest]; destruct (incompleteLoop fuel header block txs (S idx) h' t' l1' s1) as [s2 [rest|?|?]] end;
    cbn [fst snd] in *; [|done..].
  split; [done|]. intros a [= <-]. constructor; [|by apply Hrest]. split; cbn [fr_seqNo fr_header fr_transactions].
  - pose proof (Int.i64_range (Int.i64 (FirstBatchSequence header) + Z.of_nat idx)) as Hr. unfold Int.is_i64 in Hr. lia.
  - intros hd ->. apply (Hok 0%nat ts hd); [done|]. by rewrite Nat.add_0_r.
Qed.

Lemma saveIncompleteBatch_ok g parentHash ib : recovered_ok ib → preserves ok (saveIncompleteBatch fuel g parentHash ib).
Proof.
  intros [Hseq Hhd]. unfold saveIncompleteBatch.
  node_step; [do 2 node_step; apply keeps_node; unfold FetchBatchBySeqNo; auto with keeps|].
  destruct a as [b|err]; [node_step|]. destruct (negb _); [node_step|]. case_bool_decide.
  - eapply yields_bind; [by apply on_storage_yields, CreateGenesisState_yields|]. intros [gb tx] Hgb. cbn [fst] in Hgb.
    repeat node_step; [by apply store_batch|apply StoreExecutedBatch_node].
  - destruct (fr_header ib) as [hd|]; [repeat node_step; by apply store_batch, Hhd|].
    eapply yields_bind; [apply on_storage_yields; unfold computeBatch; apply ComputeBatch_yields|]. intros cb (parent&Hc&Hnum).
    repeat node_step; [apply keeps_node; unfold Commit; auto with keeps| |apply StoreExecutedBatch_node].
    apply store_batch. eapply computed_committed; [done..|]. cbn [SequencerNo]. lia.
Qed.

Lemma ProcessExtRollup_ok g r : rollup_honest r → preserves ok (ProcessExtRollup fuel g r).
Proof.
  intros Hr. unfold ProcessExtRollup. eapply (yields_bind _ _ _ (λ txs, decryptDecompressAndDeserialise (BatchPayloads r) = Ok txs));
    [by apply yields_lift|]. intros txs Htxs.
  eapply (yields_bind _ _ _ (λ header, decryptDecompressAndDeserialise (CalldataRollupHeaderBlob r) = Ok header));
    [by apply yields_lift|]. intros header Hheader.
  eapply (yields_bind _ _ _ (Forall recovered_ok)).
  - apply on_storage_yields. intros s Hs. unfold createIncompleteBatches, mbind, M_bind.
    pose proof (keeps_node l1_hash _ (keeps_FetchBlock (CompressionL1Head (ext_rollup_header r))) s Hs) as Hs1.
    unfold FetchBlock, storage_resolver in Hs1. destruct (storage_FetchBlock _ s) as [s1 [b|?|?]]; [|done..].
    apply incompleteLoop_yields; [|done]. intros i ts hd Hi Hre. by apply (Hr txs header i ts hd).
  - intros ibs Hibs. node_step; [|node_step]. unfold executeAndSaveIncompleteBatches. node_step.
    { case_bool_decide; repeat node_step. apply keeps_node. auto with keeps. }
    generalize (FirstCanonParentHash header) as parentHash. induction Hibs as [|ib ibs Hib _ IH]; intros parentHash; cbn [saveLoop]; [node_step|].
    node_step; [by apply saveIncompleteBatch_ok|apply IH].
Qed.

Lemma CheckSequencerSignature_ok id h r sg : preserves ok (CheckSequencerSignature id h r sg : M (Enclave C) unit).
Proof.
  unfold CheckSequencerSignature. destruct r as [r|], sg as [sg|]; [|node_step..]. node_step; [node_step|].
  node_step; [|destruct (ecdsa_Verify _ _ _ _); node_step]. destruct a as [key|]; [node_step|]. repeat node_step.
  - apply keeps_node. unfold FetchAttestedKey. auto with keeps.
  - by intros e He.
Qed.

Lemma ProcessRollupsInBlock_ok g id br :
  (∀ rs, extractRollups br = Ok rs → Forall rollup_honest rs) → preserves ok (ProcessRollupsInBlock fuel g id br).
Proof.
  intros Hrs. unfold ProcessRollupsInBlock.
  eapply (yields_bind _ _ _ (Forall rollup_honest)); [by apply yields_lift|]. intros rs Hall. destruct rs as [|r rs]; [node_step|].
  assert (∀ l, Forall rollup_honest l → yields ok (getSignedRollup id l) (Forall rollup_honest)) as Hsigned.
  { induction 1 as [|x l Hx _ IH]; intros e He; cbn [getSignedRollup]; [by split; [|intros a [= <-]]|]. unfold mbind, M_bind.
    pose proof (preserves_wrap ok "rollup signature was invalid" _ (CheckSequencerSignature_ok id (ExtRollup_Hash x)
      (Some (rollupR (ext_rollup_header x))) (Some (rollupS (ext_rollup_header x)))) e He) as He1.
    destruct (wrap _ _ e) as [e1 [[]|?|?]]; [|done..]. destruct (IH e1 He1) as [He2 Hl].
    destruct (getSignedRollup id l e1) as [e2 [l'|?|?]]; [|done..]. split; [done|]. intros a [= <-]. constructor; [done|by apply Hl]. }
  eapply yields_bind; [by apply Hsigned|]. intros rs' Hrs'. apply preserves_forM. intros x Hx. unfold processRollup.
  node_step; [apply ProcessExtRollup_ok; by eapply Forall_forall in Hrs'|node_step; apply StoreRollup_node].
Qed.

(** *** Secrets *)

Lemma storeAttestation_ok att : preserves inv (storeAttestation att).
Proof. unfold storeAttestation. destruct (DecompressPubkey _); repeat node_step. apply StoreAttestedKey_node. Qed.

Lemma ProcessNetworkSecretMsgs_ok br : preserves inv (ProcessNetworkSecretMsgs br).
Proof.
  unfold ProcessNetworkSecretMsgs. node_step; [node_step|]. induction a as [|tx txs IH]; cbn [secretLoop]; [node_step|].
  node_step; [node_step|]. destruct a as [[]|]; try done.
  - node_step; [|repeat node_step; done]. node_step. unfold processSecretRequest. destruct (rlp_decode _); [|node_step].
    repeat node_step; [unfold verifyAttestationAndEncryptSecret; repeat node_step|apply storeAttestation_ok].
    apply keeps_node. unfold FetchSecret. auto with keeps.
  - repeat node_step; [apply storeAttestation_ok|done].
Qed.

(** *** Rollups made *)

Definition limited_ok (p : Storage C * rollupLimiter) : Prop := inv p.1.

Lemma from_storage_ok {A} (m : M (Storage C) A) : keeps_db m → preserves limited_ok (from_storage m).
Proof.
  intros Hm [s l] Hs. pose proof (keeps_node l1_hash m Hm s Hs) as Hs'. unfold from_storage, zoom. cbn [fst].
  by destruct (m s).
Qed.
Lemma from_limiter_ok {A} (m : M rollupLimiter A) : preserves limited_ok (from_limiter (C:=C) m).
Proof. intros [s l] Hs. unfold from_limiter, zoom. cbn [snd]. by destruct (m l). Qed.

Lemma batchesLoop_ok n headSeq upTo : ∀ cur acc, preserves limited_ok (batchesLoop n headSeq upTo cur acc).
Proof.
  induction n as [|n IH]; intros cur acc; cbn [batchesLoop]; [node_step|]. destruct (headSeq <? cur); [node_step|].
  node_step; [apply from_storage_ok; unfold FetchBatchBySeqNo; auto with keeps|].
  node_step; [apply from_storage_ok; auto with keeps|]. { apply keeps_wrap, keeps_FetchBlock. }
  destruct (upTo <? _); [node_step|]. node_step; [apply from_limiter_ok|]. destruct (negb _); [node_step|apply IH].
Qed.

Lemma CreateRollup_ok id from upTo : preserves limited_ok (CreateRollup fuel id from upTo).
Proof.
  unfold CreateRollup. node_step.
  - node_step. unfold BatchesAfter. node_step; [apply from_storage_ok; unfold FetchHeadBatch; auto with keeps|].
    destruct (_ <? from); [node_step|]. node_step; [apply batchesLoop_ok|]. destruct (match a0 with [] => _ | _ => _ end); node_step.
  - destruct (last a); [|node_step]. node_step; [|node_step]. apply from_storage_ok.
    unfold FetchCanonicaBlockByHeight. apply keeps_bind; [apply keeps_query|]. intros. apply keeps_FetchBlock.
Qed.

Lemma rollupLoop_keeps bs : ∀ t l1, keeps_db (rollupLoop bs t l1 : M (Storage C) _).
Proof.
  induction bs as [|b bs IH]; intros t l1; cbn [rollupLoop]; [apply keeps_ret|].
  apply keeps_bind; [unfold FetchBatchByHeight; auto with keeps|]. intros can.
  apply keeps_bind; [apply keeps_FetchBlock|]. intros blk. apply keeps_bind; [apply IH|]. intros. apply keeps_ret.
Qed.

Lemma CreateExtRollup_keeps r : keeps_db (CreateExtRollup r : M (Storage C) _).
Proof.
  unfold CreateExtRollup. apply keeps_bind; [|intros; repeat (apply keeps_bind; [apply keeps_lift|intros]); apply keeps_ret].
  unfold createRollupHeader. destruct (rollup_batches r) as [|first bs]; [apply keeps_crash|].
  apply keeps_bind; [apply rollupLoop_keeps|]. intros. apply keeps_bind; [apply keeps_lift|]. intros. apply keeps_ret.
Qed.

Lemma sequencer_CreateRollup_ok c n : preserves ok (sequencer_CreateRollup fuel c n).
Proof.
  unfold sequencer_CreateRollup. node_step; [node_step; apply keeps_node; unfold storage_FetchHeadBlock; auto with keeps|].
  node_step; [node_step|].
  - intros s Hs. pose proof (CreateRollup_ok (sequencerID c) n (Int.u64 (Block_NumberU64 a - RollupDelay))
      (s, NewRollupLimiter (MaxRollupSize c)) Hs) as Hs'. by destruct (CreateRollup _ _ _ _ _) as [[s' l'] r].
  - node_step; [repeat node_step|]. node_step. apply keeps_node, CreateExtRollup_keeps.
Qed.

(** ** The service *)

(** The enclave is well formed, and every subscription has a key its account
    signed. *)
Definition service_ok sv : Prop := ok (sv_enclave sv) ∧ subs_ok (sv_subscriptions sv).

Lemma on_enclave_ok {A} (m : M (Enclave C) A) : preserves ok m → preserves service_ok (on_enclave m).
Proof. intros Hm sv [He Hs]. specialize (Hm _ He). unfold on_enclave, zoom. by destruct (m (sv_enclave sv)). Qed.

Lemma on_database_ok {A} (m : M (Storage C) A) : keeps_db m → preserves service_ok (on_database m).
Proof. intros Hm. by apply on_enclave_ok, on_storage_node, keeps_node. Qed.

Lemma unless_stopping_ok {A} msg (m : M (Service C) A) : preserves service_ok m → preserves service_ok (unless_stopping msg m).
Proof. intros Hm sv Hs. unfold unless_stopping. destruct (sv_stopping sv); [done|by apply Hm]. Qed.

Lemma rejecting_ok {A} (m : M (Service C) A) sv : service_ok (m sv).1 → service_ok (rejecting m sv).1.
Proof.
  intros Hm. unfold rejecting, mbind at 1, M_bind, try. destruct (m sv) as [sv1 [a|err|c]]; cbn [fst] in Hm; [done| |done].
  revert sv1 Hm. change (preserves service_ok (e ← rejectBlockErr (ErrWrap "could not submit L1 block" err); fail (A:=A) e)).
  unfold rejectBlockErr. repeat node_step. apply on_database_ok. unfold storage_FetchHeadBlock. auto with keeps.
Qed.

Lemma rejecting_lift_Err {A} err sv sv' (a : A) : rejecting (lift (Err err)) sv ≠ (sv', Ok a).
Proof.
  intros Hr. unfold rejecting in Hr. apply bind_Ok in Hr as (sv1&r&Ht&Hr). injection Ht as <- <-.
  by apply bind_Ok in Hr as (sv2&e&_&Hr).
Qed.

(** An L1 block the enclave may be given: of the L1 chain, and its rollups are
    those of the sequencer. *)
Record l1_input sv (block : L1Block) (receipts : list (option Receipt)) : Prop := {
  li_hash : l1_hash (Block_Hash block);
  li_valid : valid_block (e_storage (sv_enclave sv)) block;
  li_fuel : enough_fuel (e_storage (sv_enclave sv)) block fuel;
  li_rollups : ∀ br rs, BlockAndReceipts.ParseBlockAndReceipts block receipts = Ok br →
    extractRollups br = Ok rs → Forall rollup_honest rs
}.

Lemma ingestL1Block_ok br e :
  ok e → valid_block (e_storage e) (BlockAndReceipts.Block br) → enough_fuel (e_storage e) (BlockAndReceipts.Block br) fuel →
  l1_hash (Block_Hash (BlockAndReceipts.Block br)) → (∀ rs, extractRollups br = Ok rs → Forall rollup_honest rs) →
  ok (ingestL1Block fuel cfg br e).1.
Proof.
  intros He Hval Hfuel Hl1 Hrs. unfold ingestL1Block, mbind at 1, M_bind. rewrite on_storage_run.
  pose proof (Process_node l1_hash fuel (MessageBusAddress cfg) br (e_storage e) He Hval Hfuel Hl1) as Hs1.
  destruct (Process fuel (MessageBusAddress cfg) br (e_storage e)) as [s1 [ing|err|c]]; cbn [fst snd] in *; [|done..].
  assert (ok (set_storage s1 e)) as He1 by done. revert He1. generalize (set_storage s1 e). clear Hs1.
  match goal with |- ∀ e1, ok e1 → ok (?m e1).1 => change (preserves ok m) end.
  node_step; [node_step; by apply ProcessRollupsInBlock_ok|]. node_step; [|node_step].
  destruct (ingestion_fork ing) as [fork|]; [|node_step]. node_step. unfold service_OnL1Fork.
  destruct (NodeRole cfg); [apply sequencer_OnL1Fork_ok|apply preserves_ret].
Qed.

Lemma SubmitL1Block_ok block receipts sv :
  service_ok sv → l1_input sv block receipts → service_ok (SubmitL1Block fuel cfg block receipts sv).1.
Proof.
  intros [He Hsub] [Hl1 Hval Hfuel Hrs]. unfold SubmitL1Block, unless_stopping. destruct (sv_stopping sv); [done|].
  unfold mbind at 1, M_bind.
  destruct (BlockAndReceipts.ParseBlockAndReceipts block receipts) as [br|err|c] eqn:Hbr; [| |done].
  2:{ pose proof (rejecting_ok (lift (Err err) : M _ BlockAndReceipts.t) sv (conj He Hsub)) as Hr.
      destruct (rejecting (lift (Err err)) sv) as [sv1 [br|err'|c]] eqn:Hrej; [|exact Hr..].
      by destruct (rejecting_lift_Err err sv sv1 br). }
  assert (BlockAndReceipts.Block br = block) as Hblock.
  { unfold BlockAndReceipts.ParseBlockAndReceipts in Hbr. by case_decide; simplify_eq. }
  change (rejecting (lift (Ok br)) sv) with (sv, Ok br). cbv iota beta. unfold mbind at 1, M_bind.
  assert (service_ok (rejecting (on_enclave (ingestL1Block fuel cfg br)) sv).1) as Hsv1.
  { apply rejecting_ok. pose proof (ingestL1Block_ok br (sv_enclave sv) He) as Hing. rewrite Hblock in Hing.
    specialize (Hing Hval Hfuel Hl1 (λ rs, Hrs br rs eq_refl)). unfold on_enclave, zoom.
    by destruct (ingestL1Block fuel cfg br (sv_enclave sv)). }
  destruct (rejecting _ sv) as [sv1 [ing|err|c]]; cbn [fst] in Hsv1; [|done..]. revert sv1 Hsv1.
  apply (preserves_bind service_ok).
  - intros sv1 Hsv1. apply rejecting_ok. revert sv1 Hsv1. apply on_enclave_ok. unfold service_OnL1Block.
    destruct (NodeRole cfg); [apply preserves_ret|apply ExecuteStoredBatches_ok].
  - intros []. node_step; [|node_step]. apply on_enclave_ok, on_storage_node, ProcessNetworkSecretMsgs_ok.
Qed.

(** A batch a validator may be given. *)
Definition batch_input (ext : ExtBatch) : Prop := ∀ b, ToBatch ext = Ok b → may_store b.

Lemma SubmitBatch_ok ext : batch_input ext → preserves service_ok (SubmitBatch fuel cfg ext).
Proof.
  intros Hext. unfold SubmitBatch. apply unless_stopping_ok.
  apply (yields_bind _ _ _ may_store).
  { intros sv Hsv. unfold ToInternalError, wrap, lift. destruct (ToBatch ext) as [b|err|c] eqn:Hb; [|done..].
    split; [done|]. intros a [= <-]. by apply Hext. }
  intros b Hb. repeat node_step.
  - apply on_enclave_ok. unfold as_Validator. destruct (NodeRole cfg); [node_step|apply preserves_ret].
  - apply on_enclave_ok, on_storage_node. by apply store_batch.
  - apply on_enclave_ok. unfold as_Validator. destruct (NodeRole cfg); [node_step|apply ExecuteStoredBatches_ok].
Qed.

(** The enclave over time: a request at a time; a restart keeps the database
    and loses caches, subscriptions, mempool and any number of states. *)
Inductive service_step : relation (Service C) :=
  | step_SubmitL1Block sv block receipts :
      l1_input sv block receipts → service_step sv (SubmitL1Block fuel cfg block receipts sv).1
  | step_SubmitBatch sv ext : batch_input ext → service_step sv (SubmitBatch fuel cfg ext sv).1
  | step_CreateBatch sv now : service_step sv (enclave_CreateBatch fuel cfg AuthSender iterate now sv).1
  | step_CreateRollup sv n : service_step sv (enclave_CreateRollup fuel cfg n sv).1
  | step_request sv n req params : service_step sv (handle cfg AuthSender n req params sv).1
  | step_GenerateSecret sv entropy : service_step sv (GenerateSecret cfg entropy sv).1
  | step_InitEnclave sv decrypted : service_step sv (InitEnclave decrypted sv).1
  | step_GetBatch sv h : service_step sv (GetBatch h sv).1
  | step_GetBatchBySeqNo sv n : service_step sv (GetBatchBySeqNo n sv).1
  | step_Status sv : service_step sv (GetStatus sv).1
  | step_stream sv b rs : service_step sv (streamExecutedBatch iterateSubs b rs sv).1
  | step_StreamL2Updates sv : service_step sv (StreamL2Updates sv).1
  | step_Subscribe sv id req : service_step sv (Subscribe id req sv).1
  | step_Unsubscribe sv id : service_step sv (Unsubscribe id sv).1
  | step_Stop sv closed : service_step sv (Stop closed sv).1
  | step_restart sv cache tries n :
      (∀ h, cache_get cache h = None) →
      service_step sv
        (mkService C _ (mkEnclave C _ (restoreStateDBCache fuel cfg n (mkStorage C _ (s_db (e_storage (sv_enclave sv))) cache tries)).1
                          (mkRegistry false []) ∅ None) ∅ false).

Lemma restoreStateDBCache_keeps n : keeps_db (restoreStateDBCache fuel cfg n : M (Storage C) unit).
Proof.
  assert (∀ h, keeps_db (stateDBAvailableForBatch h : M (Storage C) bool)) as Havail.
  { intros h. unfold stateDBAvailableForBatch. auto with keeps. }
  assert (∀ n b acc, keeps_db (collectBatches n b acc : M (Storage C) _)) as Hcollect.
  { clear n. induction n as [|n IH]; intros b acc; cbn [collectBatches]; [apply keeps_crash|].
    apply keeps_bind; [done|]. intros []; [apply keeps_ret|]. case_bool_decide; [apply keeps_ret|]. auto with keeps. }
  assert (∀ bs, keeps_db (forM bs (replayBatch fuel cfg) : M (Storage C) unit)) as Hreplay.
  { induction bs as [|b bs IH]; cbn [forM]; [apply keeps_ret|]. apply keeps_bind; [|done]. unfold replayBatch.
    case_bool_decide; [|auto with keeps]. apply keeps_bind; [|intros; apply keeps_ret].
    apply keeps_bind; [apply keeps_applyAllocations|intros; apply keeps_bind; [apply keeps_commitState|intros; apply keeps_ret]]. }
  unfold restoreStateDBCache, FetchHeadBatch. apply keeps_bind; [auto with keeps|]. intros [b|err].
  - apply keeps_bind; [done|]. intros []; [apply keeps_ret|]. apply keeps_wrap. unfold replayBatchesToValidState, FetchHeadBatch.
    apply keeps_bind; [auto with keeps|]. intros head. apply keeps_bind; [done|]. intros bs. by case_bool_decide; [apply keeps_crash|].
  - destruct (errors_Is _ _); auto with keeps.
Qed.

(** Requests that leave the database as it is. *)
Lemma reading_ok sv :
  service_ok sv → (∀ h, service_ok (GetBatch h sv).1) ∧ (∀ n, service_ok (GetBatchBySeqNo n sv).1) ∧
  service_ok (GetStatus sv).1 ∧ (∀ b rs, service_ok (streamExecutedBatch iterateSubs b rs sv).1).
Proof.
  intros Hsv. split_and!; [intros h|intros n| |intros b rs].
  - revert sv Hsv. unfold GetBatch. change (preserves service_ok (GetBatch (C:=C) h)). unfold GetBatch. repeat node_step.
    apply on_database_ok. auto with keeps.
  - revert sv Hsv. change (preserves service_ok (GetBatchBySeqNo (C:=C) n)). unfold GetBatchBySeqNo. repeat node_step.
    apply on_database_ok. unfold FetchBatchBySeqNo. auto with keeps.
  - unfold GetStatus. destruct (sv_stopping sv); [done|]. revert sv Hsv. apply (preserves_bind service_ok).
    + node_step. apply on_database_ok. unfold FetchSecret. auto with keeps.
    + intros [secret|err]; [|destruct (errors_Is _ _); node_step].
      repeat node_step; apply on_database_ok; unfold storage_FetchHeadBlock, FetchCurrentSequencerNo; auto with keeps.
  - revert sv Hsv. change (preserves service_ok (streamExecutedBatch (C:=C) iterateSubs b rs)).
    unfold streamExecutedBatch, streamEventsForNewHeadBatch. repeat node_step. apply on_database_ok. unfold GetSubscribedLogsForBatch.
    case_bool_decide; [apply keeps_ret|]. case_bool_decide; [apply keeps_ret|].
    apply keeps_bind; [auto with keeps|intros]. apply keeps_bind; [apply keeps_lift|intros]. auto with keeps.
Qed.

(** Requests of users leave the database and the subscriptions as they are. *)
Lemma request_ok n req params sv : service_ok sv → service_ok (handle cfg AuthSender n req params sv).1.
Proof.
  intros [[Hok Hc Hb Hp] Hsub].
  destruct (handle_discreet cfg AuthSender (s_db (e_storage (sv_enclave sv))) (s_tries (e_storage (sv_enclave sv))) (sv_subscriptions sv)
    n req params sv) as [((Hs&Hd&_)&Hsub') _].
  { split; [|done]. split; [|done]. by eapply ni_sound, Build_node_inv. }
  split; [|by rewrite Hsub']. destruct Hs as [Hok' _]. unfold enclave_ok. split; [done|by rewrite Hd..].
Qed.

Lemma service_step_ok sv sv' : service_ok sv → service_step sv sv' → service_ok sv'.
Proof.
  intros Hsv Hstep. destruct Hstep as [sv block receipts Hin|sv ext Hin|sv now|sv n|sv n req params|sv entropy|sv dec|sv h|sv n|sv|sv b rs|sv|sv id req|sv id|sv closed|sv cache tries n Hcache].
  - by apply SubmitL1Block_ok.
  - by apply SubmitBatch_ok.
  - revert sv Hsv. apply unless_stopping_ok. node_step. apply on_enclave_ok. unfold as_Sequencer.
    destruct (NodeRole cfg); [apply CreateBatch_ok|node_step].
  - revert sv Hsv. apply unless_stopping_ok. node_step. apply on_enclave_ok. unfold as_Sequencer.
    destruct (NodeRole cfg); [apply sequencer_CreateRollup_ok|node_step].
  - by apply request_ok.
  - revert sv Hsv. apply unless_stopping_ok. repeat node_step. apply on_enclave_ok, on_storage_node, StoreSecret_node.
  - revert sv Hsv. apply unless_stopping_ok. repeat node_step. apply on_enclave_ok, on_storage_node, StoreSecret_node.
  - by apply reading_ok.
  - by apply reading_ok.
  - by apply reading_ok.
  - by apply reading_ok.
  - unfold StreamL2Updates. destruct (sv_stopping sv); [done|]. revert sv Hsv. apply on_enclave_ok. node_step.
  - revert sv Hsv. apply unless_stopping_ok. intros sv [He Hsub]. pose proof (AddSubscription_ok id req _ Hsub) as Hsub'.
    unfold on_subscriptions, zoom. by destruct (AddSubscription id req (sv_subscriptions sv)).
  - revert sv Hsv. apply unless_stopping_ok. intros sv [He Hsub]. split; [done|]. by apply RemoveSubscription_ok.
  - destruct Hsv as [He Hsub]. by split.
  - destruct Hsv as [He _]. split; [|intros id sub; cbn [sv_subscriptions]; by rewrite lookup_empty]. unfold enclave_ok. cbn [sv_enclave e_storage].
    apply (keeps_node l1_hash _ (restoreStateDBCache_keeps n)). destruct He as [[Hd _] Hc Hb Hp].
    split; [|done..]. split; [done|]. intros h v. cbn [s_cache]. by rewrite Hcache.
Qed.

(** C4: an enclave whose inputs are well formed stays consistent. The code does not check
    that a batch it is sent, or one a rollup brings back, commits to its transactions and
    has numbers of 64 bits, nor that the L1 blocks it is given have consecutive heights, and
    the genesis block a child as the next; with these, for any requests of users, hosts and
    other nodes, in any order, whether they succeed, fail or crash, and across restarts that
    lose caches and states: the tables agree with the headers and bodies they store,
    sequence numbers are unique and in range, a block is flagged canonical exactly when the
    head descends from it and a batch when its block is, and every subscription holds a key
    signed by its account. *)
Theorem enclave_invariant sv sv' :
  initial (e_storage (sv_enclave sv)) → sv_subscriptions sv = ∅ → rtc service_step sv sv' →
  service_ok sv'.
Proof.
  intros Hinit Hsubs Hrun.
  assert (service_ok sv) as Hsv.
  { destruct (initial_inv _ Hinit) as [Hok Hc]. split; [|intros id sub; by rewrite Hsubs, lookup_empty].
    destruct Hinit as [Hdb _]. split; [done|done|..]; rewrite Hdb; unfold blocks, batches; cbn; rewrite omap_empty.
    - intros h. rewrite lookup_empty. by intros [? ?].
    - intros h ab. by rewrite lookup_empty. }
  clear Hinit Hsubs. induction Hrun as [sv|sv1 sv2 sv3 Hstep _ IH]; [done|]. by apply IH, (service_step_ok sv1).
Qed.
End handlers.
