(* ===== verification/ServiceSpec.v ===== *)
(** * A batch from the sequencer to a validator

    The validator that is given a batch of the sequencer, and has its history,
    stores it and executes it: [SubmitBatch] succeeds, and the batch and its state
    are those of the sequencer. *)

From S2P Require Import Prelude Types Codec Bytes L1Chain EnclaveDB BatchDB Events Storage StorageInv StorageOps StorageSpec CrossChain BlockProcessor Reads Executor ExecutorSpec Growth Mempool Registry RollupCompression RollupSpec Rollups Sequencer Validator SequencerSpec Replay ViewingKeys Subscriptions Service.
Local Open Scope Z_scope.

(** A query that holds of one row returns that row. *)
Lemma sql_select_one {K R} `{Countable K} (P : R → bool) (m : gmap K R) k r :
  m !! k = Some r → P r = true → (∀ k' r', m !! k' = Some r' → P r' = true → k' = k) → sql_select P m = [r].
Proof.
  intros Hk HP Huniq. apply Permutation_singleton_r. unfold sql_select.
  assert (filter (λ x, P x = true) (map_to_list (delete k m)).*2 = []) as Hrest.
  { destruct (filter _ _) as [|x l] eqn:E; [done|]. exfalso.
    assert (x ∈ filter (λ x, P x = true) (map_to_list (delete k m)).*2) as Hin by (rewrite E; by left).
    apply list_elem_of_filter in Hin as [Hx Hin]. apply list_elem_of_fmap in Hin as ([k' x']&->&Hin%elem_of_map_to_list).
    apply lookup_delete_Some in Hin as [Hne Hin]. by destruct Hne; symmetry; eapply Huniq. }
  rewrite <-(map_to_list_delete m k r Hk). cbn [fmap list_fmap snd]. rewrite filter_cons_True by done. by rewrite Hrest.
Qed.

Section submit.
Context {C : Type} `{CacheOk C, StateModel, StorageCodecsOk, HashingOk, MB : MessageBus}.
Context `{OW : !OwnerWallet, Keccak, EV : !EVM, EVOK : !EVMOk, CS : !Codec (list Z), RollupCodecs, BlobServices, Signatures}.
Context `{MgmtABI, AT : !Attestations, CE : !Codec ExtRollup, ViewingCrypto, SubscriptionCodecs, !BlobServicesOk}.
Implicit Types (s : Storage C) (d : DB) (e : Enclave C) (sv : Service C).

Lemma fetchBatches_one d whereQuery h r ab :
  db_ok d → t_batch d !! h = Some r → batch_row_ok d h r ab → whereQuery r = true →
  (∀ k' r', t_batch d !! k' = Some r' → whereQuery r' = true → k' = h) → fetchBatches whereQuery d = Ok [ab_batch ab].
Proof.
  intros Hd Hr Hrow HP Huniq. unfold fetchBatches. rewrite (sql_select_one _ _ h r Hr).
  - cbn. by rewrite (decodeBatch_ok d h r ab Hrow).
  - by rewrite (joinBody_ok d h r Hd Hr).
  - intros k' r' Hr' [_ HP']%andb_true_iff. eauto.
Qed.

(** Every canonical batch is executed. *)
Definition caught_up d : Prop := ∀ h ab, batches d !! h = Some ab → ab_canonical ab = true → ab_executed ab = true.

(** The batch just stored is the one to execute. *)
Lemma unexecuted_one d d' b :
  db_ok d → db_ok d' → caught_up d → Batch.hash_ok b → isCanonQuery d (L1Proof (Batch.Header b)) = true →
  batches d' = <[Batch.hashOf b := newABatch d b]> (batches d) →
  ReadUnexecutedBatches d' = Ok [ab_batch (newABatch d b)].
Proof.
  intros Hd Hd' Hcu Hb Hcan Hba. unfold ReadUnexecutedBatches.
  assert (batches d' !! Batch.hashOf b = Some (newABatch d b)) as Hab by (by rewrite Hba, lookup_insert_eq).
  apply batches_lookup in Hab as (r&Hr&Hrow); [|done]. destruct (abs_flags _ _ _ _ Hrow) as [Hc Hx].
  apply (fetchBatches_one d' _ (Batch.hashOf b) r); [done..| |].
  - rewrite <-Hc, <-Hx. cbn. by rewrite Hcan.
  - intros k' r' Hr' [Hx' Hc']%andb_true_iff. destruct (do_batches d' Hd' k' r' Hr') as [ab' Hrow'].
    destruct (abs_flags _ _ _ _ Hrow') as [Hc2 Hx2]. destruct (decide (k' = Batch.hashOf b)) as [|Hne]; [done|].
    assert (batches d' !! k' = Some ab') as Hab' by (apply batches_lookup; eauto).
    rewrite Hba, lookup_insert_ne in Hab' by done. rewrite <-Hx2, (Hcu k' ab' Hab') in Hx'; [done|]. congruence.
Qed.

(** ** Following the sequencer *)

Context (fuel : nat) (cfg : EnclaveConfig) (d1 : DB) (tr1 : gmap Hash EState) (Hd1 : db_ok d1) (Hp1 : parents_ok d1).
Context (B : Hash → Prop).

(** Executing a batch on a storage with its history. *)
Lemma ExecuteBatch_extends T d2 tr2 s b b' cb :
  db_ok d2 → parents_ok d2 → holds d2 tr2 s → extends B T (ParentHash (Batch.Header b)) d1 tr1 d2 tr2 →
  T (ParentHash (Batch.Header b)) → B (L1Proof (Batch.Header b)) → recomputed (C:=C) fuel d1 tr1 b cb →
  Batch.Header b' = Batch.Header b → Batch.Transactions b' = Batch.Transactions b → Batch.hash_ok b' →
  ∃ s', ExecuteBatch fuel b' s = (s', Ok (cb_Receipts cb)) ∧ holds d2 (<[Root (Batch.Header b) := cb_state cb]> tr2) s'.
Proof.
  intros Hd2 Hp2 Hs2 Hext HT HB (s1&s1'&Hs1&Hcomp&Hu&Htx&Hst) Hh Ht Hok.
  destruct (grows_ComputeBatch B _ _ d1 d2 tr1 tr2 Hd1 Hd2 Hp1 Hp2 Hext fuel (contextOf b) HB HT eq_refl
    s1 s s1' cb Hs1 Hs2 Hcomp) as (_&t&cb'&Hrun2&(<-&<-&Hcache)&<-).
  destruct (ComputeBatch_Ok _ _ _ _ _ _ _ Hd1 Hp1 Hs1 Hcomp) as (_&pab&_&Hc).
  assert (contextOf b' = contextOf b) as Hctx by (unfold contextOf; by rewrite Hh, Ht).
  unfold ExecuteBatch, mbind, M_bind, wrap. rewrite Hctx, Hrun2. cbv beta iota. rewrite bool_decide_false.
  2:{ intros Hne. apply Hne. rewrite (co_hash _ _ _ Hc), Hok, Hh. exact (f_equal rlpHash_batch Hu). }
  rewrite (Commit_computed _ _ _ t Hc). destruct (unsigned_fields _ _ Hu) as (<-&_). by eexists.
Qed.

Lemma ExecuteBatch_replica d2 tr2 s b b' cb :
  replica d1 B d2 tr2 s → knows d1 tr1 B d2 tr2 (ParentHash (Batch.Header b)) →
  B (L1Proof (Batch.Header b)) → recomputed (C:=C) fuel d1 tr1 b cb →
  Batch.Header b' = Batch.Header b → Batch.Transactions b' = Batch.Transactions b → Batch.hash_ok b' →
  ∃ s', ExecuteBatch fuel b' s = (s', Ok (cb_Receipts cb)) ∧ holds d2 (<[Root (Batch.Header b) := cb_state cb]> tr2) s'.
Proof.
  intros Hrep Hk. pose proof (knows_extends _ _ _ _ _ _ _ Hrep Hk) as Hext. destruct Hrep as [Hs2 Hd2 Hp2 _ _ _].
  apply (ExecuteBatch_extends _ d2 tr2 s b b' cb Hd2 Hp2 Hs2 Hext), lineage_refl.
Qed.

(** A validator that has every batch of the sequencer below [n], [p] the last,
    and is waiting for the next. *)
Record following (n : Z) (p : Hash) sv : Prop := {
  fo_running : sv_stopping sv = false;
  fo_replica : replica d1 B (s_db (e_storage (sv_enclave sv))) (s_tries (e_storage (sv_enclave sv))) (e_storage (sv_enclave sv));
  fo_knows : knows d1 tr1 B (s_db (e_storage (sv_enclave sv))) (s_tries (e_storage (sv_enclave sv))) p;
  fo_caught : caught_up (s_db (e_storage (sv_enclave sv)));
  fo_fk : exec_fk (s_db (e_storage (sv_enclave sv)));
  fo_below : ∀ h ab, batches (s_db (e_storage (sv_enclave sv))) !! h = Some ab → SequencerOrderNo (ab_header ab) < n;
  fo_parent : ∃ pab st, batches (s_db (e_storage (sv_enclave sv))) !! p = Some pab ∧ ab_canonical pab = true ∧
    ab_executed pab = true ∧ s_tries (e_storage (sv_enclave sv)) !! Root (ab_header pab) = Some st
}.

(** The batch without the hash it carries in memory. *)
Definition received (b : Batch.t) : Batch.t := Batch.mk (Batch.Header b) None (Batch.Transactions b).

(** A batch the sequencer sends. *)
Record published (b : Batch.t) (ext : ExtBatch) : Prop := {
  pu_at : at_sequencer d1 b;
  pu_block : B (L1Proof (Batch.Header b));
  pu_storable : storable (received b);
  pu_genesis : Batch.IsGenesis b = false;
  pu_ext : ToExtBatch b = Ok ext;
  pu_computed : recordable (C:=C) fuel d1 tr1 b
}.

Lemma executionPrerequisites_Ok d tr s b pab :
  db_ok d → holds d tr s → is_Some (blocks d !! L1Proof (Batch.Header b)) →
  batches d !! ParentHash (Batch.Header b) = Some pab → ab_canonical pab = true → ab_executed pab = true →
  ∃ s', executionPrerequisites b s = (s', Ok true) ∧ holds d tr s'.
Proof.
  intros Hd Hs [hd Hhd] Hpab Hcan Hex. unfold executionPrerequisites, mbind, M_bind, try.
  destruct (storage_FetchBlock_spec s (L1Proof (Batch.Header b)) (holds_ok d tr Hd s Hs)) as (Hok1&Hsame&Hr).
  rewrite (proj1 Hs), Hhd in Hr. destruct Hr as (blk&Hr&_). pose proof (holds_same d tr s _ Hs Hok1 Hsame) as Hs1.
  destruct (storage_FetchBlock _ s) as [s1 r]. cbn [fst snd] in *. subst r. cbv beta iota.
  unfold storage_BatchWasExecuted, query. rewrite (proj1 Hs1), (BatchWasExecuted_spec _ _ Hd), Hpab, Hcan, Hex. by exists s1.
Qed.

(** The execution of a batch of the sequencer that was just stored. *)
Lemma executeStoredBatch_replica d2 tr2 e b cb pab st :
  replica d1 B d2 tr2 (e_storage e) → knows d1 tr1 B d2 tr2 (ParentHash (Batch.Header b)) →
  at_sequencer d1 b → B (L1Proof (Batch.Header b)) → Batch.IsGenesis b = false → recomputed (C:=C) fuel d1 tr1 b cb →
  receipts_ok (Batch.hashOf b) (cb_Receipts cb) → is_Some (batches d2 !! Batch.hashOf b) →
  (∀ t, t_exec d2 !! (Batch.hashOf b, t) = None) → is_Some (blocks d2 !! L1Proof (Batch.Header b)) →
  batches d2 !! ParentHash (Batch.Header b) = Some pab → ab_canonical pab = true → ab_executed pab = true →
  tr2 !! Root (ab_header pab) = Some st →
  ∃ s3 s4, executeStoredBatch fuel (genesis (cfg_sequencer cfg)) (received b) e =
      (set_registry (OnBatchExecuted (received b) (cb_Receipts cb) (e_registry e)).1 (set_storage s4 e), Ok tt) ∧
    holds d2 (<[Root (Batch.Header b) := cb_state cb]> tr2) s3 ∧
    StoreExecutedBatch (received b) (cb_Receipts cb) s3 = (s4, Ok tt).
Proof.
  intros Hrep Hk Hat HB Hgen Hcb Hrec Hin Hfree Hblk Hpab Hcan Hex Hst2. pose proof Hrep as [Hs Hd Hp _ _ _].
  assert (Batch.hashOf (received b) = Batch.hashOf b) as Hh by (symmetry; exact (proj1 Hat)).
  unfold executeStoredBatch. change (Batch.IsGenesis (received b)) with (Batch.IsGenesis b). rewrite Hgen.
  unfold when, mbind, M_bind, mret, M_ret. rewrite on_storage_run. unfold wrap.
  destruct (executionPrerequisites_Ok d2 tr2 (e_storage e) (received b) pab) as (s1&Hrun1&Hs1); [done..|].
  rewrite Hrun1. cbn [fst snd]. cbv beta iota. rewrite on_storage_run. cbn [e_storage set_storage].
  destruct (ExecuteBatch_replica d2 tr2 s1 b (received b) cb) as (s3&Hrun3&Hs3); [|done..|].
  { by destruct Hrep; split. }
  rewrite Hrun3. cbn [fst snd]. cbv beta iota. rewrite on_storage_run. cbn [e_storage set_storage].
  assert ((StoreExecutedBatch (received b) (cb_Receipts cb) s3).2 = Ok tt) as Hrun4.
  { destruct Hs3 as (Hdb3&Htr3&?). destruct (decide (Root (ab_header pab) = Root (Batch.Header b))) as [Heq|Hne].
    - eapply StoreExecutedBatch_Ok; rewrite ?Hh, ?Hdb3; [by eapply holds_ok|done..|]. rewrite Htr3, Heq. apply lookup_insert_eq.
    - eapply StoreExecutedBatch_Ok; rewrite ?Hh, ?Hdb3; [by eapply holds_ok|done..|]. by rewrite Htr3, lookup_insert_ne. }
  exists s3. destruct (StoreExecutedBatch _ _ s3) as [s4 r]. cbn [snd] in Hrun4. subst r. exists s4. by split_and!.
Qed.

(** The batch is stored on the storage [s], and is the one to execute. *)
Lemma follow_storage s n b pab :
  replica d1 B (s_db s) (s_tries s) s → knows d1 tr1 B (s_db s) (s_tries s) (ParentHash (Batch.Header b)) →
  caught_up (s_db s) → exec_fk (s_db s) →
  (∀ h ab, batches (s_db s) !! h = Some ab → SequencerOrderNo (ab_header ab) < n) → Batch.SeqNo b = n →
  batches (s_db s) !! ParentHash (Batch.Header b) = Some pab → at_sequencer d1 b → storable (received b) →
  isCanonQuery (s_db s) (L1Proof (Batch.Header b)) = true →
  ∃ s2, StoreBatch (received b) s = (s2, Ok tt) ∧
    replica d1 B (s_db s2) (s_tries s) s2 ∧ knows d1 tr1 B (s_db s2) (s_tries s) (ParentHash (Batch.Header b)) ∧
    batches (s_db s2) = <[Batch.hashOf b := newABatch (s_db s) b]> (batches (s_db s)) ∧
    batches (s_db s2) !! ParentHash (Batch.Header b) = Some pab ∧ t_block (s_db s2) = t_block (s_db s) ∧
    exec_fk (s_db s2) ∧ (∀ t, t_exec (s_db s2) !! (Batch.hashOf b, t) = None) ∧
    ReadUnexecutedBatches (s_db s2) = Ok [received b].
Proof.
  intros Hrep Hk Hcu Hfk Hmax Hn Hpab Hat Hsto Hcanon. pose proof Hrep as [Hs Hd _ Ha _ _].
  assert (Batch.hashOf (received b) = Batch.hashOf b) as Hh by (symmetry; exact (proj1 Hat)).
  assert (fresh (s_db s) (Batch.SeqNo b)) as Hf by (intros h ab Hab; pose proof (Hmax h ab Hab); lia).
  destruct (StoreBatch_new s (received b)) as (s2&Hrun&Hok2&Ht2&Hbl2&Htb2&Hba2); [by eapply holds_ok|done|rewrite Hh, (proj1 Hat); apply Ha|done|].
  pose proof (StoreBatch_side s _ Hsto) as Hside. pose proof (StoreBatch_fk s _ Hsto Hfk) as Hfk2.
  pose proof (StoreBatch_executions s _ Hsto) as Hexec. rewrite Hrun in Hside, Hfk2, Hexec. cbn [fst] in *.
  change (newABatch (s_db s) (received b)) with (newABatch (s_db s) b) in Hba2. pose proof Hba2 as Hba. rewrite Hh in Hba.
  pose proof (fresh_new _ _ Hd (proj1 Hat) Hf) as Hnew.
  exists s2. split_and!; [done| | |done| |done|done| |].
  - by eapply (replica_add d1 Hd1 B _ (s_tries s) _ s).
  - by eapply knows_add.
  - rewrite Hba, lookup_insert_ne; [done|]. intros Heq. rewrite <-Heq in Hpab. congruence.
  - intros t. rewrite Hexec. apply eq_None_not_Some. intros Hin%Hfk. cbn in Hin. apply eq_None_not_Some in Hnew as [].
    destruct Hin as [r Hr]. destruct (do_batches _ Hd _ r Hr) as [ab Hrow]. exists ab. apply batches_lookup; eauto.
  - apply (unexecuted_one (s_db s) (s_db s2) (received b)); [done|by apply so_db|done..].
Qed.

Lemma on_enclave_run {A} (m : M (Enclave C) A) sv :
  on_enclave m sv = (mkService C _ (m (sv_enclave sv)).1 (sv_subscriptions sv) (sv_stopping sv), (m (sv_enclave sv)).2).
Proof. unfold on_enclave, zoom. by destruct (m (sv_enclave sv)). Qed.

Lemma canonical_stored d h : db_ok d → isCanonQuery d h = true → is_Some (blocks d !! h).
Proof.
  intros Hd. unfold isCanonQuery. destruct (t_block d !! h) as [r|] eqn:Hr; [|done]. intros _.
  destruct (do_blocks d Hd h r Hr) as [hd Hrow]. exists hd. apply blocks_lookup; eauto.
Qed.

(** The run: the batch is stored, then executed, then its execution is recorded. *)
Lemma SubmitBatch_run n b ext sv :
  NodeRole cfg = ValidatorNode → following n (ParentHash (Batch.Header b)) sv → published b ext → Batch.SeqNo b = n →
  isCanonQuery (s_db (e_storage (sv_enclave sv))) (L1Proof (Batch.Header b)) = true →
  let s := e_storage (sv_enclave sv) in
  ∃ s2 s3 s4 reg cb,
    SubmitBatch fuel cfg ext sv =
      (mkService C _ (set_registry reg (set_storage s4 (sv_enclave sv))) (sv_subscriptions sv) (sv_stopping sv), Ok tt) ∧
    replica d1 B (s_db s2) (s_tries s) s2 ∧ knows d1 tr1 B (s_db s2) (s_tries s) (ParentHash (Batch.Header b)) ∧
    batches (s_db s2) = <[Batch.hashOf b := newABatch (s_db s) b]> (batches (s_db s)) ∧
    t_block (s_db s2) = t_block (s_db s) ∧ exec_fk (s_db s2) ∧ recomputed (C:=C) fuel d1 tr1 b cb ∧
    holds (s_db s2) (<[Root (Batch.Header b) := cb_state cb]> (s_tries s)) s3 ∧
    StoreExecutedBatch (received b) (cb_Receipts cb) s3 = (s4, Ok tt).
Proof.
  intros Hrole [Hrun Hrep Hk Hcu Hfk Hmax (pab&st&Hpab&Hcan&Hex&Hst)] [Hat HB Hsto Hgen Hext (cb&Hcb&Hrec)] Hn Hcanon s.
  destruct (ToBatch_ToExtBatch _ _ Hext) as (_&_&Hto).
  destruct (follow_storage s n b pab) as (s2&Hrun2&Hrep2&Hk2&Hba2&Hpab2&Htb2&Hfk2&Hfree2&Hread); [done..|].
  destruct (executeStoredBatch_replica (s_db s2) (s_tries s) (set_storage s2 (sv_enclave sv)) b cb pab st)
    as (s3&s4&Hrun3&Hs3&Hrun4); [done..| |done| |done|done|done|done|].
  { rewrite Hba2, lookup_insert_eq. by eexists. }
  { apply (canonical_stored _ _ (re_db _ _ _ _ _ Hrep2)). unfold isCanonQuery. rewrite Htb2. exact Hcanon. }
  exists s2, s3, s4, (OnBatchExecuted (received b) (cb_Receipts cb) (e_registry (sv_enclave sv))).1, cb.
  split; [|by split_and!].
  assert (ExecuteStoredBatches fuel (genesis (cfg_sequencer cfg)) (set_storage s2 (sv_enclave sv)) =
    (set_registry (OnBatchExecuted (received b) (cb_Receipts cb) (e_registry (sv_enclave sv))).1
      (set_storage s4 (sv_enclave sv)), Ok tt)) as Hexec.
  { unfold ExecuteStoredBatches, mbind, M_bind. rewrite on_storage_run. unfold try, FetchCanonicalUnexecutedBatches, query.
    cbn [e_storage set_storage]. rewrite Hread. cbn [fst snd forM]. cbv beta iota. unfold mbind, M_bind.
    change (set_storage s2 (set_storage s2 (sv_enclave sv))) with (set_storage s2 (sv_enclave sv)). by rewrite Hrun3. }
  unfold SubmitBatch, unless_stopping. rewrite Hrun.
  unfold mbind, M_bind, ToInternalError, wrap, lift, as_Validator. rewrite Hto, Hrole. cbv beta iota.
  rewrite on_enclave_run. cbn [VerifySequencerSignature mret M_ret fst snd]. cbv beta iota.
  unfold on_database. rewrite on_enclave_run. cbn [sv_enclave sv_subscriptions sv_stopping]. rewrite on_storage_run.
  change (Batch.mk _ _ _) with (received b). fold s. rewrite Hrun2. cbn [fst snd]. cbv beta iota.
  rewrite on_enclave_run. cbn [sv_enclave sv_subscriptions sv_stopping]. rewrite Hexec.
  cbn [fst snd]. by rewrite Hrun.
Qed.

(** What the validator has of a batch of the sequencer. *)
Definition follower_has d (tr : gmap Hash EState) (b : Batch.t) : Prop :=
  batches d !! Batch.hashOf b = Some (mkABatch (Batch.Header b) (Batch.Transactions b) true true) ∧
  tr !! Root (Batch.Header b) = tr1 !! Root (Batch.Header b).

(** One batch: it is accepted, and the validator waits for the next. *)
Lemma SubmitBatch_follows n b ext sv :
  NodeRole cfg = ValidatorNode → following n (ParentHash (Batch.Header b)) sv → published b ext → Batch.SeqNo b = n →
  isCanonQuery (s_db (e_storage (sv_enclave sv))) (L1Proof (Batch.Header b)) = true →
  ∃ sv', SubmitBatch fuel cfg ext sv = (sv', Ok tt) ∧ following (n + 1) (Batch.hashOf b) sv' ∧
    follower_has (s_db (e_storage (sv_enclave sv'))) (s_tries (e_storage (sv_enclave sv'))) b ∧
    t_block (s_db (e_storage (sv_enclave sv'))) = t_block (s_db (e_storage (sv_enclave sv))) ∧
    batches (s_db (e_storage (sv_enclave sv))) ⊆ batches (s_db (e_storage (sv_enclave sv'))) ∧
    (∀ r, s_tries (e_storage (sv_enclave sv)) !! r = tr1 !! r → s_tries (e_storage (sv_enclave sv')) !! r = tr1 !! r).
Proof.
  intros Hrole Hfo Hpu Hn Hcanon. destruct (SubmitBatch_run n b ext sv Hrole Hfo Hpu Hn Hcanon)
    as (s2&s3&s4&reg&cb&Hrun&Hrep2&Hk2&Hba2&Htb2&Hfk2&(sa&sb&_&_&_&_&Hst)&Hs3&Hrun4).
  destruct Hfo as [Hsv Hrep _ Hcu _ Hmax _], Hpu as [Hat HB _ _ _ _]. set (s := e_storage (sv_enclave sv)) in *.
  assert (Batch.hashOf (received b) = Batch.hashOf b) as Hh by (symmetry; exact (proj1 Hat)).
  pose proof (holds_ok _ _ (re_db _ _ _ _ _ Hrep2) s3 Hs3) as Hok3. pose proof Hs3 as (Hdb3&Htr3&_).
  destruct (StoreExecutedBatch_spec s3 (received b) (cb_Receipts cb) Hok3) as (Hok4&Ht4&Hbl4&Htb4&Hba4).
  pose proof (StoreExecutedBatch_side s3 (received b) (cb_Receipts cb) Hok3) as Hside4.
  pose proof (StoreExecutedBatch_fk s3 (received b) (cb_Receipts cb) Hok3) as Hfk4.
  rewrite Hrun4 in *. cbn [fst snd] in *. rewrite Hdb3, Htr3 in *. rewrite Hh, Hba2, alter_insert_eq in Hba4.
  assert (ab_set_executed (newABatch (s_db s) b) = mkABatch (Batch.Header b) (Batch.Transactions b) true true) as Hab.
  { unfold ab_set_executed, newABatch. cbn. by rewrite Hcanon. }
  rewrite Hab in Hba4. clear Hab. pose proof Hba4 as Hba42. rewrite <-(insert_insert_eq (batches (s_db s)) _ _ (newABatch (s_db s) b)), <-Hba2 in Hba42.
  assert (∀ r, s_tries s !! r = tr1 !! r → s_tries s4 !! r = tr1 !! r) as Hstates.
  { intros r Hr. rewrite Ht4. destruct (decide (Root (Batch.Header b) = r)) as [<-|Hne].
    - by rewrite lookup_insert_eq, Hst.
    - by rewrite lookup_insert_ne. }
  assert (s_tries s4 !! Root (Batch.Header b) = tr1 !! Root (Batch.Header b)) as Hstate by (by rewrite Ht4, lookup_insert_eq).
  eexists. split; [exact Hrun|]. cbn [sv_enclave sv_stopping e_storage set_registry set_storage]. split_and!.
  - split; cbn [sv_enclave sv_stopping e_storage set_registry set_storage]; [done|..].
    + eapply (replica_add d1 Hd1 B (s_db s2) (s_tries s) _ s2); [done..|exact Hba42|done].
    + eapply knows_next; [done|done|eapply knows_add; [exact Hk2|done|exact Hba42|]|by rewrite Hba4, lookup_insert_eq|done].
      intros r x Hr1 Hr2. rewrite <-Hr1. apply Hstates. congruence.
    + intros h ab. rewrite Hba4. intros [[_ <-]|[_ Hab]]%lookup_insert_Some; [done|by apply (Hcu h)].
    + by apply Hfk4.
    + intros h ab. rewrite Hba4. intros [[_ <-]|[_ Hab]]%lookup_insert_Some; [cbn; unfold Batch.SeqNo in Hn; lia|].
      pose proof (Hmax h ab Hab). lia.
    + eexists _, (cb_state cb). split; [by rewrite Hba4, lookup_insert_eq|]. split_and!; [done|done|]. by rewrite <-Hst.
  - split; [by rewrite Hba4, lookup_insert_eq|done].
  - congruence.
  - rewrite Hba4. apply insert_subseteq. apply (fresh_new _ _ (re_db _ _ _ _ _ Hrep) (proj1 Hat)).
    intros h ab Hab. pose proof (Hmax h ab Hab). lia.
  - done.
Qed.

(** The batches come one after the other, on top of [p]. *)
Fixpoint successive (n : Z) (p : Hash) (l : list (Batch.t * ExtBatch)) : Prop :=
  match l with
  | [] => True
  | (b, _) :: l => Batch.SeqNo b = n ∧ ParentHash (Batch.Header b) = p ∧ successive (n + 1) (Batch.hashOf b) l
  end.

(** C3: a validator follows the sequencer. It has the history up to the batch before the
    first one it is given, the L1 blocks of the batches are canonical on its L1 chain, and
    each batch computes to itself on its parent, which is so if the sequencer left no
    transaction out of it, with receipts that can be stored. Given such batches one after
    the other, it accepts every one of them: no call of [SubmitBatch] fails, each batch is
    stored under the hash of the sequencer, canonical and executed, the state under its root
    is the one of the sequencer, and the validator waits for the next batch. *)
Theorem validator_follows_sequencer l : ∀ n p sv,
  NodeRole cfg = ValidatorNode → following n p sv → Forall (λ m, published m.1 m.2) l → successive n p l →
  Forall (λ m, isCanonQuery (s_db (e_storage (sv_enclave sv))) (L1Proof (Batch.Header m.1)) = true) l →
  ∃ sv', forM (map snd l) (SubmitBatch fuel cfg) sv = (sv', Ok tt) ∧
    following (n + Z.of_nat (length l)) (default p (Batch.hashOf ∘ fst <$> last l)) sv' ∧
    Forall (λ m, follower_has (s_db (e_storage (sv_enclave sv'))) (s_tries (e_storage (sv_enclave sv'))) m.1) l ∧
    batches (s_db (e_storage (sv_enclave sv))) ⊆ batches (s_db (e_storage (sv_enclave sv'))) ∧
    (∀ r, s_tries (e_storage (sv_enclave sv)) !! r = tr1 !! r → s_tries (e_storage (sv_enclave sv')) !! r = tr1 !! r).
Proof.
  induction l as [|[b ext] l IH]; intros n p sv Hrole Hfo Hpu Hsucc Hcan.
  { exists sv. rewrite Z.add_0_r. by split_and!. }
  apply Forall_cons in Hpu as [Hb Hpu], Hcan as [Hc Hcan]. destruct Hsucc as (Hn&<-&Hsucc). cbn [fst snd] in *.
  destruct (SubmitBatch_follows n b ext sv Hrole Hfo Hb Hn Hc) as (sv1&Hrun&Hfo1&[Hh1 Hs1]&Htb1&Hsub1&Hst1).
  destruct (IH (n + 1) (Batch.hashOf b) sv1 Hrole Hfo1 Hpu Hsucc) as (sv2&Hrun2&Hfo2&Hall&Hsub2&Hst2).
  { eapply Forall_impl; [exact Hcan|]. intros m. unfold isCanonQuery. by rewrite Htb1. }
  exists sv2. split_and!.
  - cbn [map snd forM]. unfold mbind, M_bind. by rewrite Hrun.
  - replace (n + Z.of_nat (length ((b, ext) :: l))) with (n + 1 + Z.of_nat (length l)) by (rewrite length_cons; lia).
    rewrite last_cons. by destruct (last l).
  - constructor; [|done]. split; [by eapply lookup_weaken|by apply Hst2].
  - by etrans.
  - auto.
Qed.
End submit.
