(* ===== verification/Recovery.v ===== *)
(** * Restarting a node

    [restoreStateDBCache] of [go/enclave/enclave.go]: the states that a restart lost
    are computed again from the stored batches, back to the last batch whose state
    is still there, or to the genesis. *)

From S2P Require Import Prelude Types Codec Bytes L1Chain EnclaveDB BatchDB Events Storage StorageInv StorageOps StorageSpec CrossChain BlockProcessor Reads Executor ExecutorSpec Growth Mempool Registry RollupCompression RollupSpec Rollups Sequencer Validator SequencerSpec Replay ViewingKeys Subscriptions Service ServiceSpec.
Local Open Scope Z_scope.

Lemma forM_app {St A} (l1 l2 : list A) (f : A → M St unit) s s1 :
  forM l1 f s = (s1, Ok tt) → forM (l1 ++ l2) f s = forM l2 f s1.
Proof.
  revert s. induction l1 as [|x l1 IH]; intros s; cbn [forM app]; [by intros [= ->]|]. unfold mbind, M_bind.
  destruct (f x s) as [s' [[]|e|c]]; try done. apply IH.
Qed.

Section recovery.
Context {C : Type} `{CacheOk C, StateModel, StorageCodecsOk, HashingOk, MB : MessageBus}.
Context `{OW : !OwnerWallet, Keccak, EV : !EVM, EVOK : !EVMOk, CS : !Codec (list Z), RollupCodecs, BlobServices, Signatures}.
Context `{MgmtABI, AT : !Attestations, CE : !Codec ExtRollup, ViewingCrypto, SubscriptionCodecs}.
(** The batches, and the states there were before the restart. *)
Context (fuel : nat) (cfg : EnclaveConfig) (d : DB) (trF : gmap Hash EState) (Hd : db_ok d) (Hp : parents_ok d).
Implicit Types (s : Storage C).

Definition genesisState : EState := setBalances (Accounts (genesis (cfg_sequencer cfg))) emptyState.

(** The stored genesis batch has the root of the genesis state. *)
Record is_genesis (ab : ABatch) : Prop := {
  ge_number : Number (ab_header ab) = 0;
  ge_root : CommitState false genesisState = Some (Root (ab_header ab));
  ge_state : trF !! Root (ab_header ab) = Some genesisState
}.

(** A chain of batches from the genesis, each of them computed on its parent. *)
Inductive rebuildable : Hash → Prop :=
  | rebuildable_genesis h ab : batches d !! h = Some ab → is_genesis ab → rebuildable h
  | rebuildable_batch h ab : batches d !! h = Some ab → recomputes (C:=C) fuel d trF (ab_batch ab) →
      rebuildable (ParentHash (ab_header ab)) → rebuildable h.

(** The batches to replay, oldest first, end with the batch [h]. *)
Inductive pending (tr : gmap Hash EState) : list Batch.t → Hash → Prop :=
  | pending_none h ab : batches d !! h = Some ab → is_Some (tr !! Root (ab_header ab)) → pending tr [] h
  | pending_genesis h ab : batches d !! h = Some ab → is_genesis ab → pending tr [ab_batch ab] h
  | pending_batch h ab l : batches d !! h = Some ab → recomputes (C:=C) fuel d trF (ab_batch ab) →
      pending tr l (ParentHash (ab_header ab)) → pending tr (l ++ [ab_batch ab]) h.

Lemma stored_number h ab : batches d !! h = Some ab →
  0 ≤ Number (ab_header ab) < 2 ^ 63 ∧ Int.u64 (Number (ab_header ab)) = Number (ab_header ab).
Proof.
  intros (r&_&Hrow)%batches_lookup; [|done]. destruct (tro_range _ _ _ _ Hrow) as [_ Hn]. split; [done|].
  by apply u64_small.
Qed.

Lemma recomputes_number ab : recomputes (C:=C) fuel d trF (ab_batch ab) →
  ∃ pab, batches d !! ParentHash (ab_header ab) = Some pab ∧ Number (ab_header ab) = Number (ab_header pab) + 1.
Proof.
  intros (cb&s1&s1'&Hs1&Hcomp&Hu&_). destruct (ComputeBatch_Ok _ _ _ _ _ _ _ Hd Hp Hs1 Hcomp) as (_&pab&Hpab&Hc).
  exists pab. split; [done|]. rewrite <-(co_number _ _ _ Hc). destruct (unsigned_fields _ _ Hu) as (_&_&->&_). done.
Qed.

Lemma stateDBAvailable_run tr s h ab :
  holds d tr s → batches d !! h = Some ab →
  ∃ s', stateDBAvailableForBatch h s = (s', Ok (bool_decide (is_Some (tr !! Root (ab_header ab))))) ∧ holds d tr s'.
Proof.
  intros Hs Hab. unfold stateDBAvailableForBatch, CreateStateDB, mbind, M_bind, try.
  destruct (FetchBatch_spec s h (holds_ok d tr Hd s Hs)) as (Hok&Hsame&Hr). rewrite (proj1 Hs), Hab in Hr.
  pose proof (holds_same d tr s _ Hs Hok Hsame) as Hs1. destruct (FetchBatch h s) as [s1 r]. cbn [fst snd] in *. subst r.
  cbv beta iota. unfold gets, lift. cbn [id ab_batch Batch.Header]. rewrite (proj1 (proj2 Hs1)).
  exists s1. split; [|done]. by destruct (tr !! Root (ab_header ab)).
Qed.

Lemma ab_batch_key h ab : batches d !! h = Some ab → Batch.hashOf (ab_batch ab) = h.
Proof. intros Hab. by rewrite <-(batch_key d h ab Hd Hab). Qed.

(** The walk back ends, with the batches to replay. *)
Lemma collectBatches_run tr n : ∀ h ab acc s,
  holds d tr s → rebuildable h → batches d !! h = Some ab → Number (ab_header ab) < Z.of_nat n →
  ∃ s' l, collectBatches n (ab_batch ab) acc s = (s', Ok (l ++ acc)) ∧ holds d tr s' ∧ pending tr l h.
Proof.
  induction n as [|n IH]; intros h ab acc s Hs Hre Hab Hn.
  { destruct (stored_number h ab Hab) as [? _]. lia. }
  cbn [collectBatches]. rewrite (ab_batch_key h ab Hab).
  destruct (stateDBAvailable_run tr s h ab Hs Hab) as (s1&Hrun1&Hs1). unfold mbind, M_bind. rewrite Hrun1. cbv beta iota.
  case_bool_decide as Hav. { exists s1, []. split; [done|]. split; [done|]. by eapply pending_none. }
  change (Batch.NumberOf (ab_batch ab)) with (Number (ab_header ab)). destruct (stored_number h ab Hab) as [Hrange ->].
  destruct Hre as [h ab' Hab' Hgen|h ab' Hab' Hrec Hpar]; rewrite Hab in Hab'; injection Hab' as <-.
  { rewrite bool_decide_true by apply (ge_number _ Hgen). exists s1, [ab_batch ab]. split; [done|]. split; [done|]. by apply pending_genesis. }
  destruct (recomputes_number ab Hrec) as (pab&Hpab&Hnum). destruct (stored_number _ pab Hpab) as [Hprange _].
  rewrite bool_decide_false by lia. change (ParentHash (Batch.Header (ab_batch ab))) with (ParentHash (ab_header ab)).
  destruct (FetchBatch_spec s1 (ParentHash (ab_header ab)) (holds_ok d tr Hd s1 Hs1)) as (Hok2&Hsame2&Hr2).
  rewrite (proj1 Hs1), Hpab in Hr2. pose proof (holds_same d tr s1 _ Hs1 Hok2 Hsame2) as Hs2. unfold wrap.
  destruct (FetchBatch _ s1) as [s2 r]. cbn [fst snd] in *. subst r. cbv beta iota.
  destruct (IH _ pab (ab_batch ab :: acc) s2 Hs2 Hpar Hpab) as (s3&l&Hrun3&Hs3&Hl); [lia|].
  rewrite Hrun3. exists s3, (l ++ [ab_batch ab]). split; [by rewrite <-app_assoc|]. split; [done|]. by apply pending_batch.
Qed.

(** Adding a state there was. *)
Lemma insert_state tr r st : tr ⊆ trF → trF !! r = Some st → tr ⊆ <[r := st]> tr ∧ <[r := st]> tr ⊆ trF.
Proof.
  intros Htr Hr. split; [|by apply insert_subseteq_l]. apply map_subseteq_spec. intros k x Hk.
  destruct (decide (r = k)) as [<-|Hne]; [|by rewrite lookup_insert_ne].
  rewrite lookup_insert_eq. pose proof (lookup_weaken _ _ _ _ Hk Htr). congruence.
Qed.

Lemma self_extends tr p ab st :
  tr ⊆ trF → batches d !! p = Some ab → tr !! Root (ab_header ab) = Some st →
  extends (λ _, True) (λ _, True) p d trF d tr.
Proof.
  intros Htr Hab Hst. split; [by split|split; [done|done|]|done|done].
  intros ab' st' Hab' Hst'. rewrite Hab in Hab'. injection Hab' as <-.
  pose proof (lookup_weaken _ _ _ _ Hst Htr). congruence.
Qed.

Lemma replay_genesis tr s ab :
  holds d tr s → is_genesis ab → ∃ s', replayBatch fuel cfg (ab_batch ab) s = (s', Ok tt) ∧
    holds d (<[Root (ab_header ab) := genesisState]> tr) s'.
Proof.
  intros (Hdb&Htr&Hc) [Hn Hroot _]. unfold replayBatch. change (Batch.NumberOf (ab_batch ab)) with (Number (ab_header ab)).
  rewrite Hn, bool_decide_true by done. unfold CommitGenesisState, applyAllocations, EmptyStateDB, commitState.
  unfold mbind, M_bind, wrap, mret, M_ret, lift, modify. fold genesisState. rewrite Hroot. cbv beta iota. cbn [of_option].
  eexists. split; [done|]. by rewrite <-Hdb, <-Htr.
Qed.

(** Replaying them gives the state of the last one. *)
Lemma replay_run tr l h : pending tr l h → ∀ s, holds d tr s → tr ⊆ trF →
  ∃ s' tr', forM l (replayBatch fuel cfg) s = (s', Ok tt) ∧ holds d tr' s' ∧ tr ⊆ tr' ∧ tr' ⊆ trF ∧
    ∃ ab, batches d !! h = Some ab ∧ is_Some (tr' !! Root (ab_header ab)).
Proof.
  induction 1 as [h ab Hab Hst|h ab Hab Hgen|h ab l Hab (cb&Hrec) _ IH]; intros s Hs Htr.
  - exists s, tr. split_and!; [done..|]. by exists ab.
  - destruct (replay_genesis tr s ab Hs Hgen) as (s'&Hrun&Hs').
    destruct (insert_state tr _ _ Htr (ge_state _ Hgen)) as [Hsub1 Hsub2].
    exists s', (<[Root (ab_header ab) := genesisState]> tr). cbn [forM]. unfold mbind, M_bind. rewrite Hrun.
    split_and!; [done..|]. exists ab. split; [done|]. rewrite lookup_insert_eq. by eexists.
  - destruct (IH s Hs Htr) as (s1&tr1&Hrun1&Hs1&Hsub1&Htr1&pab&Hpab&st&Hst). rewrite (forM_app _ _ _ _ _ Hrun1).
    destruct (recomputes_number ab (ex_intro _ cb Hrec)) as (pab'&Hpab'&Hnum). rewrite Hpab in Hpab'. injection Hpab' as <-.
    destruct (stored_number _ pab Hpab) as [Hprange _], (stored_number _ ab Hab) as [_ Hu].
    destruct (ExecuteBatch_extends fuel d trF Hd Hp (λ _, True) (λ _, True) d tr1 s1 (ab_batch ab) (ab_batch ab) cb)
      as (s2&Hrun2&Hs2); [done|done|done|by eapply self_extends|done..|].
    destruct Hrec as (?&?&_&_&_&_&Hroot). destruct (insert_state tr1 _ _ Htr1 Hroot) as [Hsub2 Htr2].
    eexists s2, _. split_and!; [|exact Hs2|by etrans|done|exists ab; split; [done|]; rewrite lookup_insert_eq; by eexists].
    cbn [forM]. unfold replayBatch, mbind, M_bind. change (Batch.NumberOf (ab_batch ab)) with (Number (ab_header ab)).
    rewrite bool_decide_false by lia. by rewrite Hrun2.
Qed.

(** C13: after a restart the node has the state of its head batch again, provided that every
    batch from the genesis to the head computes to itself on its parent ([rebuildable],
    which is so if no transaction was left out of one). Whichever states were lost,
    [restoreStateDBCache] then ends without an error, keeps the states that are there, adds
    none that is not the one from before the restart, and the state under the root of the
    head batch is there. As many steps back as the height of the head are enough. *)
Theorem restoreStateDBCache_restores n tr s head :
  holds d tr s → tr ⊆ trF → ReadCurrentHeadBatch d = Ok head → rebuildable (Batch.hashOf head) →
  Batch.NumberOf head < Z.of_nat n →
  ∃ s' tr' st, restoreStateDBCache fuel cfg n s = (s', Ok tt) ∧ holds d tr' s' ∧ tr ⊆ tr' ∧ tr' ⊆ trF ∧
    tr' !! Root (Batch.Header head) = Some st ∧ trF !! Root (Batch.Header head) = Some st.
Proof.
  intros Hs Htr Hhead Hre Hn.
  destruct (ReadCurrentHeadBatch_cases d Hd) as [(ab&((h&Hab)&_)&Hread)|[_ Hread]]; rewrite Hread in Hhead; [|done].
  injection Hhead as <-. rewrite (ab_batch_key h ab Hab) in *.
  unfold restoreStateDBCache, mbind, M_bind, try, FetchHeadBatch, query. rewrite (proj1 Hs), Hread. cbv beta iota.
  rewrite (ab_batch_key h ab Hab). destruct (stateDBAvailable_run tr s h ab Hs Hab) as (s1&Hrun1&Hs1). rewrite Hrun1.
  case_bool_decide as Hav.
  { destruct Hav as [st Hst]. exists s1, tr, st. split_and!; [done..|]. by apply (lookup_weaken _ _ _ _ Hst). }
  unfold wrap, replayBatchesToValidState, mbind, M_bind, wrap, FetchHeadBatch, query. rewrite (proj1 Hs1), Hread. cbv beta iota.
  destruct (collectBatches_run tr n h ab [] s1 Hs1 Hre Hab Hn) as (s2&l&Hrun2&Hs2&Hl). rewrite app_nil_r in Hrun2. rewrite Hrun2.
  rewrite bool_decide_false.
  2:{ intros ->. inversion Hl as [? ab' Hab'| |? ? l' _ _ _ Heq]; [|by destruct l']. rewrite Hab in Hab'. by injection Hab' as <-. }
  destruct (replay_run tr l h Hl s2 Hs2 Htr) as (s3&tr3&Hrun3&Hs3&Hsub&Htr3&ab'&Hab'&st&Hst). rewrite Hrun3.
  rewrite Hab in Hab'. injection Hab' as <-. exists s3, tr3, st. split_and!; [done..|]. by apply (lookup_weaken _ _ _ _ Hst).
Qed.
End recovery.
