(* ===== verification/HostDB.v ===== *)
(** * The database of the host

    [go/host/db]: batches, L1 headers and rollup headers in a key-value store.
    The store is goleveldb or go-ethereum's memory database behind a wrapper that
    reports [ErrNotFound]; its I/O errors are not modelled. *)

From S2P Require Import Prelude Types Codec Bytes EnclaveDB BatchDB.
Local Open Scope Z_scope.

(** ** Keys ([hostdb.go]) *)

Definition blockHeaderPrefix : bytes := ascii_bytes "b".
Definition blockNumberHeaderPrefix : bytes := ascii_bytes "bnh".
Definition batchHeaderPrefix : bytes := ascii_bytes "ba".
Definition batchHashPrefix : bytes := ascii_bytes "bh".
Definition batchNumberPrefix : bytes := ascii_bytes "bn".
Definition batchPrefix : bytes := ascii_bytes "bp".
Definition batchHashForSeqNoPrefix : bytes := ascii_bytes "bs".
Definition batchTxHashesPrefix : bytes := ascii_bytes "bt".
Definition headBatch : bytes := ascii_bytes "hb".
Definition totalTransactionsKey : bytes := ascii_bytes "t".
Definition rollupHeaderPrefix : bytes := ascii_bytes "rh".
Definition rollupHeaderBlockPrefix : bytes := ascii_bytes "rhb".
Definition tipRollupHash : bytes := ascii_bytes "tr".
Definition blockHeadedAtTip : bytes := ascii_bytes "bht".

(** RLP of what the host stores. *)
Class HostCodecs := {
  #[global] codec_l1header :: Codec L1Header;
  #[global] codec_batchheader :: Codec BatchHeader;
  #[global] codec_extbatch :: Codec ExtBatch;
  #[global] codec_hashes :: Codec (list Hash);
  #[global] codec_rollupheader :: Codec RollupHeader
}.
(** RLP is injective and never empty. *)
Definition nonempty (A : Type) `{Codec A} : Prop := ∀ a : A, rlp_encode a ≠ Some [].
Class HostCodecsOk `{HostCodecs} : Prop := {
  #[global] codec_l1header_ok :: CodecOk L1Header;
  #[global] codec_batchheader_ok :: CodecOk BatchHeader;
  #[global] codec_extbatch_ok :: CodecOk ExtBatch;
  #[global] codec_hashes_ok :: CodecOk (list Hash);
  #[global] codec_rollupheader_ok :: CodecOk RollupHeader;
  host_nonempty : nonempty L1Header ∧ nonempty BatchHeader ∧ nonempty ExtBatch ∧ nonempty (list Hash) ∧ nonempty RollupHeader
}.

(** ** The key-value store *)

Abbreviation KV := (gmap bytes bytes).
(** [ethdb.Batch]: what is written at once. *)
Abbreviation Writes := (list (bytes * bytes)).

Definition kv_Get (key : bytes) (db : KV) : result bytes := of_option ErrNotFound (db !! key).
Definition kv_Put (key value : bytes) : M KV unit := modify (<[key := value]>).
Definition w_Put (w : Writes) (key value : bytes) : Writes := w ++ [(key, value)].
Definition w_Write (w : Writes) : M KV unit := modify (λ db, foldl (λ m kv, <[kv.1 := kv.2]> m) db w).

(** [len(data) == 0] is treated as not found. *)
Definition nonEmpty (data : bytes) : result bytes := match data with [] => Err ErrNotFound | _ => Ok data end.

Section db.
Context `{Hashing, HB : HashBytes, HC : HostCodecs}.

Definition batchHeaderKey (hash : Hash) : bytes := batchHeaderPrefix ++ Hash_Bytes hash.
Definition batchKey (hash : Hash) : bytes := batchPrefix ++ Hash_Bytes hash.
Definition batchHashKey (num : Z) : bytes := batchHashPrefix ++ big_String num.
Definition batchTxHashesKey (hash : Hash) : bytes := batchTxHashesPrefix ++ Hash_Bytes hash.
Definition batchNumberKey (txHash : Hash) : bytes := batchNumberPrefix ++ Hash_Bytes txHash.
Definition batchHashBySeqNoKey (seqNo : Z) : bytes := batchHashForSeqNoPrefix ++ big_String seqNo.
Definition blockNumberKey (height : Z) : bytes := blockNumberHeaderPrefix ++ big_Bytes height.
Definition blockHashKey (hash : Hash) : bytes := blockHeaderPrefix ++ Hash_Bytes hash.
Definition rollupHashKey (hash : Hash) : bytes := rollupHeaderPrefix ++ Hash_Bytes hash.
Definition rollupBlockKey (hash : Hash) : bytes := rollupHeaderBlockPrefix ++ Hash_Bytes hash.

(** A value decoded from a key. *)
Definition readRLP {A} `{Codec A} (key : bytes) (db : KV) : result A :=
  data ← kv_Get key db;
  data ← nonEmpty data;
  DecodeBytes data.

(** ** Batches ([batches.go]) *)

Definition readBatchHeader (hash : Hash) : KV → result BatchHeader := readRLP (batchHeaderKey hash).
Definition readHeadBatchHash (db : KV) : result Hash := value ← kv_Get headBatch db; Ok (BytesToHash value).
Definition GetBatchHeader (hash : Hash) : KV → result BatchHeader := readBatchHeader hash.
Definition GetHeadBatchHeader (db : KV) : result BatchHeader :=
  headBatchHash ← readHeadBatchHash db;
  readBatchHeader headBatchHash db.

Definition writeBatchHeader (w : Writes) (header : BatchHeader) : result Writes :=
  data ← EncodeToBytes header;
  Ok (w_Put w (batchHeaderKey (BatchHeader_Hash header)) data).
Definition writeHeadBatchHash (w : Writes) (val : Hash) : Writes := w_Put w headBatch (Hash_Bytes val).
Definition writeBatchHash (w : Writes) (header : BatchHeader) : Writes :=
  w_Put w (batchHashKey (Number header)) (Hash_Bytes (BatchHeader_Hash header)).
Definition writeBatchSeqNo (w : Writes) (header : BatchHeader) : Writes :=
  w_Put w (batchHashBySeqNoKey (SequencerOrderNo header)) (Hash_Bytes (BatchHeader_Hash header)).
Definition writeBatchNumber (header : BatchHeader) (w : Writes) (txHash : Hash) : Writes :=
  w_Put w (batchNumberKey txHash) (big_Bytes (Number header)).
Definition writeBatchTxHashes (w : Writes) (batchHash : Hash) (txHashes : list Hash) : result Writes :=
  data ← EncodeToBytes txHashes;
  Ok (w_Put w (batchTxHashesKey batchHash) data).
Definition writeTotalTransactions (w : Writes) (newTotal : Z) : Writes :=
  w_Put w totalTransactionsKey (big_Bytes newTotal).
Definition writeBatch (w : Writes) (batch : ExtBatch) : result Writes :=
  data ← EncodeToBytes batch;
  Ok (w_Put w (batchKey (ExtBatch_Hash batch)) data).

(** A hash stored under a key. *)
Definition readHash (key : bytes) (db : KV) : result Hash :=
  data ← kv_Get key db;
  data ← nonEmpty data;
  Ok (BytesToHash data).

Definition readBatchHash (number : Z) : KV → result Hash := readHash (batchHashKey number).
Definition readBatchHashBySequenceNumber (seqNum : Z) : KV → result Hash := readHash (batchHashBySeqNoKey seqNum).
Definition readBatchTxHashes (batchHash : Hash) : KV → result (list Hash) := readRLP (batchTxHashesKey batchHash).
Definition readBatchNumber (txHash : Hash) (db : KV) : result Z :=
  data ← kv_Get (batchNumberKey txHash) db;
  data ← nonEmpty data;
  Ok (big_SetBytes data).
Definition readTotalTransactions (db : KV) : result Z :=
  match kv_Get totalTransactionsKey db with
  | Err err => if errors_Is err ErrNotFound then Ok 0 else Err err
  | Crash c => Crash c
  | Ok [] => Ok 0
  | Ok data => Ok (big_SetBytes data)
  end.
Definition readBatch (hash : Hash) : KV → result ExtBatch := readRLP (batchKey hash).

Definition GetBatchHash (number : Z) : KV → result Hash := readBatchHash number.
Definition GetBatchTxs (batchHash : Hash) : KV → result (list Hash) := readBatchTxHashes batchHash.
Definition GetBatchNumber (txHash : Hash) : KV → result Z := readBatchNumber txHash.
Definition GetTotalTransactions : KV → result Z := readTotalTransactions.
(** [GetBatch] of the host *)
Definition hostdb_GetBatch (batchHash : Hash) : KV → result ExtBatch := readBatch batchHash.
Definition GetBatchBySequenceNumber (sequenceNumber : Z) (db : KV) : result ExtBatch :=
  match readBatchHashBySequenceNumber sequenceNumber db with
  | Ok batchHash => hostdb_GetBatch batchHash db
  | Err err => Err (ErrWrap "could not retrieve batch hash" err)
  | Crash c => Crash c
  end.

(** [r], or nil where it is not found. *)
Definition orNil {A} (r : result A) : result (option A) :=
  match r with
  | Ok a => Ok (Some a)
  | Err err => if errors_Is err ErrNotFound then Ok None else Err err
  | Crash c => Crash c
  end.

(** What [AddBatch] queues after the batch itself. *)
Definition writeTotals (db : KV) (batch : ExtBatch) (w : Writes) : result Writes :=
  currentTotal ← wrapR "could not retrieve total transactions" (readTotalTransactions db);
  let newTotal := currentTotal + Int.i64 (Z.of_nat (length (ext_txhashes batch))) in
  let w := writeTotalTransactions w newTotal in
  headBatchHeader ← wrapR "could not retrieve head batch header" (orNil (GetHeadBatchHeader db));
  Ok (match headBatchHeader with
      | Some head => if Number head <? Number (ext_header batch) then writeHeadBatchHash w (ExtBatch_Hash batch) else w
      | None => writeHeadBatchHash w (ExtBatch_Hash batch)
      end).

Definition batchWrites (db : KV) (batch : ExtBatch) : result Writes :=
  w ← wrapR "could not write batch header" (writeBatchHeader [] (ext_header batch));
  w ← wrapR "could not write batch" (writeBatch w batch);
  w ← wrapR "could not write batch transaction hashes" (writeBatchTxHashes w (ExtBatch_Hash batch) (ext_txhashes batch));
  let w := writeBatchHash w (ext_header batch) in
  let w := writeBatchSeqNo w (ext_header batch) in
  writeTotals db batch (foldl (writeBatchNumber (ext_header batch)) w (ext_txhashes batch)).

Definition hostdb_AddBatch (batch : ExtBatch) : M KV unit :=
  db ← gets id;
  known ← lift (wrapR "4. could not retrieve batch header" (orNil (GetBatchHeader (ExtBatch_Hash batch) db)));
  match known with
  | Some _ => fail ErrAlreadyExists
  | None => w ← lift (batchWrites db batch); w_Write w
  end.

(** The turns of a loop from [Offset] while below [Offset + Size], in 64 bits. *)
Definition pageLength (p : QueryPagination) : nat := Z.to_nat (Int.u64 (Offset p + Size p) - Offset p).

(** Batches by sequence number; the ones missing are left out. *)
Fixpoint listBatches (i : Z) (n : nat) (db : KV) : result (list BatchHeader) :=
  match n with
  | O => Ok []
  | S n =>
      extBatch ← orNil (GetBatchBySequenceNumber (Int.i64 i) db);
      rest ← listBatches (i + 1) n db;
      Ok (match extBatch with Some b => ext_header b :: rest | None => rest end)
  end.

Definition GetBatchListing (pagination : QueryPagination) (db : KV) : result (list BatchHeader * Z) :=
  batches ← listBatches (Offset pagination) (pageLength pagination) db;
  header ← GetHeadBatchHeader db;
  Ok (batches, Int.u64 (Number header)).

(** ** Blocks ([blocks.go]) *)

Definition readBlock (key : bytes) : KV → result L1Header := readRLP key.
Definition GetBlockByHash (hash : Hash) : KV → result L1Header := readBlock (blockHashKey hash).
Definition GetBlockByHeight (height : Z) : KV → result L1Header := readBlock (blockNumberKey height).
Definition GetBlockAtTip (db : KV) : result L1Header := value ← kv_Get blockHeadedAtTip db; GetBlockByHash (BytesToHash value) db.
Definition writeBlockAtTip (w : Writes) (hash : Hash) : Writes := w_Put w blockHeadedAtTip (Hash_Bytes hash).
Definition writeBlockByHash (header : L1Header) : M KV unit :=
  data ← lift (EncodeToBytes header); kv_Put (blockHashKey (h_hash header)) data.
Definition writeBlockByHeight (header : L1Header) : M KV unit :=
  data ← lift (EncodeToBytes header); kv_Put (blockNumberKey (h_number header)) data.

(** The header is written at once, the tip in a batch. *)
Definition hostdb_AddBlock (header : L1Header) : M KV unit :=
  _ ← wrap "could not write block header" (writeBlockByHash header);
  _ ← wrap "could not write block header" (writeBlockByHeight header);
  db ← gets id;
  tipBlockHeader ← lift (wrapR "could not retrieve block header at tip" (orNil (GetBlockAtTip db)));
  w_Write (match tipBlockHeader with
           | Some tip => if h_number tip <? h_number header then writeBlockAtTip [] (h_hash header) else []
           | None => writeBlockAtTip [] (h_hash header)
           end).

(** ** Rollups ([rollups.go]) *)

Definition readRollupHeader (key : bytes) : KV → result RollupHeader := readRLP key.
Definition GetRollupHeader (hash : Hash) : KV → result RollupHeader := readRollupHeader (rollupHashKey hash).
Definition readTipRollupHash (db : KV) : result Hash := value ← kv_Get tipRollupHash db; Ok (BytesToHash value).
Definition GetTipRollupHeader (db : KV) : result RollupHeader :=
  hash ← readTipRollupHash db;
  readRollupHeader (rollupHashKey hash) db.
Definition GetRollupHeaderByBlock (blockHash : Hash) : KV → result RollupHeader := readRollupHeader (rollupBlockKey blockHash).
Definition writeRollupHeader (w : Writes) (header : RollupHeader) : result Writes :=
  data ← EncodeToBytes header; Ok (w_Put w (rollupHashKey (RollupHeader_Hash header)) data).
Definition writeTipRollupHeader (w : Writes) (val : Hash) : Writes := w_Put w tipRollupHash (Hash_Bytes val).
Definition writeRollupByBlockHash (w : Writes) (header : RollupHeader) (blockHash : Hash) : result Writes :=
  data ← EncodeToBytes header; Ok (w_Put w (rollupBlockKey blockHash) data).

Definition rollupWrites (db : KV) (header : RollupHeader) (blockHash : Hash) : result Writes :=
  w ← wrapR "could not write rollup header" (writeRollupHeader [] header);
  w ← wrapR "could not write rollup block" (writeRollupByBlockHash w header blockHash);
  tipRollupHeader ← wrapR "could not retrieve rollup header at tip" (orNil (GetTipRollupHeader db));
  Ok (match tipRollupHeader with
      | Some tip => if LastBatchSeqNo tip <? LastBatchSeqNo header then writeTipRollupHeader w (RollupHeader_Hash header) else w
      | None => writeTipRollupHeader w (RollupHeader_Hash header)
      end).

(** A rollup whose decoding failed has no header: its hash dereferences nil. *)
Definition AddRollupHeader (header : option RollupHeader) (blockHash : Hash) : M KV unit :=
  match header with
  | None => crash "nil rollup header"
  | Some header =>
      db ← gets id;
      known ← lift (wrapR "could not retrieve rollup header" (orNil (GetRollupHeader (RollupHeader_Hash header) db)));
      match known with
      | Some _ => fail ErrAlreadyExists
      | None => w ← lift (rollupWrites db header blockHash); w_Write w
      end
  end.

(** Blocks by height with the hash of the rollup in them. [NilHeaderHash] is the
    hash of a nil header. *)
Fixpoint listBlocks (NilHeaderHash : Hash) (i : Z) (n : nat) (db : KV) : result (list (L1Header * Hash)) :=
  match n with
  | O => Ok []
  | S n =>
      header ← orNil (GetBlockByHeight (Int.i64 i) db);
      rollup ← orNil (GetRollupHeaderByBlock (match header with Some h => h_hash h | None => NilHeaderHash end) db);
      rest ← listBlocks NilHeaderHash (i + 1) n db;
      Ok (match header with
          | Some h => (h, match rollup with Some r => RollupHeader_Hash r | None => 0 end) :: rest
          | None => rest
          end)
  end.

Definition GetBlockListing (NilHeaderHash : Hash) (pagination : QueryPagination) (db : KV)
    : result (list (L1Header * Hash) * Z) :=
  blocks ← listBlocks NilHeaderHash (Offset pagination) (pageLength pagination) db;
  tipHeader ← GetBlockAtTip db;
  Ok (blocks, Int.u64 (h_number tipHeader)).
End db.
