(* ===== verification/HostDBSpec.v ===== *)
(** * What the database of the host stores

    The keys of the store do not collide, and the store implements an abstract
    history of batches, blocks and rollups. *)

From S2P Require Import Prelude Types Codec Bytes EnclaveDB BatchDB HostDB.
Local Open Scope Z_scope.

(** ** Keys *)

Inductive Key :=
  | KBlock (h : Hash) | KHeight (n : Z) | KTip
  | KHeader (h : Hash) | KBatch (h : Hash) | KTxs (h : Hash) | KNumber (n : Z) | KSeq (n : Z) | KTx (h : Hash) | KHead | KTotal
  | KRollup (h : Hash) | KRollupAt (h : Hash) | KTipRollup.
#[export] Instance Key_eq_dec : EqDecision Key.
Proof. solve_decision. Defined.

Section keys.
Context `{HashBytesOk}.

Definition key (k : Key) : bytes :=
  match k with
  | KBlock h => blockHashKey h
  | KHeight n => blockNumberKey n
  | KTip => blockHeadedAtTip
  | KHeader h => batchHeaderKey h
  | KBatch h => batchKey h
  | KTxs h => batchTxHashesKey h
  | KNumber n => batchHashKey n
  | KSeq n => batchHashBySeqNoKey n
  | KTx h => batchNumberKey h
  | KHead => headBatch
  | KTotal => totalTransactionsKey
  | KRollup h => rollupHashKey h
  | KRollupAt h => rollupBlockKey h
  | KTipRollup => tipRollupHash
  end.

(** Heights and sequence numbers have 64 bits. *)
Definition key_ok (k : Key) : Prop :=
  match k with
  | KHeight n | KNumber n | KSeq n => 0 ≤ n < 2 ^ 64
  | _ => True
  end.

Lemma Hash_Bytes_inj h1 h2 : Hash_Bytes h1 = Hash_Bytes h2 → h1 = h2.
Proof. intros Heq. rewrite <-(hash_roundtrip h1), <-(hash_roundtrip h2). by f_equal. Qed.

(** What a key looks like: its kind and what follows. *)
Definition shape (k : Key) (l : bytes) : Prop :=
  match k with
  | KBlock h => l = 98 :: Hash_Bytes h
  | KHeight n => l = 98 :: 110 :: 104 :: big_Bytes n
  | KTip => l = [98; 104; 116]
  | KHeader h => l = 98 :: 97 :: Hash_Bytes h
  | KBatch h => l = 98 :: 112 :: Hash_Bytes h
  | KTxs h => l = 98 :: 116 :: Hash_Bytes h
  | KNumber n => l = 98 :: 104 :: big_String n
  | KSeq n => l = 98 :: 115 :: big_String n
  | KTx h => l = 98 :: 110 :: Hash_Bytes h
  | KHead => l = [104; 98]
  | KTotal => l = [116]
  | KRollup h => l = 114 :: 104 :: Hash_Bytes h
  | KRollupAt h => l = 114 :: 104 :: 98 :: Hash_Bytes h
  | KTipRollup => l = [116; 114]
  end.
Lemma key_shape k : shape k (key k).
Proof. destruct k; reflexivity. Qed.

(** No two keys collide. *)
Lemma key_inj k1 k2 : key_ok k1 → key_ok k2 → key k1 = key k2 → k1 = k2.
Proof.
  intros Hk1 Hk2 Heq. pose proof (key_shape k1) as S1. pose proof (key_shape k2) as S2. rewrite Heq in S1.
  assert (∀ h, length (Hash_Bytes h) = 32%nat) as Hlen by apply hash_length.
  assert (∀ n, 0 ≤ n < 2 ^ 64 → (length (big_String n) ≤ 20)%nat) as Hdec by (intros n Hn; by apply big_String_u64).
  assert (∀ n, 0 ≤ n < 2 ^ 64 → (length (big_Bytes n) ≤ 8)%nat) as Hbe by (intros n Hn; by apply big_Bytes_u64).
  assert (∀ n, 0 ≤ n < 2 ^ 64 → big_String n ≠ [116]) as Hdigit.
  { intros n Hn Hn'. destruct (big_String_u64 n Hn) as [_ Hd]. rewrite Hn' in Hd. apply Forall_inv in Hd. lia. }
  assert (∀ n m, 0 ≤ n < 2 ^ 64 → 0 ≤ m < 2 ^ 64 → big_Bytes n = big_Bytes m → n = m) as Hinj.
  { intros n m Hn Hm E. rewrite <-(proj2 (big_Bytes_u64 n Hn)), <-(proj2 (big_Bytes_u64 m Hm)). by f_equal. }
  destruct k1, k2; simpl in Hk1, Hk2, S1, S2; rewrite S1 in S2; try discriminate S2; try done;
    first
    [ f_equal; solve [apply Hash_Bytes_inj; congruence|apply big_String_inj; [lia|lia|congruence]|apply Hinj; [lia|lia|congruence]]
    | exfalso; apply (f_equal length) in S2; simpl in S2; rewrite ?Hlen in S2;
      repeat match goal with Hn : 0 ≤ ?n < 2 ^ 64 |- _ => pose proof (Hdec n Hn); pose proof (Hbe n Hn); clear Hn end; lia
    | exfalso; match goal with Hn : 0 ≤ ?n < _ |- _ => apply (Hdigit n Hn); congruence end ].
Qed.
End keys.

(** ** The history a store implements *)

(** The last element with a property, and the first of the highest. *)
Definition latest {A} (P : A → Prop) `{∀ a, Decision (P a)} (l : list A) : option A := last (filter P l).
Definition highest {A} (f : A → Z) (l : list A) : option A :=
  foldl (λ acc a, match acc with Some m => if f m <? f a then Some a else acc | None => Some a end) None l.

Lemma latest_snoc {A} (P : A → Prop) `{∀ a, Decision (P a)} l a :
  latest P (l ++ [a]) = if decide (P a) then Some a else latest P l.
Proof.
  unfold latest. rewrite filter_app. case_decide.
  - rewrite filter_cons_True, filter_nil by done. by rewrite last_snoc.
  - by rewrite filter_cons_False, filter_nil, app_nil_r by done.
Qed.
Lemma latest_Some {A} (P : A → Prop) `{∀ a, Decision (P a)} l a : latest P l = Some a → P a ∧ a ∈ l.
Proof. intros Ha%last_Some_elem_of. by apply list_elem_of_filter in Ha. Qed.
Lemma latest_None {A} (P : A → Prop) `{∀ a, Decision (P a)} l a : latest P l = None → a ∈ l → ¬ P a.
Proof.
  intros Hl%last_None Hin Ha. assert (a ∈ filter P l) as Hf by (by apply list_elem_of_filter).
  rewrite Hl in Hf. by apply elem_of_nil in Hf.
Qed.
Lemma highest_snoc {A} (f : A → Z) l a :
  highest f (l ++ [a]) = match highest f l with Some m => if f m <? f a then Some a else Some m | None => Some a end.
Proof. unfold highest. rewrite foldl_app. simpl. destruct (foldl _ None l); [|done]. by destruct (_ <? _). Qed.
Lemma highest_Some {A} (f : A → Z) l a : highest f l = Some a → a ∈ l ∧ ∀ b, b ∈ l → f b ≤ f a.
Proof.
  revert a. induction l as [|b l IH] using rev_ind; intros a; [done|]. rewrite highest_snoc.
  destruct (highest f l) as [m|] eqn:Hm.
  - destruct (IH m eq_refl) as [Hin Hmax]. destruct (Z.ltb_spec (f m) (f b)); intros [= <-].
    + split; [apply elem_of_app; right; by left|]. intros c [Hc|Hc%list_elem_of_singleton]%elem_of_app; [|by subst]. specialize (Hmax c Hc). lia.
    + split; [apply elem_of_app; by left|]. intros c [Hc|Hc%list_elem_of_singleton]%elem_of_app; [by apply Hmax|by subst].
  - intros [= <-]. split; [apply elem_of_app; right; by left|]. destruct l as [|c l _] using rev_ind; [|rewrite highest_snoc in Hm; destruct (highest f l); [destruct (_ <? _)|]; done].
    intros c Hc. by apply list_elem_of_singleton in Hc as ->.
Qed.

(** What a query of an optional value answers. *)
Definition found {B C} (f : B → C) (o : option B) : result C := match o with Some b => Ok (f b) | None => Err ErrNotFound end.

Record History := mkHistory {
  hi_batches : list ExtBatch;
  hi_blocks : list L1Header;
  hi_rollups : list (RollupHeader * Hash)
}.

Section history.
Context `{Hashing, HBO : HashBytesOk, HCO : HostCodecsOk}.
Implicit Types (A : History) (db : KV).

Definition batchAt A (h : Hash) : option ExtBatch := latest (λ b, ExtBatch_Hash b = h) (hi_batches A).
Definition totalOf A : Z := foldr (λ b n, Z.of_nat (length (ext_txhashes b)) + n) 0 (hi_batches A).

(** What is stored under a key. *)
Definition content A (k : Key) : option bytes :=
  match k with
  | KBlock h => latest (λ b, h_hash b = h) (hi_blocks A) ≫= rlp_encode
  | KHeight n => latest (λ b, h_number b = n) (hi_blocks A) ≫= rlp_encode
  | KTip => Hash_Bytes ∘ h_hash <$> highest h_number (hi_blocks A)
  | KHeader h => b ← batchAt A h; rlp_encode (ext_header b)
  | KBatch h => b ← batchAt A h; rlp_encode b
  | KTxs h => b ← batchAt A h; rlp_encode (ext_txhashes b)
  | KNumber n => Hash_Bytes ∘ ExtBatch_Hash <$> latest (λ b, Number (ext_header b) = n) (hi_batches A)
  | KSeq n => Hash_Bytes ∘ ExtBatch_Hash <$> latest (λ b, SequencerOrderNo (ext_header b) = n) (hi_batches A)
  | KTx t => (λ b, big_Bytes (Number (ext_header b))) <$> latest (λ b, t ∈ ext_txhashes b) (hi_batches A)
  | KHead => Hash_Bytes ∘ ExtBatch_Hash <$> highest (Number ∘ ext_header) (hi_batches A)
  | KTotal => match hi_batches A with [] => None | _ => Some (big_Bytes (totalOf A)) end
  | KRollup h => latest (λ r, RollupHeader_Hash r.1 = h) (hi_rollups A) ≫= λ r, rlp_encode r.1
  | KRollupAt h => latest (λ r, r.2 = h) (hi_rollups A) ≫= λ r, rlp_encode r.1
  | KTipRollup => (λ r, Hash_Bytes (RollupHeader_Hash r.1)) <$> highest (λ r, LastBatchSeqNo r.1) (hi_rollups A)
  end.

(** A batch that can be stored. *)
Record batch_ok (b : ExtBatch) : Prop := {
  bo_number : 0 ≤ Number (ext_header b) < 2 ^ 64;
  bo_seq : 0 ≤ SequencerOrderNo (ext_header b) < 2 ^ 64;
  bo_txs : Z.of_nat (length (ext_txhashes b)) < 2 ^ 63;
  bo_header : is_Some (rlp_encode (ext_header b));
  bo_batch : is_Some (rlp_encode b);
  bo_hashes : is_Some (rlp_encode (ext_txhashes b))
}.
Definition block_ok (b : L1Header) : Prop := 0 ≤ h_number b < 2 ^ 64 ∧ is_Some (rlp_encode b).

Record history_ok A : Prop := {
  ho_batches : Forall batch_ok (hi_batches A);
  ho_blocks : Forall block_ok (hi_blocks A);
  ho_hashes : ∀ b1 b2, b1 ∈ hi_blocks A → b2 ∈ hi_blocks A → h_hash b1 = h_hash b2 → b1 = b2;
  ho_unique : ∀ b1 b2, b1 ∈ hi_batches A → b2 ∈ hi_batches A → ExtBatch_Hash b1 = ExtBatch_Hash b2 → b1 = b2;
  ho_rollups : Forall (λ r, is_Some (rlp_encode r.1)) (hi_rollups A);
  ho_runique : ∀ r1 r2, r1 ∈ hi_rollups A → r2 ∈ hi_rollups A → RollupHeader_Hash r1.1 = RollupHeader_Hash r2.1 → r1.1 = r2.1
}.

(** The store [db] implements the history [A]. *)
Definition implements db A : Prop := history_ok A ∧ ∀ k, key_ok k → db !! key k = content A k.

Lemma implements_empty : implements ∅ (mkHistory [] [] []).
Proof. split; [split; try constructor; set_solver|]. intros k _. rewrite lookup_empty. by destruct k. Qed.

(** *** Reading *)

Lemma readRLP_Some {B} `{CodecOk B} db k v b :
  nonempty B → db !! k = Some v → rlp_encode b = Some v → readRLP k db = Ok b.
Proof.
  intros Hne Hk Henc. unfold readRLP, kv_Get. rewrite Hk. result_unfold. destruct v; [by destruct (Hne b)|].
  simpl. apply DecodeBytes_Encode. unfold EncodeToBytes. by rewrite Henc.
Qed.
Lemma readRLP_None {B} `{Codec B} db k : db !! k = None → readRLP (A:=B) k db = Err ErrNotFound.
Proof. intros Hk. unfold readRLP, kv_Get. by rewrite Hk. Qed.

Lemma readRLP_found {B C} `{CodecOk C} db k (f : B → C) (o : option B) :
  nonempty C → db !! k = (b ← o; rlp_encode (f b)) → (∀ b, o = Some b → is_Some (rlp_encode (f b))) → readRLP k db = found f o.
Proof.
  intros Hne Hk Henc. destruct o as [b|]; simpl in Hk; [|by apply readRLP_None].
  destruct (Henc b eq_refl) as [v Hv]. rewrite Hv in Hk. by eapply readRLP_Some.
Qed.

Lemma Hash_Bytes_cons h : ∃ x l, Hash_Bytes h = x :: l.
Proof. pose proof (hash_length h). destruct (Hash_Bytes h) as [|x l]; [done|]. by exists x, l. Qed.
Lemma readHash_Some db k h : db !! k = Some (Hash_Bytes h) → readHash k db = Ok h.
Proof.
  intros Hk. unfold readHash, kv_Get. rewrite Hk. result_unfold. destruct (Hash_Bytes_cons h) as (x&l&Hx).
  rewrite Hx. simpl. rewrite <-Hx. by rewrite hash_roundtrip.
Qed.

Lemma batchAt_in A b : history_ok A → b ∈ hi_batches A → batchAt A (ExtBatch_Hash b) = Some b.
Proof.
  intros HA Hb. unfold batchAt. destruct (latest _ (hi_batches A)) as [b'|] eqn:Hl.
  - apply latest_Some in Hl as [Heq Hin]. f_equal. by apply (ho_unique A HA).
  - by destruct (latest_None _ _ b Hl).
Qed.

Section implementation.
Context (db : KV) (A : History) (Himp : implements db A).

Lemma batchAt_ok h b : batchAt A h = Some b → batch_ok b.
Proof.
  intros [_ Hin]%latest_Some. destruct Himp as [HA _]. by apply (proj1 (Forall_forall _ _) (ho_batches A HA)).
Qed.

Lemma stored_batch h : readBatch h db = found id (batchAt A h).
Proof.
  apply readRLP_found; [apply host_nonempty|apply (proj2 Himp (KBatch h) I)|]. intros b Hb. apply (bo_batch b), (batchAt_ok h b Hb).
Qed.
Lemma stored_header h : readBatchHeader h db = found ext_header (batchAt A h).
Proof.
  apply readRLP_found; [apply host_nonempty|apply (proj2 Himp (KHeader h) I)|]. intros b Hb. apply (bo_header b), (batchAt_ok h b Hb).
Qed.
Lemma stored_txs h : readBatchTxHashes h db = found ext_txhashes (batchAt A h).
Proof.
  apply readRLP_found; [apply host_nonempty|apply (proj2 Himp (KTxs h) I)|]. intros b Hb. apply (bo_hashes b), (batchAt_ok h b Hb).
Qed.

Lemma latest_block_ok P `{∀ b, Decision (P b)} b : latest P (hi_blocks A) = Some b → is_Some (rlp_encode b).
Proof.
  intros [_ Hin]%latest_Some. destruct Himp as [HA _]. by apply (proj1 (Forall_forall _ _) (ho_blocks A HA)).
Qed.
Lemma stored_block h : GetBlockByHash h db = found id (latest (λ b, h_hash b = h) (hi_blocks A)).
Proof. apply readRLP_found; [apply host_nonempty|apply (proj2 Himp (KBlock h) I)|apply latest_block_ok]. Qed.
Lemma stored_height n : 0 ≤ n < 2 ^ 64 → GetBlockByHeight n db = found id (latest (λ b, h_number b = n) (hi_blocks A)).
Proof. intros Hn. apply readRLP_found; [apply host_nonempty|apply (proj2 Himp (KHeight n) Hn)|apply latest_block_ok]. Qed.

Lemma latest_rollup_ok P `{∀ r, Decision (P r)} r : latest P (hi_rollups A) = Some r → is_Some (rlp_encode r.1).
Proof.
  intros [_ Hin]%latest_Some. destruct Himp as [HA _]. by apply (proj1 (Forall_forall _ _) (ho_rollups A HA) r).
Qed.
Lemma stored_rollup h : GetRollupHeader h db = found fst (latest (λ r, RollupHeader_Hash r.1 = h) (hi_rollups A)).
Proof. apply readRLP_found; [apply host_nonempty|apply (proj2 Himp (KRollup h) I)|apply latest_rollup_ok]. Qed.
Lemma stored_rollup_at h : GetRollupHeaderByBlock h db = found fst (latest (λ r, r.2 = h) (hi_rollups A)).
Proof. apply readRLP_found; [apply host_nonempty|apply (proj2 Himp (KRollupAt h) I)|apply latest_rollup_ok]. Qed.

Lemma stored_seq n : 0 ≤ n < 2 ^ 64 →
  match latest (λ b, SequencerOrderNo (ext_header b) = n) (hi_batches A) with
  | Some b => GetBatchBySequenceNumber n db = Ok b
  | None => ∃ e, GetBatchBySequenceNumber n db = Err e ∧ errors_Is e ErrNotFound = true
  end.
Proof.
  intros Hn. destruct Himp as [HA Hdb]. specialize (Hdb (KSeq n) Hn). simpl in Hdb.
  unfold GetBatchBySequenceNumber, readBatchHashBySequenceNumber.
  destruct (latest _ (hi_batches A)) as [b|] eqn:Hl; simpl in Hdb.
  - rewrite (readHash_Some _ _ _ Hdb). unfold hostdb_GetBatch. rewrite stored_batch.
    apply latest_Some in Hl as [_ Hin]. by rewrite (batchAt_in A b HA Hin).
  - unfold readHash, kv_Get. rewrite Hdb. by eexists.
Qed.

(** The head is the first batch of the greatest height. *)
Lemma stored_head :
  GetHeadBatchHeader db = found ext_header (highest (Number ∘ ext_header) (hi_batches A)).
Proof.
  destruct Himp as [HA Hdb]. specialize (Hdb KHead I). simpl in Hdb. unfold GetHeadBatchHeader, readHeadBatchHash, kv_Get.
  rewrite Hdb. destruct (highest _ (hi_batches A)) as [b|] eqn:Hb; simpl; [|done]. result_unfold. rewrite hash_roundtrip.
  rewrite stored_header. apply highest_Some in Hb as [Hin _]. by rewrite (batchAt_in A b HA Hin).
Qed.

Lemma stored_tip_rollup : GetTipRollupHeader db = found fst (highest (λ r, LastBatchSeqNo r.1) (hi_rollups A)).
Proof.
  destruct Himp as [HA Hdb]. specialize (Hdb KTipRollup I). simpl in Hdb.
  unfold GetTipRollupHeader, readTipRollupHash, kv_Get. rewrite Hdb. destruct (highest _ (hi_rollups A)) as [r|] eqn:Hr; [|done].
  simpl. result_unfold. rewrite hash_roundtrip. fold (GetRollupHeader (RollupHeader_Hash r.1) db). rewrite stored_rollup.
  apply highest_Some in Hr as [Hin _]. destruct (latest _ (hi_rollups A)) as [r'|] eqn:Hl.
  - apply latest_Some in Hl as [Heq Hin']. simpl. f_equal. by apply (ho_runique A HA).
  - by destruct (latest_None _ _ r Hl).
Qed.

Lemma stored_tip : GetBlockAtTip db = found id (highest h_number (hi_blocks A)).
Proof.
  destruct Himp as [HA Hdb]. specialize (Hdb KTip I). simpl in Hdb. unfold GetBlockAtTip, kv_Get. rewrite Hdb.
  destruct (highest _ (hi_blocks A)) as [b|] eqn:Hb; [|done]. simpl. result_unfold. rewrite hash_roundtrip, stored_block.
  apply highest_Some in Hb as [Hin _]. destruct (latest _ (hi_blocks A)) as [b'|] eqn:Hl.
  - apply latest_Some in Hl as [Heq Hin']. simpl. f_equal. by apply (ho_hashes A HA).
  - by destruct (latest_None _ _ b Hl).
Qed.

Lemma stored_hash n : 0 ≤ n < 2 ^ 64 → GetBatchHash n db = found ExtBatch_Hash (latest (λ b, Number (ext_header b) = n) (hi_batches A)).
Proof.
  intros Hn. destruct Himp as [HA Hdb]. specialize (Hdb (KNumber n) Hn). simpl in Hdb. unfold GetBatchHash, readBatchHash.
  destruct (latest _ (hi_batches A)) as [b|]; simpl in Hdb; [by rewrite (readHash_Some _ _ _ Hdb)|].
  unfold readHash, kv_Get. by rewrite Hdb.
Qed.

(** A batch of height 0 is read as missing: zero has no bytes. *)
Lemma kv_stored_number t :
  GetBatchNumber t db = match latest (λ b, t ∈ ext_txhashes b) (hi_batches A) with
                        | Some b => if Number (ext_header b) =? 0 then Err ErrNotFound else Ok (Number (ext_header b))
                        | None => Err ErrNotFound
                        end.
Proof.
  destruct Himp as [HA Hdb]. specialize (Hdb (KTx t) I). simpl in Hdb. unfold GetBatchNumber, readBatchNumber, kv_Get.
  destruct (latest _ (hi_batches A)) as [b|] eqn:Hl; simpl in Hdb.
  - apply latest_Some in Hl as [_ Hin].
    pose proof (bo_number b (proj1 (Forall_forall _ _) (ho_batches A HA) b Hin)) as Hpos.
    change (db !! batchNumberKey t = Some (big_Bytes (Number (ext_header b)))) in Hdb. rewrite Hdb. result_unfold.
    assert (big_SetBytes (big_Bytes (Number (ext_header b))) = Number (ext_header b)) as Hset.
    { unfold big_SetBytes, big_Bytes. rewrite Z.abs_eq by lia. apply Gob.setBytes_nat_bytes. lia. }
    destruct (Z.eqb_spec (Number (ext_header b)) 0) as [->|Hn]; [done|].
    destruct (big_Bytes _) as [|x l] eqn:Hb; simpl; [|by rewrite Hset]. by destruct Hn.
  - change (db !! batchNumberKey t = None) in Hdb. by rewrite Hdb.
Qed.

Lemma totalOf_nonneg : 0 ≤ totalOf A.
Proof. unfold totalOf. induction (hi_batches A); simpl; lia. Qed.

Lemma stored_total : readTotalTransactions db = Ok (totalOf A).
Proof.
  destruct Himp as [HA Hdb]. specialize (Hdb KTotal I). simpl in Hdb. unfold readTotalTransactions, kv_Get. rewrite Hdb.
  pose proof totalOf_nonneg as Hpos. unfold totalOf in *. destruct (hi_batches A) as [|b l] eqn:Hl; [done|]. simpl of_option.
  assert (big_SetBytes (big_Bytes (totalOf A)) = totalOf A) as Hset.
  { unfold big_SetBytes, big_Bytes, totalOf. rewrite Hl, Z.abs_eq by done. by apply Gob.setBytes_nat_bytes. }
  unfold totalOf in Hset. rewrite Hl in Hset. destruct (big_Bytes _) as [|x v] eqn:Hbytes; simpl; [|by rewrite Hset].
  unfold big_SetBytes in Hset. simpl in Hset. by rewrite <-Hset.
Qed.
End implementation.

(** *** Writing *)

(** The writes of a list of keys; later ones win. *)
Definition written (ws : list (Key * bytes)) : Writes := (λ p, (key p.1, p.2)) <$> ws.
Definition overwrite (k : Key) (ws : list (Key * bytes)) (o : option bytes) : option bytes :=
  foldl (λ acc p, if decide (p.1 = k) then Some p.2 else acc) o ws.

Lemma lookup_written ws k : Forall (λ p, key_ok p.1) ws → key_ok k → ∀ db,
  foldl (λ m kv, <[kv.1 := kv.2]> m) db (written ws) !! key k = overwrite k ws (db !! key k).
Proof.
  intros Hws Hk. induction Hws as [|[k' v] ws Hk' _ IH]; intros db; [done|]. unfold overwrite. simpl in *. rewrite IH. f_equal.
  destruct (decide (k' = k)) as [->|Hne]; [by rewrite lookup_insert_eq|]. rewrite lookup_insert_ne; [done|].
  intros Heq. by apply Hne, key_inj.
Qed.

Lemma overwrite_app k ws1 ws2 o : overwrite k (ws1 ++ ws2) o = overwrite k ws2 (overwrite k ws1 o).
Proof. unfold overwrite. by rewrite foldl_app. Qed.

(** The keys a batch is stored under. *)
Definition batchKeys (b : ExtBatch) (vh vb vt : bytes) : list (Key * bytes) :=
  [(KHeader (ExtBatch_Hash b), vh); (KBatch (ExtBatch_Hash b), vb); (KTxs (ExtBatch_Hash b), vt);
   (KNumber (Number (ext_header b)), Hash_Bytes (ExtBatch_Hash b)); (KSeq (SequencerOrderNo (ext_header b)), Hash_Bytes (ExtBatch_Hash b))] ++
  ((λ t, (KTx t, big_Bytes (Number (ext_header b)))) <$> ext_txhashes b).

Definition totalKeys A (b : ExtBatch) : list (Key * bytes) :=
  (KTotal, big_Bytes (totalOf A + Z.of_nat (length (ext_txhashes b)))) ::
  match highest (Number ∘ ext_header) (hi_batches A) with
  | Some head => if Number (ext_header head) <? Number (ext_header b) then [(KHead, Hash_Bytes (ExtBatch_Hash b))] else []
  | None => [(KHead, Hash_Bytes (ExtBatch_Hash b))]
  end.

Lemma batchNumber_fold header txs : ∀ w,
  foldl (writeBatchNumber header) w txs = w ++ written ((λ t, (KTx t, big_Bytes (Number header))) <$> txs).
Proof.
  induction txs as [|t txs IH]; intros w; [by rewrite app_nil_r|]. simpl. rewrite IH. unfold writeBatchNumber, w_Put.
  by rewrite <-(assoc_L (++)).
Qed.

Lemma batchWrites_run db A b vh vb vt : implements db A → batch_ok b →
  rlp_encode (ext_header b) = Some vh → rlp_encode b = Some vb → rlp_encode (ext_txhashes b) = Some vt →
  batchWrites db b = Ok (written (batchKeys b vh vb vt ++ totalKeys A b)).
Proof.
  intros Himp Hb Hvh Hvb Hvt. unfold batchWrites, writeBatchHeader, writeBatch, writeBatchTxHashes, EncodeToBytes.
  rewrite Hvh, Hvb, Hvt. cbn [of_option wrapR mbind result_bind]. unfold writeTotals.
  rewrite (stored_total db A Himp), (stored_head db A Himp). cbn [wrapR mbind result_bind].
  rewrite batchNumber_fold. pose proof (bo_txs b Hb).
  rewrite Int.i64_id by (unfold Int.is_i64; lia). unfold written. rewrite fmap_app.
  unfold batchKeys, totalKeys. destruct (highest _ (hi_batches A)) as [head|]; simpl; unfold compose; [destruct (_ <? _)|];
    cbn; unfold writeHeadBatchHash, writeTotalTransactions, w_Put; by rewrite <-?(assoc_L (++)).
Qed.

Lemma batchKeys_ok A b vh vb vt : batch_ok b → Forall (λ p, key_ok p.1) (batchKeys b vh vb vt ++ totalKeys A b).
Proof.
  intros [Hn Hs _ _ _ _]. unfold batchKeys, totalKeys. repeat (apply Forall_app; split).
  - repeat (constructor; [done|]). constructor.
  - apply Forall_fmap, Forall_true. done.
  - constructor; [done|]. destruct (highest _ _); [destruct (_ <? _)|]; by repeat constructor.
Qed.

Definition addBatch A (b : ExtBatch) : History := mkHistory (hi_batches A ++ [b]) (hi_blocks A) (hi_rollups A).

Lemma totalOf_add A b : totalOf (addBatch A b) = totalOf A + Z.of_nat (length (ext_txhashes b)).
Proof. unfold totalOf, addBatch. simpl. induction (hi_batches A); simpl; lia. Qed.

(** The transactions of the batch. *)
Lemma overwrite_txs k header txs o :
  overwrite k ((λ t, (KTx t, big_Bytes (Number header))) <$> txs) o =
  match k with KTx t => if decide (t ∈ txs) then Some (big_Bytes (Number header)) else o | _ => o end.
Proof.
  revert o. induction txs as [|t txs IH]; intros o; [destruct k; try done; by rewrite decide_False by apply not_elem_of_nil|].
  unfold overwrite in *. simpl. rewrite IH. destruct k as [| | | | | | | |t'| | | | |]; try done.
  destruct (decide (KTx t = KTx t')) as [[= ->]|Hne].
  - rewrite (decide_True (P := t' ∈ t' :: txs)) by (by left). by destruct (decide _).
  - destruct (decide (t' ∈ txs)) as [Hin|Hnot]; [rewrite decide_True by (by right); done|].
    rewrite decide_False; [done|]. intros [->|?]%elem_of_cons; [by apply Hne|done].
Qed.

Lemma overwrite_totals k A b o :
  overwrite k (totalKeys A b) o =
  match k with
  | KTotal => Some (big_Bytes (totalOf (addBatch A b)))
  | KHead => match highest (Number ∘ ext_header) (hi_batches A) with
             | Some head => if Number (ext_header head) <? Number (ext_header b) then Some (Hash_Bytes (ExtBatch_Hash b)) else o
             | None => Some (Hash_Bytes (ExtBatch_Hash b))
             end
  | _ => o
  end.
Proof.
  unfold totalKeys. rewrite totalOf_add. destruct (highest _ (hi_batches A)) as [head|]; [destruct (_ <? _)|]; by destruct k.
Qed.

Lemma content_addBatch A b vh vb vt k :
  rlp_encode (ext_header b) = Some vh → rlp_encode b = Some vb → rlp_encode (ext_txhashes b) = Some vt →
  overwrite k (batchKeys b vh vb vt ++ totalKeys A b) (content A k) = content (addBatch A b) k.
Proof.
  intros Hvh Hvb Hvt. unfold batchKeys. rewrite !overwrite_app, overwrite_txs, overwrite_totals.
  destruct k; unfold overwrite; simpl; unfold batchAt; simpl; rewrite ?latest_snoc, ?highest_snoc; try done;
    try (by repeat case_decide; simplify_eq/=).
  - destruct (highest _ (hi_batches A)) as [head|]; [|done]. simpl. by destruct (_ <? _).
  - by destruct (hi_batches A).
Qed.

Lemma history_addBatch A b : history_ok A → batch_ok b → batchAt A (ExtBatch_Hash b) = None → history_ok (addBatch A b).
Proof.
  intros HA Hb Hnew. pose proof HA as [_ _ _ Huniq _ _]. split; simpl; try apply HA.
  - apply Forall_app. split; [apply HA|by apply Forall_singleton].
  - assert (∀ b', b' ∈ hi_batches A → ExtBatch_Hash b' ≠ ExtBatch_Hash b) as Hno.
    { intros b' Hin Heq. pose proof (batchAt_in A b' HA Hin) as Hat. rewrite Heq in Hat. congruence. }
    intros b1 b2 [Hin1|Hin1%list_elem_of_singleton]%elem_of_app [Hin2|Hin2%list_elem_of_singleton]%elem_of_app Heq; subst; try done.
    + by apply Huniq.
    + by destruct (Hno b1).
    + by destruct (Hno b2).
Qed.

(** Storing a batch: it is added to the history, or was there. *)
Lemma AddBatch_implements db A b : implements db A → batch_ok b →
  match batchAt A (ExtBatch_Hash b) with
  | Some _ => hostdb_AddBatch b db = (db, Err ErrAlreadyExists)
  | None => ∃ db', hostdb_AddBatch b db = (db', Ok tt) ∧ implements db' (addBatch A b)
  end.
Proof.
  intros Himp Hb. unfold hostdb_AddBatch, mbind, M_bind, gets, lift, GetBatchHeader, id.
  rewrite (stored_header db A Himp). destruct (batchAt A (ExtBatch_Hash b)) as [b'|] eqn:Hat; [done|]. simpl.
  destruct (bo_header b Hb) as [vh Hvh], (bo_batch b Hb) as [vb Hvb], (bo_hashes b Hb) as [vt Hvt].
  rewrite (batchWrites_run db A b vh vb vt) by done. eexists. split; [done|]. destruct Himp as [HA Hdb].
  split; [by apply history_addBatch|]. intros k Hk. rewrite lookup_written; [|by apply batchKeys_ok|done].
  rewrite (Hdb k Hk). by apply content_addBatch.
Qed.

(** *** Blocks and rollups *)

Definition addBlock A (b : L1Header) : History := mkHistory (hi_batches A) (hi_blocks A ++ [b]) (hi_rollups A).
Definition addRollup A (r : RollupHeader) (block : Hash) : History :=
  mkHistory (hi_batches A) (hi_blocks A) (hi_rollups A ++ [(r, block)]).

(** A header is known by its hash. *)
Definition fits A (b : L1Header) : Prop := block_ok b ∧ ∀ b', b' ∈ hi_blocks A → h_hash b' = h_hash b → b' = b.

Lemma history_addBlock A b : history_ok A → fits A b → history_ok (addBlock A b).
Proof.
  intros HA [Hb Hfit]. split; simpl; try apply HA.
  - apply Forall_app. split; [apply HA|by apply Forall_singleton].
  - intros b1 b2 [Hin1|Hin1%list_elem_of_singleton]%elem_of_app [Hin2|Hin2%list_elem_of_singleton]%elem_of_app Heq; subst; try done.
    + by apply (ho_hashes A HA).
    + by apply Hfit.
    + symmetry. by apply Hfit.
Qed.

(** The tip is read after the header was written. *)
Definition blockKeys (b : L1Header) (v : bytes) : list (Key * bytes) := [(KBlock (h_hash b), v); (KHeight (h_number b), v)].
Definition tipKeys A (b : L1Header) : list (Key * bytes) :=
  match highest h_number (hi_blocks A) with
  | Some tip => if h_number tip <? h_number b then [(KTip, Hash_Bytes (h_hash b))] else []
  | None => [(KTip, Hash_Bytes (h_hash b))]
  end.

Lemma blockKeys_ok A b v : 0 ≤ h_number b < 2 ^ 64 → Forall (λ p, key_ok p.1) (blockKeys b v) ∧ Forall (λ p, key_ok p.1) (tipKeys A b).
Proof.
  intros Hn. split.
  - constructor; [done|]. constructor; [done|constructor].
  - unfold tipKeys. destruct (highest _ _); [destruct (_ <? _)|]; try constructor; done.
Qed.

Lemma tip_after db A b v : implements db A → fits A b → rlp_encode b = Some v →
  let db' := foldl (λ m kv, <[kv.1 := kv.2]> m) db (written (blockKeys b v)) in
  GetBlockAtTip db' = match highest h_number (hi_blocks A) with Some tip => Ok tip | None => Err ErrNotFound end.
Proof.
  intros [HA Hdb] [[Hn _] Hfit] Hv db'.
  assert (∀ k, key_ok k → db' !! key k = overwrite k (blockKeys b v) (content A k)) as Hdb'.
  { intros k Hk. unfold db'. rewrite lookup_written; [by rewrite Hdb|by apply (blockKeys_ok A)|done]. }
  pose proof (Hdb' KTip I) as Htip. unfold overwrite in Htip. simpl in Htip. unfold GetBlockAtTip, kv_Get. rewrite Htip.
  destruct (highest h_number (hi_blocks A)) as [tip|] eqn:Hhigh; [|done]. simpl. result_unfold. rewrite hash_roundtrip.
  apply highest_Some in Hhigh as [Hin _].
  assert (∃ w, rlp_encode tip = Some w) as [w Hw] by (by destruct (proj1 (Forall_forall _ _) (ho_blocks A HA) tip Hin) as [_ [w Hw]]; exists w).
  unfold GetBlockByHash, readBlock. eapply readRLP_Some; [apply host_nonempty| |exact Hw].
  specialize (Hdb' (KBlock (h_hash tip)) I). unfold overwrite in Hdb'. simpl in Hdb'. rewrite Hdb'.
  destruct (decide (KBlock (h_hash b) = KBlock (h_hash tip))) as [[= Heq]|_]; simpl.
  - rewrite <-Hw, (Hfit tip Hin) by congruence. by rewrite Hv.
  - destruct (latest (λ b0, h_hash b0 = h_hash tip) (hi_blocks A)) as [t|] eqn:Hl.
    + apply latest_Some in Hl as [Heq Hint]. simpl. by rewrite (ho_hashes A HA t tip Hint Hin Heq).
    + by destruct (latest_None _ _ tip Hl).
Qed.

Lemma content_addBlock A b v k : rlp_encode b = Some v →
  overwrite k (blockKeys b v ++ tipKeys A b) (content A k) = content (addBlock A b) k.
Proof.
  intros Hv. rewrite overwrite_app. unfold tipKeys.
  destruct k; unfold overwrite; simpl; rewrite ?latest_snoc, ?highest_snoc;
    (destruct (highest h_number (hi_blocks A)) as [tip|]; [destruct (_ <? _)|]); simpl; try done; by repeat case_decide; simplify_eq/=.
Qed.

Definition writes (ws : list (Key * bytes)) db : KV := foldl (λ m kv, <[kv.1 := kv.2]> m) db (written ws).

Lemma AddBlock_run db A b v : implements db A → fits A b → rlp_encode b = Some v →
  hostdb_AddBlock b db = (writes (blockKeys b v ++ tipKeys A b) db, Ok tt).
Proof.
  intros Himp Hfit Hv. unfold hostdb_AddBlock, writeBlockByHash, writeBlockByHeight, EncodeToBytes. rewrite Hv.
  unfold mbind, M_bind, wrap, lift, kv_Put, modify, gets, id. cbn [of_option].
  pose proof (tip_after db A b v Himp Hfit Hv) as Htip. cbn [foldl written blockKeys fmap list_fmap fst snd] in Htip.
  change (key (KBlock (h_hash b))) with (blockHashKey (h_hash b)) in Htip.
  change (key (KHeight (h_number b))) with (blockNumberKey (h_number b)) in Htip. rewrite Htip.
  unfold writes, written, tipKeys. rewrite fmap_app, foldl_app.
  destruct (highest h_number (hi_blocks A)) as [tip|]; [|done]. cbn. by destruct (_ <? _).
Qed.

Lemma AddBlock_implements db A b : implements db A → fits A b →
  ∃ db', hostdb_AddBlock b db = (db', Ok tt) ∧ implements db' (addBlock A b).
Proof.
  intros Himp Hfit. destruct (proj2 (proj1 Hfit)) as [v Hv]. rewrite (AddBlock_run db A b v) by done. eexists. split; [done|].
  destruct Himp as [HA Hdb]. split; [by apply history_addBlock|]. intros k Hk. rewrite <-(content_addBlock A b v k Hv), <-(Hdb k Hk).
  destruct (blockKeys_ok A b v (proj1 (proj1 Hfit))) as [Hk1 Hk2]. apply lookup_written; [by apply Forall_app|done].
Qed.

Definition rollupKeys A (r : RollupHeader) (block : Hash) (v : bytes) : list (Key * bytes) :=
  [(KRollup (RollupHeader_Hash r), v); (KRollupAt block, v)] ++
  match highest (λ r, LastBatchSeqNo r.1) (hi_rollups A) with
  | Some tip => if LastBatchSeqNo tip.1 <? LastBatchSeqNo r then [(KTipRollup, Hash_Bytes (RollupHeader_Hash r))] else []
  | None => [(KTipRollup, Hash_Bytes (RollupHeader_Hash r))]
  end.

Lemma content_addRollup A r block v k : rlp_encode r = Some v →
  overwrite k (rollupKeys A r block v) (content A k) = content (addRollup A r block) k.
Proof.
  intros Hv. unfold rollupKeys. rewrite overwrite_app. destruct k; unfold overwrite; simpl; rewrite ?latest_snoc, ?highest_snoc;
    (destruct (highest _ (hi_rollups A)) as [tip|]; [simpl; destruct (_ <? _)|]); simpl; try done; by repeat case_decide; simplify_eq/=.
Qed.

Lemma rollupWrites_run db A r block v : implements db A → rlp_encode r = Some v →
  rollupWrites db r block = Ok (written (rollupKeys A r block v)).
Proof.
  intros Himp Hv. unfold rollupWrites, writeRollupHeader, writeRollupByBlockHash, EncodeToBytes.
  rewrite Hv, (stored_tip_rollup db A) by done. unfold rollupKeys, written. rewrite fmap_app. cbn.
  destruct (highest _ (hi_rollups A)) as [tip|]; [|done]. cbn. by destruct (_ <? _).
Qed.

Lemma rollupKeys_ok A r block v : Forall (λ p, key_ok p.1) (rollupKeys A r block v).
Proof. unfold rollupKeys. repeat (constructor; [done|]). destruct (highest _ _); [destruct (_ <? _)|]; repeat constructor. Qed.

Lemma history_addRollup A r block : history_ok A → is_Some (rlp_encode r) →
  latest (λ r', RollupHeader_Hash r'.1 = RollupHeader_Hash r) (hi_rollups A) = None → history_ok (addRollup A r block).
Proof.
  intros HA Hr Hl. split; simpl; try apply HA.
  - apply Forall_app. split; [apply HA|by apply Forall_singleton].
  - intros r1 r2 [Hin1|Hin1%list_elem_of_singleton]%elem_of_app [Hin2|Hin2%list_elem_of_singleton]%elem_of_app Heq; subst; try done.
    + by apply (ho_runique A HA).
    + by destruct (latest_None _ _ r1 Hl).
    + by destruct (latest_None _ _ r2 Hl).
Qed.

Lemma AddRollupHeader_implements db A r block : implements db A → is_Some (rlp_encode r) →
  match latest (λ r', RollupHeader_Hash r'.1 = RollupHeader_Hash r) (hi_rollups A) with
  | Some _ => AddRollupHeader (Some r) block db = (db, Err ErrAlreadyExists)
  | None => ∃ db', AddRollupHeader (Some r) block db = (db', Ok tt) ∧ implements db' (addRollup A r block)
  end.
Proof.
  intros Himp Hr. unfold AddRollupHeader, mbind, M_bind, gets, lift, id. rewrite (stored_rollup db A) by done.
  destruct (latest _ (hi_rollups A)) as [r'|] eqn:Hl; [done|]. simpl. destruct Hr as [v Hv].
  rewrite (rollupWrites_run db A r block v) by done. eexists. split; [done|]. destruct Himp as [HA Hdb].
  split; [by apply history_addRollup|]. intros k Hk. rewrite lookup_written; [|by apply rollupKeys_ok|done].
  rewrite (Hdb k Hk). by apply content_addRollup.
Qed.
End history.

(** ** The database refines the history *)

(** What the host stores. *)
Inductive HostOp :=
  | OpBatch (b : ExtBatch)
  | OpBlock (h : L1Header)
  | OpRollup (r : RollupHeader) (block : Hash).

Section refinement.
Context `{Hashing, HBO : HashBytesOk, HCO : HostCodecsOk}.
Implicit Types (A : History) (db : KV).

Definition op_run (o : HostOp) : M KV unit :=
  match o with
  | OpBatch b => hostdb_AddBatch b
  | OpBlock h => hostdb_AddBlock h
  | OpRollup r block => AddRollupHeader (Some r) block
  end.

(** A batch or a rollup that is known is refused; a block is recorded again. *)
Definition op_spec (o : HostOp) A : History * result unit :=
  match o with
  | OpBatch b => match batchAt A (ExtBatch_Hash b) with Some _ => (A, Err ErrAlreadyExists) | None => (addBatch A b, Ok tt) end
  | OpBlock h => (addBlock A h, Ok tt)
  | OpRollup r block =>
      match latest (λ r', RollupHeader_Hash r'.1 = RollupHeader_Hash r) (hi_rollups A) with
      | Some _ => (A, Err ErrAlreadyExists)
      | None => (addRollup A r block, Ok tt)
      end
  end.

(** What can be encoded, with heights that fit 64 bits. *)
Definition op_ok (o : HostOp) A : Prop :=
  match o with
  | OpBatch b => batch_ok b
  | OpBlock h => fits A h
  | OpRollup r _ => is_Some (rlp_encode r)
  end.

Lemma op_refines o db A : implements db A → op_ok o A →
  (op_run o db).2 = (op_spec o A).2 ∧ implements (op_run o db).1 (op_spec o A).1.
Proof.
  intros Himp Ho. destruct o as [b|h|r block]; cbn [op_run op_spec op_ok] in *.
  - pose proof (AddBatch_implements db A b Himp Ho) as Hadd. destruct (batchAt A _); [by rewrite Hadd|].
    by destruct Hadd as (db'&->&?).
  - by destruct (AddBlock_implements db A h Himp Ho) as (db'&->&?).
  - pose proof (AddRollupHeader_implements db A r block Himp Ho) as Hadd. destruct (latest _ (hi_rollups A)); [by rewrite Hadd|].
    by destruct Hadd as (db'&->&?).
Qed.

(** Operations one after another, with what each of them returns. *)
Fixpoint ops_run (os : list HostOp) db : KV * list (result unit) :=
  match os with
  | [] => (db, [])
  | o :: os => let '(db, r) := op_run o db in let '(db, rs) := ops_run os db in (db, r :: rs)
  end.
Fixpoint ops_spec (os : list HostOp) A : History * list (result unit) :=
  match os with
  | [] => (A, [])
  | o :: os => let '(A, r) := op_spec o A in let '(A, rs) := ops_spec os A in (A, r :: rs)
  end.
Fixpoint ops_ok (os : list HostOp) A : Prop :=
  match os with
  | [] => True
  | o :: os => op_ok o A ∧ ops_ok os (op_spec o A).1
  end.

Lemma ops_refine os db A : implements db A → ops_ok os A →
  (ops_run os db).2 = (ops_spec os A).2 ∧ implements (ops_run os db).1 (ops_spec os A).1.
Proof.
  revert db A. induction os as [|o os IH]; intros db A Himp Hok; [done|]. destruct Hok as [Ho Hos].
  destruct (op_refines o db A Himp Ho) as [Hr Himp']. simpl. destruct (op_run o db) as [db' r], (op_spec o A) as [A' r'].
  simpl in *. destruct (IH db' A' Himp' Hos) as [Hrs Hend]. destruct (ops_run os db'), (ops_spec os A'). simpl in *. by subst.
Qed.

(** *** The queries *)

(** Pages of batches by sequence number and of blocks by height, each with the hash of the
    last rollup found in it; what is missing is left out. *)
Definition page (p : QueryPagination) : list Z := seqZ (Offset p) (Size p).
Definition page_ok (p : QueryPagination) : Prop := 0 ≤ Offset p ∧ 0 ≤ Size p ∧ Offset p + Size p < 2 ^ 63.
Definition batchOf A (n : Z) : option BatchHeader :=
  ext_header <$> latest (λ b, SequencerOrderNo (ext_header b) = n) (hi_batches A).
Definition rollupIn A (b : L1Header) : Hash :=
  match latest (λ r, r.2 = h_hash b) (hi_rollups A) with Some r => RollupHeader_Hash r.1 | None => 0 end.
Definition blockOf A (n : Z) : option (L1Header * Hash) :=
  (λ b, (b, rollupIn A b)) <$> latest (λ b, h_number b = n) (hi_blocks A).

Lemma pageLength_ok p : page_ok p → pageLength p = Z.to_nat (Size p).
Proof. intros (?&?&?). unfold pageLength. rewrite Int.u64_id by (unfold Int.is_u64, Int.two64; lia). f_equal. lia. Qed.

Lemma orNil_found {B C} (f : B → C) (o : option B) : orNil (found f o) = Ok (f <$> o).
Proof. by destruct o. Qed.

Lemma stored_seq_orNil db A n : implements db A → 0 ≤ n < 2 ^ 64 →
  orNil (GetBatchBySequenceNumber n db) = Ok (latest (λ b, SequencerOrderNo (ext_header b) = n) (hi_batches A)).
Proof.
  intros Himp Hn. pose proof (stored_seq db A Himp n Hn) as Hs. destruct (latest _ (hi_batches A)); [by rewrite Hs|].
  destruct Hs as (e&->&He). simpl. by rewrite He.
Qed.

Lemma listBatches_run db A k : implements db A → ∀ i, 0 ≤ i → i + Z.of_nat k < 2 ^ 63 →
  listBatches i k db = Ok (omap (batchOf A) (seqZ i (Z.of_nat k))).
Proof.
  intros Himp. induction k as [|k IH]; intros i Hi Hk; [done|]. cbn [listBatches].
  rewrite Int.i64_id, (stored_seq_orNil db A i Himp) by (unfold Int.is_i64; lia). result_unfold. rewrite IH by lia.
  rewrite (seqZ_cons i (Z.of_nat (S k))) by lia. replace (Z.pred (Z.of_nat (S k))) with (Z.of_nat k) by lia.
  rewrite <-Z.add_1_r. cbn. replace (batchOf A i) with (ext_header <$> latest (λ b, SequencerOrderNo (ext_header b) = i) (hi_batches A)) by done.
  by destruct (latest _ (hi_batches A)).
Qed.

Lemma listBlocks_run nilHash db A k : implements db A → ∀ i, 0 ≤ i → i + Z.of_nat k < 2 ^ 63 →
  listBlocks nilHash i k db = Ok (omap (blockOf A) (seqZ i (Z.of_nat k))).
Proof.
  intros Himp. induction k as [|k IH]; intros i Hi Hk; [done|]. cbn [listBlocks].
  rewrite Int.i64_id, (stored_height db A Himp), orNil_found by (unfold Int.is_i64; lia). result_unfold.
  rewrite (stored_rollup_at db A Himp), orNil_found, IH by lia.
  rewrite (seqZ_cons i (Z.of_nat (S k))) by lia. replace (Z.pred (Z.of_nat (S k))) with (Z.of_nat k) by lia.
  rewrite <-Z.add_1_r. cbn. replace (blockOf A i) with ((λ b, (b, rollupIn A b)) <$> latest (λ b, h_number b = i) (hi_blocks A)) by done.
  destruct (latest _ (hi_blocks A)) as [b|]; [|done]. cbn. unfold rollupIn.
  by destruct (latest _ (hi_rollups A)).
Qed.

(** The answers of the database are those of the history. *)
Record answers db A : Prop := {
  an_batch : ∀ h, hostdb_GetBatch h db = found id (batchAt A h);
  an_header : ∀ h, GetBatchHeader h db = found ext_header (batchAt A h);
  an_txs : ∀ h, GetBatchTxs h db = found ext_txhashes (batchAt A h);
  an_seq : ∀ n, 0 ≤ n < 2 ^ 64 →
    orNil (GetBatchBySequenceNumber n db) = Ok (latest (λ b, SequencerOrderNo (ext_header b) = n) (hi_batches A));
  an_hash : ∀ n, 0 ≤ n < 2 ^ 64 →
    GetBatchHash n db = found ExtBatch_Hash (latest (λ b, Number (ext_header b) = n) (hi_batches A));
  an_number : ∀ t, GetBatchNumber t db =
    match latest (λ b, t ∈ ext_txhashes b) (hi_batches A) with
    | Some b => if Number (ext_header b) =? 0 then Err ErrNotFound else Ok (Number (ext_header b))
    | None => Err ErrNotFound
    end;
  an_batch_page : ∀ p, page_ok p → GetBatchListing p db =
    found (λ head, (omap (batchOf A) (page p), Int.u64 (Number (ext_header head)))) (highest (Number ∘ ext_header) (hi_batches A));
  an_block_page : ∀ nilHash p, page_ok p → GetBlockListing nilHash p db =
    found (λ tip, (omap (blockOf A) (page p), Int.u64 (h_number tip))) (highest h_number (hi_blocks A));
  an_head : GetHeadBatchHeader db = found ext_header (highest (Number ∘ ext_header) (hi_batches A));
  an_total : GetTotalTransactions db = Ok (totalOf A);
  an_block : ∀ h, GetBlockByHash h db = found id (latest (λ b, h_hash b = h) (hi_blocks A));
  an_height : ∀ n, 0 ≤ n < 2 ^ 64 → GetBlockByHeight n db = found id (latest (λ b, h_number b = n) (hi_blocks A));
  an_tip : GetBlockAtTip db = found id (highest h_number (hi_blocks A));
  an_rollup : ∀ h, GetRollupHeader h db = found fst (latest (λ r, RollupHeader_Hash r.1 = h) (hi_rollups A));
  an_rollup_block : ∀ h, GetRollupHeaderByBlock h db = found fst (latest (λ r, r.2 = h) (hi_rollups A));
  an_tip_rollup : GetTipRollupHeader db = found fst (highest (λ r, LastBatchSeqNo r.1) (hi_rollups A))
}.

Lemma implements_answers db A : implements db A → answers db A.
Proof.
  intros Himp. split; intros.
  - by apply stored_batch.
  - by apply stored_header.
  - by apply stored_txs.
  - by apply stored_seq_orNil.
  - by apply stored_hash.
  - by apply kv_stored_number.
  - match goal with Hp : page_ok _ |- _ => pose proof Hp as (?&?&?) end. unfold GetBatchListing. rewrite pageLength_ok, (listBatches_run db A) by (done || lia).
    result_unfold. rewrite (stored_head db A Himp), Z2Nat.id by done. by destruct (highest _ (hi_batches A)).
  - match goal with Hp : page_ok _ |- _ => pose proof Hp as (?&?&?) end. unfold GetBlockListing. rewrite pageLength_ok, (listBlocks_run nilHash db A) by (done || lia).
    result_unfold. rewrite (stored_tip db A Himp), Z2Nat.id by done. by destruct (highest _ (hi_blocks A)).
  - by apply stored_head.
  - by apply stored_total.
  - by apply stored_block.
  - by apply stored_height.
  - by apply stored_tip.
  - by apply stored_rollup.
  - by apply stored_rollup_at.
  - by apply stored_tip_rollup.
Qed.

(** C36: the host's database refines the history of what was stored in it. After any
    sequence of [AddBatch], [AddBlock] and [AddRollupHeader], each returned what the
    specification returns (a batch or a rollup already there is refused) and every
    query answers from the history: by hash the last value stored, the batch of a
    sequence number or a height, the number of a transaction's batch (which is not found
    if it is zero), the first batch, block or rollup that is highest, the total of the
    transactions, and pages of batches and blocks. Heights and sequence numbers have 64
    bits, and pages end below 2^63. Hashes, numbers and names share one key space and no
    key is mistaken for another. *)
Theorem hostdb_refines_history (os : list HostOp) : ops_ok os (mkHistory [] [] []) →
  (ops_run os ∅).2 = (ops_spec os (mkHistory [] [] [])).2 ∧
  answers (ops_run os ∅).1 (ops_spec os (mkHistory [] [] [])).1.
Proof.
  intros Hok. destruct (ops_refine os ∅ _ implements_empty Hok) as [Hr Himp]. split; [done|by apply implements_answers].
Qed.
End refinement.
