(* ===== verification/Retry.v ===== *)
(** * Retrying

    [go/common/retry]: [Do] calls a function until it succeeds, fails for good or
    the strategy gives up. Time is part of the state the function runs on. *)

From S2P Require Import Prelude.
Local Open Scope Z_scope.

(** ** The clock *)

Class Clock (St : Type) := {
  Now : St → Z;
  Sleep : Z → St → St
}.
(** [time.Sleep] takes at least the duration; none if it is not positive. *)
Class ClockOk (St : Type) `{Clock St} : Prop := sleep_now : ∀ d s, Now s + Z.max 0 d ≤ Now (Sleep d s).

(** ** Strategies ([retry_strategy.go]) *)

(** [Strategy]; [Done] and [Reset] are given the time. *)
Class Strategy (S : Type) := {
  NextRetryInterval : S → S * Z;
  Done : Z → S → bool;
  Summary : Z → S → string;
  Reset : Z → S → S
}.

Record timeoutStrategy := mkTimeout {
  ts_startTime : Z;
  ts_timeout : Z;
  ts_interval : Z;
  ts_attempts : Z
}.
(** The zero time is the smallest one: its value is not read before [Reset]. *)
Definition NewTimeoutStrategy (timeout interval : Z) : timeoutStrategy := mkTimeout 0 timeout interval 0.
(** The texts without the values formatted into them. *)
#[export] Instance timeout_strategy : Strategy timeoutStrategy := {|
  NextRetryInterval t := (mkTimeout (ts_startTime t) (ts_timeout t) (ts_interval t) (Int.u64 (ts_attempts t + 1)), ts_interval t);
  Done now t := ts_startTime t + ts_timeout t <? now;
  Summary now t := if ts_startTime t + ts_timeout t <? now then "timed out" else "retrying";
  Reset now t := mkTimeout now (ts_timeout t) (ts_interval t) 0
|}.

Record backoffStrategy := mkBackoff {
  bs_maxRetries : Z;
  bs_initialInterval : Z;
  bs_startTime : Z;
  bs_attempts : Z
}.
Definition NewDoublingBackoffStrategy (initialInterval maxRetries : Z) : backoffStrategy := mkBackoff maxRetries initialInterval 0 0.

(** [time.Duration(math.Pow(2, float64(n)))]: a power of two is exact, and the
    conversion of one that does not fit 64 bits gives the smallest number on amd64. *)
Definition power (n : Z) : Z := if n <? 63 then 2 ^ n else - 2 ^ 63.
#[export] Instance backoff_strategy : Strategy backoffStrategy := {|
  NextRetryInterval b :=
    let attempts := Int.u64 (bs_attempts b + 1) in
    (mkBackoff (bs_maxRetries b) (bs_initialInterval b) (bs_startTime b) attempts,
     Int.i64 (bs_initialInterval b * power (attempts - 1)));
  Done _ b := bs_maxRetries b <=? bs_attempts b;
  Summary _ b := if bs_maxRetries b <=? bs_attempts b then "completed maximum permitted retries" else "retrying";
  Reset now b := mkBackoff (bs_maxRetries b) (bs_initialInterval b) now 0
|}.

Record infiniteRetryStrategy := mkInfinite {
  irs_backoffIntervals : list Z;
  irs_retryInterval : Z;
  irs_startTime : Z;
  irs_attempts : Z
}.
Definition NewBackoffAndRetryForeverStrategy (backoffIntervals : list Z) (retryInterval : Z) : infiniteRetryStrategy :=
  mkInfinite backoffIntervals retryInterval 0 0.
#[export] Instance infinite_strategy : Strategy infiniteRetryStrategy := {|
  NextRetryInterval irs :=
    let attempts := irs_attempts irs + 1 in
    (mkInfinite (irs_backoffIntervals irs) (irs_retryInterval irs) (irs_startTime irs) attempts,
     if attempts <=? Z.of_nat (length (irs_backoffIntervals irs))
     then nth (Z.to_nat (attempts - 1)) (irs_backoffIntervals irs) 0
     else irs_retryInterval irs);
  Done _ _ := false;
  Summary _ _ := "retrying";
  Reset now irs := mkInfinite (irs_backoffIntervals irs) (irs_retryInterval irs) now 0
|}.

(** ** The loop ([retry.go]) *)

(** [errors.As] for a [FailFastError]: the error it wraps. *)
Fixpoint as_FailFastError (err : GoError) : option GoError :=
  match err with
  | ErrFailFast wrapped => Some wrapped
  | ErrWrap _ cause | ErrInternal cause | ErrRPC cause | ErrBlockReject _ cause => as_FailFastError cause
  | _ => None
  end.
Definition FailFast (err : GoError) : GoError := ErrFailFast err.

Section retry.
Context {St S : Type} `{Clock St, Strategy S}.

Fixpoint attempt (fuel : nat) (fn : M St unit) (retryStrat : S) : M St unit := λ s,
  match fuel with
  | O => (s, Crash "out of fuel")
  | Datatypes.S fuel =>
      match fn s with
      | (s, Err err) =>
          match as_FailFastError err with
          | Some wrapped => (s, Err wrapped)
          | None =>
              let '(retryStrat, nextInterval) := NextRetryInterval retryStrat in
              if Done (Now s) retryStrat then (s, Err (ErrWrap (Summary (Now s) retryStrat) err))
              else attempt fuel fn retryStrat (Sleep nextInterval s)
          end
      | r => r
      end
  end.

Definition Do (fuel : nat) (fn : M St unit) (retryStrat : S) : M St unit := λ s,
  attempt fuel fn (Reset (Now s) retryStrat) s.
End retry.

(** ** Termination and outcome *)

(** The outcomes of the calls of [Do], as a relation: calls that fail, with a sleep
    after each, up to the call that ends the loop. *)
Section outcome.
Context {St S : Type} `{Clock St, Strategy S} (fn : M St unit).

Inductive retries : S → St → nat → S → St → Prop :=
  | retries_refl strat s : retries strat s 0 strat s
  | retries_step strat s s1 err n strat' s' :
      fn s = (s1, Err err) → as_FailFastError err = None → Done (Now s1) (NextRetryInterval strat).1 = false →
      retries (NextRetryInterval strat).1 (Sleep (NextRetryInterval strat).2 s1) n strat' s' →
      retries strat s (Datatypes.S n) strat' s'.

(** The call that ends the loop. *)
Definition ends (strat : S) (s s' : St) (r : result unit) : Prop :=
  match fn s with
  | (s1, Err err) =>
      s1 = s' ∧ match as_FailFastError err with
                | Some wrapped => r = Err wrapped
                | None => Done (Now s1) (NextRetryInterval strat).1 = true ∧
                          r = Err (ErrWrap (Summary (Now s1) (NextRetryInterval strat).1) err)
                end
  | p => p = (s', r)
  end.

Lemma attempt_S fuel strat s :
  attempt (Datatypes.S fuel) fn strat s =
  match fn s with
  | (s1, Err err) =>
      match as_FailFastError err with
      | Some wrapped => (s1, Err wrapped)
      | None => if Done (Now s1) (NextRetryInterval strat).1
                then (s1, Err (ErrWrap (Summary (Now s1) (NextRetryInterval strat).1) err))
                else attempt fuel fn (NextRetryInterval strat).1 (Sleep (NextRetryInterval strat).2 s1)
      end
  | r => r
  end.
Proof.
  cbn [attempt]. destruct (fn s) as [s1 [a|err|c]]; [done| |done].
  destruct (as_FailFastError err); [done|]. by destruct (NextRetryInterval strat).
Qed.

(** What every call and the sleeps preserve, the loop preserves. *)
Lemma attempt_keeps (P : St → Prop) fuel : (∀ s, P s → P (fn s).1) → (∀ d s, P s → P (Sleep d s)) →
  ∀ strat s, P s → P (attempt fuel fn strat s).1.
Proof.
  intros Hfn Hsleep. induction fuel as [|fuel IH]; intros strat s Hs; [done|]. rewrite attempt_S.
  specialize (Hfn s Hs). destruct (fn s) as [s1 [a|err|c]]; [done| |done]. destruct (as_FailFastError err); [done|].
  destruct (Done _ _); [done|]. by apply IH, Hsleep.
Qed.

(** Enough fuel for the calls gives their outcome. *)
Lemma attempt_outcome n strat s strat1 s1 s' r fuel : retries strat s n strat1 s1 → ends strat1 s1 s' r → (n < fuel)%nat →
  attempt fuel fn strat s = (s', r).
Proof.
  intros Hn Hend. revert fuel. induction Hn as [strat s|strat s s2 err n strat1 s1 Hfn Hff Hdone Hn IH]; intros fuel Hfuel;
    (destruct fuel as [|fuel]; [lia|]); rewrite attempt_S.
  - unfold ends in Hend. destruct (fn s) as [s2 [a|err|c]]; [done| |done].
    destruct Hend as [-> Hend]. destruct (as_FailFastError err); [by subst|]. by destruct Hend as [-> ->].
  - rewrite Hfn, Hff, Hdone. apply IH; [done|lia].
Qed.

(** Every loop either ends within [n] calls or goes on after them. *)
Lemma attempts_or_ends n : ∀ strat s,
  (∃ k strat1 s1 s' r, (k < n)%nat ∧ retries strat s k strat1 s1 ∧ ends strat1 s1 s' r) ∨
  ∃ strat1 s1, retries strat s n strat1 s1.
Proof.
  induction n as [|n IH]; intros strat s; [right; exists strat, s; constructor|].
  assert ((∃ s' r, ends strat s s' r) ∨
    ∃ s1 err, fn s = (s1, Err err) ∧ as_FailFastError err = None ∧ Done (Now s1) (NextRetryInterval strat).1 = false) as Hcase.
  { unfold ends. destruct (fn s) as [s1 [a|err|c]]; [left; by eexists _, _| |left; by eexists _, _].
    destruct (as_FailFastError err) eqn:Hff; [left; by eexists _, _|].
    destruct (Done _ _) eqn:Hd; [left; by eexists _, _|right; by exists s1, err]. }
  destruct Hcase as [(s'&r&Hend)|(s1&err&Hfn&Hff&Hd)].
  - left. exists 0%nat, strat, s, s', r. split; [lia|]. split; [constructor|done].
  - destruct (IH (NextRetryInterval strat).1 (Sleep (NextRetryInterval strat).2 s1)) as [(k&strat1&s2&s'&r&Hk&Hr&He)|(strat1&s2&Hr)].
    + left. exists (Datatypes.S k), strat1, s2, s', r. split; [lia|]. split; [by eapply retries_step|done].
    + right. exists strat1, s2. by eapply retries_step.
Qed.
End outcome.

Lemma Do_keeps {St S : Type} `{Clock St, Strategy S} (P : St → Prop) fuel (fn : M St unit) (strat : S) s :
  (∀ s, P s → P (fn s).1) → (∀ d s, P s → P (Sleep d s)) → P s → P (Do fuel fn strat s).1.
Proof. intros Hfn Hsleep. by apply attempt_keeps. Qed.

(** ** The strategies give up *)

Section giving_up.
Context {St : Type} `{ClockOk St} (fn : M St unit).

(** The backoff strategy counts the calls. *)
Lemma backoff_count strat s n strat1 s1 : retries fn strat s n strat1 s1 →
  (bs_attempts strat = 0 ∨ 0 ≤ bs_attempts strat < bs_maxRetries strat) → bs_maxRetries strat < 2 ^ 64 →
  n = 0%nat ∨ bs_attempts strat + Z.of_nat n < bs_maxRetries strat.
Proof.
  induction 1 as [strat s|strat s s2 err n strat1 s1 Hfn Hff Hdone Hn IH]; intros Hatt Hmax; [by left|].
  cbn in Hdone. apply Z.leb_gt in Hdone. right.
  assert (Int.u64 (bs_attempts strat + 1) = bs_attempts strat + 1) as Hu by (apply Int.u64_id; unfold Int.is_u64, Int.two64; lia).
  rewrite Hu in Hdone. cbn in IH. rewrite Hu in IH. destruct IH; lia.
Qed.

(** The timeout strategy lets the time of the sleeps pass. *)
Lemma timeout_count strat s n strat1 s1 : retries fn strat s n strat1 s1 →
  0 < ts_interval strat → (∀ s, Now s ≤ Now (fn s).1) →
  n = 0%nat ∨ Now s + (Z.of_nat n - 1) * ts_interval strat ≤ ts_startTime strat + ts_timeout strat.
Proof.
  induction 1 as [strat s|strat s s2 err n strat1 s1 Hfn Hff Hdone Hn IH]; intros Hint Htime; [by left|].
  cbn in Hdone. apply Z.ltb_ge in Hdone. right. cbn in IH. specialize (IH Hint Htime).
  pose proof (Htime s) as Hs. rewrite Hfn in Hs. cbn in Hs. pose proof (sleep_now (ts_interval strat) s2).
  destruct IH as [->|IH]; [lia|]. rewrite Nat2Z.inj_succ. nia.
Qed.

(** How many calls there are at most. *)
Definition backoffCalls (strat : backoffStrategy) : nat := Z.to_nat (Z.max 1 (bs_maxRetries strat)).
Definition timeoutCalls (strat : timeoutStrategy) : nat := Z.to_nat (ts_timeout strat / ts_interval strat + 2).

Lemma backoff_ends strat s : bs_attempts strat = 0 → 0 ≤ bs_maxRetries strat < 2 ^ 64 →
  ∃ k strat1 s1 s' r, (k < backoffCalls strat)%nat ∧ retries fn strat s k strat1 s1 ∧ ends fn strat1 s1 s' r.
Proof.
  intros Hzero Hmax. destruct (attempts_or_ends fn (backoffCalls strat) strat s) as [Hend|(strat1&s1&Hr)]; [done|].
  apply backoff_count in Hr; [|by left|lia]. unfold backoffCalls in Hr. lia.
Qed.

Lemma timeout_ends strat s : ts_startTime strat = Now s → 0 ≤ ts_timeout strat → 0 < ts_interval strat → (∀ s, Now s ≤ Now (fn s).1) →
  ∃ k strat1 s1 s' r, (k < timeoutCalls strat)%nat ∧ retries fn strat s k strat1 s1 ∧ ends fn strat1 s1 s' r.
Proof.
  intros Hstart Hpos Hint Htime. destruct (attempts_or_ends fn (timeoutCalls strat) strat s) as [Hend|(strat1&s1&Hr)]; [done|].
  apply timeout_count in Hr; [|done..]. unfold timeoutCalls in Hr.
  pose proof (Z.div_pos (ts_timeout strat) (ts_interval strat) Hpos Hint) as Hd.
  pose proof (Z.mul_succ_div_gt (ts_timeout strat) (ts_interval strat) Hint). rewrite Z2Nat.id in Hr by lia. nia.
Qed.

(** Retrying ends. With the doubling backoff the function is called at most
    [maxRetries] times (once if that is zero), with a timeout at most once per interval
    and twice more, and in both cases [Do] returns: [attempt] with that much fuel is not
    out of it, and its result is that of the last call, which succeeded, failed for good
    or failed when the strategy gave up. With the strategy that never gives up an error
    is always one the function failed fast with. *)
Theorem retry_ends :
  (∀ interval maxRetries s fuel, 0 ≤ maxRetries < 2 ^ 64 → (backoffCalls (NewDoublingBackoffStrategy interval maxRetries) ≤ fuel)%nat →
     ∃ k strat1 s1, (k < backoffCalls (NewDoublingBackoffStrategy interval maxRetries))%nat ∧
       retries fn (Reset (Now s) (NewDoublingBackoffStrategy interval maxRetries)) s k strat1 s1 ∧
       ends fn strat1 s1 (Do fuel fn (NewDoublingBackoffStrategy interval maxRetries) s).1
         (Do fuel fn (NewDoublingBackoffStrategy interval maxRetries) s).2) ∧
  (∀ timeout interval s fuel, 0 ≤ timeout → 0 < interval → (∀ s, Now s ≤ Now (fn s).1) →
     (timeoutCalls (NewTimeoutStrategy timeout interval) ≤ fuel)%nat →
     ∃ k strat1 s1, (k < timeoutCalls (NewTimeoutStrategy timeout interval))%nat ∧
       retries fn (Reset (Now s) (NewTimeoutStrategy timeout interval)) s k strat1 s1 ∧
       ends fn strat1 s1 (Do fuel fn (NewTimeoutStrategy timeout interval) s).1
         (Do fuel fn (NewTimeoutStrategy timeout interval) s).2) ∧
  (∀ intervals interval fuel s s' err, Do fuel fn (NewBackoffAndRetryForeverStrategy intervals interval) s = (s', Err err) →
     ∃ s1 e, fn s1 = (s', Err e) ∧ as_FailFastError e = Some err).
Proof.
  split; [|split].
  - intros interval maxRetries s fuel Hmax Hfuel.
    destruct (backoff_ends (Reset (Now s) (NewDoublingBackoffStrategy interval maxRetries)) s)
      as (k&strat1&s1&s'&r&Hk&Hr&He); [done..|]. exists k, strat1, s1. unfold Do.
    rewrite (attempt_outcome fn k _ s strat1 s1 s' r fuel Hr He); [done|]. unfold backoffCalls in *. cbn in *. lia.
  - intros timeout interval s fuel Hpos Hint Htime Hfuel.
    destruct (timeout_ends (Reset (Now s) (NewTimeoutStrategy timeout interval)) s)
      as (k&strat1&s1&s'&r&Hk&Hr&He); [done..|]. exists k, strat1, s1. unfold Do.
    rewrite (attempt_outcome fn k _ s strat1 s1 s' r fuel Hr He); [done|]. unfold timeoutCalls in *. cbn in *. lia.
  - intros intervals interval fuel s s' err. unfold Do.
    generalize (Reset (Now s) (NewBackoffAndRetryForeverStrategy intervals interval)). revert s.
    induction fuel as [|fuel IH]; intros s strat; [done|]. rewrite attempt_S. destruct (fn s) as [s1 [a|e|c]] eqn:Hfn; [done| |done].
    destruct (as_FailFastError e) eqn:Hff; [intros [= <- <-]; eauto|]. apply IH.
Qed.
End giving_up.
