(* ===== verification/P2P.v ===== *)
(** * Messages between hosts

    [go/host/p2p] and the subscription manager of [go/common/subscription]:
    transactions go to the sequencer, batches come from it, and missing batches are
    requested from it. A message is sent over a TCP connection of its own. What a
    function starts with [go] is appended to a list, in which each entry runs later
    and in any order. *)

From S2P Require Import Prelude Types Codec Retry.
Local Open Scope Z_scope.

(** ** Messages *)

Definition msgTypeTx : Z := 1.
Definition msgTypeBatches : Z := 2.
Definition msgTypeBatchRequest : Z := 3.

Record message := mkP2PMessage { m_Sender : string; m_Type : Z; m_Contents : bytes }.
(** [host.BatchMsg] *)
Record BatchMsg := mkBatchMsg { bm_Batches : list ExtBatch; bm_IsLive : bool }.
(** [common.BatchRequest] *)
Record BatchRequest := mkBatchRequest { br_Requester : string; br_FromSeqNo : Z }.

(** Their RLP. *)
Class P2PCodecs := {
  #[global] codec_message :: Codec message;
  #[global] codec_batchmsg :: Codec BatchMsg;
  #[global] codec_batchrequest :: Codec BatchRequest
}.
Class P2PCodecsOk `{P2PCodecs} : Prop := {
  #[global] codec_message_ok :: CodecOk message;
  #[global] codec_batchmsg_ok :: CodecOk BatchMsg;
  #[global] codec_batchrequest_ok :: CodecOk BatchRequest
}.

(** ** The network

    The time, what arrived at which address, and how the next connections fail; the
    ones after them succeed. *)
Inductive Fault :=
  | NoFault
  | DialFault (err : GoError)
  | WriteFault (written : nat) (err : GoError).
Record Net := mkNet {
  net_now : Z;
  net_sent : list (string * bytes);
  net_faults : list Fault
}.
#[export] Instance net_clock : Clock Net := {|
  Now := net_now;
  Sleep d n := mkNet (net_now n + Z.max 0 d) (net_sent n) (net_faults n)
|}.
#[export] Instance net_clock_ok : ClockOk Net.
Proof. intros d n. cbn. lia. Qed.

(** The connection is closed in every case, so the peer reads what was written before
    a failure as a message. *)
Definition sendBytes (address : string) (tx : bytes) : M Net unit := λ n,
  let arrives msg := mkNet (net_now n) (net_sent n ++ [(address, msg)]) (tail (net_faults n)) in
  match head (net_faults n) with
  | Some (DialFault err) => (mkNet (net_now n) (net_sent n) (tail (net_faults n)), Err err)
  | Some (WriteFault written err) => (arrives (take written tx), Err err)
  | Some NoFault | None => (arrives tx, Ok tt)
  end.

(** The backoff of 100 milliseconds and five retries makes five calls at most. *)
Definition sendStrategy : backoffStrategy := NewDoublingBackoffStrategy (100 * 10 ^ 6) 5.
Definition sendBytesWithRetry (address : string) (msgEncoded : bytes) : M Net unit :=
  Do (backoffCalls sendStrategy) (sendBytes address msgEncoded) sendStrategy.

(** ** Subscriptions ([subscription.Manager])

    A new [uuid] is one that is not in use; the order of the subscribers is that of a
    Go map, unspecified. *)
Abbreviation Manager T := (gmap nat T).
Definition Subscribe {T} (subscriber : T) (m : Manager T) : Manager T * nat :=
  let id := fresh (dom m) in (<[id := subscriber]> m, id).
Definition Unsubscribe {T} (id : nat) (m : Manager T) : Manager T := delete id m.
Definition Subscribers {T} (m : Manager T) : list T := (map_to_list m).*2.

(** ** The service *)

Record P2PConfig := mkP2PConfig {
  isSequencer : bool;
  ourPublicAddress : string;
  isIncomingP2PDisabled : bool
}.

(** What the service has started; a handler is named by a number.
    [HandleTransaction] is called and not started. *)
Inductive Started :=
  | GoRefreshPeerList
  | GoHandleConnections
  | GoSend (address : string) (msgEncoded : bytes)
  | CallHandleTransaction (handler : nat) (tx : bytes)
  | GoHandleBatches (handler : nat) (batches : list ExtBatch) (isLive : bool)
  | GoOwnBatchRequest (encodedBatchRequest : bytes)
  | GoHandleBatchRequest (handler : nat) (requester : string) (fromSeqNo : Z).

Record P2P := mkP2P {
  batchSubscribers : Manager nat;
  txSubscribers : Manager nat;
  batchReqHandlers : Manager nat;
  listener : bool;
  running : bool;
  peerAddresses : list string;
  lastReceivedMessageByPeer : gmap string Z;
  p2p_net : Net;
  started : list Started
}.
Definition NewSocketP2PLayer (n : Net) : P2P := mkP2P ∅ ∅ ∅ false false [] ∅ n [].

Definition set_net (n : Net) (p : P2P) : P2P :=
  mkP2P (batchSubscribers p) (txSubscribers p) (batchReqHandlers p) (listener p) (running p) (peerAddresses p) (lastReceivedMessageByPeer p) n (started p).
Definition set_up (l r : bool) (p : P2P) : P2P :=
  mkP2P (batchSubscribers p) (txSubscribers p) (batchReqHandlers p) l r (peerAddresses p) (lastReceivedMessageByPeer p) (p2p_net p) (started p).
Definition set_peers (l : list string) (p : P2P) : P2P :=
  mkP2P (batchSubscribers p) (txSubscribers p) (batchReqHandlers p) (listener p) (running p) l (lastReceivedMessageByPeer p) (p2p_net p) (started p).
Definition start (l : list Started) (p : P2P) : P2P :=
  mkP2P (batchSubscribers p) (txSubscribers p) (batchReqHandlers p) (listener p) (running p) (peerAddresses p) (lastReceivedMessageByPeer p) (p2p_net p) (started p ++ l).
(** [peerTracker.receivedPeerMsg] *)
Definition receivedPeerMsg (peer : string) (p : P2P) : P2P :=
  mkP2P (batchSubscribers p) (txSubscribers p) (batchReqHandlers p) (listener p) (running p) (peerAddresses p)
    (<[peer := net_now (p2p_net p)]> (lastReceivedMessageByPeer p)) (p2p_net p) (started p).

#[export] Instance p2p_clock : Clock P2P := {|
  Now p := net_now (p2p_net p);
  Sleep d p := set_net (Sleep d (p2p_net p)) p
|}.
#[export] Instance p2p_clock_ok : ClockOk P2P.
Proof. intros d p. cbn. lia. Qed.

Definition on_net {A} (m : M Net A) : M P2P A := zoom p2p_net set_net m.

Definition errUnknownSequencer : GoError := ErrMsg "sequencer address not known".

Section service.
Context `{P2PCodecs} (cfg : P2PConfig).

(** [listen] is the outcome of opening the socket. The service counts as running also
    when that fails. *)
Definition Start (listen : result unit) : M P2P unit := λ p,
  let p := set_up (listener p) true p in
  if isIncomingP2PDisabled cfg then (start [GoRefreshPeerList] p, Ok tt)
  else match listen with
       | Ok _ => (start [GoHandleConnections; GoRefreshPeerList] (set_up true true p), Ok tt)
       | Err err => (p, Err (ErrWrap "could not listen for P2P connections" err))
       | Crash c => (p, Crash c)
       end.

(** [close] is the outcome of closing the socket. *)
Definition Stop (close : result unit) : M P2P unit := λ p,
  let p := set_up (listener p) false p in
  if listener p then (Sleep (10 ^ 9) p, close) else (p, Ok tt).

(** [None] is the nil function. *)
Definition SubscribeForBatches (handler : nat) (p : P2P) : P2P * option nat :=
  if isIncomingP2PDisabled cfg then (p, None)
  else
    let '(m, id) := Subscribe handler (batchSubscribers p) in
    (mkP2P m (txSubscribers p) (batchReqHandlers p) (listener p) (running p) (peerAddresses p) (lastReceivedMessageByPeer p) (p2p_net p) (started p), Some id).
Definition SubscribeForTx (handler : nat) (p : P2P) : P2P * option nat :=
  let '(m, id) := Subscribe handler (txSubscribers p) in
  (mkP2P (batchSubscribers p) m (batchReqHandlers p) (listener p) (running p) (peerAddresses p) (lastReceivedMessageByPeer p) (p2p_net p) (started p), Some id).
Definition SubscribeForBatchRequests (handler : nat) (p : P2P) : P2P * option nat :=
  if isIncomingP2PDisabled cfg then (p, None)
  else
    let '(m, id) := Subscribe handler (batchReqHandlers p) in
    (mkP2P (batchSubscribers p) (txSubscribers p) m (listener p) (running p) (peerAddresses p) (lastReceivedMessageByPeer p) (p2p_net p) (started p), Some id).

(** The variable [newPeers] is shared by the calls of the retried function. *)
#[local] Instance refresh_clock : Clock (P2P * list string) := {|
  Now s := Now s.1;
  Sleep d s := (Sleep d s.1, s.2)
|}.
Definition refreshStrategy : timeoutStrategy := NewTimeoutStrategy (60 * 10 ^ 9) (5 * 10 ^ 9).
(** [fetch] is [FetchLatestPeersList] of the publisher. *)
Definition RefreshPeerList (fetch : M P2P (list string)) (p : P2P) : P2P * result unit :=
  let fn : M (P2P * list string) unit := λ s,
    if negb (running s.1) then (s, Err (FailFast (ErrMsg "p2p service is stopped - abandoning peer list refresh")))
    else match fetch s.1 with
         | (p, Ok newPeers) => ((p, newPeers), Ok tt)
         | (p, Err err) => ((p, []), Err err)
         | (p, Crash c) => ((p, s.2), Crash c)
         end in
  match Do (timeoutCalls refreshStrategy) fn refreshStrategy (p, []) with
  | ((p, newPeers), Ok _) => (set_peers newPeers p, Ok tt)
  | ((p, _), Err _) => (p, Ok tt)
  | ((p, _), Crash c) => (p, Crash c)
  end.

(** The first peer of the list. *)
Definition getSequencer : M P2P string := λ p,
  match peerAddresses p with
  | [] => (p, Err errUnknownSequencer)
  | sequencer :: _ => (p, Ok sequencer)
  end.

(** The checks of the message only log. *)
Definition send (msg : message) (to : string) : M P2P unit :=
  msgEncoded ← wrap "could not encode message to send to sequencer" (lift (EncodeToBytes msg));
  on_net (sendBytesWithRetry to msgEncoded).

Definition broadcast (msg : message) : M P2P unit :=
  msgEncoded ← wrap "could not encode message to send to peers" (lift (EncodeToBytes msg));
  modify (λ p, start ((λ address, GoSend address msgEncoded) <$> peerAddresses p) p).

Definition SendTxToSequencer (tx : bytes) : M P2P unit :=
  if isSequencer cfg then fail (ErrMsg "sequencer cannot send tx to itself")
  else
    sequencer ← wrap "failed to find sequencer" getSequencer;
    send (mkP2PMessage (ourPublicAddress cfg) msgTypeTx tx) sequencer.

Definition BroadcastBatches (batches : list ExtBatch) : M P2P unit :=
  if isIncomingP2PDisabled cfg then mret tt
  else if negb (isSequencer cfg) then fail (ErrMsg "only sequencer can broadcast batches")
  else
    encodedBatchMsg ← wrap "could not encode batch using RLP" (lift (EncodeToBytes (mkBatchMsg batches true)));
    broadcast (mkP2PMessage (ourPublicAddress cfg) msgTypeBatches encodedBatchMsg).

Definition RequestBatchesFromSequencer (fromSeqNo : Z) : M P2P unit :=
  if isIncomingP2PDisabled cfg then mret tt
  else if isSequencer cfg then fail (ErrMsg "sequencer cannot request batches from itself")
  else
    encodedBatchRequest ← wrap "could not encode batch request using RLP"
      (lift (EncodeToBytes (mkBatchRequest (ourPublicAddress cfg) fromSeqNo)));
    sequencer ← wrap "failed to find sequencer" getSequencer;
    send (mkP2PMessage (ourPublicAddress cfg) msgTypeBatchRequest encodedBatchRequest) sequencer.

Definition RespondToBatchRequest (requestID : string) (batches : list ExtBatch) : M P2P unit :=
  if isIncomingP2PDisabled cfg then mret tt
  else if negb (isSequencer cfg) then fail (ErrMsg "only sequencer can respond to batch requests")
  else
    encodedBatchMsg ← wrap "could not encode batches using RLP" (lift (EncodeToBytes (mkBatchMsg batches false)));
    send (mkP2PMessage (ourPublicAddress cfg) msgTypeBatches encodedBatchMsg) requestID.

(** A message this host does not take returns before the peer is recorded; one whose
    contents do not decode, or of another type, does not. *)
Definition handle (encodedMsg : bytes) (p : P2P) : P2P :=
  match DecodeBytes encodedMsg with
  | Err _ | Crash _ => p
  | Ok msg =>
      let dispatch l := receivedPeerMsg (m_Sender msg) (start l p) in
      if m_Type msg =? msgTypeTx then
        if negb (isSequencer cfg) then p
        else dispatch ((λ h, CallHandleTransaction h (m_Contents msg)) <$> Subscribers (txSubscribers p))
      else if m_Type msg =? msgTypeBatches then
        if isSequencer cfg then p
        else match DecodeBytes (m_Contents msg) with
             | Ok batchMsg => dispatch ((λ h, GoHandleBatches h (bm_Batches batchMsg) (bm_IsLive batchMsg)) <$> Subscribers (batchSubscribers p))
             | Err _ | Crash _ => dispatch []
             end
      else if m_Type msg =? msgTypeBatchRequest then
        if negb (isSequencer cfg) then p else dispatch [GoOwnBatchRequest (m_Contents msg)]
      else dispatch []
  end.

Definition handleBatchRequest (encodedBatchRequest : bytes) (p : P2P) : P2P :=
  match DecodeBytes encodedBatchRequest with
  | Ok batchRequest =>
      start ((λ h, GoHandleBatchRequest h (br_Requester batchRequest) (br_FromSeqNo batchRequest)) <$> Subscribers (batchReqHandlers p)) p
  | Err _ | Crash _ => p
  end.

(** Five minutes. *)
Definition alertPeriod : Z := 300 * 10 ^ 9.
Definition verifyHealth (p : P2P) : result unit :=
  if isIncomingP2PDisabled cfg then Ok tt
  else if decide (map_Forall (λ _ lastMsgTimestamp, ¬ lastMsgTimestamp + alertPeriod < Now p) (lastReceivedMessageByPeer p))
       then Ok tt else Err (ErrMsg "no message received from peers").
End service.
