(* ===== verification/StateTracker.v ===== *)
(** * The host's view of its enclave

    [go/host/enclave/state.go]: the state machine that compares the heads of the
    enclave with those the host has seen. *)

From S2P Require Import Prelude Types Service.
Local Open Scope Z_scope.

Module Tracker.
Inductive Status := Live | Disconnected | Unavailable | AwaitingSecret | L1Catchup | L2Catchup.
#[global] Instance Status_eq_dec : EqDecision Status.
Proof. solve_decision. Defined.

Definition noBatch : Z := 0.

(** [StateTracker]; the lock makes each method a step. *)
Record t := mk {
  status : Status;
  enclaveStatusCode : StatusCode;
  enclaveL1Head : Hash;
  enclaveL2Head : bigInt;
  hostL1Head : Hash;
  hostL2Head : bigInt
}.

(** The zero status code is [Running]. *)
Definition New : t := mk Disconnected Running EmptyHash None EmptyHash None.

Definition GetStatus (s : t) : Status := status s.

(** [Cmp] of two numbers that are not nil *)
Definition calculateStatus (s : t) : Status :=
  match enclaveStatusCode s with
  | Service.AwaitingSecret => AwaitingSecret
  | Service.Unavailable => Unavailable
  | Running =>
      if bool_decide (hostL1Head s ≠ enclaveL1Head s) || bool_decide (enclaveL1Head s = EmptyHash) then L1Catchup
      else
        match hostL2Head s, enclaveL2Head s with
        | Some hostHead, Some enclaveHead =>
            if bool_decide (enclaveHead = noBatch) || (enclaveHead <? hostHead) then L2Catchup else Live
        | _, _ => L2Catchup
        end
  end.

Definition setStatus (newStatus : Status) (s : t) : t :=
  if decide (status s = newStatus) then s
  else mk newStatus (enclaveStatusCode s) (enclaveL1Head s) (enclaveL2Head s) (hostL1Head s) (hostL2Head s).

Definition recalculate (s : t) : t := setStatus (calculateStatus s) s.

Definition OnProcessedBlock (enclL1Head : Hash) (s : t) : t :=
  recalculate (mk (status s) (enclaveStatusCode s) enclL1Head (enclaveL2Head s) (hostL1Head s) (hostL2Head s)).

Definition OnReceivedBlock (l1Head : Hash) (s : t) : t :=
  mk (status s) (enclaveStatusCode s) (enclaveL1Head s) (enclaveL2Head s) l1Head (hostL2Head s).

Definition OnProcessedBatch (enclL2HeadSeqNo : Z) (s : t) : t :=
  let hostHead := match hostL2Head s with
                  | None => enclL2HeadSeqNo
                  | Some h => if h <? enclL2HeadSeqNo then enclL2HeadSeqNo else h
                  end in
  recalculate (mk (status s) (enclaveStatusCode s) (enclaveL1Head s) (Some enclL2HeadSeqNo) (hostL1Head s) (Some hostHead)).

Definition OnReceivedBatch (l2HeadSeqNo : Z) (s : t) : t :=
  mk (status s) (enclaveStatusCode s) (enclaveL1Head s) (enclaveL2Head s) (hostL1Head s) (Some l2HeadSeqNo).

Definition OnSecretProvided (s : t) : t :=
  let code := match enclaveStatusCode s with Service.AwaitingSecret => Running | c => c end in
  recalculate (mk (status s) code (enclaveL1Head s) (enclaveL2Head s) (hostL1Head s) (hostL2Head s)).

Definition OnEnclaveStatus (es : Service.Status) (s : t) : t :=
  recalculate (mk (status s) (st_StatusCode es) (st_L1Head es) (st_L2Head es) (hostL1Head s) (hostL2Head s)).

Definition OnDisconnected (s : t) : t := setStatus Disconnected s.

Definition InSyncWithL1 (s : t) : bool := bool_decide (status s = Live) || bool_decide (status s = L2Catchup).
Definition IsUpToDate (s : t) : bool := bool_decide (status s = Live).
Definition GetEnclaveL1Head (s : t) : Hash := enclaveL1Head s.
(** A copy: of a negative number, which does not occur, the absolute value. *)
Definition GetEnclaveL2Head (s : t) : bigInt := Z.abs <$> enclaveL2Head s.

(** ** What the status says *)

(** The methods that change the state. *)
Inductive step : t → t → Prop :=
  | step_ProcessedBlock h s : step s (OnProcessedBlock h s)
  | step_ReceivedBlock h s : step s (OnReceivedBlock h s)
  | step_ProcessedBatch n s : step s (OnProcessedBatch n s)
  | step_ReceivedBatch n s : step s (OnReceivedBatch n s)
  | step_SecretProvided s : step s (OnSecretProvided s)
  | step_EnclaveStatus es s : step s (OnEnclaveStatus es s)
  | step_Disconnected s : step s (OnDisconnected s).

Definition reachable (s : t) : Prop := rtc step New s.

(** The tracker with other heads of the host. *)
Definition with_heads (h1 : Hash) (h2 : bigInt) (s : t) : t :=
  mk (status s) (enclaveStatusCode s) (enclaveL1Head s) (enclaveL2Head s) h1 h2.

Definition explained (s : t) : Prop := status s = Disconnected ∨ ∃ h1 h2, status s = calculateStatus (with_heads h1 h2 s).

Lemma status_recalculate s : status (recalculate s) = calculateStatus s ∧
  enclaveStatusCode (recalculate s) = enclaveStatusCode s ∧ enclaveL1Head (recalculate s) = enclaveL1Head s ∧
  enclaveL2Head (recalculate s) = enclaveL2Head s ∧ hostL1Head (recalculate s) = hostL1Head s ∧ hostL2Head (recalculate s) = hostL2Head s.
Proof. unfold recalculate, setStatus. by case_decide. Qed.

Lemma explained_recalculate s : explained (recalculate s).
Proof.
  right. exists (hostL1Head s), (hostL2Head s). destruct (status_recalculate s) as (->&Hc&Hl1&Hl2&_&_).
  unfold calculateStatus, with_heads. cbn. by rewrite Hc, Hl1, Hl2.
Qed.

Lemma step_explained s s' : step s s' → explained s → explained s'.
Proof.
  destruct 1; intros He; try apply explained_recalculate.
  - destruct He as [He|(h1&h2&He)]; [by left|right; by exists h1, h2].
  - destruct He as [He|(h1&h2&He)]; [by left|right; by exists h1, h2].
  - left. unfold OnDisconnected, setStatus. by case_decide.
Qed.

Lemma steps_explained s s' : rtc step s s' → explained s → explained s'.
Proof. induction 1; eauto using step_explained. Qed.
Lemma reachable_explained s : reachable s → explained s.
Proof. intros Hs. apply (steps_explained New s Hs). by left. Qed.

(** The enclave follows the chains as far as the host has seen them. *)
Definition in_sync (s : t) : Prop :=
  enclaveStatusCode s = Running ∧ enclaveL1Head s ≠ EmptyHash ∧ hostL1Head s = enclaveL1Head s.
Definition caught_up (s : t) : Prop :=
  ∃ hostHead enclaveHead, hostL2Head s = Some hostHead ∧ enclaveL2Head s = Some enclaveHead ∧ enclaveHead ≠ noBatch ∧ hostHead ≤ enclaveHead.

Lemma calculateStatus_spec s :
  (calculateStatus s = Live ↔ in_sync s ∧ caught_up s) ∧ (calculateStatus s = L2Catchup ↔ in_sync s ∧ ¬ caught_up s) ∧
  (calculateStatus s = L1Catchup ↔ enclaveStatusCode s = Running ∧ ¬ in_sync s) ∧ calculateStatus s ≠ Disconnected.
Proof.
  unfold calculateStatus, in_sync, caught_up. destruct (enclaveStatusCode s); [|naive_solver..].
  destruct (bool_decide _ || _) eqn:Hl1.
  - apply orb_true_iff in Hl1. rewrite !bool_decide_eq_true in Hl1. naive_solver.
  - apply orb_false_iff in Hl1. rewrite !bool_decide_eq_false in Hl1. destruct Hl1 as [Heq%dec_stable Hne].
    destruct (hostL2Head s) as [h|], (enclaveL2Head s) as [n|]; [|naive_solver..].
    destruct (bool_decide _ || _) eqn:Hl2.
    + apply orb_true_iff in Hl2. rewrite bool_decide_eq_true, Z.ltb_lt in Hl2.
      assert (¬ (n ≠ noBatch ∧ h ≤ n)) as Hno by lia. naive_solver.
    + apply orb_false_iff in Hl2. rewrite bool_decide_eq_false, Z.ltb_ge in Hl2. naive_solver.
Qed.

(** The status the guardian acts on. After the enclave reported its status or
    processed a block or a batch, the tracker is live exactly when the enclave is
    running, its L1 head is the one the host saw last, and it has a batch not older
    than the newest the host saw; it catches up with L2 exactly when only the batches
    are missing, and with L1 when a running enclave is not at the head. In any
    reachable state a tracker in sync with L1 has an enclave that runs and has a
    block, and a live one an enclave that also has a batch: no handler that checks the
    status finds them missing. *)
Theorem tracker_status :
  (∀ s s', (∃ h, s' = OnProcessedBlock h s) ∨ (∃ n, s' = OnProcessedBatch n s) ∨ (∃ es, s' = OnEnclaveStatus es s) →
     (GetStatus s' = Live ↔ in_sync s' ∧ caught_up s') ∧ (GetStatus s' = L2Catchup ↔ in_sync s' ∧ ¬ caught_up s') ∧
     (GetStatus s' = L1Catchup ↔ enclaveStatusCode s' = Running ∧ ¬ in_sync s')) ∧
  ∀ s, reachable s →
    (InSyncWithL1 s = true → enclaveStatusCode s = Running ∧ GetEnclaveL1Head s ≠ EmptyHash) ∧
    (IsUpToDate s = true → ∃ n, GetEnclaveL2Head s = Some n ∧ n ≠ noBatch).
Proof.
  split.
  - intros s s' Hs'. assert (∃ s0, s' = recalculate s0) as [s0 ->] by (destruct Hs' as [[? ->]|[[? ->]|[? ->]]]; by eexists).
    destruct (status_recalculate s0) as (Hst&Hc&Hl1&Hl2&Hh1&Hh2). unfold GetStatus, in_sync, caught_up.
    rewrite Hst, Hc, Hl1, Hl2, Hh1, Hh2. destruct (calculateStatus_spec s0) as (?&?&?&_). done.
  - intros s [Hd|(h1&h2&Hs)]%reachable_explained; unfold InSyncWithL1, IsUpToDate, GetEnclaveL1Head, GetEnclaveL2Head.
    { by rewrite Hd. }
    destruct (calculateStatus_spec (with_heads h1 h2 s)) as (Hlive&Hl2&_). split.
    + intros [Heq%bool_decide_eq_true|Heq%bool_decide_eq_true]%orb_true_iff; rewrite Heq in Hs; symmetry in Hs;
        [apply Hlive in Hs|apply Hl2 in Hs]; destruct Hs as [(Hc&Hne&_) _]; done.
    + intros Heq%bool_decide_eq_true. rewrite Heq in Hs. symmetry in Hs. apply Hlive in Hs as [_ (?&n&_&Hn&Hne&_)]. cbn in Hn.
      rewrite Hn. exists (Z.abs n). split; [done|]. unfold noBatch in *. lia.
Qed.

(** Batches that arrive out of order. The head of the host is the batch received
    last, not the newest: once a batch [n] not newer than the enclave's arrives after a
    newer one [m], the next status makes the tracker live although the host has seen
    batch [m], which the enclave does not have. *)
Theorem late_batch_hides_lag m n (s : t) (es : Service.Status) e :
  st_StatusCode es = Running → st_L2Head es = Some e → st_L1Head es = hostL1Head s → st_L1Head es ≠ EmptyHash → e ≠ noBatch →
  n ≤ e < m →
  GetStatus (OnEnclaveStatus es (OnReceivedBatch m s)) = L2Catchup ∧
  GetStatus (OnEnclaveStatus es (OnReceivedBatch n (OnReceivedBatch m s))) = Live.
Proof.
  intros Hc He Hl1 Hne Hnb Hm. unfold GetStatus. split; unfold OnEnclaveStatus; rewrite (proj1 (status_recalculate _)).
  - apply (proj1 (proj2 (calculateStatus_spec _))). split; [by split_and!|]. unfold caught_up. cbn. intros (h&x&[= <-]&Hx&_&Hle). simplify_eq. lia.
  - apply (proj1 (calculateStatus_spec _)). split; [by split_and!|]. unfold caught_up. cbn. exists n, e. split_and!; [done..|lia].
Qed.
End Tracker.
