(* ===== verification/Converters.v ===== *)
(** * Messages between the host and the enclave

    [go/common/rpc/converters.go]: the Protobuf messages of batches, rollups,
    attestations and secret responses, and the conversions to and from them. *)

From S2P Require Import Prelude Types Codec Bytes CrossChain Rollups Service.
Local Open Scope Z_scope.

(** ** The messages ([enclave.proto]) *)

Record CrossChainMsg := mkCrossChainMsg {
  ccm_Sender : bytes;
  ccm_Sequence : Z;
  ccm_Nonce : Z;
  ccm_Topic : Z;
  ccm_Payload : bytes
}.

Record BatchHeaderMsg := mkBatchHeaderMsg {
  bhm_ParentHash : bytes;
  bhm_Proof : bytes;
  bhm_Root : bytes;
  bhm_TxHash : bytes;
  bhm_Number : Z;
  bhm_SequencerOrderNo : Z;
  bhm_ReceiptHash : bytes;
  bhm_Extra : bytes;
  bhm_R : bytes;
  bhm_S : bytes;
  bhm_GasLimit : Z;
  bhm_GasUsed : Z;
  bhm_Time : Z;
  bhm_BaseFee : Z;
  bhm_CrossChainMessages : list CrossChainMsg;
  bhm_LatestInboundCrossChainHash : bytes;
  bhm_LatestInboundCrossChainHeight : bytes
}.

(** A nil header is a message that was not set. *)
Record ExtBatchMsg := mkExtBatchMsg {
  ebm_Header : option BatchHeaderMsg;
  ebm_TxHashes : list bytes;
  ebm_Txs : bytes
}.

Record RollupHeaderMsg := mkRollupHeaderMsg {
  rhm_CompressionL1Head : bytes;
  rhm_R : bytes;
  rhm_S : bytes;
  rhm_Coinbase : bytes;
  rhm_CrossChainMessages : list CrossChainMsg;
  rhm_LastBatchSeqNo : Z
}.
Record ExtRollupMsg := mkExtRollupMsg {
  erm_Header : option RollupHeaderMsg;
  erm_BatchPayloads : bytes;
  erm_CalldataRollupHeader : bytes
}.

Record AttestationReportMsg := mkAttestationReportMsg {
  arm_Report : bytes;
  arm_PubKey : bytes;
  arm_Owner : bytes;
  arm_HostAddress : string
}.

Record SecretResponseMsg := mkSecretResponseMsg {
  srm_Secret : bytes;
  srm_RequesterID : bytes;
  srm_HostAddress : string
}.
Record BlockSubmissionErrorMsg := mkBlockSubmissionErrorMsg { bse_Cause : string; bse_L1Head : bytes }.
Record BlockSubmissionResponseMsg := mkBlockSubmissionResponseMsg {
  bsm_ProducedSecretResponses : list SecretResponseMsg;
  bsm_Error : option BlockSubmissionErrorMsg
}.

(** ** The conversions *)

Section converters.
Context `{HB : HashBytes, AB : AddressBytes}.

Definition ToAttestationReportMsg (report : AttestationReport) : AttestationReportMsg :=
  mkAttestationReportMsg (att_Report report) (att_PubKey report) (Address_Bytes (att_Owner report)) (att_HostAddress report).
Definition FromAttestationReportMsg (msg : AttestationReportMsg) : AttestationReport :=
  mkAttestation (arm_Report msg) (arm_PubKey msg) (BytesToAddress (arm_Owner msg)) (arm_HostAddress msg).

Definition ToSecretRespMsg (responses : list ProducedSecretResponse) : list SecretResponseMsg :=
  map (λ resp, mkSecretResponseMsg (sr_Secret resp) (Address_Bytes (sr_RequesterID resp)) (sr_HostAddress resp)) responses.
Definition FromSecretRespMsg (secretResponses : list SecretResponseMsg) : list ProducedSecretResponse :=
  map (λ msgResp, mkSecretResponse (srm_Secret msgResp) (BytesToAddress (srm_RequesterID msgResp)) (srm_HostAddress msgResp))
    secretResponses.

(** The error of the message is left out, both ways. *)
Definition ToBlockSubmissionResponseMsg (response : BlockSubmissionResponse) : BlockSubmissionResponseMsg :=
  mkBlockSubmissionResponseMsg (ToSecretRespMsg (ProducedSecretResponses response)) None.
Definition FromBlockSubmissionResponseMsg (msg : BlockSubmissionResponseMsg) : BlockSubmissionResponse :=
  mkBlockSubmissionResponse (FromSecretRespMsg (bsm_ProducedSecretResponses msg)).

(** The message has no consistency level. *)
Definition ToCrossChainMsgs (messages : list CrossChainMessage) : list CrossChainMsg :=
  map (λ m, mkCrossChainMsg (Address_Bytes (msg_sender m)) (msg_sequence m) (msg_nonce m) (msg_topic m) (msg_payload m)) messages.
Definition FromCrossChainMsgs (messages : list CrossChainMsg) : list CrossChainMessage :=
  map (λ m, mkMessage (BytesToAddress (ccm_Sender m)) (ccm_Sequence m) (ccm_Nonce m) (ccm_Topic m) (ccm_Payload m) 0) messages.

Definition ToBatchHeaderMsg (header : BatchHeader) : BatchHeaderMsg := {|
  bhm_ParentHash := Hash_Bytes (ParentHash header);
  bhm_Proof := Hash_Bytes (L1Proof header);
  bhm_Root := Hash_Bytes (Root header);
  bhm_TxHash := Hash_Bytes (TxHash header);
  bhm_Number := Int.u64 (Number header);
  bhm_SequencerOrderNo := Int.u64 (SequencerOrderNo header);
  bhm_ReceiptHash := Hash_Bytes (ReceiptHash header);
  bhm_Extra := Extra header;
  bhm_R := big_Bytes (sigR header);
  bhm_S := big_Bytes (sigS header);
  bhm_GasLimit := GasLimit header;
  bhm_GasUsed := GasUsed header;
  bhm_Time := Time header;
  bhm_BaseFee := Int.u64 (BaseFee header);
  bhm_CrossChainMessages := ToCrossChainMsgs (CrossChainMessages header);
  bhm_LatestInboundCrossChainHash := Hash_Bytes (LatestInboundCrossChainHash header);
  bhm_LatestInboundCrossChainHeight := big_Bytes (LatestInboundCrossChainHeight header)
|}.

Definition FromBatchHeaderMsg (header : BatchHeaderMsg) : BatchHeader := {|
  ParentHash := BytesToHash (bhm_ParentHash header);
  L1Proof := BytesToHash (bhm_Proof header);
  Root := BytesToHash (bhm_Root header);
  TxHash := BytesToHash (bhm_TxHash header);
  Number := Int.i64 (bhm_Number header);
  SequencerOrderNo := Int.i64 (bhm_SequencerOrderNo header);
  ReceiptHash := BytesToHash (bhm_ReceiptHash header);
  Extra := bhm_Extra header;
  sigR := big_SetBytes (bhm_R header);
  sigS := big_SetBytes (bhm_S header);
  GasLimit := bhm_GasLimit header;
  GasUsed := bhm_GasUsed header;
  Time := bhm_Time header;
  BaseFee := Int.i64 (bhm_BaseFee header);
  CrossChainMessages := FromCrossChainMsgs (bhm_CrossChainMessages header);
  LatestInboundCrossChainHash := BytesToHash (bhm_LatestInboundCrossChainHash header);
  LatestInboundCrossChainHeight := big_SetBytes (bhm_LatestInboundCrossChainHeight header)
|}.

(** [None]: nil, or a value without a header. *)
Definition ToExtBatchMsg (batch : option ExtBatch) : ExtBatchMsg :=
  match batch with
  | None => mkExtBatchMsg None [] []
  | Some batch =>
      mkExtBatchMsg (Some (ToBatchHeaderMsg (ext_header batch))) (map Hash_Bytes (ext_txhashes batch)) (EncryptedTxBlob batch)
  end.
Definition FromExtBatchMsg (msg : ExtBatchMsg) : option ExtBatch :=
  match ebm_Header msg with
  | None => None
  | Some header => Some (mkExtBatch (FromBatchHeaderMsg header) (map BytesToHash (ebm_TxHashes msg)) (ebm_Txs msg))
  end.

(** The message has no hash of the payload. *)
Definition ToRollupHeaderMsg (header : RollupHeader) : RollupHeaderMsg := {|
  rhm_CompressionL1Head := Hash_Bytes (CompressionL1Head header);
  rhm_R := big_Bytes (rollupR header);
  rhm_S := big_Bytes (rollupS header);
  rhm_Coinbase := Address_Bytes (Coinbase header);
  rhm_CrossChainMessages := ToCrossChainMsgs (RollupMessages header);
  rhm_LastBatchSeqNo := LastBatchSeqNo header
|}.
Definition FromRollupHeaderMsg (header : RollupHeaderMsg) : RollupHeader := {|
  CompressionL1Head := BytesToHash (rhm_CompressionL1Head header);
  rollupR := big_SetBytes (rhm_R header);
  rollupS := big_SetBytes (rhm_S header);
  Coinbase := BytesToAddress (rhm_Coinbase header);
  RollupMessages := FromCrossChainMsgs (rhm_CrossChainMessages header);
  PayloadHash := EmptyHash;
  LastBatchSeqNo := rhm_LastBatchSeqNo header
|}.

Definition ToExtRollupMsg (rollup : option ExtRollup) : ExtRollupMsg :=
  match rollup with
  | None => mkExtRollupMsg None [] []
  | Some rollup =>
      mkExtRollupMsg (Some (ToRollupHeaderMsg (ext_rollup_header rollup))) (BatchPayloads rollup) (CalldataRollupHeaderBlob rollup)
  end.
Definition FromExtRollupMsg (msg : ExtRollupMsg) : option ExtRollup :=
  match erm_Header msg with
  | None => None
  | Some header => Some (mkExtRollup (FromRollupHeaderMsg header) (erm_CalldataRollupHeader msg) (erm_BatchPayloads msg))
  end.
End converters.

(** ** What survives the wire *)

(** The messages without their consistency levels. *)
Definition erase_level (m : CrossChainMessage) : CrossChainMessage :=
  mkMessage (msg_sender m) (msg_sequence m) (msg_nonce m) (msg_topic m) (msg_payload m) 0.
Definition levels_zero (messages : list CrossChainMessage) : Prop := Forall (λ m, msg_consistency m = 0) messages.

Lemma erase_levels_id messages : map erase_level messages = messages ↔ levels_zero messages.
Proof.
  unfold levels_zero. induction messages as [|[a b c d e l] ms IH]; simpl; [by split; [constructor|]|].
  rewrite Forall_cons, <-IH. cbn. split; [by intros [= <- Hms]|by intros [-> ->]].
Qed.

Definition set_messages (messages : list CrossChainMessage) (h : BatchHeader) : BatchHeader :=
  set_crosschain messages (LatestInboundCrossChainHash h) (LatestInboundCrossChainHeight h) h.
Definition set_rollup_messages (messages : list CrossChainMessage) (h : RollupHeader) : RollupHeader :=
  mkRollupHeader (Coinbase h) (CompressionL1Head h) messages (PayloadHash h) (rollupR h) (rollupS h) (LastBatchSeqNo h).

(** The numbers of a header fit the fields of the message. *)
Record header_fits (h : BatchHeader) : Prop := {
  hf_number : 0 ≤ Number h < 2 ^ 63;
  hf_seq : 0 ≤ SequencerOrderNo h < 2 ^ 63;
  hf_basefee : 0 ≤ BaseFee h < 2 ^ 63;
  hf_sig : 0 ≤ sigR h ∧ 0 ≤ sigS h;
  hf_height : 0 ≤ LatestInboundCrossChainHeight h
}.
Record rollup_fits (h : RollupHeader) : Prop := {
  rf_payload : PayloadHash h = EmptyHash;
  rf_sig : 0 ≤ rollupR h ∧ 0 ≤ rollupS h
}.

Section wire.
Context `{HBO : HashBytesOk, ABO : AddressBytesOk}.

Lemma wire_messages ms : FromCrossChainMsgs (ToCrossChainMsgs ms) = map erase_level ms.
Proof. unfold FromCrossChainMsgs, ToCrossChainMsgs. rewrite map_map. apply map_ext. intros m. cbn. by rewrite address_roundtrip. Qed.

Lemma wire_int n : 0 ≤ n < 2 ^ 63 → Int.i64 (Int.u64 n) = n.
Proof. intros Hn. rewrite Int.i64_u64. apply Int.i64_id. unfold Int.is_i64. lia. Qed.

Lemma wire_big n : 0 ≤ n → big_SetBytes (big_Bytes n) = n.
Proof. intros Hn. unfold big_SetBytes, big_Bytes. rewrite Z.abs_eq by done. by apply Gob.setBytes_nat_bytes. Qed.

Lemma wire_header h : header_fits h →
  FromBatchHeaderMsg (ToBatchHeaderMsg h) = set_messages (map erase_level (CrossChainMessages h)) h.
Proof.
  intros [? ? ? [? ?] ?]. unfold FromBatchHeaderMsg, ToBatchHeaderMsg, set_messages, set_crosschain.
  cbn -[big_SetBytes big_Bytes Int.u64 Int.i64 FromCrossChainMsgs ToCrossChainMsgs].
  by rewrite !hash_roundtrip, !wire_int, !wire_big, wire_messages by done.
Qed.

Lemma wire_rollup_header h : rollup_fits h →
  FromRollupHeaderMsg (ToRollupHeaderMsg h) = set_rollup_messages (map erase_level (RollupMessages h)) h.
Proof.
  intros [Hp [? ?]]. unfold FromRollupHeaderMsg, ToRollupHeaderMsg, set_rollup_messages.
  cbn -[big_SetBytes big_Bytes FromCrossChainMsgs ToCrossChainMsgs].
  by rewrite Hp, hash_roundtrip, !wire_big, address_roundtrip, wire_messages by done.
Qed.

Lemma wire_hashes hs : map BytesToHash (map Hash_Bytes hs) = hs.
Proof. rewrite map_map. induction hs as [|h hs IH]; [done|]. cbn. by rewrite hash_roundtrip, IH. Qed.

(** The batch and the rollup the other side reads. *)
Definition wired_batch (b : ExtBatch) : ExtBatch :=
  mkExtBatch (set_messages (map erase_level (CrossChainMessages (ext_header b))) (ext_header b)) (ext_txhashes b) (EncryptedTxBlob b).
Definition wired_rollup (r : ExtRollup) : ExtRollup :=
  mkExtRollup (set_rollup_messages (map erase_level (RollupMessages (ext_rollup_header r))) (ext_rollup_header r))
    (CalldataRollupHeaderBlob r) (BatchPayloads r).

Lemma wire_batch b : header_fits (ext_header b) → FromExtBatchMsg (ToExtBatchMsg (Some b)) = Some (wired_batch b).
Proof. intros Hf. unfold FromExtBatchMsg, ToExtBatchMsg. cbn. by rewrite wire_header, wire_hashes. Qed.

Lemma wire_rollup r : rollup_fits (ext_rollup_header r) → FromExtRollupMsg (ToExtRollupMsg (Some r)) = Some (wired_rollup r).
Proof. intros Hf. unfold FromExtRollupMsg, ToExtRollupMsg. cbn. by rewrite wire_rollup_header. Qed.

Lemma wired_batch_id b : levels_zero (CrossChainMessages (ext_header b)) → wired_batch b = b.
Proof. intros Hz%erase_levels_id. unfold wired_batch. rewrite Hz. by destruct b as [[]]. Qed.
Lemma wired_rollup_id r : levels_zero (RollupMessages (ext_rollup_header r)) → wired_rollup r = r.
Proof. intros Hz%erase_levels_id. unfold wired_rollup. rewrite Hz. by destruct r as [[]]. Qed.

Context `{HashingOk}.

Lemma wired_batch_hash b : ExtBatch_Hash (wired_batch b) = ExtBatch_Hash b ↔ levels_zero (CrossChainMessages (ext_header b)).
Proof.
  split; [|by intros Hz; rewrite wired_batch_id]. unfold ExtBatch_Hash, BatchHeader_Hash. intros Heq%(inj rlpHash_batch).
  apply erase_levels_id. by apply (f_equal CrossChainMessages) in Heq.
Qed.
Lemma wired_rollup_hash r : ExtRollup_Hash (wired_rollup r) = ExtRollup_Hash r ↔ levels_zero (RollupMessages (ext_rollup_header r)).
Proof.
  split; [|by intros Hz; rewrite wired_rollup_id]. unfold ExtRollup_Hash, RollupHeader_Hash. intros Heq%(inj rlpHash_rollup).
  apply erase_levels_id. by apply (f_equal RollupMessages) in Heq.
Qed.

(** C37: What the converters between the host and the enclave keep. A batch whose numbers
    fit the message is read back with all its fields and with its cross-chain messages
    in their order, each with all its fields but the consistency level, which the
    message does not carry and which is read as zero; so the batch, and with it its
    hash, is the one that was sent exactly when every level is zero. *)
Theorem ExtBatchMsg_roundtrip (b : ExtBatch) : header_fits (ext_header b) →
  ∃ b', FromExtBatchMsg (ToExtBatchMsg (Some b)) = Some b' ∧
    ext_header b' = set_messages (map erase_level (CrossChainMessages (ext_header b))) (ext_header b) ∧
    ext_txhashes b' = ext_txhashes b ∧ EncryptedTxBlob b' = EncryptedTxBlob b ∧
    (b' = b ↔ levels_zero (CrossChainMessages (ext_header b))) ∧
    (ExtBatch_Hash b' = ExtBatch_Hash b ↔ levels_zero (CrossChainMessages (ext_header b))).
Proof.
  intros Hf. exists (wired_batch b). split; [by apply wire_batch|].
  do 3 (split; [done|]). pose proof (wired_batch_hash b) as Hh. split; [|done].
  split; [|by apply wired_batch_id]. intros Heq. apply Hh. by rewrite Heq.
Qed.

(** A rollup leaves the enclave that signed it with another hash than the signed
    one as soon as one of its messages has a consistency level: the host publishes a
    rollup whose signature is over a hash that is not the hash of its header. Without
    such a message the rollup arrives unchanged. *)
Theorem ExtRollupMsg_hash (r : ExtRollup) : rollup_fits (ext_rollup_header r) →
  ∃ r', FromExtRollupMsg (ToExtRollupMsg (Some r)) = Some r' ∧
    rollupR (ext_rollup_header r') = rollupR (ext_rollup_header r) ∧
    rollupS (ext_rollup_header r') = rollupS (ext_rollup_header r) ∧
    (levels_zero (RollupMessages (ext_rollup_header r)) → r' = r) ∧
    (ExtRollup_Hash r' = ExtRollup_Hash r ↔ levels_zero (RollupMessages (ext_rollup_header r))).
Proof.
  intros Hf. exists (wired_rollup r). split; [by apply wire_rollup|]. split; [done|]. split; [done|].
  split; [by apply wired_rollup_id|apply wired_rollup_hash].
Qed.
End wire.
