(* ===== verification/EnclaveRPC.v ===== *)
(** * The enclave over RPC

    [go/enclave/rpc_server.go] and [go/host/rpc/enclaverpc/enclave_client.go]: the
    host calls the enclave, another process, through gRPC. The server turns the
    results of the enclave into messages and the client turns the messages into
    results again. The debugging calls are left out. *)

From S2P Require Import Prelude Types Codec Bytes L1Chain EnclaveDB BatchDB Events Storage CrossChain Executor Mempool Registry Params L2Chain RollupCompression Rollups Sequencer Validator ViewingKeys Subscriptions Service RPC HostDB Converters.
Local Open Scope Z_scope.

(** ** The interface ([common.Enclave])

    A block or a batch that could not be decoded has no header: [None]. *)

Class EnclaveAPI (E : Type) := {
  api_Status : M E (Status * option GoError);
  api_Attestation : M E AttestationReport;
  api_GenerateSecret : M E bytes;
  api_InitEnclave : bytes → M E unit;
  api_SubmitL1Block : option L1Block → list (option Receipt) → bool → M E BlockSubmissionResponse;
  api_SubmitBatch : option ExtBatch → M E unit;
  (** the requests of users, [SubmitTx] among them *)
  api_request : Request → bytes → M E EnclaveResponse;
  api_Stop : M E unit;
  api_GetCode : Address → Hash → M E bytes;
  api_Subscribe : string → bytes → M E unit;
  api_Unsubscribe : string → M E unit;
  api_HealthCheck : M E bool;
  api_GetBatch : Hash → M E ExtBatch;
  api_GetBatchBySeqNo : Z → M E ExtBatch;
  api_CreateBatch : M E unit;
  api_CreateRollup : Z → M E ExtRollup;
  api_GetTotalContractCount : M E Z;
  api_GetPublicTransactionData : QueryPagination → M E (list PublicTransaction * Z)
}.

(** RLP of blocks and receipts, and the JSON of answers, listings and streamed
    updates. [json.Marshal] and [json.Unmarshal] may fail. *)
Class RPCCodecs := {
  #[global] codec_rpcblock :: Codec L1Block;
  #[global] codec_rpcreceipts :: Codec (list (option Receipt));
  json_EnclaveResponse : EnclaveResponse → option bytes;
  unjson_EnclaveResponse : bytes → option EnclaveResponse;
  json_listing : list PublicTransaction * Z → option bytes;
  unjson_listing : bytes → option (list PublicTransaction * Z);
  json_update : StreamL2UpdatesResponse → option bytes;
  unjson_update : bytes → option StreamL2UpdatesResponse
}.

(** ** The server

    A result of type [A + string] is a response: its fields, or its
    [SystemError]. An error of the handler is the error of the gRPC call. *)

Section server.
Context {E : Type} `{EnclaveAPI E, HB : HashBytes, AB : AddressBytes, HC : HostCodecs, RC : RPCCodecs}.

(** [toRPCError] *)
Definition toRPCError (err : GoError) : string := err_text err.

(** A handler that puts the error of the enclave in its response. *)
Definition respond {A B} (m : M E A) (k : A → result B) : M E (B + string) :=
  r ← try m;
  match r with
  | inl a => b ← lift (k a); mret (inl b)
  | inr sysError => mret (inr (toRPCError sysError))
  end.

(** [StatusResponse]; nil bytes are empty. *)
Record StatusResponse := mkStatusResponse {
  sr_StatusCode : StatusCode;
  sr_L1Head : bytes;
  sr_L2Head : bytes;
  sr_SystemError : option string
}.
Definition server_Status : M E StatusResponse :=
  '(status, sysError) ← api_Status;
  let l2Head := match st_L2Head status with Some n => big_Bytes n | None => [] end in
  mret (mkStatusResponse (st_StatusCode status) (Hash_Bytes (st_L1Head status)) l2Head (toRPCError <$> sysError)).

Definition server_Attestation : M E (AttestationReportMsg + string) :=
  respond api_Attestation (λ attestation, Ok (ToAttestationReportMsg attestation)).
Definition server_GenerateSecret : M E (bytes + string) := respond api_GenerateSecret Ok.
Definition server_InitEnclave (secret : bytes) : M E (unit + string) := respond (api_InitEnclave secret) Ok.

(** The first [BlockRejectError] of a chain of errors, by [errors.As]. *)
Fixpoint as_BlockRejectError (err : GoError) : option (Hash * GoError) :=
  match err with
  | ErrBlockReject l1Head wrapped => Some (l1Head, wrapped)
  | ErrWrap _ cause | ErrInternal cause | ErrRPC cause | ErrFailFast cause => as_BlockRejectError cause
  | _ => None
  end.

Definition decodeBlock (encodedBlock : bytes) : option L1Block := rlp_decode encodedBlock.
Definition decodeReceipts (encodedReceipts : bytes) : result (list (option Receipt)) :=
  match DecodeBytes encodedReceipts with
  | Ok receipts => Ok receipts
  | Err _ | Crash _ => Crash "failed to decode receipts sent to enclave"
  end.

(** A rejected block is a response with an error in it. *)
Definition server_SubmitL1Block (encodedBlock encodedReceipts : bytes) (isLatest : bool) : M E BlockSubmissionResponseMsg :=
  let bl := decodeBlock encodedBlock in
  receipts ← lift (decodeReceipts encodedReceipts);
  r ← try (api_SubmitL1Block bl receipts isLatest);
  match r with
  | inl blockSubmissionResponse => mret (ToBlockSubmissionResponseMsg blockSubmissionResponse)
  | inr err =>
      match as_BlockRejectError err with
      | Some (l1Head, wrapped) =>
          mret (mkBlockSubmissionResponseMsg [] (Some (mkBlockSubmissionErrorMsg (err_text wrapped) (Hash_Bytes l1Head))))
      | None => fail err
      end
  end.

(** [EnclaveResponse.Encode] *)
Definition Encode (er : EnclaveResponse) : result bytes :=
  match json_EnclaveResponse er with Some encoded => Ok encoded | None => Crash "json" end.

Definition server_request (req : Request) (params : bytes) : M E (bytes + string) := respond (api_request req params) Encode.
Definition server_SubmitTx : bytes → M E (bytes + string) := server_request RSubmitTx.
Definition server_ObsCall : bytes → M E (bytes + string) := server_request RObsCall.
Definition server_GetTransactionCount : bytes → M E (bytes + string) := server_request RGetTransactionCount.
Definition server_GetTransaction : bytes → M E (bytes + string) := server_request RGetTransaction.
Definition server_GetTransactionReceipt : bytes → M E (bytes + string) := server_request RGetTransactionReceipt.
Definition server_GetBalance : bytes → M E (bytes + string) := server_request RGetBalance.
Definition server_EstimateGas : bytes → M E (bytes + string) := server_request REstimateGas.
Definition server_GetLogs : bytes → M E (bytes + string) := server_request RGetLogs.
Definition server_GetReceiptsByAddress : bytes → M E (bytes + string) := server_request RGetCustomQuery.

Definition server_SubmitBatch (msg : ExtBatchMsg) : M E (unit + string) := respond (api_SubmitBatch (FromExtBatchMsg msg)) Ok.

Definition server_Stop : M E (unit + string) := respond api_Stop Ok.
Definition server_GetCode (address rollupHash : bytes) : M E (bytes + string) :=
  respond (api_GetCode (Bytes.BytesToAddress address) (BytesToHash rollupHash)) Ok.
Definition server_Subscribe (id : string) (encryptedSubscription : bytes) : M E (unit + string) :=
  respond (api_Subscribe id encryptedSubscription) Ok.
Definition server_Unsubscribe (id : string) : M E (unit + string) := respond (api_Unsubscribe id) Ok.
Definition server_HealthCheck : M E (bool + string) := respond api_HealthCheck Ok.

(** [fromSeqNo] is optional in the request. *)
Definition server_CreateRollup (fromSequenceNumber : option Z) : M E (ExtRollupMsg + string) :=
  let fromSeqNo := match fromSequenceNumber with
                   | Some n => if L2GenesisSeqNo <? n then n else 1
                   | None => 1
                   end in
  respond (api_CreateRollup fromSeqNo) (λ rollup, Ok (ToExtRollupMsg (Some rollup))).

Definition server_CreateBatch : M E unit := api_CreateBatch.

(** The text of the encoding error is read also when there is none. *)
Definition encodedBatch (batch : ExtBatch) : result (bytes * string) :=
  match EncodeToBytes batch with
  | Ok _ => Crash "nil encoding error"
  | Err encodingErr => Ok ([], err_text encodingErr)
  | Crash c => Crash c
  end.
Definition server_GetBatch (knownHead : bytes) : M E (bytes * string) :=
  batch ← api_GetBatch (BytesToHash knownHead);
  lift (encodedBatch batch).
Definition server_GetBatchBySeqNo (seqNo : Z) : M E (bytes * string) :=
  batch ← api_GetBatchBySeqNo seqNo;
  lift (encodedBatch batch).

(** Without a count the number is zero. *)
Definition server_GetTotalContractCount : M E (Z + string) := respond api_GetTotalContractCount (λ count, Ok (Int.i64 count)).

(** A failed [json.Marshal] leaves the response empty. *)
Definition server_GetPublicTransactionData (offset size : Z) : M E (bytes + string) :=
  respond (api_GetPublicTransactionData (mkPagination (Int.u64 offset) (Int.u64 size)))
    (λ publicTxData, Ok (default [] (json_listing publicTxData))).

(** What the server sends of the updates, in order; a failed [json.Marshal] ends
    the stream. *)
Fixpoint server_StreamL2Updates (updates : list StreamL2UpdatesResponse) : list bytes :=
  match updates with
  | [] => []
  | batchResp :: updates =>
      match json_update batchResp with
      | Some encoded => encoded :: server_StreamL2Updates updates
      | None => []
      end
  end.
End server.

(** ** The connection

    Each call is delivered, is not sent, or its reply is lost; [w_link] is what
    happens to the next calls, and the ones after them are delivered. A crash of the
    enclave ends its process: the call and all later ones fail. *)

Inductive Delivery := Delivered | NotSent (reason : string) | ReplyLost (reason : string).

Record Wired (E : Type) := mkWired {
  w_enclave : E;
  w_alive : bool;
  w_link : list Delivery
}.
Arguments mkWired {E} _ _ _.
Arguments w_enclave {E} _.
Arguments w_alive {E} _.
Arguments w_link {E} _.

Definition errUnavailable : GoError := ErrMsg "rpc error: code = Unavailable".
(** The status error of a handler that returned an error. *)
Definition statusError (err : GoError) : GoError := ErrMsg ("rpc error: code = Unknown desc = " ++ err_text err).

Definition call {E A} (handler : M E A) : M (Wired E) A := λ w,
  let link := tail (w_link w) in
  match head (w_link w) with
  | Some (NotSent reason) => (mkWired (w_enclave w) (w_alive w) link, Err (ErrMsg reason))
  | d =>
      if w_alive w then
        let '(e, r) := handler (w_enclave w) in
        match r, d with
        | Crash _, _ => (mkWired e false link, Err errUnavailable)
        | _, Some (ReplyLost reason) => (mkWired e true link, Err (ErrMsg reason))
        | Err err, _ => (mkWired e true link, Err (statusError err))
        | Ok a, _ => (mkWired e true link, Ok a)
        end
      else (mkWired (w_enclave w) false link, Err errUnavailable)
  end.

(** ** The client *)

Section client.
Context {E : Type} `{EnclaveAPI E, HB : HashBytes, AB : AddressBytes, HC : HostCodecs, RC : RPCCodecs}.

(** [syserr.NewRPCError] and [syserr.NewInternalError] around the error of a call *)
Definition NewRPCError {A} (m : M (Wired E) A) : M (Wired E) A := λ w,
  match m w with
  | (w', Err err) => (w', Err (ErrRPC err))
  | r => r
  end.

(** The response without its [SystemError]. *)
Definition receive {A B} (m : M E (A + string)) (k : A → result B) : M (Wired E) B :=
  response ← NewRPCError (call m);
  match response with
  | inl a => lift (k a)
  | inr errorString => fail (ErrInternal (ErrMsg errorString))
  end.

(** The connection is not ready when the enclave is gone. *)
Definition client_Status : M (Wired E) (Status * option GoError) := λ w,
  if negb (w_alive w)
  then (w, Ok (mkStatus Unavailable EmptyHash None, Some (ErrInternal (ErrMsg "RPC connection is not ready"))))
  else
    (r ← try (call server_Status);
     mret (match r with
           | inr err => (mkStatus Unavailable EmptyHash None, Some (ErrRPC err))
           | inl response =>
               match sr_SystemError response with
               | Some errorString => (mkStatus Unavailable EmptyHash None, Some (ErrInternal (ErrMsg errorString)))
               | None => (mkStatus (sr_StatusCode response) (BytesToHash (sr_L1Head response))
                            (Some (big_SetBytes (sr_L2Head response))), None)
               end
           end)) w.

Definition client_Attestation : M (Wired E) AttestationReport :=
  receive server_Attestation (λ msg, Ok (FromAttestationReportMsg msg)).
Definition client_GenerateSecret : M (Wired E) bytes := receive server_GenerateSecret Ok.
Definition client_InitEnclave (secret : bytes) : M (Wired E) unit := receive (server_InitEnclave secret) Ok.

Definition client_SubmitL1Block (block : option L1Block) (receipts : list (option Receipt)) (isLatest : bool)
    : M (Wired E) BlockSubmissionResponse :=
  match block with
  | None => crash "nil block header"
  | Some block =>
      buffer ← wrap "could not encode block. Cause:" (lift (EncodeToBytes block));
      serialized ← wrap "could not encode receipts. Cause:" (lift (EncodeToBytes receipts));
      response ← wrap "could not submit block. Cause:" (call (server_SubmitL1Block buffer serialized isLatest));
      mret (FromBlockSubmissionResponseMsg response)
  end.

(** [responses.ToEnclaveResponse] *)
Definition ToEnclaveResponse (encoded : bytes) : result EnclaveResponse :=
  match unjson_EnclaveResponse encoded with Some resp => Ok resp | None => Crash "json" end.

Definition client_SubmitTx (tx : bytes) : M (Wired E) EnclaveResponse := receive (server_SubmitTx tx) ToEnclaveResponse.
Definition client_ObsCall (params : bytes) : M (Wired E) EnclaveResponse := receive (server_ObsCall params) ToEnclaveResponse.
Definition client_GetTransactionCount (params : bytes) : M (Wired E) EnclaveResponse :=
  receive (server_GetTransactionCount params) ToEnclaveResponse.
Definition client_GetTransaction (params : bytes) : M (Wired E) EnclaveResponse :=
  receive (server_GetTransaction params) ToEnclaveResponse.
Definition client_GetTransactionReceipt (params : bytes) : M (Wired E) EnclaveResponse :=
  receive (server_GetTransactionReceipt params) ToEnclaveResponse.
Definition client_GetBalance (params : bytes) : M (Wired E) EnclaveResponse := receive (server_GetBalance params) ToEnclaveResponse.
Definition client_EstimateGas (params : bytes) : M (Wired E) EnclaveResponse := receive (server_EstimateGas params) ToEnclaveResponse.
Definition client_GetLogs (params : bytes) : M (Wired E) EnclaveResponse := receive (server_GetLogs params) ToEnclaveResponse.
Definition client_GetCustomQuery (params : bytes) : M (Wired E) EnclaveResponse :=
  receive (server_GetReceiptsByAddress params) ToEnclaveResponse.
Definition client_request (req : Request) : bytes → M (Wired E) EnclaveResponse :=
  match req with
  | RSubmitTx => client_SubmitTx
  | RGetTransactionCount => client_GetTransactionCount
  | RGetTransaction => client_GetTransaction
  | RGetTransactionReceipt => client_GetTransactionReceipt
  | RGetBalance => client_GetBalance
  | RObsCall => client_ObsCall
  | REstimateGas => client_EstimateGas
  | RGetLogs => client_GetLogs
  | RGetCustomQuery => client_GetCustomQuery
  end.

Definition client_SubmitBatch (batch : option ExtBatch) : M (Wired E) unit := receive (server_SubmitBatch (ToExtBatchMsg batch)) Ok.

(** The server stops listening as well. *)
Definition client_Stop : M (Wired E) unit := λ w,
  let '(w', r) := (receive server_Stop Ok) w in
  match head (w_link w) with
  | Some (NotSent _) => (w', r)
  | _ => (mkWired (w_enclave w') false (w_link w'), r)
  end.

Definition client_GetCode (address : Address) (batchHash : Hash) : M (Wired E) bytes :=
  receive (server_GetCode (Address_Bytes address) (Hash_Bytes batchHash)) Ok.
Definition client_Subscribe (id : string) (encryptedParams : bytes) : M (Wired E) unit := receive (server_Subscribe id encryptedParams) Ok.
Definition client_Unsubscribe (id : string) : M (Wired E) unit := receive (server_Unsubscribe id) Ok.
Definition client_HealthCheck : M (Wired E) bool := receive server_HealthCheck Ok.

(** [syserr.NewInternalError]; the response never has an error text. *)
Definition client_CreateBatch : M (Wired E) unit := ToInternalError (call server_CreateBatch).

(** A rollup without a header is nil to those who read it. *)
Definition client_CreateRollup (fromSeqNo : Z) : M (Wired E) ExtRollup :=
  receive (server_CreateRollup (Some fromSeqNo))
    (λ msg, match FromExtRollupMsg msg with Some rollup => Ok rollup | None => Crash "nil rollup header" end).

Definition DecodeExtBatch (encoded : bytes) : result ExtBatch := DecodeBytes encoded.
(** The [SystemError] of the response is not looked at. *)
Definition client_GetBatch (hash : Hash) : M (Wired E) ExtBatch :=
  batchMsg ← wrap "rpc GetBatch failed. Cause:" (call (server_GetBatch (Hash_Bytes hash)));
  lift (DecodeExtBatch batchMsg.1).
Definition client_GetBatchBySeqNo (seqNo : Z) : M (Wired E) ExtBatch :=
  batchMsg ← wrap "rpc GetBatchBySeqNo failed. Cause:" (call (server_GetBatchBySeqNo seqNo));
  lift (DecodeExtBatch batchMsg.1).

Definition client_GetTotalContractCount : M (Wired E) Z := receive server_GetTotalContractCount Ok.

Definition i32 (x : Z) : Z := (x + 2 ^ 31) mod 2 ^ 32 - 2 ^ 31.
(** The error of the decoding is taken from a [SystemError] that is nil. *)
Definition client_GetPublicTransactionData (pagination : QueryPagination) : M (Wired E) (list PublicTransaction * Z) :=
  receive (server_GetPublicTransactionData (i32 (Offset pagination)) (i32 (Size pagination)))
    (λ data, match unjson_listing data with Some result => Ok result | None => Crash "nil system error" end).

(** The channel of updates. Nil when the stream could not be opened: a receive from
    it blocks forever. *)
Inductive UpdateChan := NilChan | Chan (updates : list StreamL2UpdatesResponse).
Fixpoint decodeUpdates (received : list bytes) : list StreamL2UpdatesResponse :=
  match received with
  | [] => []
  | batchMsg :: received =>
      match unjson_update batchMsg with
      | Some decoded => decoded :: decodeUpdates received
      | None => []
      end
  end.
Definition client_StreamL2Updates (opened : bool) (updates : list StreamL2UpdatesResponse) : UpdateChan :=
  if opened then Chan (decodeUpdates (server_StreamL2Updates updates)) else NilChan.

(** The client is an enclave to the host. *)
#[export] Instance client_api : EnclaveAPI (Wired E) := {|
  api_Status := client_Status;
  api_Attestation := client_Attestation;
  api_GenerateSecret := client_GenerateSecret;
  api_InitEnclave := client_InitEnclave;
  api_SubmitL1Block := client_SubmitL1Block;
  api_SubmitBatch := client_SubmitBatch;
  api_request := client_request;
  api_Stop := client_Stop;
  api_GetCode := client_GetCode;
  api_Subscribe := client_Subscribe;
  api_Unsubscribe := client_Unsubscribe;
  api_HealthCheck := client_HealthCheck;
  api_GetBatch := client_GetBatch;
  api_GetBatchBySeqNo := client_GetBatchBySeqNo;
  api_CreateBatch := client_CreateBatch;
  api_CreateRollup := client_CreateRollup;
  api_GetTotalContractCount := client_GetTotalContractCount;
  api_GetPublicTransactionData := client_GetPublicTransactionData
|}.
End client.

(** ** The enclave behind the server *)

(** What the handlers take from the machine: the time, the random secret, the
    decryption with the key of the enclave, its key and attestation, and how
    closing the database ends. *)
Record Machine := mkMachine {
  mc_now : Z;
  mc_entropy : bytes;
  mc_decrypt : bytes → option bytes;
  mc_pubKey : option bytes;
  mc_report : result AttestationReport;
  mc_closed : result unit
}.

Section enclave.
Context {C : Type} `{Cache C, StateModel, StorageCodecs, Hashing, MB : MessageBus}.
Context `{OW : !OwnerWallet, Keccak, EV : !EVM, CS : !Codec (list Z), RollupCodecs, BlobServices, Signatures}.
Context `{MgmtABI, AT : !Attestations, CE : !Codec ExtRollup, VC : ViewingCrypto, SubscriptionCodecs}.
Context `{GE : GethEncoding, CL : !Calls, TF : TxFields, RC : ResponseCodecs}.
Context (fuel : nat) (cfg : EnclaveConfig) (AuthSender : L2Tx → option Address) (iterate : Mempool.t → list L2Tx) (mc : Machine).

(** The log line reads the number of the block. *)
Definition submitL1Block (block : option L1Block) (receipts : list (option Receipt)) (_ : bool)
    : M (Service C) BlockSubmissionResponse :=
  match block with
  | Some block => SubmitL1Block fuel cfg block receipts
  | None => unless_stopping "requested SubmitL1Block with the enclave stopping" (crash "nil block header")
  end.
Definition submitBatch (extBatch : option ExtBatch) : M (Service C) unit :=
  match extBatch with
  | Some extBatch => SubmitBatch fuel cfg extBatch
  | None => unless_stopping "requested SubmitBatch with the enclave stopping" (crash "nil batch header")
  end.

Definition service_api : EnclaveAPI (Service C) := {|
  api_Status := GetStatus;
  api_Attestation := Attestation (mc_pubKey mc) (mc_report mc);
  api_GenerateSecret := GenerateSecret cfg (mc_entropy mc);
  api_InitEnclave secret := InitEnclave (mc_decrypt mc secret);
  api_SubmitL1Block := submitL1Block;
  api_SubmitBatch := submitBatch;
  api_request := handle cfg AuthSender fuel;
  api_Stop := Stop (mc_closed mc);
  api_GetCode address batchHash := code ← enclave_GetCode address batchHash; mret (default [] code);
  api_Subscribe := Subscribe;
  api_Unsubscribe := Unsubscribe;
  api_HealthCheck := enclave_HealthCheck;
  api_GetBatch := GetBatch;
  api_GetBatchBySeqNo := GetBatchBySeqNo;
  api_CreateBatch := enclave_CreateBatch fuel cfg AuthSender iterate (mc_now mc);
  api_CreateRollup := enclave_CreateRollup fuel cfg;
  api_GetTotalContractCount := GetTotalContractCount;
  api_GetPublicTransactionData := enclave_GetPublicTransactionData
|}.
End enclave.

(** ** What the RPC layer keeps of the enclave

    Over a connection without faults the client is the enclave, up to the identity
    of its errors, for most of the interface; a rejected block, a batch that is
    looked up and receipts with a gap are the exceptions. *)


(** ** Laws of the encodings *)

(** The fields of a log and of a receipt that RLP carries. *)
Definition consensusLog (l : Log) : Log := mkLog (log_address l) (log_topics l) (log_data l) 0 0 0 0 0.
Definition consensusReceipt (r : Receipt) : Receipt := mkReceipt (r_status r) 0 0 0 0 (map consensusLog (r_logs r)).

Definition plainText (s : string) : Prop := Forall (λ c, (Ascii.N_of_ascii c < 128)%N) (String.list_ascii_of_string s).

(** JSON keeps ASCII text; a nil receipt is written as an empty list, which is not
    the RLP of a receipt. *)
Class RPCCodecsOk `{RPCCodecs} : Prop := {
  #[global] codec_rpcblock_ok :: CodecOk L1Block;
  rlp_receipts : ∀ rs x, rlp_encode rs = Some x → rlp_decode x = mapM (fmap consensusReceipt) rs ≫= λ rs', Some (Some <$> rs');
  json_plain : ∀ r x, (∀ s, resp_Err r = Some s → plainText s) → json_EnclaveResponse r = Some x → unjson_EnclaveResponse x = Some r
}.

(** A connection without faults. *)
Definition up {E} (e : E) : Wired E := mkWired e true [].
Definition down {E} (e : E) : Wired E := mkWired e false [].

(** What the host sees of a call of the enclave: the text of an error only, and a
    lost connection for a crash. *)
Definition over_rpc {E A} (p : E * result A) : Wired E * result A :=
  match p with
  | (e, Ok a) => (up e, Ok a)
  | (e, Err err) => (up e, Err (ErrInternal (ErrMsg (err_text err))))
  | (e, Crash _) => (down e, Err (ErrRPC errUnavailable))
  end.

Section spec.
Context {E : Type} `{EnclaveAPI E, HBO : HashBytesOk, ABO : AddressBytesOk, HC : HostCodecs, RCO : RPCCodecsOk}.
Implicit Types (e : E) (w : Wired E).

Lemma call_up {A} (m : M E A) e :
  call m (up e) = match m e with
                  | (e', Ok a) => (up e', Ok a)
                  | (e', Err err) => (up e', Err (statusError err))
                  | (e', Crash _) => (down e', Err errUnavailable)
                  end.
Proof. unfold call, up, down. cbn. by destruct (m e) as [e' [a|err|c]]. Qed.

(** A handler and its client method, composed. *)
Lemma receive_respond {A B B'} (m : M E A) (k : A → result B) (k' : B → result B') e :
  receive (respond m k) k' (up e) =
  match m e with
  | (e', Ok a) => match k a with
                  | Ok b => (up e', k' b)
                  | Err err => (up e', Err (ErrRPC (statusError err)))
                  | Crash _ => (down e', Err (ErrRPC errUnavailable))
                  end
  | (e', Err err) => (up e', Err (ErrInternal (ErrMsg (err_text err))))
  | (e', Crash _) => (down e', Err (ErrRPC errUnavailable))
  end.
Proof.
  unfold receive, NewRPCError, mbind, M_bind. rewrite call_up. unfold respond, try, mbind, M_bind, lift, mret, M_ret.
  destruct (m e) as [e' [a|err|c]]; cbn; [|done..]. by destruct (k a) as [b|err|c].
Qed.

Lemma receive_same {A} (m : M E A) {B} (k : A → result B) (k' : B → result A) e :
  (∀ e' a, m e = (e', Ok a) → ∃ b, k a = Ok b ∧ k' b = Ok a) → receive (respond m k) k' (up e) = over_rpc (m e).
Proof.
  intros Hk. rewrite receive_respond. destruct (m e) as [e' [a|err|c]]; cbn; [|done..].
  destruct (Hk e' a eq_refl) as (b&->&Hb). by rewrite Hb.
Qed.

Lemma json_back r x : (∀ s, resp_Err r = Some s → plainText s) → json_EnclaveResponse r = Some x → ToEnclaveResponse x = Ok r.
Proof. intros Hp Hx. unfold ToEnclaveResponse. by rewrite (json_plain r x Hp Hx). Qed.

(** The answers of the enclave to users survive JSON. *)
Definition answers_plainly (req : Request) (params : bytes) e : Prop :=
  ∀ e' r, api_request req params e = (e', Ok r) →
    is_Some (json_EnclaveResponse r) ∧ ∀ s, resp_Err r = Some s → plainText s.

Lemma submitL1Block_up blk rs x y isLatest e : rlp_encode blk = Some x → rlp_encode rs = Some y →
  client_SubmitL1Block (Some blk) rs isLatest (up e) =
  match mapM (fmap consensusReceipt) rs with
  | None => (down e, Err (ErrWrap "could not submit block. Cause:" errUnavailable))
  | Some rs' =>
      match api_SubmitL1Block (Some blk) (Some <$> rs') isLatest e with
      | (e', Ok r) => (up e', Ok (FromBlockSubmissionResponseMsg (ToBlockSubmissionResponseMsg r)))
      | (e', Err err) =>
          match as_BlockRejectError err with
          | Some _ => (up e', Ok (mkBlockSubmissionResponse []))
          | None => (up e', Err (ErrWrap "could not submit block. Cause:" (statusError err)))
          end
      | (e', Crash _) => (down e', Err (ErrWrap "could not submit block. Cause:" errUnavailable))
      end
  end.
Proof.
  intros Hx Hy. unfold client_SubmitL1Block, wrap, lift, EncodeToBytes, mbind, M_bind. rewrite Hx, Hy. cbn [of_option].
  rewrite call_up. unfold server_SubmitL1Block, decodeBlock, decodeReceipts, DecodeBytes, mbind, M_bind, lift, try.
  rewrite (codec_rpcblock_ok blk x Hx), (rlp_receipts rs y Hy).
  destruct (mapM _ rs) as [rs'|]; cbn; [|done].
  destruct (api_SubmitL1Block _ _ _ e) as [e' [r|err|c]]; cbn; [done| |done].
  by destruct (as_BlockRejectError err) as [[h c]|].
Qed.

(** The same, for calls whose errors are wrapped in another way: an error stays an error, a
    crash becomes one. *)
Definition sees {A} (r : Wired E * result A) (p : E * result A) : Prop :=
  match p with
  | (e, Ok a) => r = (up e, Ok a)
  | (e, Err _) => ∃ err, r = (up e, Err err)
  | (e, Crash _) => ∃ err, r = (down e, Err err)
  end.

Lemma CreateBatch_sees e : sees (client_CreateBatch (up e)) (api_CreateBatch e).
Proof.
  unfold client_CreateBatch, ToInternalError, server_CreateBatch. rewrite call_up.
  destruct (api_CreateBatch e) as [e' [[]|err|c]]; cbn; by eauto.
Qed.

Lemma Stop_down e : client_Stop (up e) = ((λ p, (down (w_enclave p.1), p.2)) (over_rpc (api_Stop e))).
Proof.
  unfold client_Stop, server_Stop. rewrite (receive_same api_Stop) by (intros e' [] _; by eexists).
  by destruct (api_Stop e) as [e' [[]|err|c]].
Qed.

(** What the status keeps: its L2 head is a number, and an error leaves the enclave unavailable. *)
Definition statusOver (st : Status * option GoError) : Status * option GoError :=
  match st.2 with
  | None => st
  | Some err => (mkStatus Unavailable EmptyHash None, Some (ErrInternal (ErrMsg (err_text err))))
  end.

Lemma Status_over e e' st : api_Status e = (e', Ok st) →
  (st.2 = None → ∃ n, st_L2Head st.1 = Some n ∧ 0 ≤ n < 2 ^ 64) →
  client_Status (up e) = (up e', Ok (statusOver st)).
Proof.
  intros Hrun Hhead. unfold client_Status, try, mbind, M_bind. cbn [up w_alive negb]. fold (up e). rewrite call_up.
  unfold server_Status, mbind, M_bind. rewrite Hrun. destruct st as [[code l1 l2] [err|]]; cbn [fst snd st_L2Head st_L1Head st_StatusCode sr_SystemError sr_StatusCode sr_L1Head sr_L2Head fmap option_fmap option_map] in *; [done|].
  destruct (Hhead eq_refl) as (n&->&Hn). cbn [mret M_ret sr_SystemError sr_StatusCode sr_L1Head sr_L2Head].
  by rewrite hash_roundtrip, (proj2 (big_Bytes_u64 n Hn)).
Qed.

Lemma secrets_back r : FromBlockSubmissionResponseMsg (ToBlockSubmissionResponseMsg r) = r.
Proof.
  destruct r as [resps]. unfold FromBlockSubmissionResponseMsg, ToBlockSubmissionResponseMsg, FromSecretRespMsg, ToSecretRespMsg. cbn. f_equal.
  rewrite map_map. induction resps as [|[] resps IH]; [done|]. rewrite map_cons, IH. cbn. by rewrite address_roundtrip.
Qed.

Lemma consensus_all (rs : list Receipt) : mapM (fmap consensusReceipt) (Some <$> rs) = Some (consensusReceipt <$> rs).
Proof.
  induction rs as [|r rs IH]; [done|]. rewrite !fmap_cons. cbn [mapM fmap option_fmap option_map mbind option_bind]. by rewrite IH.
Qed.

Lemma SubmitL1Block_sees blk (rs : list Receipt) isLatest e : is_Some (rlp_encode blk) → is_Some (rlp_encode (Some <$> rs)) →
  (∀ e' err, api_SubmitL1Block (Some blk) (Some ∘ consensusReceipt <$> rs) isLatest e = (e', Err err) → as_BlockRejectError err = None) →
  sees (client_SubmitL1Block (Some blk) (Some <$> rs) isLatest (up e)) (api_SubmitL1Block (Some blk) (Some ∘ consensusReceipt <$> rs) isLatest e).
Proof.
  intros [x Hx] [y Hy] Hrej. rewrite (submitL1Block_up blk _ x y), consensus_all, <-list_fmap_compose by done.
  destruct (api_SubmitL1Block _ _ _ e) as [e' [r|err|c]]; cbn; [by rewrite secrets_back| |by eauto].
  rewrite (Hrej e' err eq_refl). by eauto.
Qed.

Lemma PublicTransactionData_same p e : 0 ≤ Offset p < 2 ^ 31 → 0 ≤ Size p < 2 ^ 31 →
  (∀ e' r, api_GetPublicTransactionData p e = (e', Ok r) → unjson_listing <$> json_listing r = Some (Some r)) →
  client_GetPublicTransactionData p (up e) = over_rpc (api_GetPublicTransactionData p e).
Proof.
  intros Ho Hs Hjson. unfold client_GetPublicTransactionData, server_GetPublicTransactionData.
  assert (∀ x, 0 ≤ x < 2 ^ 31 → Int.u64 (i32 x) = x) as Hid.
  { intros x Hx. unfold i32. rewrite Z.mod_small by lia. rewrite Int.u64_id; unfold Int.is_u64, Int.two64; lia. }
  rewrite !Hid by done. replace (mkPagination (Offset p) (Size p)) with p by (by destruct p).
  apply receive_same. intros e' r Hr. specialize (Hjson e' r Hr). destruct (json_listing r) as [x|]; [|done].
  injection Hjson as Hx. exists x. split; [done|]. by rewrite Hx.
Qed.


(** ** Where it does not *)

Lemma call_dead {A} (m : M E A) w : w_alive w = false → w_alive (call m w).1 = false ∧ ∃ err, (call m w).2 = Err err.
Proof. intros Hw. unfold call. rewrite Hw. destruct (head (w_link w)) as [[| |]|]; cbn; rewrite ?Hw; eauto. Qed.

(** A block the enclave rejects is reported to the host as processed. The server
    puts the rejection in the response, the client takes only the secret responses
    out of it: the host goes on with the block it was told was submitted. *)
Theorem block_rejection_lost blk rs rs' x y isLatest e e' err l1Head cause :
  rlp_encode blk = Some x → rlp_encode (Some <$> rs) = Some y → rs' = Some ∘ consensusReceipt <$> rs →
  api_SubmitL1Block (Some blk) rs' isLatest e = (e', Err err) → as_BlockRejectError err = Some (l1Head, cause) →
  client_SubmitL1Block (Some blk) (Some <$> rs) isLatest (up e) = (up e', Ok (mkBlockSubmissionResponse [])).
Proof.
  intros Hx Hy -> Hrun Hrej. rewrite (submitL1Block_up blk _ x y) by done.
  by rewrite consensus_all, <-list_fmap_compose, Hrun, Hrej.
Qed.

(** Receipts with a gap end the enclave. A receipt the host could not fetch is left
    nil, RLP writes it as an empty list, and the enclave exits when it cannot read the
    receipts back, whatever the block is. *)
Theorem missing_receipt_kills_enclave blk rs x y isLatest e :
  rlp_encode blk = Some x → rlp_encode rs = Some y → None ∈ rs →
  client_SubmitL1Block (Some blk) rs isLatest (up e) = (down e, Err (ErrWrap "could not submit block. Cause:" errUnavailable)).
Proof.
  intros Hx Hy Hin. rewrite (submitL1Block_up blk rs x y) by done.
  destruct (mapM _ rs) as [rs'|] eqn:Hm; [|done]. apply mapM_Some in Hm. clear Hx Hy. exfalso.
  induction Hm as [|o r rs rs' Ho Hm IH]; [by apply elem_of_nil in Hin|].
  apply elem_of_cons in Hin as [<-|Hin]; [done|]. by apply IH.
Qed.

(** Looking up a batch ends the enclave exactly when the batch is there: the server
    asks for the text of an encoding error that is nil. The caller gets a lost
    connection, and so does every call after it. *)
Theorem batch_lookup_kills_enclave n e e' b : api_GetBatchBySeqNo n e = (e', Ok b) → is_Some (rlp_encode b) →
  client_GetBatchBySeqNo n (up e) = (down e', Err (ErrWrap "rpc GetBatchBySeqNo failed. Cause:" errUnavailable)) ∧
  (∀ A (m : M E A), ∃ err, (call m (down e')).2 = Err err) ∧
  (client_Status (down e')).2 =
    Ok (mkStatus Unavailable EmptyHash None, Some (ErrInternal (ErrMsg "RPC connection is not ready"))).
Proof.
  intros Hrun [x Hx]. split; [|split; [|done]].
  - unfold client_GetBatchBySeqNo, wrap, mbind, M_bind. rewrite call_up. unfold server_GetBatchBySeqNo, mbind, M_bind. rewrite Hrun.
    unfold lift, encodedBatch, EncodeToBytes. by rewrite Hx.
  - intros A m. by apply call_dead.
Qed.
End spec.
