(* ===== verification/BatchRepository.v ===== *)
(** * The batches a host keeps

    [go/host/l2/batchrepository.go]: a host stores the batches it is sent, serves
    them to peers and asks the sequencer for those it misses. *)

From S2P Require Import Prelude Types Codec Bytes EnclaveDB BatchDB Service HostDB HostDBSpec Retry P2P StateTracker EnclaveRPC.
Local Open Scope Z_scope.

Definition maxBatchesInP2PResponse : nat := 50.
Definition timeoutWaitingForP2PResponse : Z := 30 * 10 ^ 9.

(** What the repository starts with [go]; a subscriber is named by a number. *)
Inductive RepoStarted :=
  | GoHandleBatch (subscriber : nat) (batch : ExtBatch)
  | GoRequestMissingBatches (fromSeqNo : Z)
  | GoAddBatch (batch : ExtBatch).

(** The repository with the peer-to-peer service it uses. *)
Record Repository := mkRepository {
  rp_subscribers : list nat;
  rp_db : KV;
  latestBatchSeqNo : Z;
  p2pInFlightRequested : bigInt;
  p2pInFlightReqTime : option Z;
  rp_running : bool;
  rp_p2p : P2P;
  rp_started : list RepoStarted
}.
Definition NewBatchRepository (database : KV) (p : P2P) : Repository := mkRepository [] database 0 None None false p [].

Definition rp_set_db (db : KV) (r : Repository) : Repository :=
  mkRepository (rp_subscribers r) db (latestBatchSeqNo r) (p2pInFlightRequested r) (p2pInFlightReqTime r) (rp_running r) (rp_p2p r) (rp_started r).
Definition rp_set_latest (n : Z) (r : Repository) : Repository :=
  mkRepository (rp_subscribers r) (rp_db r) n (p2pInFlightRequested r) (p2pInFlightReqTime r) (rp_running r) (rp_p2p r) (rp_started r).
Definition rp_set_inflight (requested : bigInt) (reqTime : option Z) (r : Repository) : Repository :=
  mkRepository (rp_subscribers r) (rp_db r) (latestBatchSeqNo r) requested reqTime (rp_running r) (rp_p2p r) (rp_started r).
Definition rp_set_p2p (p : P2P) (r : Repository) : Repository :=
  mkRepository (rp_subscribers r) (rp_db r) (latestBatchSeqNo r) (p2pInFlightRequested r) (p2pInFlightReqTime r) (rp_running r) p (rp_started r).
Definition rp_start (l : list RepoStarted) (r : Repository) : Repository :=
  mkRepository (rp_subscribers r) (rp_db r) (latestBatchSeqNo r) (p2pInFlightRequested r) (p2pInFlightReqTime r) (rp_running r) (rp_p2p r) (rp_started r ++ l).
Definition rp_set_running (b : bool) (r : Repository) : Repository :=
  mkRepository (rp_subscribers r) (rp_db r) (latestBatchSeqNo r) (p2pInFlightRequested r) (p2pInFlightReqTime r) b (rp_p2p r) (rp_started r).

Definition on_p2p {A} (m : M P2P A) : M Repository A := zoom rp_p2p rp_set_p2p m.

Section repository.
Context `{Hashing, HB : HashBytes, HC : HostCodecs, PC : P2PCodecs} (cfg : P2PConfig).

(** The repository is the handler [self] of the peer-to-peer service. *)
Definition repo_Start (self : nat) : M Repository unit := λ r,
  let p := (SubscribeForBatches cfg self (rp_p2p r)).1 in
  let p := (SubscribeForBatchRequests cfg self p).1 in
  (rp_set_p2p p (rp_set_running true r), Ok tt).
Definition repo_Stop : M Repository unit := modify (rp_set_running false).
(** [HealthStatus]: the message, empty when healthy *)
Definition repo_HealthStatus (r : Repository) : string := if rp_running r then "" else "not running".

Definition repo_Subscribe (subscriber : nat) (r : Repository) : Repository :=
  mkRepository (rp_subscribers r ++ [subscriber]) (rp_db r) (latestBatchSeqNo r) (p2pInFlightRequested r) (p2pInFlightReqTime r)
    (rp_running r) (rp_p2p r) (rp_started r).

Definition repo_AddBatch (batch : ExtBatch) : M Repository unit :=
  _ ← zoom rp_db rp_set_db (hostdb_AddBatch batch);
  modify (λ r, if latestBatchSeqNo r <? SequencerOrderNo (ext_header batch)
               then rp_set_latest (SequencerOrderNo (ext_header batch)) r else r).

(** Whether the batches answer the request in flight. *)
Definition resolves (batches : list ExtBatch) (isLive : bool) (r : Repository) : bool :=
  match isLive, batches, p2pInFlightRequested r with
  | false, batch :: _, Some requested => SequencerOrderNo (ext_header batch) =? requested
  | _, _, _ => false
  end.

(** The first batch that is not added, also because it is known, ends the loop. *)
Fixpoint addBatches (batches : list ExtBatch) (isLive : bool) : M Repository unit :=
  match batches with
  | [] => mret tt
  | batch :: batches =>
      res ← try (repo_AddBatch batch);
      match res with
      | inr _ => mret tt
      | inl _ =>
          _ ← when isLive (modify (λ r, rp_start ((λ s, GoHandleBatch s batch) <$> rp_subscribers r) r));
          addBatches batches isLive
      end
  end.
Definition HandleBatches (batches : list ExtBatch) (isLive : bool) : M Repository unit :=
  _ ← modify (λ r, if resolves batches isLive r then rp_set_inflight None None r else r);
  addBatches batches isLive.

(** The loop runs while [len(batches) <= _maxBatchesInP2PResponse], so [n] more turns. *)
Fixpoint collectForPeer (n : nat) (nextSeqNum : Z) (db : KV) : result (list ExtBatch) :=
  match n with
  | O => Ok []
  | S n =>
      match GetBatchBySequenceNumber nextSeqNum db with
      | Ok batch => rest ← collectForPeer n (nextSeqNum + 1) db; Ok (batch :: rest)
      | Err _ => Ok []
      | Crash c => Crash c
      end
  end.
Definition HandleBatchRequest (requesterID : string) (fromSeqNo : Z) : M Repository unit :=
  db ← gets rp_db;
  batches ← lift (collectForPeer (maxBatchesInP2PResponse + 1) fromSeqNo db);
  match batches with
  | [] => mret tt
  | _ => _ ← try (on_p2p (RespondToBatchRequest cfg requesterID batches)); mret tt
  end.

Definition requestMissingBatchesFromPeers (fromSeqNo : Z) : M Repository unit := λ r,
  if match p2pInFlightReqTime r with
     | Some t => Now (rp_p2p r) - t <? timeoutWaitingForP2PResponse
     | None => false
     end
  then (r, Ok tt)
  else match on_p2p (RequestBatchesFromSequencer cfg fromSeqNo) r with
       | (r, Ok _) => (rp_set_inflight (p2pInFlightRequested r) (Some (Now (rp_p2p r))) r, Ok tt)
       | (r, Err _) => (r, Ok tt)
       | (r, Crash c) => (r, Crash c)
       end.

(** ** The fallback of a sequencer *)

Context {E : Type} `{EnclaveAPI E}.

(** [LookupBatchBySeqNo] of the enclave service: the head of the enclave, as the
    tracker knows it, must not be nil. *)
Definition LookupBatchBySeqNo (t : Tracker.t) (seqNo : Z) : M E ExtBatch :=
  match Tracker.GetEnclaveL2Head t with
  | None => crash "nil L2 head"
  | Some head => if head <? seqNo then fail ErrNotFound else api_GetBatchBySeqNo (Int.u64 seqNo)
  end.

Definition on_repo {A} (m : M Repository A) : M (Repository * E) A := zoom fst (λ r s, (r, s.2)) m.
Definition on_api {A} (m : M E A) : M (Repository * E) A := zoom snd (λ e s, (s.1, e)) m.

Definition fetchBatchFallbackToEnclave (t : Tracker.t) (seqNo : Z) : M (Repository * E) ExtBatch :=
  b ← on_api (LookupBatchBySeqNo t seqNo);
  _ ← on_repo (modify (rp_start [GoAddBatch b]));
  mret b.

Definition repo_FetchBatchBySeqNo (t : Tracker.t) (seqNo : Z) : M (Repository * E) ExtBatch := λ s,
  match GetBatchBySequenceNumber seqNo (rp_db s.1) with
  | Ok b => (s, Ok b)
  | Err err =>
      if errors_Is err ErrNotFound && (seqNo <? latestBatchSeqNo s.1)
      then if isSequencer cfg then fetchBatchFallbackToEnclave t seqNo s
           else ((rp_start [GoRequestMissingBatches seqNo] s.1, s.2), Err err)
      else (s, Err err)
  | Crash c => (s, Crash c)
  end.
End repository.

(** ** Batches between hosts

    What a repository serves and stores, in terms of the history its database
    implements, and the recovery of missing batches from the sequencer. *)


(** RLP encodes every message, a request for a number that is not negative, and
    batches that can be encoded one by one. *)
Class P2PEncodes `{HostCodecs, P2PCodecs} : Prop := {
  encodes_message : ∀ m : message, is_Some (rlp_encode m);
  encodes_request : ∀ requester n, 0 ≤ n → is_Some (rlp_encode (mkBatchRequest requester n));
  encodes_batches : ∀ bs live, Forall (λ b : ExtBatch, is_Some (rlp_encode b)) bs → is_Some (rlp_encode (mkBatchMsg bs live))
}.

Section batches.
Context `{Hashing, HBO : HashBytesOk, HCO : HostCodecsOk, PCO : P2PCodecsOk, PE : !P2PEncodes}.
Implicit Types (A B : History) (r v s : Repository) (b : ExtBatch) (bs : list ExtBatch).

Definition batchSeq A (n : Z) : option ExtBatch := latest (λ b, SequencerOrderNo (ext_header b) = n) (hi_batches A).

(** The batches of [A] from [n] on without a gap, [limit] at most. *)
Record run_from A (n : Z) (limit : nat) bs : Prop := {
  rf_stored : ∀ i b, bs !! i = Some b → batchSeq A (n + Z.of_nat i) = Some b;
  rf_limit : (length bs ≤ limit)%nat;
  rf_gap : (length bs < limit)%nat → batchSeq A (n + Z.of_nat (length bs)) = None
}.

Lemma collectForPeer_run db A k : implements db A → ∀ n, 0 ≤ n → n + Z.of_nat k ≤ 2 ^ 64 →
  ∃ bs, collectForPeer k n db = Ok bs ∧ run_from A n k bs.
Proof.
  intros Himp. induction k as [|k IH]; intros n Hn Hk; [exists []; split; [done|split; [done|done|cbn; lia]]|].
  pose proof (stored_seq db A Himp n ltac:(lia)) as Hs. cbn [collectForPeer]. fold (batchSeq A n) in Hs.
  destruct (batchSeq A n) as [b|] eqn:Hb.
  - rewrite Hs. destruct (IH (n + 1)) as (bs&Hbs&[Hst Hlim Hgap]); [lia..|]. rewrite Hbs. exists (b :: bs). split; [done|]. split.
    + intros [|i] b' Hi; cbn in Hi; [injection Hi as <-; by rewrite Z.add_0_r|].
      rewrite <-(Hst i b' Hi). f_equal. lia.
    + cbn. lia.
    + cbn [length]. intros Hl. rewrite <-Hgap by lia. f_equal. lia.
  - destruct Hs as (e&->&_). exists []. split; [done|]. split; [done|cbn; lia|]. intros _. cbn. by rewrite Z.add_0_r.
Qed.

Lemma run_from_in A n k bs b : run_from A n k bs → b ∈ bs → b ∈ hi_batches A.
Proof. intros Hr [i Hi]%list_elem_of_lookup. apply (rf_stored _ _ _ _ Hr) in Hi. by apply latest_Some in Hi as [_ ?]. Qed.
Lemma run_from_seq A n k bs i b : run_from A n k bs → bs !! i = Some b → SequencerOrderNo (ext_header b) = n + Z.of_nat i.
Proof. intros Hr Hi. apply (rf_stored _ _ _ _ Hr) in Hi. by apply latest_Some in Hi as [? _]. Qed.

(** ** Storing *)

(** The batches up to the first one that is known. *)
Fixpoint newPrefix B bs : list ExtBatch :=
  match bs with
  | [] => []
  | b :: bs => match batchAt B (ExtBatch_Hash b) with
               | Some _ => []
               | None => b :: newPrefix (addBatch B b) bs
               end
  end.
Definition addAll B bs : History := foldl addBatch B bs.

Lemma addAll_batches B bs : hi_batches (addAll B bs) = hi_batches B ++ bs.
Proof.
  revert B. induction bs as [|b bs IH]; intros B; [by rewrite app_nil_r|]. cbn. rewrite IH. cbn. by rewrite <-app_assoc.
Qed.

(** What adding batches leaves alone. *)
Definition same_but_stored r r' : Prop :=
  rp_subscribers r' = rp_subscribers r ∧ p2pInFlightRequested r' = p2pInFlightRequested r ∧
  p2pInFlightReqTime r' = p2pInFlightReqTime r ∧ rp_running r' = rp_running r ∧ rp_p2p r' = rp_p2p r.

Lemma repo_AddBatch_run r B b : implements (rp_db r) B → batch_ok b →
  match batchAt B (ExtBatch_Hash b) with
  | Some _ => repo_AddBatch b r = (r, Err ErrAlreadyExists)
  | None => ∃ r', repo_AddBatch b r = (r', Ok tt) ∧ implements (rp_db r') (addBatch B b) ∧
              latestBatchSeqNo r' = Z.max (latestBatchSeqNo r) (SequencerOrderNo (ext_header b)) ∧
              rp_started r' = rp_started r ∧ same_but_stored r r'
  end.
Proof.
  intros Himp Hb. pose proof (AddBatch_implements (rp_db r) B b Himp Hb) as Hadd.
  unfold repo_AddBatch, mbind, M_bind, zoom, modify. destruct (batchAt B _).
  - rewrite Hadd. by destruct r.
  - destruct Hadd as (db'&->&Himp'). cbn. destruct (Z.ltb_spec (latestBatchSeqNo r) (SequencerOrderNo (ext_header b)));
      (eexists; split; [reflexivity|]); cbn; (split; [done|]); (split; [lia|done]).
Qed.

#[export] Instance same_but_stored_preorder : PreOrder same_but_stored.
Proof.
  split; [by intros r|]. intros r1 r2 r3 (?&?&?&?&?) (?&?&?&?&?). unfold same_but_stored. split_and!; congruence.
Qed.

(** What the subscribers are told of. *)
Definition notices (live : bool) (subs : list nat) bs : list RepoStarted :=
  if live then b ← bs; (λ sub, GoHandleBatch sub b) <$> subs else [].

Lemma addBatches_run bs live : ∀ r B, implements (rp_db r) B → Forall batch_ok bs →
  ∃ r', addBatches bs live r = (r', Ok tt) ∧ implements (rp_db r') (addAll B (newPrefix B bs)) ∧ same_but_stored r r' ∧
    rp_started r' = rp_started r ++ notices live (rp_subscribers r) (newPrefix B bs).
Proof.
  induction bs as [|b bs IH]; intros r B Himp Hok; cbn [addBatches newPrefix].
  { exists r. split_and!; [done..|]. destruct live; by rewrite app_nil_r. }
  apply Forall_cons in Hok as [Hb Hok]. pose proof (repo_AddBatch_run r B b Himp Hb) as Hadd.
  unfold try, mbind, M_bind. destruct (batchAt B _).
  { rewrite Hadd. exists r. split_and!; [done..|]. destruct live; by rewrite app_nil_r. }
  destruct Hadd as (r1&->&Himp1&_&Hst1&Hsame1).
  assert (rp_subscribers r1 = rp_subscribers r) as Hsub by apply Hsame1. destruct live; cbn.
  - destruct (IH (rp_start ((λ sub, GoHandleBatch sub b) <$> rp_subscribers r1) r1) (addBatch B b)) as (r'&Hr'&Himp'&Hsame&Hst);
      [done..|]. exists r'. split_and!; [done|done|by transitivity r1|]. rewrite Hst. cbn. by rewrite Hst1, Hsub, <-app_assoc.
  - destruct (IH r1 (addBatch B b)) as (r'&Hr'&Himp'&Hsame&Hst); [done..|]. exists r'.
    split_and!; [done|done|by transitivity r1|]. by rewrite Hst, Hst1.
Qed.

Lemma newPrefix_all bs : ∀ B, Forall (λ b, batchAt B (ExtBatch_Hash b) = None) bs → NoDup (ExtBatch_Hash <$> bs) → newPrefix B bs = bs.
Proof.
  induction bs as [|b bs IH]; intros B Hnew Hdup; [done|]. cbn. apply Forall_cons in Hnew as [-> Hnew].
  apply NoDup_cons in Hdup as [Hb Hdup]. f_equal. apply IH; [|done]. apply Forall_forall. intros b' Hb'.
  rewrite Forall_forall in Hnew. unfold batchAt, addBatch. cbn [hi_batches]. rewrite latest_snoc, decide_False; [by apply Hnew|].
  intros Heq. apply Hb. rewrite Heq. by apply list_elem_of_fmap_2.
Qed.

(** The batches of a run have hashes of their own. *)
Lemma run_from_hashes A n k bs : history_ok A → run_from A n k bs → NoDup (ExtBatch_Hash <$> bs).
Proof.
  intros HA Hr. apply NoDup_alt. intros i j h (b1&->&Hi)%list_lookup_fmap_Some (b2&Hh&Hj)%list_lookup_fmap_Some.
  assert (b1 = b2) as <-.
  { apply (ho_unique A HA); [eapply run_from_in; [done|by eapply list_elem_of_lookup_2]..|done]. }
  pose proof (run_from_seq A n k bs i b1 Hr Hi). pose proof (run_from_seq A n k bs j b1 Hr Hj). lia.
Qed.

(** A run that was stored is found by its numbers. *)
Lemma addAll_seq A B n k bs i b : run_from A n k bs → bs !! i = Some b →
  batchSeq (addAll B bs) (n + Z.of_nat i) = Some b.
Proof.
  intros Hr Hi. pose proof (run_from_seq A n k bs i b Hr Hi) as Hseq.
  assert (∀ j b', bs !! j = Some b' → SequencerOrderNo (ext_header b') = n + Z.of_nat i → b' = b) as Huniq.
  { intros j b' Hj Hs. rewrite (run_from_seq A n k bs j b' Hr Hj) in Hs. replace j with i in Hj by lia. congruence. }
  unfold batchSeq, latest. rewrite addAll_batches, filter_app, last_app.
  assert (b ∈ filter (λ b, SequencerOrderNo (ext_header b) = n + Z.of_nat i) bs) as Hin
    by (apply list_elem_of_filter; split; [done|by eapply list_elem_of_lookup_2]).
  destruct (last (filter _ bs)) as [b'|] eqn:Hl; [|apply last_None in Hl; rewrite Hl in Hin; by apply elem_of_nil in Hin].
  apply last_Some_elem_of, list_elem_of_filter in Hl as [Hs [j Hj]%list_elem_of_lookup]. f_equal. by eapply Huniq.
Qed.

(** ** A network without faults *)

Definition calm r : Prop := net_faults (p2p_net (rp_p2p r)) = [].
Definition sent r : list (string * bytes) := net_sent (p2p_net (rp_p2p r)).
Definition arrived (to : string) (m : bytes) (p : P2P) : P2P :=
  set_net (mkNet (net_now (p2p_net p)) (net_sent (p2p_net p) ++ [(to, m)]) []) p.

Lemma send_calm (msg : message) to m p : net_faults (p2p_net p) = [] → rlp_encode msg = Some m →
  send msg to p = (arrived to m p, Ok tt).
Proof.
  intros Hcalm Hm. unfold send, wrap, lift, EncodeToBytes, mbind, M_bind. rewrite Hm. cbn.
  unfold on_net, zoom, sendBytesWithRetry, Do. change (backoffCalls sendStrategy) with 5%nat. rewrite attempt_S.
  unfold sendBytes. by rewrite Hcalm.
Qed.

(** ** What a host does with a message

    The tasks a message starts are run in order until none is left. *)
Definition runStarted (cfg : P2PConfig) (t : Started) : M Repository unit :=
  match t with
  | GoOwnBatchRequest encoded => modify (λ r, rp_set_p2p (handleBatchRequest encoded (rp_p2p r)) r)
  | GoHandleBatchRequest _ requester from => HandleBatchRequest cfg requester from
  | GoHandleBatches _ batches live => HandleBatches batches live
  | GoSend address m => on_p2p (on_net (sendBytesWithRetry address m))
  | GoRefreshPeerList | GoHandleConnections | CallHandleTransaction _ _ => mret tt
  end.
Definition set_started (l : list Started) r : Repository :=
  let p := rp_p2p r in
  rp_set_p2p (mkP2P (batchSubscribers p) (txSubscribers p) (batchReqHandlers p) (listener p) (running p) (peerAddresses p)
    (lastReceivedMessageByPeer p) (p2p_net p) l) r.
Fixpoint settle (n : nat) (cfg : P2PConfig) : M Repository unit := λ r,
  match n, started (rp_p2p r) with
  | S n, t :: ts => (_ ← runStarted cfg t; settle n cfg) (set_started ts r)
  | _, _ => (r, Ok tt)
  end.
Definition deliver (cfg : P2PConfig) (m : bytes) : M Repository unit := λ r,
  settle 3 cfg (rp_set_p2p (handle cfg m (rp_p2p r)) r).

Lemma decodes {X} `{CodecOk X} (x : X) m : rlp_encode x = Some m → DecodeBytes m = Ok x.
Proof. intros Hm. apply DecodeBytes_Encode. unfold EncodeToBytes. by rewrite Hm. Qed.

(** ** Recovery *)

Section exchange.
Context (vcfg scfg : P2PConfig) (Hv : isSequencer vcfg = false) (Hs : isSequencer scfg = true).
Context (Hvin : isIncomingP2PDisabled vcfg = false) (Hsin : isIncomingP2PDisabled scfg = false).

(** No request was sent within the last thirty seconds. *)
Definition may_request v : Prop :=
  match p2pInFlightReqTime v with Some t => timeoutWaitingForP2PResponse ≤ Now (rp_p2p v) - t | None => True end.

Lemma request_run v n sequencer peers : may_request v → calm v → 0 ≤ n → peerAddresses (rp_p2p v) = sequencer :: peers →
  ∃ m req, requestMissingBatchesFromPeers vcfg n v =
      (rp_set_inflight (p2pInFlightRequested v) (Some (Now (rp_p2p v))) (rp_set_p2p (arrived sequencer m (rp_p2p v)) v), Ok tt) ∧
    rlp_encode (mkP2PMessage (ourPublicAddress vcfg) msgTypeBatchRequest req) = Some m ∧
    rlp_encode (mkBatchRequest (ourPublicAddress vcfg) n) = Some req.
Proof.
  intros Hmay Hcalm Hn Hpeers. destruct (encodes_request (ourPublicAddress vcfg) n Hn) as [req Hreq].
  destruct (encodes_message (mkP2PMessage (ourPublicAddress vcfg) msgTypeBatchRequest req)) as [m Hm]. exists m, req.
  split; [|done]. unfold requestMissingBatchesFromPeers, may_request in *.
  assert (match p2pInFlightReqTime v with
          | Some t => Now (rp_p2p v) - t <? timeoutWaitingForP2PResponse
          | None => false
          end = false) as -> by (destruct (p2pInFlightReqTime v); [by apply Z.ltb_ge|done]).
  assert (RequestBatchesFromSequencer vcfg n (rp_p2p v) = (arrived sequencer m (rp_p2p v), Ok tt)) as Hrun.
  { unfold RequestBatchesFromSequencer. rewrite Hvin, Hv. unfold wrap, lift, EncodeToBytes, getSequencer, mbind, M_bind.
    rewrite Hreq. cbn. rewrite Hpeers. cbn. by apply send_calm. }
  unfold on_p2p, zoom. by rewrite Hrun.
Qed.

(** The sequencer answers with a run of its batches. *)
Lemma serve_run s A n self m req : implements (rp_db s) A → calm s → started (rp_p2p s) = [] →
  Subscribers (batchReqHandlers (rp_p2p s)) = [self] → 0 ≤ n → n + 51 ≤ 2 ^ 64 → is_Some (batchSeq A n) →
  rlp_encode (mkP2PMessage (ourPublicAddress vcfg) msgTypeBatchRequest req) = Some m →
  rlp_encode (mkBatchRequest (ourPublicAddress vcfg) n) = Some req →
  ∃ s' bs m' enc, deliver scfg m s = (s', Ok tt) ∧ rp_db s' = rp_db s ∧ run_from A n 51 bs ∧ bs ≠ [] ∧
    sent s' = sent s ++ [(ourPublicAddress vcfg, m')] ∧
    rlp_encode (mkP2PMessage (ourPublicAddress scfg) msgTypeBatches enc) = Some m' ∧
    rlp_encode (mkBatchMsg bs false) = Some enc.
Proof.
  intros Himp Hcalm Hidle Hself Hn Hmax [b0 Hb0] Hm Hreq.
  destruct (collectForPeer_run (rp_db s) A 51 Himp n Hn Hmax) as (bs&Hcol&Hrun).
  assert (bs ≠ []) as Hne.
  { intros ->. pose proof (rf_gap _ _ _ _ Hrun ltac:(cbn; lia)) as Hgap. cbn in Hgap. rewrite Z.add_0_r in Hgap. congruence. }
  assert (Forall (λ b : ExtBatch, is_Some (rlp_encode b)) bs) as Henc.
  { apply Forall_forall. intros b Hb. apply bo_batch. destruct Himp as [HA _].
    apply (proj1 (Forall_forall _ _) (ho_batches A HA)). by eapply run_from_in. }
  destruct (encodes_batches bs false Henc) as [enc Hbs].
  destruct (encodes_message (mkP2PMessage (ourPublicAddress scfg) msgTypeBatches enc)) as [m' Hm'].
  assert (∀ p, net_faults (p2p_net p) = [] →
    RespondToBatchRequest scfg (ourPublicAddress vcfg) bs p = (arrived (ourPublicAddress vcfg) m' p, Ok tt)) as Hrespond.
  { intros p Hp. unfold RespondToBatchRequest. rewrite Hsin, Hs. unfold wrap, lift, EncodeToBytes, mbind, M_bind.
    cbn [negb]. rewrite Hbs. cbn. by apply send_calm. }
  unfold deliver, handle. rewrite (decodes _ _ Hm). cbn. rewrite Hs. cbn. rewrite Hidle. cbn.
  unfold mbind, M_bind, modify. cbn. unfold handleBatchRequest. rewrite (decodes _ _ Hreq). cbn. rewrite Hself. cbn.
  unfold HandleBatchRequest, mbind, M_bind, gets, lift. cbn -[collectForPeer Nat.add].
  change (maxBatchesInP2PResponse + 1)%nat with 51%nat. rewrite Hcol. destruct bs as [|b bs]; [done|].
  unfold try, on_p2p, zoom. rewrite Hrespond by done. cbn.
  eexists _, (b :: bs), m', enc. split; [reflexivity|]. done.
Qed.

(** The validator stores what it is sent. *)
Lemma store_run v B bs self m enc : implements (rp_db v) B → started (rp_p2p v) = [] →
  Subscribers (batchSubscribers (rp_p2p v)) = [self] → Forall batch_ok bs →
  rlp_encode (mkP2PMessage (ourPublicAddress scfg) msgTypeBatches enc) = Some m → rlp_encode (mkBatchMsg bs false) = Some enc →
  ∃ v', deliver vcfg m v = (v', Ok tt) ∧ implements (rp_db v') (addAll B (newPrefix B bs)).
Proof.
  intros Himp Hidle Hself Hok Hm Henc. unfold deliver, handle. rewrite (decodes _ _ Hm). cbn. rewrite Hv, (decodes _ _ Henc).
  cbn. rewrite Hidle, Hself. cbn. unfold HandleBatches, mbind, M_bind, modify. cbn [runStarted].
  match goal with |- context [addBatches bs false ?r] => destruct (addBatches_run bs false r B) as (v'&->&Himp'&Hsame&_) end.
  - by destruct (resolves bs false _).
  - done.
  - exists v'. split; [|done]. assert (started (rp_p2p v') = []) as Hnone.
    { destruct Hsame as (_&_&_&_&->). by destruct (resolves bs false _). }
    by rewrite Hnone.
Qed.

(** C18: a validator recovers the batches it misses. If it asks for the batches from [n] on,
    the sequencer has batch [n], the validator has none of the batches of the sequencer from
    [n] on, and the messages arrive, then the sequencer, whose database does not change,
    answers with its batches from [n] without a gap: with all of them if they are fewer than
    50, and with at least 50 otherwise. The validator stores them after what it had before
    and finds each of them by its sequence number. *)
Theorem missing_batches_recovered v s A B n sequencer peers self_s self_v :
  implements (rp_db v) B → implements (rp_db s) A → calm v → calm s →
  started (rp_p2p v) = [] → started (rp_p2p s) = [] →
  Subscribers (batchReqHandlers (rp_p2p s)) = [self_s] → Subscribers (batchSubscribers (rp_p2p v)) = [self_v] →
  peerAddresses (rp_p2p v) = sequencer :: peers → may_request v → 0 ≤ n → n + 51 ≤ 2 ^ 64 → is_Some (batchSeq A n) →
  (∀ b, b ∈ hi_batches A → n ≤ SequencerOrderNo (ext_header b) → batchAt B (ExtBatch_Hash b) = None) →
  ∃ v1 m1 s1 m2 v2 bs,
    requestMissingBatchesFromPeers vcfg n v = (v1, Ok tt) ∧ sent v1 = sent v ++ [(sequencer, m1)] ∧
    deliver scfg m1 s = (s1, Ok tt) ∧ rp_db s1 = rp_db s ∧ sent s1 = sent s ++ [(ourPublicAddress vcfg, m2)] ∧
    deliver vcfg m2 v1 = (v2, Ok tt) ∧
    bs ≠ [] ∧ (∀ i b, bs !! i = Some b → batchSeq A (n + Z.of_nat i) = Some b) ∧
    ((length bs < 50)%nat → batchSeq A (n + Z.of_nat (length bs)) = None) ∧ implements (rp_db v2) (addAll B bs) ∧
    ∀ i b, bs !! i = Some b → GetBatchBySequenceNumber (n + Z.of_nat i) (rp_db v2) = Ok b.
Proof.
  intros HvB HsA Hcv Hcs Hiv His Hreqs Hsubs Hpeers Hmay Hn Hmax Hat Hnew.
  destruct (request_run v n sequencer peers Hmay Hcv Hn Hpeers) as (m1&req&Hreq&Hm1&Hr).
  destruct (serve_run s A n self_s m1 req HsA Hcs His Hreqs Hn Hmax Hat Hm1 Hr) as (s1&bs&m2&enc&Hserve&Hdb&Hrun&Hne&Hsent&Hm2&Henc).
  assert (Forall batch_ok bs) as Hok.
  { apply Forall_forall. intros b Hb. apply (proj1 (Forall_forall _ _) (ho_batches A (proj1 HsA))). by eapply run_from_in. }
  assert (newPrefix B bs = bs) as Hall.
  { apply newPrefix_all; [|by eapply run_from_hashes; [apply HsA|]]. apply Forall_forall. intros b Hb. apply Hnew; [by eapply run_from_in|].
    apply list_elem_of_lookup in Hb as [i Hi]. rewrite (run_from_seq A n 51 bs i b Hrun Hi). lia. }
  match type of Hreq with _ = (?v1, _) => destruct (store_run v1 B bs self_v m2 enc) as (v2&Hstore&Himp); [done..|exists v1] end.
  rewrite Hall in Himp. exists m1, s1, m2, v2, bs. split_and!; [done..|apply (rf_stored _ _ _ _ Hrun)|intros; apply (rf_gap _ _ _ _ Hrun); lia|done|].
  intros i b Hi.
  pose proof (stored_seq (rp_db v2) _ Himp (n + Z.of_nat i)) as Hfound. fold (batchSeq (addAll B bs) (n + Z.of_nat i)) in Hfound.
  rewrite (addAll_seq A B n 51 bs i b Hrun Hi) in Hfound. apply Hfound.
  pose proof (rf_limit _ _ _ _ Hrun). apply lookup_lt_Some in Hi. lia.
Qed.
End exchange.

(** ** Waiting for an answer *)

(** The methods of the repository, on whatever input. *)
Inductive repo_step (cfg : P2PConfig) : Repository → Repository → Prop :=
  | rs_Start self r : repo_step cfg r (repo_Start cfg self r).1
  | rs_Stop r : repo_step cfg r (repo_Stop r).1
  | rs_Subscribe sub r : repo_step cfg r (repo_Subscribe sub r)
  | rs_AddBatch b r : repo_step cfg r (repo_AddBatch b r).1
  | rs_HandleBatches bs live r : repo_step cfg r (HandleBatches bs live r).1
  | rs_HandleBatchRequest requester n r : repo_step cfg r (HandleBatchRequest cfg requester n r).1
  | rs_requestMissing n r : repo_step cfg r (requestMissingBatchesFromPeers cfg n r).1
  | rs_p2p p r : repo_step cfg r (rp_set_p2p p r).

Lemma AddBatch_inflight b r : p2pInFlightRequested (repo_AddBatch b r).1 = p2pInFlightRequested r ∧
  p2pInFlightReqTime (repo_AddBatch b r).1 = p2pInFlightReqTime r.
Proof.
  unfold repo_AddBatch, mbind, M_bind, zoom, modify. destruct (hostdb_AddBatch b (rp_db r)) as [db [[]|e|c]]; [|done..].
  cbn. by destruct (_ <? _).
Qed.
Lemma addBatches_inflight bs live : ∀ r, p2pInFlightRequested (addBatches bs live r).1 = p2pInFlightRequested r ∧
  p2pInFlightReqTime (addBatches bs live r).1 = p2pInFlightReqTime r.
Proof.
  induction bs as [|b bs IH]; intros r; [done|]. cbn [addBatches]. unfold try, mbind, M_bind.
  destruct (AddBatch_inflight b r) as [Hreq Htime]. destruct (repo_AddBatch b r) as [r1 [[]|e|c]]; cbn in *; [|done..].
  destruct live; cbn; [|by destruct (IH r1) as [-> ->]].
  by destruct (IH (rp_start ((λ sub, GoHandleBatch sub b) <$> rp_subscribers r1) r1)) as [-> ->].
Qed.

Lemma HandleBatches_inflight bs live r : p2pInFlightRequested r = None →
  p2pInFlightRequested (HandleBatches bs live r).1 = None ∧ p2pInFlightReqTime (HandleBatches bs live r).1 = p2pInFlightReqTime r.
Proof.
  intros Hnone. unfold HandleBatches, mbind, M_bind, modify, resolves. rewrite Hnone.
  destruct live, bs; cbn [fst]; match goal with |- context [addBatches ?l ?v ?r] => by destruct (addBatches_inflight l v r) as [-> ->] end.
Qed.

Lemma step_unrequested cfg r r' : repo_step cfg r r' → p2pInFlightRequested r = None → p2pInFlightRequested r' = None.
Proof.
  destruct 1 as [self r|r|sub r|b r|bs live r|requester n r|n r|p r]; intros Hnone; try done.
  - by destruct (AddBatch_inflight b r) as [-> _].
  - by apply HandleBatches_inflight.
  - unfold HandleBatchRequest, mbind, M_bind, gets, lift, try, on_p2p, zoom. cbn -[collectForPeer].
    destruct (collectForPeer _ n (rp_db r)) as [[|b bs]|e|c]; [done| |done..].
    by destruct (RespondToBatchRequest cfg requester (b :: bs) (rp_p2p r)) as [p [[]|e|c]].
  - unfold requestMissingBatchesFromPeers, on_p2p, zoom.
    destruct (match p2pInFlightReqTime r with Some _ => _ | None => _ end); [done|].
    by destruct (RequestBatchesFromSequencer cfg n (rp_p2p r)) as [p [[]|e|c]].
Qed.

Lemma reach_unrequested cfg r r' : rtc (repo_step cfg) r r' → p2pInFlightRequested r = None → p2pInFlightRequested r' = None.
Proof. induction 1 as [|r1 r2 r3 Hstep _ IH]; intros Hr; [done|]. by eapply IH, step_unrequested. Qed.

(** An answer does not release the next request. Whatever a repository has done, it has not
    recorded which batch it requested, so no answer is recognised as the answer to
    its request: after one was handled, in whole, missing batches are not requested
    until thirty seconds have passed since the last request. *)
Theorem answer_does_not_release cfg database p r bs live n t :
  rtc (repo_step cfg) (NewBatchRepository database p) r → p2pInFlightReqTime r = Some t →
  Now (rp_p2p (HandleBatches bs live r).1) - t < timeoutWaitingForP2PResponse →
  requestMissingBatchesFromPeers cfg n (HandleBatches bs live r).1 = ((HandleBatches bs live r).1, Ok tt).
Proof.
  intros Hreach Ht Hsoon.
  assert (p2pInFlightRequested r = None) as Hnone by (by eapply reach_unrequested).
  destruct (HandleBatches_inflight bs live r Hnone) as [_ Htime]. unfold requestMissingBatchesFromPeers.
  rewrite Htime, Ht. by apply Z.ltb_lt in Hsoon as ->.
Qed.
End batches.
