(* ===== verification/L1Repository.v ===== *)
(** * The L1 blocks a host looks up

    [go/host/l1/blockrepository.go]: the next block to give an enclave, the receipts of
    a block, and the stream of new heads. *)

From S2P Require Import Prelude Types Codec Retry P2P.
Local Open Scope Z_scope.

(** ** The client of an L1 node ([ethadapter.EthClient])

    What the repository calls of it; each call may change the state [W] of the client.
    The logs of a block are given by the hashes of their transactions. *)
Class EthClient (W : Type) := {
  BlockByHash : Hash → M W L1Block;
  BlockByNumber : Z → M W L1Block;
  eth_GetLogs : Hash → list Address → M W (list Hash);
  TransactionReceipt : Hash → M W (option Receipt);
  ReconnectIfClosed : M W unit
}.

(** [ethereum.NotFound] *)
Definition ethereum_NotFound : GoError := ErrMsg "not found".
Definition ErrNoNextBlock : GoError := ErrMsg "no next block".

(** What the repository starts with [go]. *)
Inductive L1Started :=
  | GoStreamLiveBlocks
  | GoHandleBlock (handler : nat) (block : L1Block).

Record L1Repository (W : Type) := mkL1Repository {
  blockSubscribers : Manager nat;
  ethClient : W;
  l1_running : bool;
  l1_head : Hash;
  l1_started : list L1Started
}.
Arguments mkL1Repository {W}.
Arguments blockSubscribers {W}.
Arguments ethClient {W}.
Arguments l1_running {W}.
Arguments l1_head {W}.
Arguments l1_started {W}.

Section repository.
Context {W : Type} `{EthClient W} (obscuroRelevantContracts : list Address).
Abbreviation Repo := (L1Repository W).

Definition NewL1Repository (w : W) : Repo := mkL1Repository ∅ w false EmptyHash [].
Definition set_client (w : W) (r : Repo) : Repo := mkL1Repository (blockSubscribers r) w (l1_running r) (l1_head r) (l1_started r).
Definition set_head (h : Hash) (r : Repo) : Repo := mkL1Repository (blockSubscribers r) (ethClient r) (l1_running r) h (l1_started r).
Definition set_l1_running (b : bool) (r : Repo) : Repo := mkL1Repository (blockSubscribers r) (ethClient r) b (l1_head r) (l1_started r).
Definition l1_start (l : list L1Started) (r : Repo) : Repo :=
  mkL1Repository (blockSubscribers r) (ethClient r) (l1_running r) (l1_head r) (l1_started r ++ l).
Definition on_client {A} (m : M W A) : M Repo A := zoom ethClient set_client m.

Definition l1_Start : M Repo unit := modify (λ r, l1_start [GoStreamLiveBlocks] (set_l1_running true r)).
Definition l1_Stop : M Repo unit := modify (set_l1_running false).
Definition l1_HealthStatus (r : Repo) : string := if l1_running r then "" else "not running".
Definition l1_Subscribe (handler : nat) (r : Repo) : Repo * nat :=
  let '(m, id) := P2P.Subscribe handler (blockSubscribers r) in
  (mkL1Repository m (ethClient r) (l1_running r) (l1_head r) (l1_started r), id).

Fixpoint latestCanonAncestor (fuel : nat) (blkHash : Hash) : M Repo L1Block :=
  match fuel with
  | O => crash "out of fuel"
  | S fuel =>
      blk ← wrap "unable to fetch L1 block with hash" (on_client (BlockByHash blkHash));
      canonAtSameHeight ← wrap "unable to fetch L1 block at height" (on_client (BlockByNumber (h_number (b_header blk))));
      if bool_decide (Block_Hash blk ≠ Block_Hash canonAtSameHeight)
      then latestCanonAncestor fuel (Block_ParentHash blk)
      else mret blk
  end.

(** [increment] adds to a copy: [Number] of a block returns a new one. *)
Definition FetchNextBlock (fuel : nat) (prevBlockHash : Hash) : M Repo (L1Block * bool) :=
  head ← gets l1_head;
  if bool_decide (prevBlockHash = head) then fail ErrNoNextBlock
  else if bool_decide (prevBlockHash = EmptyHash) then
    blk ← wrap "could not find genesis block" (on_client (BlockByNumber 0));
    mret (blk, false)
  else
    lca ← latestCanonAncestor fuel prevBlockHash;
    res ← try (on_client (BlockByNumber (h_number (b_header lca) + 1)));
    match res with
    | inl blk => head ← gets l1_head; mret (blk, bool_decide (Block_Hash blk = head))
    | inr err =>
        if errors_Is err ethereum_NotFound then fail ErrNoNextBlock
        else fail (ErrWrap "could not find block after latest canon ancestor" err)
    end.

Definition FetchBlockByHeight (height : Z) : M Repo L1Block := on_client (BlockByNumber height).

Definition isObscuroTransaction (transaction : L1Tx) : bool :=
  existsb (λ address, bool_decide (l1tx_to transaction = Some address)) obscuroRelevantContracts.

(** A failed receipt stands for a transaction of no interest; one that was not found
    stays nil. *)
Definition dummyReceipt : Receipt := mkReceipt 0 0 0 0 0 [].
Fixpoint collectReceipts (relevantTx : list Hash) (txs : list L1Tx) : M Repo (list (option Receipt)) :=
  match txs with
  | [] => mret []
  | transaction :: txs =>
      receipt ← (if negb (bool_decide (l1tx_hash transaction ∈ relevantTx)) && negb (isObscuroTransaction transaction)
                 then mret (Some dummyReceipt)
                 else res ← try (on_client (TransactionReceipt (l1tx_hash transaction)));
                      mret (match res with inl receipt => receipt | inr _ => None end));
      rest ← collectReceipts relevantTx txs;
      mret (receipt :: rest)
  end.
Definition FetchObscuroReceipts (block : L1Block) : M Repo (list (option Receipt)) :=
  relevantTx ← wrap "unable to fetch logs for L1 block" (on_client (eth_GetLogs (Block_Hash block) obscuroRelevantContracts));
  collectReceipts relevantTx (b_txs block).

(** One header of [streamLiveBlocks]. *)
Definition handleHeader (header : Hash) : M Repo unit :=
  _ ← modify (set_head header);
  res ← try (on_client (BlockByHash header));
  match res with
  | inr _ => mret tt
  | inl block => modify (λ r, l1_start ((λ handler, GoHandleBlock handler block) <$> Subscribers (blockSubscribers r)) r)
  end.
End repository.

(** ** Which block comes next

    On an L1 chain that does not change during the calls, [FetchNextBlock] gives the
    canonical block after the latest canonical ancestor. *)


(** The blocks an L1 node knows, and its canonical chain from the genesis block on. *)
Record Snapshot := mkSnapshot {
  sn_blocks : gmap Hash L1Block;
  sn_canon : list L1Block
}.

Definition height (b : L1Block) : nat := Z.to_nat (h_number (b_header b)).
Definition canonical (sn : Snapshot) (b : L1Block) : Prop := sn_canon sn !! height b = Some b.

Record snapshot_ok (sn : Snapshot) : Prop := {
  so_hash : ∀ h b, sn_blocks sn !! h = Some b → Block_Hash b = h ∧ 0 ≤ h_number (b_header b);
  so_parent : ∀ h b, sn_blocks sn !! h = Some b → h_number (b_header b) ≠ 0 →
    ∃ p, sn_blocks sn !! Block_ParentHash b = Some p ∧ h_number (b_header p) = h_number (b_header b) - 1;
  so_genesis : ∀ h b, sn_blocks sn !! h = Some b → h_number (b_header b) = 0 →
    sn_canon sn !! 0%nat = Some b ∧ sn_blocks sn !! Block_ParentHash b = None;
  so_canon : ∀ i b, sn_canon sn !! i = Some b → sn_blocks sn !! Block_Hash b = Some b ∧ h_number (b_header b) = Z.of_nat i;
  so_chain : ∀ i p b, sn_canon sn !! i = Some p → sn_canon sn !! S i = Some b → Block_ParentHash b = Block_Hash p
}.

Inductive ancestor (sn : Snapshot) : L1Block → L1Block → Prop :=
  | ancestor_self b : ancestor sn b b
  | ancestor_parent b p a : sn_blocks sn !! Block_ParentHash b = Some p → ancestor sn p a → ancestor sn b a.

Definition or_NotFound {A} (o : option A) : result A := of_option ethereum_NotFound o.

Section spec.
Context {W : Type} `{EthClient W}.
Implicit Types (sn : Snapshot) (w : W) (r : L1Repository W).

(** The node answers from the snapshot. *)
Record serves w sn : Prop := {
  sv_hash : ∀ h, BlockByHash h w = (w, or_NotFound (sn_blocks sn !! h));
  sv_number : ∀ n, 0 ≤ n → BlockByNumber n w = (w, or_NotFound (sn_canon sn !! Z.to_nat n))
}.

Lemma on_client_same {A} (m : M W A) r x : m (ethClient r) = (ethClient r, x) → on_client m r = (r, x).
Proof. intros Hm. unfold on_client, zoom. rewrite Hm. by destruct r. Qed.

(** The latest canonical ancestor of [b]. *)
Definition latest_canonical sn (b anc : L1Block) : Prop :=
  ancestor sn b anc ∧ canonical sn anc ∧ ∀ a, ancestor sn b a → canonical sn a → (height a ≤ height anc)%nat.

Lemma parent_height sn b p : snapshot_ok sn → sn_blocks sn !! Block_Hash b = Some b → sn_blocks sn !! Block_ParentHash b = Some p →
  height b = S (height p) ∧ sn_blocks sn !! Block_Hash p = Some p.
Proof.
  intros Hok Hb Hp. destruct (so_hash sn Hok _ _ Hp) as [Hhash Hpos]. rewrite Hhash. split; [|done].
  destruct (decide (h_number (b_header b) = 0)) as [Hz|Hz]; [destruct (so_genesis sn Hok _ _ Hb Hz); congruence|].
  destruct (so_parent sn Hok _ _ Hb Hz) as (p'&Hp'&Hn). rewrite Hp in Hp'. injection Hp' as <-. unfold height. lia.
Qed.
Lemma ancestor_height sn b a : snapshot_ok sn → ancestor sn b a → sn_blocks sn !! Block_Hash b = Some b → (height a ≤ height b)%nat.
Proof.
  intros Hok Hanc. induction Hanc as [b|b p a Hp Hanc IH]; intros Hb; [done|].
  destruct (parent_height sn b p Hok Hb Hp) as [-> Hpp]. specialize (IH Hpp). lia.
Qed.

Lemma canonical_hash sn b c : snapshot_ok sn → sn_blocks sn !! Block_Hash b = Some b → sn_canon sn !! height b = Some c →
  canonical sn b ↔ Block_Hash b = Block_Hash c.
Proof.
  intros Hok Hb Hc. unfold canonical. rewrite Hc. split; [by intros [= ->]|]. intros Heq.
  destruct (so_canon sn Hok _ _ Hc) as [Hc' _]. rewrite <-Heq, Hb in Hc'. congruence.
Qed.

Lemma latestCanonAncestor_run sn fuel : snapshot_ok sn → ∀ r b, serves (ethClient r) sn →
  sn_blocks sn !! Block_Hash b = Some b → (height b < length (sn_canon sn))%nat → (height b < fuel)%nat →
  ∃ anc, latestCanonAncestor fuel (Block_Hash b) r = (r, Ok anc) ∧ latest_canonical sn b anc.
Proof.
  intros Hok. induction fuel as [|fuel IH]; intros r b Hs Hb Hlen Hfuel; [lia|].
  destruct (lookup_lt_is_Some_2 _ _ Hlen) as [c Hc]. pose proof (canonical_hash sn b c Hok Hb Hc) as Hcanon.
  destruct (so_hash sn Hok _ _ Hb) as [_ Hpos].
  assert (on_client (BlockByHash (Block_Hash b)) r = (r, Ok b)) as Hrun1
    by (apply on_client_same; rewrite (sv_hash _ _ Hs), Hb; done).
  assert (on_client (BlockByNumber (h_number (b_header b))) r = (r, Ok c)) as Hrun2
    by (apply on_client_same; rewrite (sv_number _ _ Hs) by done; fold (height b); by rewrite Hc).
  cbn [latestCanonAncestor]. unfold wrap, mbind, M_bind. rewrite Hrun1, Hrun2. case_bool_decide as Heq.
  - assert (¬ canonical sn b) as Hnot by tauto.
    assert (h_number (b_header b) ≠ 0) as Hz.
    { intros Hz. apply Hnot. unfold canonical, height. rewrite Hz. by destruct (so_genesis sn Hok _ _ Hb Hz). }
    destruct (so_parent sn Hok _ _ Hb Hz) as (p&Hp&_). destruct (parent_height sn b p Hok Hb Hp) as [Hh Hpp].
    destruct (IH r p Hs Hpp) as (anc&Hrun&Hanc&Hc'&Hmax); [lia..|]. destruct (so_hash sn Hok _ _ Hp) as [Hhp _].
    rewrite Hhp in Hrun. exists anc. split; [done|]. split; [by eapply ancestor_parent|]. split; [done|].
    intros a Ha Hca. inversion Ha as [|? p' ? Hp' Ha']; subst; [done|]. rewrite Hp in Hp'. injection Hp' as <-. by apply Hmax.
  - exists b. split; [done|]. split; [constructor|]. split; [apply Hcanon, dec_stable; tauto|].
    intros a Ha _. by apply (ancestor_height sn b a Hok Ha).
Qed.

(** C19: [FetchNextBlock] gives the block that extends what the enclave has. For a known block that is
    not the head and not above the canonical chain, the latest canonical ancestor
    exists, and the result is the canonical block after it, whose parent it is, with
    whether that is the head; if there is none the error says so. The walk back over a
    fork ends within the height of the block. *)
Theorem FetchNextBlock_correct sn fuel r b :
  snapshot_ok sn → serves (ethClient r) sn → sn_blocks sn !! Block_Hash b = Some b →
  Block_Hash b ≠ l1_head r → Block_Hash b ≠ EmptyHash → (height b < length (sn_canon sn))%nat → (height b < fuel)%nat →
  ∃ anc, latest_canonical sn b anc ∧
    match sn_canon sn !! S (height anc) with
    | Some blk => FetchNextBlock fuel (Block_Hash b) r = (r, Ok (blk, bool_decide (Block_Hash blk = l1_head r))) ∧
                  Block_ParentHash blk = Block_Hash anc
    | None => FetchNextBlock fuel (Block_Hash b) r = (r, Err ErrNoNextBlock)
    end.
Proof.
  intros Hok Hs Hb Hhead Hempty Hlen Hfuel.
  destruct (latestCanonAncestor_run sn fuel Hok r b Hs Hb Hlen Hfuel) as (anc&Hrun&Hlatest). exists anc. split; [done|].
  destruct Hlatest as (_&Hcanon&_). destruct (so_canon sn Hok _ _ Hcanon) as [_ Hn].
  assert (on_client (BlockByNumber (h_number (b_header anc) + 1)) r = (r, or_NotFound (sn_canon sn !! S (height anc)))) as Hnext.
  { apply on_client_same. rewrite (sv_number _ _ Hs) by lia. do 3 f_equal. lia. }
  unfold FetchNextBlock, mbind, M_bind, gets, try. rewrite !bool_decide_false by done. rewrite Hrun, Hnext.
  destruct (sn_canon sn !! S (height anc)) as [blk|] eqn:Hblk; cbn; [|done].
  split; [done|]. by apply (so_chain sn Hok (height anc)).
Qed.
End spec.
