(* ===== verification/Publisher.v ===== *)
(** * Transactions a host sends to L1

    [go/host/l1/publisher.go], the calls of the management contract that
    [go/ethadapter/mgmtcontractlib] creates, and the nonce of [go/wallet/wallet.go]. *)

From S2P Require Import Prelude Types Codec RollupCompression Rollups Retry L1Repository.
Local Open Scope Z_scope.

(** What the publisher calls of the client besides the repository, the signing of the
    wallet, and the stop signal of the host. A transaction that is prepared has its
    nonce, gas and price set. *)
Class L1Sender (W : Type) := {
  IsStopping : W → bool;
  PrepareTransactionToSend : bytes → Z → M W bytes;
  SignTransaction : bytes → option L1Tx;
  SendTransaction : L1Tx → M W unit;
  FetchHeadBlock : M W L1Block;
  FetchLastBatchSeqNo : Address → M W Z;
  CallContract : bytes → M W bytes
}.

(** Packing of the calls of the contract by its ABI, with base 64 for attestations and
    rollups; [None] is an error. *)
Class MgmtPack := {
  PackAddRollup : Hash → Address → Z → bytes → list CrossChainMessage → option bytes;
  PackRequestSecret : bytes → option bytes;
  PackRespondSecret : RespondSecret → bool → option bytes;
  PackInitializeSecret : Address → bytes → string → bytes → option bytes;
  PackGetHostAddresses : option bytes;
  UnpackHostAddresses : bytes → option (list (list string))
}.

(** [host.Identity] *)
Record Identity := mkIdentity {
  hd_ID : Address;
  hd_IsGenesis : bool;
  hd_IsSequencer : bool;
  hd_P2PPublicAddress : string
}.

Record Publisher (W : Type) := mkPublisher {
  pb_client : W;
  pb_nonce : Z;
  (** the transactions of responses that are being published *)
  pb_started : list bytes
}.
Arguments mkPublisher {W}.
Arguments pb_client {W}.
Arguments pb_nonce {W}.
Arguments pb_started {W}.

(** A packing that fails panics. *)
Definition must {A} (o : option A) : result A := match o with Some a => Ok a | None => Crash "cannot pack" end.

Section contract.
Context `{Hashing, MgmtABI, MgmtPack, CE : !Codec ExtRollup}.

(** The messages without their consistency level. *)
Definition convertCrossChainMessages (messages : list CrossChainMessage) : list CrossChainMessage :=
  map (λ m, mkMessage (msg_sender m) (msg_sequence m) (msg_nonce m) (msg_topic m) (msg_payload m) 0) messages.
Definition lib_CreateRollup (rollup : bytes) : result bytes :=
  match rlp_decode rollup with
  | None => Crash "could not decode rollup"
  | Some decodedRollup =>
      let header := ext_rollup_header decodedRollup in
      must (PackAddRollup (ExtRollup_Hash decodedRollup) (Coinbase header) (Int.i64 (LastBatchSeqNo header)) rollup
              (convertCrossChainMessages (RollupMessages header)))
  end.
Definition CreateRequestSecret (attestation : bytes) : result bytes := must (PackRequestSecret attestation).
Definition CreateRespondSecret (tx : RespondSecret) (verifyAttester : bool) : result bytes := must (PackRespondSecret tx verifyAttester).
Definition CreateInitializeSecret (aggregatorID : Address) (initialSecret : bytes) (hostAddress : string) (attestation : bytes) : result bytes :=
  must (PackInitializeSecret aggregatorID initialSecret hostAddress attestation).
Definition GetHostAddresses : result bytes := of_option (ErrMsg "could not pack the call data") PackGetHostAddresses.
Definition DecodeCallResponse (callResponse : bytes) : result (list (list string)) :=
  of_option (ErrMsg "could not unpack call response") (UnpackHostAddresses callResponse).
End contract.

Section publisher.
Context {W : Type} `{EthClient W, L1Sender W, Clock W, Hashing, MgmtABI, MgmtPack, CE : !Codec ExtRollup, AT : !Attestations}.
Context (hostData : Identity) (maxWaitForL1Receipt retryIntervalForL1Receipt : Z).
Abbreviation Pub := (Publisher W).

Definition set_pub_client (w : W) (p : Pub) : Pub := mkPublisher w (pb_nonce p) (pb_started p).
Definition on_l1 {A} (m : M W A) : M Pub A := zoom pb_client set_pub_client m.

(** ** The wallet *)

Definition GetNonceAndIncrement : M Pub Z := λ p, (mkPublisher (pb_client p) (Int.u64 (pb_nonce p + 1)) (pb_started p), Ok (pb_nonce p)).
Definition SetNonce (nonce : Z) : M Pub unit := modify (λ p, mkPublisher (pb_client p) nonce (pb_started p)).

(** ** Publishing *)

(** The receipt of the last attempt. *)
#[local] Instance receipt_clock : Clock (W * option Receipt) := {| Now s := Now s.1; Sleep d s := (Sleep d s.1, s.2) |}.
Definition receiptStrategy : timeoutStrategy := NewTimeoutStrategy maxWaitForL1Receipt retryIntervalForL1Receipt.
Definition awaitReceipt (txHash : Hash) : M W (option Receipt) := λ w,
  let fn : M (W * option Receipt) unit := λ s,
    match TransactionReceipt txHash s.1 with
    | (w, Ok receipt) => ((w, receipt), Ok tt)
    | (w, Err err) => ((w, None), Err (ErrWrap "could not get receipt for L1 tx" err))
    | (w, Crash c) => ((w, s.2), Crash c)
    end in
  match Do (timeoutCalls receiptStrategy) fn receiptStrategy (w, None) with
  | ((w, receipt), Ok _) => (w, Ok receipt)
  | ((w, _), Err err) => (w, Err err)
  | ((w, _), Crash c) => (w, Crash c)
  end.

(** [ReceiptStatusSuccessful] is 1. A receipt that is nil without an error is
    dereferenced. *)
Fixpoint publishLoop (fuel : nat) (nonce : Z) (tx : bytes) : M Pub unit :=
  match fuel with
  | O => crash "out of fuel"
  | S fuel =>
      stopping ← gets (λ p, IsStopping (pb_client p));
      if (stopping : bool) then mret tt
      else
        current ← gets pb_nonce;
        if current <? nonce then fail (ErrMsg "earlier transaction has failed to complete, we need to abort this transaction")
        else
          prepared ← try (on_l1 (PrepareTransactionToSend tx nonce));
          match prepared with
          | inr err => _ ← SetNonce nonce; fail (ErrWrap "could not estimate gas/gas price for L1 tx" err)
          | inl prepared =>
              match SignTransaction prepared with
              | None => _ ← SetNonce nonce; fail (ErrMsg "could not sign L1 tx")
              | Some signedTx =>
                  sent ← try (on_l1 (SendTransaction signedTx));
                  match sent with
                  | inr err => _ ← SetNonce nonce; fail (ErrWrap "could not broadcast L1 tx" err)
                  | inl _ =>
                      receipt ← try (on_l1 (awaitReceipt (l1tx_hash signedTx)));
                      match receipt with
                      | inr _ => publishLoop fuel nonce tx
                      | inl None => crash "nil receipt"
                      | inl (Some receipt) =>
                          if bool_decide (r_status receipt ≠ 1)
                          then fail (ErrMsg "unsuccessful receipt found for published L1 transaction") else mret tt
                      end
                  end
              end
          end
  end.
Definition publishTransaction (fuel : nat) (tx : bytes) : M Pub unit :=
  nonce ← GetNonceAndIncrement;
  publishLoop fuel nonce tx.

(** ** The calls of the host *)

Definition InitializeSecret (fuel : nat) (attestation : AttestationReport) (encSecret : bytes) : M Pub unit :=
  encodedAttestation ← wrap "could not encode attestation" (lift (EncodeToBytes attestation));
  initialiseSecretTx ← lift (CreateInitializeSecret (hd_ID hostData) encSecret (hd_P2PPublicAddress hostData) encodedAttestation);
  publishTransaction fuel initialiseSecretTx.

(** A connection that cannot be restored panics. *)
Definition headOrReconnect : M Pub L1Block :=
  l1Head ← try (on_l1 FetchHeadBlock);
  match l1Head with
  | inl l1Head => mret l1Head
  | inr _ =>
      reconnected ← try (on_l1 ReconnectIfClosed);
      match reconnected with
      | inr _ => crash "could not reconnect to eth client"
      | inl _ =>
          l1Head ← try (on_l1 FetchHeadBlock);
          match l1Head with inl l1Head => mret l1Head | inr _ => crash "could not fetch head block" end
      end
  end.
Definition RequestSecret (fuel : nat) (attestation : AttestationReport) : M Pub Hash :=
  encodedAttestation ← wrap "could not encode attestation" (lift (EncodeToBytes attestation));
  l1Head ← headOrReconnect;
  requestSecretTx ← lift (CreateRequestSecret encodedAttestation);
  _ ← publishTransaction fuel requestSecretTx;
  mret (Block_Hash l1Head).

(** The transaction is published by a goroutine. *)
Definition PublishSecretResponse (secretResponse : ProducedSecretResponse) : M Pub unit :=
  respondSecretTx ← lift (CreateRespondSecret
    (mkRespondSecret (hd_ID hostData) (sr_RequesterID secretResponse) (sr_Secret secretResponse) (sr_HostAddress secretResponse)) false);
  modify (λ p, mkPublisher (pb_client p) (pb_nonce p) (pb_started p ++ [respondSecretTx])).

Fixpoint decodeTxs (txs : list L1Tx) : result (list L1Transaction) :=
  match txs with
  | [] => Ok []
  | tx :: txs => t ← DecodeTx tx; rest ← decodeTxs txs; Ok (match t with Some t => t :: rest | None => rest end)
  end.
Definition ExtractSecretResponses (block : L1Block) : result (list RespondSecret) :=
  match decodeTxs (b_txs block) with
  | Ok ts => Ok (omap (M:=list) (λ t, match t with L1RespondSecretTx response => Some response | _ => None end) ts)
  | Err err => Err err
  | Crash c => Crash c
  end.
Definition ExtractRollupTxs (block : L1Block) : result (list bytes) :=
  match decodeTxs (b_txs block) with
  | Ok ts => Ok (omap (M:=list) (λ t, match t with L1RollupTx rollup => Some rollup | _ => None end) ts)
  | Err err => Err err
  | Crash c => Crash c
  end.

Definition FetchLatestSeqNo : M Pub Z := on_l1 (FetchLastBatchSeqNo mgmt_addr).

(** The outcome is only logged. *)
Definition PublishRollup (fuel : nat) (producedRollup : ExtRollup) : M Pub unit :=
  match EncodeToBytes producedRollup with
  | Ok encRollup =>
      rollupTx ← lift (lib_CreateRollup encRollup);
      _ ← try (publishTransaction fuel rollupTx);
      mret tt
  | Err _ | Crash _ => crash "could not encode rollup."
  end.

(** Each address once, in the order of the contract, without the host's own. *)
Fixpoint filterAddresses (seen : list string) (hostAddresses : list string) : list string :=
  match hostAddresses with
  | [] => []
  | hostAddress :: rest =>
      if bool_decide (hostAddress = hd_P2PPublicAddress hostData) || bool_decide (hostAddress ∈ seen)
      then filterAddresses seen rest
      else hostAddress :: filterAddresses (hostAddress :: seen) rest
  end.
Definition FetchLatestPeersList : M Pub (list string) :=
  msg ← lift GetHostAddresses;
  response ← on_l1 (CallContract msg);
  decodedResponse ← lift (DecodeCallResponse response);
  match decodedResponse with
  | [] => crash "index out of range"
  | hostAddresses :: _ => mret (filterAddresses [] hostAddresses)
  end.

(** ** Peers and nonces *)

Lemma filterAddresses_spec l : ∀ seen, NoDup (filterAddresses seen l) ∧
  ∀ a, a ∈ filterAddresses seen l ↔ a ∈ l ∧ a ≠ hd_P2PPublicAddress hostData ∧ a ∉ seen.
Proof.
  induction l as [|b l IH]; intros seen; cbn [filterAddresses].
  { split; [constructor|]. intros a. rewrite elem_of_nil. tauto. }
  do 2 case_bool_decide; cbn [orb].
  1-3: (destruct (IH seen) as [Hnd Hin]; split; [done|]; intros a; rewrite Hin, elem_of_cons; naive_solver).
  destruct (IH (b :: seen)) as [Hnd Hin]. split.
  - constructor; [|done]. rewrite Hin. set_solver.
  - intros a. rewrite elem_of_cons, Hin. destruct (decide (a = b)); set_solver.
Qed.
End publisher.
