(* ===== verification/Guardian.v ===== *)
(** * The guardian of an enclave

    [go/host/enclave/guardian.go]: the service of the host that watches its enclave,
    gives it the secret, blocks and batches, and triggers production. *)

From S2P Require Import Prelude Types Codec Bytes EnclaveDB BatchDB RollupCompression Rollups Service RPC HostDB Retry P2P StateTracker EnclaveRPC BatchRepository L1Repository Publisher.
Local Open Scope Z_scope.

(** What the guardian starts with [go]. *)
Inductive GuardianStarted := GoMainLoop | GoBatchProduction | GoRollupProduction | GoStreamEnclaveData | GoRefreshPeers.

(** The guardian with the services it uses. Its database is the one of the batch
    repository. *)
Record Guardian (W E : Type) := mkGuardian {
  g_state : Tracker.t;
  g_enclave : E;
  submitDataLock : bool;
  g_l1repo : L1Repository W;
  g_l2repo : Repository;
  g_publisher : Publisher W;
  g_started : list GuardianStarted;
  g_sentLogs : list (gmap string bytes)
}.
Arguments mkGuardian {W E}.
Arguments g_state {W E}.
Arguments g_enclave {W E}.
Arguments submitDataLock {W E}.
Arguments g_l1repo {W E}.
Arguments g_l2repo {W E}.
Arguments g_publisher {W E}.
Arguments g_started {W E}.
Arguments g_sentLogs {W E}.

Section guardian.
Context {W E : Type} `{EthClient W, L1Sender W, Clock W, EnclaveAPI E}.
Context `{Hashing, HB : HashBytes, HC : HostCodecs, PC : P2PCodecs}.
Context `{MgmtABI, MgmtPack, CE : !Codec ExtRollup, AT : !Attestations}.
(** The header a rollup has after decoding it failed. *)
Context (partialRollup : bytes → option RollupHeader).
Context (hostData : Identity) (cfg : P2PConfig) (contracts : list Address) (l1StartHash : Hash).
Context (maxWaitForL1Receipt retryIntervalForL1Receipt : Z).
Abbreviation G := (Guardian W E).

Definition NewGuardian (e : E) (l1 : L1Repository W) (l2 : Repository) (p : Publisher W) : G :=
  mkGuardian Tracker.New e false l1 l2 p [] [].

Definition upd_state (f : Tracker.t → Tracker.t) (g : G) : G :=
  mkGuardian (f (g_state g)) (g_enclave g) (submitDataLock g) (g_l1repo g) (g_l2repo g) (g_publisher g) (g_started g) (g_sentLogs g).
Definition set_lock (b : bool) (g : G) : G :=
  mkGuardian (g_state g) (g_enclave g) b (g_l1repo g) (g_l2repo g) (g_publisher g) (g_started g) (g_sentLogs g).
Definition g_start (l : list GuardianStarted) (g : G) : G :=
  mkGuardian (g_state g) (g_enclave g) (submitDataLock g) (g_l1repo g) (g_l2repo g) (g_publisher g) (g_started g ++ l) (g_sentLogs g).
Definition set_enclave (e : E) (g : G) : G :=
  mkGuardian (g_state g) e (submitDataLock g) (g_l1repo g) (g_l2repo g) (g_publisher g) (g_started g) (g_sentLogs g).
Definition set_l1repo (l1 : L1Repository W) (g : G) : G :=
  mkGuardian (g_state g) (g_enclave g) (submitDataLock g) l1 (g_l2repo g) (g_publisher g) (g_started g) (g_sentLogs g).
Definition set_l2repo (l2 : Repository) (g : G) : G :=
  mkGuardian (g_state g) (g_enclave g) (submitDataLock g) (g_l1repo g) l2 (g_publisher g) (g_started g) (g_sentLogs g).
Definition set_publisher (p : Publisher W) (g : G) : G :=
  mkGuardian (g_state g) (g_enclave g) (submitDataLock g) (g_l1repo g) (g_l2repo g) p (g_started g) (g_sentLogs g).
Definition sendLogs (logs : gmap string bytes) (g : G) : G :=
  mkGuardian (g_state g) (g_enclave g) (submitDataLock g) (g_l1repo g) (g_l2repo g) (g_publisher g) (g_started g) (g_sentLogs g ++ [logs]).

Definition on_enclave_client {A} (m : M E A) : M G A := zoom g_enclave set_enclave m.
Definition on_l1repo {A} (m : M (L1Repository W) A) : M G A := zoom g_l1repo set_l1repo m.
Definition on_l2repo {A} (m : M Repository A) : M G A := zoom g_l2repo set_l2repo m.
Definition on_publisher {A} (m : M (Publisher W) A) : M G A := zoom g_publisher set_publisher m.
Definition on_hostdb {A} (m : M KV A) : M G A := on_l2repo (zoom rp_db rp_set_db m).
(** [repo_FetchBatchBySeqNo] may ask the enclave. *)
Definition on_both {A} (m : Tracker.t → M (Repository * E) A) : M G A := λ g,
  let '((l2, e), r) := m (g_state g) (g_l2repo g, g_enclave g) in (set_enclave e (set_l2repo l2 g), r).

Definition stopping (g : G) : bool := IsStopping (pb_client (g_publisher g)).
#[export] Instance guardian_clock : Clock G := {|
  Now g := Now (rp_p2p (g_l2repo g));
  Sleep d g := set_l2repo (rp_set_p2p (Sleep d (rp_p2p (g_l2repo g))) (g_l2repo g)) g
|}.

(** ** Starting and stopping *)

(** The guardian is the handler [self] of the other services. *)
Definition g_Start (self : nat) : M G unit := λ g,
  let g := g_start ([GoMainLoop] ++ (if hd_IsSequencer hostData then [GoBatchProduction; GoRollupProduction] else [])) g in
  let l2 := g_l2repo g in
  let l2 := repo_Subscribe self (rp_set_p2p (SubscribeForTx self (rp_p2p l2)).1 l2) in
  let l1 := (l1_Subscribe self (g_l1repo g)).1 in
  (g_start [GoStreamEnclaveData] (set_l2repo l2 (set_l1repo l1 g)), Ok tt).
(** The message, empty when healthy. *)
Definition g_HealthStatus (g : G) : string := if negb (stopping g) then "not running" else "".

(** ** Submitting data *)

(** A response that is published is started by the publisher. *)
Fixpoint publishSharedSecretResponses (scrtResponses : list ProducedSecretResponse) : M G unit :=
  match scrtResponses with
  | [] => mret tt
  | scrtResponse :: scrtResponses =>
      if negb (hd_IsGenesis hostData) then mret tt
      else
        _ ← wrap "could not publish secret response" (on_publisher (PublishSecretResponse hostData scrtResponse));
        publishSharedSecretResponses scrtResponses
  end.

(** An error of the decoding is logged, and the rollup stored nevertheless. *)
Fixpoint storeRollups (rollups : list bytes) (block : L1Block) : M G unit :=
  match rollups with
  | [] => mret tt
  | rollup :: rollups =>
      let header := match rlp_decode rollup with Some r => Some (ext_rollup_header r) | None => partialRollup rollup end in
      _ ← try (on_hostdb (AddRollupHeader header (Block_Hash block)));
      storeRollups rollups block
  end.
Definition processL1BlockTransactions (block : L1Block) : M G unit :=
  respTxs ← lift (ExtractSecretResponses block);
  _ ← when (negb (bool_decide (respTxs = []))) (modify (g_start [GoRefreshPeers]));
  rollupTxs ← lift (ExtractRollupTxs block);
  storeRollups rollupTxs block.

(** [TryLock]; the lock is not released when the receipts cannot be fetched. *)
Fixpoint g_submitL1Block (fuel : nat) (block : L1Block) (isLatest : bool) : M G bool :=
  match fuel with
  | O => crash "out of fuel"
  | S fuel =>
      locked ← gets submitDataLock;
      if (locked : bool) then mret false
      else
        _ ← modify (set_lock true);
        receipts ← wrap "could not fetch obscuro receipts for block" (on_l1repo (FetchObscuroReceipts contracts block));
        resp ← try (on_enclave_client (api_SubmitL1Block (Some block) receipts isLatest));
        _ ← modify (set_lock false);
        match resp with
        | inr err =>
            if contains (err_text err) (err_text ErrBlockAlreadyProcessed)
            then
              nextCanonicalBlock ← wrap "failed to fetch next block after forking block"
                (on_l1repo (FetchBlockByHeight (h_number (b_header block) + 1)));
              g_submitL1Block fuel nextCanonicalBlock isLatest
            else fail (ErrWrap "could not submit L1 block to enclave" err)
        | inl resp =>
            _ ← modify (upd_state (Tracker.OnProcessedBlock (Block_Hash block)));
            _ ← processL1BlockTransactions block;
            _ ← wrap "submitted block to enclave but could not store the block processing result" (on_hostdb (hostdb_AddBlock (b_header block)));
            _ ← try (publishSharedSecretResponses (ProducedSecretResponses resp));
            mret true
        end
  end.

(** [Lock] waits; between the steps the lock is only held if it was never released,
    and then the wait does not end. *)
Definition submitL2Batch (batch : ExtBatch) : M G unit :=
  locked ← gets submitDataLock;
  if (locked : bool) then crash "blocked on submitDataLock"
  else
    _ ← wrap "could not submit L2 batch to enclave" (on_enclave_client (api_SubmitBatch (Some batch)));
    modify (upd_state (Tracker.OnProcessedBatch (SequencerOrderNo (ext_header batch)))).

(** ** Events *)

(** The errors are logged. *)
Definition HandleBlock (fuel : nat) (block : L1Block) : M G unit :=
  _ ← modify (upd_state (Tracker.OnReceivedBlock (Block_Hash block)));
  inSync ← gets (λ g, Tracker.InSyncWithL1 (g_state g));
  if negb inSync then mret tt
  else _ ← try (g_submitL1Block fuel block true); mret tt.

Definition HandleBatch (batch : ExtBatch) : M G unit :=
  if hd_IsSequencer hostData then mret tt
  else
    _ ← modify (upd_state (Tracker.OnReceivedBatch (SequencerOrderNo (ext_header batch))));
    upToDate ← gets (λ g, Tracker.IsUpToDate (g_state g));
    if negb upToDate then mret tt
    else _ ← try (submitL2Batch batch); mret tt.

Definition HandleTransaction (tx : bytes) : M G unit :=
  _ ← try (on_enclave_client (api_request RSubmitTx tx)); mret tt.

(** ** The main loop *)

Definition checkEnclaveStatus : M G unit :=
  res ← try (on_enclave_client api_Status);
  match res with
  | inl (s, None) => modify (upd_state (Tracker.OnEnclaveStatus s))
  | inl (_, Some _) | inr _ => modify (upd_state Tracker.OnDisconnected)
  end.

Definition generateAndBroadcastSecret (fuel : nat) : M G unit :=
  attestation ← wrap "could not retrieve attestation from enclave" (on_enclave_client api_Attestation);
  if bool_decide (att_Owner attestation ≠ hd_ID hostData)
  then fail (ErrMsg "genesis node and its enclave have different IDs")
  else
    secret ← wrap "could not generate secret" (on_enclave_client api_GenerateSecret);
    _ ← wrap "failed to publish generated enclave secret"
      (on_publisher (InitializeSecret hostData maxWaitForL1Receipt retryIntervalForL1Receipt fuel attestation secret));
    modify (upd_state Tracker.OnSecretProvided).

(** The responses of a block that are for this host, until the enclave takes one. *)
Fixpoint trySecrets (responses : list RespondSecret) : M G bool :=
  match responses with
  | [] => mret false
  | scrt :: responses =>
      if bool_decide (rs_RequesterID scrt = hd_ID hostData)
      then res ← try (on_enclave_client (api_InitEnclave (rs_Secret scrt)));
           match res with inl _ => mret true | inr _ => trySecrets responses end
      else trySecrets responses
  end.

(** [awaitFromBlock] is shared by the calls of the retried function. *)
#[export] Instance await_clock : Clock (G * Hash) := {| Now s := Now s.1; Sleep d s := (Sleep d s.1, s.2) |}.
Definition secretStrategy : timeoutStrategy := NewTimeoutStrategy (120 * 10 ^ 9) (500 * 10 ^ 6).
Definition awaitSecret (fuel : nat) : M (G * Hash) unit := λ s,
  match on_l1repo (FetchNextBlock fuel s.2) s.1 with
  | (g, Err err) => ((g, s.2), Err (ErrWrap "next block not found" err))
  | (g, Crash c) => ((g, s.2), Crash c)
  | (g, Ok (nextBlock, _)) =>
      match (secretRespTxs ← lift (ExtractSecretResponses nextBlock); trySecrets secretRespTxs) g with
      | (g, Ok true) => ((g, s.2), Ok tt)
      | (g, Ok false) => ((g, Block_Hash nextBlock), Err (ErrMsg "no valid secret received in block"))
      | (g, Err err) => ((g, s.2), Err err)
      | (g, Crash c) => ((g, s.2), Crash c)
      end
  end.

Definition provideSecret (fuel : nat) : M G unit :=
  if hd_IsGenesis hostData then generateAndBroadcastSecret fuel
  else
    att ← wrap "could not retrieve attestation from enclave" (on_enclave_client api_Attestation);
    if bool_decide (att_Owner att ≠ hd_ID hostData)
    then fail (ErrMsg "host and its enclave have different IDs")
    else
      awaitFromBlock ← wrap "could not request secret from L1"
        (on_publisher (RequestSecret maxWaitForL1Receipt retryIntervalForL1Receipt fuel att));
      _ ← wrap "no valid secret received for enclave" (λ g,
        let '((g, _), r) := Do (timeoutCalls secretStrategy) (awaitSecret fuel) secretStrategy (g, awaitFromBlock) in (g, r));
      _ ← modify (upd_state Tracker.OnSecretProvided);
      modify (g_start [GoRefreshPeers]).

(** The turns of a loop are bounded by [n]; [None] is a loop that is not done. *)
Fixpoint catchupWithL1 (n fuel : nat) : M G (option unit) :=
  match n with
  | O => mret None
  | S n =>
      g ← gets id;
      if stopping g || negb (bool_decide (Tracker.GetStatus (g_state g) = Tracker.L1Catchup)) then mret (Some tt)
      else
        let head := Tracker.GetEnclaveL1Head (g_state g) in
        let enclaveHead := if bool_decide (head = EmptyHash) then l1StartHash else head in
        res ← try (on_l1repo (FetchNextBlock fuel enclaveHead));
        match res with
        | inr err =>
            if errors_Is err ErrNoNextBlock
            then if bool_decide (Tracker.hostL1Head (g_state g) = EmptyHash)
                 then fail (ErrMsg "no L1 blocks found in repository") else mret (Some tt)
            else fail (ErrWrap "could not fetch next L1 block" err)
        | inl (l1Block, isLatest) =>
            _ ← g_submitL1Block fuel l1Block isLatest;
            catchupWithL1 n fuel
        end
  end.

Fixpoint catchupWithL2 (n : nat) : M G (option unit) :=
  match n with
  | O => mret None
  | S n =>
      g ← gets id;
      if stopping g || negb (bool_decide (Tracker.GetStatus (g_state g) = Tracker.L2Catchup)) then mret (Some tt)
      else if hd_IsSequencer hostData then fail (ErrMsg "l2 catchup is not supported for sequencer")
      else
        match Tracker.GetEnclaveL2Head (g_state g) with
        | None => crash "nil L2 head"
        | Some prevHead =>
            batch ← wrap "could not fetch next L2 batch" (on_both (λ t, repo_FetchBatchBySeqNo cfg t (prevHead + 1)));
            _ ← submitL2Batch batch;
            catchupWithL2 n
        end
  end.

(** One turn of [mainLoop]; an error is followed by a short sleep. *)
Definition retryInterval : Z := 100 * 10 ^ 6.
Definition monitoringInterval : Z := 10 ^ 9.
Definition orSleep {A} (m : M G A) : M G unit :=
  res ← try m;
  match res with inl _ => mret tt | inr _ => modify (Sleep retryInterval) end.
Definition mainLoopTurn (n fuel : nat) : M G unit :=
  _ ← checkEnclaveStatus;
  status ← gets (λ g, Tracker.GetStatus (g_state g));
  match status with
  | Tracker.Disconnected | Tracker.Unavailable => modify (Sleep retryInterval)
  | Tracker.AwaitingSecret => orSleep (provideSecret fuel)
  | Tracker.L1Catchup => orSleep (catchupWithL1 n fuel)
  | Tracker.L2Catchup => orSleep (catchupWithL2 n)
  | Tracker.Live => modify (Sleep monitoringInterval)
  end.

(** ** Production and the stream *)

(** A tick of [periodicBatchProduction]. *)
Definition batchTick : M G unit :=
  inSync ← gets (λ g, Tracker.InSyncWithL1 (g_state g));
  if negb inSync then mret tt else _ ← try (on_enclave_client api_CreateBatch); mret tt.

(** A tick of [periodicRollupProduction]. *)
Definition rollupTick (fuel : nat) : M G unit :=
  upToDate ← gets (λ g, Tracker.IsUpToDate (g_state g));
  if negb upToDate then mret tt
  else
    lastBatchNo ← try (on_publisher FetchLatestSeqNo);
    match lastBatchNo with
    | inr _ => mret tt
    | inl lastBatchNo =>
        let last := Int.u64 lastBatchNo in
        let fromBatch := if L2GenesisSeqNo <? last then Int.u64 (last + 1) else last in
        producedRollup ← try (on_enclave_client (api_CreateRollup fromBatch));
        match producedRollup with
        | inr _ => mret tt
        | inl producedRollup => on_publisher (PublishRollup maxWaitForL1Receipt retryIntervalForL1Receipt fuel producedRollup)
        end
    end.

(** An update of [streamEnclaveData]. *)
Definition handleUpdate (resp : StreamL2UpdatesResponse) : M G unit :=
  match resp with
  | StreamBatch batch =>
      res ← try (on_l2repo (repo_AddBatch batch));
      _ ← (match res with
           | inr err => if errors_Is err ErrAlreadyExists then mret tt else crash "failed to add batch to L2 repo"
           | inl _ => mret tt
           end);
      _ ← when (hd_IsSequencer hostData) (_ ← try (on_l2repo (on_p2p (BroadcastBatches cfg [batch]))); mret tt);
      modify (upd_state (Tracker.OnProcessedBatch (SequencerOrderNo (ext_header batch))))
  | StreamLogs logs => modify (sendLogs logs)
  end.
End guardian.
