(* ===== verification/HostAPI.v ===== *)
(** * The API of a host

    [go/host/rpc/clientapi], the part of [go/host/host.go] and
    [go/host/enclave/service.go] behind it, and the routing of logs in
    [go/host/events/logs.go]: what users and wallets ask a host over RPC.  Sensitive
    requests are passed on to the enclave as they are; the rest is answered from the
    database of the host. *)

From S2P Require Import Prelude Types Codec Bytes EnclaveDB BatchDB Registry RollupCompression Rollups Service RPC HostDB Retry P2P StateTracker EnclaveRPC BatchRepository L1Repository Publisher Guardian.
Local Open Scope Z_scope.

(** [responses.InternalErrMsg] *)
Definition InternalErrMsg : string := "internal system error".

(** What a client is told on a subscription: its identifier first, then encrypted
    logs ([common.IDAndEncLog]). *)
Record IDAndEncLog := mkIDAndEncLog { il_SubID : string; il_EncLog : option bytes }.

(** The host: the guardian with the services it uses, and the [LogEventManager].  The
    reader of a channel passes on what is sent at once, so a subscription is only
    known by its identifier; [ho_notified] is what was passed on to clients. *)
Record Host (W E : Type) := mkHost {
  ho_guardian : Guardian W E;
  ho_subscriptions : gset string;
  ho_notified : list IDAndEncLog
}.
Arguments mkHost {W E}.
Arguments ho_guardian {W E}.
Arguments ho_subscriptions {W E}.
Arguments ho_notified {W E}.

(** [config.HostConfig], as far as the API shows it *)
Record HostConfig := mkHostConfig {
  hc_ObscuroChainID : Z;
  hc_ManagementContractAddress : Address;
  hc_L1StartHash : Hash;
  hc_SequencerID : Address;
  hc_MessageBusAddress : Address
}.

(** [rpc.BlockNumberOrHash] *)
Record BlockNumberOrHash := mkBlockNumberOrHash { bn_Number : option Z; bn_Hash : option Hash }.

Section host.
Context {W E : Type} `{L1Sender W, EnclaveAPI E}.
Context `{Hashing, HB : HashBytes, HC : HostCodecs, PC : P2PCodecs}.
Context (config : HostConfig) (hostData : Identity) (cfg : P2PConfig).
Abbreviation HS := (Host W E).

Definition on_guardian {A} (m : M (Guardian W E) A) : M HS A :=
  zoom ho_guardian (λ g h, mkHost g (ho_subscriptions h) (ho_notified h)) m.
Definition EnclaveClient {A} (m : M E A) : M HS A := on_guardian (on_enclave_client m).
Definition host_DB {A} (q : KV → result A) : M HS A := λ h, (h, q (rp_db (g_l2repo (ho_guardian h)))).
Definition host_IsStopping (h : HS) : bool := stopping (ho_guardian h).

(** ** The enclave service ([service.go]) *)

Definition on_host_p2p {A} (m : M P2P A) : M HS A := on_guardian (on_l2repo (on_p2p m)).

Definition enclaves_SubmitAndBroadcastTx (encryptedParams : bytes) : M HS EnclaveResponse :=
  enclaveResponse ← EnclaveClient (api_request RSubmitTx encryptedParams);
  match resp_Err enclaveResponse with
  | Some _ => mret enclaveResponse
  | None =>
      _ ← when (negb (hd_IsSequencer hostData))
            (wrap "could not broadcast transaction to sequencer. Cause:" (on_host_p2p (SendTxToSequencer cfg encryptedParams)));
      mret enclaveResponse
  end.
Definition enclaves_Subscribe (id : string) (encryptedParams : bytes) : M HS unit := EnclaveClient (api_Subscribe id encryptedParams).
Definition enclaves_Unsubscribe (id : string) : M HS unit := EnclaveClient (api_Unsubscribe id).

(** The message, empty when healthy. *)
Definition enclaves_HealthStatus (running : bool) : M HS string :=
  if negb running then mret "not running"%string
  else
    r ← try (EnclaveClient api_HealthCheck);
    match r with
    | inr err => mret ("unable to HealthCheck enclave - " +:+ err_text err)
    | inl false => mret "enclave reported itself as not healthy"%string
    | inl true =>
        inSync ← gets (λ h, Tracker.InSyncWithL1 (g_state (ho_guardian h)));
        mret (if negb inSync then "enclave not in sync with L1" else "")%string
    end.

(** ** The routing of logs ([logs.go]) *)

Definition set_subscriptions (f : gset string → gset string) (h : HS) : HS :=
  mkHost (ho_guardian h) (f (ho_subscriptions h)) (ho_notified h).
Definition notify (l : list IDAndEncLog) (h : HS) : HS := mkHost (ho_guardian h) (ho_subscriptions h) (ho_notified h ++ l).

Definition logs_Subscribe (id : string) (encryptedLogSubscription : bytes) : M HS unit :=
  _ ← wrap "could not create subscription with enclave" (enclaves_Subscribe id encryptedLogSubscription);
  modify (set_subscriptions ({[id]} ∪.)).

(** An error of the enclave is logged. *)
Definition logs_Unsubscribe (id : string) : M HS unit :=
  _ ← try (enclaves_Unsubscribe id);
  modify (set_subscriptions (.∖ {[id]})).

(** The order of the map is unspecified. *)
Definition SendLogsToSubscribers (result : gmap string bytes) : M HS unit :=
  modify (λ h,
    notify (omap (λ '(id, encryptedLogs), if bool_decide (id ∈ ho_subscriptions h)
                                          then Some (mkIDAndEncLog id (Some encryptedLogs)) else None)
              (map_to_list result)) h).

(** ** The host ([host.go]) *)

Definition unless_host_stopping {A} (msg : string) (m : M HS A) : M HS A := λ h,
  if host_IsStopping h then (h, Err (ErrInternal (ErrMsg msg))) else m h.

Definition SubmitAndBroadcastTx (encryptedParams : bytes) : M HS EnclaveResponse :=
  unless_host_stopping "requested SubmitAndBroadcastTx with the host stopping" (enclaves_SubmitAndBroadcastTx encryptedParams).
Definition host_Subscribe (id : string) (encryptedLogSubscription : bytes) : M HS unit :=
  unless_host_stopping "requested Subscribe with the host stopping" (logs_Subscribe id encryptedLogSubscription).
(** A host that is stopping logs it and goes on. *)
Definition host_Unsubscribe (id : string) : M HS unit := logs_Unsubscribe id.

(** [services] are the registered services in the order of the map. *)
Fixpoint serviceErrors (services : list (string * M HS string)) : M HS (list string) :=
  match services with
  | [] => mret []
  | (name, HealthStatus) :: services =>
      status ← HealthStatus;
      rest ← serviceErrors services;
      mret (if String.eqb status "" then rest else ("[" +:+ name +:+ "] not healthy - " +:+ status) :: rest)
  end.
Definition host_HealthCheck (services : list (string * M HS string)) : M HS (bool * list string) :=
  unless_host_stopping "requested HealthCheck with the host stopping" (
    healthErrors ← serviceErrors services;
    mret (bool_decide (healthErrors = []), healthErrors)).

(** [common.ObscuroNetworkInfo] *)
Definition ObscuroConfig : Address * Hash * Address * Address :=
  (hc_ManagementContractAddress config, hc_L1StartHash config, hc_SequencerID config, hc_MessageBusAddress config).

(** [logger.Crit] ends the process. *)
Definition validateConfig (isGenesis isSequencer : bool) (p2pPublicAddress : string) (l1BlockTime : Z) : result unit :=
  if isGenesis && negb isSequencer then Crash "genesis node must be the sequencer"
  else if negb isGenesis && isSequencer then Crash "only the genesis node can be a sequencer"
  else if String.eqb p2pPublicAddress "" then Crash "the host must specify a public P2P address"
  else if l1BlockTime =? 0 then Crash "the host must specify an L1 block time"
  else Ok tt.

(** ** [EthereumAPI] *)

Definition handleSysError : EnclaveResponse := mkEnclaveResponse None (Some InternalErrMsg).
(** A system error is logged, and the user told that there was one. *)
Definition orSysError (m : M HS EnclaveResponse) : M HS EnclaveResponse :=
  r ← try m;
  mret (match r with inl enclaveResponse => enclaveResponse | inr _ => handleSysError end).

Definition eth_ChainId : M HS Z := mret (hc_ObscuroChainID config).
Definition eth_BlockNumber : M HS Z :=
  r ← try (host_DB GetHeadBatchHeader);
  mret (match r with inl header => Int.u64 (Number header) | inr _ => 0 end).
Definition eth_GetBlockByHash (hash : Hash) : M HS BatchHeader := host_DB (GetBatchHeader hash).

(** The hash of a header that was read is computed again. *)
Definition batchNumberToBatchHash (batchNumber : Z) : M HS Hash :=
  if bool_decide (batchNumber = LatestBlockNumber)
  then batchHeader ← host_DB GetHeadBatchHeader; mret (BatchHeader_Hash batchHeader)
  else if bool_decide (batchNumber = PendingBlockNumber) then fail ErrNoImpl
  else host_DB (GetBatchHash batchNumber).
Definition eth_GetBlockByNumber (number : Z) : M HS BatchHeader :=
  batchHash ← wrap "could not find batch with height. Cause:" (batchNumberToBatchHash number);
  eth_GetBlockByHash batchHash.
Definition eth_GasPrice : M HS Z := mret 1.

Definition eth_GetBalance (encryptedParams : bytes) : M HS EnclaveResponse :=
  orSysError (EnclaveClient (api_request RGetBalance encryptedParams)).
Definition eth_Call (encryptedParams : bytes) : M HS EnclaveResponse :=
  orSysError (EnclaveClient (api_request RObsCall encryptedParams)).
Definition eth_GetTransactionReceipt (encryptedParams : bytes) : M HS EnclaveResponse :=
  orSysError (EnclaveClient (api_request RGetTransactionReceipt encryptedParams)).
Definition eth_EstimateGas (encryptedParams : bytes) : M HS EnclaveResponse :=
  orSysError (EnclaveClient (api_request REstimateGas encryptedParams)).
Definition eth_SendRawTransaction (encryptedParams : bytes) : M HS EnclaveResponse :=
  orSysError (SubmitAndBroadcastTx encryptedParams).
Definition eth_GetTransactionCount (encryptedParams : bytes) : M HS EnclaveResponse :=
  orSysError (EnclaveClient (api_request RGetTransactionCount encryptedParams)).
Definition eth_GetTransactionByHash (encryptedParams : bytes) : M HS EnclaveResponse :=
  orSysError (EnclaveClient (api_request RGetTransaction encryptedParams)).
(** The error of the enclave is returned as it is. *)
Definition eth_GetStorageAt (encryptedParams : bytes) : M HS EnclaveResponse :=
  EnclaveClient (api_request RGetCustomQuery encryptedParams).

(** A hash takes precedence over a number, which is looked up all the same. *)
Definition eth_GetCode (address : Address) (blockNrOrHash : BlockNumberOrHash) : M HS bytes :=
  batchHash ← match bn_Number blockNrOrHash with
              | Some batchNumber =>
                  hash ← wrap "could not retrieve batch with height. Cause:" (batchNumberToBatchHash batchNumber);
                  mret (Some hash)
              | None => mret None
              end;
  let batchHash := match bn_Hash blockNrOrHash with Some hash => Some hash | None => batchHash end in
  match batchHash with
  | None => fail (ErrMsg "invalid arguments; neither batch height nor batch hash specified")
  | Some batchHash =>
      r ← try (EnclaveClient (api_GetCode address batchHash));
      match r with
      | inl code => mret code
      | inr _ => fail (ErrMsg InternalErrMsg)
      end
  end.

(** ** [FilterAPI] *)

Definition eth_GetLogs (encryptedParams : bytes) : M HS EnclaveResponse :=
  orSysError (EnclaveClient (api_request RGetLogs encryptedParams)).

(** [id] is the identifier of the subscription the notifier created, [None] when the
    connection has no notifier; [notified] the outcome of the first notification. *)
Definition filter_Logs (id : option string) (notified : result unit) (encryptedParams : bytes) : M HS string :=
  match id with
  | None => fail (ErrMsg "creation of subscriptions is not supported")
  | Some id =>
      _ ← wrap "could not subscribe for logs. Cause:" (host_Subscribe id encryptedParams);
      match notified with
      | Ok _ => _ ← modify (notify [mkIDAndEncLog id None]); mret id
      | Err _ => _ ← host_Unsubscribe id; fail (ErrMsg "could not send subscription ID to client on subscription")
      | Crash c => crash c
      end
  end.
(** The end of a subscription. *)
Definition subscriptionEnded (id : string) : M HS unit := host_Unsubscribe id.

(** ** [ScanAPI] and [ObscuroScanAPI] *)

Definition scan_GetTotalContractCount : M HS Z := EnclaveClient api_GetTotalContractCount.
Definition scan_GetTotalTransactionCount : M HS Z := host_DB GetTotalTransactions.
Definition scan_GetLatestRollupHeader : M HS RollupHeader := host_DB GetTipRollupHeader.
Definition scan_GetPublicTransactionData (pagination : QueryPagination) : M HS (list PublicTransaction * Z) :=
  EnclaveClient (api_GetPublicTransactionData pagination).
Definition scan_GetBatchListing (pagination : QueryPagination) : M HS (list BatchHeader * Z) := host_DB (GetBatchListing pagination).
Definition scan_GetBatchByHash (hash : Hash) : M HS ExtBatch := host_DB (hostdb_GetBatch hash).
Definition scan_GetBlockListing (NilHeaderHash : Hash) (pagination : QueryPagination) := host_DB (GetBlockListing NilHeaderHash pagination).

Definition GetBlockHeaderByHash (blockHash : Hash) : M HS L1Header :=
  r ← try (host_DB (GetBlockByHash blockHash));
  match r with
  | inl blockHeader => mret blockHeader
  | inr err =>
      if errors_Is err ErrNotFound then fail (ErrMsg "no block with this hash is stored")
      else fail (ErrWrap "could not retrieve block. Cause:" err)
  end.
Definition api_GetBatchForTx (txHash : Hash) : M HS ExtBatch :=
  batchNumber ← wrap "could not retrieve batch containing a transaction. Cause:" (host_DB (GetBatchNumber txHash));
  batchHash ← wrap "could not retrieve batch with number. Cause:" (host_DB (GetBatchHash batchNumber));
  scan_GetBatchByHash batchHash.

Definition txLimit : Z := 100.

(** The first hash after which there are [num] or more ends the loop. *)
Fixpoint takeTxs (num : Z) (txHashes : list Hash) (batchTxHashes : list Hash) : list Hash * bool :=
  match batchTxHashes with
  | [] => (txHashes, false)
  | txHash :: batchTxHashes =>
      let txHashes := txHashes ++ [txHash] in
      if num <=? Z.of_nat (length txHashes) then (txHashes, true) else takeTxs num txHashes batchTxHashes
  end.
Fixpoint latestLoop (fuel : nat) (num : Z) (currentBatchHash : Hash) (txHashes : list Hash) : M HS (list Hash) :=
  match fuel with
  | O => crash "out of fuel"
  | S fuel =>
      batchHeader ← wrap "could not retrieve batch. Cause:" (host_DB (GetBatchHeader currentBatchHash));
      batchTxHashes ← wrap "could not retrieve transaction hashes for batch. Cause:" (host_DB (GetBatchTxs (BatchHeader_Hash batchHeader)));
      let '(txHashes, enough) := takeTxs num txHashes batchTxHashes in
      if enough || (Int.u64 (Number batchHeader) =? L2GenesisHeight) then mret txHashes
      else latestLoop fuel num (ParentHash batchHeader) txHashes
  end.
Definition GetLatestTransactions (fuel : nat) (num : Z) : M HS (list Hash) :=
  if txLimit <? num then fail (ErrMsg "cannot request more than 100 latest transactions")
  else
    headBatchHeader ← host_DB GetHeadBatchHeader;
    latestLoop fuel num (BatchHeader_Hash headBatchHeader) [].
Definition scan_Attestation : M HS AttestationReport := EnclaveClient api_Attestation.

(** ** Sensitive requests by name

    go-ethereum's server calls the method of the API that a request names; a panic of
    the method and an error are an error for the client, by its text. *)
Definition sensitiveAPI (method : string) : option (bytes → M HS EnclaveResponse) :=
  if String.eqb method "eth_call" then Some eth_Call
  else if String.eqb method "eth_getBalance" then Some eth_GetBalance
  else if String.eqb method "eth_getTransactionByHash" then Some eth_GetTransactionByHash
  else if String.eqb method "eth_getTransactionCount" then Some eth_GetTransactionCount
  else if String.eqb method "eth_getTransactionReceipt" then Some eth_GetTransactionReceipt
  else if String.eqb method "eth_sendRawTransaction" then Some eth_SendRawTransaction
  else if String.eqb method "eth_estimateGas" then Some eth_EstimateGas
  else if String.eqb method "eth_getLogs" then Some eth_GetLogs
  else if String.eqb method "eth_getStorageAt" then Some eth_GetStorageAt
  else None.
Definition serve {A} (m : M HS A) : M HS A := λ h,
  match m h with
  | (h, Ok a) => (h, Ok a)
  | (h, Err err) => (h, Err (ErrMsg (err_text err)))
  | (h, Crash _) => (h, Err (ErrMsg "method handler crashed"))
  end.

(** ** Other requests *)

Inductive PlainRequest :=
  | PChainId | PBlockNumber | PGasPrice
  | PGetBlockByNumber (number : Z) | PGetBlockByHash (hash : Hash)
  | PGetCode (address : Address) (blockNrOrHash : BlockNumberOrHash)
  | PTotalContractCount | PTotalTransactionCount | PLatestRollupHeader
  | PPublicTransactionData (pagination : QueryPagination) | PBatchListing (pagination : QueryPagination)
  | PBatchByHash (hash : Hash) | PBatchForTx (txHash : Hash) | PBlockHeaderByHash (hash : Hash)
  | PLatestTransactions (num : Z) | PAttestation | PConfig.

Inductive PlainResult :=
  | RNumber (n : Z) | RBatchHeader (header : BatchHeader) | RCode (code : bytes) | RRollupHeader (header : RollupHeader)
  | RTransactions (txs : list PublicTransaction * Z) | RBatches (l : list BatchHeader * Z) | RBatch (batch : ExtBatch)
  | RBlockHeader (header : L1Header) | RHashes (l : list Hash) | RAttestation (report : AttestationReport)
  | RConfig (info : Address * Hash * Address * Address).

Definition as_result {A} (f : A → PlainResult) (m : M HS A) : M HS PlainResult := a ← m; mret (f a).
(** [fuel] bounds the walk of [GetLatestTransactions]. *)
Definition plainAPI (fuel : nat) (req : PlainRequest) : M HS PlainResult :=
  match req with
  | PChainId => as_result RNumber eth_ChainId
  | PBlockNumber => as_result RNumber eth_BlockNumber
  | PGasPrice => as_result RNumber eth_GasPrice
  | PGetBlockByNumber number => as_result RBatchHeader (eth_GetBlockByNumber number)
  | PGetBlockByHash hash => as_result RBatchHeader (eth_GetBlockByHash hash)
  | PGetCode address blockNrOrHash => as_result RCode (eth_GetCode address blockNrOrHash)
  | PTotalContractCount => as_result RNumber scan_GetTotalContractCount
  | PTotalTransactionCount => as_result RNumber scan_GetTotalTransactionCount
  | PLatestRollupHeader => as_result RRollupHeader scan_GetLatestRollupHeader
  | PPublicTransactionData pagination => as_result RTransactions (scan_GetPublicTransactionData pagination)
  | PBatchListing pagination => as_result RBatches (scan_GetBatchListing pagination)
  | PBatchByHash hash => as_result RBatch (scan_GetBatchByHash hash)
  | PBatchForTx txHash => as_result RBatch (api_GetBatchForTx txHash)
  | PBlockHeaderByHash hash => as_result RBlockHeader (GetBlockHeaderByHash hash)
  | PLatestTransactions num => as_result RHashes (GetLatestTransactions fuel num)
  | PAttestation => as_result RAttestation scan_Attestation
  | PConfig => mret (RConfig ObscuroConfig)
  end.
End host.

(** ** The latest transactions *)

Section latest.
Context {W E : Type} `{Hashing, HB : HashBytes, HC : HostCodecs}.
Implicit Types (h : Host W E).

(** The batches from [hd] down to the genesis batch, by their transactions. *)
Inductive chain_from (db : KV) (hd : BatchHeader) : list (list Hash) → Prop :=
  | chain_genesis txs : GetBatchHeader (BatchHeader_Hash hd) db = Ok hd → GetBatchTxs (BatchHeader_Hash hd) db = Ok txs →
      Int.u64 (Number hd) = L2GenesisHeight → chain_from db hd [txs]
  | chain_batch txs p rest : GetBatchHeader (BatchHeader_Hash hd) db = Ok hd → GetBatchTxs (BatchHeader_Hash hd) db = Ok txs →
      Int.u64 (Number hd) ≠ L2GenesisHeight → ParentHash hd = BatchHeader_Hash p → chain_from db p rest → chain_from db hd (txs :: rest).

Lemma takeTxs_take num txs : ∀ acc, (length acc < num)%nat →
  takeTxs (Z.of_nat num) acc txs = (take num (acc ++ txs), bool_decide (num ≤ length (acc ++ txs))%nat).
Proof.
  induction txs as [|tx txs IH]; intros acc Hacc; cbn [takeTxs].
  - rewrite app_nil_r, take_ge, bool_decide_false by lia. done.
  - destruct (Z.leb_spec (Z.of_nat num) (Z.of_nat (length (acc ++ [tx])))) as [Hle|Hlt].
    + rewrite length_app in Hle. cbn in Hle. rewrite bool_decide_true by (rewrite length_app; cbn; lia).
      change (tx :: txs) with ([tx] ++ txs). rewrite app_assoc, take_app_length'; [done|]. rewrite length_app. cbn. lia.
    + rewrite IH by lia. by rewrite <-app_assoc.
Qed.

Lemma latestLoop_take db num hd l : chain_from db hd l → ∀ fuel acc h, (length l ≤ fuel)%nat → (length acc < num)%nat →
  rp_db (g_l2repo (ho_guardian h)) = db →
  latestLoop fuel (Z.of_nat num) (BatchHeader_Hash hd) acc h = (h, Ok (take num (acc ++ concat l))).
Proof.
  induction 1 as [hd txs Hhd Htxs Hn|hd txs p rest Hhd Htxs Hn Hp Hchain IH]; intros [|fuel] acc h Hfuel Hacc Hdb; cbn in Hfuel; try lia;
    cbn [latestLoop]; unfold wrap, host_DB, mbind, M_bind; rewrite Hdb, Hhd; cbn; rewrite Hdb, Htxs; cbn; rewrite takeTxs_take by done.
  - rewrite Hn, orb_true_r, app_nil_r. done.
  - rewrite (proj2 (Z.eqb_neq _ _)), orb_false_r by done. case_bool_decide as Hle.
    + by rewrite (app_assoc acc txs), (take_app_le (acc ++ txs)) by lia.
    + rewrite (take_ge (acc ++ txs)) by lia. rewrite Hp, IH, <-app_assoc by (done || lia). done.
Qed.

(** The newest transactions are returned, as many as were asked for or all there are; the
    walk ends at the genesis batch. *)
Theorem GetLatestTransactions_correct db num hd l fuel h : (1 ≤ num ≤ 100)%nat → rp_db (g_l2repo (ho_guardian h)) = db →
  GetHeadBatchHeader db = Ok hd → chain_from db hd l → (length l ≤ fuel)%nat →
  GetLatestTransactions fuel (Z.of_nat num) h = (h, Ok (take num (concat l))).
Proof.
  intros Hnum Hdb Hhd Hl Hfuel. unfold GetLatestTransactions, txLimit. rewrite (proj2 (Z.ltb_ge _ _)) by lia.
  unfold host_DB, mbind, M_bind. rewrite Hdb, Hhd. rewrite (latestLoop_take db num hd l) by (done || cbn; lia). done.
Qed.
End latest.
