(* ===== verification/EncClient.v ===== *)
(** * The client with a viewing key

    [go/rpc/encrypted_client.go]: the parameters of a sensitive request are encrypted
    for the enclave together with the viewing key of an account, and the answer is
    decrypted with the private key that belongs to it.  [go/rpc/client.go]: the
    methods.  The result of a call is an [interface{}], as the wallet extension has
    it. *)

From S2P Require Import Prelude Types Codec Bytes EnclaveDB Events Storage Executor Params ViewingKeys Subscriptions RPC HostAPI.
Local Open Scope Z_scope.

Definition rpc_Call : string := "eth_call".
Definition rpc_GetBalance : string := "eth_getBalance".
Definition rpc_GetTransactionByHash : string := "eth_getTransactionByHash".
Definition rpc_GetTransactionCount : string := "eth_getTransactionCount".
Definition rpc_GetTransactionReceipt : string := "eth_getTransactionReceipt".
Definition rpc_SendRawTransaction : string := "eth_sendRawTransaction".
Definition rpc_EstimateGas : string := "eth_estimateGas".
Definition rpc_GetLogs : string := "eth_getLogs".
Definition rpc_GetStorageAt : string := "eth_getStorageAt".
Definition rpc_Subscribe : string := "eth_subscribe".
Definition SubscriptionTypeLogs : string := "logs".

Definition SensitiveMethods : list string :=
  [rpc_Call; rpc_GetBalance; rpc_GetTransactionByHash; rpc_GetTransactionCount; rpc_GetTransactionReceipt;
   rpc_SendRawTransaction; rpc_EstimateGas; rpc_GetLogs; rpc_GetStorageAt].
Definition IsSensitiveMethod (method : string) : bool := bool_decide (method ∈ SensitiveMethods).

(** [rpc.Client]: go-ethereum's client of a host.  A call with encrypted parameters
    has an [EnclaveResponse] as result; [obscuro_Subscribe] gives the first message on
    the channel, or nothing when the subscription ends before.  [Dial] opens a
    connection. *)
Class Client (W : Type) := {
  Dial : M W unit;
  obscuro_Call : string → bytes → M W EnclaveResponse;
  plain_Call : string → list JSON → M W JSON;
  obscuro_Subscribe : JSON → bytes → M W (option IDAndEncLog)
}.

(** ECIES under the key of the enclave and with the private key of a viewing key, and
    the JSON a client writes and reads. *)
Class ClientCodecs := {
  enclave_Encrypt : bytes → option bytes;
  PublicKeyOf : bytes → bytes;
  vk_Decrypt : bytes → bytes → option bytes;
  json_args : list JSON → option bytes;
  (** [UserResponse[json.RawMessage]]: its result and its error *)
  unjson_UserResponse : bytes → option (option JSON * option string);
  unjson_EVM : string → option (string * option string * Z);
  unjson_logs : bytes → option (list Log);
  unjson_any : string → option JSON
}.

(** [hexutil.Encode] *)
Definition hexutil_Hex (b : bytes) : string := "0x" +:+ hex_EncodeToString b.

Record EncRPCClient := mkEncRPCClient {
  ec_viewingKey : ViewingKey;
  ec_PrivateKey : bytes
}.
Definition ec_Account (c : EncRPCClient) : Address := vk_Account (ec_viewingKey c).

(** The [result] argument of a call. *)
Inductive ResultArg := NilResult | NotAPointer | NilPointer | Pointer.
Definition assertResultIsPointer (res : ResultArg) : result unit :=
  match res with
  | NilResult | Pointer => Ok tt
  | NotAPointer => Crash "result MUST be a pointer else Call cannot populate it"
  | NilPointer => Crash "result pointer must be initialized else Call cannot populate it"
  end.

Section client.
Context {W : Type} `{Client W, CC : ClientCodecs, RC : ResponseCodecs, GE : GethEncoding, SC : SubscriptionCodecs}.
Implicit Types (c : EncRPCClient).

Definition encryptParamBytes (params : bytes) : result bytes :=
  of_option (ErrMsg "could not encrypt the request params with enclave public key") (enclave_Encrypt params).

(** Without arguments there is nothing to encrypt, not even the key. *)
Definition viewingKeyArg c : JSON :=
  JArray [JString (hexutil_Hex (vk_PublicKey (ec_viewingKey c))); JString (hexutil_Hex (vk_Signature (ec_viewingKey c)))].
Definition encryptArgs c (args : list JSON) : result bytes :=
  match args with
  | [] => Ok []
  | _ =>
      paramsJSON ← of_option (ErrMsg "could not json encode request params") (json_args (viewingKeyArg c :: args));
      encryptParamBytes paramsJSON
  end.

Definition decryptResponse c (encryptedBytes : bytes) : result bytes :=
  of_option (ErrMsg "could not decrypt bytes with viewing key") (vk_Decrypt (ec_PrivateKey c) encryptedBytes).

(** [responses.DecodeResponse] *)
Definition DecodeResponse (encoded : bytes) : result (option JSON) :=
  match unjson_UserResponse encoded with
  | None => Err (ErrMsg "json")
  | Some (_, Some errStr) => Err (ErrMsg (Errorf errStr))
  | Some (result, None) => Ok result
  end.

(** What is done with the decrypted answer; [None] leaves the result as it was. *)
Definition userResult (method : string) (decrypted : bytes) : result (option JSON) :=
  match DecodeResponse decrypted with
  | Err decodedError =>
      if String.eqb method rpc_EstimateGas || String.eqb method rpc_Call
      then match unjson_EVM (err_text decodedError) with
           | Some (msg, reason, code) => Err (ErrEVM msg reason code)
           | None => Err (ErrMsg "json")
           end
      else Err decodedError
  | r => r
  end.

Definition executeSensitiveCall c (wanted : bool) (method : string) (args : list JSON) : M W (option JSON) :=
  encryptedParams ← wrap "failed to encrypt args for call" (lift (encryptArgs c args));
  rawResult ← obscuro_Call method encryptedParams;
  if negb wanted then mret None
  else
    match resp_Err rawResult with
    | Some text => fail (ErrMsg (Errorf text))
    | None =>
        match EncUserResponse rawResult with
        | None | Some [] => fail ErrNilResponse
        | Some encUserResponse =>
            decrypted ← wrap "could not decrypt response for call" (lift (decryptResponse c encUserResponse));
            lift (userResult method decrypted)
        end
    end.

Definition CallContext c (res : ResultArg) (method : string) (args : list JSON) : M W (option JSON) :=
  _ ← lift (assertResultIsPointer res);
  if negb (IsSensitiveMethod method) then j ← plain_Call method args; mret (Some j)
  else executeSensitiveCall c (match res with NilResult => false | _ => true end) method args.

(** ** Subscriptions *)

Definition emptyFilter : LogFilter := mkFilter None None None [] [].
Definition filterOf (fc : FilterCriteria) : LogFilter :=
  mkFilter (fc_BlockHash fc) (fc_FromBlock fc) (fc_ToBlock fc) (fc_Addresses fc) (fc_Topics fc).
(** An empty list stands for a filter without conditions. *)
Definition filterParam (param : JSON) : result LogFilter :=
  match param with
  | JArray [] => Ok emptyFilter
  | _ => fc ← of_option (ErrMsg "could not unmarshal filter criteria from JSON") (json_filter param); Ok (filterOf fc)
  end.

(** The block hash is only replaced when a filter is given.  The handler of the key is
    made by the enclave. *)
Definition createAuthenticatedLogSubscription c (args : list JSON) : result LogSubscription :=
  let vk := ec_viewingKey c in
  let sub f := mkLogSubscription (ec_Account c) (vk_Signature vk) (vk_PublicKey vk) f (mkVKHandler []) in
  match args with
  | _ :: filter :: _ =>
      f ← filterParam filter;
      Ok (sub (mkFilter (Some (default EmptyHash (f_batch f))) (f_from f) (f_to f) (f_addresses f) (f_topics f)))
  | _ => Ok (sub emptyFilter)
  end.

(** [setResult] on an [interface{}] *)
Definition setResult (data : string) : JSON := default (JString data) (unjson_any data).
Definition setResultToSubID (first : option IDAndEncLog) : result JSON :=
  match first with
  | None => Err (ErrMsg "did not receive the initial subscription response with the subscription ID")
  | Some idAndEncLog =>
      if String.eqb (il_SubID idAndEncLog) "" || bool_decide (il_EncLog idAndEncLog ≠ None)
      then Err (ErrMsg "expected an initial subscription response with the subscription ID only")
      else Ok (setResult (il_SubID idAndEncLog))
  end.

(** The result is the identifier; the channel for the logs has the right type. *)
Definition ec_Subscribe c (args : list JSON) : M W JSON :=
  match args with
  | [] => fail (ErrMsg "subscription did not specify its type")
  | subscriptionType :: _ =>
      match subscriptionType with
      | JString t =>
          if String.eqb t SubscriptionTypeLogs
          then
            logSubscription ← lift (createAuthenticatedLogSubscription c args);
            encodedLogSubscription ← lift (EncodeToBytes logSubscription);
            encryptedParams ← wrap "failed to encrypt args for subscription" (lift (encryptParamBytes encodedLogSubscription));
            first ← obscuro_Subscribe subscriptionType encryptedParams;
            lift (setResultToSubID first)
          else fail (ErrMsg "only subscriptions of type logs are supported")
      | _ => fail (ErrMsg "only subscriptions of type logs are supported")
      end
  end.

(** A turn of [forwardLogs]: what is forwarded of one message; an error is logged. *)
Definition forwardLogs c (idAndEncLog : IDAndEncLog) : list (string * Log) :=
  match decryptResponse c (default [] (il_EncLog idAndEncLog)) with
  | Ok jsonLogs =>
      match unjson_logs jsonLogs with
      | Some logs => (λ decryptedLog, (il_SubID idAndEncLog, decryptedLog)) <$> logs
      | None => []
      end
  | _ => []
  end.
End client.

(** ** What a host promises to its clients

    While [I] holds of it, and it goes on to hold, what a client is shown as the
    result of a sensitive request satisfies [shown] of the client and the request. *)

Definition client_keys `{StorageCodecs, ClientCodecs} (c : EncRPCClient) : Prop :=
  vk_PublicKey (ec_viewingKey c) = CompressPubkey (PublicKeyOf (ec_PrivateKey c)).

Class HostPromise {W : Type} `{Client W, CC : ClientCodecs, RC : ResponseCodecs, ST : StorageCodecs}
    (I : W → Prop) (shown : EncRPCClient → string → list JSON → JSON → Prop) : Prop := {
  promise_dial : preserves I Dial;
  promise_plain : ∀ method args, preserves I (plain_Call method args);
  promise_subscribe : ∀ subscriptionType params, preserves I (obscuro_Subscribe subscriptionType params);
  promise_call : ∀ c method args, client_keys c → IsSensitiveMethod method = true →
    yields I (executeSensitiveCall c true method args) (λ r, ∀ j, r = Some j → shown c method args j)
}.
