(* ===== verification/EncClientSpec.v ===== *)
(** * From the client to the enclave

    A client with a viewing key, the API of the host, the RPC client of the host and
    the enclave, composed: what a client is shown is data of an account that signed
    the viewing key of the client, whatever faults the connections have. *)

From S2P Require Import Prelude Types Codec Bytes L1Chain EnclaveDB BatchDB Events Storage StorageInv StorageOps StorageSpec CrossChain BlockProcessor Reads Executor ExecutorSpec Growth Mempool Registry Params L2Chain RollupCompression RollupSpec Rollups Sequencer Validator SequencerSpec ViewingKeys Subscriptions Service RPC NodeInv RPCSpec HostDB Retry P2P StateTracker Converters EnclaveRPC BatchRepository L1Repository Publisher Guardian HostAPI EncClient.
Local Open Scope Z_scope.

(** ** Laws of the encodings *)

Definition asciiText (s : string) : bool := forallb (λ c, (Ascii.N_of_ascii c <? 128)%N) (String.list_ascii_of_string s).
(** Values that JSON keeps as they are: ASCII text and lists of it.  The order of the
    fields of an object is not kept, nor the digits of a large number. *)
Fixpoint flatJSON (j : JSON) : bool :=
  match j with
  | JNull | JBool _ => true
  | JNumber _ | JObject _ => false
  | JString s => asciiText s
  | JArray l => forallb flatJSON l
  end.

(** An object of such values keeps its fields, in some order. *)
Definition keptJSON (j j' : JSON) : Prop :=
  (flatJSON j = true → j' = j) ∧
  ∀ fs, j = JObject fs → forallb (λ f, asciiText f.1 && flatJSON f.2) fs = true → NoDup fs.*1 → ∃ fs', j' = JObject fs' ∧ fs' ≡ₚ fs.

(** The JSON value of an answer. *)
Class UserJSON := { json_data : UserData → JSON }.

Class ClientCodecsOk `{CC : ClientCodecs, VC : ViewingCrypto, GE : GethEncoding, RC : ResponseCodecs, ST : StorageCodecs, UJ : UserJSON} : Prop := {
  enclave_roundtrip : ∀ p e, enclave_Encrypt p = Some e → ecies_Decrypt e = Some p;
  decrypt_nil : ecies_Decrypt [] = None;
  vk_roundtrip : ∀ k b e, ecies_Encrypt (PublicKeyOf k) b = Some e → vk_Decrypt k e = Some b ∧ e ≠ [];
  args_roundtrip : ∀ l b, json_args l = Some b → ∃ l', json_params b = Some l' ∧ Forall2 keptJSON l l';
  result_roundtrip : ∀ x b, json_response (inl x) = Some b → b ≠ [] ∧ unjson_UserResponse b = Some (Some (json_data x), None);
  error_roundtrip : ∀ t b, json_response (inr t) = Some b → b ≠ [] ∧ ∃ t', unjson_UserResponse b = Some (None, Some t');
  hexutil_roundtrip : ∀ b, Forall (λ x, 0 <= x < 256) b → hexutil_Decode (hexutil_Hex b) = Some b;
  compressed_bytes : ∀ k, Forall (λ x, 0 <= x < 256) (CompressPubkey (PublicKeyOf k))
}.

(** What a request for the balance and its answer need is encoded. *)
Class Encodes `{CC : ClientCodecs, VC : ViewingCrypto, RC : ResponseCodecs, RCC : RPCCodecs} : Prop := {
  encodes_args : ∀ key sig texts, is_Some (json_args (JArray [JString key; JString sig] :: (JString <$> texts)));
  encodes_params : ∀ b, is_Some (enclave_Encrypt b);
  encodes_user : ∀ key b, is_Some (ecies_Encrypt key b);
  encodes_response : ∀ x, is_Some (json_response x);
  encodes_answer : ∀ r, is_Some (json_EnclaveResponse r)
}.

(** The JSON of an answer of the enclave keeps what is encrypted in it, and whether it
    has an error; a text that is not ASCII may be replaced. *)
Class AnswersKept `{RPCCodecs} : Prop :=
  answers_kept : ∀ r x r', json_EnclaveResponse r = Some x → unjson_EnclaveResponse x = Some r' →
    EncUserResponse r' = EncUserResponse r ∧ (resp_Err r' = None ↔ resp_Err r = None).

(** *** The key in the parameters *)

Lemma string_get_in i s c : String.get i s = Some c → c ∈ String.list_ascii_of_string s.
Proof. revert i. induction s as [|c' s IH]; intros [|i] Hi; cbn in *; simplify_eq; [by left|right; eauto]. Qed.

Lemma asciiText_app a b : asciiText (a +:+ b) = asciiText a && asciiText b.
Proof.
  induction a as [|c a IH]; [done|]. change (asciiText (String c (a +:+ b)) = asciiText (String c a) && asciiText b).
  unfold asciiText in *. cbn [String.list_ascii_of_string forallb]. by rewrite IH, andb_assoc.
Qed.

Lemma hexDigit_ascii n : asciiText (hexDigit n) = true.
Proof.
  unfold hexDigit. destruct (String.get _ _) as [c|] eqn:Hc; [|done]. apply string_get_in in Hc.
  assert (Forall (λ c, (Ascii.N_of_ascii c <? 128)%N = true) (String.list_ascii_of_string "0123456789abcdef")) as Hall by (by repeat constructor).
  rewrite Forall_forall in Hall. cbn. by rewrite (Hall c Hc).
Qed.

Lemma hex_ascii b : asciiText (hexutil_Hex b) = true.
Proof.
  unfold hexutil_Hex. rewrite asciiText_app. apply andb_true_intro. split; [done|].
  induction b as [|x b IH]; [done|]. cbn [hex_EncodeToString]. by rewrite !asciiText_app, !hexDigit_ascii, IH.
Qed.

Section keys.
Context `{CCO : ClientCodecsOk, KE : Keccak, !StorageCodecsOk}.
Implicit Types (c : EncRPCClient).

(** What the enclave decodes begins with the viewing key of the client. *)
Lemma encryptArgs_decode c args params l : encryptArgs c args = Ok params → decodeRequest params = Ok l →
  args ≠ [] ∧ ∃ l', l = viewingKeyArg c :: l' ∧ Forall2 keptJSON args l'.
Proof.
  unfold encryptArgs, encryptParamBytes, decodeRequest, of_option, DecodeParamBytes. result_unfold.
  destruct args as [|arg args]; [intros [= <-]; by rewrite decrypt_nil|].
  destruct (json_args _) as [b|] eqn:Hb; [|done]. destruct (enclave_Encrypt b) as [e|] eqn:He; [|done]. intros [= <-].
  rewrite (enclave_roundtrip _ _ He). destruct (args_roundtrip _ _ Hb) as (l'&Hl'&Hall). unfold of_option. rewrite Hl'. intros [= <-].
  split; [done|]. inversion Hall as [|j j' js js' Hj Hjs]; subst. exists js'. split; [|done]. f_equal. apply (proj1 Hj).
  cbn. by rewrite !hex_ascii.
Qed.

Lemma createVKHandler_client c a h : client_keys c → createVKHandler a (viewingKeyArg c) = Ok h →
  publicViewingKey h = PublicKeyOf (ec_PrivateKey c).
Proof.
  intros Hc. unfold createVKHandler, ExtractViewingKey, viewingKeyArg, decodeVK. rewrite Hc.
  rewrite (hexutil_roundtrip _ (compressed_bytes _)). result_unfold. cbn [of_option wrapR].
  destruct (hexutil_Decode _) as [sig|]; [|done]. cbn [of_option wrapR]. unfold New, wrapR. result_unfold.
  destruct (of_option _ (RecoverAddress _ _)); [|done..]. destruct (of_option _ (RecoverAddress (GenerateSignMessage _) _)); [|done..].
  destruct (_ && _); [done|]. rewrite Decompress_Compress. cbn. by intros [= <-].
Qed.

(** A key that its account signed is taken. *)
Lemma createVKHandler_signed c a : client_keys c → Forall (λ x, 0 <= x < 256) (vk_Signature (ec_viewingKey c)) →
  RecoverAddress (GenerateSignMessageOG (vk_PublicKey (ec_viewingKey c)) a) (vk_Signature (ec_viewingKey c)) = Some a →
  is_Some (RecoverAddress (GenerateSignMessage (vk_PublicKey (ec_viewingKey c))) (vk_Signature (ec_viewingKey c))) →
  createVKHandler a (viewingKeyArg c) = Ok (mkVKHandler (PublicKeyOf (ec_PrivateKey c))).
Proof.
  intros Hc Hsig Hog [leg Hleg]. unfold createVKHandler, ExtractViewingKey, viewingKeyArg, decodeVK.
  rewrite (hexutil_roundtrip _ Hsig), Hc, (hexutil_roundtrip _ (compressed_bytes _)). result_unfold. cbn [of_option wrapR].
  unfold New. rewrite Hc in Hog, Hleg. rewrite Hog, Hleg. result_unfold. cbn [of_option].
  rewrite (bool_decide_false (a ≠ a)) by congruence. cbn [andb]. by rewrite Decompress_Compress.
Qed.

(** An answer under the key of a client is read by this client. *)
Lemma decrypt_answer c x h enc : publicViewingKey h = PublicKeyOf (ec_PrivateKey c) →
  EncUserResponse (encryptUserResponse x h) = Some enc → enc ≠ [] ∧ ∃ plain, json_response x = Some plain ∧ decryptResponse c enc = Ok plain.
Proof.
  intros Hh. unfold encryptUserResponse, Encrypt, of_option. destruct (json_response x) as [plain|] eqn:Hp; [|done].
  assert (plain ≠ []) as Hne by (destruct x; [by apply result_roundtrip in Hp as []|by apply error_roundtrip in Hp as []]).
  rewrite bool_decide_false by (by intros ->%nil_length_inv). rewrite Hh.
  destruct (ecies_Encrypt _ plain) as [e|] eqn:He; [|done]. intros [= <-]. apply vk_roundtrip in He as [Hd Hne'].
  split; [done|]. exists plain. split; [done|]. unfold decryptResponse. by rewrite Hd.
Qed.

Lemma userResult_data method x plain j : json_response x = Some plain → userResult method plain = Ok (Some j) →
  ∃ y, x = inl y ∧ j = json_data y.
Proof.
  intros Hp. unfold userResult, DecodeResponse. destruct x as [y|t].
  - apply result_roundtrip in Hp as [_ ->]. intros [= <-]. eauto.
  - apply error_roundtrip in Hp as (_&t'&->). destruct (_ || _); [|done]. by destruct (unjson_EVM _) as [[[? ?] ?]|].
Qed.
End keys.

(** ** The host behind the client *)

Create HintDb host.

Section wired.
Context {E : Type} `{EnclaveAPI E, HB : HashBytes, AB : AddressBytes, HC : HostCodecs, RCC : RPCCodecs, AK : !AnswersKept}.
Context (J : E → Prop).
Abbreviation behind w := (J (w_enclave (E:=E) w)).

Lemma call_yields {A} (m : M E A) Q : yields J m Q → yields (λ w, behind w) (call m) Q.
Proof.
  intros Hm w Hw. unfold call. destruct (Hm (w_enclave w) Hw) as [He HQ].
  destruct (head (w_link w)) as [[| |]|]; try (by split); destruct (w_alive w); try (by split);
    destruct (m (w_enclave w)) as [e [a|err|cr]]; by split.
Qed.

Lemma request_yields req params Q : yields J (api_request req params) Q →
  yields (λ w, behind w) (client_request req params)
    (λ r', ∃ r, Q r ∧ EncUserResponse r' = EncUserResponse r ∧ (resp_Err r' = None ↔ resp_Err r = None)).
Proof.
  intros Hm. assert (yields (λ w, behind w) (receive (server_request req params) ToEnclaveResponse)
    (λ r', ∃ r, Q r ∧ EncUserResponse r' = EncUserResponse r ∧ (resp_Err r' = None ↔ resp_Err r = None))) as Hr; [|by destruct req].
  apply (yields_seq _ _ _ (λ x, match x with inl b => ∃ r, Q r ∧ json_EnclaveResponse r = Some b | inr _ => True end)).
  - intros w Hw. unfold NewRPCError.
    assert (yields (λ w, behind w) (call (server_request req params))
      (λ x, match x with inl b => ∃ r, Q r ∧ json_EnclaveResponse r = Some b | inr _ => True end)) as Hcall.
    { apply call_yields. unfold server_request, respond. eapply yields_seq; [apply yields_try, Hm|]. intros [r|err] Hr; [|by apply yields_ret].
      eapply yields_seq; [apply (yields_lift _ _ (λ b, json_EnclaveResponse r = Some b)); unfold Encode; intros b Hb; by destruct (json_EnclaveResponse r); simplify_eq|].
      intros b Hb. apply yields_ret. eauto. }
    destruct (Hcall w Hw) as [Hw' HQ]. by destruct (call _ w) as [w' [a|err|cr]].
  - intros [b|err]; [|intros _; apply yields_fail]. intros (r&Hr&Hb). apply yields_lift. intros r' Hr'. exists r. split; [done|].
    unfold ToEnclaveResponse in Hr'. destruct (unjson_EnclaveResponse b) as [r0|] eqn:Hu; [|done]. injection Hr' as ->. by eapply answers_kept.
Qed.

Lemma receive_keeps {A B B'} (m : M E A) (k : A → result B) (k' : B → result B') :
  preserves J m → preserves (λ w, behind w) (receive (respond m k) k').
Proof.
  intros Hm. unfold receive. apply preserves_bind.
  - intros w Hw. unfold NewRPCError. assert (yields J (respond m k) (λ _, True)) as Hr.
    { apply preserves_yields. apply preserves_bind; [by apply preserves_try|]. intros [a|err]; [|apply preserves_ret].
      apply preserves_bind; [apply preserves_lift|intros; apply preserves_ret]. }
    destruct (call_yields _ _ Hr w Hw) as [Hw' _]. by destruct (call (respond m k) w) as [w' [a|err|cr]].
  - intros [a|err]; [apply preserves_lift|apply preserves_fail].
Qed.
End wired.

Section host.
Context {C : Type} `{CacheOk C, StateModel, StorageCodecsOk, HashingOk, MB : MessageBus}.
Context `{OW : !OwnerWallet, KE : Keccak, EV : !EVM, EVOK : !EVMOk, CS : !Codec (list Z), RollupCodecs, BlobServices, Signatures}.
Context `{MgmtABI, AT : !Attestations, CE : !Codec ExtRollup, VC : ViewingCrypto, SubscriptionCodecs}.
Context `{GE : GethEncoding, CL : !Calls, TF : TxFields, RC : ResponseCodecs}.
Context (fuel : nat) (cfg : EnclaveConfig) (AuthSender : L2Tx → option Address) (iterate : Mempool.t → list L2Tx) (mc : Machine).
Context {W : Type} `{L1Sender W, HC : HostCodecs, PC : P2PCodecs, RCC : RPCCodecs, AK : !AnswersKept}.
Context (hostData : Identity) (pcfg : P2PConfig).
Context `{CC : ClientCodecs, UJ : UserJSON, CCO : !ClientCodecsOk}.
(** Requests that are not sensitive, as go-ethereum's server decodes them, and the JSON
    of the results; the identifier of a new subscription. *)
Context (config : HostConfig) (decodePlain : string → list JSON → option PlainRequest) (json_plainResult : PlainResult → option JSON).
Context (newID : Host W (Wired (Service C)) → string).

#[local] Instance behind_service : EnclaveAPI (Service C) := service_api fuel cfg AuthSender iterate mc.
Abbreviation HS := (Host W (Wired (Service C))).
Implicit Types (h : HS).

(** Over a connection to the host that delivers. *)
#[export] Instance host_client : Client HS := {|
  Dial := mret tt;
  obscuro_Call method params :=
    match sensitiveAPI hostData pcfg method with
    | Some api => serve (api params)
    | None => fail (ErrMsg "the method does not exist/is not available")
    end;
  plain_Call method args :=
    match decodePlain method args with
    | Some req => serve (r ← plainAPI config fuel req; lift (of_option (ErrMsg "json") (json_plainResult r)))
    | None => fail (ErrMsg "the method does not exist/is not available")
    end;
  obscuro_Subscribe subscriptionType params := λ h,
    let id := newID h in
    match serve (filter_Logs (Some id) (Ok tt) params) h with
    | (h', Ok id) => (h', Ok (Some (mkIDAndEncLog id None)))
    | (h', Err err) => (h', Err err)
    | (h', Crash c) => (h', Crash c)
    end
|}.

(** The enclave behind the host has the database [d] and the states [tr]; the subscriptions are left open,
    for clients add to them. *)
Definition serves (d : DB) (tr : gmap Hash EState) h : Prop := ∃ subs, rests d tr subs (w_enclave (g_enclave (ho_guardian h))).

Abbreviation waits d tr := (λ w : Wired (Service C), ∃ subs, rests d tr subs (w_enclave w)).

Lemma EnclaveClient_yields {A} d tr (client : M (Wired (Service C)) A) Q :
  yields (waits d tr) client Q → yields (serves d tr) (EnclaveClient client) Q.
Proof.
  intros Hm. apply (yields_zoom ho_guardian _ (λ g : Guardian W (Wired (Service C)), waits d tr (g_enclave g))); [done|by intros ? ?|].
  intros g Hg. by apply (yields_zoom g_enclave set_enclave (waits d tr) (λ g : Guardian W (Wired (Service C)), waits d tr (g_enclave g))).
Qed.

(** An answer as the client of the host has it. *)
Definition answer (d : DB) (tr : gmap Hash EState) (req : Request) (params : bytes) (r : EnclaveResponse) : Prop :=
  EncUserResponse r = None ∨
  ∃ l a vkh x, decodeRequest params = Ok l ∧ entitled d req l a ∧ keyed l a vkh ∧ told cfg AuthSender d tr a req l x ∧
    EncUserResponse r = EncUserResponse (encryptUserResponse x vkh).

Lemma handle_answer d tr req params : yields (waits d tr) (client_request req params) (answer d tr req params).
Proof.
  eapply yields_mono; [apply (request_yields (λ sv, ∃ subs, rests d tr subs sv) req params (discreet cfg AuthSender d tr req params))|].
  - intros sv [subs Hsv]. destruct (handle_discreet cfg AuthSender d tr subs fuel req params sv Hsv) as [Hr HQ].
    split; [by exists subs|exact HQ].
  - intros r' (r&[Hn|(l&a&vkh&x&Hl&Ha&Hk&Hx&->)]&Henc&_); [left; congruence|]. right. exists l, a, vkh, x. by split_and!.
Qed.

Lemma serve_yields {A} (I : HS → Prop) (m : M HS A) Q : yields I m Q → yields I (serve m) Q.
Proof. intros Hm h Hh. destruct (Hm h Hh) as [Hh' HQ]. unfold serve. by destruct (m h) as [h' [a|err|c]]. Qed.

Lemma orSysError_answer d tr req params m : yields (serves d tr) m (answer d tr req params) → yields (serves d tr) (orSysError m) (answer d tr req params).
Proof.
  intros Hm. unfold orSysError. eapply yields_seq; [apply yields_try, Hm|]. intros [r|err] Hr; apply yields_ret; [done|by left].
Qed.

Lemma enclave_answer d tr req params : yields (serves d tr) (EnclaveClient (api_request req params)) (answer d tr req params).
Proof. apply EnclaveClient_yields. exact (handle_answer d tr req params). Qed.

Lemma submit_answer d tr params : yields (serves d tr) (SubmitAndBroadcastTx hostData pcfg params) (answer d tr RSubmitTx params).
Proof.
  intros h Hh. unfold SubmitAndBroadcastTx, unless_host_stopping. destruct (host_IsStopping h); [done|]. revert h Hh.
  apply (yields_seq _ _ _ (answer d tr RSubmitTx params)); [apply enclave_answer|]. intros r Hr.
  destruct (resp_Err r); [by apply yields_ret|]. apply (yields_seq _ _ _ (λ _, True)); [|intros _ _; by apply yields_ret].
  apply preserves_yields, preserves_when, preserves_wrap. intros h Hh. unfold on_host_p2p, on_guardian, on_l2repo, on_p2p, zoom.
  by destruct (SendTxToSequencer _ _ _) as [p' r'].
Qed.

(** The request of the enclave that a method is. *)
Definition requestOf (method : string) : option Request :=
  if String.eqb method rpc_Call then Some RObsCall
  else if String.eqb method rpc_GetBalance then Some RGetBalance
  else if String.eqb method rpc_GetTransactionByHash then Some RGetTransaction
  else if String.eqb method rpc_GetTransactionCount then Some RGetTransactionCount
  else if String.eqb method rpc_GetTransactionReceipt then Some RGetTransactionReceipt
  else if String.eqb method rpc_SendRawTransaction then Some RSubmitTx
  else if String.eqb method rpc_EstimateGas then Some REstimateGas
  else if String.eqb method rpc_GetLogs then Some RGetLogs
  else if String.eqb method rpc_GetStorageAt then Some RGetCustomQuery
  else None.

Lemma sensitive_answer d tr method api params : sensitiveAPI hostData pcfg method = Some api →
  ∃ req, requestOf method = Some req ∧ yields (serves d tr) (api params) (answer d tr req params).
Proof.
  unfold sensitiveAPI, requestOf, rpc_Call, rpc_GetBalance, rpc_GetTransactionByHash, rpc_GetTransactionCount, rpc_GetTransactionReceipt,
    rpc_SendRawTransaction, rpc_EstimateGas, rpc_GetLogs, rpc_GetStorageAt.
  repeat match goal with |- context [if ?b then _ else _] => destruct b end; intros Hapi; simplify_eq; eexists; (split; [reflexivity|]);
    first [apply orSysError_answer, enclave_answer | apply orSysError_answer, submit_answer | apply enclave_answer].
Qed.

(** What a client is shown of a request: data for an account that signed the key of the
    client, of the request that the method names, with the parameters as JSON keeps them. *)
Definition disclosed (d : DB) (tr : gmap Hash EState) (c : EncRPCClient) (method : string) (args : list JSON) (j : JSON) : Prop :=
  ∃ req l a x, requestOf method = Some req ∧ Forall2 keptJSON args l ∧ entitled d req (viewingKeyArg c :: l) a ∧
    authorised a (PublicKeyOf (ec_PrivateKey c)) ∧ told cfg AuthSender d tr a req (viewingKeyArg c :: l) (inl x) ∧ j = json_data x.

Lemma sensitive_disclosed d tr c method args : client_keys c →
  yields (serves d tr) (executeSensitiveCall c true method args) (λ r, ∀ j, r = Some j → disclosed d tr c method args j).
Proof.
  intros Hc. unfold executeSensitiveCall.
  eapply yields_seq; [by apply yields_wrap, (yields_lift _ _ (λ p, encryptArgs c args = Ok p))|]. intros params Hparams.
  apply (yields_seq _ _ _ (λ r, ∃ req, requestOf method = Some req ∧ answer d tr req params r)).
  { cbn [obscuro_Call host_client]. destruct (sensitiveAPI hostData pcfg method) as [api|] eqn:Hapi; [|apply yields_fail].
    destruct (sensitive_answer d tr method api params Hapi) as (req&Hof&Hreq). apply serve_yields. eapply yields_mono; [exact Hreq|]. eauto. }
  intros r (req&Hof&Hr). cbn [negb]. destruct (resp_Err r); [apply yields_fail|].
  destruct Hr as [->|(l&a&vkh&x&Hl&Ha&Hk&Hx&Henc)]; [apply yields_fail|].
  destruct (encryptArgs_decode _ _ _ _ Hparams Hl) as (_&l'&->&Hkept).
  pose proof (createVKHandler_client c a vkh Hc Hk) as Hkey. rewrite Henc.
  destruct (EncUserResponse (encryptUserResponse x vkh)) as [enc|] eqn:He; [|apply yields_fail].
  destruct (decrypt_answer c x vkh enc Hkey He) as (Hne&plain&Hplain&Hdec). destruct enc as [|b enc]; [done|]. rewrite Hdec.
  eapply yields_seq; [by apply yields_wrap, (yields_lift _ _ (λ p, p = plain)); intros ? [= <-]|]. intros ? ->.
  apply yields_lift. intros o Ho j ->. destruct (userResult_data _ _ _ _ Hplain Ho) as (y&->&->).
  exists req, l', a, y. split_and!; [done|done|done| |done|done]. rewrite <-Hkey. by eapply keyed_authorised.
Qed.

(** *** Requests that are not sensitive *)

Abbreviation rested d tr := (λ sv : Service C, ∃ subs, rests d tr subs sv).

Lemma on_database_keeps {A} d tr (m : M (Storage C) A) : preserves (reading d tr) m → preserves (rested d tr) (on_database m).
Proof. intros Hm sv [subs Hsv]. exists subs. by apply (on_database_yields d tr subs m _ (preserves_yields _ m Hm)). Qed.

Lemma unless_stopping_keeps {A} d tr msg (m : M (Service C) A) : preserves (rested d tr) m → preserves (rested d tr) (unless_stopping msg m).
Proof. intros Hm sv Hsv. unfold unless_stopping. destruct (sv_stopping sv); [done|by apply Hm]. Qed.

Lemma GetCode_keeps d tr a batchHash : preserves (rested d tr) (enclave_GetCode a batchHash).
Proof.
  apply unless_stopping_keeps. apply preserves_bind; [|intros; apply preserves_ret].
  apply preserves_ToInternalError, preserves_wrap, on_database_keeps, still_CreateStateDB.
Qed.

Lemma on_subscriptions_keeps {A} d tr (m : M Subscriptions A) : preserves (rested d tr) (on_subscriptions m).
Proof.
  intros sv (subs&Hs&_). unfold on_subscriptions, zoom. destruct (m (sv_subscriptions sv)) as [subs' r]. by exists subs'.
Qed.

Lemma listing_keeps d tr pagination : preserves (rested d tr) (enclave_GetPublicTransactionData pagination).
Proof.
  apply unless_stopping_keeps. apply preserves_bind; [|intros]; [apply preserves_ToInternalError, preserves_wrap, on_database_keeps, still_query|].
  apply preserves_bind; [apply preserves_ToInternalError, preserves_wrap, on_database_keeps, still_query|intros; apply preserves_ret].
Qed.

Lemma Attestation_keeps d tr key report : preserves (rested d tr) (Attestation key report).
Proof.
  apply unless_stopping_keeps. destruct key; [|apply preserves_fail]. apply preserves_ToInternalError, preserves_wrap, preserves_lift.
Qed.

(** A call of the enclave over RPC. *)
Lemma client_keeps {A B B'} d tr (m : M (Service C) A) (k : A → result B) (k' : B → result B') :
  preserves (rested d tr) m → preserves (serves d tr) (EnclaveClient (receive (respond m k) k')).
Proof.
  intros Hm. assert (yields (serves d tr) (EnclaveClient (receive (respond m k) k')) (λ _, True)) as Hy; [|by intros h Hh; apply Hy].
  apply EnclaveClient_yields, preserves_yields, (receive_keeps (rested d tr)), Hm.
Qed.

Lemma host_DB_keeps {A} (d : DB) (tr : gmap Hash EState) (q : KV → result A) : preserves (serves d tr) (host_DB q).
Proof. by intros h Hh. Qed.
#[local] Hint Resolve host_DB_keeps preserves_ret preserves_fail preserves_crash preserves_lift preserves_bind preserves_try preserves_wrap : host.

Lemma batchNumberToBatchHash_keeps (d : DB) (tr : gmap Hash EState) n : preserves (serves d tr) (batchNumberToBatchHash n).
Proof. unfold batchNumberToBatchHash. repeat case_bool_decide; auto with host. Qed.

Lemma latestLoop_keeps (d : DB) (tr : gmap Hash EState) n : ∀ num hash txs, preserves (serves d tr) (latestLoop n num hash txs).
Proof.
  induction n as [|n IH]; intros num hash txs; [apply preserves_crash|]. cbn [latestLoop].
  apply preserves_bind; [auto with host|]. intros hd. apply preserves_bind; [auto with host|]. intros l.
  destruct (takeTxs num txs l) as [txs' b]. destruct (_ || _); [apply preserves_ret|apply IH].
Qed.

Lemma as_result_keeps {A} (d : DB) (tr : gmap Hash EState) (f : A → PlainResult) (m : M HS A) : preserves (serves d tr) m → preserves (serves d tr) (as_result f m).
Proof. intros Hm. apply preserves_bind; [done|]. intros a. apply preserves_ret. Qed.

Lemma eth_GetCode_keeps (d : DB) (tr : gmap Hash EState) a nr : preserves (serves d tr) (eth_GetCode a nr).
Proof.
  unfold eth_GetCode. apply preserves_bind.
  - destruct (bn_Number nr); [|apply preserves_ret]. apply preserves_bind; [apply preserves_wrap, batchNumberToBatchHash_keeps|intros; apply preserves_ret].
  - intros o. destruct (match bn_Hash nr with Some _ => _ | None => _ end); [|apply preserves_fail].
    apply preserves_bind; [apply preserves_try, client_keeps|intros [?|?]; auto with host].
    apply preserves_bind; [apply GetCode_keeps|intros; apply preserves_ret].
Qed.

Lemma plainAPI_keeps (d : DB) (tr : gmap Hash EState) n req : preserves (serves d tr) (plainAPI config n req).
Proof.
  destruct req; cbn [plainAPI]; [apply as_result_keeps..|]; try solve [apply host_DB_keeps | apply preserves_ret].
  - apply preserves_bind; [apply preserves_try, host_DB_keeps|intros; apply preserves_ret].
  - apply preserves_bind; [apply preserves_wrap, batchNumberToBatchHash_keeps|intros; apply host_DB_keeps].
  - apply eth_GetCode_keeps.
  - apply client_keeps, unless_stopping_keeps, on_database_keeps, still_query.
  - apply client_keeps, listing_keeps.
  - repeat (apply preserves_bind; [apply preserves_wrap, host_DB_keeps|intros]). apply host_DB_keeps.
  - apply preserves_bind; [apply preserves_try, host_DB_keeps|]. intros [?|?]; [apply preserves_ret|destruct (errors_Is _ _); apply preserves_fail].
  - unfold GetLatestTransactions. destruct (_ <? _); [apply preserves_fail|]. apply preserves_bind; [apply host_DB_keeps|].
    intros hd. apply latestLoop_keeps.
  - apply client_keeps, Attestation_keeps.
Qed.

Lemma filter_Logs_keeps (d : DB) (tr : gmap Hash EState) id params : preserves (serves d tr) (filter_Logs (Some id) (Ok tt) params).
Proof.
  unfold filter_Logs. apply preserves_bind.
  - apply preserves_wrap. intros h Hh. unfold host_Subscribe, unless_host_stopping. destruct (host_IsStopping h); [done|].
    apply (preserves_bind (serves d tr)); [apply preserves_wrap, client_keeps|by intros _ h' Hh'|done].
    apply unless_stopping_keeps, on_subscriptions_keeps.
  - intros _. apply preserves_bind; [by intros h Hh|intros; apply preserves_ret].
Qed.

(** The host keeps its promise. *)
#[export] Instance host_promise (d : DB) (tr : gmap Hash EState) : HostPromise (serves d tr) (disclosed d tr).
Proof.
  split.
  - apply preserves_ret.
  - intros method args. cbn [plain_Call host_client]. destruct (decodePlain method args) as [req|]; [|apply preserves_fail].
    intros h Hh. apply (serve_yields (serves d tr) _ (λ _, True)); [|done]. apply preserves_yields, preserves_bind; [apply plainAPI_keeps|].
    intros r. apply preserves_lift.
  - intros ty params h Hh. cbn [obscuro_Subscribe host_client].
    destruct (serve_yields (serves d tr) (filter_Logs (Some (newID h)) (Ok tt) params) (λ _, True)
      (preserves_yields _ _ (filter_Logs_keeps d tr (newID h) params)) h Hh) as [Hh' _].
    by destruct (serve _ h) as [h' [id|err|c]].
  - intros c method args Hc _. by apply sensitive_disclosed.
Qed.

(** ** The balance of an account *)

Context `{EN : !Encodes, RCO : !RPCCodecsOk}.

Lemma texts_kept texts l : forallb asciiText texts = true → Forall2 keptJSON (JString <$> texts) l → l = JString <$> texts.
Proof.
  revert l. induction texts as [|t ts IH]; intros l Hascii Hl; inversion Hl as [|? j' ? js Hj Hjs]; subst; [done|].
  cbn [forallb] in Hascii. apply andb_prop in Hascii as [Ht Hts]. cbn [fmap list_fmap]. f_equal; [by apply (proj1 Hj)|by apply IH].
Qed.

Lemma encryptArgs_texts c texts : texts ≠ [] → forallb asciiText texts = true → ∃ params,
  encryptArgs c (JString <$> texts) = Ok params ∧ decodeRequest params = Ok (viewingKeyArg c :: (JString <$> texts)).
Proof.
  intros Hne Hascii. destruct texts as [|t ts]; [done|].
  unfold encryptArgs. cbn [fmap list_fmap]. change (JString t :: (JString <$> ts)) with (JString <$> t :: ts).
  destruct (encodes_args (hexutil_Hex (vk_PublicKey (ec_viewingKey c))) (hexutil_Hex (vk_Signature (ec_viewingKey c))) (t :: ts)) as [b Hb].
  unfold viewingKeyArg. rewrite Hb. cbn [of_option]. result_unfold. unfold encryptParamBytes.
  destruct (encodes_params b) as [e He]. rewrite He. exists e. split; [done|].
  unfold decodeRequest, of_option, DecodeParamBytes. rewrite (enclave_roundtrip _ _ He). result_unfold.
  destruct (args_roundtrip _ _ Hb) as (l'&Hl'&Hall). unfold of_option. rewrite Hl'. cbn. f_equal.
  inversion Hall as [|j j' js js' Hj Hjs]; subst. f_equal; [apply (proj1 Hj); cbn; by rewrite !hex_ascii|].
  by apply (texts_kept (t :: ts)).
Qed.

Lemma GetBalance_run sv params vk txt num n owner bal s' vkh : sv_stopping sv = false →
  decodeRequest params = Ok [vk; JString txt; JString num] → isBlank txt = false → UnmarshalBlockNumber num = Some n →
  chain_GetBalance (HexToAddress txt) n (e_storage (sv_enclave sv)) = (s', Ok (owner, bal)) → createVKHandler owner vk = Ok vkh →
  ∃ sv', enclave_GetBalance params sv = (sv', Ok (AsEncryptedResponse (UBalance bal) vkh)).
Proof.
  intros Hstop Hdec Hblank Hn Hbal Hvk. unfold enclave_GetBalance, unless_stopping. rewrite Hstop.
  unfold or_plain, with_key, or_plain, lift, try, mbind, M_bind, mret, M_ret. rewrite Hdec. cbn [ExtractAddress ExtractBlockNumber]. rewrite Hblank, Hn.
  cbn [of_option]. unfold on_database, on_enclave, zoom. rewrite on_storage_run, Hbal. cbn. rewrite Hvk. by eexists.
Qed.

(** An answer under the key of a client, as it is sent. *)
Lemma encrypted_answer x vkh k : publicViewingKey vkh = PublicKeyOf k → ∃ e0 e plain,
  AsEncryptedResponse x vkh = mkEnclaveResponse (Some (e0 :: e)) None ∧ vk_Decrypt k (e0 :: e) = Some plain ∧
  unjson_UserResponse plain = Some (Some (json_data x), None).
Proof.
  intros Hkey. destruct (encodes_response (inl x)) as [plain Hplain]. destruct (result_roundtrip _ _ Hplain) as [Hne Hun].
  destruct (encodes_user (PublicKeyOf k) plain) as [e He]. destruct (vk_roundtrip _ _ _ He) as [Hdec Hene].
  destruct e as [|e0 e]; [done|]. exists e0, e, plain. split; [|done].
  unfold AsEncryptedResponse, encryptUserResponse, Encrypt. rewrite Hplain, bool_decide_false, Hkey by (by intros ->%nil_length_inv).
  by rewrite He.
Qed.

(** An answer of the enclave reaches the host. *)
Lemma request_delivered req params sv sv' x vkh k : publicViewingKey vkh = PublicKeyOf k →
  RPC.handle cfg AuthSender fuel req params sv = (sv', Ok (AsEncryptedResponse x vkh)) →
  client_request req params (up sv) = (up sv', Ok (AsEncryptedResponse x vkh)).
Proof.
  intros Hkey Hrun. destruct (encrypted_answer x vkh k Hkey) as (e0&e&plain&Hresp&_). destruct (encodes_answer (AsEncryptedResponse x vkh)) as [b Hb].
  assert (receive (server_request req params) ToEnclaveResponse (up sv) = (up sv', Ok (AsEncryptedResponse x vkh))) as Hrec; [|by destruct req].
  unfold server_request. rewrite receive_respond. cbn [api_request behind_service service_api]. rewrite Hrun. unfold Encode. rewrite Hb.
  rewrite (json_back (AsEncryptedResponse x vkh) b); [done| |done]. by rewrite Hresp.
Qed.

(** An answer of the host reaches the client. *)
Lemma call_delivered c method api args params h h' x vkh :
  sensitiveAPI (W:=W) (E:=Wired (Service C)) hostData pcfg method = Some api → encryptArgs c args = Ok params →
  publicViewingKey vkh = PublicKeyOf (ec_PrivateKey c) → api params h = (h', Ok (AsEncryptedResponse x vkh)) →
  executeSensitiveCall c true method args h = (h', Ok (Some (json_data x))).
Proof.
  intros Hapi Hparams Hkey Hrun. destruct (encrypted_answer x vkh _ Hkey) as (e0&e&plain&Hresp&Hdec&Hun).
  unfold executeSensitiveCall. rewrite Hparams. unfold wrap, lift, mbind, M_bind. cbn [obscuro_Call host_client]. rewrite Hapi.
  unfold serve. rewrite Hrun, Hresp. cbn. unfold decryptResponse. rewrite Hdec. cbn. unfold userResult, DecodeResponse. by rewrite Hun.
Qed.

(** The methods that only pass the request on. *)
Lemma passed_on req params h sv sv' x vkh k : publicViewingKey vkh = PublicKeyOf k → g_enclave (ho_guardian h) = up sv →
  RPC.handle cfg AuthSender fuel req params sv = (sv', Ok (AsEncryptedResponse x vkh)) →
  ∃ h', EnclaveClient (api_request req params) h = (h', Ok (AsEncryptedResponse x vkh)) ∧
    g_l2repo (ho_guardian h') = g_l2repo (ho_guardian h).
Proof.
  intros Hkey Henc Hrun. unfold EnclaveClient, on_guardian, on_enclave_client, zoom. cbn [api_request client_api].
  rewrite Henc, (request_delivered req params sv sv' x vkh k Hkey Hrun). by eexists.
Qed.

(** The balance of an account, asked for by a client the account signed for. *)
Lemma balance_delivered c a txt num n bal s' h sv : client_keys c → Forall (λ x, 0 <= x < 256) (vk_Signature (ec_viewingKey c)) →
  RecoverAddress (GenerateSignMessageOG (vk_PublicKey (ec_viewingKey c)) a) (vk_Signature (ec_viewingKey c)) = Some a →
  is_Some (RecoverAddress (GenerateSignMessage (vk_PublicKey (ec_viewingKey c))) (vk_Signature (ec_viewingKey c))) →
  g_enclave (ho_guardian h) = up sv → sv_stopping sv = false →
  asciiText txt = true → isBlank txt = false → HexToAddress txt = a → asciiText num = true → UnmarshalBlockNumber num = Some n →
  chain_GetBalance a n (e_storage (sv_enclave sv)) = (s', Ok (a, bal)) →
  ∃ h', CallContext c Pointer rpc_GetBalance [JString txt; JString num] h = (h', Ok (Some (json_data (UBalance bal)))).
Proof.
  intros Hc Hsig Hog Hleg Henc Hstop Htxt Hblank Ha Hnum Hn Hbal.
  destruct (encryptArgs_texts c [txt; num]) as (params&Hparams&Hdec); [done|cbn; by rewrite Htxt, Hnum|].
  pose proof (createVKHandler_signed c a Hc Hsig Hog Hleg) as Hvk. subst a.
  destruct (GetBalance_run sv params _ txt num n _ bal s' _ Hstop Hdec Hblank Hn Hbal Hvk) as [sv' Hrun].
  unfold CallContext. cbn [assertResultIsPointer]. unfold lift, mbind, M_bind.
  change (IsSensitiveMethod rpc_GetBalance) with true. cbn [negb].
  match type of Hrun with _ = (_, Ok (AsEncryptedResponse _ ?vkh)) =>
    destruct (passed_on RGetBalance params h sv sv' (UBalance bal) vkh (ec_PrivateKey c) eq_refl Henc Hrun) as (h'&Hh'&_);
    exists h'; apply (call_delivered c rpc_GetBalance _ _ params h h' (UBalance bal) vkh eq_refl Hparams eq_refl) end.
  unfold eth_GetBalance, orSysError, try, mbind, M_bind. by rewrite Hh'.
Qed.

(** ** Transactions *)

Lemma SubmitTx_run (sv : Service C) params vk txBinary tx a vkh : sv_stopping sv = false →
  decodeRequest params = Ok [vk; JString txBinary] → ExtractTx txBinary = Ok tx → Sender tx = Some a → createVKHandler a vk = Ok vkh →
  IsSyntheticTransaction tx = false → checkGas cfg tx = Ok tt →
  (NodeRole cfg = SequencerNode → is_Some (AuthSender tx)) →
  ∃ sv' : Service C, SubmitTx cfg AuthSender params sv = (sv', Ok (AsEncryptedResponse (URawTx (Hash_Hex (tx_hash tx))) vkh)) ∧
    e_mempool (sv_enclave sv') = match NodeRole cfg with
                                 | SequencerNode => <[tx_hash tx := tx]> (e_mempool (sv_enclave sv))
                                 | ValidatorNode => e_mempool (sv_enclave sv)
                                 end.
Proof.
  intros Hstop Hdec Htx Hsender Hvk Hsyn Hgas Hauth. unfold SubmitTx, unless_stopping. rewrite Hstop.
  unfold or_plain, with_key, or_plain, lift, try, mbind, M_bind, mret, M_ret. rewrite Hdec, Htx. cbn [of_option]. rewrite Hsender, Hvk, Hsyn, Hgas.
  unfold on_enclave, zoom, service_SubmitTransaction. destruct (NodeRole cfg).
  - destruct Hauth as [s Hauth]; [done|]. unfold sequencer_SubmitTransaction, on_mempool, zoom, Mempool.AddMempoolTx. rewrite Hauth. by eexists.
  - by eexists.
Qed.

Context `{PCO : !P2PCodecsOk, PE : !P2PEncodes}.

(** A transaction that the enclave of a validator accepts is sent to the sequencer. *)
Lemma SubmitAndBroadcastTx_run params h sv sv' x vkh k sequencer peers : host_IsStopping h = false →
  publicViewingKey vkh = PublicKeyOf k → g_enclave (ho_guardian h) = up sv →
  RPC.handle cfg AuthSender fuel RSubmitTx params sv = (sv', Ok (AsEncryptedResponse x vkh)) →
  hd_IsSequencer hostData = false → isSequencer pcfg = false → calm (g_l2repo (ho_guardian h)) →
  peerAddresses (rp_p2p (g_l2repo (ho_guardian h))) = sequencer :: peers →
  ∃ h' m, SubmitAndBroadcastTx hostData pcfg params h = (h', Ok (AsEncryptedResponse x vkh)) ∧
    sent (g_l2repo (ho_guardian h')) = sent (g_l2repo (ho_guardian h)) ++ [(sequencer, m)] ∧
    rlp_encode (mkP2PMessage (ourPublicAddress pcfg) msgTypeTx params) = Some m.
Proof.
  intros Hstop Hkey Henc Hrun Hval Hnot Hcalm Hpeers.
  assert (resp_Err (AsEncryptedResponse x vkh) = None) as Hresp by (by destruct (encrypted_answer x vkh k Hkey) as (?&?&?&->&_)).
  destruct (passed_on RSubmitTx params h sv sv' x vkh k Hkey Henc Hrun) as (h1&Hh1&Hrepo).
  destruct (encodes_message (mkP2PMessage (ourPublicAddress pcfg) msgTypeTx params)) as [m Hm].
  unfold SubmitAndBroadcastTx, unless_host_stopping. rewrite Hstop. unfold enclaves_SubmitAndBroadcastTx.
  rewrite (bind_eq _ _ _ _ _ Hh1), Hresp, Hval. cbn [negb when].
  assert (SendTxToSequencer pcfg params (rp_p2p (g_l2repo (ho_guardian h1))) =
    (arrived sequencer m (rp_p2p (g_l2repo (ho_guardian h1))), Ok tt)) as Hsend.
  { unfold SendTxToSequencer. rewrite Hnot. unfold wrap, getSequencer, mbind, M_bind. rewrite Hrepo, Hpeers. by apply send_calm. }
  unfold wrap, on_host_p2p, on_guardian, on_l2repo, on_p2p, zoom, mbind, M_bind. rewrite Hsend. cbn.
  eexists _, m. split_and!; [reflexivity| |done]. unfold sent. cbn. by rewrite Hrepo.
Qed.

(** A transaction of an account, sent by a client the account signed for. *)
Lemma transaction_delivered c a txt tx h sv sequencer peers : client_keys c → Forall (λ x, 0 <= x < 256) (vk_Signature (ec_viewingKey c)) →
  RecoverAddress (GenerateSignMessageOG (vk_PublicKey (ec_viewingKey c)) a) (vk_Signature (ec_viewingKey c)) = Some a →
  is_Some (RecoverAddress (GenerateSignMessage (vk_PublicKey (ec_viewingKey c))) (vk_Signature (ec_viewingKey c))) →
  g_enclave (ho_guardian h) = up sv → sv_stopping sv = false → NodeRole cfg = ValidatorNode →
  asciiText txt = true → ExtractTx txt = Ok tx → Sender tx = Some a → IsSyntheticTransaction tx = false → checkGas cfg tx = Ok tt →
  host_IsStopping h = false → hd_IsSequencer hostData = false → isSequencer pcfg = false → calm (g_l2repo (ho_guardian h)) →
  peerAddresses (rp_p2p (g_l2repo (ho_guardian h))) = sequencer :: peers →
  ∃ h' m params, CallContext c Pointer rpc_SendRawTransaction [JString txt] h = (h', Ok (Some (json_data (URawTx (Hash_Hex (tx_hash tx)))))) ∧
    sent (g_l2repo (ho_guardian h')) = sent (g_l2repo (ho_guardian h)) ++ [(sequencer, m)] ∧
    rlp_encode (mkP2PMessage (ourPublicAddress pcfg) msgTypeTx params) = Some m ∧ decodeRequest params = Ok [viewingKeyArg c; JString txt].
Proof.
  intros Hc Hsig Hog Hleg Henc Hstop Hrole Htxt Htx Hsender Hsyn Hgas Hhost Hval Hnot Hcalm Hpeers.
  destruct (encryptArgs_texts c [txt]) as (params&Hparams&Hdec); [done|cbn; by rewrite Htxt|].
  pose proof (createVKHandler_signed c a Hc Hsig Hog Hleg) as Hvk.
  destruct (SubmitTx_run sv params _ txt tx a _ Hstop Hdec Htx Hsender Hvk Hsyn Hgas ltac:(by rewrite Hrole)) as (sv'&Hrun&_).
  destruct (SubmitAndBroadcastTx_run params h sv sv' _ (mkVKHandler (PublicKeyOf (ec_PrivateKey c))) (ec_PrivateKey c) sequencer peers Hhost eq_refl Henc Hrun Hval Hnot Hcalm Hpeers)
    as (h'&m&Hh'&Hsent&Hm).
  exists h', m, params. split_and!; [|done..]. unfold CallContext. cbn [assertResultIsPointer]. unfold lift, mbind, M_bind.
  change (IsSensitiveMethod rpc_SendRawTransaction) with true. cbn [negb].
  apply (call_delivered c rpc_SendRawTransaction _ _ params h h' _ (mkVKHandler (PublicKeyOf (ec_PrivateKey c))) eq_refl Hparams eq_refl).
  unfold eth_SendRawTransaction, orSysError, try, mbind, M_bind. by rewrite Hh'.
Qed.

(** A sequencer that is sent the transaction has it in its mempool. *)
Lemma transaction_heard c a txt tx params m sender self (g : Guardian W (Wired (Service C))) sv : client_keys c →
  Forall (λ x, 0 <= x < 256) (vk_Signature (ec_viewingKey c)) →
  RecoverAddress (GenerateSignMessageOG (vk_PublicKey (ec_viewingKey c)) a) (vk_Signature (ec_viewingKey c)) = Some a →
  is_Some (RecoverAddress (GenerateSignMessage (vk_PublicKey (ec_viewingKey c))) (vk_Signature (ec_viewingKey c))) →
  g_enclave g = up sv → sv_stopping sv = false → NodeRole cfg = SequencerNode → isSequencer pcfg = true →
  decodeRequest params = Ok [viewingKeyArg c; JString txt] → rlp_encode (mkP2PMessage sender msgTypeTx params) = Some m →
  ExtractTx txt = Ok tx → Sender tx = Some a → IsSyntheticTransaction tx = false → checkGas cfg tx = Ok tt → is_Some (AuthSender tx) →
  Subscribers (txSubscribers (rp_p2p (g_l2repo g))) = [self] →
  started (P2P.handle pcfg m (rp_p2p (g_l2repo g))) = started (rp_p2p (g_l2repo g)) ++ [CallHandleTransaction self params] ∧
  ∃ g' sv', HandleTransaction params g = (g', Ok tt) ∧ g_enclave g' = up sv' ∧
    e_mempool (sv_enclave sv') = <[tx_hash tx := tx]> (e_mempool (sv_enclave sv)).
Proof.
  intros Hc Hsig Hog Hleg Henc Hstop Hrole Hseq Hdec Hm Htx Hsender Hsyn Hgas Hauth Hself. split.
  { unfold P2P.handle. rewrite (decodes _ _ Hm). cbn. rewrite Hseq. cbn. by rewrite Hself. }
  pose proof (createVKHandler_signed c a Hc Hsig Hog Hleg) as Hvk.
  destruct (SubmitTx_run sv params _ txt tx a _ Hstop Hdec Htx Hsender Hvk Hsyn Hgas (λ _, Hauth)) as (sv'&Hrun&Hpool).
  rewrite Hrole in Hpool. unfold HandleTransaction, on_enclave_client, zoom, try, mbind, M_bind. cbn [api_request client_api].
  rewrite Henc, (request_delivered RSubmitTx params sv sv' _ (mkVKHandler (PublicKeyOf (ec_PrivateKey c))) (ec_PrivateKey c) eq_refl Hrun). by eexists _, sv'.
Qed.
End host.
