(* ===== verification/AccountManager.v ===== *)
(** * Which account asks

    [tools/walletextension/accountmanager/account_manager.go]: the accounts of one
    user, each with a client of its own; for every request the client is chosen from
    the call message, or the clients are tried one after the other.
    [useraccountmanager/user_account_manager.go]: the account managers by user. *)

From S2P Require Import Prelude Types Codec Bytes EnclaveDB Events Storage Executor Params ViewingKeys Subscriptions RPC HostAPI EncClient.
Local Open Scope Z_scope.

Record RPCRequest := mkRPCRequest {
  rq_ID : JSON;
  rq_Method : string;
  rq_Params : list JSON
}.
Definition Clone (r : RPCRequest) : RPCRequest := mkRPCRequest (rq_ID r) (rq_Method r) (rq_Params r).
Definition set_Params (params : list JSON) (r : RPCRequest) : RPCRequest := mkRPCRequest (rq_ID r) (rq_Method r) params.

(** [accountClients]; a client may be a nil pointer. *)
Abbreviation AccountManager := (gmap Address (option EncRPCClient)).
Definition NewAccountManager : AccountManager := ∅.
Definition AddClient (address : Address) (client : option EncRPCClient) (m : AccountManager) : AccountManager := <[address := client]> m.

(** [Address.Hex], with the checksum in the case of the digits *)
Class AddressText := { Address_Hex : Address → string }.

Definition ethCallPaddedArgLen : nat := 64.
Definition ethCallAddrPadding : string := "000000000000000000000000".

(** A key of a Go map that was decoded from JSON: there is one entry at most. *)
Fixpoint fieldOf (name : string) (fields : list (string * JSON)) : option JSON :=
  match fields with
  | [] => None
  | (k, v) :: fields => if String.eqb k name then Some v else fieldOf name fields
  end.

(** [strings.HasPrefix] and [s[n:]] *)
Definition HasPrefix (s pre : string) : bool := String.prefix pre s.
Definition dropString (n : nat) (s : string) : string := String.substring n (String.length s - n) s.

Section manager.
Context {W : Type} `{Client W, CC : ClientCodecs, RC : ResponseCodecs, GE : GethEncoding, SC : SubscriptionCodecs, AddressText}.
(** The order in which the map is iterated. *)
Context (iterate : AccountManager → list (Address * option EncRPCClient)).
Implicit Types (m : AccountManager) (req : RPCRequest).

(** ** The choice of a client *)

(** The values of a request come from JSON: a byte slice is not among them. *)
Definition parseParams (args : list JSON) : result (list (string * JSON)) :=
  match args with
  | [] => Err (ErrMsg "no params found to unmarshal")
  | JObject params :: _ => Ok params
  | _ => Err (ErrMsg "first arg was not a byte array")
  end.

Definition checkForFromField (paramsMap : list (string * JSON)) m : option (option EncRPCClient) :=
  match fieldOf "from" paramsMap with
  | Some (JString fromStr) => m !! HexToAddress fromStr
  | _ => None
  end.

(** The arguments of 64 digits each; a shorter rest is left out. *)
Definition dataArgsOf (dataString : string) : list string :=
  (λ i, String.substring (i * ethCallPaddedArgLen) ethCallPaddedArgLen dataString)
    <$> seq 0 (String.length dataString / ethCallPaddedArgLen).
Fixpoint findAccount m (dataArgs : list string) : option Address :=
  match dataArgs with
  | [] => None
  | dataArg :: dataArgs =>
      if negb (HasPrefix dataArg ethCallAddrPadding) then findAccount m dataArgs
      else
        let maybeAddress := HexToAddress (dropString (String.length ethCallAddrPadding) dataArg) in
        match m !! maybeAddress with
        | Some _ => Some maybeAddress
        | None => findAccount m dataArgs
        end
  end.
Definition searchDataFieldForAccount (callParams : list (string * JSON)) m : result Address :=
  match fieldOf "data" callParams with
  | None | Some JNull => Err (ErrMsg "eth_call request did not have its `data` field set")
  | Some (JString dataString) =>
      if (String.length dataString <? 10)%nat
      then Err (ErrMsg "data field is not long enough - no known account found in data bytes")
      else of_option (ErrMsg "no known account found in data bytes") (findAccount m (dataArgsOf (dropString 10 dataString)))
  | Some _ => Err (ErrMsg "eth_call request's `data` field was not of the expected type `string`")
  end.

(** [None] is nil. *)
Definition suggestFromParams req m : option EncRPCClient :=
  match parseParams (rq_Params req) with
  | Ok paramsMap =>
      if String.eqb (rq_Method req) rpc_Call then
        match checkForFromField paramsMap m with
        | Some fromClient => fromClient
        | None =>
            match searchDataFieldForAccount paramsMap m with
            | Ok addr => default None (m !! addr)
            | _ => None
            end
        end
      else None
  | _ => None
  end.
(** The only client is taken for every request. *)
Definition suggestAccountClient req m : option EncRPCClient :=
  match iterate m with
  | [(_, client)] => client
  | _ => suggestFromParams req m
  end.

(** ** Calls *)

(** Addresses are written with their checksum. *)
Definition setFromFieldIfMissing (args : list JSON) (account : Address) : result (list JSON) :=
  match args with
  | [] => Err (ErrMsg "no params found to unmarshal")
  | arg :: rest =>
      let zeroHex := Address_Hex (HexToAddress "0x0") in
      callMsg ← wrapR "unable to marshal callMsg" (ExtractEthCallMapString zeroHex arg);
      if bool_decide (callMsg !! "from" ≠ Some zeroHex) then Ok args
      else Ok (JObject ((λ '(k, v), (k, JString v)) <$> map_to_list (<["from" := Address_Hex account]> callMsg)) :: rest)
  end.

(** A nil client is dereferenced. *)
Definition submitCall (client : option EncRPCClient) req : M W (option JSON) :=
  match client with
  | None => crash "nil client"
  | Some c =>
      req ← (if String.eqb (rq_Method req) rpc_Call || String.eqb (rq_Method req) rpc_EstimateGas
             then params ← lift (setFromFieldIfMissing (rq_Params req) (ec_Account c)); mret (set_Params params (Clone req))
             else mret req);
      let req := if String.eqb (rq_Method req) rpc_GetLogs
                 then set_Params (rq_Params req ++ [JString (Address_Hex (ec_Account c))]) (Clone req) else req in
      CallContext c Pointer (rq_Method req) (rq_Params req)
  end.

(** [err] is the error of the client before. *)
Fixpoint tryClients (clients : list (Address * option EncRPCClient)) req (err : GoError) : M W (option JSON) :=
  match clients with
  | [] => fail err
  | (_, client) :: clients =>
      r ← try (submitCall client req);
      match r with
      | inl rpcResp => mret rpcResp
      | inr err => if errors_Is err ErrNilResponse then mret None else tryClients clients req err
      end
  end.

Definition ErrNoViewingKey : GoError := ErrMsg "method cannot be called with an unauthorised client - no signed viewing keys found".

Definition executeCall req m : M W (option JSON) :=
  match suggestAccountClient req m with
  | Some suggestedClient => submitCall (Some suggestedClient) req
  | None =>
      if (0 <? size m)%nat then tryClients (iterate m) req ErrNotFound
      else if IsSensitiveMethod (rq_Method req) then fail ErrNoViewingKey
      else j ← plain_Call (rq_Method req) (rq_Params req); mret (Some j)
  end.

(** ** Subscriptions *)

(** The first topic is the signature of the event. *)
Fixpoint findTopicClient m (topics : list Hash) : option (option EncRPCClient) :=
  match topics with
  | [] => None
  | topic :: topics =>
      match ExtractPotentialAddress topic with
      | Some potentialAddr =>
          match m !! potentialAddr with
          | Some cl => Some cl
          | None => findTopicClient m topics
          end
      | None => findTopicClient m topics
      end
  end.
Definition suggestSubscriptionClient req m : result (list (option EncRPCClient)) :=
  let clients := (iterate m).*2 in
  match rq_Params req with
  | _ :: filter :: _ =>
      f ← filterParam filter;
      match findTopicClient m (concat (tail (f_topics f))) with
      | Some cl => Ok [cl]
      | None => Ok clients
      end
  | _ => Ok clients
  end.

(** What the goroutines do with the messages of the subscription is [forwardLogs] and
    [prepareLogResponse]. *)
Definition executeSubscribe (client : option EncRPCClient) req : M W (option JSON) :=
  match rq_Params req with
  | [] => fail (ErrMsg "could not subscribe as no subscription namespace was provided")
  | params =>
      match client with
      | Some c => id ← wrap "could not call with params. Cause:" (ec_Subscribe c params); mret (Some id)
      | None =>
          match params with
          | JString t :: _ => if String.eqb t SubscriptionTypeLogs then crash "nil client"
                              else fail (ErrWrap "could not call with params. Cause:" (ErrMsg "only subscriptions of type logs are supported"))
          | _ => fail (ErrWrap "could not call with params. Cause:" (ErrMsg "only subscriptions of type logs are supported"))
          end
      end
  end.

(** Only the first of the clients is subscribed; without one the request is a call. *)
Definition ProxyRequest req m : M W (option JSON) :=
  if String.eqb (rq_Method req) rpc_Subscribe
  then
    clients ← lift (suggestSubscriptionClient req m);
    match clients with
    | client :: _ => executeSubscribe client req
    | [] => executeCall req m
    end
  else executeCall req m.

(** The JSON of a log is [log]. *)
Definition prepareLogResponse (subID : string) (log : JSON) : JSON :=
  JObject [("jsonrpc", JString "2.0"); ("method", JString "eth_subscription");
           ("params", JObject [("subscription", JString subID); ("result", log)])].
End manager.

(** ** The managers of the users *)

Abbreviation UserAccountManager := (gmap string AccountManager).
Definition AddAndReturnAccountManager (userID : string) (u : UserAccountManager) : UserAccountManager :=
  match u !! userID with
  | Some _ => u
  | None => <[userID := NewAccountManager]> u
  end.
Definition GetUserAccountManager (userID : string) (u : UserAccountManager) : result AccountManager :=
  of_option (ErrMsg "UserAccountManager doesn't exist for user") (u !! userID).
Definition DeleteUserAccountManager (userID : string) (u : UserAccountManager) : UserAccountManager * result unit :=
  match u !! userID with
  | Some _ => (delete userID u, Ok tt)
  | None => (u, Err (ErrMsg "no UserAccountManager exists for userID"))
  end.
