(* ===== verification/WalletExtension.v ===== *)
(** * The wallet extension

    [tools/walletextension]: users join and get a viewing key, register accounts by
    signing a message, and send requests of Ethereum's API, which the accounts of the
    user answer.  [storage/database/sqlite.go] and [mariadb.go]: what is kept of users
    and accounts; [wallet_extension.go] and [common/common.go]: the operations;
    [container/walletextension_container.go]: what is loaded at the start;
    [api/routes.go]: the handlers of requests. *)

From S2P Require Import Prelude Types Codec Bytes EnclaveDB Events Storage Executor Params ViewingKeys Subscriptions RPC HostAPI EncClient AccountManager.
Local Open Scope Z_scope.

(** ** The database

    The tables [users] and [accounts]; a statement fails as [gs_faults] says, and then
    changes nothing; the ones after the last fault succeed. *)

Record AccountRow := mkAccountRow { ar_user_id : bytes; ar_account_address : bytes; ar_signature : bytes }.
Record GatewayDB := mkGatewayDB {
  gs_users : gmap bytes bytes;
  gs_accounts : list AccountRow;
  gs_faults : list (option GoError)
}.

Section database.
(** Whether the connection enforces foreign keys: SQLite has a pragma for it, which
    is set on one connection of the pool.  The order of the rows of a query. *)
Context (enforced : bool).
Context (scanUsers : list (bytes * bytes) → list (bytes * bytes)) (scanAccounts : list AccountRow → list AccountRow).
Implicit Types (d : GatewayDB).

Definition gw_statement {A} (f : GatewayDB → GatewayDB * result A) : M GatewayDB A := λ d,
  match gs_faults d with
  | Some err :: faults => (mkGatewayDB (gs_users d) (gs_accounts d) faults, Err err)
  | l => f (mkGatewayDB (gs_users d) (gs_accounts d) (tail l))
  end.

(** A row of [users] is deleted with the accounts that refer to it. *)
Definition deleteUserRow (userID : bytes) d : GatewayDB :=
  mkGatewayDB (delete userID (gs_users d))
    (match gs_users d !! userID with
     | Some _ => if enforced then filter (λ r, ar_user_id r ≠ userID) (gs_accounts d) else gs_accounts d
     | None => gs_accounts d
     end) (gs_faults d).

(** [INSERT OR REPLACE] deletes the row that is there. *)
Definition db_AddUser (userID privateKey : bytes) : M GatewayDB unit :=
  gw_statement (λ d, let d := deleteUserRow userID d in
                  (mkGatewayDB (<[userID := privateKey]> (gs_users d)) (gs_accounts d) (gs_faults d), Ok tt)).
Definition db_DeleteUser (userID : bytes) : M GatewayDB unit := gw_statement (λ d, (deleteUserRow userID d, Ok tt)).
Definition db_GetUserPrivateKey (userID : bytes) : M GatewayDB bytes :=
  gw_statement (λ d, (d, of_option ErrNotFound (gs_users d !! userID))).
Definition db_AddAccount (userID accountAddress signature : bytes) : M GatewayDB unit :=
  gw_statement (λ d,
    if enforced && negb (bool_decide (is_Some (gs_users d !! userID)))
    then (d, Err (ErrMsg "FOREIGN KEY constraint failed"))
    else (mkGatewayDB (gs_users d) (gs_accounts d ++ [mkAccountRow userID accountAddress signature]) (gs_faults d), Ok tt)).
Definition db_GetAccounts (userID : bytes) : M GatewayDB (list AccountRow) :=
  gw_statement (λ d, (d, Ok (scanAccounts (filter (λ r, ar_user_id r = userID) (gs_accounts d))))).
Definition db_GetAllUsers : M GatewayDB (list (bytes * bytes)) :=
  gw_statement (λ d, (d, Ok (scanUsers (map_to_list (gs_users d))))).
End database.

(** ** The message a user signs

    [^Register\s(\w+)\sfor\s(\w+)$]: words and white space have no character in
    common, so there is one way to match. *)

Definition isWordChar (c : Ascii.ascii) : bool :=
  let n := Z.of_N (Ascii.N_of_ascii c) in
  (48 <=? n) && (n <=? 57) || (65 <=? n) && (n <=? 90) || (n =? 95) || (97 <=? n) && (n <=? 122).
(** [\s] is one of tab, newline, form feed, carriage return and space. *)
Definition isRegexSpace (c : Ascii.ascii) : bool :=
  let n := Z.of_N (Ascii.N_of_ascii c) in (n =? 9) || (n =? 10) || (n =? 12) || (n =? 13) || (n =? 32).

Fixpoint spanWord (s : string) : string * string :=
  match s with
  | String c s' => if isWordChar c then let '(w, rest) := spanWord s' in (String c w, rest) else (EmptyString, s)
  | EmptyString => (EmptyString, EmptyString)
  end.
Fixpoint stripPrefix (pre s : string) : option string :=
  match pre, s with
  | EmptyString, _ => Some s
  | String a pre, String b s => if Ascii.eqb a b then stripPrefix pre s else None
  | String _ _, EmptyString => None
  end.
Definition stripSpace (s : string) : option string :=
  match s with String c s => if isRegexSpace c then Some s else None | EmptyString => None end.
Definition matchWord (s : string) : option (string * string) :=
  match spanWord s with (EmptyString, _) => None | r => Some r end.
Definition authenticateMessageRegex (message : string) : option (string * string) :=
  s ← stripPrefix "Register" message;
  s ← stripSpace s;
  '(userID, s) ← matchWord s;
  s ← stripSpace s;
  s ← stripPrefix "for" s;
  s ← stripSpace s;
  '(address, s) ← matchWord s;
  match s with EmptyString => Some (userID, address) | _ => None end.

Definition GetUserIDAndAddressFromMessage (message : string) : result (string * string) :=
  of_option (ErrMsg "invalid message format") (authenticateMessageRegex message).

Definition MessageUserIDLen : nat := 64.
Definition SignatureLen : nat := 65.
Definition DefaultUser : bytes := ascii_bytes "defaultUser".
Definition hexDefaultUser : string := hex_EncodeToString DefaultUser.
Definition GetUserIDbyte (userID : string) : result bytes :=
  of_option (ErrMsg "encoding/hex: invalid byte") (hex_DecodeString userID).

(** [ecdsa.Verify] of a message with the key that is recovered from the signature *)
Class SignatureCheck := { ecdsa_Verify : string → bytes → bool }.

(** The extension; [gw_host] is what its clients are connected to.  A viewing key that
    is not signed yet has an empty signature. *)
Record Gateway (W : Type) := mkGateway {
  gw_managers : UserAccountManager;
  gw_unsignedVKs : gmap Address EncRPCClient;
  gw_storage : GatewayDB;
  gw_host : W
}.
Arguments mkGateway {W}.
Arguments gw_managers {W}.
Arguments gw_unsignedVKs {W}.
Arguments gw_storage {W}.
Arguments gw_host {W}.

(** How the extension answers: the handlers write errors and responses. *)
Inductive Reply := ReplyError (msg : string) | ReplyJSON (response : JSON) | ReplyText (text : string).

Section gateway.
Context {W : Type} `{Client W, CC : ClientCodecs, RC : ResponseCodecs, GE : GethEncoding, SC : SubscriptionCodecs, AddressText}.
Context `{VC : ViewingCrypto, KE : Keccak, ST : StorageCodecs, SG : SignatureCheck}.
Context (iterate : AccountManager → list (Address * option EncRPCClient)) (enforced : bool).
Context (scanUsers : list (bytes * bytes) → list (bytes * bytes)) (scanAccounts : list AccountRow → list AccountRow).
(** The code and the data of an error of go-ethereum's client. *)
Context (gethError : GoError → option (Z * option JSON)).
Abbreviation GW := (Gateway W).

Definition upd_managers (f : UserAccountManager → UserAccountManager) (g : GW) : GW :=
  mkGateway (f (gw_managers g)) (gw_unsignedVKs g) (gw_storage g) (gw_host g).
Definition upd_unsigned (f : gmap Address EncRPCClient → gmap Address EncRPCClient) (g : GW) : GW :=
  mkGateway (gw_managers g) (f (gw_unsignedVKs g)) (gw_storage g) (gw_host g).
Definition on_gateway_db {A} (m : M GatewayDB A) : M GW A :=
  zoom gw_storage (λ d g, mkGateway (gw_managers g) (gw_unsignedVKs g) d (gw_host g)) m.
Definition on_gateway_host {A} (m : M W A) : M GW A :=
  zoom gw_host (λ w g, mkGateway (gw_managers g) (gw_unsignedVKs g) (gw_storage g) w) m.

(** ** Clients ([common.go]) *)

Definition PrivateKeyToCompressedPubKey (prvKey : bytes) : bytes := CompressPubkey (PublicKeyOf prvKey).
Definition BytesToPrivateKey (keyBytes : bytes) : result bytes :=
  of_option (ErrMsg "unable to convert bytes to ECDSA private key") (ToECDSA keyBytes).
Definition CalculateUserID (publicKeyBytes : bytes) : bytes := Hash_Bytes (Keccak256Hash publicKeyBytes).

Definition CreateEncClient (addressBytes privateKeyBytes signature : bytes) : M GW EncRPCClient :=
  privateKey ← wrap "unable to convert bytes to ecies private key:" (lift (BytesToPrivateKey privateKeyBytes));
  let address := Bytes.BytesToAddress addressBytes in
  let vk := mkViewingKey address (PrivateKeyToCompressedPubKey privateKey) signature in
  _ ← wrap "unable to create EncRPCClient:" (on_gateway_host Dial);
  mret (mkEncRPCClient vk privateKey).

(** ** Viewing keys of the default user *)

(** [newKey] is what [crypto.GenerateKey] returned. *)
Definition GenerateViewingKey (addr : Address) (newKey : result bytes) : M GW string :=
  viewingKeyPrivate ← wrap "unable to generate a new keypair" (lift newKey);
  let viewingPublicKeyBytes := PrivateKeyToCompressedPubKey viewingKeyPrivate in
  _ ← modify (upd_unsigned (<[addr := mkEncRPCClient (mkViewingKey addr viewingPublicKeyBytes []) viewingKeyPrivate]>));
  mret (hex_EncodeToString viewingPublicKeyBytes).

Definition signKey (signature : bytes) (c : EncRPCClient) : EncRPCClient :=
  mkEncRPCClient (mkViewingKey (ec_Account c) (vk_PublicKey (ec_viewingKey c)) signature) (ec_PrivateKey c).
(** The key is shared with the client an earlier attempt made from it. *)
Definition signShared (address : Address) (signature : bytes) (vk : EncRPCClient) (g : GW) : GW :=
  let share (o : option EncRPCClient) :=
    match o with
    | Some c => if bool_decide (ec_PrivateKey c = ec_PrivateKey vk) then Some (signKey signature c) else Some c
    | None => None
    end in
  upd_managers (alter (alter share address) hexDefaultUser) (upd_unsigned (alter (signKey signature) address) g).

(** The key [vk] is signed. *)
Definition submitSigned (address : Address) (signature : bytes) (vk : EncRPCClient) : M GW unit :=
  _ ← modify (signShared address signature vk);
  let client := signKey signature vk in
  _ ← wrap "failed to create encrypted RPC client" (on_gateway_host Dial);
  managers ← gets gw_managers;
  _ ← wrap "error getting default user account manager:" (lift (GetUserAccountManager hexDefaultUser managers));
  _ ← modify (upd_managers (alter (AddClient address (Some client)) hexDefaultUser));
  r ← try (on_gateway_db (db_AddUser enforced DefaultUser (ec_PrivateKey client)));
  match r with
  | inr _ => fail (ErrMsg "error saving user")
  | inl _ =>
      r ← try (on_gateway_db (db_AddAccount enforced DefaultUser (Address_Bytes (ec_Account client)) signature));
      match r with
      | inr _ => fail (ErrMsg "error saving account")
      | inl _ => modify (upd_unsigned (delete address))
      end
  end.
Definition SubmitViewingKey (address : Address) (signature : bytes) : M GW unit := λ g,
  match gw_unsignedVKs g !! address with
  | None => (g, Err (ErrMsg "no viewing key found to sign"))
  | Some vk =>
      if (length signature <=? 64)%nat then (g, Crash "index out of range")
      else submitSigned address (add_V (-27) signature) vk g
  end.

(** ** Users *)

(** The key is used before the error is looked at. *)
Definition GenerateAndStoreNewUser (newKey : result bytes) : M GW string :=
  match newKey with
  | Err _ => crash "nil key"
  | Crash c => crash c
  | Ok viewingKeyPrivate =>
      let userID := CalculateUserID (PrivateKeyToCompressedPubKey viewingKeyPrivate) in
      _ ← on_gateway_db (db_AddUser enforced userID viewingKeyPrivate);
      let hexUserID := hex_EncodeToString userID in
      _ ← modify (upd_managers (AddAndReturnAccountManager hexUserID));
      mret hexUserID
  end.

(** The message is hashed as [personal_sign] does.  The signature is changed in place:
    the caller has the changed one, also after an error. *)
Definition verifySignature (message : string) (signature : bytes) (address : Address) : bytes * result bool :=
  if negb (length signature =? SignatureLen)%nat then (signature, Err (ErrMsg "incorrect signature length"))
  else
    let signature := add_V (-27) signature in
    (signature,
     match RecoverAddress message signature with
     | None => Err (ErrMsg "invalid signature")
     | Some addressFromSignature =>
         if bool_decide (Address_Bytes addressFromSignature ≠ Address_Bytes address)
         then Err (ErrMsg "address from signature not the same as expected")
         else if negb (ecdsa_Verify message signature) then Err (ErrMsg "signature is not valid") else Ok true
     end).

(** Errors of the key and of the client are logged; the client is nil then. *)
Definition AddAddressToUser (hexUserID message : string) (signature : bytes) : M GW unit :=
  '(messageUserID, messageAddressHex) ← lift (GetUserIDAndAddressFromMessage message);
  if negb (String.eqb hexUserID messageUserID) || negb (String.length messageUserID =? MessageUserIDLen)%nat
  then fail (ErrMsg "userID from message does not match userID from request")
  else
    let addressFromMessage := HexToAddress messageAddressHex in
    let '(signature, valid) := verifySignature message signature addressFromMessage in
    _ ← lift valid;
    match GetUserIDbyte hexUserID with
    | Ok userIDBytes =>
        _ ← on_gateway_db (db_AddAccount enforced userIDBytes (Address_Bytes addressFromMessage) signature);
        r ← try (on_gateway_db (db_GetUserPrivateKey userIDBytes));
        let privateKeyBytes := match r with inl k => k | inr _ => [] end in
        _ ← modify (upd_managers (AddAndReturnAccountManager hexUserID));
        r ← try (CreateEncClient (Address_Bytes addressFromMessage) privateKeyBytes signature);
        let encClient := match r with inl c => Some c | inr _ => None end in
        modify (upd_managers (alter (AddClient addressFromMessage encClient) hexUserID))
    | _ => fail (ErrMsg "error decoding userID. It should be in hex format")
    end.

(** The log lines cut two characters off. *)
Definition UserHasAccount (hexUserID address : string) : M GW bool :=
  match GetUserIDbyte hexUserID with
  | Ok userIDBytes =>
      if (String.length address <? 2)%nat then crash "slice bounds out of range"
      else
        addressBytes ← lift (of_option (ErrMsg "encoding/hex: invalid byte") (hex_DecodeString (dropString 2 address)));
        accounts ← on_gateway_db (db_GetAccounts scanAccounts userIDBytes);
        mret (existsb (λ account, bool_decide (ar_account_address account = addressBytes)) accounts)
  | Err err => if (String.length hexUserID <? 2)%nat then crash "slice bounds out of range" else fail err
  | Crash c => crash c
  end.

(** An error of the manager is logged. *)
Definition DeleteUser (hexUserID : string) : M GW unit :=
  userIDBytes ← lift (GetUserIDbyte hexUserID);
  _ ← on_gateway_db (db_DeleteUser enforced userIDBytes);
  modify (upd_managers (λ u, (DeleteUserAccountManager hexUserID u).1)).

(** ** Requests *)

(** [CraftErrorResponse]: the response has neither a version nor an identifier. *)
Definition CraftErrorResponse (err : GoError) : JSON :=
  let details := match as_EVM err with
                 | Some (_, reason, code) => [("code", JNumber code); ("data", match reason with Some s => JString s | None => JNull end)]
                 | None =>
                     match gethError err with
                     | Some (code, Some data) => [("code", JNumber code); ("data", data)]
                     | Some (code, None) => [("code", JNumber code)]
                     | None => []
                     end
                 end in
  JObject [("error", JObject (("message", JString (err_text err)) :: details))].

Definition rpcResponse (id result : JSON) : JSON :=
  JObject [("jsonrpc", JString "2.0"); ("id", id); ("result", result)].

(** [root: "0x"] is replaced by null. *)
Definition adjustStateRoot (rpcResp : JSON) : JSON :=
  match rpcResp with
  | JObject fields =>
      JObject ((λ '(k, v), if String.eqb k "root" then (k, match v with JString "0x" => JNull | _ => v end) else (k, v)) <$> fields)
  | _ => rpcResp
  end.

Definition GetStorageAtUserIDRequestMethodName : string := "getUserID".
Definition checkParametersForInterceptedGetStorageAt (params : list JSON) : bool :=
  match params with
  | [JString methodName; _; _] => String.eqb methodName GetStorageAtUserIDRequestMethodName
  | _ => false
  end.
(** [None] is nil: the request goes to the node. *)
Definition getStorageAtInterceptor (request : RPCRequest) (hexUserID : string) : M GW (option JSON) :=
  if checkParametersForInterceptedGetStorageAt (rq_Params request)
  then
    match GetUserIDbyte hexUserID with
    | Ok userID =>
        r ← try (on_gateway_db (db_GetUserPrivateKey userID));
        mret (match r with inl _ => Some (rpcResponse (rq_ID request) (JString hexUserID)) | inr _ => None end)
    | _ => mret None
    end
  else mret None.

Definition proxyToNode (request : RPCRequest) (hexUserID : string) : M GW JSON :=
  managers ← gets gw_managers;
  selectedAccountManager ← lift (GetUserAccountManager hexUserID managers);
  r ← try (on_gateway_host (ProxyRequest iterate request selectedAccountManager));
  mret (match r with
        | inr err => if errors_Is err ErrNilResponse then rpcResponse (rq_ID request) JNull else CraftErrorResponse err
        | inl rpcResp => rpcResponse (rq_ID request) (adjustStateRoot (default JNull rpcResp))
        end).
Definition ProxyEthRequest (request : RPCRequest) (hexUserID : string) : M GW JSON :=
  interceptedResponse ← (if String.eqb (rq_Method request) rpc_GetStorageAt
                         then getStorageAtInterceptor request hexUserID else mret None);
  match interceptedResponse with
  | Some response => mret response
  | None => proxyToNode request hexUserID
  end.

(** ** The start ([walletextension_container.go])

    Errors are logged; a client that could not be made is nil. *)

Fixpoint loadAccounts (hexUserID : string) (privateKey : bytes) (accounts : list AccountRow) : M GW unit :=
  match accounts with
  | [] => mret tt
  | account :: accounts =>
      r ← try (CreateEncClient (ar_account_address account) privateKey (ar_signature account));
      let encClient := match r with inl c => Some c | inr _ => None end in
      _ ← modify (upd_managers (alter (AddClient (Bytes.BytesToAddress (ar_account_address account)) encClient) hexUserID));
      loadAccounts hexUserID privateKey accounts
  end.
Fixpoint loadUsers (allUsers : list (bytes * bytes)) : M GW unit :=
  match allUsers with
  | [] => mret tt
  | (userID, privateKey) :: allUsers =>
      let hexUserID := hex_EncodeToString userID in
      _ ← modify (upd_managers (AddAndReturnAccountManager hexUserID));
      r ← try (on_gateway_db (db_GetAccounts scanAccounts userID));
      _ ← loadAccounts hexUserID privateKey (match r with inl accounts => accounts | inr _ => [] end);
      loadUsers allUsers
  end.
Definition loadGateway : M GW unit :=
  _ ← modify (upd_managers (AddAndReturnAccountManager hexDefaultUser));
  r ← try (on_gateway_db (db_GetAllUsers scanUsers));
  loadUsers (match r with inl allUsers => allUsers | inr _ => [] end).
(** A new process with the database [d]. *)
Definition NewWalletExtension (d : GatewayDB) (w : W) : GW * result unit := loadGateway (mkGateway ∅ ∅ d w).

(** ** Handlers ([routes.go])

    [body] is the decoded body of a request, [params] are the parameters of its URL.
    What cannot be written is logged. *)

Definition getQueryParameter (params : gmap string string) (selectedParameter : string) : result string :=
  of_option (ErrMsg "parameter is not in the query params") (params !! selectedParameter).

(** The signature without its leading [0x]; a shorter text, also one that is missing,
    panics. *)
Definition decodeSignature (reqJSONMap : gmap string string) : result bytes :=
  let s := default "" (reqJSONMap !! "signature") in
  if (String.length s <? 2)%nat then Crash "slice bounds out of range"
  else of_option (ErrMsg "encoding/hex: invalid byte") (hex_DecodeString (dropString 2 s)).

Definition ethRequestHandler (request : result RPCRequest) (supportsSubscriptions : bool) (params : gmap string string)
    : M GW (list Reply) :=
  match request with
  | Err err => mret [ReplyError (err_text err)]
  | Crash c => crash c
  | Ok request =>
      if String.eqb (rq_Method request) rpc_Subscribe && negb supportsSubscriptions
      then mret [ReplyError "received an eth_subscribe request but the connection does not support subscriptions"]
      else
        let hexUserID := match getQueryParameter params "u" with Ok u => u | _ => hexDefaultUser end in
        r ← try (ProxyEthRequest request hexUserID);
        mret [ReplyJSON (match r with inl response => response | inr err => CraftErrorResponse err end)]
  end.

Definition submitViewingKeyRequestHandler (reqJSONMap : gmap string string) : M GW (list Reply) :=
  let accAddress := HexToAddress (default "" (reqJSONMap !! "address")) in
  r ← try (lift (decodeSignature reqJSONMap));
  match r with
  | inr _ => mret [ReplyError "could not decode signature from client to hex"]
  | inl signature =>
      r ← try (SubmitViewingKey accAddress signature);
      mret (match r with
            | inl _ => [ReplyText "success"]
            | inr err => [ReplyError ("could not submit viewing key - " +:+ err_text err)]
            end)
  end.
Definition generateViewingKeyRequestHandler (reqJSONMap : gmap string string) (newKey : result bytes) : M GW (list Reply) :=
  r ← try (GenerateViewingKey (HexToAddress (default "" (reqJSONMap !! "address"))) newKey);
  mret (match r with
        | inl pubViewingKey => [ReplyText pubViewingKey]
        | inr err => [ReplyError ("unable to generate vieweing key: " +:+ err_text err)]
        end).

(** After an error the handler goes on and writes the empty identifier. *)
Definition joinRequestHandler (newKey : result bytes) : M GW (list Reply) :=
  r ← try (GenerateAndStoreNewUser newKey);
  mret (match r with
        | inl hexUserID => [ReplyText hexUserID]
        | inr _ => [ReplyError "Internal error"; ReplyText ""]
        end).

Definition authenticateRequestHandler (reqJSONMap params : gmap string string) : M GW (list Reply) :=
  r ← try (lift (decodeSignature reqJSONMap));
  match r with
  | inr _ => mret [ReplyError "Error: unable to decode signature"]
  | inl signature =>
      match reqJSONMap !! "message" with
      | None | Some ""%string => mret [ReplyError "Error: unable to read message field from the request"]
      | Some message =>
          match getQueryParameter params "u" with
          | Ok hexUserID =>
              r ← try (AddAddressToUser hexUserID message signature);
              mret (match r with inl _ => [ReplyText "success"] | inr _ => [ReplyError "Internal error"] end)
          | _ => mret [ReplyError "Malformed query: 'u' required - representing userID"]
          end
      end
  end.

(** After an error the handler goes on and writes the status. *)
Definition queryRequestHandler (params : gmap string string) : M GW (list Reply) :=
  match getQueryParameter params "u" with
  | Ok hexUserID =>
      match getQueryParameter params "a" with
      | Ok address =>
          r ← try (UserHasAccount hexUserID address);
          let status found := ReplyJSON (JObject [("status", JBool found)]) in
          mret (match r with inl found => [status found] | inr _ => [ReplyError "Internal error"; status false] end)
      | _ => mret [ReplyError "address ('a') not found in query parameters"]
      end
  | _ => mret [ReplyError "user ('u') not found in query parameters"]
  end.
Definition revokeRequestHandler (params : gmap string string) : M GW (list Reply) :=
  match getQueryParameter params "u" with
  | Ok hexUserID =>
      r ← try (DeleteUser hexUserID);
      mret (match r with inl _ => [ReplyText "success"] | inr _ => [ReplyError "Internal error"] end)
  | _ => mret [ReplyError "user ('u') not found in query parameters"]
  end.
End gateway.
