(* ===== verification/GatewaySpec.v ===== *)
(** * What the wallet extension guarantees

    An account is registered for a user only when its owner signed a message that
    names the user; an answer a user is shown is one the host gives to the viewing key
    of this user.  A user who joined and authenticated an account is served, also
    after a restart.  Where this fails is at the end. *)

From S2P Require Import Prelude Types Codec Bytes L1Chain EnclaveDB BatchDB Events Storage StorageInv StorageOps StorageSpec CrossChain BlockProcessor Reads Executor ExecutorSpec Growth Mempool Registry Params L2Chain RollupCompression RollupSpec Rollups Sequencer Validator SequencerSpec ViewingKeys Subscriptions Service RPC NodeInv RPCSpec HostDB Retry P2P StateTracker Converters EnclaveRPC BatchRepository L1Repository Publisher Guardian HostAPI EncClient EncClientSpec AccountManager WalletExtension.
Local Open Scope Z_scope.

(** ** Hexadecimal text *)

Abbreviation is_byte x := (0 <= x < 256).

Lemma hex_decode_length s b : hex_DecodeString s = Some b → String.length s = (2 * length b)%nat.
Proof.
  remember (String.length s) as n eqn:Hn. revert s b Hn. induction n as [n IH] using lt_wf_ind.
  intros [|c1 [|c2 s]] b Hn Hb; cbn in Hn, Hb; [by simplify_eq|done|].
  destruct (hexValue c1); [|done]. destruct (hexValue c2); [|done]. cbn in Hb.
  destruct (hex_DecodeString s) as [rest|] eqn:Hs; cbn in Hb; [|done]. simplify_eq.
  specialize (IH (String.length s) ltac:(lia) s rest eq_refl Hs). cbn. lia.
Qed.

Lemma yields_Ok {St A} (I : St → Prop) (m : M St A) Q s s' a : yields I m Q → I s → m s = (s', Ok a) → Q a.
Proof. intros Hm Hs Hrun. destruct (Hm s Hs) as [_ HQ]. apply HQ. by rewrite Hrun. Qed.

(** ** Registration *)

(** Private keys are their bytes, and no bytes are none; hashes are 32 bytes. *)
Class KeyBytes `{StorageCodecs, Keccak} : Prop := {
  ecdsa_bytes : ∀ b k, ToECDSA b = Some k → k = b;
  ecdsa_nil : ToECDSA [] = None;
  keccak_bytes : ∀ b, Forall (λ x, is_byte x) (Hash_Bytes (Keccak256Hash b));
  keccak_length : ∀ b, length (Hash_Bytes (Keccak256Hash b)) = 32%nat
}.

Section registration.
Context `{CC : ClientCodecs, GE : GethEncoding, VC : ViewingCrypto, KE : Keccak, ST : StorageCodecs}.

(** [k] is the private key of the user [u]. *)
Definition userKey (u : string) (k : bytes) : Prop :=
  hex_DecodeString u = Some (CalculateUserID (PrivateKeyToCompressedPubKey k)).

(** The owner of [a] signed a message that registers [a] for a user. *)
Definition registration (userID : bytes) (a : Address) (sig : bytes) : Prop :=
  ∃ message u addr, authenticateMessageRegex message = Some (u, addr) ∧ hex_DecodeString u = Some userID ∧
    HexToAddress addr = a ∧ RecoverAddress message sig = Some a.

(** A client of the user [u] for the account [a]. *)
Definition client_ok (u : string) (a : Address) (c : EncRPCClient) : Prop :=
  ec_Account c = a ∧ client_keys c ∧
  (u ≠ hexDefaultUser → userKey u (ec_PrivateKey c) ∧
     ∃ userID, hex_DecodeString u = Some userID ∧ registration userID a (vk_Signature (ec_viewingKey c))).

Definition managers_ok (us : UserAccountManager) : Prop :=
  ∀ u m a c, us !! u = Some m → m !! a = Some (Some c) → client_ok u a c.

Record gateway_db_ok (d : GatewayDB) : Prop := {
  gd_users_ok : ∀ userID k, gs_users d !! userID = Some k → userID ≠ DefaultUser →
    userID = CalculateUserID (PrivateKeyToCompressedPubKey k);
  gd_accounts_ok : ∀ r, r ∈ gs_accounts d → ar_user_id r ≠ DefaultUser →
    registration (ar_user_id r) (Bytes.BytesToAddress (ar_account_address r)) (ar_signature r)
}.

Definition unsigned_ok (us : gmap Address EncRPCClient) : Prop :=
  ∀ a c, us !! a = Some c → ec_Account c = a ∧ client_keys c.

Record gateway_ok {W} (I : W → Prop) (g : Gateway W) : Prop := {
  gw_managers_ok : managers_ok (gw_managers g);
  gw_unsigned_ok : unsigned_ok (gw_unsignedVKs g);
  gw_db_ok : gateway_db_ok (gw_storage g);
  gw_host_ok : I (gw_host g)
}.
End registration.

(** ** Every operation keeps the registrations *)

Section invariant.
Context {W : Type} `{CL : Client W, CC : ClientCodecs, RC : ResponseCodecs, GE : GethEncoding, SC : SubscriptionCodecs, AT : AddressText}.
Context `{VC : ViewingCrypto, KE : Keccak, ST : StorageCodecs, SG : SignatureCheck, !AddressBytesOk, KB : !KeyBytes}.
Context (iterate : AccountManager → list (Address * option EncRPCClient)) (Hiterate : ∀ m, iterate m ≡ₚ map_to_list m).
Context (enforced : bool).
Context (scanUsers : list (bytes * bytes) → list (bytes * bytes)) (Husers : ∀ l, scanUsers l ≡ₚ l).
Context (scanAccounts : list AccountRow → list AccountRow) (Haccounts : ∀ l, scanAccounts l ≡ₚ l).
Context (gethError : GoError → option (Z * option JSON)).
Context (I : W → Prop) (shown : EncRPCClient → string → list JSON → JSON → Prop) (HP : HostPromise I shown).
Implicit Types (g : Gateway W) (d : GatewayDB).
Abbreviation ok := (gateway_ok (W:=W) I).

Lemma statement_yields {A} (f : GatewayDB → GatewayDB * result A) Q :
  yields gateway_db_ok f Q → yields gateway_db_ok (gw_statement f) Q.
Proof.
  intros Hf d Hd. unfold gw_statement.
  destruct (gs_faults d) as [|[err|] faults]; [apply Hf|split; [|done]|apply Hf]; destruct Hd; by constructor.
Qed.

Lemma on_db_yields {A} (m : M GatewayDB A) Q : yields gateway_db_ok m Q → yields ok (on_gateway_db m) Q.
Proof. intros Hm. eapply yields_zoom; [by intros g []|by intros d g [] ?; constructor|exact Hm]. Qed.

Lemma on_host_yields {A} (m : M W A) Q : yields I m Q → yields ok (on_gateway_host m) Q.
Proof. intros Hm. eapply yields_zoom; [by intros g []|by intros d g [] ?; constructor|exact Hm]. Qed.

Lemma deleteUserRow_ok userID d : gateway_db_ok d → gateway_db_ok (deleteUserRow enforced userID d).
Proof.
  intros [Hu Ha]. constructor; cbn.
  - intros u k [_ Hk]%lookup_delete_Some. by apply Hu.
  - intros r Hr. apply Ha. destruct (gs_users d !! userID); [|done]. destruct enforced; [|done].
    by apply list_elem_of_filter in Hr as [_ Hr].
Qed.

Lemma AddUser_ok userID k : (userID ≠ DefaultUser → userID = CalculateUserID (PrivateKeyToCompressedPubKey k)) →
  yields gateway_db_ok (db_AddUser enforced userID k) (λ _, True).
Proof.
  intros Hk. apply statement_yields. intros d Hd. split; [|done].
  destruct (deleteUserRow_ok userID d Hd) as [Hu Ha]. constructor; cbn in *; [|exact Ha].
  intros u k' [[<- <-]|[_ Hin]]%lookup_insert_Some; [done|]. apply Hu. exact Hin.
Qed.

Lemma AddAccount_ok userID addr sig : (userID ≠ DefaultUser → registration userID (Bytes.BytesToAddress addr) sig) →
  yields gateway_db_ok (db_AddAccount enforced userID addr sig) (λ _, True).
Proof.
  intros Hr. apply statement_yields. intros d [Hu Ha]. split; [|done].
  destruct (enforced && _); [by constructor|]. constructor; [exact Hu|]. cbn. intros r [Hin|Heq%list_elem_of_singleton]%elem_of_app; [auto|by subst].
Qed.

Lemma GetUserPrivateKey_ok userID : userID ≠ DefaultUser →
  yields gateway_db_ok (db_GetUserPrivateKey userID) (λ k, userID = CalculateUserID (PrivateKeyToCompressedPubKey k)).
Proof.
  intros Hd. apply statement_yields. intros d Hok. split; [done|]. cbn. intros k Hk.
  destruct (gs_users d !! userID) as [k'|] eqn:Hu; [|done]. injection Hk as ->. by apply (gd_users_ok _ Hok).
Qed.

Lemma create_yields addr k sig :
  yields ok (CreateEncClient addr k sig)
    (λ c, ec_Account c = Bytes.BytesToAddress addr ∧ client_keys c ∧ ec_PrivateKey c = k ∧ vk_Signature (ec_viewingKey c) = sig ∧ k ≠ []).
Proof.
  unfold CreateEncClient, BytesToPrivateKey. eapply yields_seq; [apply yields_wrap, (yields_lift _ _ (λ k', k' = k ∧ k ≠ []))|].
  - intros k' Hk. destruct (ToECDSA k) as [k0|] eqn:Hto; [|done]. injection Hk as ->. split; [by eapply ecdsa_bytes|].
    intros ->. by rewrite ecdsa_nil in Hto.
  - intros k' [-> Hne]. eapply yields_seq; [apply yields_wrap, on_host_yields, preserves_yields, promise_dial|].
    intros _ _. by apply yields_ret.
Qed.

(** *** The managers *)

Lemma managers_step_yields f : (∀ us, managers_ok us → managers_ok (f us)) → yields ok (modify (upd_managers f)) (λ _, True).
Proof. intros Hf g []. split; [|done]. constructor; cbn; auto. Qed.

Lemma AddAndReturn_ok u us : managers_ok us → managers_ok (AddAndReturnAccountManager u us).
Proof.
  intros Hus. unfold AddAndReturnAccountManager. destruct (us !! u) eqn:Hu; [done|].
  intros u' m a c [[<- <-]|[_ Hin]]%lookup_insert_Some Hc; [|by eapply Hus]. unfold NewAccountManager in Hc. by rewrite lookup_empty in Hc.
Qed.

Lemma AddClient_ok u a oc us : (∀ c, oc = Some c → client_ok u a c) → managers_ok us → managers_ok (alter (AddClient a oc) u us).
Proof.
  intros Hc Hus u' m a' c Hm Ha. apply lookup_alter_Some in Hm as [(<-&m0&Hm0&->)|[Hne Hm]]; [|by eapply Hus].
  unfold AddClient in Ha. apply lookup_insert_Some in Ha as [[<- Hoc]|[_ Hin]]; [by apply Hc|by eapply Hus].
Qed.

(** *** The operations *)

Lemma default_length u : String.length u = 64%nat → u ≠ hexDefaultUser.
Proof. intros Hlen ->. vm_compute in Hlen. done. Qed.

Lemma userID_not_default u userID : String.length u = 64%nat → hex_DecodeString u = Some userID → userID ≠ DefaultUser.
Proof. intros Hlen Hu ->. apply hex_decode_length in Hu. rewrite Hlen in Hu. vm_compute in Hu. done. Qed.

Lemma verifySignature_ok message sig0 a sig : verifySignature message sig0 a = (sig, Ok true) →
  length sig0 = SignatureLen ∧ sig = add_V (-27) sig0 ∧ RecoverAddress message sig = Some a.
Proof.
  unfold verifySignature. destruct (length sig0 =? SignatureLen)%nat eqn:Hlen; cbn [negb]; [|done].
  apply Nat.eqb_eq in Hlen. intros [= <- Hr]. destruct (RecoverAddress _ _) as [a'|]; [|done].
  destruct (bool_decide _) eqn:Ha; [done|]. apply bool_decide_eq_false in Ha. apply dec_stable in Ha.
  split_and!; [done|done|]. f_equal. by rewrite <-(address_roundtrip a'), Ha, address_roundtrip.
Qed.

Lemma verifySignature_true message sig0 a sig b : verifySignature message sig0 a = (sig, Ok b) → b = true.
Proof. unfold verifySignature. intros. repeat case_match; by simplify_eq. Qed.

Lemma AddAddressToUser_ok hexUserID message sig0 : yields ok (AddAddressToUser enforced hexUserID message sig0) (λ _, True).
Proof.
  unfold AddAddressToUser. eapply yields_seq; [by apply (yields_lift _ _ (λ p, authenticateMessageRegex message = Some p)); intros p;
    unfold GetUserIDAndAddressFromMessage, of_option; destruct (authenticateMessageRegex message); [intros [= <-]|]|].
  intros [mu ma] Hmsg. destruct (negb _ || negb _) eqn:Hcheck; [apply yields_fail|].
  apply orb_false_iff in Hcheck as [Hu%negb_false_iff%String.eqb_eq Hlen%negb_false_iff%Nat.eqb_eq]. subst mu.
  destruct (verifySignature message sig0 (HexToAddress ma)) as [sig valid] eqn:Hver.
  eapply yields_seq; [by apply (yields_lift _ _ (λ b, valid = Ok b))|]. intros b ->.
  pose proof (verifySignature_true _ _ _ _ _ Hver) as ->. apply verifySignature_ok in Hver as (_&_&Hrec).
  unfold GetUserIDbyte, of_option. destruct (hex_DecodeString hexUserID) as [userID|] eqn:Hhex; [|apply yields_fail].
  assert (userID ≠ DefaultUser) as Hnd by (by eapply userID_not_default).
  assert (registration userID (HexToAddress ma) sig) as Hreg by (by exists message, hexUserID, ma).
  eapply yields_seq; [by apply on_db_yields, AddAccount_ok; rewrite address_roundtrip|]. intros _ _.
  eapply yields_seq; [by apply yields_try, on_db_yields, GetUserPrivateKey_ok|]. intros rk Hrk.
  eapply yields_seq; [by apply managers_step_yields, AddAndReturn_ok|]. intros _ _.
  eapply yields_seq; [apply yields_try, create_yields|]. intros rc Hrc.
  apply managers_step_yields. intros us. apply AddClient_ok. intros c Hc. destruct rc as [c'|]; simplify_eq.
  rewrite address_roundtrip in Hrc. destruct Hrc as (Ha&Hkeys&Hpk&Hsig&Hne). destruct rk as [k|]; [|done].
  split_and!; [done|done|]. intros _. unfold userKey. rewrite Hpk, Hsig, Hhex, <-Hrk. eauto.
Qed.

Lemma GenerateAndStoreNewUser_ok newKey : yields ok (GenerateAndStoreNewUser enforced newKey) (λ _, True).
Proof.
  destruct newKey as [k|err|c]; [|apply yields_crash..]. unfold GenerateAndStoreNewUser.
  eapply yields_seq; [by apply on_db_yields, AddUser_ok|]. intros _ _.
  eapply yields_seq; [by apply managers_step_yields, AddAndReturn_ok|]. intros _ _. by apply yields_ret.
Qed.

Lemma DeleteUser_ok hexUserID : yields ok (DeleteUser enforced hexUserID) (λ _, True).
Proof.
  unfold DeleteUser. eapply yields_seq; [by apply (yields_lift _ _ (λ _, True))|]. intros userID _.
  eapply yields_seq.
  { apply on_db_yields, (statement_yields _ (λ _, True)). intros d Hd. split; [by apply deleteUserRow_ok|done]. }
  intros _ _. apply managers_step_yields. intros us Hus. unfold DeleteUserAccountManager.
  destruct (us !! hexUserID); cbn [fst]; [|done]. intros u m a c [_ Hm]%lookup_delete_Some. by apply Hus.
Qed.

Lemma GenerateViewingKey_ok a newKey : yields ok (GenerateViewingKey a newKey) (λ _, True).
Proof.
  unfold GenerateViewingKey. eapply yields_seq; [apply yields_wrap, preserves_yields, preserves_lift|]. intros k _.
  apply (yields_seq _ _ _ (λ _, True)); [|intros _ _; by apply yields_ret]. intros g []. split; [|done]. constructor; cbn; auto.
  intros a' c [[<- <-]|[_ Hc]]%lookup_insert_Some; [by split|by apply gw_unsigned_ok0].
Qed.

Lemma signKey_ok sig c a : ec_Account c = a ∧ client_keys c → ec_Account (signKey sig c) = a ∧ client_keys (signKey sig c).
Proof. done. Qed.

Lemma default_client a c : ec_Account c = a ∧ client_keys c → client_ok hexDefaultUser a c.
Proof. by intros []. Qed.

Lemma signShared_ok a sig vk g : ok g → ok (signShared a sig vk g).
Proof.
  intros []. constructor; cbn; [|intros a' c Hc|done..].
  - intros u m a' c Hm Hc. apply lookup_alter_Some in Hm as [(<-&m0&Hm0&->)|[Hne Hm]]; [|by eapply gw_managers_ok0].
    apply lookup_alter_Some in Hc as [(<-&o&Ho&Hc)|[_ Hc]]; [|by eapply gw_managers_ok0].
    destruct o as [c0|]; [|done]. destruct (gw_managers_ok0 _ _ _ _ Hm0 Ho) as (Ha&Hk&_). apply default_client.
    case_bool_decide; simplify_eq; done.
  - apply lookup_alter_Some in Hc as [(<-&c0&Hc0&->)|[_ Hc]]; [by apply signKey_ok, gw_unsigned_ok0|by apply gw_unsigned_ok0].
Qed.

Lemma submitSigned_ok a sig vk : ec_Account vk = a ∧ client_keys vk → yields ok (submitSigned enforced a sig vk) (λ _, True).
Proof.
  intros Hvk. unfold submitSigned.
  apply (yields_seq _ _ _ (λ _, True)); [intros g Hg; split; [by apply signShared_ok|done]|]. intros _ _.
  eapply yields_seq; [apply yields_wrap, on_host_yields, preserves_yields, promise_dial|]. intros _ _.
  eapply yields_seq; [apply preserves_yields, preserves_gets|]. intros us' _.
  eapply yields_seq; [apply yields_wrap, preserves_yields, preserves_lift|]. intros _ _.
  eapply yields_seq.
  { apply managers_step_yields. intros us0. apply AddClient_ok. intros c [= <-]. by apply default_client, signKey_ok. }
  intros _ _. eapply yields_seq; [by apply yields_try, on_db_yields, AddUser_ok|]. intros [?|err] _; [|apply yields_fail].
  eapply yields_seq; [by apply yields_try, on_db_yields, AddAccount_ok|]. intros [?|err] _; [|apply yields_fail].
  intros g []. split; [|done]. constructor; cbn; auto. intros a' c [_ Hc]%lookup_delete_Some. by apply gw_unsigned_ok0.
Qed.

Lemma SubmitViewingKey_ok a sig : yields ok (SubmitViewingKey enforced a sig) (λ _, True).
Proof.
  intros g Hg. unfold SubmitViewingKey. destruct (gw_unsignedVKs g !! a) as [vk|] eqn:Hvk; [|done].
  destruct (length sig <=? 64)%nat; [done|]. apply submitSigned_ok; [by apply (gw_unsigned_ok _ _ Hg)|done].
Qed.

(** *** The start *)

Lemma userKey_encoded userID k : userID = CalculateUserID (PrivateKeyToCompressedPubKey k) →
  userKey (hex_EncodeToString userID) k ∧ hex_DecodeString (hex_EncodeToString userID) = Some userID.
Proof.
  intros ->. assert (hex_DecodeString (hex_EncodeToString (CalculateUserID (PrivateKeyToCompressedPubKey k))) =
    Some (CalculateUserID (PrivateKeyToCompressedPubKey k))) as Hd by (apply hex_roundtrip, keccak_bytes). by split.
Qed.

Definition row_ok (userID : bytes) (r : AccountRow) : Prop := ar_user_id r = userID ∧
  (userID ≠ DefaultUser → registration userID (Bytes.BytesToAddress (ar_account_address r)) (ar_signature r)).

Lemma loadAccounts_ok userID k rows :
  (userID ≠ DefaultUser → userID = CalculateUserID (PrivateKeyToCompressedPubKey k)) → Forall (row_ok userID) rows →
  yields ok (loadAccounts (hex_EncodeToString userID) k rows) (λ _, True).
Proof.
  intros Hk. induction 1 as [|r rows [_ Hreg] Hrows IH]; [by apply yields_ret|]. cbn [loadAccounts].
  eapply yields_seq; [apply yields_try, create_yields|]. intros rc Hrc.
  eapply yields_seq; [apply managers_step_yields; intros us; apply AddClient_ok|intros _ _; exact IH].
  intros c Hc. destruct rc as [c'|]; simplify_eq. destruct Hrc as (Ha&Hkeys&Hpk&Hsig&_). split_and!; [done|done|].
  intros Hu. assert (userID ≠ DefaultUser) as Hnd by (by intros ->).
  destruct (userKey_encoded userID k (Hk Hnd)) as [Huk Hdec]. rewrite Hpk, Hsig. split; [done|]. eauto.
Qed.

Lemma GetAccounts_ok userID : yields gateway_db_ok (db_GetAccounts scanAccounts userID) (Forall (row_ok userID)).
Proof.
  apply statement_yields. intros d Hd. split; [done|]. cbn. intros rows [= <-]. rewrite Haccounts. apply Forall_forall.
  intros r [Hr Hin]%list_elem_of_filter. split; [done|]. rewrite <-Hr. by apply (gd_accounts_ok _ Hd).
Qed.

Lemma loadUsers_ok l : Forall (λ p, p.1 ≠ DefaultUser → p.1 = CalculateUserID (PrivateKeyToCompressedPubKey p.2)) l →
  yields ok (loadUsers scanAccounts l) (λ _, True).
Proof.
  induction 1 as [|[userID k] l Hk Hl IH]; [by apply yields_ret|]. cbn [loadUsers fst snd] in *.
  eapply yields_seq; [by apply managers_step_yields, AddAndReturn_ok|]. intros _ _.
  eapply yields_seq; [apply yields_try, on_db_yields, GetAccounts_ok|]. intros rr Hrows.
  eapply yields_seq; [apply (loadAccounts_ok userID k); [done|]|intros _ _; exact IH]. by destruct rr.
Qed.

Lemma NewWalletExtension_ok d w : gateway_db_ok d → I w → ok (NewWalletExtension scanUsers scanAccounts d w).1.
Proof.
  intros Hd Hw. assert (yields ok (loadGateway scanUsers scanAccounts) (λ _, True)) as Hload; [|by apply Hload; constructor].
  unfold loadGateway. eapply yields_seq; [by apply managers_step_yields, AddAndReturn_ok|]. intros _ _.
  eapply yields_seq.
  { apply yields_try, on_db_yields, (statement_yields _ (Forall (λ p, p.1 ≠ DefaultUser → p.1 = CalculateUserID (PrivateKeyToCompressedPubKey p.2)))).
    intros d' Hd'. split; [done|]. cbn. intros l [= <-]. rewrite Husers. apply Forall_forall. intros [u k] Hin%elem_of_map_to_list.
    by apply (gd_users_ok _ Hd'). }
  intros rl Hl. apply loadUsers_ok. by destruct rl.
Qed.

(** *** Requests *)

(** The parameters that are sent for a request: its own, with the account of the client
    as the sender of a call that names none, and added to a query for logs. *)
Definition prepared (c : EncRPCClient) (req : RPCRequest) (args : list JSON) : Prop :=
  ∃ params, (if String.eqb (rq_Method req) rpc_Call || String.eqb (rq_Method req) rpc_EstimateGas
             then setFromFieldIfMissing (rq_Params req) (ec_Account c) = Ok params else params = rq_Params req) ∧
    args = if String.eqb (rq_Method req) rpc_GetLogs then params ++ [JString (Address_Hex (ec_Account c))] else params.
Definition shownFor (c : EncRPCClient) (req : RPCRequest) (j : JSON) : Prop :=
  ∃ args, prepared c req args ∧ shown c (rq_Method req) args j.

Lemma submitCall_shown oc req : IsSensitiveMethod (rq_Method req) = true → (∀ c, oc = Some c → client_keys c) →
  yields I (submitCall oc req) (λ r, ∀ j, r = Some j → ∃ c, oc = Some c ∧ shownFor c req j).
Proof.
  intros Hs Hoc. unfold submitCall. destruct oc as [c|]; [|apply yields_crash].
  apply (yields_seq _ _ _ (λ req', rq_Method req' = rq_Method req ∧
    if String.eqb (rq_Method req) rpc_Call || String.eqb (rq_Method req) rpc_EstimateGas
    then setFromFieldIfMissing (rq_Params req) (ec_Account c) = Ok (rq_Params req') else rq_Params req' = rq_Params req)).
  { destruct (_ || _); [|by apply yields_ret].
    eapply yields_seq; [by apply (yields_lift _ _ (λ params, setFromFieldIfMissing (rq_Params req) (ec_Account c) = Ok params))|].
    intros params Hparams. by apply yields_ret. }
  intros req' [Hm Hparams]. cbv zeta.
  assert (∀ args, prepared c req args →
    yields I (CallContext c Pointer (rq_Method req) args) (λ r, ∀ j, r = Some j → ∃ c0, Some c = Some c0 ∧ shownFor c0 req j)) as Hcall.
  { intros args Hargs. unfold CallContext. eapply yields_seq; [apply preserves_yields, preserves_lift|]. intros _ _. rewrite Hs. cbn [negb].
    eapply yields_mono; [apply (promise_call c); [by apply Hoc|done]|]. intros r Hr j Hj. exists c. split; [done|]. exists args. by split; [|apply Hr]. }
  rewrite Hm. destruct (String.eqb (rq_Method req) rpc_GetLogs) eqn:Hlogs; cbn [set_Params Clone rq_Method rq_Params]; rewrite ?Hm; apply Hcall;
    exists (rq_Params req'); (split; [done|by rewrite Hlogs]).
Qed.

Lemma tryClients_shown l req err : IsSensitiveMethod (rq_Method req) = true → Forall (λ p, ∀ c, p.2 = Some c → client_keys c) l →
  yields I (tryClients l req err) (λ r, ∀ j, r = Some j → ∃ a c, (a, Some c) ∈ l ∧ shownFor c req j).
Proof.
  intros Hs Hl. revert err. induction Hl as [|[a oc] l Hoc Hl IH]; intros err; [apply yields_fail|]. cbn [tryClients].
  eapply yields_seq; [apply yields_try, submitCall_shown; [done|exact Hoc]|]. intros [r|err'] Hr.
  - apply yields_ret. intros j Hj. destruct (Hr j Hj) as (c&->&Hc). exists a, c. split; [by left|done].
  - destruct (errors_Is _ _); [by apply yields_ret|]. eapply yields_mono; [apply IH|]. intros r Hr' j Hj.
    destruct (Hr' j Hj) as (a'&c&Hin&Hc). exists a', c. split; [by right|done].
Qed.

(** The suggested client is one of the clients. *)
Lemma suggestFromParams_in req m c : suggestFromParams req m = Some c → ∃ a, m !! a = Some (Some c).
Proof.
  unfold suggestFromParams. intros Hp. destruct (parseParams _) as [pm|?|?]; [|done..]. destruct (String.eqb _ _); [|done].
  destruct (checkForFromField pm m) as [fc|] eqn:Hf.
  - subst fc. unfold checkForFromField in Hf. destruct (fieldOf _ pm) as [[| | |s| |]|]; try done. eauto.
  - destruct (searchDataFieldForAccount pm m) as [addr|?|?]; [|done..]. destruct (m !! addr) as [oc|] eqn:Ho; [|done].
    cbn in Hp. subst. eauto.
Qed.

Lemma suggest_in req m c : suggestAccountClient iterate req m = Some c → ∃ a, m !! a = Some (Some c).
Proof.
  unfold suggestAccountClient. destruct (iterate m) as [|[a oc] [|p l]] eqn:Hit; [apply suggestFromParams_in| |apply suggestFromParams_in].
  intros ->. exists a. apply elem_of_map_to_list. rewrite <-Hiterate, Hit. by left.
Qed.

Lemma executeCall_shown req m : IsSensitiveMethod (rq_Method req) = true → (∀ a c, m !! a = Some (Some c) → client_keys c) →
  yields I (executeCall iterate req m) (λ r, ∀ j, r = Some j → ∃ a c, m !! a = Some (Some c) ∧ shownFor c req j).
Proof.
  intros Hs Hm. unfold executeCall. destruct (suggestAccountClient iterate req m) as [c|] eqn:Hsug.
  - destruct (suggest_in _ _ _ Hsug) as [a Ha]. eapply yields_mono; [apply submitCall_shown; [done|intros c' [= <-]; by eapply Hm]|].
    intros r Hr j Hj. destruct (Hr j Hj) as (c'&[= <-]&Hc'). eauto.
  - destruct (0 <? size m)%nat.
    + eapply yields_mono; [apply tryClients_shown; [done|]|].
      * apply Forall_forall. intros [a oc] Hin c Hc. cbn in Hc. subst oc. rewrite Hiterate in Hin.
        apply elem_of_map_to_list in Hin. by eapply Hm.
      * intros r Hr j Hj. destruct (Hr j Hj) as (a&c&Hin&Hc). exists a, c. split; [|done].
        rewrite Hiterate in Hin. by apply elem_of_map_to_list in Hin.
    + rewrite Hs. apply yields_fail.
Qed.

(** *** Requests of every kind keep the host *)

Lemma CallContext_keeps c res method args : client_keys c → res ≠ NilResult → preserves I (CallContext c res method args).
Proof.
  intros Hc Hres. unfold CallContext. apply preserves_bind; [apply preserves_lift|]. intros _.
  destruct (IsSensitiveMethod method) eqn:Hs; cbn [negb].
  - destruct res; [done|..]; intros w Hw; by destruct (promise_call c method args Hc Hs w Hw).
  - apply preserves_bind; [apply promise_plain|]. intros j. apply preserves_ret.
Qed.

Lemma submitCall_keeps oc req : (∀ c, oc = Some c → client_keys c) → preserves I (submitCall oc req).
Proof.
  intros Hoc. unfold submitCall. destruct oc as [c|]; [|apply preserves_crash].
  apply preserves_bind; [destruct (_ || _); auto using preserves_bind, preserves_lift, preserves_ret|].
  intros req'. apply CallContext_keeps; [by apply Hoc|done].
Qed.

Lemma executeCall_keeps req m : (∀ a c, m !! a = Some (Some c) → client_keys c) → preserves I (executeCall iterate req m).
Proof.
  intros Hm. unfold executeCall. destruct (suggestAccountClient iterate req m) as [c|] eqn:Hsug.
  { destruct (suggest_in _ _ _ Hsug) as [a Ha]. apply submitCall_keeps. intros c' [= <-]. by eapply Hm. }
  destruct (0 <? size m)%nat; [|destruct (IsSensitiveMethod _); [apply preserves_fail|apply preserves_bind; [apply promise_plain|intros; apply preserves_ret]]].
  assert (Forall (λ p, ∀ c, p.2 = Some c → client_keys c) (iterate m)) as Hl.
  { apply Forall_forall. intros [a oc] Hin c Hc. cbn in Hc. subst oc. rewrite Hiterate in Hin. apply elem_of_map_to_list in Hin. by eapply Hm. }
  generalize ErrNotFound. induction Hl as [|[a oc] l Hoc Hl IH]; intros err; [apply preserves_fail|]. cbn [tryClients].
  apply preserves_bind; [by apply preserves_try, submitCall_keeps|]. intros [r|err']; [apply preserves_ret|].
  destruct (errors_Is _ _); [apply preserves_ret|apply IH].
Qed.

Lemma ProxyRequest_keeps req m : (∀ a c, m !! a = Some (Some c) → client_keys c) → preserves I (ProxyRequest iterate req m).
Proof.
  intros Hm. unfold ProxyRequest. destruct (String.eqb _ _); [|by apply executeCall_keeps].
  apply preserves_bind; [apply preserves_lift|]. intros [|oc clients]; [by apply executeCall_keeps|].
  unfold executeSubscribe. destruct (rq_Params req) as [|p ps]; [apply preserves_fail|]. destruct oc as [c|].
  - apply preserves_bind; [apply preserves_wrap|intros; apply preserves_ret]. unfold ec_Subscribe.
    destruct p; try apply preserves_fail. destruct (String.eqb _ _); [|apply preserves_fail].
    repeat (apply preserves_bind; [try apply preserves_wrap; apply preserves_lift|]; intros ?).
    apply preserves_bind; [apply promise_subscribe|]. intros first. apply preserves_lift.
  - destruct p; try apply preserves_fail. destruct (String.eqb _ _); [apply preserves_crash|apply preserves_fail].
Qed.

(** ** What a user is shown *)

(** The answer to a sensitive request of [u]: an error, nothing, the identifier of the
    user, or something the host shows to a client for this request, whose key is that of
    [u] unless [u] is the default user. *)
Definition reply_ok (u : string) (req : RPCRequest) (resp : JSON) : Prop :=
  (∃ err, resp = CraftErrorResponse gethError err) ∨ resp = rpcResponse (rq_ID req) JNull ∨
  (rq_Method req = rpc_GetStorageAt ∧ resp = rpcResponse (rq_ID req) (JString u)) ∨
  ∃ c j, resp = rpcResponse (rq_ID req) (adjustStateRoot j) ∧ shownFor c req j ∧ (u ≠ hexDefaultUser → userKey u (ec_PrivateKey c)).

Lemma managers_keys us u m a c : managers_ok us → us !! u = Some m → m !! a = Some (Some c) → client_keys c.
Proof. intros Hus Hm Hc. by destruct (Hus u m a c Hm Hc) as (_&?&_). Qed.

Lemma proxyToNode_yields req u (P : option JSON → Prop) Q :
  (∀ m, (∀ a c, m !! a = Some (Some c) → client_ok u a c) → yields I (ProxyRequest iterate req m) P) →
  (∀ r, P r → Q (rpcResponse (rq_ID req) (adjustStateRoot (default JNull r)))) →
  Q (rpcResponse (rq_ID req) JNull) → (∀ err, Q (CraftErrorResponse gethError err)) →
  yields ok (proxyToNode iterate gethError req u) Q.
Proof.
  intros HPr HQ Hnull Herr g Hg. unfold proxyToNode. rewrite (bind_eq _ _ _ g (gw_managers g)) by done.
  unfold GetUserAccountManager, of_option. destruct (gw_managers g !! u) as [m|] eqn:Hm; [|done].
  apply (yields_seq ok (lift (Ok m)) _ (λ m', m' = m)); [by apply yields_lift; intros ? [= <-]| |done]. intros m' ->.
  eapply yields_seq; [apply yields_try, on_host_yields, HPr; intros a c Hc; by eapply (gw_managers_ok _ _ Hg)|].
  intros [r|err] Hr; apply yields_ret; [by apply HQ|]. by destruct (errors_Is _ _).
Qed.

Lemma interceptor_yields req u : yields ok (getStorageAtInterceptor req u)
  (λ r, ∀ resp, r = Some resp → resp = rpcResponse (rq_ID req) (JString u)).
Proof.
  unfold getStorageAtInterceptor. destruct (checkParametersForInterceptedGetStorageAt _); [|by apply yields_ret].
  destruct (GetUserIDbyte u) as [userID|?|?]; [|by apply yields_ret..].
  eapply yields_seq; [apply yields_try, on_db_yields, (statement_yields _ (λ _, True)); by intros d Hd; split|].
  intros [k|err] _; apply yields_ret; [by intros resp [= <-]|done].
Qed.

Lemma ProxyEthRequest_yields req u (Q : JSON → Prop) :
  (rq_Method req = rpc_GetStorageAt → Q (rpcResponse (rq_ID req) (JString u))) →
  yields ok (proxyToNode iterate gethError req u) Q → yields ok (ProxyEthRequest iterate gethError req u) Q.
Proof.
  intros HQ Hproxy. unfold ProxyEthRequest.
  apply (yields_seq _ _ _ (λ r, ∀ resp, r = Some resp → rq_Method req = rpc_GetStorageAt ∧ resp = rpcResponse (rq_ID req) (JString u))).
  - destruct (String.eqb _ _) eqn:He; [|by apply yields_ret]. apply String.eqb_eq in He.
    eapply yields_mono; [apply interceptor_yields|]. intros r Hr resp Hresp. by split; [|apply Hr].
  - intros [resp|] Hr; [|done]. destruct (Hr resp eq_refl) as [Hm ->]. by apply yields_ret, HQ.
Qed.

Lemma ProxyEthRequest_keeps req u : preserves ok (ProxyEthRequest iterate gethError req u).
Proof.
  assert (yields ok (ProxyEthRequest iterate gethError req u) (λ _, True)) as Hy; [|by intros g Hg; apply Hy].
  apply ProxyEthRequest_yields; [done|]. eapply (proxyToNode_yields _ _ (λ _, True)); [|done..].
  intros m Hm. apply preserves_yields, ProxyRequest_keeps. intros a c Hc. by destruct (Hm a c Hc) as (_&?&_).
Qed.

Lemma sensitive_not_subscribe method : IsSensitiveMethod method = true → String.eqb method rpc_Subscribe = false.
Proof. unfold IsSensitiveMethod. intros Hm%bool_decide_eq_true. apply String.eqb_neq. intros ->. set_solver. Qed.

Lemma ProxyEthRequest_shown req u : IsSensitiveMethod (rq_Method req) = true →
  yields ok (ProxyEthRequest iterate gethError req u) (reply_ok u req).
Proof.
  intros Hs. apply ProxyEthRequest_yields; [by right; right; left|].
  apply (proxyToNode_yields _ _ (λ r, ∀ j, r = Some j → ∃ c, shownFor c req j ∧ (u ≠ hexDefaultUser → userKey u (ec_PrivateKey c)))).
  - intros m Hm. unfold ProxyRequest. rewrite sensitive_not_subscribe by done.
    eapply yields_mono; [apply executeCall_shown; [done|]|].
    + intros a c Hc. by destruct (Hm a c Hc) as (_&?&_).
    + intros r Hr j Hj. destruct (Hr j Hj) as (a&c&Hc&Hj'). destruct (Hm a c Hc) as (_&_&Hu). exists c.
      split; [done|]. intros Hne. by destruct (Hu Hne).
  - intros [j|] Hr; [|by right; left]. destruct (Hr j eq_refl) as (k&Hk&Hu). right; right; right. eauto.
  - by right; left.
  - left. eauto.
Qed.

(** ** Reachable states *)

(** The requests to the extension in any order, restarts, and what else happens at the
    host. *)
Inductive gateway_step g : Gateway W → Prop :=
  | step_generate a newKey : gateway_step g (GenerateViewingKey a newKey g).1
  | step_submit a sig : gateway_step g (SubmitViewingKey enforced a sig g).1
  | step_join newKey : gateway_step g (GenerateAndStoreNewUser enforced newKey g).1
  | step_authenticate u message sig : gateway_step g (AddAddressToUser enforced u message sig g).1
  | step_query u a : gateway_step g (UserHasAccount scanAccounts u a g).1
  | step_revoke u : gateway_step g (DeleteUser enforced u g).1
  | step_request req u : gateway_step g (ProxyEthRequest iterate gethError req u g).1
  | step_restart : gateway_step g (NewWalletExtension scanUsers scanAccounts (gw_storage g) (gw_host g)).1
  | step_host w : I w → gateway_step g (mkGateway (gw_managers g) (gw_unsignedVKs g) (gw_storage g) w).

Lemma UserHasAccount_keeps u a : preserves ok (UserHasAccount scanAccounts u a).
Proof.
  unfold UserHasAccount. destruct (GetUserIDbyte u) as [userID|err|c]; [|destruct (_ <? _)%nat; auto with go|apply preserves_crash].
  destruct (_ <? _)%nat; [apply preserves_crash|]. apply preserves_bind; [apply preserves_lift|]. intros b.
  apply preserves_bind; [|intros; apply preserves_ret]. intros g Hg. by apply (on_db_yields _ _ (GetAccounts_ok userID)).
Qed.

Lemma gateway_step_ok g g' : gateway_step g g' → ok g → ok g'.
Proof.
  intros [] Hg; try by (apply GenerateViewingKey_ok + apply SubmitViewingKey_ok + apply GenerateAndStoreNewUser_ok +
    apply AddAddressToUser_ok + apply UserHasAccount_keeps + apply DeleteUser_ok + apply ProxyEthRequest_keeps).
  - apply NewWalletExtension_ok; [by apply (gw_db_ok _ _ Hg)|by apply (gw_host_ok _ _ Hg)].
  - destruct Hg. by constructor.
Qed.

(** A state that a new extension reaches. *)
Definition gateway_reachable g : Prop :=
  ∃ faults w, I w ∧ rtc gateway_step (NewWalletExtension scanUsers scanAccounts (mkGatewayDB ∅ [] faults) w).1 g.

Lemma gateway_reachable_ok g : gateway_reachable g → ok g.
Proof.
  intros (faults&w&Hw&Hsteps). assert (ok (NewWalletExtension scanUsers scanAccounts (mkGatewayDB ∅ [] faults) w).1) as H0.
  { apply NewWalletExtension_ok; [|done]. constructor; cbn; [by intros ? ? ?%lookup_empty_Some|by intros ? ?%elem_of_nil]. }
  revert H0. induction Hsteps as [|g1 g2 g3 Hstep _ IH]; [done|]. intros H1. by apply IH, (gateway_step_ok g1).
Qed.
End invariant.

(** ** The message of the enclave is one the extension takes *)

Definition wordText (s : string) : bool := forallb isWordChar (String.list_ascii_of_string s).

Lemma wordText_app a b : wordText (a +:+ b) = wordText a && wordText b.
Proof.
  induction a as [|c a IH]; [done|]. change (wordText (String c (a +:+ b)) = wordText (String c a) && wordText b).
  unfold wordText in *. cbn [String.list_ascii_of_string forallb]. by rewrite IH, andb_assoc.
Qed.

Lemma hex_word b : wordText (hex_EncodeToString b) = true.
Proof.
  assert (∀ n, wordText (hexDigit n) = true) as Hd.
  { intros n. unfold hexDigit. destruct (String.get _ _) as [c|] eqn:Hc; [|done]. apply string_get_in in Hc.
    assert (Forall (λ c, isWordChar c = true) (String.list_ascii_of_string "0123456789abcdef")) as Hall by (by repeat constructor).
    rewrite Forall_forall in Hall. unfold wordText. cbn [String.list_ascii_of_string forallb]. by rewrite (Hall c Hc). }
  induction b as [|x b IH]; [done|]. cbn [hex_EncodeToString]. by rewrite !wordText_app, !Hd, IH.
Qed.

Lemma spanWord_app w rest : wordText w = true →
  match rest with EmptyString => True | String c _ => isWordChar c = false end → spanWord (w +:+ rest) = (w, rest).
Proof.
  intros Hw Hrest. induction w as [|c w IH].
  - change ("" +:+ rest) with rest. destruct rest as [|c rest]; [done|]. cbn. by rewrite Hrest.
  - apply andb_true_iff in Hw as [Hc Hw]. change (String c w +:+ rest) with (String c (w +:+ rest)). cbn. by rewrite Hc, IH.
Qed.

Lemma hex_length b : Forall (λ x, is_byte x) b → String.length (hex_EncodeToString b) = (2 * length b)%nat.
Proof. intros Hb. by apply hex_decode_length, hex_roundtrip. Qed.

Lemma stripPrefix_app pre s : stripPrefix pre (pre +:+ s) = Some s.
Proof.
  induction pre as [|c pre IH]; [done|]. change (String c pre +:+ s) with (String c (pre +:+ s)). cbn. by rewrite Ascii.eqb_refl.
Qed.
Lemma matchWord_app w rest : wordText w = true → w ≠ "" →
  match rest with EmptyString => True | String c _ => isWordChar c = false end → matchWord (w +:+ rest) = Some (w, rest).
Proof. intros Hw Hne Hrest. unfold matchWord. rewrite spanWord_app by done. by destruct w. Qed.
Lemma string_app_nil s : s +:+ "" = s.
Proof. induction s as [|c s IH]; [done|]. change (String c (s +:+ "") = String c s). by rewrite IH. Qed.

Abbreviation spaceChar := (Ascii.Ascii false false false false false true false false).

(** The two fields of the message are read back. *)
Lemma message_parses u addr : wordText u = true → u ≠ "" → wordText addr = true → addr ≠ "" →
  authenticateMessageRegex ("Register " +:+ u +:+ " for " +:+ addr) = Some (u, addr).
Proof.
  intros Hu Hune Ha Hane. unfold authenticateMessageRegex.
  change ("Register " +:+ u +:+ " for " +:+ addr) with ("Register" +:+ String spaceChar (u +:+ String spaceChar ("for" +:+ String spaceChar addr))).
  rewrite stripPrefix_app. cbn [mbind option_bind stripSpace].
  change (isRegexSpace spaceChar) with true. cbn [mbind option_bind]. rewrite matchWord_app by done. cbn [mbind option_bind stripSpace].
  change (isRegexSpace spaceChar) with true. cbn [mbind option_bind]. rewrite stripPrefix_app. cbn [mbind option_bind stripSpace].
  change (isRegexSpace spaceChar) with true. cbn [mbind option_bind].
  replace (matchWord addr) with (Some (addr, "")); [done|]. rewrite <-(string_app_nil addr) at 2. by rewrite matchWord_app.
Qed.

(** ** Joining and authenticating *)

Section joining.
Context {W : Type} `{CL : Client W, CC : ClientCodecs, RC : ResponseCodecs, GE : GethEncoding, SC : SubscriptionCodecs, AT : AddressText}.
Context `{VC : ViewingCrypto, KE : Keccak, ST : StorageCodecs, SG : SignatureCheck, !AddressBytesOk, KB : !KeyBytes}.
Context (iterate : AccountManager → list (Address * option EncRPCClient)) (Hiterate : ∀ m, iterate m ≡ₚ map_to_list m).
Context (enforced : bool) (gethError : GoError → option (Z * option JSON)).
Implicit Types (g : Gateway W).

(** The identifier of the user with the private key [k], and the text of an address. *)
Definition userOf (k : bytes) : string := hex_EncodeToString (CalculateUserID (PrivateKeyToCompressedPubKey k)).
Definition addressText (a : Address) : string := "0x" +:+ hex_EncodeToString (Address_Bytes a).

Lemma join_run g k : gs_faults (gw_storage g) = [] → gw_managers g !! userOf k = None →
  ∃ d, GenerateAndStoreNewUser enforced (Ok k) g =
    (mkGateway (<[userOf k := ∅]> (gw_managers g)) (gw_unsignedVKs g) d (gw_host g), Ok (userOf k)) ∧
    gs_users d !! CalculateUserID (PrivateKeyToCompressedPubKey k) = Some k ∧ gs_faults d = [].
Proof.
  intros Hf Hnew. unfold GenerateAndStoreNewUser, on_gateway_db, zoom, mbind, M_bind, db_AddUser, gw_statement. rewrite Hf. cbn.
  unfold upd_managers, AddAndReturnAccountManager. cbn. fold (userOf k). rewrite Hnew. eexists. split; [done|]. cbn.
  split; [by rewrite lookup_insert_eq|done].
Qed.

Lemma message_own pub a : let u := hex_EncodeToString (CalculateUserID pub) in
  authenticateMessageRegex (GenerateSignMessageOG pub a) = Some (u, addressText a) ∧ String.length u = MessageUserIDLen ∧
  hex_DecodeString u = Some (CalculateUserID pub).
Proof.
  intros u. assert (String.length u = 64%nat) as Hlen.
  { unfold u, CalculateUserID. by rewrite hex_length, keccak_length by apply keccak_bytes. }
  split_and!; [|done|apply hex_roundtrip, keccak_bytes].
  change (GenerateSignMessageOG pub a) with ("Register " +:+ u +:+ " for " +:+ addressText a). apply message_parses; [apply hex_word| | |done].
  - intros Hu. by rewrite Hu in Hlen.
  - unfold addressText. by rewrite wordText_app, hex_word.
Qed.

Lemma alter_present {A} (f : A → A) (m : gmap string A) u x : m !! u = Some x → alter f u m = <[u := f x]> m.
Proof.
  intros Hm. apply map_eq. intros u'. destruct (decide (u' = u)) as [->|Hne].
  - by rewrite lookup_alter_eq, lookup_insert_eq, Hm.
  - by rewrite lookup_alter_ne, lookup_insert_ne by done.
Qed.

(** An account whose owner signed the message of the enclave is registered, also when
    the connection fails. *)
Lemma authenticate_run g k a sig w' r :
  let pub := PrivateKeyToCompressedPubKey k in
  gw_managers g !! userOf k = Some ∅ → gs_users (gw_storage g) !! CalculateUserID pub = Some k → gs_faults (gw_storage g) = [] →
  ToECDSA k = Some k → length sig = SignatureLen → Forall (λ x, is_byte x) sig → HexToAddress (addressText a) = a →
  RecoverAddress (GenerateSignMessageOG pub a) sig = Some a → ecdsa_Verify (GenerateSignMessageOG pub a) sig = true →
  Dial (gw_host g) = (w', r) → (∀ c, r ≠ Crash c) →
  ∃ d, AddAddressToUser enforced (userOf k) (GenerateSignMessageOG pub a) (add_V 27 sig) g =
    (mkGateway (<[userOf k := {[a := match r with Ok _ => Some (mkEncRPCClient (mkViewingKey a pub sig) k) | _ => None end]}]> (gw_managers g)) (gw_unsignedVKs g) d w', Ok tt).
Proof.
  intros pub Hm Hu Hf Hto Hlen Hbytes Haddr Hrec Hver Hdial Hr. destruct (message_own pub a) as (Hmsg&Hulen&Hdec).
  unfold AddAddressToUser, GetUserIDAndAddressFromMessage. rewrite Hmsg. unfold lift, mbind, M_bind. cbn [of_option].
  fold (userOf k) in Hulen, Hdec |- *. change (hex_EncodeToString (CalculateUserID pub)) with (userOf k) in *.
  rewrite String.eqb_refl, (proj2 (Nat.eqb_eq _ _)) by done. cbn [negb orb]. rewrite Haddr.
  unfold verifySignature. rewrite (proj2 (Nat.eqb_eq (length (add_V 27 sig)) SignatureLen)) by (unfold add_V; by rewrite length_alter).
  cbn [negb]. rewrite add_V_cancel, Hrec by done. rewrite bool_decide_false, Hver by congruence. cbn [negb].
  unfold GetUserIDbyte. rewrite Hdec. cbn [of_option]. unfold on_gateway_db, zoom, db_AddAccount, gw_statement. rewrite Hf. cbn [tail gs_users].
  rewrite bool_decide_true, andb_false_r by (by eexists). cbn. rewrite Hu. cbn.
  unfold AddAndReturnAccountManager, upd_managers, CreateEncClient, BytesToPrivateKey, wrap, lift, mbind, M_bind, try, on_gateway_host, zoom.
  cbn. rewrite Hm, Hto. cbn. rewrite Hdial. destruct r as [[]|err|cr]; [| |by edestruct Hr]; unfold modify; cbn; rewrite ?address_roundtrip; eexists; do 2 f_equal.
  all: by rewrite (alter_present _ _ _ ∅).
Qed.

Lemma iterate_singleton a oc : iterate {[a := oc]} = [(a, oc)].
Proof. apply Permutation_singleton_r. by rewrite Hiterate, map_to_list_singleton. Qed.

(** The requests that are sent as they are. *)
Definition sentAsIs (method : string) : bool := negb (bool_decide (method ∈ [rpc_Call; rpc_EstimateGas; rpc_GetLogs; rpc_Subscribe; rpc_GetStorageAt])).

(** A user with one account: the answer to the client of the account is the answer to
    the user. *)
Lemma proxy_run g u a c req w' j : gw_managers g !! u = Some {[a := Some c]} → sentAsIs (rq_Method req) = true →
  CallContext c Pointer (rq_Method req) (rq_Params req) (gw_host g) = (w', Ok (Some j)) →
  ProxyEthRequest iterate gethError req u g =
    (mkGateway (gw_managers g) (gw_unsignedVKs g) (gw_storage g) w', Ok (rpcResponse (rq_ID req) (adjustStateRoot j))).
Proof.
  intros Hm Hsent Hcall. apply negb_true_iff, bool_decide_eq_false in Hsent.
  assert (∀ m, m ∈ [rpc_Call; rpc_EstimateGas; rpc_GetLogs; rpc_Subscribe; rpc_GetStorageAt] → String.eqb (rq_Method req) m = false) as Hne.
  { intros m Hin. apply String.eqb_neq. congruence. }
  unfold ProxyEthRequest. rewrite (Hne rpc_GetStorageAt) by set_solver.
  unfold proxyToNode, gets, lift, try, on_gateway_host, zoom, GetUserAccountManager, mbind, M_bind, mret, M_ret. cbn. rewrite Hm. cbn.
  unfold ProxyRequest, executeCall, suggestAccountClient. rewrite (Hne rpc_Subscribe), iterate_singleton by set_solver.
  unfold submitCall, mbind, M_bind. rewrite (Hne rpc_Call), (Hne rpc_EstimateGas) by set_solver. cbn.
  rewrite (Hne rpc_GetLogs) by set_solver. by rewrite Hcall.
Qed.

(** The body of the request to [/authenticate], and the query of a user. *)
Definition authenticateBody (message : string) (sig : bytes) : gmap string string :=
  {["message" := message; "signature" := "0x" +:+ hex_EncodeToString (add_V 27 sig)]}.
Definition query_u (u : string) : gmap string string := {["u" := u]}.

Lemma dropString_two s : dropString 2 ("0x" +:+ s) = s.
Proof. change (String.substring 0 (String.length s - 0) s = s). rewrite Nat.sub_0_r. induction s as [|c'' s IH]; [done|]. cbn. by rewrite IH. Qed.

Lemma decodeSignature_own message sig : Forall (λ x, 0 <= x < 256) sig → decodeSignature (authenticateBody message sig) = Ok (add_V 27 sig).
Proof.
  intros Hsig. unfold decodeSignature, authenticateBody. rewrite lookup_insert_ne, lookup_singleton_eq by done. cbn [default].
  change (id ?x) with x. rewrite dropString_two. by rewrite hex_roundtrip by (by apply add_V_bytes).
Qed.
(** The two requests of a new user with an account. *)
Lemma registered_run g k a sig w' r :
  let pub := PrivateKeyToCompressedPubKey k in
  gs_faults (gw_storage g) = [] → gw_managers g !! userOf k = None →
  ToECDSA k = Some k → length sig = SignatureLen → Forall (λ x, is_byte x) sig → HexToAddress (addressText a) = a →
  RecoverAddress (GenerateSignMessageOG pub a) sig = Some a → ecdsa_Verify (GenerateSignMessageOG pub a) sig = true →
  Dial (gw_host g) = (w', r) → (∀ c, r ≠ Crash c) →
  ∃ g1 g2, joinRequestHandler enforced (Ok k) g = (g1, Ok [ReplyText (userOf k)]) ∧
    authenticateRequestHandler enforced (authenticateBody (GenerateSignMessageOG pub a) sig) (query_u (userOf k)) g1 = (g2, Ok [ReplyText "success"]) ∧
    gw_managers g2 !! userOf k = Some {[a := match r with Ok _ => Some (mkEncRPCClient (mkViewingKey a pub sig) k) | _ => None end]} ∧ gw_host g2 = w'.
Proof.
  intros pub Hf Hnew Hto Hlen Hsig Haddr Hrec Hver Hdial Hr.
  destruct (join_run g k Hf Hnew) as (d1&Hjoin&Hd1&Hf1). set (g1 := mkGateway _ _ d1 _) in Hjoin.
  destruct (authenticate_run g1 k a sig w' r) as [d2 Hauth]; [by apply lookup_insert_eq|done..|].
  change (PrivateKeyToCompressedPubKey k) with pub in Hauth.
  match type of Hauth with _ = (?g', _) => exists g1, g' end. split_and!; [| |by apply lookup_insert_eq|done].
  - unfold joinRequestHandler, try, mbind, M_bind. by rewrite Hjoin.
  - unfold authenticateRequestHandler, try, lift, mbind, M_bind. rewrite decodeSignature_own by done.
    unfold query_u, getQueryParameter. rewrite lookup_singleton_eq.
    assert (GenerateSignMessageOG pub a ≠ "") as Hne by done. destruct (GenerateSignMessageOG pub a) as [|ch message]; [done|].
    change (authenticateBody (String ch message) sig !! "message") with (Some (String ch message)). cbn. by rewrite Hauth.
Qed.

(** A request over HTTP. *)
Lemma asked_run g u a c req w' j : gw_managers g !! u = Some {[a := Some c]} → sentAsIs (rq_Method req) = true →
  CallContext c Pointer (rq_Method req) (rq_Params req) (gw_host g) = (w', Ok (Some j)) →
  ethRequestHandler iterate gethError (Ok req) false (query_u u) g =
    (mkGateway (gw_managers g) (gw_unsignedVKs g) (gw_storage g) w', Ok [ReplyJSON (rpcResponse (rq_ID req) (adjustStateRoot j))]).
Proof.
  intros Hm Hsent Hcall. pose proof (proxy_run g u a c req w' j Hm Hsent Hcall) as Hproxy.
  apply negb_true_iff, bool_decide_eq_false in Hsent. assert (String.eqb (rq_Method req) rpc_Subscribe = false) as Hsub.
  { apply String.eqb_neq. intros Heq. apply Hsent. rewrite Heq. do 3 right. left. }
  unfold ethRequestHandler, getQueryParameter, query_u, try, mbind, M_bind. rewrite Hsub, lookup_singleton_eq.
  cbn [of_option andb]. by rewrite Hproxy.
Qed.

(** When the gateway cannot connect to the host while a user registers an account, the
    user is told that it worked; the account has no client, and every request of the user
    that goes through the account panics. *)
Theorem failed_connection_panics g k a sig w' err req :
  let pub := PrivateKeyToCompressedPubKey k in
  gs_faults (gw_storage g) = [] → gw_managers g !! userOf k = None →
  ToECDSA k = Some k → length sig = SignatureLen → Forall (λ x, is_byte x) sig → HexToAddress (addressText a) = a →
  RecoverAddress (GenerateSignMessageOG pub a) sig = Some a → ecdsa_Verify (GenerateSignMessageOG pub a) sig = true →
  Dial (gw_host g) = (w', Err err) → rq_Method req ≠ rpc_Subscribe → rq_Method req ≠ rpc_GetStorageAt →
  ∃ g1 g2, joinRequestHandler enforced (Ok k) g = (g1, Ok [ReplyText (userOf k)]) ∧
    authenticateRequestHandler enforced (authenticateBody (GenerateSignMessageOG pub a) sig) (query_u (userOf k)) g1 = (g2, Ok [ReplyText "success"]) ∧
    ∃ c, (ethRequestHandler iterate gethError (Ok req) false (query_u (userOf k)) g2).2 = Crash c.
Proof.
  intros pub Hf Hnew Hto Hlen Hsig Haddr Hrec Hver Hdial Hsub Hst.
  destruct (registered_run g k a sig w' (Err err)) as (g1&g2&Hjoin&Hauth&Hm&_); [done..|]. exists g1, g2. split_and!; [done|done|].
  apply String.eqb_neq in Hsub, Hst. unfold ethRequestHandler, ProxyEthRequest, getQueryParameter, query_u. rewrite Hsub, Hst, lookup_singleton_eq.
  unfold try at 1, proxyToNode, gets, lift, on_gateway_host, zoom, GetUserAccountManager, mbind, M_bind, mret, M_ret. cbn. rewrite Hm. cbn. unfold try.
  unfold ProxyRequest, executeCall, suggestAccountClient. rewrite Hsub, iterate_singleton, map_size_singleton.
  eexists. reflexivity.
Qed.
End joining.

(** ** Restarts *)

#[local] Arguments DefaultUser : simpl never.
#[local] Arguments hexDefaultUser : simpl never.

Section restart.
Context {W : Type} `{CL : Client W, CC : ClientCodecs, RC : ResponseCodecs, GE : GethEncoding, SC : SubscriptionCodecs, AT : AddressText}.
Context `{VC : ViewingCrypto, KE : Keccak, ST : StorageCodecs, SG : SignatureCheck, !AddressBytesOk, KB : !KeyBytes}.
Context (iterate : AccountManager → list (Address * option EncRPCClient)).
Context (scanUsers : list (bytes * bytes) → list (bytes * bytes)) (Husers : ∀ l, scanUsers l ≡ₚ l).
Context (scanAccounts : list AccountRow → list AccountRow) (Haccounts : ∀ l, scanAccounts l ≡ₚ l).
Context (gethError : GoError → option (Z * option JSON)).
Context (Hdial : ∀ w, ∃ w', Dial w = (w', Ok tt)).
Implicit Types (g : Gateway W) (d : GatewayDB).

(** The accounts the tables have for a user. *)
Definition row_address (r : AccountRow) : Address := Bytes.BytesToAddress (ar_account_address r).
Definition accounts_of (userID : bytes) d : gset Address :=
  list_to_set (row_address <$> filter (λ r, ar_user_id r = userID) (gs_accounts d)).

(** No statement fails; the users have identifiers of bytes and usable keys, and the
    accounts belong to users. *)
Record tables_ok d : Prop := {
  tb_faults : gs_faults d = [];
  tb_users : ∀ userID k, gs_users d !! userID = Some k → Forall (λ x, is_byte x) userID ∧ (userID ≠ DefaultUser → ToECDSA k = Some k);
  tb_rows : ∀ r, r ∈ gs_accounts d → is_Some (gs_users d !! ar_user_id r)
}.

(** The manager of a user has the accounts of the tables, each with a client. *)
Definition loaded d (userID : bytes) (us : UserAccountManager) : Prop := ∃ m, us !! hex_EncodeToString userID = Some m ∧
  dom m = accounts_of userID d ∧ map_Forall (λ _ oc, is_Some oc) m.

(** What is in memory is what is in the tables, except for the default user. *)
Record in_step g : Prop := {
  st_tables : tables_ok (gw_storage g);
  st_loaded : ∀ userID, is_Some (gs_users (gw_storage g) !! userID) → userID ≠ DefaultUser → loaded (gw_storage g) userID (gw_managers g);
  st_known : ∀ u, is_Some (gw_managers g !! u) → u ≠ hexDefaultUser →
    ∃ userID, u = hex_EncodeToString userID ∧ is_Some (gs_users (gw_storage g) !! userID)
}.

Lemma CreateEncClient_run addr k sig g : ∃ w' r, try (CreateEncClient addr k sig) g = (mkGateway (gw_managers g) (gw_unsignedVKs g) (gw_storage g) w', Ok r) ∧
  (ToECDSA k = Some k → ∃ c, r = inl c).
Proof.
  destruct (Hdial (gw_host g)) as [w' Hw]. unfold CreateEncClient, BytesToPrivateKey, try, wrap, lift, on_gateway_host, zoom, mbind, M_bind.
  destruct (ToECDSA k) as [k'|]; cbn.
  - rewrite Hw. cbn. exists w'. eexists. split; [done|]. eauto.
  - exists (gw_host g). eexists. by destruct g.
Qed.

Lemma loadAccounts_run u k rows : ∀ g m, gw_managers g !! u = Some m →
  ∃ w' m', loadAccounts u k rows g = (mkGateway (<[u := m']> (gw_managers g)) (gw_unsignedVKs g) (gw_storage g) w', Ok tt) ∧
    dom m' = dom m ∪ list_to_set (row_address <$> rows) ∧
    (ToECDSA k = Some k → map_Forall (λ _ oc, is_Some oc) m → map_Forall (λ _ oc, is_Some oc) m').
Proof.
  induction rows as [|r rows IH]; intros g m Hm; cbn [loadAccounts].
  - exists (gw_host g), m. split_and!; [|cbn; by rewrite union_empty_r_L|done]. rewrite insert_id by done. by destruct g.
  - destruct (CreateEncClient_run (ar_account_address r) k (ar_signature r) g) as (w1&o&Hrun&Hok).
    unfold mbind, M_bind. rewrite Hrun. cbn. set (oc := match o with inl c => Some c | inr _ => None end).
    edestruct (IH (upd_managers (alter (AddClient (row_address r) oc) u) (mkGateway (gw_managers g) (gw_unsignedVKs g) (gw_storage g) w1)))
      as (w'&m'&Hrun'&Hdom&Hall); [by cbn; rewrite lookup_alter_eq, Hm|]. exists w', m'. unfold row_address in Hrun' at 1.
    rewrite Hrun'. cbn. split_and!.
    + do 2 f_equal. apply map_eq. intros u'. destruct (decide (u' = u)) as [->|]; [by rewrite !lookup_insert_eq|].
      by rewrite !lookup_insert_ne, lookup_alter_ne by done.
    + rewrite Hdom. unfold AddClient. rewrite dom_insert_L. cbn. by rewrite (assoc_L (∪)), (comm_L (∪) (dom m)).
    + intros Hk Hsome. apply Hall; [done|]. unfold AddClient. apply map_Forall_insert_2; [|done].
      destruct (Hok Hk) as [c ->]. by eexists.
Qed.
Lemma statement_run {A} (f : GatewayDB → GatewayDB * result A) d : gs_faults d = [] → gw_statement f d = f d.
Proof. intros Hd. unfold gw_statement. destruct d as [us rows faults]. cbn in *. by subst. Qed.

(** A query. *)
Lemma query_run {A} (q : GatewayDB → result A) g : gs_faults (gw_storage g) = [] →
  on_gateway_db (gw_statement (λ d, (d, q d))) g = (g, q (gw_storage g)).
Proof. intros Hd. unfold on_gateway_db, zoom. rewrite statement_run by done. by destruct g. Qed.

Lemma hex_inj b b' : Forall (λ x, is_byte x) b → Forall (λ x, is_byte x) b' → hex_EncodeToString b = hex_EncodeToString b' → b = b'.
Proof. intros Hb Hb' Heq. apply (f_equal hex_DecodeString) in Heq. rewrite !hex_roundtrip in Heq by done. by simplify_eq. Qed.

Lemma scanned_accounts userID d : list_to_set (row_address <$> scanAccounts (filter (λ r, ar_user_id r = userID) (gs_accounts d))) =@{gset Address} accounts_of userID d.
Proof. unfold accounts_of. apply list_to_set_perm_L. by rewrite Haccounts. Qed.

(** One user of the tables. *)
Lemma loadUser_run userID k l g : gs_faults (gw_storage g) = [] → default ∅ (gw_managers g !! hex_EncodeToString userID) = ∅ →
  ∃ w' m, loadUsers scanAccounts ((userID, k) :: l) g =
    loadUsers scanAccounts l (mkGateway (<[hex_EncodeToString userID := m]> (gw_managers g)) (gw_unsignedVKs g) (gw_storage g) w') ∧
    dom m = accounts_of userID (gw_storage g) ∧ (ToECDSA k = Some k → map_Forall (λ _ oc, is_Some oc) m).
Proof.
  intros Hf Hm. set (u := hex_EncodeToString userID) in *. set (g1 := upd_managers (AddAndReturnAccountManager u) g).
  assert (gw_managers g1 = <[u := ∅]> (gw_managers g)) as Hg1.
  { unfold g1, AddAndReturnAccountManager. cbn. destruct (gw_managers g !! u) as [m|] eqn:Hu; [|done]. cbn in Hm.
    change (id m = ∅) in Hm. unfold id in Hm. subst m. by rewrite insert_id. }
  destruct (loadAccounts_run u k (scanAccounts (filter (λ r, ar_user_id r = userID) (gs_accounts (gw_storage g)))) g1 ∅) as (w'&m&Hrun&Hdom&Hall).
  { by rewrite Hg1, lookup_insert_eq. }
  exists w', m. split_and!; [|by rewrite Hdom, scanned_accounts, dom_empty_L, union_empty_l_L|].
  - cbn [loadUsers]. fold u. rewrite (bind_eq _ _ _ g1 tt) by done. unfold try, mbind, M_bind, db_GetAccounts.
    rewrite query_run by done. cbn [gw_storage g1 upd_managers]. rewrite Hrun. by rewrite Hg1, insert_insert_eq.
  - intros Hk. by apply Hall.
Qed.

Lemma loadUsers_run l : ∀ g, gs_faults (gw_storage g) = [] → NoDup l.*1 → Forall (λ p, Forall (λ x, is_byte x) p.1) l →
  Forall (λ p, default ∅ (gw_managers g !! hex_EncodeToString p.1) = ∅) l →
  ∃ g', loadUsers scanAccounts l g = (g', Ok tt) ∧ gw_storage g' = gw_storage g ∧
    (∀ u, (∀ userID k, (userID, k) ∈ l → u ≠ hex_EncodeToString userID) → gw_managers g' !! u = gw_managers g !! u) ∧
    ∀ userID k, (userID, k) ∈ l → ∃ m, gw_managers g' !! hex_EncodeToString userID = Some m ∧
      dom m = accounts_of userID (gw_storage g) ∧ (ToECDSA k = Some k → map_Forall (λ _ oc, is_Some oc) m).
Proof.
  induction l as [|[userID k] l IH]; intros g Hf Hnd Hbytes Hnew.
  { exists g. split_and!; [done..|]. by intros ? ? ?%elem_of_nil. }
  cbn in Hnd. apply NoDup_cons in Hnd as [Hni Hnd]. apply Forall_cons in Hbytes as [Hb Hbytes], Hnew as [Hm Hnew].
  destruct (loadUser_run userID k l g Hf Hm) as (w'&m&Hrun&Hdom&Hall).
  assert (∀ userID' k', (userID', k') ∈ l → hex_EncodeToString userID' ≠ hex_EncodeToString userID) as Hne.
  { intros userID' k' Hin Heq. apply Hni. apply hex_inj in Heq as <-; [|by apply (proj1 (Forall_forall _ _) Hbytes _ Hin)|done].
    by apply (list_elem_of_fmap_2 fst _ (userID', k')). }
  edestruct (IH (mkGateway (<[hex_EncodeToString userID := m]> (gw_managers g)) (gw_unsignedVKs g) (gw_storage g) w')) as (g'&Hrun'&Hst&Hframe&Hload);
    [done|done|done| |].
  { apply Forall_forall. intros [userID' k'] Hin. cbn. rewrite lookup_insert_ne by (symmetry; by eapply Hne).
    by apply (proj1 (Forall_forall _ _) Hnew _ Hin). }
  exists g'. split_and!; [by rewrite Hrun|done| |].
  - intros u Hu. rewrite Hframe by (intros ? ? ?; eapply Hu; by right). cbn. rewrite lookup_insert_ne; [done|]. intros Heq. by eapply Hu; [left|].
  - intros userID' k' [[= -> ->]|Hin]%elem_of_cons; [|by apply Hload]. exists m. split_and!; [|done|done].
    rewrite Hframe; [by cbn; rewrite lookup_insert_eq|]. intros userID' k' Hin Heq. by eapply Hne.
Qed.

(** A new process has the users of the tables with their accounts. *)
Lemma restart_run d w : tables_ok d → ∃ g', NewWalletExtension scanUsers scanAccounts d w = (g', Ok tt) ∧ gw_storage g' = d ∧
  (∀ userID k, gs_users d !! userID = Some k → ∃ m, gw_managers g' !! hex_EncodeToString userID = Some m ∧
     dom m = accounts_of userID d ∧ (ToECDSA k = Some k → map_Forall (λ _ oc, is_Some oc) m)) ∧
  ∀ u, is_Some (gw_managers g' !! u) → u ≠ hexDefaultUser → ∃ userID, u = hex_EncodeToString userID ∧ is_Some (gs_users d !! userID).
Proof.
  intros [Hf Hus _]. set (g0 := mkGateway {[hexDefaultUser := ∅]} ∅ d w). set (l := scanUsers (map_to_list (gs_users d))).
  assert (∀ userID k, (userID, k) ∈ l ↔ gs_users d !! userID = Some k) as Hl.
  { intros userID k. unfold l. by rewrite Husers, elem_of_map_to_list. }
  destruct (loadUsers_run l g0) as (g'&Hrun&Hst&Hframe&Hload); [done| | | |].
  - unfold l. rewrite Husers. apply NoDup_fst_map_to_list.
  - apply Forall_forall. intros [userID k] Hin%Hl. by apply (Hus userID k).
  - apply Forall_forall. intros [userID k] _. unfold g0. cbn [gw_managers fst]. destruct (decide (hexDefaultUser = hex_EncodeToString userID)) as [<-|].
    + by rewrite lookup_singleton_eq.
    + by rewrite lookup_singleton_ne.
  - exists g'. split_and!; [|done| |].
    + unfold NewWalletExtension, loadGateway. rewrite (bind_eq _ _ _ g0 tt) by done. unfold try, mbind, M_bind, db_GetAllUsers.
      by rewrite query_run.
    + intros userID k Hk. by apply Hload, Hl.
    + intros u [m Hm] Hne. destruct (decide (Exists (λ p, u = hex_EncodeToString p.1) l)) as [([userID k]&Hin%Hl&->)%Exists_exists|Hno]; [by exists userID|].
      rewrite Hframe in Hm; [unfold g0 in Hm; cbn [gw_managers] in Hm; by rewrite lookup_singleton_ne in Hm|]. intros userID k Hin ->. apply Hno, Exists_exists. by exists (userID, k).
Qed.

Lemma restart_in_step g : in_step g → in_step (NewWalletExtension scanUsers scanAccounts (gw_storage g) (gw_host g)).1.
Proof.
  intros Hg. pose proof (st_tables _ Hg) as Ht. destruct (restart_run _ (gw_host g) Ht) as (g'&->&Hst&Hload&Hknown).
  constructor; cbn; rewrite Hst; [done| |done]. intros userID [k Hk] Hne. destruct (Hload _ _ Hk) as (m&Hm&Hdom&Hall).
  exists m. split_and!; [done|done|]. by apply Hall, (tb_users _ Ht userID).
Qed.

(** A user with the accounts of the tables before and after has the same accounts. *)
Lemma in_step_same g g' : in_step g → in_step g' → gw_storage g' = gw_storage g → ∀ u, u ≠ hexDefaultUser →
  dom <$> gw_managers g' !! u = (dom <$> gw_managers g !! u : option (gset Address)).
Proof.
  assert (∀ g g' u m, in_step g → in_step g' → gw_storage g' = gw_storage g → u ≠ hexDefaultUser → gw_managers g !! u = Some m →
    ∃ m', gw_managers g' !! u = Some m' ∧ dom m' = dom m) as Hone.
  { intros g1 g2 u m Hg1 Hg2 Hst Hne Hm. destruct (st_known _ Hg1 u) as (userID&->&Hid); [by eexists|done|].
    assert (userID ≠ DefaultUser) as Hnd by (by intros ->). destruct (st_loaded _ Hg1 _ Hid Hnd) as (m1&Hm1&Hd1&_).
    rewrite <-Hst in Hid. destruct (st_loaded _ Hg2 _ Hid Hnd) as (m2&Hm2&Hd2&_). exists m2. simplify_eq. split; [done|]. by rewrite Hd1, Hd2, Hst. }
  intros Hg Hg' Hst u Hne. destruct (gw_managers g !! u) as [m|] eqn:Hm.
  - destruct (Hone g g' u m) as (m'&->&Hd); [done..|]. cbn. by rewrite Hd.
  - destruct (gw_managers g' !! u) as [m'|] eqn:Hm'; [|done]. destruct (Hone g' g u m') as (?&?&_); [done..|congruence].
Qed.

(** *** The operations *)

Lemma accounts_of_app userID us rows r faults :
  accounts_of userID (mkGatewayDB us (rows ++ [r]) faults) =
  accounts_of userID (mkGatewayDB us rows faults) ∪ (if decide (ar_user_id r = userID) then {[row_address r]} else ∅).
Proof.
  unfold accounts_of. cbn. rewrite filter_app, fmap_app, list_to_set_app_L. f_equal. rewrite filter_cons.
  by destruct (decide _); cbn; rewrite ?union_empty_r_L.
Qed.

Lemma accounts_of_delete userID userID' us rows faults : userID' ≠ userID →
  accounts_of userID' (deleteUserRow true userID (mkGatewayDB us rows faults)) = accounts_of userID' (mkGatewayDB us rows faults).
Proof.
  intros Hne. unfold accounts_of, deleteUserRow. cbn. destruct (us !! userID); [|done]. f_equal. f_equal. rewrite list_filter_filter.
  apply list_filter_iff. intros r. naive_solver.
Qed.

Lemma deleteUserRow_tables userID d : tables_ok d → tables_ok (deleteUserRow true userID d).
Proof.
  intros [Hf Hus Hrows]. constructor; cbn; [done| |].
  - intros userID' k [_ Hk]%lookup_delete_Some. by apply Hus.
  - intros r Hr. destruct (gs_users d !! userID) eqn:Hid.
    + apply list_elem_of_filter in Hr as [Hne Hr]. rewrite lookup_delete_ne by done. by apply Hrows.
    + rewrite delete_id by done. by apply Hrows.
Qed.

Lemma AddUser_tables userID k d : Forall (λ x, is_byte x) userID → (userID ≠ DefaultUser → ToECDSA k = Some k) → tables_ok d →
  tables_ok (mkGatewayDB (<[userID := k]> (gs_users (deleteUserRow true userID d))) (gs_accounts (deleteUserRow true userID d)) (gs_faults d)).
Proof.
  intros Hb Hk [Hf Hus Hrows]%(deleteUserRow_tables userID). constructor; cbn [gs_users gs_accounts gs_faults] in *; [done| |].
  - intros userID' k' [[<- <-]|[_ Hk']]%lookup_insert_Some; [done|by apply Hus].
  - intros r Hr. destruct (decide (ar_user_id r = userID)) as [->|]; [by rewrite lookup_insert_eq|].
    rewrite lookup_insert_ne by done. by apply Hrows.
Qed.

Lemma DefaultUser_bytes : Forall (λ x, is_byte x) DefaultUser.
Proof. apply (bool_decide_unpack _). vm_compute. exact I. Qed.

(** A user that is not in memory is not the default user, nor one of the tables. *)
Lemma fresh_user g userID : in_step g → Forall (λ x, is_byte x) userID → userID ≠ DefaultUser → gs_users (gw_storage g) !! userID = None →
  gw_managers g !! hex_EncodeToString userID = None ∧ accounts_of userID (gw_storage g) = ∅.
Proof.
  intros Hg Hb Hnd Hnone. split.
  - apply eq_None_not_Some. intros Hm. destruct (st_known _ Hg _ Hm) as (userID'&Heq&[k Hk]).
    + intros Heq. apply Hnd. by apply hex_inj; [|apply DefaultUser_bytes|].
    + apply hex_inj in Heq as <-; [congruence|done|]. by apply (tb_users _ (st_tables _ Hg) userID' k).
  - apply elem_of_equiv_empty_L. intros a Ha. apply elem_of_list_to_set, list_elem_of_fmap in Ha as (r&_&[<- Hr]%list_elem_of_filter).
    destruct (tb_rows _ (st_tables _ Hg) r Hr) as [? ?]. congruence.
Qed.

Lemma join_in_step k g : ToECDSA k = Some k → gs_users (gw_storage g) !! CalculateUserID (PrivateKeyToCompressedPubKey k) = None →
  in_step g → in_step (GenerateAndStoreNewUser true (Ok k) g).1.
Proof.
  intros Hk Hnone Hg. set (userID := CalculateUserID (PrivateKeyToCompressedPubKey k)) in *.
  assert (Forall (λ x, is_byte x) userID) as Hb by apply keccak_bytes.
  assert (userID ≠ DefaultUser) as Hnd by (intros Heq; apply (f_equal length) in Heq; unfold userID, CalculateUserID in Heq; by rewrite keccak_length in Heq).
  destruct (fresh_user g userID Hg Hb Hnd Hnone) as [Hmem Hacc]. destruct Hg as [Ht Hload Hknown].
  pose proof (AddUser_tables userID k _ Hb (λ _, Hk) Ht) as Ht'. pose proof (tb_faults _ Ht) as Hf.
  unfold GenerateAndStoreNewUser, on_gateway_db, zoom, mbind, M_bind, db_AddUser. fold userID. rewrite statement_run by done. cbn.
  unfold upd_managers, AddAndReturnAccountManager. cbn. rewrite Hmem. cbn in Ht'. rewrite Hnone in *.
  constructor; cbn; [done| |].
  - intros userID' Hid Hnd'. rewrite insert_delete_eq in Hid. destruct (decide (userID' = userID)) as [->|Hne].
    + exists ∅. split_and!; [by rewrite lookup_insert_eq|by rewrite dom_empty_L|apply map_Forall_empty].
    + rewrite lookup_insert_ne in Hid by done. destruct (Hload userID' Hid Hnd') as (m&Hm&Hd). exists m.
      split; [|done]. rewrite lookup_insert_ne; [done|]. intros Heq. congruence.
  - intros u Hu Hne. rewrite insert_delete_eq. destruct (decide (u = hex_EncodeToString userID)) as [->|Hneu].
    + exists userID. by rewrite lookup_insert_eq.
    + rewrite lookup_insert_ne in Hu by done. destruct (Hknown u Hu Hne) as (userID'&->&Hid). exists userID'. split; [done|].
      rewrite lookup_insert_ne; [done|]. congruence.
Qed.

Lemma revoke_in_step userID g : Forall (λ x, is_byte x) userID → in_step g → in_step (DeleteUser true (hex_EncodeToString userID) g).1.
Proof.
  intros Hb [Ht Hload Hknown]. unfold DeleteUser, GetUserIDbyte. rewrite hex_roundtrip by done.
  pose proof (deleteUserRow_tables userID _ Ht) as Ht'.
  unfold on_gateway_db, zoom, lift, mbind, M_bind, db_DeleteUser. cbn [of_option]. rewrite statement_run by (by apply tb_faults).
  set (us' := (DeleteUserAccountManager (hex_EncodeToString userID) (gw_managers g)).1).
  assert (∀ u, us' !! u = delete (hex_EncodeToString userID) (gw_managers g) !! u) as Hus.
  { intros u. unfold us', DeleteUserAccountManager. destruct (gw_managers g !! hex_EncodeToString userID) eqn:Hm; [done|]. cbn. by rewrite delete_id. }
  constructor; cbn; fold us'; [done| |].
  - intros userID' [k [Hne Hk]%lookup_delete_Some] Hnd. destruct (Hload userID' ltac:(by eexists) Hnd) as (m&Hm&Hd&Hall). exists m.
    rewrite Hus, lookup_delete_ne by (intros Heq%hex_inj; [done|done|by apply (tb_users _ Ht userID' k)]).
    split_and!; [done| |done]. destruct (gw_storage g). by rewrite accounts_of_delete.
  - intros u [m Hm] Hne. rewrite Hus in Hm. apply lookup_delete_Some in Hm as [Hneu Hm]. destruct (Hknown u) as (userID'&->&Hid); [by eexists|done|].
    exists userID'. split; [done|]. rewrite lookup_delete_ne; [done|]. by intros ->.
Qed.

Lemma authenticate_cases userID message sig0 g : Forall (λ x, is_byte x) userID → gs_faults (gw_storage g) = [] →
  let d := gw_storage g in let u := hex_EncodeToString userID in
  ∃ g' r, AddAddressToUser true u message sig0 g = (g', r) ∧
  (g' = g ∨ ∃ a sig k oc w', userID ≠ DefaultUser ∧ gs_users d !! userID = Some k ∧ (ToECDSA k = Some k → is_Some oc) ∧
    g' = mkGateway (alter (AddClient a oc) u (AddAndReturnAccountManager u (gw_managers g))) (gw_unsignedVKs g)
           (mkGatewayDB (gs_users d) (gs_accounts d ++ [mkAccountRow userID (Address_Bytes a) sig]) []) w').
Proof.
  intros Hb Hf d u. unfold AddAddressToUser. unfold mbind at 1, M_bind at 1, lift at 1.
  destruct (GetUserIDAndAddressFromMessage message) as [[messageUserID addr]|err|cr]; [|by eexists _, _; split; [|left]..].
  destruct (String.eqb u messageUserID) eqn:Hu; [|by eexists _, _; split; [|left]]. apply String.eqb_eq in Hu as <-.
  destruct (String.length u =? MessageUserIDLen)%nat eqn:Hlen; [|by eexists _, _; split; [|left]]. apply Nat.eqb_eq in Hlen. cbn [negb orb].
  destruct (verifySignature message sig0 (HexToAddress addr)) as [sig [b|err|cr]]; [|by eexists _, _; split; [|left]..].
  unfold GetUserIDbyte. rewrite (hex_roundtrip userID Hb : hex_DecodeString u = _). unfold lift, mbind, M_bind. cbn [of_option].
  unfold on_gateway_db at 1, zoom, db_AddAccount. rewrite statement_run by done. unfold d. destruct (gs_users (gw_storage g) !! userID) as [k|] eqn:Hk.
  - rewrite bool_decide_true by (by eexists). cbn [negb andb]. unfold try at 1, db_GetUserPrivateKey. rewrite query_run by done.
    cbn [gw_storage gs_users]. rewrite Hk. cbn [of_option]. unfold modify at 1.
    edestruct (CreateEncClient_run (Address_Bytes (HexToAddress addr)) k sig) as (w'&r&->&Hok). eexists _, _. split; [reflexivity|]. right.
    exists (HexToAddress addr), sig, k, (match r with inl c => Some c | inr _ => None end), w'. split_and!; [|done| |by rewrite <-Hf].
    + apply (userID_not_default u); [done|by apply hex_roundtrip].
    + intros Hk'. destruct (Hok Hk') as [c ->]. by eexists.
  - rewrite bool_decide_false by (by intros [? ?]). cbn [negb andb]. eexists _, _. split; [reflexivity|]. left. by destruct g.
Qed.

Lemma authenticate_in_step userID message sig0 g : Forall (λ x, is_byte x) userID → in_step g →
  in_step (AddAddressToUser true (hex_EncodeToString userID) message sig0 g).1.
Proof.
  intros Hb Hg. destruct (authenticate_cases userID message sig0 g Hb (tb_faults _ (st_tables _ Hg)))
    as (g'&r&->&[->|(a&sig&k&oc&w'&Hnd&Hk&Hoc&->)]); [done|].
  destruct Hg as [Ht Hload Hknown]. destruct (Hload userID ltac:(by eexists) Hnd) as (m&Hm&Hdom&Hall).
  unfold AddAndReturnAccountManager. rewrite Hm. destruct Ht as [Hf Hus Hrows]. constructor; cbn.
  - constructor; cbn; [done|done|]. intros r' [Hr|Hr%list_elem_of_singleton]%elem_of_app; [by apply Hrows|subst r'; by eexists].
  - intros userID' Hid Hnd'. destruct (gw_storage g) as [us rows faults]. cbn in *. subst faults. unfold loaded. rewrite accounts_of_app. cbn.
    destruct (decide (userID = userID')) as [<-|Hne].
    + exists (<[a := oc]> m). rewrite lookup_alter_eq, Hm. split_and!; [done| |].
      * rewrite dom_insert_L, Hdom. unfold row_address. cbn. rewrite address_roundtrip. set_solver.
      * apply map_Forall_insert_2; [|done]. by apply Hoc, (Hus userID).
    + rewrite lookup_alter_ne, union_empty_r_L; [by apply Hload|]. destruct Hid as [k' Hk'].
      intros Heq%hex_inj; [done|done|]. by apply (Hus userID' k').
  - intros u Hu Hne. apply Hknown; [|done]. destruct Hu as [m' Hu]. apply lookup_alter_Some in Hu as [(<-&?&?&_)|[_ ?]]; by eexists.
Qed.

(** Requests and queries change neither the managers nor the tables. *)
Lemma preserves_in_step {A} (m : M (Gateway W) A) :
  (∀ us d, gs_faults d = [] → preserves (λ g, gw_managers g = us ∧ gw_storage g = d) m) → ∀ g, in_step g → in_step (m g).1.
Proof.
  intros Hm g [Ht Hload Hknown]. destruct (Hm (gw_managers g) (gw_storage g) (tb_faults _ Ht) g) as [Heq Hd]; [done|].
  constructor; rewrite ?Heq, Hd; done.
Qed.

Lemma query_keeps {A} (q : GatewayDB → result A) us d : gs_faults d = [] →
  preserves (λ g, gw_managers g = us ∧ gw_storage g = d) (on_gateway_db (gw_statement (λ d, (d, q d)))).
Proof. intros Hf g [Hus Hd]. rewrite query_run; [done|]. by rewrite Hd. Qed.

Lemma request_in_step req u g : in_step g → in_step (ProxyEthRequest iterate gethError req u g).1.
Proof.
  apply preserves_in_step. intros us d Hf. unfold ProxyEthRequest. apply preserves_bind.
  - destruct (String.eqb _ _); [|apply preserves_ret]. unfold getStorageAtInterceptor. destruct (checkParametersForInterceptedGetStorageAt _); [|apply preserves_ret].
    destruct (GetUserIDbyte u); [|apply preserves_ret..]. apply preserves_bind; [by apply preserves_try, query_keeps|intros; apply preserves_ret].
  - intros [resp|]; [apply preserves_ret|]. unfold proxyToNode. apply preserves_bind; [by intros ? ?|]. intros ms.
    apply preserves_bind; [apply preserves_lift|]. intros m. apply preserves_bind; [|intros; apply preserves_ret]. apply preserves_try.
    intros g' Hg'. unfold on_gateway_host, zoom. by destruct (ProxyRequest _ _ _ _).
Qed.

Lemma query_in_step u a g : in_step g → in_step (UserHasAccount scanAccounts u a g).1.
Proof.
  apply preserves_in_step. intros us d Hf. unfold UserHasAccount. destruct (GetUserIDbyte u); [|destruct (_ <? _)%nat; auto with go|apply preserves_crash].
  destruct (_ <? _)%nat; [apply preserves_crash|]. apply preserves_bind; [apply preserves_lift|]. intros b.
  apply preserves_bind; [by apply query_keeps|intros; apply preserves_ret].
Qed.

(** *** The default user *)

(** What is done for the default user changes nothing for the others. *)
Record default_only g g' : Prop := {
  do_managers : ∀ u, u ≠ hexDefaultUser → gw_managers g' !! u = gw_managers g !! u;
  do_users : ∀ userID, userID ≠ DefaultUser → gs_users (gw_storage g') !! userID = gs_users (gw_storage g) !! userID;
  do_accounts : ∀ userID, userID ≠ DefaultUser → accounts_of userID (gw_storage g') = accounts_of userID (gw_storage g);
  do_tables : tables_ok (gw_storage g')
}.

Lemma default_only_in_step g g' : in_step g → default_only g g' → in_step g'.
Proof.
  intros [Ht Hload Hknown] [Hm Hu Ha Ht']. constructor; [done| |].
  - intros userID [k Hk] Hnd. unfold loaded. rewrite Ha by done. rewrite Hm; [|intros Heq%hex_inj; [done|by apply (tb_users _ Ht' userID k)|apply DefaultUser_bytes]].
    apply Hload; [|done]. rewrite <-Hu by done. by eexists.
  - intros u Hu' Hne. rewrite Hm in Hu' by done. destruct (Hknown u Hu' Hne) as (userID&->&Hid). exists userID. split; [done|].
    rewrite Hu; [done|]. by intros ->.
Qed.

Lemma default_only_memory g f us w : tables_ok (gw_storage g) →
  default_only g (mkGateway (alter f hexDefaultUser (gw_managers g)) us (gw_storage g) w).
Proof. intros Ht. constructor; cbn; [|done..|done]. intros u Hu. by rewrite lookup_alter_ne. Qed.

(** The tables after the default user and the account of a row are stored: the accounts
    it had before are gone. *)
Definition stored_default (k : bytes) (r : AccountRow) d : GatewayDB :=
  let d' := deleteUserRow true DefaultUser d in mkGatewayDB (<[DefaultUser := k]> (gs_users d')) (gs_accounts d' ++ [r]) [].

Lemma stored_default_tables k r d : ar_user_id r = DefaultUser → tables_ok d → tables_ok (stored_default k r d).
Proof.
  intros Hr Ht. destruct (AddUser_tables DefaultUser k d DefaultUser_bytes ltac:(done) Ht) as [Hf Hus Hrows].
  constructor; [done|exact Hus|]. cbn [stored_default gs_accounts gs_users]. intros r' [Hr'|Hr'%list_elem_of_singleton]%elem_of_app; [by apply Hrows|].
  subst r'. by rewrite Hr, lookup_insert_eq.
Qed.

Lemma stored_default_accounts k r d : ar_user_id r = DefaultUser → tables_ok d → accounts_of DefaultUser (stored_default k r d) = {[row_address r]}.
Proof.
  intros Hr Ht. unfold stored_default. cbn [gs_users gs_accounts deleteUserRow]. rewrite accounts_of_app, decide_True by done.
  replace (accounts_of _ _) with (∅ : gset Address); [by rewrite union_empty_l_L|]. symmetry. apply elem_of_equiv_empty_L. intros a Ha.
  apply elem_of_list_to_set, list_elem_of_fmap in Ha as (r'&_&[Hid Hr']%list_elem_of_filter). cbn in Hr'.
  destruct (gs_users d !! DefaultUser) eqn:Hd; [by apply list_elem_of_filter in Hr' as [? _]|].
  destruct (tb_rows _ Ht r' Hr') as [? Hsome]. congruence.
Qed.

Lemma stored_default_only k r g f us w : ar_user_id r = DefaultUser → tables_ok (gw_storage g) →
  default_only g (mkGateway (alter f hexDefaultUser (gw_managers g)) us (stored_default k r (gw_storage g)) w).
Proof.
  intros Hr Ht. constructor; cbn [gw_managers gw_storage].
  - intros u Hu. by rewrite lookup_alter_ne.
  - intros userID Hne. cbn. by rewrite lookup_insert_ne, lookup_delete_ne by done.
  - intros userID Hne. unfold stored_default. destruct (gw_storage g) as [us' rows faults]. cbn zeta. rewrite accounts_of_app, decide_False by congruence.
    rewrite union_empty_r_L. by apply (accounts_of_delete DefaultUser userID us' rows faults).
  - by apply stored_default_tables.
Qed.

Lemma submit_cases a sig g : tables_ok (gw_storage g) → ∃ g' r, SubmitViewingKey true a sig g = (g', r) ∧ default_only g g' ∧
  ∀ vk, r = Ok tt → gw_unsignedVKs g !! a = Some vk →
    gw_storage g' = stored_default (ec_PrivateKey vk) (mkAccountRow DefaultUser (Address_Bytes (ec_Account vk)) (add_V (-27) sig)) (gw_storage g) ∧
    ∃ m, gw_managers g !! hexDefaultUser = Some m ∧ ∃ m', gw_managers g' !! hexDefaultUser = Some m' ∧ dom m' = {[a]} ∪ dom m.
Proof.
  intros Ht. assert (default_only g g) as Hrefl by (by constructor). unfold SubmitViewingKey.
  destruct (gw_unsignedVKs g !! a) as [vk|] eqn:Hvk; [|by eexists _, _; split_and!].
  destruct (length sig <=? 64)%nat; [by eexists _, _; split_and!|]. destruct (Hdial (gw_host g)) as [w' Hw].
  unfold submitSigned, wrap, on_gateway_host, zoom, gets, GetUserAccountManager, mbind, M_bind. cbn. rewrite Hw. cbn.
  rewrite lookup_alter_eq. destruct (gw_managers g !! hexDefaultUser) as [m|] eqn:Hm; cbn.
  2: { eexists _, _. split_and!; [reflexivity|by apply (default_only_memory g)|done]. }
  unfold try, on_gateway_db, zoom, db_AddUser, db_AddAccount. rewrite statement_run by (by apply tb_faults). cbn.
  rewrite statement_run by (exact (tb_faults _ Ht)). cbn. rewrite lookup_insert_eq, bool_decide_true by (by eexists). cbn.
  rewrite alter_alter_eq, (tb_faults _ Ht). eexists _, _. split_and!; [reflexivity|by apply (stored_default_only (ec_PrivateKey vk))|].
  intros ? _ [= <-]. split; [done|]. exists m. split; [done|]. cbn. rewrite lookup_alter_eq, Hm. eexists. split; [done|].
  cbn. unfold AddClient. by rewrite dom_insert_L, dom_alter_L.
Qed.

Lemma submit_in_step a sig g : in_step g → in_step (SubmitViewingKey true a sig g).1.
Proof.
  intros Hg. destruct (submit_cases a sig g (st_tables _ Hg)) as (g'&r&->&Hd&_). by apply (default_only_in_step g).
Qed.

Lemma generate_in_step a newKey g : in_step g → in_step (GenerateViewingKey a newKey g).1.
Proof.
  apply preserves_in_step. intros us d _. unfold GenerateViewingKey. apply preserves_bind; [apply preserves_wrap, preserves_lift|].
  intros k. apply preserves_bind; [by intros ? [? ?]|intros; apply preserves_ret].
Qed.

(** The requests of clients that send identifiers as they were given, with foreign keys
    enforced; a new user has a key that no other user has; restarts. *)
Inductive orderly_step g : Gateway W → Prop :=
  | orderly_generate a newKey : orderly_step g (GenerateViewingKey a newKey g).1
  | orderly_submit a sig : orderly_step g (SubmitViewingKey true a sig g).1
  | orderly_join k : ToECDSA k = Some k → gs_users (gw_storage g) !! CalculateUserID (PrivateKeyToCompressedPubKey k) = None →
      orderly_step g (GenerateAndStoreNewUser true (Ok k) g).1
  | orderly_authenticate userID message sig : Forall (λ x, is_byte x) userID →
      orderly_step g (AddAddressToUser true (hex_EncodeToString userID) message sig g).1
  | orderly_query u a : orderly_step g (UserHasAccount scanAccounts u a g).1
  | orderly_revoke userID : Forall (λ x, is_byte x) userID → orderly_step g (DeleteUser true (hex_EncodeToString userID) g).1
  | orderly_request req u : orderly_step g (ProxyEthRequest iterate gethError req u g).1
  | orderly_restart : orderly_step g (NewWalletExtension scanUsers scanAccounts (gw_storage g) (gw_host g)).1.

Lemma orderly_in_step g g' : orderly_step g g' → in_step g → in_step g'.
Proof.
  intros [] Hg; [by apply generate_in_step|by apply submit_in_step|by apply join_in_step|by apply authenticate_in_step|by apply query_in_step|
    by apply revoke_in_step|by apply request_in_step|by apply restart_in_step].
Qed.

(** C25: as long as the host can be dialled, the database of the gateway has no faults and
    enforces foreign keys, and clients send user identifiers in lower-case digits as they
    were given: whatever joins, registrations, revocations, requests and restarts come
    before, a restart of the gateway brings back the same users with the same accounts, and
    every account has a client, for all users but the default one. *)
Theorem accounts_survive_restart w g : rtc orderly_step (NewWalletExtension scanUsers scanAccounts (mkGatewayDB ∅ [] []) w).1 g →
  let g' := (NewWalletExtension scanUsers scanAccounts (gw_storage g) (gw_host g)).1 in
  ∀ u, u ≠ hexDefaultUser → dom <$> gw_managers g' !! u = (dom <$> gw_managers g !! u : option (gset Address)) ∧
    ∀ m, gw_managers g' !! u = Some m → map_Forall (λ _ oc, is_Some oc) m.
Proof.
  intros Hsteps g' u Hne. assert (in_step g) as Hg.
  { assert (in_step (NewWalletExtension scanUsers scanAccounts (mkGatewayDB ∅ [] []) w).1) as H0.
    { apply (restart_in_step (mkGateway ∅ ∅ (mkGatewayDB ∅ [] []) w)). constructor; [constructor|..]; cbn; [done|..].
      - by intros ? ? ?%lookup_empty_Some.
      - by intros ? ?%elem_of_nil.
      - by intros ? [? ?%lookup_empty_Some].
      - by intros ? [? ?%lookup_empty_Some]. }
    revert H0. induction Hsteps as [|g1 g2 g3 Hstep _ IH]; [done|]. intros H1. by apply IH, (orderly_in_step g1). }
  pose proof (restart_in_step g Hg) as Hg'. fold g' in Hg'. split.
  - apply in_step_same; [done..| |done]. unfold g'. by destruct (restart_run _ (gw_host g) (st_tables _ Hg)) as (?&->&?&_).
  - intros m Hm. destruct (st_known _ Hg' u ltac:(by eexists) Hne) as (userID&->&Hid).
    destruct (st_loaded _ Hg' userID Hid) as (m'&Hm'&_&Hall); [by intros ->|]. by simplify_eq.
Qed.

(** C40: Signing a viewing key of the default user stores the user again, which deletes
    its accounts: in memory the account is added to the ones before it, but a restart
    brings back this account alone. *)
Theorem default_user_forgets a sig vk g g' w : tables_ok (gw_storage g) → gw_unsignedVKs g !! a = Some vk → ec_Account vk = a →
  SubmitViewingKey true a sig g = (g', Ok tt) →
  ∃ m m' g'' m'', gw_managers g !! hexDefaultUser = Some m ∧ gw_managers g' !! hexDefaultUser = Some m' ∧ dom m' = {[a]} ∪ dom m ∧
    NewWalletExtension scanUsers scanAccounts (gw_storage g') w = (g'', Ok tt) ∧
    gw_managers g'' !! hexDefaultUser = Some m'' ∧ dom m'' = {[a]}.
Proof.
  intros Ht Hvk Ha Hsub. destruct (submit_cases a sig g Ht) as (g1&r&Hsub'&Hd&Hok). rewrite Hsub in Hsub'. simplify_eq.
  destruct (Hok vk eq_refl Hvk) as (Hst&m&Hm&m'&Hm'&Hdom). destruct (restart_run _ w (do_tables _ _ Hd)) as (g''&Hre&_&Hload&_).
  destruct (Hload DefaultUser (ec_PrivateKey vk)) as (m''&Hm''&Hdom''&_); [by rewrite Hst; cbn; rewrite lookup_insert_eq|].
  exists m, m', g'', m''. split_and!; [done..|]. rewrite Hdom'', Hst, stored_default_accounts by done.
  unfold row_address. cbn. by rewrite address_roundtrip.
Qed.
End restart.

(** ** The extension, the host and the enclave together *)

Section system.
Context {C : Type} `{CacheOk C, StateModel, StorageCodecsOk, HashingOk, MB : MessageBus}.
Context `{OW : !OwnerWallet, KE : Keccak, EV : !EVM, EVOK : !EVMOk, CS : !Codec (list Z), RollupCodecs, BlobServices, Signatures}.
Context `{MgmtABI, AT : !Attestations, CE : !Codec ExtRollup, VC : ViewingCrypto, SubscriptionCodecs}.
Context `{GE : GethEncoding, CL : !Calls, TF : TxFields, RC : ResponseCodecs}.
Context (fuel : nat) (cfg : EnclaveConfig) (AuthSender : L2Tx → option Address) (iterate : Mempool.t → list L2Tx) (mc : Machine).
Context {W : Type} `{L1Sender W, HC : HostCodecs, PC : P2PCodecs, RCC : RPCCodecs, AK : !AnswersKept}.
Context (hostData : Identity) (pcfg : P2PConfig).
Context `{CC : ClientCodecs, UJ : UserJSON, CCO : !ClientCodecsOk}.
Context (config : HostConfig) (decodePlain : string → list JSON → option PlainRequest) (json_plainResult : PlainResult → option JSON).
Context (newID : Host W (Wired (Service C)) → string).
Context `{AX : AddressText, SG : SignatureCheck, !AddressBytesOk, KB : !KeyBytes}.
Context (each : AccountManager → list (Address * option EncRPCClient)) (Heach : ∀ m, each m ≡ₚ map_to_list m).
Context (enforced : bool) (gethError : GoError → option (Z * option JSON)).
Context (scanUsers : list (bytes * bytes) → list (bytes * bytes)) (Husers : ∀ l, scanUsers l ≡ₚ l).
Context (scanAccounts : list AccountRow → list AccountRow) (Haccounts : ∀ l, scanAccounts l ≡ₚ l).

#[local] Instance node : Client (Host W (Wired (Service C))) :=
  host_client fuel cfg AuthSender iterate mc hostData pcfg config decodePlain json_plainResult newID.
Abbreviation reachable d tr := (gateway_reachable each enforced scanUsers scanAccounts gethError (serves d tr)).


Context `{EN : !Encodes, RCO : !RPCCodecsOk}.

(** C7: A user that joins, registers an account with the signature of its owner under the
    message of the enclave, and asks for the balance of the account is answered with the
    balance that the enclave computes for the account at that block: through the handlers
    of the gateway, the encryption of the client, the host, the RPC connection and the
    enclave, which returns it encrypted for the user's key. *)
Theorem balance_through_gateway g sv k a sig req txt num n bal s' :
  let pub := PrivateKeyToCompressedPubKey k in
  gs_faults (gw_storage g) = [] → gw_managers g !! userOf k = None → ToECDSA k = Some k →
  length sig = SignatureLen → Forall (λ x, is_byte x) sig → HexToAddress (addressText a) = a →
  RecoverAddress (GenerateSignMessageOG pub a) sig = Some a → ecdsa_Verify (GenerateSignMessageOG pub a) sig = true →
  is_Some (RecoverAddress (GenerateSignMessage pub) sig) →
  g_enclave (ho_guardian (gw_host g)) = up sv → sv_stopping sv = false →
  rq_Method req = rpc_GetBalance → rq_Params req = [JString txt; JString num] →
  asciiText txt = true → isBlank txt = false → HexToAddress txt = a → asciiText num = true → UnmarshalBlockNumber num = Some n →
  chain_GetBalance a n (e_storage (sv_enclave sv)) = (s', Ok (a, bal)) →
  ∃ g1 g2 g3, joinRequestHandler enforced (Ok k) g = (g1, Ok [ReplyText (userOf k)]) ∧
    authenticateRequestHandler enforced (authenticateBody (GenerateSignMessageOG pub a) sig) (query_u (userOf k)) g1 = (g2, Ok [ReplyText "success"]) ∧
    ethRequestHandler each gethError (Ok req) false (query_u (userOf k)) g2 =
      (g3, Ok [ReplyJSON (rpcResponse (rq_ID req) (adjustStateRoot (json_data (UBalance bal))))]).
Proof.
  intros pub Hf Hnew Hto Hlen Hsig Haddr Hrec Hver Hleg Henc Hstop Hmeth Hpar Htxt Hblank Ha Hnum Hn Hbal.
  set (c := mkEncRPCClient (mkViewingKey a pub sig) k).
  destruct (registered_run enforced g k a sig (gw_host g) (Ok tt)) as (g1&g2&Hjoin&Hauth&Hm&Hw); [done..|].
  destruct (balance_delivered fuel cfg AuthSender iterate mc hostData pcfg config decodePlain json_plainResult newID
    c a txt num n bal s' (gw_host g) sv) as [h' Hcall]; [done..|].
  rewrite <-Hmeth, <-Hpar, <-Hw in Hcall.
  pose proof (asked_run each Heach gethError g2 (userOf k) a c req h' _ Hm ltac:(by rewrite Hmeth) Hcall) as Hasked.
  exists g1, g2. eexists. split_and!; [done|done|exact Hasked].
Qed.

Context `{PCO : !P2PCodecsOk, PE : !P2PEncodes}.
Context (seqCfg : EnclaveConfig) (seqHost : P2PConfig).
#[local] Instance sequencer_service : EnclaveAPI (Service C) := service_api fuel seqCfg AuthSender iterate mc.

(** C8: A user that joins and registers an account can send a transaction of the account:
    the answer is the hash of the transaction, and the host of the validator has sent
    one message to the sequencer, encrypted for the enclave.  The host of the sequencer
    passes it to its enclave, which puts the transaction that the user sent in its
    mempool under this hash. *)
Theorem transaction_reaches_sequencer g sv k a sig req txt tx sequencer peers (gs : Guardian W (Wired (Service C))) svs self :
  let pub := PrivateKeyToCompressedPubKey k in
  gs_faults (gw_storage g) = [] → gw_managers g !! userOf k = None → ToECDSA k = Some k →
  length sig = SignatureLen → Forall (λ x, is_byte x) sig → HexToAddress (addressText a) = a →
  RecoverAddress (GenerateSignMessageOG pub a) sig = Some a → ecdsa_Verify (GenerateSignMessageOG pub a) sig = true →
  is_Some (RecoverAddress (GenerateSignMessage pub) sig) →
  g_enclave (ho_guardian (gw_host g)) = up sv → sv_stopping sv = false → NodeRole cfg = ValidatorNode →
  host_IsStopping (gw_host g) = false → hd_IsSequencer hostData = false → isSequencer pcfg = false →
  calm (g_l2repo (ho_guardian (gw_host g))) → peerAddresses (rp_p2p (g_l2repo (ho_guardian (gw_host g)))) = sequencer :: peers →
  g_enclave gs = up svs → sv_stopping svs = false → NodeRole seqCfg = SequencerNode → isSequencer seqHost = true →
  Subscribers (txSubscribers (rp_p2p (g_l2repo gs))) = [self] →
  rq_Method req = rpc_SendRawTransaction → rq_Params req = [JString txt] → asciiText txt = true →
  ExtractTx txt = Ok tx → Sender tx = Some a → is_Some (AuthSender tx) → IsSyntheticTransaction tx = false →
  checkGas cfg tx = Ok tt → checkGas seqCfg tx = Ok tt →
  ∃ g1 g2 g3 m params gs' svs', joinRequestHandler enforced (Ok k) g = (g1, Ok [ReplyText (userOf k)]) ∧
    authenticateRequestHandler enforced (authenticateBody (GenerateSignMessageOG pub a) sig) (query_u (userOf k)) g1 = (g2, Ok [ReplyText "success"]) ∧
    ethRequestHandler each gethError (Ok req) false (query_u (userOf k)) g2 =
      (g3, Ok [ReplyJSON (rpcResponse (rq_ID req) (adjustStateRoot (json_data (URawTx (Hash_Hex (tx_hash tx))))))]) ∧
    sent (g_l2repo (ho_guardian (gw_host g3))) = sent (g_l2repo (ho_guardian (gw_host g))) ++ [(sequencer, m)] ∧
    started (P2P.handle seqHost m (rp_p2p (g_l2repo gs))) = started (rp_p2p (g_l2repo gs)) ++ [CallHandleTransaction self params] ∧
    HandleTransaction params gs = (gs', Ok tt) ∧ g_enclave gs' = up svs' ∧
    e_mempool (sv_enclave svs') = <[tx_hash tx := tx]> (e_mempool (sv_enclave svs)).
Proof.
  intros pub Hf Hnew Hto Hlen Hsig Haddr Hrec Hver Hleg Henc Hstop Hrole Hhost Hval Hnot Hcalm Hpeers.
  intros Hencs Hstops Hroles Hseq Hself Hmeth Hpar Htxt Htx Hsender Hauths Hsyn Hgas Hgass.
  set (c := mkEncRPCClient (mkViewingKey a pub sig) k).
  destruct (registered_run enforced g k a sig (gw_host g) (Ok tt)) as (g1&g2&Hjoin&Hauth&Hm&Hw); [done..|].
  destruct (transaction_delivered fuel cfg AuthSender iterate mc hostData pcfg config decodePlain json_plainResult newID
    c a txt tx (gw_host g) sv sequencer peers) as (h'&m&params&Hcall&Hsent&Hmsg&Hdec); [done..|].
  destruct (transaction_heard fuel seqCfg AuthSender iterate mc seqHost c a txt tx params m (ourPublicAddress pcfg) self gs svs)
    as (Hstarted&gs'&svs'&Hheard&Hencs'&Hpool); [done..|].
  rewrite <-Hmeth, <-Hpar, <-Hw in Hcall.
  pose proof (asked_run each Heach gethError g2 (userOf k) a c req h' _ Hm ltac:(by rewrite Hmeth) Hcall) as Hasked.
  exists g1, g2. eexists. exists m, params, gs', svs'. split_and!; [exact Hjoin|exact Hauth|exact Hasked|exact Hsent|done..].
Qed.
End system.
