(* ===== verification/GuardianSpec.v ===== *)
(** * What the guardian achieves

    A guardian brings its enclave up to date with the batches of its repository, and
    stops feeding it once the receipts of a block could not be fetched. *)

From S2P Require Import Prelude Types Codec Bytes L1Chain EnclaveDB BatchDB Events Storage StorageInv StorageOps StorageSpec CrossChain BlockProcessor Reads Executor ExecutorSpec Growth Mempool Registry Params L2Chain RollupCompression RollupSpec Rollups Sequencer Validator SequencerSpec Replay ViewingKeys Subscriptions Service RPC ServiceSpec HostDB HostDBSpec Retry P2P StateTracker Converters EnclaveRPC BatchRepository L1Repository Publisher Guardian.
Local Open Scope Z_scope.

(** The enclave takes the batches one after the other. *)
Inductive accepts {E} `{EnclaveAPI E} : E → list ExtBatch → E → Prop :=
  | accepts_nil e : accepts e [] e
  | accepts_cons e b e1 bs e' : api_SubmitBatch (Some b) e = (e1, Ok tt) → accepts e1 bs e' → accepts e (b :: bs) e'.

(** Batches that fit the messages are taken over RPC as they are directly. *)
Section rpc.
Context {E : Type} `{EnclaveAPI E, HBO : HashBytesOk, ABO : AddressBytesOk, HC : HostCodecs, RCO : RPCCodecsOk}.

Definition fits_rpc (b : ExtBatch) : Prop := header_fits (ext_header b) ∧ levels_zero (CrossChainMessages (ext_header b)).

Lemma accepts_rpc (e e' : E) bs : accepts e bs e' → Forall fits_rpc bs → accepts (up e) bs (up e').
Proof.
  induction 1 as [e|e b e1 bs e' Hb _ IH]; intros Hfit; [constructor|]. apply Forall_cons in Hfit as [[Hf Hz] Hfit].
  eapply accepts_cons; [|by apply IH]. cbn [api_SubmitBatch client_api].
  unfold client_SubmitBatch, server_SubmitBatch. rewrite wire_batch, wired_batch_id by done.
  rewrite (receive_same (api_SubmitBatch (Some b))) by (intros ? ? _; by eexists). by rewrite Hb.
Qed.
End rpc.

Section guardian.
Context {W E : Type} `{EthClient W, L1Sender W, Clock W, EnclaveAPI E}.
Context `{Hashing, HBO : HashBytesOk, HCO : HostCodecsOk, PC : P2PCodecs}.
Context `{MgmtABI, MgmtPack, CE : !Codec ExtRollup, AT : !Attestations}.
Context (partialRollup : bytes → option RollupHeader).
Context (hostData : Identity) (cfg : P2PConfig) (contracts : list Address) (l1StartHash : Hash) (wait interval : Z).
Implicit Types (g : Guardian W E).

Lemma fetch_stored t A n b (l2 : Repository) (e : E) : implements (rp_db l2) A → 0 ≤ n < 2 ^ 64 → batchSeq A n = Some b →
  repo_FetchBatchBySeqNo cfg t n (l2, e) = ((l2, e), Ok b).
Proof.
  intros Himp Hn Hb. pose proof (stored_seq (rp_db l2) A Himp n Hn) as Hs. fold (batchSeq A n) in Hs. rewrite Hb in Hs.
  unfold repo_FetchBatchBySeqNo. cbn. by rewrite Hs.
Qed.

(** A guardian whose enclave has the batches up to [n], while the host knows [k] more. *)
Record behind g A (n : Z) (k : nat) : Prop := {
  bh_up : stopping g = false;
  bh_unlocked : submitDataLock g = false;
  bh_db : implements (rp_db (g_l2repo g)) A;
  bh_sync : Tracker.in_sync (g_state g);
  bh_status : Tracker.GetStatus (g_state g) = Tracker.calculateStatus (g_state g);
  bh_enclave : Tracker.enclaveL2Head (g_state g) = Some n;
  bh_host : Tracker.hostL2Head (g_state g) = Some (n + Z.of_nat k);
  bh_some : 0 ≤ n ∧ (n ≠ 0 ∨ k ≠ 0%nat)
}.

Lemma behind_step g A n k e b : behind g A n (S k) → SequencerOrderNo (ext_header b) = n + 1 →
  behind (upd_state (Tracker.OnProcessedBatch (SequencerOrderNo (ext_header b))) (set_enclave e g)) A (n + 1) k.
Proof.
  intros [Hup Hlock Hdb (Hc&Hne&Hl1) Hst He Hh Hn] ->.
  set (s1 := Tracker.mk (Tracker.status (g_state g)) (Tracker.enclaveStatusCode (g_state g)) (Tracker.enclaveL1Head (g_state g))
    (Some (n + 1)) (Tracker.hostL1Head (g_state g)) (Some (n + Z.of_nat (S k)))).
  assert (Tracker.OnProcessedBatch (n + 1) (g_state g) = Tracker.recalculate s1) as Hre.
  { unfold Tracker.OnProcessedBatch. rewrite Hh. by rewrite (proj2 (Z.ltb_ge _ _)) by lia. }
  destruct (Tracker.status_recalculate s1) as (Hs&Hc1&Hl1'&Hl2&Hh1&Hh2).
  split; unfold upd_state, set_enclave, stopping; cbn [g_state submitDataLock g_l2repo g_publisher]; rewrite ?Hre; [done..| | | | |lia].
  - unfold Tracker.in_sync. rewrite Hc1, Hl1', Hh1. done.
  - unfold Tracker.GetStatus. rewrite Hs. unfold Tracker.calculateStatus. by rewrite Hc1, Hl1', Hl2, Hh1, Hh2.
  - done.
  - rewrite Hh2. cbn [s1 Tracker.hostL2Head]. f_equal. lia.
Qed.

Lemma behind_status g A n k : behind g A n k →
  Tracker.GetStatus (g_state g) = if decide (k = 0%nat) then Tracker.Live else Tracker.L2Catchup.
Proof.
  intros [_ _ _ Hsync Hst He Hh Hn]. rewrite Hst. destruct (Tracker.calculateStatus_spec (g_state g)) as (Hlive&Hl2&_).
  unfold Tracker.caught_up, Tracker.noBatch in *. rewrite He, Hh in *. case_decide; [apply Hlive|apply Hl2]; (split; [done|]).
  - exists (n + Z.of_nat k), n. split_and!; [done..|lia|lia].
  - intros (h&m&[= <-]&[= <-]&_&Hle). lia.
Qed.

Lemma catchupWithL2_S n g :
  catchupWithL2 hostData cfg (S n) g =
  (if stopping g || negb (bool_decide (Tracker.GetStatus (g_state g) = Tracker.L2Catchup)) then mret (Some tt)
   else if hd_IsSequencer hostData then fail (ErrMsg "l2 catchup is not supported for sequencer")
   else match Tracker.GetEnclaveL2Head (g_state g) with
        | None => crash "nil L2 head"
        | Some prevHead =>
            batch ← wrap "could not fetch next L2 batch" (on_both (λ t, repo_FetchBatchBySeqNo cfg t (prevHead + 1)));
            _ ← submitL2Batch batch;
            catchupWithL2 hostData cfg n
        end) g.
Proof. done. Qed.

Lemma catchupWithL2_run bs : hd_IsSequencer hostData = false → ∀ g A n e',
  behind g A n (length bs) → n + Z.of_nat (length bs) < 2 ^ 64 →
  (∀ i b, bs !! i = Some b → batchSeq A (n + 1 + Z.of_nat i) = Some b) → accepts (g_enclave g) bs e' →
  ∃ g', catchupWithL2 hostData cfg (S (length bs)) g = (g', Ok (Some tt)) ∧
    behind g' A (n + Z.of_nat (length bs)) 0 ∧ g_enclave g' = e' ∧ g_l2repo g' = g_l2repo g.
Proof.
  intros Hval. induction bs as [|b bs IH]; intros g A n e' Hbh Hmax Hbs Hacc; pose proof (behind_status g A n _ Hbh) as Hst.
  - inversion Hacc; subst. exists g. cbn [length catchupWithL2]. unfold mbind, M_bind, gets, id. rewrite (bh_up _ _ _ _ Hbh), Hst. cbn.
    rewrite Z.add_0_r. done.
  - inversion Hacc as [|? ? e1 ? ? Hsub Hacc']; subst. pose proof (Hbs 0%nat b eq_refl) as Hb. rewrite Z.add_0_r in Hb.
    assert (SequencerOrderNo (ext_header b) = n + 1) as Hseq by (by apply latest_Some in Hb as [? _]).
    cbn [length] in *. pose proof (bh_some _ _ _ _ Hbh) as [Hn _].
    set (g1 := upd_state (Tracker.OnProcessedBatch (SequencerOrderNo (ext_header b))) (set_enclave e1 g)).
    destruct (IH g1 A (n + 1) e') as (g'&Hrun&Hend&He'&Hl2).
    { by apply behind_step. } { lia. }
    { intros i b' Hi. rewrite <-(Hbs (S i) b' Hi). f_equal. lia. } { done. }
    exists g'. split_and!; [|by replace (n + Z.of_nat (S (length bs))) with (n + 1 + Z.of_nat (length bs)) by lia|done|by rewrite Hl2].
    rewrite catchupWithL2_S, (bh_up _ _ _ _ Hbh), Hst, Hval, decide_False, bool_decide_true by done. cbn [orb negb].
    unfold Tracker.GetEnclaveL2Head. rewrite (bh_enclave _ _ _ _ Hbh). cbn [fmap option_fmap option_map].
    rewrite Z.abs_eq by done. unfold mbind, M_bind, wrap, on_both.
    rewrite (fetch_stored _ A (n + 1) b _ _ (bh_db _ _ _ _ Hbh) ltac:(lia) Hb).
    unfold submitL2Batch, mbind, M_bind, gets, wrap, on_enclave_client, zoom, modify.
    replace (set_enclave (g_enclave g) (set_l2repo (g_l2repo g) g)) with g by (by destruct g).
    rewrite (bh_unlocked _ _ _ _ Hbh), Hsub. exact Hrun.
Qed.

(** ** The lock *)

(** Computations that do not release the lock of a guardian that holds it. *)
Definition keeps_lock {X} (m : M (Guardian W E) X) : Prop := ∀ g, submitDataLock g = true → submitDataLock (m g).1 = true.

Lemma lock_bind {X Y} (m : M (Guardian W E) X) (f : X → M (Guardian W E) Y) :
  keeps_lock m → (∀ x, keeps_lock (f x)) → keeps_lock (m ≫= f).
Proof.
  intros Hm Hf g Hg. specialize (Hm g Hg). unfold mbind, M_bind. destruct (m g) as [g' [x|err|c]]; [by apply Hf|done..].
Qed.
Lemma lock_try {X} (m : M (Guardian W E) X) : keeps_lock m → keeps_lock (try m).
Proof. intros Hm g Hg. specialize (Hm g Hg). unfold try. by destruct (m g) as [g' [x|err|c]]. Qed.
Lemma lock_wrap {X} msg (m : M (Guardian W E) X) : keeps_lock m → keeps_lock (wrap msg m).
Proof. intros Hm g Hg. specialize (Hm g Hg). unfold wrap. by destruct (m g) as [g' [x|err|c]]. Qed.
Lemma lock_ret {X} (x : X) : keeps_lock (mret x).
Proof. by intros g Hg. Qed.
Lemma lock_fail {X} err : keeps_lock (fail (A:=X) err).
Proof. by intros g Hg. Qed.
Lemma lock_crash {X} c : keeps_lock (crash (A:=X) c).
Proof. by intros g Hg. Qed.
Lemma lock_gets {X} (f : Guardian W E → X) : keeps_lock (gets f).
Proof. by intros g Hg. Qed.
Lemma lock_lift {X} (r : result X) : keeps_lock (lift r).
Proof. by intros g Hg. Qed.
Lemma lock_state f : keeps_lock (modify (upd_state f)).
Proof. by intros g Hg. Qed.
Lemma lock_start l : keeps_lock (modify (g_start l)).
Proof. by intros g Hg. Qed.
Lemma lock_sleep d : keeps_lock (modify (Sleep d)).
Proof. by intros g Hg. Qed.
Lemma lock_logs l : keeps_lock (modify (sendLogs l)).
Proof. by intros g Hg. Qed.
Lemma lock_when b (m : M (Guardian W E) unit) : keeps_lock m → keeps_lock (when b m).
Proof. destruct b; [done|by intros _ g Hg]. Qed.
Lemma lock_enclave {X} (m : M E X) : keeps_lock (on_enclave_client m).
Proof. intros g Hg. unfold on_enclave_client, zoom. by destruct (m (g_enclave g)). Qed.
Lemma lock_l1repo {X} (m : M (L1Repository W) X) : keeps_lock (on_l1repo m).
Proof. intros g Hg. unfold on_l1repo, zoom. by destruct (m (g_l1repo g)). Qed.
Lemma lock_l2repo {X} (m : M Repository X) : keeps_lock (on_l2repo m).
Proof. intros g Hg. unfold on_l2repo, zoom. by destruct (m (g_l2repo g)). Qed.
Lemma lock_publisher {X} (m : M (Publisher W) X) : keeps_lock (on_publisher m).
Proof. intros g Hg. unfold on_publisher, zoom. by destruct (m (g_publisher g)). Qed.
Lemma lock_both {X} (m : Tracker.t → M (Repository * E) X) : keeps_lock (on_both m).
Proof. intros g Hg. unfold on_both. by destruct (m (g_state g) (g_l2repo g, g_enclave g)) as [[? ?] ?]. Qed.
End guardian.

Create HintDb lock.
#[export] Hint Resolve lock_try lock_wrap lock_ret lock_fail lock_crash lock_gets lock_lift lock_state lock_start
  lock_sleep lock_logs lock_when lock_enclave lock_l1repo lock_l2repo lock_publisher lock_both : lock.
(** Through the binds and cases of a computation. *)
Ltac lock_tac := repeat (first
  [ progress intros
  | apply lock_bind
  | apply lock_when
  | progress auto with lock
  | match goal with |- keeps_lock (match ?x with _ => _ end) => destruct x end ]).

Section locked.
Context {W E : Type} `{EthClient W, L1Sender W, Clock W, EnclaveAPI E}.
Context `{Hashing, HB : HashBytes, HC : HostCodecs, PC : P2PCodecs}.
Context `{MgmtABI, MgmtPack, CE : !Codec ExtRollup, AT : !Attestations}.
Context (partialRollup : bytes → option RollupHeader).
Context (hostData : Identity) (cfg : P2PConfig) (contracts : list Address) (l1StartHash : Hash) (wait interval : Z).
Implicit Types (g : Guardian W E).

(** A guardian that holds the lock submits nothing. *)
Lemma submitL1Block_locked fuel block isLatest g : submitDataLock g = true →
  g_submitL1Block partialRollup hostData contracts (S fuel) block isLatest g = (g, Ok false).
Proof. intros Hg. cbn [g_submitL1Block]. unfold mbind, M_bind, gets. by rewrite Hg. Qed.
Lemma submitL2Batch_locked batch g : submitDataLock g = true → submitL2Batch batch g = (g, Crash "blocked on submitDataLock").
Proof. intros Hg. unfold submitL2Batch, mbind, M_bind, gets. by rewrite Hg. Qed.

Lemma lock_submitL1Block fuel block isLatest : keeps_lock (W:=W) (E:=E) (g_submitL1Block partialRollup hostData contracts fuel block isLatest).
Proof. intros g Hg. destruct fuel; [done|]. by rewrite submitL1Block_locked. Qed.
Lemma lock_submitL2Batch batch : keeps_lock (W:=W) (E:=E) (submitL2Batch batch).
Proof. intros g Hg. by rewrite submitL2Batch_locked. Qed.
#[local] Hint Resolve lock_submitL1Block lock_submitL2Batch : lock.

Lemma lock_trySecrets responses : keeps_lock (W:=W) (E:=E) (trySecrets hostData responses).
Proof. induction responses as [|r rs IH]; cbn [trySecrets]; lock_tac. Qed.
#[local] Hint Resolve lock_trySecrets : lock.
Lemma lock_catchupWithL1 n fuel : keeps_lock (W:=W) (E:=E) (catchupWithL1 partialRollup hostData contracts l1StartHash n fuel).
Proof. induction n as [|n IH]; cbn [catchupWithL1]; lock_tac. Qed.
Lemma lock_catchupWithL2 n : keeps_lock (W:=W) (E:=E) (catchupWithL2 hostData cfg n).
Proof. induction n as [|n IH]; cbn [catchupWithL2]; lock_tac. Qed.
#[local] Hint Resolve lock_catchupWithL1 lock_catchupWithL2 : lock.

Lemma lock_awaitSecret fuel (s : Guardian W E * Hash) : submitDataLock s.1 = true → submitDataLock (awaitSecret hostData fuel s).1.1 = true.
Proof.
  intros Hs. unfold awaitSecret. pose proof (lock_l1repo (FetchNextBlock fuel s.2) s.1 Hs) as Hfetch.
  destruct (on_l1repo (FetchNextBlock fuel s.2) s.1) as [g [[nextBlock isLatest]|err|c]]; [|done..]. cbn [fst] in Hfetch.
  match goal with |- context [match ?m g with _ => _ end] => assert (keeps_lock (W:=W) (E:=E) m) as Hk by lock_tac;
    specialize (Hk g Hfetch); by destruct (m g) as [g' [[]|err|c]] end.
Qed.
Lemma lock_provideSecret fuel : keeps_lock (W:=W) (E:=E) (provideSecret hostData wait interval fuel).
Proof.
  unfold provideSecret, generateAndBroadcastSecret. lock_tac. apply lock_wrap. intros g Hg.
  match goal with |- context [Do ?n ?f ?st ?p] =>
    pose proof (Do_keeps (λ q : Guardian W E * Hash, submitDataLock q.1 = true) n f st p) as Hdo end.
  destruct (Do _ _ _ _) as [[g' h] r]. apply Hdo; [apply lock_awaitSecret|done|done].
Qed.
#[local] Hint Resolve lock_provideSecret : lock.

(** The steps of a guardian. *)
Inductive guardian_step : Guardian W E → Guardian W E → Prop :=
  | gs_HandleBlock fuel block g : guardian_step g (HandleBlock partialRollup hostData contracts fuel block g).1
  | gs_HandleBatch batch g : guardian_step g (HandleBatch hostData batch g).1
  | gs_HandleTransaction tx g : guardian_step g (HandleTransaction tx g).1
  | gs_mainLoop n fuel g : guardian_step g (mainLoopTurn partialRollup hostData cfg contracts l1StartHash wait interval n fuel g).1
  | gs_batchTick g : guardian_step g (batchTick g).1
  | gs_rollupTick fuel g : guardian_step g (rollupTick wait interval fuel g).1
  | gs_update resp g : guardian_step g (handleUpdate hostData cfg resp g).1.

Lemma guardian_step_locked g g' : guardian_step g g' → submitDataLock g = true → submitDataLock g' = true.
Proof.
  destruct 1 as [fuel block g|batch g|tx g|n fuel g|g|fuel g|resp g]; revert g;
    unfold HandleBlock, HandleBatch, HandleTransaction, mainLoopTurn, checkEnclaveStatus, orSleep, batchTick, rollupTick, handleUpdate;
    match goal with |- ∀ g, _ → submitDataLock (?m g).1 = true => change (keeps_lock m) end; lock_tac.
Qed.

(** C26: one failed fetch of receipts stops the guardian from feeding its enclave for good. If the
    receipts of a block cannot be fetched, [submitL1Block] fails holding the lock;
    from then on, whatever happens to the guardian, no block is submitted (it reports
    that it is busy), and submitting a batch waits for ever. *)
Theorem receipt_failure_blocks_guardian fuel block isLatest g l1 err :
  submitDataLock g = false → FetchObscuroReceipts contracts block (g_l1repo g) = (l1, Err err) →
  ∃ g', g_submitL1Block partialRollup hostData contracts (S fuel) block isLatest g =
      (g', Err (ErrWrap "could not fetch obscuro receipts for block" err)) ∧
    ∀ g'', rtc guardian_step g' g'' →
      (∀ fuel block isLatest, g_submitL1Block partialRollup hostData contracts (S fuel) block isLatest g'' = (g'', Ok false)) ∧
      (∀ batch, submitL2Batch batch g'' = (g'', Crash "blocked on submitDataLock")).
Proof.
  intros Hg Hfetch. exists (set_l1repo l1 (set_lock true g)). split.
  - cbn [g_submitL1Block]. unfold mbind, M_bind, gets, modify, wrap, on_l1repo, zoom. rewrite Hg. cbn. by rewrite Hfetch.
  - assert (submitDataLock (set_l1repo l1 (set_lock true g)) = true) as Hlock by done. revert Hlock.
    generalize (set_l1repo l1 (set_lock true g)). intros g0 Hlock g'' Hsteps.
    assert (submitDataLock g'' = true) as Hend by (induction Hsteps; eauto using guardian_step_locked).
    split; intros; [by apply submitL1Block_locked|by apply submitL2Batch_locked].
Qed.
End locked.

(** ** A validator and its host catch up

    The path of a batch through a node: from the repository of the host through the
    guardian and the RPC boundary into the enclave, which executes it. *)


Section sync.
Context {C : Type} `{CacheOk C, StateModel, StorageCodecsOk, HashingOk, MB : MessageBus}.
Context `{OW : !OwnerWallet, Keccak, EV : !EVM, EVOK : !EVMOk, CS : !Codec (list Z), RollupCodecs, BlobServices, Signatures}.
Context `{MgmtABI, AT : !Attestations, CE : !Codec ExtRollup, ViewingCrypto, SubscriptionCodecs, !BlobServicesOk}.
Context `{GE : GethEncoding, CL : !Calls, TF : TxFields, RC : ResponseCodecs}.
Context (fuel : nat) (cfg : EnclaveConfig) (AuthSender : L2Tx → option Address) (iterate : Mempool.t → list L2Tx) (mc : Machine).
Context (d1 : DB) (tr1 : gmap Hash EState) (Hd1 : db_ok d1) (Hp1 : parents_ok d1) (B : Hash → Prop).
Implicit Types (sv : Service C).

#[local] Instance the_service : EnclaveAPI (Service C) := service_api fuel cfg AuthSender iterate mc.

Abbreviation canonical_at sv b := (isCanonQuery (s_db (e_storage (sv_enclave sv))) (L1Proof (Batch.Header b)) = true).
Abbreviation has sv b := (follower_has tr1 (s_db (e_storage (sv_enclave sv))) (s_tries (e_storage (sv_enclave sv))) b).

(** The enclave takes the batches of the sequencer. *)
Lemma service_accepts l : NodeRole cfg = ValidatorNode → ∀ n p sv,
  following d1 tr1 B n p sv → Forall (λ m, published (C:=C) fuel d1 tr1 B m.1 m.2) l → successive n p l →
  Forall (λ m, canonical_at sv m.1) l →
  ∃ sv', accepts sv (map snd l) sv' ∧ Forall (λ m, has sv' m.1) l ∧
    batches (s_db (e_storage (sv_enclave sv))) ⊆ batches (s_db (e_storage (sv_enclave sv'))) ∧
    (∀ r, s_tries (e_storage (sv_enclave sv)) !! r = tr1 !! r → s_tries (e_storage (sv_enclave sv')) !! r = tr1 !! r).
Proof.
  intros Hrole. induction l as [|[b ext] l IH]; intros n p sv Hfo Hpu Hsucc Hcan.
  { exists sv. split; [constructor|]. by split_and!. }
  apply Forall_cons in Hpu as [Hb Hpu], Hcan as [Hc Hcan]. destruct Hsucc as (Hn&<-&Hsucc). cbn [fst snd] in *.
  destruct (SubmitBatch_follows fuel cfg d1 tr1 Hd1 Hp1 B n b ext sv Hrole Hfo Hb Hn Hc) as (sv1&Hrun&Hfo1&[Hh1 Hs1]&Htb1&Hsub1&Hst1).
  destruct (IH (n + 1) (Batch.hashOf b) sv1 Hfo1 Hpu Hsucc) as (sv2&Hacc&Hall&Hsub2&Hst2).
  { eapply Forall_impl; [exact Hcan|]. intros m. unfold isCanonQuery. by rewrite Htb1. }
  exists sv2. split_and!; [by eapply accepts_cons| |by etrans|auto].
  constructor; [|done]. split; [by eapply lookup_weaken|by apply Hst2].
Qed.

Context {W : Type} `{EthClient W, L1Sender W, Clock W, MgmtPack}.
Context `{HBO : HashBytesOk, ABO : AddressBytesOk, HCO : HostCodecsOk, PC : P2PCodecs, RCO : RPCCodecsOk}.
Context (hostData : Identity) (pcfg : P2PConfig).

(** C17: a validator that is behind catches up. Its host has the next batches of the
    sequencer in the repository, and the enclave, over RPC, has the history up to the first
    of them. Their L1 blocks are canonical at the validator, each computes to itself on its
    parent (no transaction was left out) with receipts that can be stored, and they fit the
    RPC messages, which drop the consistency levels, so these are zero. [catchupWithL2] then
    ends after one turn for each: every batch was fetched, submitted and accepted, the
    tracker is live, and the enclave has each batch, canonical and executed, with the state
    of the sequencer. *)
Theorem validator_host_catches_up (g : Guardian W (Wired (Service C))) A n p sv l :
  hd_IsSequencer hostData = false → NodeRole cfg = ValidatorNode →
  g_enclave g = up sv → behind g A n (length l) → n + Z.of_nat (length l) < 2 ^ 64 →
  following d1 tr1 B (n + 1) p sv → Forall (λ m, published (C:=C) fuel d1 tr1 B m.1 m.2) l → successive (n + 1) p l →
  Forall (λ m, canonical_at sv m.1) l → Forall fits_rpc (map snd l) →
  (∀ i m, l !! i = Some m → batchSeq A (n + 1 + Z.of_nat i) = Some m.2) →
  ∃ g' sv', catchupWithL2 hostData pcfg (S (length l)) g = (g', Ok (Some tt)) ∧
    Tracker.GetStatus (g_state g') = Tracker.Live ∧ g_enclave g' = up sv' ∧ g_l2repo g' = g_l2repo g ∧
    Tracker.GetEnclaveL2Head (g_state g') = Some (n + Z.of_nat (length l)) ∧ Forall (λ m, has sv' m.1) l.
Proof.
  intros Hval Hrole Hg Hbh Hmax Hfo Hpu Hsucc Hcan Hfit Hst.
  destruct (service_accepts l Hrole (n + 1) p sv Hfo Hpu Hsucc Hcan) as (sv'&Hacc&Hall&_).
  apply accepts_rpc in Hacc; [|done].
  destruct (catchupWithL2_run hostData pcfg (map snd l) Hval g A n (up sv')) as (g'&Hrun&Hend&He&Hl2).
  - by rewrite length_map.
  - by rewrite length_map.
  - intros i ext Hi. apply list_lookup_fmap_Some in Hi as (m&->&Hm). by apply Hst.
  - by rewrite Hg.
  - rewrite length_map in *. exists g', sv'. split_and!; [done|by rewrite (behind_status _ _ _ _ Hend)|done|done| |done].
    unfold Tracker.GetEnclaveL2Head. rewrite (bh_enclave _ _ _ _ Hend). cbn. f_equal. pose proof (bh_some _ _ _ _ Hend). lia.
Qed.
End sync.
