(* ===== verification/Concrete.v ===== *)
(** * Concrete instances of the interfaces

    The parameters of the development (codecs, hashing, cache, world states, the
    message bus) instantiated by executable functions that meet their laws: the
    theorems are applied to them in [Witnesses.v]. *)

From S2P Require Import Prelude Types Codec Bytes L1Chain EnclaveDB BatchDB Events Storage CrossChain Executor Mempool Registry Params L2Chain RollupCompression Rollups Sequencer Validator ViewingKeys Subscriptions Service RPC.

(** ** Wire formats of the records *)

#[export] Instance L1Header_wire : Wire L1Header :=
  iso_wire (λ h, (h_hash h, h_parent h, h_number h)) (λ '(a, b, c), mkL1Header a b c).
#[export] Instance L1Header_wire_ok : WireOk L1Header.
Proof. by apply iso_wire_ok; intros []. Qed.

#[export] Instance L1Tx_wire : Wire L1Tx :=
  iso_wire (λ t, (l1tx_hash t, l1tx_to t, l1tx_data t)) (λ '(a, b, c), mkL1Tx a b c).
#[export] Instance L1Tx_wire_ok : WireOk L1Tx.
Proof. by apply iso_wire_ok; intros []. Qed.

#[export] Instance L1Block_wire : Wire L1Block :=
  iso_wire (λ b, (b_header b, b_txs b)) (λ '(a, b), mkL1Block a b).
#[export] Instance L1Block_wire_ok : WireOk L1Block.
Proof. by apply iso_wire_ok; intros []. Qed.

#[export] Instance L2Tx_wire : Wire L2Tx :=
  iso_wire (λ t, (tx_hash t, tx_nonce t, tx_body t)) (λ '(a, b, c), mkL2Tx a b c).
#[export] Instance L2Tx_wire_ok : WireOk L2Tx.
Proof. by apply iso_wire_ok; intros []. Qed.

#[export] Instance CrossChainMessage_wire : Wire CrossChainMessage :=
  iso_wire (λ m, (msg_sender m, msg_sequence m, msg_nonce m, msg_topic m, msg_payload m, msg_consistency m))
    (λ '(a, b, c, d, e, f), mkMessage a b c d e f).
#[export] Instance CrossChainMessage_wire_ok : WireOk CrossChainMessage.
Proof. by apply iso_wire_ok; intros []. Qed.

#[export] Instance BatchHeader_wire : Wire BatchHeader :=
  iso_wire (λ h, (ParentHash h, Root h, TxHash h, ReceiptHash h, Number h, SequencerOrderNo h, GasLimit h,
                  GasUsed h, Time h, Extra h, BaseFee h, L1Proof h, sigR h, sigS h, CrossChainMessages h,
                  LatestInboundCrossChainHash h, LatestInboundCrossChainHeight h))
    (λ '(a, b, c, d, e, f, g, h, i, j, k, l, m, n, o, p, q), mkBatchHeader a b c d e f g h i j k l m n o p q).
#[export] Instance BatchHeader_wire_ok : WireOk BatchHeader.
Proof. by apply iso_wire_ok; intros []. Qed.

#[export] Instance RollupHeader_wire : Wire RollupHeader :=
  iso_wire (λ h, (Coinbase h, CompressionL1Head h, RollupMessages h, PayloadHash h, rollupR h, rollupS h,
                  LastBatchSeqNo h))
    (λ '(a, b, c, d, e, f, g), mkRollupHeader a b c d e f g).
#[export] Instance RollupHeader_wire_ok : WireOk RollupHeader.
Proof. by apply iso_wire_ok; intros []. Qed.

#[export] Instance CalldataRollupHeader_wire : Wire CalldataRollupHeader :=
  iso_wire (λ h, (FirstBatchSequence h, FirstCanonBatchHeight h, FirstCanonParentHash h, StartTime h,
                  BatchTimeDeltas h, L1HeightDeltas h, ReOrgs h))
    (λ '(a, b, c, d, e, f, g), mkCalldataRollupHeader a b c d e f g).
#[export] Instance CalldataRollupHeader_wire_ok : WireOk CalldataRollupHeader.
Proof. by apply iso_wire_ok; intros []. Qed.

#[export] Instance Log_wire : Wire Log :=
  iso_wire (λ l, (log_address l, log_topics l, log_data l, log_blocknumber l, log_txhash l, log_txindex l,
                  log_blockhash l, log_index l))
    (λ '(a, b, c, d, e, f, g, h), mkLog a b c d e f g h).
#[export] Instance Log_wire_ok : WireOk Log.
Proof. by apply iso_wire_ok; intros []. Qed.

#[export] Instance Receipt_wire : Wire Receipt :=
  iso_wire (λ r, (r_status r, r_txhash r, r_blockhash r, r_txindex r, r_contract r, r_logs r))
    (λ '(a, b, c, d, e, f), mkReceipt a b c d e f).
#[export] Instance Receipt_wire_ok : WireOk Receipt.
Proof. by apply iso_wire_ok; intros []. Qed.

(** ** Codecs *)

(** A value behind a tag that tells its kind. *)
Definition tagged_codec `{Wire A} (t : Z) : Codec A := {|
  rlp_encode a := Some (t :: put a);
  rlp_decode l := match l with
                  | t' :: l => if bool_decide (t' = t)
                               then match get l with Some (a, []) => Some a | _ => None end else None
                  | [] => None
                  end
|}.
Lemma tagged_codec_ok `{WireOk A} t : @CodecOk A (tagged_codec t).
Proof.
  intros a b [= <-]. cbn -[bool_decide]. rewrite bool_decide_true by done.
  rewrite <-(app_nil_r (put a)). by rewrite get_put.
Qed.

(** An unsigned nonce. *)
Definition tx_codec : Codec L2Tx := {|
  rlp_encode tx := if (0 <=? tx_nonce tx)%Z then Some (put tx) else None;
  rlp_decode := rlp_decode (Codec:=wire_codec)
|}.
Lemma tx_codec_ok : @CodecOk L2Tx tx_codec.
Proof. intros a b. cbn [rlp_encode tx_codec]. destruct (0 <=? tx_nonce a)%Z; [|done]. apply (wire_codec_ok a b). Qed.

(** The first element of a body is the sender. *)
Definition concrete_db : DBCodecs := {|
  codec_header := wire_codec;
  codec_batch_header := wire_codec;
  codec_txs := wire_codec;
  codec_tx := tx_codec;
  codec_msg := wire_codec;
  codec_rollup := wire_codec;
  Sender tx := head (tx_body tx);
  encode_receipt r := Some (put r);
  decode_receipt l := match get l with Some (r, []) => Some r | _ => None end;
  DeriveFields h n tx r := Some (mkReceipt (r_status r) (tx_hash tx) h 0 (r_contract r) (r_logs r))
|}.

#[export] Instance concrete_codecs : StorageCodecs := {|
  storage_db := concrete_db;
  codec_block := tagged_codec 3;
  codec_batch := tagged_codec 2;
  DecompressPubkey := Some;
  CompressPubkey := id;
  ToECDSA b := match b with [] => None | _ => Some b end
|}.

Lemma concrete_db_ok : @DBCodecsOk concrete_db.
Proof. split; first [apply wire_codec_ok | apply tx_codec_ok]. Qed.

#[export] Instance concrete_codecs_ok : StorageCodecsOk.
Proof.
  split; [exact concrete_db_ok|apply tagged_codec_ok..| | |done].
  - by intros p v [= <-].
  - by intros b v [= <-].
Qed.

(** ** Hashing *)

Definition numberOf `{Wire A} (a : A) : Z := Zpos (encode (put a)).

Lemma numberOf_inj `{WireOk A} : Inj (=) (=) (numberOf (A:=A)).
Proof.
  intros a b Hab. injection Hab as Hab. apply (inj encode) in Hab.
  pose proof (get_put a []) as Ha. pose proof (get_put b []) as Hb. rewrite Hab in Ha. congruence.
Qed.

#[export] Instance concrete_hashing : Hashing := {|
  rlpHash_batch := numberOf;
  rlpHash_rollup := numberOf;
  DeriveSha_txs := numberOf;
  DeriveSha_receipts := numberOf;
  EmptyRootHash := numberOf (@nil L2Tx)
|}.
#[export] Instance concrete_hashing_ok : HashingOk.
Proof. split; try apply numberOf_inj. done. Qed.

(** ** Cache, states, message bus *)

#[export] Instance concrete_cache : Cache (gmap Hash bytes) := {|
  cache_get c k := c !! k;
  cache_set c k v := <[k := v]> c
|}.
#[export] Instance concrete_cache_ok : CacheOk (gmap Hash bytes).
Proof. intros c k v k' w. simpl. rewrite lookup_insert_Some. intros [[<- <-]|[_ ?]]; auto. Qed.

(** A state is the nonce and the code of its accounts, the randomness its
    contracts have read, and the transaction being executed. *)
Record CState := mkCState {
  cs_accounts : gmap Address (Z * option (list Z));
  cs_seen : list Z;
  cs_tx : Hash * Z
}.

#[export] Instance concrete_state : StateModel := {|
  EState := CState;
  emptyState := mkCState ∅ [] (0, 0)%Z;
  GetCode st a := cs_accounts st !! a ≫= snd;
  GetNonce st a := Int.u64 (default 0%Z (fst <$> cs_accounts st !! a))
|}.

#[export] Instance concrete_bus : MessageBus := {|
  CrossChainEventID := 900;
  UnpackEvent l := match get l with Some (m, []) => Some m | _ => None end;
  PackStore m delay := Some (delay :: put m);
  MessageBusBin := [];
  OwnerAddress := 77;
  l2MessageBus := 78
|}%Z.

#[export] Instance concrete_wallet : OwnerWallet := λ tx,
  Some (mkL2Tx (numberOf (lt_nonce tx, lt_data tx)) (lt_nonce tx) (77%Z :: lt_data tx)).
#[export] Instance concrete_wallet_ok : OwnerWalletOk.
Proof. split; [by eauto|by intros tx stx [= <-]..]. Qed.

(** ** The EVM *)

#[export] Instance concrete_hash_bytes : HashBytes := {|
  Hash_Bytes h := h :: replicate 31 0%Z;
  BytesToHash b := default 0%Z (head b)
|}.
#[export] Instance concrete_hash_bytes_ok : HashBytesOk.
Proof. split; done. Qed.
#[export] Instance concrete_address_bytes : AddressBytes := {|
  Address_Bytes a := a :: replicate 19 0%Z;
  Bytes.BytesToAddress b := default 0%Z (head b)
|}.
#[export] Instance concrete_address_bytes_ok : AddressBytesOk.
Proof. split; done. Qed.
#[export] Instance concrete_keccak : Keccak := {| Keccak256Hash := numberOf |}.

Definition cstate_root (st : CState) : Hash := numberOf (A:=list (Z * (Z * option (list Z))) * list Z) (map_to_list (cs_accounts st), cs_seen st).

(** A transaction of an account with the right nonce succeeds; one with a second
    element in its body stores the randomness it is given. *)
Definition apply_tx (hd : EthHeader) (tx : L2Tx) (st : CState) : CState * result Receipt :=
  match tx_body tx with
  | [] => (st, Err (ErrMsg "no sender"))
  | from :: data =>
      if bool_decide (tx_nonce tx = GetNonce (StateModel:=concrete_state) st from) then
        let code := cs_accounts st !! from ≫= snd in
        (mkCState (<[from := ((tx_nonce tx + 1)%Z, code)]> (cs_accounts st))
           (match data with [] => cs_seen st | _ => cs_seen st ++ [eh_MixDigest hd] end) (cs_tx st),
         Ok (mkReceipt 1 (tx_hash tx) 0 (cs_tx st).2 0 []))
      else (st, Err (ErrMsg "invalid nonce"))
  end.

#[export] Instance concrete_evm : EVM := {|
  LatestSender tx := head (tx_body tx);
  Prepare st _ _ := st;
  SetTxContext st h i := mkCState (cs_accounts st) (cs_seen st) (h, i);
  ApplyTransaction _ hd tx '(st, gas) := let '(st', r) := apply_tx hd tx st in (st', gas, r);
  GetLogs _ _ := [];
  Finalise st := st;
  IntermediateRoot _ st := cstate_root st;
  CommitState _ st := Some (cstate_root st);
  SetBalance st a n := mkCState (<[a := (n, None)]> (cs_accounts st)) (cs_seen st) (cs_tx st)
|}.
#[export] Instance concrete_evm_ok : EVMOk.
Proof.
  split; [done| |done]. intros chain hd tx st h i gas st' gas' r. cbn. unfold apply_tx.
  destruct (tx_body tx); [done|]. case_bool_decide; [|done]. by intros [= _ _ <-].
Qed.

(** ** Rollups, signatures, attestations *)

#[export] Instance concrete_secret : Codec (list Z) := wire_codec.

#[export] Instance ExtRollup_wire : Wire ExtRollup :=
  iso_wire (λ r, (ext_rollup_header r, CalldataRollupHeaderBlob r, BatchPayloads r)) (λ '(a, b, c), mkExtRollup a b c).
#[export] Instance concrete_ext_rollup : Codec ExtRollup := wire_codec.

#[export] Instance concrete_rollups : RollupCodecs := {|
  codec_calldata := wire_codec;
  codec_payloads := wire_codec
|}.
#[export] Instance concrete_rollups_ok : RollupCodecsOk.
Proof. split; [apply wire_codec_ok..|]. by intros h v [= <-]. Qed.

#[export] Instance concrete_blobs : BlobServices := {|
  bs_encrypt := Ok; bs_decrypt := Ok; CompressRollup := Ok; CompressBatch := Ok; Decompress := Ok
|}.
#[export] Instance concrete_blobs_ok : BlobServicesOk.
Proof. split; by intros p c [= <-]. Qed.

#[export] Instance concrete_signatures : Signatures := {|
  PublicKey := id;
  ecdsa_Sign key h := Some (numberOf (key, h), 0%Z);
  ecdsa_Verify key h r _ := bool_decide (r = numberOf (key, h))
|}.
#[export] Instance concrete_signatures_ok : SignaturesOk.
Proof. intros key h r sg [= <- <-]. by apply bool_decide_eq_true. Qed.

#[export] Instance concrete_mgmt : MgmtABI := {|
  mgmt_addr := 500;
  MethodById sel := match sel with
                    | 1 :: _ => Some AddRollupMethod
                    | 2 :: _ => Some RequestSecretMethod
                    | 3 :: _ => Some InitializeSecretMethod
                    | 4 :: _ => Some RespondSecretMethod
                    | _ => None
                    end;
  UnpackArg _ data := Some data;
  UnpackRespond data := match data with
                        | attester :: requester :: secret => Some (mkRespondSecret attester requester secret EmptyString)
                        | _ => None
                        end
|}%Z.

(** The report is the hash of the owner and the key. *)
#[export] Instance concrete_attestations : Attestations := {|
  codec_attestation := {| rlp_encode _ := None;
                          rlp_decode l := match l with
                                          | owner :: key :: report => Some (mkAttestation report [key] owner "host")
                                          | _ => None
                                          end |};
  partialAttestation _ := mkAttestation [] [] 0 "";
  VerifyReport att := Some (att_Report att);
  IDHash owner key _ := Some (owner :: key);
  EncryptWithPublicKey secret key := Some (key ++ secret)
|}.

(** ** Viewing keys and subscriptions *)

Definition checksum (msg : string) : Z := (Z.of_nat (String.length msg) mod 256)%Z.

(** A key is an account; its signature names it and the message. *)
Definition accountOf (key : bytes) : Z := (default 0 (head key) mod 256)%Z.
#[export] Instance concrete_viewing : ViewingCrypto := {|
  SignText key msg := Some (accountOf key :: checksum msg :: replicate 63 0%Z);
  RecoverAddress msg sig :=
    match sig with
    | a :: c :: _ => Some (if bool_decide (c = checksum msg) then a else (a + 1000)%Z)
    | _ => None
    end;
  AddressOfKey := accountOf;
  ecies_Encrypt key b := Some (key ++ b);
  ecies_Decrypt := Some
|}.
#[export] Instance concrete_viewing_ok : ViewingCryptoOk.
Proof.
  assert (∀ z, 0 <= z mod 256 < 256)%Z as Hmod by (intros z; by apply Z.mod_pos_bound).
  split; intros key msg sig [= <-].
  - split; [done|]. constructor; [apply Hmod|constructor; [apply Hmod|]]. by apply (Forall_replicate (λ x, 0 <= x < 256)%Z 63 0%Z).
  - cbn -[checksum accountOf]. by rewrite bool_decide_true.
Qed.

(** A request is the account, the key and the signature. *)
#[export] Instance concrete_subscriptions : SubscriptionCodecs := {|
  codec_subscription := {| rlp_encode _ := None;
                           rlp_decode l := match l with
                                           | account :: key :: sig =>
                                               Some (mkLogSubscription account sig [key] (mkFilter None None None [] []) (mkVKHandler []))
                                           | _ => None
                                           end |};
  json_logs logs := Some (put logs)
|}.

(** ** Requests *)

(** The number after [0x]. *)
Fixpoint hexDigits (s : string) (acc : Z) : option Z :=
  match s with
  | EmptyString => Some acc
  | String c s => x ← hexValue c; hexDigits s (16 * acc + x)%Z
  end.
Definition withoutPrefix (s : string) : string := String.substring 2 (String.length s - 2) s.
Definition hexNumber (s : string) : option Z := hexDigits (withoutPrefix s) 0.

(** The key 20, signed by account 10. *)
Definition theKey : JSON :=
  JArray [JString "0x14";
          JString ("0x" +:+ hex_EncodeToString (match Sign [10%Z] [20%Z] with Ok sig => sig | _ => [] end))].

(** Requests by number: the nonce of account 10, a call of this account, its gas
    and its balance, and a call that is no object. *)
#[export] Instance concrete_encoding : GethEncoding := {|
  HexToAddress s := default 0%Z (hexNumber s);
  HexToHash s := default 0%Z (hexNumber s);
  hexutil_Decode s := hex_DecodeString (withoutPrefix s);
  hexutil_DecodeBig := hexNumber;
  hexutil_DecodeUint64 := hexNumber;
  UnmarshalBlockNumber s := if String.eqb s "latest" then Some LatestBlockNumber else hexNumber s;
  json_params b :=
    let call := JObject [("from", JString "0x0a"); ("value", JString "0x0")] in
    match b with
    | [1%Z] => Some [theKey; JString "0x0a"]
    | [2%Z] => Some [theKey; call; JString "latest"]
    | [3%Z] => Some [theKey; JString "0x0a"; JString "latest"]
    | [4%Z] => Some [JNull; JNumber 5; JNull]
    | _ => None
    end;
  json_filter _ := None;
  json_query _ := None;
  Hex2Bytes s := default [] (hex_DecodeString s);
  UnmarshalBinary _ := None
|}.

(** A call needs 30000 of gas. *)
#[export] Instance concrete_calls : Calls := {|
  GetBalance st a := default 0%Z (fst <$> cs_accounts st !! a);
  ApplyMessage _ _ msg _ :=
    if (ms_GasLimit msg <? 21000)%Z then (None, None, Some ErrIntrinsicGas)
    else if (ms_GasLimit msg <? 30000)%Z
    then (None, Some (mkExecutionResult (ms_GasLimit msg) (Some ErrOutOfGas) []), None)
    else (None, Some (mkExecutionResult 30000 None [ms_From msg]), None);
  UnpackRevert _ := None;
  hexutil_Encode b := "0x" +:+ hex_EncodeToString b;
  LondonSender tx := head (tx_body tx)
|}.
#[export] Instance concrete_calls_ok : CallsOk.
Proof. by split. Qed.

#[export] Instance concrete_fields : TxFields := {|
  tx_Type _ := 0%Z; tx_Gas _ := 21000%Z; tx_GasPrice _ := Some 1%Z; tx_Data := tx_body; tx_To _ := None; tx_Value _ := 0%Z;
  tx_RawSignatureValues _ := (0, 0, 0)%Z; tx_AccessList _ := []; tx_ChainId _ := 1%Z; tx_GasFeeCap _ := 1%Z;
  tx_GasTipCap _ := 0%Z; invalidSig _ := false
|}.

#[export] Instance concrete_responses : ResponseCodecs := {|
  json_response x :=
    Some (match x with
          | inl (UBalance n) | inl (UGas n) => [1; n]
          | inl _ => [2]
          | inr msg => [3; Z.of_nat (String.length msg)]
          end)%Z;
  json_evm msg _ _ := Some msg;
  Hash_Hex h := hex_EncodeToString [h];
  EncodeUint64 n := hex_EncodeToString [n];
  Errorf msg := msg
|}.

(** A storage over them. *)
Abbreviation CStorage := (Storage (gmap Hash bytes)).
Definition emptyStorage : CStorage := mkStorage _ _ emptyDB ∅ ∅.
