(* ===== verification/Scenario.v ===== *)
(** * A node to apply the theorems to

    A storage with an L1 block and an executed genesis batch, built by the
    operations of the storage over the concrete instances, and the facts the
    witnesses share. *)

From S2P Require Import Prelude Types Codec L1Chain EnclaveDB BatchDB Events Storage StorageInv StorageOps StorageSpec CrossChain BlockProcessor Reads Executor ExecutorSpec Mempool Registry RollupCompression Rollups Sequencer Validator SequencerSpec Concrete.

Local Open Scope Z_scope.

Definition blk1 : L1Block := mkL1Block (mkL1Header (-1) (-100) 5) [].
Definition blk2 : L1Block := mkL1Block (mkL1Header (-2) (-1) 6) [].
Definition theGenesis : Genesis := mkGenesis [mkAccount 10 0].

(** The secret of the network and the key of the sequencer are stored. *)
Definition dbWithSecret : DB :=
  upd_att (λ _, [(99, [5])]) (upd_config (<[masterSeedCfg := default [] (rlp_encode [7; 8])]>) emptyDB).

Definition s0 : CStorage := mkStorage _ _ dbWithSecret ∅ ∅.
Definition s1 : CStorage := (StoreBlock blk1 None s0).1.
Definition genesisRun : CStorage * result (Batch.t * L2Tx) := CreateGenesisState theGenesis (-1) 100 s1.
Definition noBatch : Batch.t := Batch.mk (mkBatchHeader 0 0 0 0 0 0 0 0 0 [] 0 0 0 0 [] 0 0) None [].
Definition gb : Batch.t := match genesisRun.2 with Ok (b, _) => b | _ => noBatch end.
Definition s2 : CStorage := genesisRun.1.
Definition s3 : CStorage := (StoreBatch gb s2).1.
Definition s4 : CStorage := (StoreExecutedBatch gb [] s3).1.

(** Two transactions of account 10; the second reads the randomness. *)
Definition tx1 : L2Tx := mkL2Tx 1001 0 [10].
Definition tx2 : L2Tx := mkL2Tx 1002 1 [10; 1].
(** A transaction that cannot be executed. *)
Definition badTx : L2Tx := mkL2Tx 1003 55 [10].

(** ** Checking a concrete storage *)

(** A property of all the entries of a map, decided. *)
Lemma map_check {A} (m : gmap Z A) (P : Z → A → Prop) `{∀ k x, Decision (P k x)} :
  bool_decide (map_Forall P m) = true → ∀ k x, m !! k = Some x → P k x.
Proof. intros Hb%bool_decide_eq_true k x. apply (Hb k x). Qed.

Lemma map_checkb {A} (m : gmap Z A) (f : Z → A → bool) :
  forallb (λ kx, f kx.1 kx.2) (map_to_list m) = true → ∀ k x, m !! k = Some x → f k x = true.
Proof.
  intros Hb k x Hx. apply elem_of_map_to_list, list_elem_of_In in Hx. rewrite forallb_forall in Hb. by apply (Hb (k, x)).
Qed.

Lemma holds_self (s : CStorage) : storage_ok s → holds (s_db s) (s_tries s) s.
Proof. intros [_ Hc]. by split_and!. Qed.

Lemma is_ok_run {St A} (p : St * result A) : is_ok p.2 → ∃ s a, p = (s, Ok a).
Proof. destruct p as [s [a|e|c]]; [|done..]. by exists s, a. Qed.

Lemma s0_ok : storage_ok s0.
Proof. split; [|by intros h v]. split; cbn; intros; by simplify_map_eq. Qed.

Lemma s1_ok : storage_ok s1.
Proof.
  destruct (StoreBlock_spec s0 blk1 None (default [] (rlp_encode (b_header blk1))) s0_ok) as (s'&Hrun&Hok&_);
    [done|done|by vm_compute|by vm_compute|done|]. unfold s1. by rewrite Hrun.
Qed.

Lemma s2_ok : storage_ok s2.
Proof.
  assert (s_db s2 = s_db s1 ∧ s_cache s2 = s_cache s1) as [Hdb Hc] by (by vm_compute).
  destruct s1_ok as [Hd Hcache]. split; [by rewrite Hdb|]. unfold cache_ok. by rewrite Hc, Hdb.
Qed.

Lemma gb_storable : storable gb.
Proof.
  assert (Batch.Transactions gb = [] ∧ Batch.SeqNo gb = 1 ∧ Batch.NumberOf gb = 0) as (Htx&Hseq&Hnum) by (by vm_compute).
  split; [by vm_compute|by vm_compute|by eexists|by eexists| |rewrite Hseq; lia|rewrite Hnum; lia].
  rewrite Htx. by intros tx ?%elem_of_nil.
Qed.

Lemma s3_ok : storage_ok s3.
Proof.
  destruct (StoreBatch_new s2 gb s2_ok gb_storable) as (s'&Hrun&Hok&_); [by vm_compute| |].
  - apply (map_check (batches (s_db s2)) (λ _ ab, SequencerOrderNo (ab_header ab) ≠ Batch.SeqNo gb)). by vm_compute.
  - unfold s3. by rewrite Hrun.
Qed.

Lemma s4_ok : storage_ok s4.
Proof. by destruct (StoreExecutedBatch_spec s3 gb [] s3_ok) as (?&_). Qed.

Lemma s4_parents : parents_ok (s_db s4).
Proof.
  unfold parents_ok. apply (map_check (batches (s_db s4)) (λ _ ab, blocks (s_db s4) !! ParentHash (ab_header ab) = None)). by vm_compute.
Qed.

(** ** A chain of L1 blocks *)

Definition receiptsOf (b : L1Block) : BlockAndReceipts.t := BlockAndReceipts.mk b ∅ [] None.

(** A message on the bus, in a receipt of the second block. *)
Definition theMessage : CrossChainMessage := mkMessage 20 1 2 3 [4] 0.
Definition busReceipt : Receipt := mkReceipt 1 50 (-2) 0 0 [mkLog 0 [900] (put theMessage) 6 50 0 (-2) 0].
Definition receipts2 : BlockAndReceipts.t := BlockAndReceipts.mk blk2 ∅ [Some busReceipt] None.
Definition blk3 : L1Block := mkL1Block (mkL1Header (-3) (-1) 6) [].

Definition c0 : CStorage := emptyStorage.
Definition c1 : CStorage := (Process 30 0 (receiptsOf blk1) c0).1.
Definition c2 : CStorage := (Process 30 0 (receipts2) c1).1.

Lemma c0_initial : initial c0.
Proof. by split. Qed.

Lemma step_c1 : storage_step c0 c1.
Proof.
  apply (step_block c0 (receiptsOf blk1) 0 30).
  - split; [by eexists|]. split; [by vm_compute|]. intros _. left. split; [by vm_compute|]. by vm_compute.
  - by intros h a.
Qed.

Lemma c1_chain : chain_ok (s_db c1) (b_header blk1).
Proof.
  destruct (reachable_inv c0 c1 c0_initial (rtc_once _ _ step_c1)) as [Hok [Hempty|[head Hch]]].
  - exfalso. apply (f_equal (λ m : gmap Hash L1Header, m !! (-1))) in Hempty. by vm_compute in Hempty.
  - pose proof (FetchHeadBlock_chain (s_db c1) head (so_db _ Hok) Hch) as Hhead.
    assert (FetchHeadBlock (s_db c1) = Ok (NewBlockWithHeader (b_header blk1))) as Hhead' by (by vm_compute).
    rewrite Hhead' in Hhead. by injection Hhead as <-.
Qed.

Lemma blk2_next : valid_next (blocks (s_db c1)) (b_header blk1) (b_header blk2).
Proof.
  split; [by vm_compute| | |done|done].
  - intros p Hp. unfold parent_of in Hp. vm_compute in Hp. by injection Hp as <-.
  - apply (map_check (blocks (s_db c1)) (λ _ a, h_parent a = h_hash (b_header blk2) → h_number a = h_number (b_header blk2) + 1)).
    by vm_compute.
Qed.

Lemma step_c2 : storage_step c1 c2.
Proof.
  apply (step_block c1 (receipts2) 0 30).
  - split; [by eexists|]. split; [by vm_compute|]. intros _. right. exists (b_header blk1). split; [exact c1_chain|exact blk2_next].
  - unfold enough_fuel. cbn [receipts2 BlockAndReceipts.Block].
    intros h a Ha. apply Z.ltb_lt. revert h a Ha.
    apply (map_checkb (blocks (s_db c1)) (λ _ a, h_number (b_header blk2) + h_number a <? Z.of_nat 30)). by vm_compute.
Qed.

Lemma c2_reachable : rtc storage_step c0 c2.
Proof. eapply rtc_l; [exact step_c1|]. apply rtc_once, step_c2. Qed.

Lemma c1_ok : storage_ok c1.
Proof. by destruct (reachable_inv c0 c1 c0_initial (rtc_once _ _ step_c1)). Qed.
Lemma c2_ok : storage_ok c2.
Proof. by destruct (reachable_inv c0 c2 c0_initial c2_reachable). Qed.

Lemma c2_wf : wf_view (blocks (s_db c2)).
Proof.
  destruct (reachable_inv c0 c2 c0_initial c2_reachable) as [Hok [Hempty|[head Hch]]]; [|by apply co_wf with head].
  exfalso. apply (f_equal (λ m : gmap Hash L1Header, m !! (-1))) in Hempty. by vm_compute in Hempty.
Qed.

Lemma blk3_linked : linked (blocks (s_db c2)) (b_header blk3).
Proof. intros p Hp. unfold parent_of in Hp. vm_compute in Hp. by injection Hp as <-. Qed.

Lemma blk3_lca : lca_pre (blocks (s_db c2)) (b_header blk3) (b_header blk2).
Proof.
  split; [exact c2_wf|by vm_compute|exact blk3_linked|left; by vm_compute|done|].
  intros [Hn|Hn]; by vm_compute in Hn.
Qed.
