(* ===== verification/Witnesses.v ===== *)
(** * The theorems on the storage, the L1 chain, events and messages, applied

    Each theorem with hypotheses, at a concrete input where they hold. *)

From S2P Require Import Prelude Types Codec Bytes L1Chain EnclaveDB BatchDB Events Storage StorageInv StorageOps StorageSpec StorageTheorems CrossChain BlockProcessor Concrete Scenario.

Local Open Scope Z_scope.

(** ** Blocks *)

Lemma tryAndInsertBlock_correct_witness :
  (GetHead (tryAndInsertBlock 30 blk2 c1).1).2 = Ok (NewBlockWithHeader (b_header blk2)).
Proof.
  assert (is_ok (tryAndInsertBlock 30 blk2 c1).2) as Hok by (by vm_compute).
  pose proof (tryAndInsertBlock_correct c1 (b_header blk1) blk2 (default [] (rlp_encode (b_header blk2))) 30
    c1_ok c1_chain blk2_next eq_refl ltac:(by vm_compute) ltac:(done)) as Hthm.
  destruct (tryAndInsertBlock 30 blk2 c1) as [s' [i|e|c]]; [|done..]. by destruct Hthm as (_&_&_&?&_).
Defined.

Lemma tryAndInsertBlock_duplicate_witness :
  ∃ s', tryAndInsertBlock 30 blk1 c1 = (s', Err ErrBlockAlreadyProcessed) ∧ same_content c1 s'.
Proof. apply (tryAndInsertBlock_duplicate c1 blk1 30 (b_header blk1) c1_ok). by vm_compute. Defined.

Lemma canonical_chain_invariant_witness :
  ∃ head, FetchHeadBlock (s_db c2) = Ok (NewBlockWithHeader head) ∧
    ∀ h r a, t_block (s_db c2) !! h = Some r → blocks (s_db c2) !! h = Some a →
      blk_is_canonical r = true ↔ ancestor (blocks (s_db c2)) head a.
Proof.
  destruct (canonical_chain_invariant c0 c2 c0_initial c2_reachable) as (head&Hh&Hc&_); [|by exists head].
  intros Hempty. apply (f_equal (λ m : gmap Hash L1Header, m !! (-1))) in Hempty. by vm_compute in Hempty.
Defined.

Lemma LCA_correct_witness :
  ∃ cf, (LCA 20 blk3 blk2 c2).2 = Ok cf ∧
    ancestor (blocks (s_db c2)) (b_header blk3) (b_header (CommonAncestor cf)) ∧
    ∀ h, h ∈ NonCanonicalPath cf ↔ ∃ x, h = h_hash x ∧ ancestor (blocks (s_db c2)) (b_header blk2) x ∧
      ¬ ancestor (blocks (s_db c2)) (b_header blk3) x.
Proof.
  assert (is_ok (LCA 20 blk3 blk2 c2).2) as Hok by (by vm_compute).
  pose proof (LCA_correct 20 blk3 blk2 c2 c2_ok blk3_lca ltac:(done)) as Hthm. cbv zeta in Hthm.
  destruct (LCA 20 blk3 blk2 c2).2 as [cf|e|c]; [|done..]. destruct Hthm as (Ha&_&_&Hn&_). by exists cf.
Defined.

Lemma IsAncestor_correct_witness :
  ∃ r, (IsAncestor 20 blk3 blk1 c2).2 = Ok r ∧ (r = true ↔ ancestor (blocks (s_db c2)) (b_header blk3) (b_header blk1)).
Proof.
  apply (IsAncestor_correct 20 blk3 blk1 c2 c2_ok c2_wf blk3_linked); [left; by vm_compute|by vm_compute|done].
Defined.

(** A storage that starts at the L1 genesis. *)
Definition blk0 : L1Block := mkL1Block (mkL1Header (-10) (-11) 0) [].
Definition g1 : CStorage := (Process 30 0 (receiptsOf blk0) c0).1.

Lemma g1_wf : wf_view (blocks (s_db g1)).
Proof.
  assert (storage_step c0 g1) as Hstep.
  { apply (step_block c0 (receiptsOf blk0) 0 30); [|by intros h a]. split; [by eexists|]. split; [by vm_compute|].
    intros _. left. split; [by vm_compute|]. by vm_compute. }
  destruct (reachable_inv c0 g1 c0_initial (rtc_once _ _ Hstep)) as [_ [Hempty|[head Hch]]]; [|by apply co_wf with head].
  exfalso. apply (f_equal (λ m : gmap Hash L1Header, m !! (-10))) in Hempty. by vm_compute in Hempty.
Qed.

Lemma LCA_genesis_shortcut_witness :
  (∃ cf, LCA 5 blk2 blk0 g1 = (g1, Ok cf) ∧ CommonAncestor cf = blk2 ∧ NonCanonicalPath cf = []) ∧
  ¬ ancestor (blocks (s_db g1)) (b_header blk0) (b_header blk2).
Proof. apply (LCA_genesis_shortcut 4 blk2 blk0 g1 g1_wf); [by vm_compute|done|done]. Defined.

(** A block with a successful and a failed transaction. *)
Definition blkTxs : L1Block := mkL1Block (b_header blk1) [mkL1Tx 1 None []; mkL1Tx 2 None []].
Definition twoReceipts : list (option Receipt) := [Some (mkReceipt 1 1 0 0 0 []); Some (mkReceipt 0 2 0 1 0 [])].
Definition sparseReceipts : list (option Receipt) := [Some (mkReceipt 1 1 0 0 0 []); None].

Lemma SuccessfulTransactions_correct_witness :
  ∃ br, BlockAndReceipts.ParseBlockAndReceipts blkTxs twoReceipts = Ok br ∧
    (BlockAndReceipts.SuccessfulTransactions br).2 = Ok [mkL1Tx 1 None []].
Proof.
  destruct (BlockAndReceipts.ParseBlockAndReceipts blkTxs twoReceipts) as [br|e|c] eqn:Hp; [|done..]. exists br. split; [done|].
  apply (BlockAndReceipts.SuccessfulTransactions_correct blkTxs twoReceipts br Hp). repeat constructor; by eexists.
Defined.

Lemma SuccessfulTransactions_nil_receipt_witness :
  ∃ br, BlockAndReceipts.ParseBlockAndReceipts blkTxs sparseReceipts = Ok br ∧
    (BlockAndReceipts.SuccessfulTransactions br).2 = Crash "nil receipt".
Proof.
  destruct (BlockAndReceipts.ParseBlockAndReceipts blkTxs sparseReceipts) as [br|e|c] eqn:Hp; [|done..]. exists br. split; [done|].
  apply (BlockAndReceipts.SuccessfulTransactions_nil_receipt blkTxs sparseReceipts br Hp). right. by left.
Defined.

(** ** Batches *)

Lemma StoreBatch_roundtrip_witness :
  ∃ s', StoreBatch gb s2 = (s', Ok tt) ∧
    (FetchBatch (Batch.hashOf gb) s').2 = Ok (Batch.mk (Batch.Header gb) None (Batch.Transactions gb)).
Proof.
  destruct (StoreBatch_roundtrip s2 gb s2_ok gb_storable) as (s'&Hrun&_&_&_&Hf&_); [by vm_compute| |by exists s'].
  apply (map_check (batches (s_db s2)) (λ _ ab, SequencerOrderNo (ab_header ab) ≠ Batch.SeqNo gb)). by vm_compute.
Defined.

(** Another genesis batch. *)
Definition gb' : Batch.t := Batch.mk (set_root 1 (Batch.Header gb)) None [].

Lemma gb'_storable : storable gb'.
Proof.
  assert (Batch.SeqNo gb' = 1 ∧ Batch.NumberOf gb' = 0) as (Hseq&Hnum) by (by vm_compute).
  split; [by vm_compute|by vm_compute|by eexists|by eexists| |rewrite Hseq; lia|rewrite Hnum; lia].
  by intros tx ?%elem_of_nil.
Qed.

Lemma gb_stored : batches (s_db s3) !! Batch.hashOf gb =
  Some (mkABatch (Batch.Header gb) [] true false).
Proof. by vm_compute. Qed.

Lemma StoreBatch_conflict_witness :
  StoreBatch gb' s3 = (s3, Crash "Conflicting batches for the same sequence").
Proof.
  pose proof (StoreBatch_conflict s3 gb' (Batch.hashOf gb) _ s3_ok gb'_storable gb_stored ltac:(by vm_compute)) as Hthm.
  rewrite bool_decide_false in Hthm; [done|]. by vm_compute.
Defined.

Lemma FetchHeadBatch_correct_witness :
  ∃ h ab, (FetchHeadBatch s4).2 = Ok (ab_batch ab) ∧ batches (s_db s4) !! h = Some ab.
Proof.
  assert (is_ok (FetchHeadBatch s4).2) as Hok by (vm_compute; exact I).
  destruct (FetchHeadBatch_correct s4 s4_ok) as [(h&ab&Hf&Hb&_)|[Hn _]]; [|rewrite Hn in Hok; destruct Hok].
  exists h, ab. exact (conj Hf Hb).
Defined.

Lemma FetchCanonicalUnexecutedBatches_correct_witness :
  ∃ l, (FetchCanonicalUnexecutedBatches s3).2 = Ok (ab_batch <$> l) ∧ mkABatch (Batch.Header gb) [] true false ∈ l.
Proof.
  destruct (FetchCanonicalUnexecutedBatches_correct s3 s3_ok) as (l&Hl&_&Hin). exists l. split; [exact Hl|].
  apply Hin. exists (Batch.hashOf gb). split; [exact gb_stored|]. split; reflexivity.
Defined.

Lemma StoreExecutedBatch_correct_witness :
  batches (s_db s4) = alter ab_set_executed (Batch.hashOf gb) (batches (s_db s3)).
Proof.
  assert (is_ok (StoreExecutedBatch gb [] s3).2) as Hok by (by vm_compute).
  destruct (StoreExecutedBatch_correct s3 gb [] s3_ok) as (_&_&_&Hr).
  unfold s4. destruct (StoreExecutedBatch gb [] s3).2; [exact Hr|destruct Hok..].
Defined.

(** A batch with transactions. *)
Definition txBatch : Batch.t := Batch.mk (Batch.Header gb) None [tx1; tx2].

Lemma ExtBatch_roundtrip_witness :
  ∃ ext b', ToExtBatch txBatch = Ok ext ∧ ToBatch ext = Ok b' ∧ Batch.Transactions b' = [tx1; tx2].
Proof.
  destruct (ToExtBatch txBatch) as [ext|e|c] eqn:Hext; [|discriminate..].
  destruct (ExtBatch_roundtrip txBatch ext eq_refl Hext) as (_&_&b'&Hb&_&Ht&_).
  exists ext, b'. split_and!; [reflexivity|exact Hb|exact Ht].
Defined.

(** ** Messages *)

Lemma RetrieveInboundMessages_correct_witness :
  ∃ s', RetrieveInboundMessages 20 blk1 blk2 c2 =
    (s', Ok (flat_map (messagesAt (s_db c2)) [Block_Hash blk2])) ∧ same_content c2 s'.
Proof.
  apply (RetrieveInboundMessages_correct c2 blk1 blk2 [Block_Hash blk1] 20 c2_ok).
  - unfold msgs_ok. apply Forall_forall. intros row Hrow. vm_compute in Hrow.
    apply list_elem_of_singleton in Hrow as ->. vm_compute. by eexists.
  - exact c2_wf.
  - intros p Hp. unfold parent_of in Hp. vm_compute in Hp. by injection Hp as <-.
  - right. by vm_compute.
  - by vm_compute.
  - apply path_cons with (p := b_header blk1); [by vm_compute|constructor].
  - done.
Defined.

Lemma CreateSyntheticTransactions_nonces_witness :
  ∃ txs, CreateSyntheticTransactions [theMessage; theMessage] emptyState = Ok txs ∧ length txs = 2%nat.
Proof.
  destruct (CreateSyntheticTransactions_nonces [theMessage; theMessage] emptyState) as (txs&Hrun&Hlen&_); [|by exists txs].
  intros m _. by eexists.
Defined.

(** A log without topics, from a contract that is not the bus. *)
Definition log0 : Log := mkLog 33 [] [1] 6 51 0 (-2) 0.
Definition receipt0 : Receipt := mkReceipt 1 51 (-2) 0 0 [log0].

Lemma log_without_topics_crashes_witness :
  getCrossChainMessages 0 (map Some [busReceipt; receipt0]) = Crash "index out of range".
Proof.
  apply (log_without_topics_crashes 0 [busReceipt; receipt0] receipt0 log0); [right; by left|done|by left|done].
Defined.

Lemma getCrossChainMessages_correct_witness :
  getCrossChainMessages 0 (map Some [busReceipt]) = convertLogsToMessages (flat_map (published 0) [busReceipt]).
Proof. apply (getCrossChainMessages_correct 0 [busReceipt]). repeat constructor. done. Defined.

(** ** Events *)

(** A topic that has the length of an address, and a log with it. *)
Definition userTopic : Hash := 2 ^ 100.
Definition userLog : Log := mkLog 33 [1; userTopic] [] 1 600 0 601 0.
Definition userReceipt : Receipt := mkReceipt 1 600 601 0 0 [userLog].

(** A database with the executed transaction of the log, in a canonical batch. *)
Definition dbEvents : DB :=
  upd_exec (λ _, {[ (601, 600) := mkExecRow 0 [] 600 601 ]})
    (upd_tx (λ _, {[ 600 := mkTxRow 600 [] 10 0 0 0 ]})
       (upd_batch (λ _, {[ 601 := mkBatchRow 601 None 2 1 true [] 0 (-1) true ]}) emptyDB)).
Definition noFilter : LogFilter := mkFilter None None None [] [].
Definition dbEvents' : DB :=
  (dbTransaction.Write (StoreEventLogs dbEvents [userReceipt] emptyState dbTransaction.new).1 dbEvents).1.

(** The user the log names sees it. *)
Lemma event_privacy_witness :
  ∃ ls lg, FilterLogs (Some userTopic) noFilter dbEvents' = Ok ls ∧ lg ∈ ls.
Proof.
  destruct (FilterLogs (Some userTopic) noFilter dbEvents') as [ls|e|c] eqn:Hf; [|by vm_compute in Hf..].
  exists ls. eexists. split; [reflexivity|].
  apply (proj2 (event_privacy [] dbEvents [userReceipt] emptyState dbEvents' eq_refl ltac:(by vm_compute)) userTopic noFilter ls _ Hf).
  eexists (mkStored dbEvents emptyState userReceipt userLog), _, _.
  split; [by left|]. split; [by vm_compute|]. split; [reflexivity|]. split; [reflexivity|]. split; [by vm_compute|].
  right. exists userTopic. split; [by left|]. split; [by vm_compute|]. split; [reflexivity|]. by left.
Defined.

Lemma subscription_leak_witness :
  relevantTo 11 (writeLog dbEvents userLog userReceipt emptyState) = false ∧
  ∃ addrs, getUserAddrsFromLogTopics userLog emptyState = Ok addrs ∧ isRelevant 11 addrs = true.
Proof.
  apply (subscription_leak dbEvents emptyState userLog userReceipt 11 userTopic 1 userTopic);
    [done|by vm_compute|done|done|done].
Defined.
