(* ===== verification/NodeWitnesses.v ===== *)
(** * The theorems on the parts of the node, applied

    Execution, mempool, rollups, secrets, sequencer and validator, at a
    concrete node; and two behaviours of the execution that only an example
    shows. *)

From S2P Require Import Prelude Types Codec L1Chain EnclaveDB BatchDB Events Storage StorageInv StorageOps StorageSpec CrossChain BlockProcessor Reads Executor ExecutorSpec Mempool Registry RollupCompression RollupSpec Rollups Sequencer Validator SequencerSpec Concrete Scenario.

Local Open Scope Z_scope.

(** ** Execution *)

Definition ctx1 : BatchExecutionContext := mkContext (-1) (Batch.hashOf gb) [tx1; tx2] 200 2.
Definition run1 : CStorage * result ComputedBatch := ComputeBatch 10 ctx1 s4.

Lemma run1_ok : ∃ s cb, ComputeBatch 10 ctx1 s4 = (s, Ok cb) ∧ Batch.Transactions (cb_Batch cb) = [tx1; tx2].
Proof.
  assert (match run1.2 with Ok cb => bool_decide (Batch.Transactions (cb_Batch cb) = [tx1; tx2]) | _ => false end = true)
    as Hrun by (by vm_compute).
  unfold run1 in Hrun. destruct (ComputeBatch 10 ctx1 s4) as [s [cb|e|c]]; [|discriminate..].
  exists s, cb. split; [reflexivity|]. exact (bool_decide_eq_true_1 _ Hrun).
Qed.

(** The same content with nothing cached. *)
Definition s4cold : CStorage := mkStorage _ _ (s_db s4) ∅ (s_tries s4).

Lemma s4_holds : holds (s_db s4) (s_tries s4) s4.
Proof. exact (holds_self s4 s4_ok). Qed.
Lemma s4cold_holds : holds (s_db s4) (s_tries s4) s4cold.
Proof. split; [reflexivity|]. split; [reflexivity|]. intros h v Hv. discriminate Hv. Qed.

Lemma ComputeBatch_deterministic_witness :
  result_rel (=) (ComputeBatch 10 ctx1 s4).2 (ComputeBatch 10 ctx1 s4cold).2.
Proof.
  apply (ComputeBatch_deterministic (s_db s4) (s_tries s4) 10 ctx1 s4 s4cold (so_db _ s4_ok) s4_parents);
    [exact s4_holds|exact s4cold_holds].
Defined.

Lemma ComputeBatch_correct_witness :
  ∃ s cb ab, ComputeBatch 10 ctx1 s4 = (s, Ok cb) ∧ batches (s_db s4) !! Batch.hashOf gb = Some ab ∧
    computed ctx1 (ab_header ab) cb.
Proof.
  destruct run1_ok as (s&cb&Hrun&_). exists s, cb.
  destruct (ComputeBatch_correct (s_db s4) (s_tries s4) 10 ctx1 s4 s cb (so_db _ s4_ok) s4_parents s4_holds Hrun)
    as (_&ab&Hab&Hc). exists ab. split; [exact Hrun|]. exact (conj Hab Hc).
Defined.

Lemma ExecuteBatch_accepts_witness :
  ∃ cb s, Batch.Transactions (cb_Batch cb) = [tx1; tx2] ∧
    ExecuteBatch 10 (signed 1 2 (cb_Batch cb)) s4cold = (s, Ok (cb_Receipts cb)).
Proof.
  destruct run1_ok as (s&cb&Hrun&Htxs). exists cb.
  destruct (ExecuteBatch_accepts (s_db s4) (s_tries s4) 10 ctx1 s4 s s4cold cb 1 2
    (so_db _ s4_ok) s4_parents s4_holds s4cold_holds Hrun Htxs) as (s'&He&_).
  exists s'. exact (conj Htxs He).
Defined.

Definition theBatch : Batch.t := match run1.2 with Ok cb => cb_Batch cb | _ => noBatch end.

Lemma ExecuteBatch_sound_witness :
  ∃ s receipts, ExecuteBatch 10 theBatch s4 = (s, Ok receipts) ∧
    ∃ cb, set_sig 0 0 (Batch.Header theBatch) = set_sig 0 0 (Batch.Header (cb_Batch cb)) ∧
      cb_Receipts cb = receipts.
Proof.
  assert (is_ok (ExecuteBatch 10 theBatch s4).2) as Hok by (vm_compute; exact I).
  destruct (is_ok_run _ Hok) as (s&receipts&Hrun). exists s, receipts. split; [exact Hrun|].
  destruct (ExecuteBatch_sound (s_db s4) (s_tries s4) 10 theBatch s4 s receipts (so_db _ s4_ok) s4_parents s4_holds
    ltac:(vm_compute; reflexivity) Hrun) as (cb&_&Hr&Hs&_). exists cb. exact (conj Hs Hr).
Defined.

(** The context of a sequencer whose mempool has a transaction that cannot be
    executed, before the others. *)
Definition ctxBad : BatchExecutionContext := mkContext (-1) (Batch.hashOf gb) [badTx; tx1; tx2] 200 2.

(** A transaction that is left out of a batch still takes an index: the
    transactions after it run with a later index, and so another randomness, than
    when a validator runs the batch without it.  In this example, whose state keeps
    the randomness, a validator with the same data rejects the batch that the
    sequencer computed. *)
Theorem excluded_transaction_breaks_validation :
  match (ComputeBatch 10 ctxBad s4).2 with
  | Ok cb => Batch.Transactions (cb_Batch cb) = [tx1; tx2] ∧
      (ExecuteBatch 10 (cb_Batch cb) s4).2 = Err (ErrMsg "batch is in invalid state")
  | _ => False
  end.
Proof. vm_compute. split; reflexivity. Qed.

(** The accepted batch with a transaction added that cannot be executed. *)
Definition paddedBatch : Batch.t := Batch.mk (Batch.Header theBatch) None (Batch.Transactions theBatch ++ [badTx]).

(** [ExecuteBatch] does not compare the transactions of a batch with the hash in
    its header: a batch with an invalid transaction appended is accepted, although
    its header commits to the list without it. *)
Theorem ExecuteBatch_accepts_padding :
  TxHash (Batch.Header paddedBatch) ≠ DeriveSha_txs (Batch.Transactions paddedBatch) ∧
  is_ok (ExecuteBatch 10 paddedBatch s4).2 ∧ (ExecuteBatch 10 paddedBatch s4).2 = (ExecuteBatch 10 theBatch s4).2.
Proof. split_and!; vm_compute; [discriminate|exact I|reflexivity]. Qed.

(** ** The mempool *)

Definition pool : Mempool.t := <[1001 := tx1]> (<[1002 := tx2]> ∅).
Definition iterate (mp : Mempool.t) : list L2Tx := (map_to_list mp).*2.

Lemma iterate_fetches (mp : Mempool.t) : Mempool.FetchMempoolTxs mp (iterate mp).
Proof. unfold Mempool.FetchMempoolTxs, iterate. reflexivity. Qed.

Lemma CurrentTxs_correct_witness :
  ∃ l txs, Mempool.CurrentTxs Sender emptyState (iterate pool) (NewBatchSizeLimiter 1000) = (l, Ok txs) ∧
    Mempool.totalSize txs ≤ 1000 ∧ NoDup txs.
Proof.
  destruct (Mempool.CurrentTxs_correct Sender emptyState pool (iterate pool) 1000) as (l&txs&Hrun&Hnd&_&_&Hsize).
  - apply (map_check pool (λ h tx, tx_hash tx = h ∧ is_Some (rlp_encode tx))). by vm_compute.
  - intros a. apply Int.u64_range.
  - done.
  - apply iterate_fetches.
  - exists l, txs. by split_and!.
Defined.

Lemma CurrentTxs_complete_witness :
  ∃ txs, Mempool.CurrentTxs Sender emptyState (iterate pool) mkUnlimited = (mkUnlimited, Ok txs) ∧
    ∃ tx, tx ∈ txs ∧ tx_nonce tx = 1.
Proof.
  destruct (Mempool.CurrentTxs_complete Sender emptyState pool (iterate pool) 10 1) as (txs&Hrun&tx&Hin&_&Hn).
  - intros a. apply Int.u64_range.
  - apply iterate_fetches.
  - by vm_compute.
  - intros m Hm. change (GetNonce emptyState 10) with 0 in Hm.
    assert (tx1 ∈ iterate pool ∧ tx2 ∈ iterate pool) as [H1 H2].
    { split; apply list_elem_of_fmap; [exists (1001, tx1)|exists (1002, tx2)]; (split; [done|]); by apply elem_of_map_to_list. }
    destruct (decide (m = 0)) as [->|Hne]; [by exists tx1|exists tx2]. split; [done|]. split; [done|]. simpl. lia.
  - exists txs. split; [done|]. by exists tx.
Defined.

(** ** A second batch *)

Definition s5 : CStorage := (StoreBatch theBatch s4).1.
Definition s6 : CStorage := (StoreExecutedBatch theBatch [] s5).1.

Lemma theBatch_storable : storable theBatch.
Proof.
  assert (Batch.Transactions theBatch = [tx1; tx2] ∧ Batch.SeqNo theBatch = 2 ∧ Batch.NumberOf theBatch = 1)
    as (Htx&Hseq&Hnum) by (by vm_compute).
  split; [by vm_compute|by vm_compute|by eexists|by eexists| |rewrite Hseq; lia|rewrite Hnum; lia].
  rewrite Htx. intros tx [->|[->|[]%elem_of_nil]%elem_of_cons]%elem_of_cons; (split; [by eexists|]); (split; [by eexists|]); cbn; lia.
Qed.

Lemma s5_ok : storage_ok s5.
Proof.
  destruct (StoreBatch_new s4 theBatch s4_ok theBatch_storable) as (s'&Hrun&Hok&_); [by vm_compute| |].
  - apply (map_check (batches (s_db s4)) (λ _ ab, SequencerOrderNo (ab_header ab) ≠ Batch.SeqNo theBatch)). by vm_compute.
  - unfold s5. by rewrite Hrun.
Qed.

Lemma s6_ok : storage_ok s6.
Proof. by destruct (StoreExecutedBatch_spec s5 theBatch [] s5_ok) as (?&_). Qed.

Lemma s6_holds : holds (s_db s6) (s_tries s6) s6.
Proof. exact (holds_self s6 s6_ok). Qed.

Lemma s6_blocks : ∀ h hd, blocks (s_db s6) !! h = Some hd → h = -1 ∧ hd = b_header blk1.
Proof.
  apply (map_check (blocks (s_db s6)) (λ h hd, h = -1 ∧ hd = b_header blk1)). by vm_compute.
Qed.

Lemma s6_wf : wf_view (blocks (s_db s6)).
Proof.
  split.
  - intros h hd [-> ->]%s6_blocks. reflexivity.
  - intros h hd [-> ->]%s6_blocks p [Hp _]%s6_blocks. discriminate Hp.
  - intros h hd [-> ->]%s6_blocks. cbn. lia.
  - intros h hd h' hd' [-> ->]%s6_blocks _ Hn. discriminate Hn.
Qed.

Lemma s6_has (h : Hash) (ab : ABatch) : batches (s_db s6) !! h = Some ab →
  has_batch (s_db s6) (SequencerOrderNo (ab_header ab)) (ab_batch ab) 5.
Proof.
  intros Hab. exists h, ab, (b_header blk1). split; [done|]. split; [done|]. split; [done|]. split; [|split; [done|by eexists]].
  assert (L1Proof (ab_header ab) = -1) as ->; [|vm_compute; reflexivity].
  apply Z.eqb_eq. revert h ab Hab. apply (map_checkb (batches (s_db s6)) (λ _ ab, L1Proof (ab_header ab) =? -1)). by vm_compute.
Qed.

Lemma s6_lookup (b : Batch.t) : (∃ ab, batches (s_db s6) !! Batch.hashOf b = Some ab ∧ ab_header ab = Batch.Header b) →
  ∃ b' k, has_batch (s_db s6) (Batch.SeqNo b) b' k.
Proof. intros (ab&Hab&Hh). exists (ab_batch ab), 5. unfold Batch.SeqNo. rewrite <-Hh. exact (s6_has _ ab Hab). Qed.

Lemma s6_complete : complete (s_db s6) 1 2.
Proof.
  intros i Hi. assert (Batch.SeqNo gb = 1 ∧ Batch.SeqNo theBatch = 2) as [H1 H2] by (by vm_compute).
  destruct (decide (i = 1)) as [->|Hne].
  - rewrite <-H1. apply s6_lookup. eexists. split; [by vm_compute|by vm_compute].
  - replace i with 2 by lia. rewrite <-H2. apply s6_lookup. eexists. split; [by vm_compute|by vm_compute].
Qed.

Definition headOf : ABatch := default (mkABatch (Batch.Header noBatch) [] false false) (batches (s_db s6) !! Batch.hashOf theBatch).


(** ** Rollups *)

Definition members : list (Batch.t * L1Header * bool) := [(gb, b_header blk1, true); (theBatch, b_header blk1, true)].
Definition theRollupHeader : RollupHeader := mkRollupHeader 0 (-1) [] 0 0 0 2.
Definition rollupRun : CStorage * result ExtRollup :=
  CreateExtRollup (mkRollup theRollupHeader (map (λ e, e.1.1) members)) s6.

Lemma members_at : ∀ i e, members !! i = Some e → member_at (Batch.SeqNo gb + Z.of_nat i) e.
Proof.
  assert (∀ x y, member_at 1 x → member_at 2 y → ∀ i e, [x; y] !! i = Some e → member_at (1 + Z.of_nat i) e) as Hgen.
  { by intros x y Hx Hy [|[|i]] e [= <-]. }
  replace (Batch.SeqNo gb) with 1 by (vm_compute; reflexivity).
  apply Hgen; vm_compute; repeat split; discriminate.
Qed.

Lemma members_canon : canon_consecutive members.
Proof.
  assert (∀ x y : Batch.t * L1Header * bool, x.2 = true → canon_heights (Batch.NumberOf x.1.1 - 1) [x; y] → canon_consecutive [x; y]) as Hgen.
  { intros x y Hx Hh [|i] e Hi He Hlt; [by injection Hi as <-|]. by rewrite (Hlt 0%nat x ltac:(lia) eq_refl) in Hx. }
  apply Hgen; [reflexivity|]. vm_compute. repeat split; reflexivity.
Qed.

Lemma rollup_restores_batches_witness :
  ∃ ext hdr txs s2' ibs, rollupRun.2 = Ok ext ∧ decryptDecompressAndDeserialise (CalldataRollupHeaderBlob ext) = Ok hdr ∧
    createIncompleteBatches 10 hdr txs (-1) s6 = (s2', Ok ibs) ∧ Forall2 restored members ibs.
Proof.
  assert (is_ok rollupRun.2) as Hok by (vm_compute; exact I).
  destruct (is_ok_run _ Hok) as (s'&ext&Hrun). unfold rollupRun in Hrun.
  assert (ext_rollup_header ext = theRollupHeader) as Hhdr.
  { unfold CreateExtRollup in Hrun. apply bind_Ok in Hrun as (?&?&_&Hrun). apply bind_Ok in Hrun as (?&?&_&Hrun).
    apply bind_Ok in Hrun as (?&?&_&Hrun). unfold mret, M_ret in Hrun. injection Hrun as _ <-. reflexivity. }
  destruct (rollup_restores_batches (s_db s6) (s_tries s6) (s_db s6) (s_tries s6) 10 s6 s' s6 (gb, b_header blk1, true)
    [(theBatch, b_header blk1, true)] theRollupHeader (b_header blk1) ext (so_db _ s6_ok) (so_db _ s6_ok) s6_wf s6_holds s6_holds)
    as (txs&hdr&s2'&ibs&_&Hh&Hc&_&Hres).
  - repeat constructor; try (vm_compute; reflexivity); try (eexists; reflexivity);
      eexists; (split; [vm_compute; reflexivity|]); vm_compute; reflexivity.
  - repeat constructor; exists (b_header blk1); (split; [apply ancestor_refl|]); (split; [reflexivity|]); intros _; vm_compute; reflexivity.
  - vm_compute. reflexivity.
  - reflexivity.
  - exact members_at.
  - exact members_canon.
  - exact Hrun.
  - exists ext, hdr, txs, s2', ibs. rewrite Hhdr in Hc. split; [exact (f_equal snd Hrun)|].
    split; [exact Hh|]. split; [exact Hc|]. exact Hres.
Defined.

Definition enclaveAt (s : CStorage) : Enclave (gmap Hash bytes) := mkEnclave _ _ s (mkRegistry true []) ∅ None.

(** The rollup, signed by the sequencer, and published in a transaction. *)
Definition signedRollup : ExtRollup := match rollupRun.2 with
  | Ok ext => mkExtRollup (set_rollup_sig (numberOf ([5] : list Z, ExtRollup_Hash ext)) 0 (ext_rollup_header ext))
                (CalldataRollupHeaderBlob ext) (BatchPayloads ext)
  | _ => mkExtRollup theRollupHeader [] []
  end.
Definition publish (data : bytes) : BlockAndReceipts.t :=
  BlockAndReceipts.mk (mkL1Block (b_header blk1) [mkL1Tx 70 (Some 500) data])
    {[0%nat := Some (mkReceipt 1 70 (-1) 0 0 [])]} [] None.
Definition rollupBlock : BlockAndReceipts.t := publish ([1; 0; 0; 0] ++ default [] (rlp_encode signedRollup)).

Lemma ProcessRollupsInBlock_signed_witness :
  ∃ r e', extractRollups rollupBlock = Ok [r] ∧
    ProcessRollupsInBlock 10 theGenesis 99 rollupBlock (enclaveAt s6) = forM [r] (processRollup 10 theGenesis) e'.
Proof.
  assert (match extractRollups rollupBlock with
          | Ok [r] => rollup_signed (sequencerKey 99 (enclaveAt s6)) r | _ => false end = true) as Hall
    by (vm_compute; reflexivity).
  destruct (extractRollups rollupBlock) as [[|r [|r' rs]]|err|c] eqn:Hrs; [discriminate Hall| |discriminate Hall..].
  destruct (ProcessRollupsInBlock_signed 10 theGenesis 99 rollupBlock [r] (enclaveAt s6) Hrs) as (e'&l&_&_&_&Hrun&Hone).
  pose proof (Hone r eq_refl Hall) as Hl. subst l. exists r, e'. split; [reflexivity|].
  destruct Hrun as [Hrun|[Hnil _]]; [exact Hrun|discriminate Hnil].
Defined.

(** A request for the secret by owner 7 with key 8. *)
Lemma secret_only_to_attested_witness :
  ∃ s resps, ProcessNetworkSecretMsgs (publish [2; 0; 0; 0; 7; 8; 7; 8]) s6 = (s, Ok resps) ∧ resps ≠ [] ∧
    Forall attested_response resps.
Proof.
  assert (match (ProcessNetworkSecretMsgs (publish [2; 0; 0; 0; 7; 8; 7; 8]) s6).2 with Ok (_ :: _) => true | _ => false end = true)
    as Hrun by (vm_compute; reflexivity).
  destruct (ProcessNetworkSecretMsgs (publish [2; 0; 0; 0; 7; 8; 7; 8]) s6) as [s [[|r resps]|e|c]] eqn:Heq; try discriminate Hrun.
  exists s, (r :: resps). split; [reflexivity|]. split; [discriminate|].
  exact (secret_only_to_attested _ _ _ _ Heq).
Defined.

(** ** The validator and the sequencer *)

Lemma s5_parents : parents_ok (s_db s5).
Proof.
  unfold parents_ok. apply (map_check (batches (s_db s5)) (λ _ ab, blocks (s_db s5) !! ParentHash (ab_header ab) = None)). by vm_compute.
Qed.

Lemma s5_executed : ∀ h ab, batches (s_db s5) !! h = Some ab → negb (ab_executed ab) || (Number (ab_header ab) =? 0) = true.
Proof. apply (map_checkb (batches (s_db s5)) (λ _ ab, negb (ab_executed ab) || (Number (ab_header ab) =? 0))). by vm_compute. Qed.

(** The second batch is stored and not executed. *)
Lemma validator_executes_in_order_witness :
  let e' := (ExecuteStoredBatches 10 theGenesis (enclaveAt s5)).1 in
  validator_inv (e_storage e') ∧ headers (s_db (e_storage e')) = headers (s_db s5) ∧
  BatchWasExecuted (Batch.hashOf theBatch) (s_db s5) = Ok false ∧
  BatchWasExecuted (Batch.hashOf theBatch) (s_db (e_storage e')) = Ok true.
Proof.
  destruct (validator_executes_in_order 10 theGenesis (enclaveAt s5)) as [Hinv Hh].
  - split; [split; [exact s5_ok|exact s5_parents]|].
    intros h ab Hab Hexec Hnum. destruct Hnum. pose proof (s5_executed h ab Hab) as Hb.
    rewrite Hexec in Hb. exact (proj1 (Z.eqb_eq _ _) Hb).
  - split; [exact Hinv|]. split; [exact Hh|]. split; vm_compute; reflexivity.
Defined.

Definition cfg1 : SequencerConfig := mkSequencerConfig 1000 10000 99 [5] theGenesis.
Definition sequencer1 : Enclave (gmap Hash bytes) := mkEnclave _ _ s4 (mkRegistry true []) pool None.

Lemma s4_apart : hashes_apart (s_db s4).
Proof.
  intros h. destruct (blocks (s_db s4) !! BatchHeader_Hash h) as [hd|] eqn:Hb; [|reflexivity]. exfalso.
  assert (∀ k a, blocks (s_db s4) !! k = Some a → (k <? 0) = true) as Hall
    by (apply (map_checkb (blocks (s_db s4)) (λ k _, k <? 0)); vm_compute; reflexivity).
  apply Hall in Hb as Hneg.
  apply Z.ltb_lt in Hneg. unfold BatchHeader_Hash, rlpHash_batch, concrete_hashing, numberOf in Hneg. lia.
Qed.

Lemma pool_ok : mempool_ok pool.
Proof.
  intros h tx Htx. assert (tx_hash tx = h ∧ (tx = tx1 ∨ tx = tx2)) as [Hh Hor].
  { revert h tx Htx. apply (map_check pool (λ h tx, tx_hash tx = h ∧ (tx = tx1 ∨ tx = tx2))). by vm_compute. }
  split; [exact Hh|]. destruct Hor as [->| ->]; (split; [by eexists|]); cbn; lia.
Qed.

Lemma s4_room : ∀ h ab, batches (s_db s4) !! h = Some ab →
  (0 <=? SequencerOrderNo (ab_header ab)) && (SequencerOrderNo (ab_header ab) <? 10) &&
  (0 <=? Number (ab_header ab)) && (Number (ab_header ab) <? 10) = true.
Proof.
  apply (map_checkb (batches (s_db s4)) (λ _ ab, (0 <=? SequencerOrderNo (ab_header ab)) &&
    (SequencerOrderNo (ab_header ab) <? 10) && (0 <=? Number (ab_header ab)) && (Number (ab_header ab) <? 10))).
  by vm_compute.
Qed.

Lemma createNewHeadBatch_correct_witness :
  ∃ e' hab sb, createNewHeadBatch 10 cfg1 Sender iterate 300 blk1 sequencer1 = (e', Ok tt) ∧
    is_head_batch (s_db s4) hab ∧ new_head cfg1 (s_db s4) blk1 300 sequencer1 e' hab sb.
Proof.
  assert (is_ok (createNewHeadBatch 10 cfg1 Sender iterate 300 blk1 sequencer1).2) as Hok by (vm_compute; exact I).
  destruct (is_ok_run _ Hok) as (e'&[]&Hrun).
  destruct (createNewHeadBatch_correct 10 cfg1 Sender iterate iterate_fetches (s_db s4) (s_tries s4) 300 blk1 sequencer1 e')
    as (hab&sb&Hhead&_&Hnew).
  - exact (so_db _ s4_ok).
  - exact s4_parents.
  - exact s4_apart.
  - intros h ab Hab. pose proof (s4_room h ab Hab) as Hb. lia.
  - exact s4_holds.
  - exact pool_ok.
  - intros st a. apply Int.u64_range.
  - vm_compute. reflexivity.
  - exact Hrun.
  - exists e', hab, sb. split; [exact Hrun|]. split; [exact Hhead|]. exact Hnew.
Defined.
