(* ===== verification/HistoryWitnesses.v ===== *)
(** * The theorems on shared histories, applied

    The validator of [NodeWitnesses], which has stored a batch it has not
    executed, accepts it from a sequencer that had not; and a node that has only
    the genesis batch restores the next one from a rollup. *)

From S2P Require Import Prelude Types Codec L1Chain EnclaveDB BatchDB Events Storage StorageInv StorageOps StorageSpec CrossChain BlockProcessor Reads Executor ExecutorSpec Growth Mempool Registry RollupCompression RollupSpec Rollups Sequencer Validator SequencerSpec Replay Concrete Scenario NodeWitnesses.

Local Open Scope Z_scope.

(** The L1 block of the batches, and its unknown parent; the genesis batch, and
    the hash it has for a parent. *)
Definition B1 (h : Hash) : Prop := h = -1 ∨ h = -100.
Definition T1 (h : Hash) : Prop := h = Batch.hashOf gb ∨ h = 0.

Lemma lookup_eqb {A} (m1 m2 : gmap Z A) (h : Hash) : bool_decide (is_Some (m1 !! h)) = bool_decide (is_Some (m2 !! h)) →
  is_Some (m1 !! h) ↔ is_Some (m2 !! h).
Proof. case_bool_decide; case_bool_decide; done. Qed.

Lemma B1_history d : blocks d !! (-1) = Some (b_header blk1) → blocks d !! (-100) = None →
  t_l1msg d = [] → ∀ d2, blocks d2 !! (-1) = Some (b_header blk1) → t_l1msg d2 = [] → l1_history B1 d d2.
Proof.
  intros Hb Hn Hm d2 Hb2 Hm2. split.
  - intros h hd [->| ->] Hhd; congruence.
  - intros h hd [->| ->] Hhd; [|congruence]. rewrite Hb in Hhd. injection Hhd as <-. by right.
  - intros h _. unfold FetchL1Messages. by rewrite Hm, Hm2.
Qed.

Lemma s4_s5_l1 : l1_history B1 (s_db s4) (s_db s5).
Proof. apply B1_history; vm_compute; reflexivity. Qed.

Lemma stored_fields (o : option ABatch) p q : option_map (λ ab, (ParentHash (ab_header ab), L1Proof (ab_header ab))) o = Some (p, q) →
  ∀ ab, o = Some ab → ParentHash (ab_header ab) = p ∧ L1Proof (ab_header ab) = q.
Proof. intros Ho ab ->. by injection Ho. Qed.

Lemma gb_header ab : batches (s_db s4) !! Batch.hashOf gb = Some ab → ParentHash (ab_header ab) = 0 ∧ L1Proof (ab_header ab) = -1.
Proof. apply stored_fields. vm_compute. reflexivity. Qed.

Lemma s4_s5_l2 : l2_history T1 (ParentPtr ctx1) (s_db s4) (s_tries s4) (s_db s5) (s_tries s5).
Proof.
  assert (batches (s_db s4) !! 0 = None) as Hz by (vm_compute; reflexivity).
  split.
  - intros h [->| ->]; apply lookup_eqb; vm_compute; reflexivity.
  - intros h ab [->| ->] Hab; [|congruence]. right. by apply gb_header in Hab as [-> _].
  - assert (s_tries s5 = s_tries s4) as -> by (vm_compute; reflexivity). by intros.
Qed.

Lemma s4_s5_extends : extends B1 T1 (ParentPtr ctx1) (s_db s4) (s_tries s4) (s_db s5) (s_tries s5).
Proof.
  split; [exact s4_s5_l1|exact s4_s5_l2| |vm_compute; reflexivity].
  intros h ab [->| ->] Hab; [left; by apply gb_header in Hab as [_ ->]|]. vm_compute in Hab. discriminate Hab.
Qed.

Lemma ExecuteBatch_accepts_history_witness :
  ∃ cb s, Batch.Transactions (cb_Batch cb) = [tx1; tx2] ∧
    ExecuteBatch 10 (signed 1 2 (cb_Batch cb)) s5 = (s, Ok (cb_Receipts cb)).
Proof.
  destruct run1_ok as (s&cb&Hrun&Htxs). exists cb.
  destruct (ExecuteBatch_accepts_history B1 T1 (s_db s4) (s_tries s4) (s_db s5) (s_tries s5) 10 ctx1 s4 s s5 cb 1 2
    (so_db _ s4_ok) (so_db _ s5_ok) s4_parents s5_parents s4_s5_extends (or_introl eq_refl) (or_introl eq_refl)
    s4_holds (holds_self s5 s5_ok) Hrun Htxs) as (s'&He&_).
  exists s'. exact (conj Htxs He).
Defined.

(** ** A rollup with the second batch *)

(** The states of two storages agree at the root of a stored batch. *)
Lemma stored_root (o : option ABatch) (tr1 tr2 : gmap Hash CState) :
  match o with Some ab => tr1 !! Root (ab_header ab) = tr2 !! Root (ab_header ab) | None => True end →
  ∀ ab, o = Some ab → tr1 !! Root (ab_header ab) = tr2 !! Root (ab_header ab).
Proof. by intros Ho ab ->. Qed.

Definition cb1 : ComputedBatch := match run1.2 with Ok cb => cb | _ => mkComputed _ noBatch [] emptyState end.

(** The sequencer after it committed the state of its batch. *)
Definition s7 : CStorage := (Commit cb1 true s6).1.

Lemma s7_ok : storage_ok s7.
Proof. destruct s6_ok as [Hd Hc]. by split. Qed.

Lemma s7_holds : holds (s_db s7) (s_tries s7) s7.
Proof. exact (holds_self s7 s7_ok). Qed.

Lemma s7_parents : parents_ok (s_db s7).
Proof.
  unfold parents_ok. apply (map_check (batches (s_db s7)) (λ _ ab, blocks (s_db s7) !! ParentHash (ab_header ab) = None)). by vm_compute.
Qed.

Definition member1 : Batch.t * L1Header * bool := (theBatch, b_header blk1, true).
Definition rollup1 : CStorage * result ExtRollup := CreateExtRollup (mkRollup theRollupHeader [theBatch]) s7.

Lemma firstParent1 : firstParent member1 [] = Batch.hashOf gb.
Proof. vm_compute. reflexivity. Qed.

Lemma s7_gb ab : batches (s_db s7) !! Batch.hashOf gb = Some ab → ParentHash (ab_header ab) = 0 ∧ L1Proof (ab_header ab) = -1.
Proof. apply stored_fields. vm_compute. reflexivity. Qed.

Lemma s7_lineage h : lineage (batches (s_db s7)) (Batch.hashOf gb) h → T1 h.
Proof.
  assert (batches (s_db s7) !! 0 = None) as Hz by (vm_compute; reflexivity).
  induction 1 as [|h ab _ [->| ->] Hab]; [by left|by right; apply s7_gb in Hab as [-> _]|congruence].
Qed.

Lemma s4_knows : knows (s_db s7) (s_tries s7) B1 (s_db s4) (s_tries s4) (Batch.hashOf gb).
Proof.
  assert (batches (s_db s7) !! 0 = None) as Hz by (vm_compute; reflexivity).
  split; [split|].
  - intros h [->| ->]%s7_lineage; apply lookup_eqb; vm_compute; reflexivity.
  - intros h ab Hh Hab. by eapply lineage_parent.
  - intros ab st Hab. assert (∀ o1 o2 : option CState, o1 = o2 → o1 = Some st → o2 = Some st) as Heq by (by intros ? ? ->).
    apply Heq. revert ab Hab. apply (stored_root (batches (s_db s7) !! Batch.hashOf gb)). vm_compute. reflexivity.
  - intros h ab [->| ->]%s7_lineage Hab; [|congruence]. left. by apply s7_gb in Hab as [_ ->].
Qed.

Lemma s4_replica : replica (s_db s7) B1 (s_db s4) (s_tries s4) s4.
Proof.
  split; [exact s4_holds|exact (so_db _ s4_ok)|exact s4_parents|exact s4_apart| |vm_compute; reflexivity].
  apply B1_history; vm_compute; reflexivity.
Qed.

Lemma theBatch_at_sequencer : at_sequencer (s_db s7) theBatch.
Proof.
  split; [vm_compute; reflexivity|]. split.
  - assert (∀ o hd, match o with Some ab => ab_header ab = hd | None => False end → ∃ ab, o = Some ab ∧ ab_header ab = hd) as Hgen.
    { intros [ab|] hd Ho; [by exists ab|done]. }
    apply Hgen. vm_compute. reflexivity.
  - apply (bool_decide_eq_true_1 (is_Some _)). vm_compute. reflexivity.
Qed.

Definition rerun : CStorage * result ComputedBatch := ComputeBatch 10 (contextOf theBatch) s7.

Lemma theBatch_recordable : recordable (C:=gmap Hash bytes) 10 (s_db s7) (s_tries s7) theBatch.
Proof.
  assert (match rerun.2 with
        | Ok cb => (same_unsigned (cb_Batch cb) theBatch ∧ Batch.Transactions (cb_Batch cb) = Batch.Transactions theBatch ∧
            s_tries s7 !! Root (Batch.Header theBatch) = Some (cb_state cb)) ∧
            forallb (λ r, bool_decide (r_blockhash r = Batch.hashOf theBatch) && bool_decide (r_logs r = [])) (cb_Receipts cb) = true ∧
            r_txhash <$> cb_Receipts cb = [1001; 1002]
        | _ => False
        end) as Hrun by (vm_compute; split; [split; [|split]; reflexivity|split; reflexivity]).
  destruct rerun as [s [cb|?|?]] eqn:Heq; [|destruct Hrun..]. destruct Hrun as (Hcb&Hall&Htx).
  exists cb. split; [exists s7, s; split; [exact s7_holds|]; split; [exact Heq|exact Hcb]|].
  rewrite forallb_forall in Hall. assert (∀ r, r ∈ cb_Receipts cb → r_blockhash r = Batch.hashOf theBatch ∧ r_logs r = []) as Hr.
  { intros r [H1 H2]%list_elem_of_In%Hall%andb_true_iff. split; [exact (bool_decide_eq_true_1 _ H1)|exact (bool_decide_eq_true_1 _ H2)]. }
  split.
  - intros r _. by eexists.
  - intros r Hin. exact (proj1 (Hr r Hin)).
  - rewrite Htx. apply (bool_decide_eq_true_1 (NoDup [1001; 1002])). reflexivity.
  - intros r l Hin Hl. destruct (Hr r Hin) as [_ Hnil]. rewrite Hnil in Hl. destruct (not_elem_of_nil _ Hl).
  - intros r l Hin Hl. destruct (Hr r Hin) as [_ Hnil]. rewrite Hnil in Hl. destruct (not_elem_of_nil _ Hl).
Qed.

Lemma s4_fk : exec_fk (s_db s4).
Proof.
  intros k Hk. exfalso. revert Hk. assert (t_exec (s_db s4) = ∅) as Hempty by (vm_compute; reflexivity).
  rewrite Hempty, lookup_empty. by intros [? ?].
Qed.

Lemma theBatch_member_ok : member_ok (C:=gmap Hash bytes) 10 (s_db s7) (s_tries s7) B1 member1.
Proof.
  split; [exact theBatch_at_sequencer|]. split; [left; vm_compute; reflexivity|].
  split; [exact theBatch_recordable|]. destruct theBatch_storable as [_ S2 _ _ S5 S6 S7].
  split; [reflexivity|exact S2|by eexists|by eexists|exact S5|exact S6|exact S7].
Qed.

Lemma s4_below h ab : batches (s_db s4) !! h = Some ab → SequencerOrderNo (ab_header ab) < Batch.SeqNo theBatch.
Proof.
  intros Hab. apply Z.ltb_lt. revert h ab Hab.
  apply (map_checkb (batches (s_db s4)) (λ _ ab, SequencerOrderNo (ab_header ab) <? Batch.SeqNo theBatch)). by vm_compute.
Qed.

Lemma s4_wf : wf_view (blocks (s_db s4)).
Proof.
  assert (blocks (s_db s4) = blocks (s_db s6)) as -> by (vm_compute; reflexivity). exact s6_wf.
Qed.

Lemma ProcessExtRollup_faithful_witness :
  ∃ ext e hdr, rollup1.2 = Ok ext ∧ ProcessExtRollup 10 theGenesis ext (enclaveAt s4) = (e, Ok hdr) ∧
    ∃ d2 tr2, s_db (e_storage e) = d2 ∧ has_member (s_tries s7) d2 tr2 member1.
Proof.
  assert (is_ok rollup1.2) as Hok by (vm_compute; exact I).
  destruct (is_ok_run _ Hok) as (s'&ext&Hrun). rewrite Hrun. cbn [snd].
  destruct (ProcessExtRollup_faithful 10 theGenesis B1 (s_db s7) (s_tries s7) (s_db s4) (s_tries s4) s7 s' (enclaveAt s4)
    member1 [] theRollupHeader (b_header blk1) ext (so_db _ s7_ok) s7_parents s7_holds s4_replica s4_wf s4_fk)
    as (e&hdr&Hproc&d2&tr2&Hrep&_&Hall).
  - constructor; [|constructor]. split; [vm_compute; reflexivity|]. split; [by eexists|].
    eexists. split; [vm_compute; reflexivity|]. vm_compute; reflexivity.
  - constructor; [|constructor]. exists (b_header blk1). split; [apply ancestor_refl|]. split; [reflexivity|]. intros _. vm_compute. reflexivity.
  - constructor; [exact theBatch_member_ok|constructor].
  - vm_compute. reflexivity.
  - reflexivity.
  - intros i m' Hi. replace (Batch.SeqNo member1.1.1 + Z.of_nat i) with (Batch.SeqNo gb + Z.of_nat (S i)).
    + exact (members_at (S i) m' Hi).
    + assert (Batch.SeqNo member1.1.1 = Batch.SeqNo gb + 1) as -> by (vm_compute; reflexivity). lia.
  - intros [|i] m' Hi He Hlt; [|discriminate Hi]. injection Hi as <-. split; [|exact I].
    exact (eq_sym (Z.sub_add 1 (Batch.NumberOf theBatch))).
  - rewrite firstParent1. split; [vm_compute; reflexivity|exact I].
  - rewrite firstParent1. exact s4_knows.
  - vm_compute. reflexivity.
  - exact s4_below.
  - exact Hrun.
  - exists ext, e, hdr. split; [reflexivity|]. split; [exact Hproc|].
    exists d2, tr2. split; [exact (proj1 (re_holds _ _ _ _ _ Hrep))|]. exact (Forall_inv Hall).
Defined.
