(* ===== verification/ServiceWitnesses.v ===== *)
(** * The theorems on the enclave service, applied

    A viewing key, a subscription, the requests to an enclave in sequence, a
    validator that is given a batch, and a node that restarts without its
    states. *)

From S2P Require Import Prelude Types Codec Bytes L1Chain EnclaveDB BatchDB Events Storage StorageInv StorageOps StorageSpec CrossChain BlockProcessor Reads Executor ExecutorSpec Growth Mempool Registry Params L2Chain RollupCompression RollupSpec Rollups Sequencer Validator SequencerSpec Replay ViewingKeys Subscriptions Service RPC NodeInv RPCSpec GasSpec ServiceInv ServiceSpec Recovery Concrete Scenario NodeWitnesses HistoryWitnesses.

Local Open Scope Z_scope.

(** ** Viewing keys and subscriptions *)

Lemma viewing_key_accepted_witness :
  ∃ k, GenerateViewingKeyForWallet [10] [20] = Ok k ∧
    New (vk_Account k) (vk_PublicKey k) (vk_Signature k) = Ok (mkVKHandler [20]).
Proof.
  assert (is_ok (GenerateViewingKeyForWallet [10] [20])) as Hok by (vm_compute; exact I).
  destruct (GenerateViewingKeyForWallet [10] [20]) as [k|?|?] eqn:Hk; [|destruct Hok..]. exists k. split; [reflexivity|].
  apply (viewing_key_accepted [10] [20] k Hk).
  assert (match GenerateViewingKeyForWallet [10] [20] with
          | Ok k => is_Some (RecoverAddress (GenerateSignMessageOG (vk_PublicKey k) (vk_Account k)) (vk_Signature k))
          | _ => False
          end) as Hog by (vm_compute; eexists; reflexivity).
  rewrite Hk in Hog. exact Hog.
Defined.

(** Account 10 subscribes with the key 20. *)
Definition theSubscriptions : Subscriptions :=
  (AddSubscription "id" (10 :: 20 :: match Sign [10] [20] with Ok sig => sig | _ => [] end) ∅).1.
Definition theLog : Log := mkLog 40 [900; 10] [] 0 1001 0 0 0.
Definition logReceipts : list Receipt := [mkReceipt 1 1001 (Batch.hashOf gb) 0 0 [theLog]].
Definition iterateSubs (m : Subscriptions) : list (string * LogSubscription) := map_to_list m.

Lemma theSubscriptions_ok : subs_ok theSubscriptions.
Proof. apply AddSubscription_ok. intros id sub Hsub. discriminate Hsub. Qed.

Lemma GetSubscribedLogsForBatch_correct_witness :
  ∃ s m enc sub, GetSubscribedLogsForBatch iterateSubs theSubscriptions gb logReceipts s4 = (s, Ok (Some m)) ∧
    m !! "id" = Some enc ∧ theSubscriptions !! "id" = Some sub ∧ authorised (sub_Account sub) (publicViewingKey (sub_VkHandler sub)).
Proof.
  assert (match (GetSubscribedLogsForBatch iterateSubs theSubscriptions gb logReceipts s4).2 with
          | Ok (Some m) => is_Some (m !! "id")
          | _ => False
          end) as Hrun by (vm_compute; eexists; reflexivity).
  destruct (GetSubscribedLogsForBatch iterateSubs theSubscriptions gb logReceipts s4) as [s [[m|]|?|?]] eqn:Hget; [|destruct Hrun..].
  destruct (GetSubscribedLogsForBatch_correct iterateSubs (λ m, reflexivity _) theSubscriptions gb logReceipts s4 s m
    theSubscriptions_ok Hget) as (st&_&Hm).
  destruct Hrun as [enc Henc]. pose proof (proj1 (Hm "id" enc) Henc) as (sub&logs&b&Hs&Ha&_).
  exists s, m, enc, sub. split; [reflexivity|]. split; [exact Henc|]. split; [exact Hs|exact Ha].
Defined.

(** ** Requests in sequence *)

(** The hashes of L1 blocks are negative here, those of batches positive. *)
Definition l1_hash (h : Hash) : Prop := h < 0.

Definition sequencerCfg : EnclaveConfig := mkEnclaveConfig SequencerNode cfg1 99 0 0 99 "host".
Definition sv0 : Service (gmap Hash bytes) :=
  mkService _ _ (mkEnclave _ _ emptyStorage (mkRegistry false []) ∅ None) ∅ false.
Definition sv1 : Service (gmap Hash bytes) := (SubmitL1Block 30 sequencerCfg blk1 [] sv0).1.
Definition sv2 : Service (gmap Hash bytes) := (enclave_CreateBatch 30 sequencerCfg Sender iterate 100 sv1).1.
(** A restart that loses the states. *)
Definition sv3 : Service (gmap Hash bytes) :=
  mkService _ _ (mkEnclave _ _ (restoreStateDBCache 30 sequencerCfg 5 (mkStorage _ _ (s_db (e_storage (sv_enclave sv2))) ∅ ∅)).1
                  (mkRegistry false []) ∅ None) ∅ false.

Abbreviation step := (service_step l1_hash 30 sequencerCfg Sender iterate iterateSubs).

Lemma step_sv1 : step sv0 sv1.
Proof.
  apply (step_SubmitL1Block l1_hash 30 sequencerCfg Sender iterate iterateSubs sv0 blk1 []). split.
  - reflexivity.
  - split; [by eexists|]. split; [by vm_compute|]. intros _. left. split; by vm_compute.
  - by intros h a.
  - intros br rs Hbr Hrs. vm_compute in Hbr. injection Hbr as <-. vm_compute in Hrs. injection Hrs as <-. constructor.
Qed.

Lemma sv3_run : rtc step sv0 sv3.
Proof.
  eapply rtc_l; [exact step_sv1|]. eapply rtc_l; [apply (step_CreateBatch _ _ _ _ _ _ sv1 100)|].
  apply rtc_once. apply (step_restart l1_hash 30 sequencerCfg Sender iterate iterateSubs sv2 ∅ ∅ 5). intros h. reflexivity.
Qed.

(** The genesis batch is stored, and its state was restored. *)
Lemma enclave_invariant_witness :
  service_ok l1_hash sv3 ∧ size (batches (s_db (e_storage (sv_enclave sv3)))) = 1%nat ∧
  size (s_tries (e_storage (sv_enclave sv3))) = 1%nat.
Proof.
  split; [|vm_compute; split; reflexivity].
  apply (enclave_invariant l1_hash) with (fuel := 30%nat) (cfg := sequencerCfg) (AuthSender := Sender) (iterate := iterate)
    (iterateSubs := iterateSubs) (sv := sv0).
  - intros h Hh. unfold l1_hash, BatchHeader_Hash, rlpHash_batch, concrete_hashing, numberOf in Hh. lia.
  - intros Hh. unfold l1_hash, EmptyHash in Hh. lia.
  - intros tx v Hv. cbn in Hv. destruct (0 <=? tx_nonce tx) eqn:E; [apply Z.leb_le in E; exact E|discriminate Hv].
  - split; reflexivity.
  - reflexivity.
  - exact sv3_run.
Defined.

(** ** A validator that is given a batch *)

Definition validatorCfg : EnclaveConfig := mkEnclaveConfig ValidatorNode cfg1 99 0 0 99 "host".
Definition validator4 : Service (gmap Hash bytes) := mkService _ _ (enclaveAt s4) ∅ false.
Definition theExt : ExtBatch :=
  match ToExtBatch theBatch with Ok ext => ext | _ => mkExtBatch (Batch.Header theBatch) [] [] end.

Lemma s4_following : following (s_db s7) (s_tries s7) B1 (Batch.SeqNo theBatch) (Batch.hashOf gb) validator4.
Proof.
  split; [reflexivity|change (e_storage (sv_enclave validator4)) with s4..].
  - exact s4_replica.
  - exact s4_knows.
  - intros h ab Hab Hc. revert h ab Hab Hc.
    apply (map_check (batches (s_db s4)) (λ _ ab, ab_canonical ab = true → ab_executed ab = true)). by vm_compute.
  - exact s4_fk.
  - exact s4_below.
  - assert (match batches (s_db s4) !! Batch.hashOf gb with
            | Some ab => ab_canonical ab = true ∧ ab_executed ab = true ∧ is_Some (s_tries s4 !! Root (ab_header ab))
            | None => False
            end) as Hpar by (vm_compute; split; [reflexivity|split; [reflexivity|eexists; reflexivity]]).
    destruct (batches (s_db s4) !! Batch.hashOf gb) as [pab|]; [|destruct Hpar]. destruct Hpar as (Hc&Hx&st&Hst).
    exists pab, st. split; [reflexivity|]. split; [exact Hc|]. split; [exact Hx|exact Hst].
Qed.

Lemma theBatch_published : published (C:=gmap Hash bytes) 10 (s_db s7) (s_tries s7) B1 theBatch theExt.
Proof.
  split.
  - exact theBatch_at_sequencer.
  - left. vm_compute. reflexivity.
  - destruct theBatch_storable as [_ S2 _ _ S5 S6 S7]. split; [reflexivity|exact S2|by eexists|by eexists|exact S5|exact S6|exact S7].
  - vm_compute. reflexivity.
  - vm_compute. reflexivity.
  - exact theBatch_recordable.
Qed.

Lemma validator_follows_sequencer_witness :
  ∃ sv', forM [theExt] (SubmitBatch 10 validatorCfg) validator4 = (sv', Ok tt) ∧
    follower_has (s_tries s7) (s_db (e_storage (sv_enclave sv'))) (s_tries (e_storage (sv_enclave sv'))) theBatch.
Proof.
  destruct (validator_follows_sequencer 10 validatorCfg (s_db s7) (s_tries s7) (so_db _ s7_ok) s7_parents B1
    [(theBatch, theExt)] (Batch.SeqNo theBatch) (Batch.hashOf gb) validator4 eq_refl s4_following)
    as (sv'&Hrun&_&Hall&_).
  - constructor; [exact theBatch_published|constructor].
  - split; [reflexivity|]. split; [vm_compute; reflexivity|exact I].
  - constructor; [vm_compute; reflexivity|constructor].
  - exists sv'. split; [exact Hrun|]. exact (Forall_inv Hall).
Defined.

(** ** A restart without states *)

(** The node that executed the batch. *)
Definition s8 : CStorage := (StoreExecutedBatch theBatch [] s7).1.
Definition lost : CStorage := mkStorage _ _ (s_db s8) ∅ ∅.

Lemma s8_ok : storage_ok s8.
Proof. by destruct (StoreExecutedBatch_spec s7 theBatch [] s7_ok) as (?&_). Qed.

Lemma s8_parents : parents_ok (s_db s8).
Proof.
  unfold parents_ok. apply (map_check (batches (s_db s8)) (λ _ ab, blocks (s_db s8) !! ParentHash (ab_header ab) = None)). by vm_compute.
Qed.

Lemma lost_holds : holds (s_db s8) ∅ lost.
Proof. split; [reflexivity|]. split; [reflexivity|]. intros h v Hv. discriminate Hv. Qed.

Definition head8 : ABatch := mkABatch (Batch.Header theBatch) (Batch.Transactions theBatch) true true.
Definition rerun8 : CStorage * result ComputedBatch := ComputeBatch 10 (contextOf (ab_batch head8)) s8.

Lemma s8_head : ReadCurrentHeadBatch (s_db s8) = Ok (ab_batch head8).
Proof. vm_compute. reflexivity. Qed.

Lemma head8_recomputes : recomputes (C:=gmap Hash bytes) 10 (s_db s8) (s_tries s8) (ab_batch head8).
Proof.
  assert (match rerun8.2 with
          | Ok cb => same_unsigned (cb_Batch cb) theBatch ∧ Batch.Transactions (cb_Batch cb) = Batch.Transactions theBatch ∧
              s_tries s8 !! Root (Batch.Header theBatch) = Some (cb_state cb)
          | _ => False
          end) as Hrun by (vm_compute; split; [|split]; reflexivity).
  destruct rerun8 as [s [cb|?|?]] eqn:Heq; [|destruct Hrun..].
  exists cb, s8, s. split; [exact (holds_self s8 s8_ok)|]. split; [exact Heq|exact Hrun].
Qed.

Lemma head8_rebuildable : rebuildable (C:=gmap Hash bytes) 10 validatorCfg (s_db s8) (s_tries s8) (Batch.hashOf (ab_batch head8)).
Proof.
  apply (rebuildable_batch _ _ _ _ _ head8); [vm_compute; reflexivity|exact head8_recomputes|].
  apply (rebuildable_genesis _ _ _ _ _ (mkABatch (Batch.Header gb) [] true true)); [vm_compute; reflexivity|].
  split; vm_compute; reflexivity.
Qed.

Lemma restoreStateDBCache_restores_witness :
  ∃ s tr st, restoreStateDBCache 10 validatorCfg 5 lost = (s, Ok tt) ∧ holds (s_db s8) tr s ∧
    tr !! Root (Batch.Header theBatch) = Some st ∧ s_tries s8 !! Root (Batch.Header theBatch) = Some st.
Proof.
  destruct (restoreStateDBCache_restores 10 validatorCfg (s_db s8) (s_tries s8) (so_db _ s8_ok) s8_parents 5 ∅ lost (ab_batch head8)
    lost_holds (map_empty_subseteq _) s8_head head8_rebuildable ltac:(vm_compute; reflexivity)) as (s&tr&st&Hrun&Hs&_&_&Hst&Hst').
  exists s, tr, st. split; [exact Hrun|]. split; [exact Hs|]. split; [exact Hst|exact Hst'].
Defined.

(** ** The theorems on requests of users, applied

    A call of an account, its gas estimate, a call message in two orders, and a
    malformed request. *)



Lemma s4_sound : sound s4.
Proof. split; [exact s4_ok|exact s4_parents]. Qed.

Definition theCallRun : Service (gmap Hash bytes) * result EnclaveResponse := handle validatorCfg Sender 34 RObsCall [2] validator4.


(** A call of account 10. *)
Definition theArgs : TransactionArgs := mkTransactionArgs (Some 10) None None None None None (Some 0) (Some 0) None.

Lemma DoEstimateGas_least_witness :
  ∃ s', (DoEstimateGas 34 theArgs LatestBlockNumber GlobalGasCap s4) = (s', Ok 30000) ∧
    enough theArgs LatestBlockNumber s4 30000 ∧ short theArgs LatestBlockNumber s4 29999.
Proof.
  assert ((DoEstimateGas 34 theArgs LatestBlockNumber GlobalGasCap s4).2 = Ok 30000) as Hout by (vm_compute; reflexivity).
  assert ((gasCeiling theArgs LatestBlockNumber GlobalGasCap s4).2 = Ok GlobalGasCap) as Hcap by (vm_compute; reflexivity).
  destruct (gasCeiling theArgs LatestBlockNumber GlobalGasCap s4) as [s1 r] eqn:Hrun. cbn [snd] in Hcap. rewrite Hcap in Hrun.
  destruct (DoEstimateGas_least 34 theArgs LatestBlockNumber s4 s1 GlobalGasCap s4_sound I (le_n 34) Hrun) as (_&Hest&_).
  destruct (DoEstimateGas 34 theArgs LatestBlockNumber GlobalGasCap s4) as [s' r']. cbn [snd] in Hout, Hest. rewrite Hout in Hest |- *.
  destruct Hest as (_&Hen&Hsh). exists s'. split; [reflexivity|]. split; [exact Hen|]. apply Hsh. reflexivity.
Defined.

Lemma ExtractEthCall_order_witness :
  same_result (ExtractEthCall (JObject [("From", JString "0x0a"); ("value", JString "0x5")]))
    (ExtractEthCall (JObject [("value", JString "0x5"); ("From", JString "0x0a")])).
Proof.
  apply (ExtractEthCall_order [("From", JString "0x0a"); ("value", JString "0x5")] [("value", JString "0x5"); ("From", JString "0x0a")]).
  - apply perm_swap.
  - exact (bool_decide_eq_true_1 (NoDup ["from"; "value"]) eq_refl).
Defined.

Lemma malformed_request_crashes_witness : ∃ c, handle validatorCfg Sender 34 RObsCall [4] validator4 = (validator4, Crash c).
Proof. apply (malformed_request_crashes validatorCfg Sender 34 RObsCall [4] [JNull; JNumber 5; JNull] validator4); reflexivity. Defined.
