(* ===== verification/HostWitnesses.v ===== *)
(** * The theorems on the host and the RPC boundary, applied

    Codecs of the host, an enclave behind the RPC boundary, a host database with a
    batch, a block and a rollup, and retries over a network that fails. *)

From S2P Require Import Prelude Types Codec Bytes L1Chain EnclaveDB BatchDB Events Storage CrossChain Executor Mempool Registry RollupCompression Rollups Sequencer ViewingKeys Subscriptions Service RPC HostDB HostDBSpec Retry P2P StateTracker Converters EnclaveRPC Concrete Scenario NodeWitnesses ServiceWitnesses.

Local Open Scope Z_scope.

(** ** Codecs of the host *)

#[export] Instance ExtBatch_wire : Wire ExtBatch :=
  iso_wire (λ b, (ext_header b, ext_txhashes b, EncryptedTxBlob b)) (λ '(a, b, c), mkExtBatch a b c).
#[export] Instance ExtBatch_wire_ok : WireOk ExtBatch.
Proof. by apply iso_wire_ok; intros []. Qed.

#[export] Instance host_codecs : HostCodecs := {|
  codec_l1header := tagged_codec 1;
  codec_batchheader := tagged_codec 2;
  codec_extbatch := tagged_codec 3;
  codec_hashes := tagged_codec 4;
  codec_rollupheader := tagged_codec 5
|}.
#[export] Instance host_codecs_ok : HostCodecsOk.
Proof. split; [apply tagged_codec_ok..|]. repeat split; intros a Ha; discriminate Ha. Qed.

(** Text as the codes of its characters. *)
#[export] Instance string_wire : Wire string :=
  iso_wire (λ s, Z.of_N ∘ Ascii.N_of_ascii <$> String.list_ascii_of_string s)
    (λ l, String.string_of_list_ascii (Ascii.ascii_of_N ∘ Z.to_N <$> l)).
#[export] Instance string_wire_ok : WireOk string.
Proof.
  apply iso_wire_ok. intros s. rewrite <-list_fmap_compose.
  rewrite (list_fmap_ext _ id) by (intros i c _; cbn; by rewrite N2Z.id, Ascii.ascii_N_embedding).
  by rewrite list_fmap_id, String.string_of_list_ascii_of_string.
Qed.
#[export] Instance EnclaveResponse_wire : Wire EnclaveResponse :=
  iso_wire (λ r, (EncUserResponse r, resp_Err r)) (λ '(a, b), mkEnclaveResponse a b).
#[export] Instance EnclaveResponse_wire_ok : WireOk EnclaveResponse.
Proof. by apply iso_wire_ok; intros []. Qed.

(** Receipts lose their derived fields, and a nil one does not decode. *)
#[export] Instance rpc_codecs : RPCCodecs := {|
  codec_rpcblock := wire_codec;
  codec_rpcreceipts := {| rlp_encode rs := Some (put rs);
                          rlp_decode l := match get l with
                                          | Some (rs, []) => mapM (fmap consensusReceipt) rs ≫= λ rs', Some (Some <$> rs')
                                          | _ => None
                                          end |};
  json_EnclaveResponse r := Some (put r);
  unjson_EnclaveResponse l := match get l with Some (r, []) => Some r | _ => None end;
  json_listing _ := None;
  unjson_listing _ := None;
  json_update _ := None;
  unjson_update _ := None
|}.
Lemma get_all `{WireOk A} (a : A) : get (put a) = Some (a, []).
Proof. rewrite <-(app_nil_r (put a)). apply get_put. Qed.
#[export] Instance rpc_codecs_ok : RPCCodecsOk.
Proof.
  split; [apply wire_codec_ok| |].
  - intros rs x Hx. assert (x = put rs) as -> by (by injection Hx). cbv [rlp_decode codec_rpcreceipts rpc_codecs]. by rewrite (get_all rs).
  - intros r x _ Hx. assert (x = put r) as -> by (by injection Hx). cbv [unjson_EnclaveResponse rpc_codecs]. by rewrite (get_all r).
Qed.

(** ** The database of the host *)

(** A batch whose message has a level, and one whose message has none. *)
Definition theMessage (level : Z) : CrossChainMessage := mkMessage 40 1 0 0 [6] level.
Definition theHeader (level : Z) : BatchHeader := mkBatchHeader 0 1 0 0 0 2 0 0 100 [] 0 0 0 0 [theMessage level] 0 0.
Definition theExtBatch (level : Z) : ExtBatch := mkExtBatch (theHeader level) [1001] [9].
Definition theRollup (level : Z) : ExtRollup := mkExtRollup (mkRollupHeader 50 (-1) [theMessage level] EmptyHash 3 4 2) [] [].

Lemma theHeader_fits level : header_fits (theHeader level).
Proof. split; cbn; lia. Qed.

(** The batch twice: the second time it is refused. *)
Definition theOps : list HostOp :=
  [OpBlock (b_header blk1); OpBatch (theExtBatch 0); OpBatch (theExtBatch 0); OpRollup (ext_rollup_header (theRollup 0)) (-1)].

Lemma hostdb_refines_history_witness :
  (ops_run theOps ∅).2 = [Ok tt; Ok tt; Err ErrAlreadyExists; Ok tt] ∧
  answers (ops_run theOps ∅).1 (ops_spec theOps (mkHistory [] [] [])).1.
Proof.
  assert (batch_ok (theExtBatch 0)) as Hb by (split; cbn; first [lia | eexists; reflexivity]).
  destruct (hostdb_refines_history theOps) as [Hr Ha].
  - split; [split; [split; [cbn; lia|eexists; reflexivity]|intros b' Hb'; inversion Hb']|].
    split; [exact Hb|]. split; [exact Hb|]. split; [eexists; reflexivity|exact I].
  - split; [rewrite Hr; vm_compute; reflexivity|exact Ha].
Defined.

(** ** Messages of the RPC boundary *)

Lemma ExtBatchMsg_roundtrip_witness :
  ∃ b', FromExtBatchMsg (ToExtBatchMsg (Some (theExtBatch 1))) = Some b' ∧ ExtBatch_Hash b' ≠ ExtBatch_Hash (theExtBatch 1).
Proof.
  destruct (ExtBatchMsg_roundtrip (theExtBatch 1) (theHeader_fits 1)) as (b'&Hb'&_&_&_&_&Hh). exists b'. split; [exact Hb'|].
  intros Heq. apply Hh in Heq. inversion Heq as [|? ? Hl]. discriminate Hl.
Defined.

Lemma ExtRollupMsg_hash_witness :
  ∃ r', FromExtRollupMsg (ToExtRollupMsg (Some (theRollup 1))) = Some r' ∧
    rollupR (ext_rollup_header r') = 3 ∧ ExtRollup_Hash r' ≠ ExtRollup_Hash (theRollup 1).
Proof.
  destruct (ExtRollupMsg_hash (theRollup 1)) as (r'&Hr'&HR&_&_&Hh); [split; [reflexivity|cbn; lia]|].
  exists r'. split; [exact Hr'|]. split; [exact HR|]. intros Heq. apply Hh in Heq. inversion Heq as [|? ? Hl]. discriminate Hl.
Defined.

(** ** The enclave behind the boundary *)

Definition theMachine : Machine := mkMachine 100 [7; 8] Some (Some [5]) (Ok (mkAttestation [] [5] 99 "host")) (Ok tt).
#[local] Instance the_api : EnclaveAPI (Service (gmap Hash bytes)) := service_api 30 sequencerCfg Sender iterate theMachine.


(** The first block once more: the enclave refuses it. *)
Definition refusedRun : Service (gmap Hash bytes) * result BlockSubmissionResponse := api_SubmitL1Block (Some blk1) [] true sv1.

Lemma block_rejection_lost_witness :
  (∃ err, refusedRun.2 = Err err) ∧
  client_SubmitL1Block (Some blk1) [] true (up sv1) = (up refusedRun.1, Ok (mkBlockSubmissionResponse [])).
Proof.
  assert (match refusedRun.2 with Err err => is_Some (as_BlockRejectError err) | _ => False end) as Hrej
    by (vm_compute; eexists; reflexivity).
  destruct refusedRun as [e' [?|err|?]] eqn:Hrun; [destruct Hrej| |destruct Hrej]. destruct Hrej as [[l1Head cause] Has].
  split; [exists err; reflexivity|].
  exact (block_rejection_lost blk1 [] [] (put blk1) (put (A:=list (option Receipt)) []) true sv1 e' err l1Head cause
    eq_refl eq_refl eq_refl Hrun Has).
Defined.

Lemma missing_receipt_kills_enclave_witness :
  client_SubmitL1Block (Some blk2) [None] true (up sv1) = (down sv1, Err (ErrWrap "could not submit block. Cause:" errUnavailable)).
Proof.
  apply (missing_receipt_kills_enclave blk2 [None] (put blk2) (put (A:=list (option Receipt)) [None]) true sv1).
  - reflexivity.
  - reflexivity.
  - constructor.
Defined.

(** The genesis batch, looked up. *)
Definition lookupRun : Service (gmap Hash bytes) * result ExtBatch := api_GetBatchBySeqNo L2GenesisSeqNo sv2.

Lemma batch_lookup_kills_enclave_witness :
  is_ok lookupRun.2 ∧ (client_GetBatchBySeqNo L2GenesisSeqNo (up sv2)).1 = down lookupRun.1.
Proof.
  assert (is_ok lookupRun.2) as Hok by (vm_compute; exact I). split; [exact Hok|].
  destruct lookupRun as [e' [b|?|?]] eqn:Hrun; [|destruct Hok..].
  destruct (batch_lookup_kills_enclave L2GenesisSeqNo sv2 e' b Hrun) as [Hc _]; [eexists; reflexivity|]. rewrite Hc. reflexivity.
Defined.

(** ** Retries and the state of the enclave *)

(** A peer that cannot be reached at first. *)
Definition theNet : Net := mkNet 0 [] [DialFault (ErrMsg "refused"); WriteFault 1 (ErrMsg "reset")].

Lemma retry_ends_witness :
  ∃ k strat1 s1, (k < 5)%nat ∧
    retries (sendBytes "peer" [1; 2]) (Reset 0 sendStrategy) theNet k strat1 s1 ∧
    ends (sendBytes "peer" [1; 2]) strat1 s1 (sendBytesWithRetry "peer" [1; 2] theNet).1 (sendBytesWithRetry "peer" [1; 2] theNet).2.
Proof.
  destruct (retry_ends (sendBytes "peer" [1; 2])) as (Hbackoff&_&_).
  apply (Hbackoff (100 * 10 ^ 6) 5 theNet 5%nat); [lia|]. vm_compute. lia.
Defined.

Lemma late_batch_hides_lag_witness :
  Tracker.GetStatus (Tracker.OnEnclaveStatus (mkStatus Running 7 (Some 5)) (Tracker.OnReceivedBatch 4 (Tracker.OnReceivedBatch 9
    (Tracker.OnReceivedBlock 7 Tracker.New)))) = Tracker.Live.
Proof.
  apply (Tracker.late_batch_hides_lag 9 4 (Tracker.OnReceivedBlock 7 Tracker.New) (mkStatus Running 7 (Some 5)) 5);
    [reflexivity|reflexivity|reflexivity|discriminate|discriminate|lia].
Defined.
