(* ===== verification/GuardianWitnesses.v ===== *)
(** * The theorems on the guardian and the repositories, applied

    Two hosts that exchange batches, an L1 chain with a fork, a validator that catches
    up, and a guardian whose L1 node fails. *)

From S2P Require Import Prelude Types Codec Bytes L1Chain EnclaveDB BatchDB Events Storage StorageInv StorageOps StorageSpec CrossChain Executor Mempool Registry Params L2Chain RollupCompression Rollups Sequencer ViewingKeys Subscriptions Service RPC ServiceSpec HostDB HostDBSpec Retry P2P StateTracker Converters EnclaveRPC BatchRepository L1Repository Publisher Guardian GuardianSpec Concrete Scenario NodeWitnesses HistoryWitnesses ServiceWitnesses HostWitnesses.

Local Open Scope Z_scope.

(** ** Messages of hosts *)

#[export] Instance message_wire : Wire message := iso_wire (λ m, (m_Sender m, m_Type m, m_Contents m)) (λ '(a, b, c), mkP2PMessage a b c).
#[export] Instance message_wire_ok : WireOk message.
Proof. by apply iso_wire_ok; intros []. Qed.
#[export] Instance BatchMsg_wire : Wire BatchMsg :=
  iso_wire (λ m, (bm_Batches m, if bm_IsLive m then 1 else 0)) (λ '(a, b), mkBatchMsg a (b =? 1)).
#[export] Instance BatchMsg_wire_ok : WireOk BatchMsg.
Proof. by apply iso_wire_ok; intros [? []]. Qed.
#[export] Instance BatchRequest_wire : Wire BatchRequest := iso_wire (λ m, (br_Requester m, br_FromSeqNo m)) (λ '(a, b), mkBatchRequest a b).
#[export] Instance BatchRequest_wire_ok : WireOk BatchRequest.
Proof. by apply iso_wire_ok; intros []. Qed.

#[export] Instance p2p_codecs : P2PCodecs := {|
  codec_message := wire_codec; codec_batchmsg := wire_codec; codec_batchrequest := wire_codec
|}.
#[export] Instance p2p_codecs_ok : P2PCodecsOk.
Proof. split; apply wire_codec_ok. Qed.
#[export] Instance p2p_encodes : P2PEncodes.
Proof. split; intros; by eexists. Qed.

(** ** Two hosts *)

Definition sequencerHost : P2PConfig := mkP2PConfig true "sequencer" false.
Definition validatorHost : P2PConfig := mkP2PConfig false "validator" false.
Definition emptyHistory : History := mkHistory [] [] [].
Definition sentOps : list HostOp := [OpBatch (theExtBatch 0)].
Definition sentDB : KV := (ops_run sentOps ∅).1.
Definition sentHistory : History := (ops_spec sentOps emptyHistory).1.
Definition idleP2P : P2P := set_peers ["sequencer"] (NewSocketP2PLayer (mkNet 0 [] [])).
Definition sequencerRepo : Repository := (repo_Start sequencerHost 1 (NewBatchRepository sentDB (NewSocketP2PLayer (mkNet 0 [] [])))).1.
Definition validatorRepo : Repository := (repo_Start validatorHost 2 (NewBatchRepository ∅ idleP2P)).1.

Lemma theExtBatch_ok : batch_ok (theExtBatch 0).
Proof. split; cbn; first [lia | by eexists]. Qed.
Lemma sentDB_ok : implements sentDB sentHistory.
Proof. apply (ops_refine sentOps ∅ emptyHistory implements_empty). split; [exact theExtBatch_ok|exact I]. Qed.

Lemma missing_batches_recovered_witness :
  ∃ v1 m1 s1 m2 v2, requestMissingBatchesFromPeers validatorHost 2 validatorRepo = (v1, Ok tt) ∧
    deliver sequencerHost m1 sequencerRepo = (s1, Ok tt) ∧ deliver validatorHost m2 v1 = (v2, Ok tt) ∧
    GetBatchBySequenceNumber 2 (rp_db v2) = Ok (theExtBatch 0).
Proof.
  destruct (missing_batches_recovered validatorHost sequencerHost eq_refl eq_refl eq_refl eq_refl validatorRepo sequencerRepo
    sentHistory emptyHistory 2 "sequencer" [] 1%nat 2%nat implements_empty sentDB_ok eq_refl eq_refl eq_refl eq_refl
    ltac:(vm_compute; reflexivity) ltac:(vm_compute; reflexivity) eq_refl I ltac:(lia) ltac:(lia)) as (v1&m1&s1&m2&v2&bs&H1&_&H2&_&_&H3&Hne&Hrun&_&_&Hget).
  - exists (theExtBatch 0). reflexivity.
  - intros b _ _. reflexivity.
  - exists v1, m1, s1, m2, v2. split; [exact H1|]. split; [exact H2|]. split; [exact H3|].
    destruct bs as [|b bs]; [destruct (Hne eq_refl)|]. pose proof (Hrun 0%nat b eq_refl) as Hb.
    injection Hb as <-. exact (Hget 0%nat _ eq_refl).
Defined.

(** The validator has asked, and is answered. *)
Definition askedRepo : Repository := (requestMissingBatchesFromPeers validatorHost 2 validatorRepo).1.

Lemma answer_does_not_release_witness :
  requestMissingBatchesFromPeers validatorHost 3 (HandleBatches [theExtBatch 0] false askedRepo).1 =
    ((HandleBatches [theExtBatch 0] false askedRepo).1, Ok tt).
Proof.
  apply (answer_does_not_release validatorHost ∅ idleP2P askedRepo [theExtBatch 0] false 3 0).
  - eapply rtc_l; [apply (rs_Start validatorHost 2)|]. eapply rtc_l; [apply (rs_requestMissing validatorHost 2)|]. apply rtc_refl.
  - vm_compute. reflexivity.
  - vm_compute. reflexivity.
Defined.

(** ** An L1 node *)

(** A node with a snapshot, a clock, and no logs for the blocks it does not know. *)
Record Node := mkNode { nd_snapshot : Snapshot; nd_now : Z }.
#[export] Instance node_client : EthClient Node := {|
  BlockByHash h w := (w, or_NotFound (sn_blocks (nd_snapshot w) !! h));
  BlockByNumber n w := (w, or_NotFound (sn_canon (nd_snapshot w) !! Z.to_nat n));
  eth_GetLogs h _ w := (w, match sn_blocks (nd_snapshot w) !! h with Some _ => Ok [] | None => Err ethereum_NotFound end);
  TransactionReceipt _ w := (w, Err ethereum_NotFound);
  ReconnectIfClosed w := (w, Ok tt)
|}.
#[export] Instance node_sender : L1Sender Node := {|
  IsStopping _ := false;
  PrepareTransactionToSend tx _ w := (w, Ok tx);
  SignTransaction tx := Some (mkL1Tx 0 None tx);
  SendTransaction _ w := (w, Ok tt);
  FetchHeadBlock w := (w, Err ethereum_NotFound);
  FetchLastBatchSeqNo _ w := (w, Ok 0);
  CallContract _ w := (w, Err ethereum_NotFound)
|}.
#[export] Instance node_clock : Clock Node := {| Now := nd_now; Sleep d w := mkNode (nd_snapshot w) (nd_now w + Z.max 0 d) |}.
#[export] Instance node_pack : MgmtPack := {|
  PackAddRollup _ _ _ _ _ := None;
  PackRequestSecret := Some;
  PackRespondSecret _ _ := None;
  PackInitializeSecret _ _ _ _ := None;
  PackGetHostAddresses := None;
  UnpackHostAddresses _ := None
|}.

(** A genesis block with two children, of which the second has a child: [forked] was
    abandoned. *)
Definition blockOf (h p n : Z) : L1Block := mkL1Block (mkL1Header h p n) [].
Definition forked : L1Block := blockOf 11 10 1.
Definition theChain : list L1Block := [blockOf 10 9 0; blockOf 12 10 1; blockOf 13 12 2].
Definition theSnapshot : Snapshot :=
  mkSnapshot (list_to_map ((λ b, (Block_Hash b, b)) <$> forked :: theChain)) theChain.
Definition theL1Repo : L1Repository Node := mkL1Repository ∅ (mkNode theSnapshot 0) true 13 [].

Lemma theSnapshot_blocks h b : sn_blocks theSnapshot !! h = Some b →
  Block_Hash b = h ∧ (b = forked ∨ b = blockOf 10 9 0 ∨ b = blockOf 12 10 1 ∨ b = blockOf 13 12 2).
Proof.
  intros Hb. apply elem_of_list_to_map_2, list_elem_of_fmap in Hb as (b'&[= -> ->]&Hin). split; [done|]. set_solver.
Qed.
Lemma theSnapshot_ok : snapshot_ok theSnapshot.
Proof.
  split.
  - intros h b [Hh Hin]%theSnapshot_blocks. split; [done|]. by destruct Hin as [->|[->|[->| ->]]].
  - intros h b [Hh Hin]%theSnapshot_blocks Hn.
    destruct Hin as [->|[->|[->| ->]]]; [|by destruct Hn| |]; eexists; split; reflexivity.
  - intros h b [Hh Hin]%theSnapshot_blocks Hn. destruct Hin as [->|[->|[->| ->]]]; [done|split; reflexivity|done|done].
  - intros [|[|[|i]]] b Hb; [injection Hb as <-; split; reflexivity..|discriminate Hb].
  - intros [|[|[|i]]] p b Hp Hb; [injection Hp as <-; injection Hb as <-; reflexivity..|discriminate Hb|discriminate Hp].
Qed.

Lemma forked_ancestor anc : latest_canonical theSnapshot forked anc → anc = blockOf 10 9 0.
Proof.
  intros (Hanc&Hc&_). inversion Hanc as [|? p ? Hp Hanc']; subst; [discriminate Hc|]. injection Hp as <-.
  inversion Hanc' as [|? q ? Hq]; subst; [done|discriminate Hq].
Qed.

Lemma FetchNextBlock_correct_witness : FetchNextBlock 2 11 theL1Repo = (theL1Repo, Ok (blockOf 12 10 1, false)).
Proof.
  destruct (FetchNextBlock_correct theSnapshot 2 theL1Repo forked theSnapshot_ok) as (anc&Hanc&Hnext);
    [split; reflexivity|reflexivity|discriminate|discriminate|vm_compute; lia|vm_compute; lia|].
  rewrite (forked_ancestor anc Hanc) in Hnext. exact (proj1 Hnext).
Defined.

(** ** A guardian whose node does not know a block *)

Definition noPartial (_ : bytes) : option RollupHeader := None.
Definition theHost : Identity := mkIdentity 10 false false "validator".
#[local] Instance sequencer_api : EnclaveAPI (Service (gmap Hash bytes)) := service_api 30 sequencerCfg Sender iterate theMachine.
Definition theGuardian : Guardian Node (Service (gmap Hash bytes)) :=
  NewGuardian sv1 theL1Repo validatorRepo (mkPublisher (mkNode theSnapshot 0) 0 []).

Lemma receipt_failure_blocks_guardian_witness :
  ∃ g', (g_submitL1Block noPartial theHost [] 3 blk2 true theGuardian).1 = g' ∧
    g_submitL1Block noPartial theHost [] 3 forked true g' = (g', Ok false).
Proof.
  destruct (receipt_failure_blocks_guardian noPartial theHost validatorHost [] 10 5 1 2 blk2 true theGuardian theL1Repo
    (ErrWrap "unable to fetch logs for L1 block" ethereum_NotFound)) as (g'&Hrun&Hafter); [reflexivity|vm_compute; reflexivity|].
  exists g'. split; [rewrite Hrun; reflexivity|]. exact (proj1 (Hafter g' (rtc_refl _ g')) 2%nat forked true).
Defined.

(** ** A validator that catches up *)

Definition catchOps : list HostOp := [OpBatch theExt].
Definition catchRepo : Repository := NewBatchRepository (ops_run catchOps ∅).1 idleP2P.
Definition catchHistory : History := (ops_spec catchOps emptyHistory).1.
Definition headBefore : Z := Batch.SeqNo theBatch - 1.
Definition catchTracker : Tracker.t :=
  Tracker.OnEnclaveStatus (mkStatus Running (-1) (Some headBefore))
    (Tracker.OnReceivedBatch (Batch.SeqNo theBatch) (Tracker.OnReceivedBlock (-1) Tracker.New)).
#[local] Instance validator_api : EnclaveAPI (Service (gmap Hash bytes)) := service_api 10 validatorCfg Sender iterate theMachine.
Definition catchGuardian : Guardian Node (Wired (Service (gmap Hash bytes))) :=
  mkGuardian catchTracker (up validator4) false theL1Repo catchRepo (mkPublisher (mkNode theSnapshot 0) 0 []) [] [].

Lemma theExt_ok : batch_ok theExt.
Proof.
  split; [vm_compute; split; [discriminate|reflexivity]|vm_compute; split; [discriminate|reflexivity]|vm_compute; reflexivity|..].
  - exists (2 :: put (ext_header theExt)). reflexivity.
  - exists (3 :: put theExt). reflexivity.
  - exists (4 :: put (ext_txhashes theExt)). reflexivity.
Qed.
Lemma headBefore_next : headBefore + 1 = Batch.SeqNo theBatch.
Proof. unfold headBefore. generalize (Batch.SeqNo theBatch). intros z. lia. Qed.
Lemma theExt_fits : fits_rpc theExt.
Proof.
  split; [|vm_compute; constructor].
  split; vm_compute; first [split; [discriminate|reflexivity] | split; discriminate | discriminate].
Qed.
Lemma catchGuardian_behind : behind catchGuardian catchHistory headBefore 1.
Proof.
  split.
  - vm_compute. reflexivity.
  - reflexivity.
  - change (implements (ops_run catchOps ∅).1 (ops_spec catchOps emptyHistory).1).
    exact (proj2 (ops_refine catchOps ∅ emptyHistory implements_empty (conj theExt_ok I))).
  - vm_compute. split; [reflexivity|split; [discriminate|reflexivity]].
  - vm_compute. reflexivity.
  - vm_compute. reflexivity.
  - vm_compute. reflexivity.
  - vm_compute. split; [discriminate|right; discriminate].
Qed.

Lemma validator_host_catches_up_witness :
  ∃ g' sv', catchupWithL2 theHost validatorHost 2 catchGuardian = (g', Ok (Some tt)) ∧
    Tracker.GetStatus (g_state g') = Tracker.Live ∧ g_enclave g' = up sv' ∧
    follower_has (s_tries s7) (s_db (e_storage (sv_enclave sv'))) (s_tries (e_storage (sv_enclave sv'))) theBatch.
Proof.
  destruct (validator_host_catches_up 10 validatorCfg Sender iterate theMachine (s_db s7) (s_tries s7) (so_db _ s7_ok) s7_parents B1
    theHost validatorHost catchGuardian catchHistory headBefore (Batch.hashOf gb) validator4 [(theBatch, theExt)]
    eq_refl eq_refl eq_refl catchGuardian_behind) as (g'&sv'&Hrun&Hlive&He&_&_&Hall).
  - vm_compute. reflexivity.
  - rewrite headBefore_next. exact s4_following.
  - constructor; [exact theBatch_published|constructor].
  - split; [vm_compute; reflexivity|]. split; [vm_compute; reflexivity|exact I].
  - constructor; [vm_compute; reflexivity|constructor].
  - constructor; [exact theExt_fits|constructor].
  - intros [|i] m Hm; [injection Hm as <-; vm_compute; reflexivity|discriminate Hm].
  - exists g', sv'. split; [exact Hrun|]. split; [exact Hlive|]. split; [exact He|exact (Forall_inv Hall)].
Defined.
