(* ===== verification/GatewayWitnesses.v ===== *)
(** * The theorems on the gateway, applied

    Encodings of the client, a host with a validator's enclave behind it, a user that
    joins, registers account 10 and asks for its balance, restarts, and a connection
    that fails. *)

From S2P Require Import Prelude Types Codec Bytes L1Chain EnclaveDB BatchDB Events Storage StorageInv CrossChain Executor Mempool Registry Params L2Chain RollupCompression Rollups Sequencer ViewingKeys Subscriptions Service RPC NodeInv RPCSpec HostDB Retry P2P StateTracker Converters EnclaveRPC BatchRepository L1Repository Publisher Guardian HostAPI EncClient EncClientSpec AccountManager WalletExtension GatewaySpec Concrete Scenario NodeWitnesses ServiceWitnesses HostWitnesses GuardianWitnesses.

Local Open Scope Z_scope.

(** ** Encodings *)

(** Hashes of one byte. *)
#[local] Instance gw_keccak : Keccak := {|
  keccak_hash := concrete_hash_bytes; keccak_address := concrete_address_bytes;
  Keccak256Hash b := foldr Z.add 7 b mod 256
|}.
#[local] Instance gw_key_bytes : KeyBytes.
Proof.
  split; [by intros [|x b] k [= <-]|done| |done]. intros b. cbn. constructor; [by apply Z.mod_pos_bound|].
  repeat constructor; lia.
Qed.

(** What is encrypted for the enclave begins with 1, what is encrypted for a key with 0
    and the key. *)
#[local] Instance gw_viewing : ViewingCrypto := {|
  SignText := SignText (ViewingCrypto:=concrete_viewing);
  RecoverAddress := RecoverAddress (ViewingCrypto:=concrete_viewing);
  AddressOfKey := AddressOfKey (ViewingCrypto:=concrete_viewing);
  ecies_Encrypt key b := Some (0 :: key ++ b);
  ecies_Decrypt e := match e with 1 :: b => Some b | _ => None end
|}.

(** Requests with a viewing key and texts are encoded; addresses are 20 bytes, or a
    number. *)
Definition encodeArgs (l : list JSON) : option bytes :=
  match l with
  | JArray [JString key; JString sig] :: texts =>
      texts' ← mapM (λ j, match j with JString s => Some s | _ => None end) texts; Some (put (key, sig, texts'))
  | _ => None
  end.
Definition decodeArgs (b : bytes) : option (list JSON) :=
  match get b with
  | Some ((key, sig, texts), []) => Some (JArray [JString key; JString sig] :: (JString <$> texts))
  | _ => None
  end.
Definition readAddress (s : string) : Address :=
  match hex_DecodeString (withoutPrefix s) with
  | Some (a :: rest) => if (length rest =? 19)%nat then a else default 0 (hexNumber s)
  | _ => default 0 (hexNumber s)
  end.
#[local] Instance gw_encoding : GethEncoding := {|
  HexToAddress := readAddress;
  HexToHash := HexToHash (GethEncoding:=concrete_encoding);
  hexutil_Decode s := hex_DecodeString (dropString 2 s);
  hexutil_DecodeBig := hexNumber;
  hexutil_DecodeUint64 := hexNumber;
  UnmarshalBlockNumber := UnmarshalBlockNumber (GethEncoding:=concrete_encoding);
  json_params := decodeArgs;
  json_filter _ := None;
  json_query _ := None;
  Hex2Bytes s := default [] (hex_DecodeString s);
  UnmarshalBinary b := match b with h :: nonce :: body => Some (mkL2Tx h nonce body) | _ => None end
|}.
#[local] Instance gw_codecs : ClientCodecs := {|
  enclave_Encrypt p := Some (1 :: p);
  PublicKeyOf k := (λ x, x mod 256) <$> k;
  vk_Decrypt k e := match e with 0 :: b => Some (drop (length k) b) | _ => None end;
  json_args := encodeArgs;
  unjson_UserResponse b := match b with
                           | [1; n] => Some (Some (JNumber n), None)
                           | [2] => Some (Some JNull, None)
                           | 3 :: _ => Some (None, Some "error"%string)
                           | _ => None
                           end;
  unjson_EVM _ := None;
  unjson_logs _ := None;
  unjson_any _ := None
|}.
#[local] Instance gw_user_json : UserJSON := {|
  json_data x := match x with UBalance n | UGas n => JNumber n | _ => JNull end
|}.
#[local] Instance gw_address_text : AddressText := {| Address_Hex := addressText |}.
#[local] Instance gw_signature_check : SignatureCheck := {| WalletExtension.ecdsa_Verify message sig := bool_decide (is_Some (RecoverAddress message sig)) |}.

Lemma encodeArgs_decode l b : encodeArgs l = Some b → decodeArgs b = Some l.
Proof.
  unfold encodeArgs, decodeArgs. destruct l as [|[| | | |[|[| | |key| |] [|[| | |sig| |] [|]]]|] texts]; try done.
  destruct (mapM _ texts) as [texts'|] eqn:Ht; [|done]. intros Hb.
  assert (b = put (key, sig, texts')) as -> by (by injection Hb). rewrite (get_all (key, sig, texts')). do 2 f_equal.
  apply mapM_Some_1 in Ht. clear Hb. induction Ht as [|j s js ss Hj _ IH]; [done|]. cbn. rewrite IH. destruct j; by simplify_eq.
Qed.

#[local] Instance gw_codecs_ok : ClientCodecsOk.
Proof.
  split.
  - by intros p e [= <-].
  - done.
  - intros k b e [= <-]. split; [|done]. cbn. rewrite drop_app_length'; [done|]. by rewrite length_fmap.
  - intros l b Hb. exists l. split; [by apply encodeArgs_decode|]. apply Forall_Forall2_diag, Forall_forall. intros j _. split; [done|]. intros fs -> _ _. by exists fs.
  - intros [] b [= <-]; done.
  - intros t b [= <-]. split; [done|]. by eexists.
  - intros b Hb. cbn. unfold hexutil_Hex. rewrite dropString_two. by apply hex_roundtrip.
  - intros k. cbn. apply Forall_fmap, Forall_forall. intros x _. cbn. by apply Z.mod_pos_bound.
Qed.
#[local] Instance gw_encodes : Encodes.
Proof.
  split; intros; try by eexists. exists (put (key, sig, texts)). cbn.
  replace (mapM _ (JString <$> texts)) with (Some texts); [done|]. symmetry. by apply mapM_fmap_Some.
Qed.
#[local] Instance gw_answers : AnswersKept.
Proof.
  intros r x r' Hx. assert (x = put r) as -> by (by injection Hx). cbv [unjson_EnclaveResponse rpc_codecs]. rewrite (get_all r).
  by intros [= <-].
Qed.

(** ** A gateway, a host and the enclave of a validator *)

Abbreviation CHost := (Host Node (Wired (Service (gmap Hash bytes)))).
Definition validator8 : Service (gmap Hash bytes) := mkService _ _ (enclaveAt s8) ∅ false.
Definition gwHost : CHost :=
  mkHost (mkGuardian Tracker.New (up validator8) false theL1Repo validatorRepo (mkPublisher (mkNode theSnapshot 0) 0 []) [] []) ∅ [].
Definition gwConfig : HostConfig := mkHostConfig 1 2 3 4 5.
Definition decodeNone (method : string) (args : list JSON) : option PlainRequest := None.
Definition printNone (r : PlainResult) : option JSON := None.
Definition sameID (h : CHost) : string := "0x01".
Definition noCode (err : GoError) : option (Z * option JSON) := None.
#[local] Instance gw_node : Client CHost :=
  host_client 34 validatorCfg Sender iterate theMachine theHost validatorHost gwConfig decodeNone printNone sameID.

Definition gw0 : Gateway CHost := (NewWalletExtension id id (mkGatewayDB ∅ [] []) gwHost).1.

(** The key of the user, and the signature of account 10 under it. *)
Definition userPriv : bytes := [20].
Definition registerText : string := GenerateSignMessageOG (PrivateKeyToCompressedPubKey userPriv) 10.
Definition registerSig : bytes := default [] (SignText [10] registerText).
Definition balanceRequest : RPCRequest := mkRPCRequest (JNumber 1) rpc_GetBalance [JString "0x0a"; JString "latest"].

Lemma balance_through_gateway_witness : ∃ g1 g2 g3,
  joinRequestHandler true (Ok userPriv) gw0 = (g1, Ok [ReplyText (userOf userPriv)]) ∧
  authenticateRequestHandler true (authenticateBody registerText registerSig) (query_u (userOf userPriv)) g1 = (g2, Ok [ReplyText "success"]) ∧
  ethRequestHandler map_to_list noCode (Ok balanceRequest) false (query_u (userOf userPriv)) g2 =
    (g3, Ok [ReplyJSON (rpcResponse (JNumber 1) (JNumber 2))]).
Proof.
  assert ((chain_GetBalance 10 LatestBlockNumber s8).2 = Ok (10, 2)) as Hbal by (vm_compute; reflexivity).
  destruct (chain_GetBalance 10 LatestBlockNumber s8) as [s' r] eqn:Hrun. cbn [snd] in Hbal. subst r.
  pose proof (balance_through_gateway 34 validatorCfg Sender iterate theMachine theHost validatorHost gwConfig decodeNone printNone sameID
    map_to_list (λ m, reflexivity _) true noCode gw0 validator8 userPriv 10 registerSig balanceRequest "0x0a" "latest" LatestBlockNumber 2 s') as Hall.
  cbv zeta in Hall.
  change (∃ g1 g2 g3, joinRequestHandler true (Ok userPriv) gw0 = (g1, Ok [ReplyText (userOf userPriv)]) ∧
    authenticateRequestHandler true (authenticateBody (GenerateSignMessageOG (PrivateKeyToCompressedPubKey userPriv) 10) registerSig)
      (query_u (userOf userPriv)) g1 = (g2, Ok [ReplyText "success"]) ∧
    ethRequestHandler map_to_list noCode (Ok balanceRequest) false (query_u (userOf userPriv)) g2 =
      (g3, Ok [ReplyJSON (rpcResponse (rq_ID balanceRequest) (adjustStateRoot (json_data (UBalance 2))))])).
  apply Hall; clear Hall; [reflexivity|vm_compute; reflexivity|reflexivity|reflexivity| |vm_compute; reflexivity..| |reflexivity|reflexivity|
    reflexivity|reflexivity|reflexivity|reflexivity|vm_compute; reflexivity|reflexivity|reflexivity|exact Hrun].
  - apply (bool_decide_unpack _). vm_compute. exact I.
  - vm_compute. by eexists.
Defined.

(** A transaction of account 10, and the guardian of the sequencer. *)
Definition sendRequest : RPCRequest := mkRPCRequest (JNumber 2) rpc_SendRawTransaction [JString "0xc8000a"].
Definition sentTx : L2Tx := mkL2Tx 200 0 [10].
Definition seqGuardian : Guardian Node (Wired (Service (gmap Hash bytes))) :=
  mkGuardian Tracker.New (up sv1) false theL1Repo (rp_set_p2p (SubscribeForTx 3 (rp_p2p sequencerRepo)).1 sequencerRepo)
    (mkPublisher (mkNode theSnapshot 0) 0 []) [] [].
#[local] Instance gw_sequencer : EnclaveAPI (Service (gmap Hash bytes)) := service_api 34 sequencerCfg Sender iterate theMachine.

Lemma transaction_reaches_sequencer_witness : ∃ g2 g3 m params gs' svs',
  ethRequestHandler map_to_list noCode (Ok sendRequest) false (query_u (userOf userPriv)) g2 = (g3, Ok [ReplyJSON (rpcResponse (JNumber 2) JNull)]) ∧
  sent (g_l2repo (ho_guardian (gw_host g3))) = [("sequencer"%string, m)] ∧
  CallHandleTransaction 3 params ∈ started (P2P.handle sequencerHost m (rp_p2p (g_l2repo seqGuardian))) ∧
  HandleTransaction params seqGuardian = (gs', Ok tt) ∧ g_enclave gs' = up svs' ∧ e_mempool (sv_enclave svs') !! 200 = Some sentTx.
Proof.
  destruct (transaction_reaches_sequencer 34 validatorCfg Sender iterate theMachine theHost validatorHost gwConfig decodeNone printNone sameID
    map_to_list (λ m, reflexivity _) true noCode sequencerCfg sequencerHost gw0 validator8 userPriv 10 registerSig sendRequest "0xc8000a" sentTx
    "sequencer" [] seqGuardian sv1 3)
    as (g1&g2&g3&m&params&gs'&svs'&_&_&Hasked&Hsent&Hstarted&Hheard&Hup&Hpool);
    [reflexivity|vm_compute; reflexivity|reflexivity|reflexivity| |vm_compute; reflexivity..| |reflexivity|reflexivity|reflexivity|reflexivity|
     reflexivity|reflexivity|vm_compute; reflexivity|vm_compute; reflexivity|reflexivity|vm_compute; reflexivity|reflexivity|reflexivity|
     vm_compute; reflexivity|reflexivity|reflexivity|reflexivity|vm_compute; reflexivity|vm_compute; reflexivity| |vm_compute; reflexivity|
     vm_compute; reflexivity|vm_compute; reflexivity|].
  - apply (bool_decide_unpack _). vm_compute. exact I.
  - vm_compute. by eexists.
  - vm_compute. by eexists.
  - exists g2, g3, m, params, gs', svs'. split; [exact Hasked|]. split; [exact Hsent|]. split; [|split; [exact Hheard|split; [exact Hup|]]].
    + rewrite Hstarted. apply elem_of_app. right. apply list_elem_of_singleton. reflexivity.
    + rewrite Hpool. exact (lookup_insert_eq _ _ _).
Defined.

(** The user with its account, and what it is shown. *)
Definition gw1 : Gateway CHost := (GenerateAndStoreNewUser true (Ok userPriv) gw0).1.
Definition gw2 : Gateway CHost := (AddAddressToUser true (userOf userPriv) registerText (add_V 27 registerSig) gw1).1.

Lemma gwHost_serves : serves (s_db s8) (s_tries s8) gwHost.
Proof. exists ∅. split; [split; [split; [exact s8_ok|exact s8_parents]|split; reflexivity]|reflexivity]. Qed.

Lemma gw2_reachable : gateway_reachable map_to_list true id id noCode (serves (s_db s8) (s_tries s8)) gw2.
Proof.
  exists [], gwHost. split; [exact gwHost_serves|]. eapply rtc_l; [apply (step_join _ _ _ _ _ _ _ (Ok userPriv))|].
  eapply rtc_l; [apply (step_authenticate _ _ _ _ _ _ _ (userOf userPriv) registerText (add_V 27 registerSig))|]. apply rtc_refl.
Qed.


(** ** Restarts *)

Lemma gw_dial (w : CHost) : ∃ w', Dial w = (w', Ok tt).
Proof. by exists w. Qed.

(** The user has its account after a restart. *)
Lemma accounts_survive_restart_witness :
  dom <$> gw_managers (NewWalletExtension id id (gw_storage gw2) (gw_host gw2)).1 !! userOf userPriv = Some ({[10]} : gset Address).
Proof.
  destruct (accounts_survive_restart map_to_list id (λ l, reflexivity _) id (λ l, reflexivity _) noCode gw_dial gwHost gw2) with (u := userOf userPriv)
    as [Hdom _]; [|vm_compute; discriminate|].
  - eapply rtc_l; [apply (orderly_join _ _ _ _ _ userPriv); [reflexivity|vm_compute; reflexivity]|].
    eapply rtc_l; [|apply rtc_refl].
    apply (orderly_authenticate _ _ _ _ _ (CalculateUserID (PrivateKeyToCompressedPubKey userPriv)) registerText (add_V 27 registerSig)).
    apply keccak_bytes.
  - rewrite Hdom. vm_compute. reflexivity.
Defined.

(** The default user signs a key for account 10, then one for account 11. *)
Definition signedBy (a : Address) (k : bytes) (g : Gateway CHost) : Gateway CHost := (GenerateViewingKey a (Ok k) g).1.
Definition gwFirst : Gateway CHost := (SubmitViewingKey true 10 registerSig (signedBy 10 [20] gw0)).1.
Definition gwSecond : Gateway CHost := signedBy 11 [21] gwFirst.

Lemma gwSecond_tables : tables_ok (gw_storage gwSecond).
Proof.
  split.
  - vm_compute. reflexivity.
  - intros userID k Hk. change (gs_users (gw_storage gwSecond)) with ({[DefaultUser := [20]]} : gmap bytes bytes) in Hk.
    apply lookup_singleton_Some in Hk as [<- <-]. split; [apply DefaultUser_bytes|done].
  - intros r Hr. change (gs_accounts (gw_storage gwSecond)) with [mkAccountRow DefaultUser (Address_Bytes 10) (add_V (-27) registerSig)] in Hr.
    apply list_elem_of_singleton in Hr as ->. by exists [20].
Qed.

Lemma default_user_forgets_witness : ∃ g' g'' m' m'', SubmitViewingKey true 11 registerSig gwSecond = (g', Ok tt) ∧
  gw_managers g' !! hexDefaultUser = Some m' ∧ dom m' = ({[10; 11]} : gset Address) ∧
  NewWalletExtension id id (gw_storage g') gwHost = (g'', Ok tt) ∧ gw_managers g'' !! hexDefaultUser = Some m'' ∧ dom m'' = ({[11]} : gset Address).
Proof.
  assert ((SubmitViewingKey true 11 registerSig gwSecond).2 = Ok tt) as Hout by (vm_compute; reflexivity).
  destruct (SubmitViewingKey true 11 registerSig gwSecond) as [g' r] eqn:Hrun. cbn [snd] in Hout. subst r.
  destruct (default_user_forgets id (λ l, reflexivity _) id (λ l, reflexivity _) gw_dial 11 registerSig (mkEncRPCClient (mkViewingKey 11 [21] []) [21]) gwSecond g' gwHost
    gwSecond_tables ltac:(vm_compute; reflexivity) eq_refl Hrun) as (m&m'&g''&m''&Hm&Hm'&Hdom&Hre&Hm''&Hdom'').
  exists g', g'', m', m''. split; [reflexivity|]. split; [exact Hm'|]. split; [|split; [exact Hre|split; [exact Hm''|exact Hdom'']]].
  assert (dom m = ({[10]} : gset Address)) as Hd; [|rewrite Hdom, Hd; set_solver].
  apply (f_equal (fmap dom)) in Hm. change (Some ({[10]} : gset Address) = Some (dom m)) in Hm. by injection Hm as <-.
Defined.

(** ** A connection that fails *)

#[local] Instance down_client : Client unit := {|
  Dial := fail (ErrMsg "connection refused");
  obscuro_Call _ _ := fail (ErrMsg "connection refused");
  plain_Call _ _ := fail (ErrMsg "connection refused");
  obscuro_Subscribe _ _ := fail (ErrMsg "connection refused")
|}.
Definition gwDown : Gateway unit := (NewWalletExtension id id (mkGatewayDB ∅ [] []) tt).1.

Lemma failed_connection_panics_witness : ∃ g1 g2 c,
  authenticateRequestHandler true (authenticateBody registerText registerSig) (query_u (userOf userPriv)) g1 = (g2, Ok [ReplyText "success"]) ∧
  (ethRequestHandler map_to_list noCode (Ok balanceRequest) false (query_u (userOf userPriv)) g2).2 = Crash c.
Proof.
  destruct (failed_connection_panics map_to_list (λ m, reflexivity _) true noCode gwDown userPriv 10 registerSig tt (ErrMsg "connection refused") balanceRequest)
    as (g1&g2&_&Hauth&c&Hc); [reflexivity|vm_compute; reflexivity|reflexivity|reflexivity| |vm_compute; reflexivity..|reflexivity|discriminate|discriminate|].
  - apply (bool_decide_unpack _). vm_compute. exact I.
  - exists g1, g2, c. split; [exact Hauth|exact Hc].
Defined.
