(* ===== verification/Solidity.v ===== *)
(** * Contracts: what the language and the libraries give

    The contracts of [src/contracts/src] are compiled by Solidity 0.8.9.  A call
    that reverts leaves no trace, so a function of a contract is a function of
    its state into an [outcome].  Arithmetic is checked.  The contracts inherit
    [Ownable], [AccessControl] and [ERC20] of OpenZeppelin; these are classes,
    with the documented behaviour as laws. *)

From S2P Require Import Prelude Types Codec.
Local Open Scope Z_scope.

(** ** Outcomes *)

Inductive outcome (A : Type) :=
  | Done (a : A)
  | Revert (reason : string).
Arguments Done {A} a.
Arguments Revert {A} reason.

#[export] Instance outcome_ret : MRet outcome := λ A a, Done a.
#[export] Instance outcome_bind : MBind outcome := λ A B f r,
  match r with Done a => f a | Revert reason => Revert reason end.

(** [require(b, reason)] *)
Definition require (b : bool) (reason : string) : outcome unit :=
  if b then Done tt else Revert reason.

Definition orRevert {A} (reason : string) (o : option A) : outcome A :=
  match o with Some a => Done a | None => Revert reason end.

(** Addition of unsigned integers of the given width: an overflow is a panic. *)
Definition checkedAdd (bits x y : Z) : outcome Z :=
  if x + y <? 2 ^ bits then Done (x + y) else Revert "panic: overflow".

Definition is_u256 (x : Z) : Prop := 0 <= x < 2 ^ 256.

(** The value of a mapping at a key that was never written. *)
Definition at0 {K} `{Countable K} (m : gmap K Z) (k : K) : Z := default 0 (m !! k).

Lemma bind_Done {A B} (m : outcome A) (f : A → outcome B) b :
  m ≫= f = Done b ↔ ∃ a, m = Done a ∧ f a = Done b.
Proof. destruct m; cbn; split; [eauto|by intros (?&[= <-]&?)|done|by intros (?&?&?)]. Qed.

Lemma require_Done b reason u : require b reason = Done u ↔ b = true.
Proof. unfold require. destruct u. by destruct b. Qed.

Lemma orRevert_Done {A} reason (o : option A) a : orRevert reason o = Done a ↔ o = Some a.
Proof. destruct o; cbn; split; by intros [= ->]. Qed.

Lemma checkedAdd_Done bits x y z : checkedAdd bits x y = Done z ↔ z = x + y ∧ x + y < 2 ^ bits.
Proof.
  unfold checkedAdd. destruct (Z.ltb_spec (x + y) (2 ^ bits)); split;
    by (intros [= <-] || intros [-> ?] || intros [= ] || idtac); try lia.
Qed.

(** Read a successful run backwards: one equation for each call, one fact for each
    guard. *)
Ltac done_inv H :=
  repeat (cbn beta iota in H; let y := fresh "r" in let Hy := fresh "E" in
    match type of H with
    | (_ ≫= _) = Done _ => apply bind_Done in H; destruct H as (y & Hy & H)
    | mbind _ _ = Done _ => apply bind_Done in H; destruct H as (y & Hy & H)
    end; first [apply require_Done in Hy | apply orRevert_Done in Hy
               | apply checkedAdd_Done in Hy as [-> Hy] | idtac]).

(** ** [Ownable] *)

Inductive OwnableCall :=
  | TransferOwnership (newOwner : Address)
  | RenounceOwnership.

(** The constructor, for the account that deploys, and the external functions. *)
Class Ownable (O : Type) := {
  newOwnable : Address → O;
  owner : O → Address;
  ownableCall : O → Address → OwnableCall → option O
}.

Class OwnableOk (O : Type) `{Ownable O} := {
  owner_new : ∀ a, owner (newOwnable a) = a;
  ownable_only_owner : ∀ o s c o', ownableCall o s c = Some o' → s = owner o
}.

(** ** [AccessControl] *)

(** The roles of the contracts; their identifiers are hashes of distinct names. *)
Inductive Role := DEFAULT_ADMIN_ROLE | ADMIN_ROLE | NATIVE_TOKEN_ROLE | ERC20_TOKEN_ROLE.

#[export] Instance Role_eq_dec : EqDecision Role.
Proof. solve_decision. Defined.

Inductive AccessCall :=
  | GrantRole (role : Role) (account : Address)
  | RevokeRole (role : Role) (account : Address)
  | RenounceRole (role : Role) (account : Address).

(** The state without roles, the internal functions and the external ones. *)
Class AccessControl (R : Type) := {
  noRoles : R;
  hasRole : R → Role → Address → bool;
  _grantRole : R → Role → Address → R;
  _revokeRole : R → Role → Address → R;
  accessCall : R → Address → AccessCall → option R
}.

(** Every role is administered by [DEFAULT_ADMIN_ROLE], which the contracts give to
    nobody; then the external functions can only give a role up. *)
Class AccessControlOk (R : Type) `{AccessControl R} := {
  hasRole_none : ∀ role a, hasRole noRoles role a = false;
  hasRole_grant : ∀ r role a role' a',
    hasRole (_grantRole r role a) role' a' =
      bool_decide (role = role' ∧ a = a') || hasRole r role' a';
  hasRole_revoke : ∀ r role a role' a',
    hasRole (_revokeRole r role a) role' a' =
      negb (bool_decide (role = role' ∧ a = a')) && hasRole r role' a';
  access_only_less : ∀ r s c r',
    (∀ a, hasRole r DEFAULT_ADMIN_ROLE a = false) → accessCall r s c = Some r' →
    ∀ role a, hasRole r' role a = true → hasRole r role a = true;
  access_others : ∀ r s c r',
    (∀ a, hasRole r DEFAULT_ADMIN_ROLE a = false) → accessCall r s c = Some r' →
    ∀ role a, a ≠ s → hasRole r' role a = hasRole r role a
}.

(** ** [ERC20] *)

Inductive ERC20Call :=
  | Transfer (to : Address) (amount : Z)
  | TransferFrom (from to : Address) (amount : Z)
  | Approve (spender : Address) (amount : Z).

(** The state of a token, its internal functions and the external functions that
    change it.  [IncreaseAllowance] and [DecreaseAllowance] are uses of [Approve]. *)
Class ERC20 (T : Type) := {
  newERC20 : T;
  balance : T → Address → Z;
  allowed : T → Address → Address → Z;
  totalSupply : T → Z;
  _mint : T → Address → Z → option T;
  _burn : T → Address → Z → option T;
  erc20Call : T → Address → ERC20Call → option T
}.

(** One unit for the account that is meant. *)
Definition only (a x : Address) (n : Z) : Z := if bool_decide (a = x) then n else 0.

Class ERC20Ok (T : Type) `{ERC20 T} := {
  new_supply : totalSupply newERC20 = 0;
  totalSupply_nonneg : ∀ t, 0 <= totalSupply t;
  mint_supply : ∀ t a n t', _mint t a n = Some t' → totalSupply t' = totalSupply t + n;
  mint_balance : ∀ t a n t', _mint t a n = Some t' →
    ∀ x, balance t' x = balance t x + only a x n;
  burn_supply : ∀ t a n t', _burn t a n = Some t' → totalSupply t' = totalSupply t - n;
  burn_balance : ∀ t a n t', _burn t a n = Some t' →
    n <= balance t a ∧ ∀ x, balance t' x = balance t x - only a x n;
  call_supply : ∀ t s c t', erc20Call t s c = Some t' → totalSupply t' = totalSupply t;
  transfer_balance : ∀ t s to n t', erc20Call t s (Transfer to n) = Some t' →
    ∀ x, balance t' x = balance t x - only s x n + only to x n;
  transfer_allowed : ∀ t s to n t', erc20Call t s (Transfer to n) = Some t' →
    ∀ x y, allowed t' x y = allowed t x y;
  transfer_succeeds : ∀ t s to n, 0 <= n <= balance t s → s ≠ 0 → to ≠ 0 →
    is_Some (erc20Call t s (Transfer to n));
  transferFrom_balance : ∀ t s from to n t', erc20Call t s (TransferFrom from to n) = Some t' →
    ∀ x, balance t' x = balance t x - only from x n + only to x n;
  transferFrom_allowed : ∀ t s from to n t', erc20Call t s (TransferFrom from to n) = Some t' →
    n <= allowed t from s ∧ ∀ x y, allowed t' x y <= allowed t x y;
  approve_balance : ∀ t s y n t', erc20Call t s (Approve y n) = Some t' →
    ∀ x, balance t' x = balance t x;
  approve_allowed : ∀ t s y n t', erc20Call t s (Approve y n) = Some t' →
    ∀ x z, x ≠ s → allowed t' x z = allowed t x z
}.

Definition erc20_amount (c : ERC20Call) : Z :=
  match c with Transfer _ n | TransferFrom _ _ n | Approve _ n => n end.

(** An account that has allowed nobody to spend keeps what it has, whoever else
    calls the token. *)
Definition unspendable `{ERC20 T} (t : T) (a : Address) : Prop := ∀ y, allowed t a y <= 0.

Lemma erc20Call_keeps `{ERC20Ok T} t s c t' a :
  erc20Call t s c = Some t' → s ≠ a → 0 <= erc20_amount c → unspendable t a →
  unspendable t' a ∧ balance t a <= balance t' a.
Proof.
  intros Hc Hs Hn Ha. destruct c as [to n|from to n|y n]; cbn in Hn.
  - split; [intros z; by rewrite (transfer_allowed _ _ _ _ _ Hc)|].
    rewrite (transfer_balance _ _ _ _ _ Hc). unfold only. rewrite (bool_decide_false (s = a)) by done.
    case_bool_decide; lia.
  - destruct (transferFrom_allowed _ _ _ _ _ _ Hc) as [Hle Hall].
    split; [intros z; specialize (Hall a z); specialize (Ha z); lia|].
    rewrite (transferFrom_balance _ _ _ _ _ _ Hc). unfold only.
    destruct (decide (from = a)) as [->|]; [specialize (Ha s)|]; repeat case_bool_decide; (done || lia).
  - split; [intros z; rewrite (approve_allowed _ _ _ _ _ Hc) by done; apply Ha|].
    by rewrite (approve_balance _ _ _ _ _ Hc).
Qed.
