(* ===== verification/MessageBusContract.v ===== *)
(** * The message bus contract

    [messaging/MessageBus.sol] with [messaging/Structs.sol] and the events of
    [messaging/IMessageBus.sol]: a contract on each chain, to which accounts publish
    messages for the other chain and on which the owner stores the messages that
    come from there. *)

From S2P Require Import Prelude Types Codec Solidity.
Local Open Scope Z_scope.

(** [keccak256(abi.encode(crossChainMessage))] *)
Class MessageHash := messageHash : CrossChainMessage → Hash.
Class MessageHashOk `{MessageHash} := messageHash_inj : Inj (=) (=) messageHash.
#[export] Existing Instance messageHash_inj.

(** A message that was stored: who called, and who was the owner then. *)
Record StoreEntry := mkStoreEntry {
  se_caller : Address;
  se_owner : Address;
  se_message : CrossChainMessage
}.

(** The storage of the contract, and the log of its events.  The last field is a history
    variable that the contract does not have, of the calls of [storeCrossChainMessage]
    that were not reverted: it is written and never read. *)
Record MessageBusState (Ow : Type) := mkBus {
  messageFinalityTimestamps : gmap Hash Z;
  messages : gmap (Address * Z) (list CrossChainMessage);
  addressSequences : gmap Address Z;
  busOwner : Ow;
  busLog : list CrossChainMessage;
  storeHistory : list StoreEntry
}.
Arguments mkBus {_} _ _ _ _ _ _.
Arguments messageFinalityTimestamps {_} _.
Arguments messages {_} _.
Arguments addressSequences {_} _.
Arguments busOwner {_} _.
Arguments busLog {_} _.
Arguments storeHistory {_} _.

Section bus.
Context `{MessageHash, Ownable Ow}.
Implicit Types (b : MessageBusState Ow) (m : CrossChainMessage) (sender : Address).

(** The constructor, called by [deployer]. *)
Definition newMessageBus (deployer : Address) : MessageBusState Ow :=
  mkBus ∅ ∅ ∅ (newOwnable deployer) [] [].

Definition incrementSequence sender b : outcome (MessageBusState Ow * Z) :=
  let sequence := at0 (addressSequences b) sender in
  next ← checkedAdd 64 sequence 1;
  Done (mkBus (messageFinalityTimestamps b) (messages b) (<[sender := next]> (addressSequences b))
          (busOwner b) (busLog b) (storeHistory b), sequence).

(** The event has the fields of a message. *)
Definition publishMessage sender (nonce topic : Z) (payload : bytes) (consistencyLevel : Z) b
    : outcome (MessageBusState Ow * Z) :=
  '(b, sequence) ← incrementSequence sender b;
  Done (mkBus (messageFinalityTimestamps b) (messages b) (addressSequences b) (busOwner b)
          (busLog b ++ [mkMessage sender sequence nonce topic payload consistencyLevel]) (storeHistory b), sequence).

Definition verifyMessageFinalized (now : Z) m b : bool :=
  let timestamp := at0 (messageFinalityTimestamps b) (messageHash m) in
  (0 <? timestamp) && (timestamp <=? now).

Definition getMessageTimeOfFinality m b : outcome Z :=
  let timeOfFinality := at0 (messageFinalityTimestamps b) (messageHash m) in
  _ ← require (0 <? timeOfFinality) "This message was never submitted.";
  Done timeOfFinality.

Definition storeCrossChainMessage (now : Z) sender m (finalAfterTimestamp : Z) b
    : outcome (MessageBusState Ow) :=
  _ ← require (bool_decide (sender = owner (busOwner b))) "Ownable: caller is not the owner";
  finalAtTimestamp ← checkedAdd 256 now finalAfterTimestamp;
  let msgHash := messageHash m in
  _ ← require (at0 (messageFinalityTimestamps b) msgHash =? 0) "Message submitted more than once!";
  let key := (msg_sender m, msg_topic m) in
  Done (mkBus (<[msgHash := finalAtTimestamp]> (messageFinalityTimestamps b))
          (<[key := default [] (messages b !! key) ++ [m]]> (messages b))
          (addressSequences b) (busOwner b) (busLog b)
          (storeHistory b ++ [mkStoreEntry sender (owner (busOwner b)) m])).

Definition bus_ownable sender (c : OwnableCall) b : outcome (MessageBusState Ow) :=
  o ← orRevert "Ownable: caller is not the owner" (ownableCall (busOwner b) sender c);
  Done (mkBus (messageFinalityTimestamps b) (messages b) (addressSequences b) o (busLog b) (storeHistory b)).

(** *** What is stored *)

(** Every message stored so far, in the order of the mapping. *)
Definition stored b : list CrossChainMessage := concat (map_to_list (messages b)).*2.

Lemma stored_insert (ms : gmap (Address * Z) (list CrossChainMessage)) key m :
  concat (map_to_list (<[key := default [] (ms !! key) ++ [m]]> ms)).*2
    ≡ₚ m :: concat (map_to_list ms).*2.
Proof.
  destruct (ms !! key) as [l|] eqn:Hl; cbn [default from_option].
  - rewrite <-(insert_delete_id ms key l Hl) at 2. rewrite <-insert_delete_eq.
    rewrite !map_to_list_insert by apply lookup_delete_eq. cbn.
    rewrite <-app_assoc. cbn. by rewrite <-Permutation_middle.
  - rewrite map_to_list_insert by done. by cbn.
Qed.

(** The invariant: a message is stored at most once, by the owner, and exactly if it has
    a time of finality; the published messages of an account are numbered from zero
    without gaps. *)
Definition sequences_of sender (log : list CrossChainMessage) : list Z :=
  msg_sequence <$> filter (λ m, msg_sender m = sender) log.

Record bus_ok b : Prop := {
  ok_stored : ∀ m, m ∈ stored b → 0 < at0 (messageFinalityTimestamps b) (messageHash m);
  ok_final : ∀ h, at0 (messageFinalityTimestamps b) h ≠ 0 → ∃ m, m ∈ stored b ∧ messageHash m = h;
  ok_nodup : NoDup (stored b);
  ok_history : ∀ m, m ∈ stored b → ∃ e, e ∈ storeHistory b ∧ se_message e = m;
  ok_owner : ∀ e, e ∈ storeHistory b → se_caller e = se_owner e;
  ok_sequences : ∀ s, sequences_of s (busLog b) = seqZ 0 (at0 (addressSequences b) s);
  ok_sequence_range : ∀ s, 0 <= at0 (addressSequences b) s < 2 ^ 64
}.
End bus.

Section bus_theory.
Context `{MessageHashOk, OwnableOk Ow}.
Implicit Types (b : MessageBusState Ow) (m : CrossChainMessage) (sender : Address).

Lemma publishMessage_Done sender nonce topic payload level b b' n :
  publishMessage sender nonce topic payload level b = Done (b', n) →
  n = at0 (addressSequences b) sender ∧ n + 1 < 2 ^ 64 ∧
  b' = mkBus (messageFinalityTimestamps b) (messages b) (<[sender := n + 1]> (addressSequences b))
         (busOwner b) (busLog b ++ [mkMessage sender n nonce topic payload level]) (storeHistory b).
Proof.
  unfold publishMessage, incrementSequence. intros Hp. done_inv Hp. done_inv E.
  simplify_eq. cbn. split_and!; by f_equal || lia.
Qed.

Lemma storeCrossChainMessage_Done now sender m after b b' :
  storeCrossChainMessage now sender m after b = Done b' →
  sender = owner (busOwner b) ∧ at0 (messageFinalityTimestamps b) (messageHash m) = 0 ∧
  stored b' ≡ₚ m :: stored b ∧
  messageFinalityTimestamps b' = <[messageHash m := now + after]> (messageFinalityTimestamps b) ∧
  addressSequences b' = addressSequences b ∧ busOwner b' = busOwner b ∧ busLog b' = busLog b ∧
  storeHistory b' = storeHistory b ++ [mkStoreEntry sender sender m].
Proof.
  unfold storeCrossChainMessage. intros Hs. done_inv Hs. simplify_eq. cbn.
  apply bool_decide_eq_true in E. apply Z.eqb_eq in E1. subst sender.
  split_and!; try done. apply stored_insert.
Qed.

Lemma new_bus_ok a : bus_ok (newMessageBus (Ow := Ow) a).
Proof.
  split; unfold at0; cbn.
  - by intros m ?%elem_of_nil.
  - by setoid_rewrite lookup_empty.
  - constructor.
  - by intros m ?%elem_of_nil.
  - by intros e ?%elem_of_nil.
  - by setoid_rewrite lookup_empty.
  - setoid_rewrite lookup_empty. done.
Qed.

Lemma at0_insert {K} `{Countable K} (g : gmap K Z) k v k' :
  at0 (<[k := v]> g) k' = if decide (k = k') then v else at0 g k'.
Proof.
  unfold at0. destruct (decide (k = k')) as [->|]; [by rewrite lookup_insert_eq|by rewrite lookup_insert_ne].
Qed.

Lemma publishMessage_ok sender nonce topic payload level b b' n :
  bus_ok b → publishMessage sender nonce topic payload level b = Done (b', n) → bus_ok b'.
Proof.
  intros [Hs Hf Hn Hh Ho Hq Hr] (-> & Hlt & ->)%publishMessage_Done.
  split; cbn; [exact Hs|exact Hf|exact Hn|exact Hh|exact Ho| |].
  - intros s. rewrite at0_insert. unfold sequences_of. rewrite filter_app, fmap_app. fold (sequences_of s (busLog b)).
    rewrite Hq, filter_cons. cbn. destruct (decide (sender = s)) as [->|]; cbn.
    + rewrite seqZ_app by (specialize (Hr s); lia). f_equal.
    + by rewrite app_nil_r.
  - intros s. rewrite at0_insert. specialize (Hr s). destruct (decide (sender = s)) as [->|]; lia.
Qed.

Lemma storeCrossChainMessage_ok now sender m after b b' :
  0 < now → 0 <= after → bus_ok b → storeCrossChainMessage now sender m after b = Done b' → bus_ok b'.
Proof.
  intros Hnow Hafter [Hs Hf Hn Hh Ho Hq Hr] (_ & Hz & Hst & Hts & Hsq & _ & Hlog & Hhist)%storeCrossChainMessage_Done.
  split; rewrite ?Hts, ?Hsq, ?Hlog, ?Hhist; try setoid_rewrite Hst.
  - intros m' [->|Hm']%elem_of_cons; rewrite at0_insert; [rewrite decide_True by done; lia|].
    case_decide; [lia|]. by apply Hs.
  - intros h. rewrite at0_insert. case_decide.
    + intros _. exists m. split; [left|done].
    + intros (m' & ? & ?)%Hf. exists m'. split; [by right|done].
  - constructor; [|done]. intros Hin%Hs. lia.
  - intros m' [->|(e & He & Hm)%Hh]%elem_of_cons.
    + exists (mkStoreEntry sender sender m). split; [|done]. apply elem_of_app. right. by left.
    + exists e. split; [|done]. apply elem_of_app. by left.
  - intros e [He| ->%list_elem_of_singleton]%elem_of_app; [by apply Ho|done].
  - done.
  - done.
Qed.

(** A sender's published messages carry distinct numbers, so no two published
    messages are the same. *)
Lemma bus_log_nodup b : bus_ok b → NoDup (busLog b).
Proof.
  intros [_ _ _ _ _ Hq _]. generalize (at0 (addressSequences b)), Hq. clear Hq. intros count Hq.
  assert (∀ s, NoDup (sequences_of s (busLog b))) as Hnd by (intros s; rewrite Hq; apply NoDup_seqZ).
  clear Hq. induction (busLog b) as [|m log IH]; [constructor|]. constructor.
  - intros Hin. specialize (Hnd (msg_sender m)). unfold sequences_of in Hnd.
    rewrite filter_cons_True in Hnd by done. apply NoDup_cons in Hnd as [Hnd _]. apply Hnd.
    apply list_elem_of_fmap. exists m. split; [done|]. by apply list_elem_of_filter.
  - apply IH. intros s. specialize (Hnd s). unfold sequences_of in *. rewrite filter_cons in Hnd.
    case_decide; [|done]. by apply NoDup_cons in Hnd as [_ Hnd].
Qed.
End bus_theory.
