(* ===== verification/ContractCalls.v ===== *)
(** * Contracts that call each other

    The functions of the contracts of [src/contracts/src] as calldata denotes them, a
    chain on which they are deployed, and the execution of a call, with everything
    the called contracts call in turn.  [messaging/messenger/CrossChainMessenger.sol]
    and [CrossChainEnabledObscuro.sol] are part of every chain; the other
    contracts of a chain are given by the class [Contracts].

    Contracts outside the repository can do anything a contract can: a [Script] says
    which calls they make when they are called, and every theorem is about all
    scripts.  Calls nest to a depth of at most 1024, the limit of the EVM. *)

From S2P Require Import Prelude Types Codec Solidity MessageBusContract.
Local Open Scope Z_scope.

(** ** Calldata *)

(** [Structs.MetaRollup] of [management/Structs.sol] *)
Record MetaRollup := mkMetaRollup {
  mr_Hash : Hash;
  mr_AggregatorID : Address;
  mr_LastSequenceNumber : Z
}.

(** [ICrossChainMessenger.CrossChainCall] *)
Record CrossChainCall := mkCrossChainCall {
  cc_target : Address;
  cc_data : bytes;
  cc_gas : Z
}.

(** The external functions of all contracts with their arguments.  The getters of
    public variables, which change nothing, are left out. *)
Inductive Call :=
  (** [IMessageBus], [Ownable] *)
  | PublishMessage (nonce topic : Z) (payload : bytes) (consistencyLevel : Z)
  | VerifyMessageFinalized (m : CrossChainMessage)
  | GetMessageTimeOfFinality (m : CrossChainMessage)
  | StoreCrossChainMessage (m : CrossChainMessage) (finalAfterTimestamp : Z)
  | OwnableFn (c : OwnableCall)
  (** [ICrossChainMessenger] *)
  | RelayMessage (m : CrossChainMessage)
  | EncodeCall (target : Address) (payload : bytes)
  | MessageBusOf
  | CrossChainSenderOf
  (** [ManagementContract] *)
  | AddRollup (r : MetaRollup) (rollupData : string) (crossChainData : list CrossChainMessage)
  | InitializeNetworkSecret (aggregatorID : Address) (initSecret : bytes)
      (hostAddress genesisAttestation : string)
  | RequestNetworkSecret (requestReport : string)
  | RespondNetworkSecret (attesterID requesterID : Address) (attesterSig responseSecret : bytes)
      (hostAddress : string) (verifyAttester : bool)
  | GetRollupByHash (rollupHash : Hash)
  | GetHostAddresses
  | IsWithdrawalAvailable
  | Attested (a : Address)
  (** [IBridge], [IObscuroBridgeAdmin], [ITokenFactory], [AccessControl] *)
  | SendNative (receiver : Address)
  | SendERC20 (asset : Address) (amount : Z) (receiver : Address)
  | ReceiveAssets (asset : Address) (amount : Z) (receiver : Address)
  | PromoteToAdmin (newAdmin : Address)
  | WhitelistToken (asset : Address) (name symbol : string)
  | RemoveToken (asset : Address)
  | SetRemoteBridge (bridge : Address)
  | OnCreateTokenCommand (crossChainAddress : Address) (name symbol : string)
  | HasTokenMapping (wrappedToken : Address)
  | AccessFn (c : AccessCall)
  (** [ERC20], [WrappedERC20] *)
  | ERC20Fn (c : ERC20Call)
  | IssueFor (receiver : Address) (amount : Z)
  | BurnFor (giver : Address) (amount : Z)
  | BalanceOf (account : Address)
  | Allowance (owner spender : Address).

(** The amounts in calldata are 256-bit words. *)
Definition call_wf (c : Call) : Prop :=
  match c with
  | StoreCrossChainMessage _ n | SendERC20 _ n _ | ReceiveAssets _ n _ | IssueFor _ n | BurnFor _ n => is_u256 n
  | ERC20Fn c => is_u256 (erc20_amount c)
  | _ => True
  end.

(** The ABI: [abi.encodeWithSelector] and the decoding of calldata, and the encoding
    of a [CrossChainCall]. *)
Class ABI := {
  encodeWithSelector : Call → bytes;
  decodeCalldata : bytes → option Call;
  abi_encode : CrossChainCall → bytes;
  abi_decode : bytes → option CrossChainCall
}.

Class ABIOk `{ABI} := {
  calldata_roundtrip : ∀ c, call_wf c → decodeCalldata (encodeWithSelector c) = Some c;
  calldata_wf : ∀ d c, decodeCalldata d = Some c → call_wf c;
  calldata_nil : decodeCalldata [] = None;
  crossChainCall_roundtrip : ∀ c, abi_decode (abi_encode c) = Some c
}.

(** ** A chain *)

(** The last field is a history variable that the contract does not have: the messages it
    relayed, also within other calls, each with the time; it is written and never read. *)
Record MessengerState := mkMessenger {
  crossChainSender : Address;
  messageConsumed : gset Hash;
  relayHistory : list (CrossChainMessage * Z)
}.

(** [new CrossChainMessenger] *)
Definition newMessenger : MessengerState := mkMessenger 0 ∅ [].

Record Chain (Ow App : Type) := mkChain {
  bus : MessageBusState Ow;
  messenger : MessengerState;
  eth : gmap Address Z;
  app : App
}.
Arguments mkChain {_ _} _ _ _ _.
Arguments bus {_ _} _.
Arguments messenger {_ _} _.
Arguments eth {_ _} _.
Arguments app {_ _} _.

(** What a transaction fixes for all its calls. *)
Record Env := mkEnv {
  tx_origin : Address;
  block_timestamp : Z
}.

(** A call that a contract outside the repository makes: the calls made within it by
    such contracts, and whether its failure is theirs. *)
#[warnings="-register-all"]
Inductive Script := mkScript (target : Address) (value : Z) (data : bytes) (subs : list Script)
  (propagate : bool).

(** The addresses of the bus and the messenger on the chain with the contracts [App]. *)
Class Deployment (App : Type) := {
  busAddr : Address;
  messengerAddr : Address;
  (** whether there is a contract at an address *)
  hasCode : Address → bool
}.

Section chain.
Context `{MessageHash, Ownable Ow, ABI, Deployment App}.
Implicit Types (w : Chain Ow App).

Definition set_bus (b : MessageBusState Ow) w : Chain Ow App := mkChain b (messenger w) (eth w) (app w).
Definition set_messenger (m : MessengerState) w : Chain Ow App := mkChain (bus w) m (eth w) (app w).
Definition set_eth (e : gmap Address Z) w : Chain Ow App := mkChain (bus w) (messenger w) e (app w).
Definition set_app (a : App) w : Chain Ow App := mkChain (bus w) (messenger w) (eth w) a.

(** The value a call carries. *)
Definition pay (sender target : Address) (value : Z) w : outcome (Chain Ow App) :=
  _ ← require ((0 <=? value) && (value <? 2 ^ 256)) "value";
  _ ← require (value <=? at0 (eth w) sender) "insufficient balance for transfer";
  let e := <[sender := at0 (eth w) sender - value]> (eth w) in
  Done (set_eth (<[target := at0 e target + value]> e) w).

Definition nonpayable (value : Z) : outcome unit := require (value =? 0) "non-payable function".

(** The external functions of the message bus; [receive] and [fallback] revert. *)
Definition bus_call (env : Env) (sender : Address) (value : Z) (data : bytes) w
    : outcome (Chain Ow App) :=
  match decodeCalldata data with
  | Some (PublishMessage nonce topic payload level) =>
      _ ← nonpayable value;
      '(b, _) ← publishMessage sender nonce topic payload level (bus w);
      Done (set_bus b w)
  | Some (VerifyMessageFinalized _) => _ ← nonpayable value; Done w
  | Some (GetMessageTimeOfFinality m) =>
      _ ← nonpayable value; _ ← getMessageTimeOfFinality m (bus w); Done w
  | Some (StoreCrossChainMessage m after) =>
      _ ← nonpayable value;
      b ← storeCrossChainMessage (block_timestamp env) sender m after (bus w);
      Done (set_bus b w)
  | Some (OwnableFn c) => _ ← nonpayable value; b ← bus_ownable sender c (bus w); Done (set_bus b w)
  | _ => Revert "unsupported"
  end.

(** ** The messenger *)

Definition consumeMessage (env : Env) (m : CrossChainMessage) w : outcome (Chain Ow App) :=
  _ ← require (verifyMessageFinalized (block_timestamp env) m (bus w)) "Message not found or finalized.";
  let msgHash := messageHash m in
  _ ← require (bool_decide (msgHash ∉ messageConsumed (messenger w))) "Message already consumed.";
  Done (set_messenger (mkMessenger (crossChainSender (messenger w))
          ({[msgHash]} ∪ messageConsumed (messenger w))
          (relayHistory (messenger w) ++ [(m, block_timestamp env)])) w).

Definition setCrossChainSender (a : Address) w : Chain Ow App :=
  set_messenger (mkMessenger a (messageConsumed (messenger w)) (relayHistory (messenger w))) w.

Definition encodeCall (target : Address) (payload : bytes) : bytes :=
  abi_encode (mkCrossChainCall target payload 0).

(** [ext target data] is the call the messenger makes. *)
Definition relayMessage (ext : Address → bytes → Chain Ow App → outcome (Chain Ow App)) (env : Env)
    (m : CrossChainMessage) w : outcome (Chain Ow App) :=
  w ← consumeMessage env m w;
  let w := setCrossChainSender (msg_sender m) w in
  callData ← orRevert "abi.decode" (abi_decode (msg_payload m));
  w ← ext (cc_target callData) (cc_data callData) w;
  Done (setCrossChainSender 0 w).

Definition messenger_call (ext : Address → bytes → Chain Ow App → outcome (Chain Ow App)) (env : Env)
    (value : Z) (data : bytes) w : outcome (Chain Ow App) :=
  match decodeCalldata data with
  | Some (RelayMessage m) => _ ← nonpayable value; relayMessage ext env m w
  | Some (EncodeCall _ _) | Some MessageBusOf | Some CrossChainSenderOf => _ ← nonpayable value; Done w
  | _ => Revert "no such function"
  end.

(** ** [CrossChainEnabledObscuro] *)

Definition onlyCrossChainSender (caller sender : Address) w : outcome unit :=
  _ ← require (bool_decide (caller = messengerAddr)) "Contract caller is not the registered messenger!";
  require (bool_decide (crossChainSender (messenger w) = sender))
    "Cross chain message coming from incorrect sender!".

(** The next value of the nonce is returned beside the chain. *)
Definition queueMessage (this : Address) (nonce : Z) (target : Address) (message : bytes)
    (topic gas consistencyLevel : Z) w : outcome (Chain Ow App * Z) :=
  let payload := abi_encode (mkCrossChainCall target message gas) in
  next ← checkedAdd 32 nonce 1;
  '(b, _) ← publishMessage this nonce topic payload consistencyLevel (bus w);
  Done (set_bus b w, next).

Lemma queueMessage_Done this nonce target message topic gas level w w' n :
  queueMessage this nonce target message topic gas level w = Done (w', n) →
  ∃ b k, publishMessage this nonce topic (abi_encode (mkCrossChainCall target message gas)) level (bus w)
           = Done (b, k) ∧ w' = set_bus b w ∧ n = nonce + 1.
Proof. unfold queueMessage. intros Hq. done_inv Hq. match goal with p : _ * _ |- _ => destruct p end. naive_solver. Qed.
End chain.

(** ** Calls *)

(** A call made by a contract: who calls, whom, with which value and calldata. *)
Definition Ext (W : Type) : Type := Address → Address → Z → bytes → W → outcome W.

(** The other contracts of a chain: their addresses, and what a call to one of them
    does, the value being paid.  [ext this] makes the calls of the contract. *)
Class Contracts (Ow App : Type) `{MessageHash, Ownable Ow, ABI, Deployment App} := {
  isApp : App → Address → bool;
  appCall : Ext (Chain Ow App) → Env → Address → Address → Z → bytes →
    Chain Ow App → outcome (Chain Ow App)
}.

Section calls.
Context `{Contracts Ow App}.
Implicit Types (w : Chain Ow App).

(** The calls of a contract outside the repository, one after the other; a call that
    reverts changes nothing. *)
Fixpoint perform (f : Script → Chain Ow App → outcome (Chain Ow App)) (l : list Script) w
    : outcome (Chain Ow App) :=
  match l with
  | [] => Done w
  | (mkScript _ _ _ _ propagate as x) :: l =>
      match f x w with
      | Done w' => perform f l w'
      | Revert reason => if propagate then Revert reason else perform f l w
      end
  end.

Fixpoint call (depth : nat) (env : Env) (sender target : Address) (value : Z) (data : bytes)
    (subs : list Script) w : outcome (Chain Ow App) :=
  match depth with
  | O => Revert "call depth"
  | S depth =>
      w ← pay sender target value w;
      if bool_decide (target = busAddr) then bus_call env sender value data w
      else if bool_decide (target = messengerAddr) then
        messenger_call (λ t d, call depth env messengerAddr t 0 d subs) env value data w
      else if isApp (app w) target then
        appCall (λ s t v d, call depth env s t v d subs) env sender target value data w
      else if hasCode target then
        perform (λ '(mkScript t v d subs' _), call depth env target t v d subs') subs w
      else Done w
  end.

Definition maxDepth : nat := 1024.

Lemma maxDepth_SS : ∃ depth, maxDepth = S (S depth).
Proof. by exists 1022%nat. Qed.
#[global] Opaque maxDepth.

(** A transaction of an account. *)
Definition transact (now : Z) (sender target : Address) (value : Z) (data : bytes)
    (subs : list Script) w : outcome (Chain Ow App) :=
  call maxDepth (mkEnv sender now) sender target value data subs w.

(** *** The rule for calls

    [C sender target value data w w'] is a relation between the chain before and
    after a call.  It holds of every call that does not revert if it holds of a
    call to each kind of contract, where it holds of the calls this contract
    makes.  [P w a] is what is known of a contract outside the repository. *)
Section rule.
Context (env : Env) (R : relation (Chain Ow App))
  (C : Address → Address → Z → bytes → relation (Chain Ow App)) (P : Chain Ow App → Address → Prop).

Definition outside w (a : Address) : Prop :=
  a ≠ busAddr ∧ a ≠ messengerAddr ∧ isApp (app w) a = false.

Hypothesis R_refl : ∀ w, R w w.
Hypothesis R_trans : ∀ w1 w2 w3, R w1 w2 → R w2 w3 → R w1 w3.
Hypothesis rule_bus : ∀ s v d w w1 w2,
  pay s busAddr v w = Done w1 → bus_call env s v d w1 = Done w2 → C s busAddr v d w w2.
Hypothesis rule_messenger : ∀ ext s v d w w1 w2,
  (∀ t d w w', ext t d w = Done w' → C messengerAddr t 0 d w w') →
  pay s messengerAddr v w = Done w1 → messenger_call ext env v d w1 = Done w2 →
  C s messengerAddr v d w w2.
Hypothesis rule_app : ∀ ext s t v d w w1 w2,
  (∀ s t v d w w', ext s t v d w = Done w' → C s t v d w w') →
  t ≠ busAddr → t ≠ messengerAddr → isApp (app w1) t = true →
  pay s t v w = Done w1 → appCall ext env s t v d w1 = Done w2 → C s t v d w w2.
Hypothesis P_outside : ∀ w a, outside w a → hasCode a = true → P w a.
Hypothesis rule_sub : ∀ t t' v d w w', P w t → C t t' v d w w' → R w w' ∧ P w' t.
Hypothesis rule_outside : ∀ s t v d w w1 w2,
  pay s t v w = Done w1 → outside w1 t → R w1 w2 → C s t v d w w2.

Lemma perform_rule f a l w w' :
  (∀ t v d subs p w w', f (mkScript t v d subs p) w = Done w' → C a t v d w w') →
  P w a → perform f l w = Done w' → R w w'.
Proof using R_refl R_trans rule_sub.
  intros Hf Ha. revert w Ha. induction l as [|[t v d subs p] l IH]; intros w Ha; cbn.
  { intros [= <-]. apply R_refl. }
  destruct (f _ w) as [w1|] eqn:Hx.
  - intros Hl. destruct (rule_sub _ _ _ _ _ _ Ha (Hf _ _ _ _ _ _ _ Hx)) as [HR Ho]. eauto.
  - destruct p; [done|]. eauto.
Qed.

Lemma call_rule depth s t v d subs w w' :
  call depth env s t v d subs w = Done w' → C s t v d w w'.
Proof using All.
  revert s t v d subs w w'. induction depth as [|depth IH]; intros s t v d subs w w'; cbn; [done|].
  intros Hc. done_inv Hc. rename r into w1, E into Hpay.
  case_bool_decide as Hb; [subst; by eapply rule_bus|].
  case_bool_decide as Hm; [subst; eapply rule_messenger; [|done|exact Hc]; cbn; eauto|].
  destruct (isApp (app w1) t) eqn:Ha; [eapply rule_app; [|done..]; cbn; eauto|].
  assert (outside w1 t) as Ho by done.
  eapply rule_outside; [done|done|]. destruct (hasCode t) eqn:Hcode.
  - eapply perform_rule; [|by apply P_outside|exact Hc]. cbn. eauto.
  - injection Hc as <-. apply R_refl.
Qed.
End rule.
End calls.
