(* ===== verification/L1Contracts.v ===== *)
(** * The contracts on L1

    [management/ManagementContract.sol], [bridge/L1/ObscuroBridge.sol] and the ERC20
    tokens it holds ([common/ConstantSupplyERC20.sol] is one), as the contracts of a
    chain. *)

From S2P Require Import Prelude Types Codec Bytes Solidity MessageBusContract ContractCalls.
Local Open Scope Z_scope.

(** [ECDSA]: the hash that is signed, and the signer of a hash. *)
Class ECDSARecover := {
  toEthSignedMessageHash : bytes → Hash;
  recover : Hash → bytes → option Address
}.

(** The last field is a history variable that the contract does not have: for whom
    [InitializeNetworkSecret] succeeded; it is written and never read. *)
Record Management := mkManagement {
  attestationRequests : gmap Address string;
  attested : gset Address;
  hostAddresses : list string;
  networkSecretInitialized : bool;
  isWithdrawalAvailable : bool;
  lastBatchSeqNo : Z;
  rollups_byHash : gmap Hash MetaRollup;
  initHistory : list Address
}.

(** [constructor]: the bus it deploys is the bus of the chain, which it owns. *)
Definition newManagement : Management := mkManagement ∅ ∅ [] false false 0 ∅ [].

Record ObscuroBridge (R : Type) := mkObscuroBridge {
  bridgeRoles : R;
  remoteBridgeAddress : Address;
  bridgeNonce : Z
}.
Arguments mkObscuroBridge {_} _ _ _.
Arguments bridgeRoles {_} _.
Arguments remoteBridgeAddress {_} _.
Arguments bridgeNonce {_} _.

Record L1App (R T : Type) := mkL1App {
  mgmt : Management;
  obscuroBridge : ObscuroBridge R;
  l1Tokens : gmap Address T
}.
Arguments mkL1App {_ _} _ _ _.
Arguments mgmt {_ _} _.
Arguments obscuroBridge {_ _} _.
Arguments l1Tokens {_ _} _.

Class L1Deployment := {
  mgmtAddr : Address;
  bridgeAddr : Address
}.

(** [IBridge.Topics] *)
Definition TRANSFER : Z := 0.
Definition MANAGEMENT : Z := 1.

(** [new ConstantSupplyERC20(name, symbol, initialSupply)] *)
Definition newConstantSupplyERC20 `{ERC20 T} (deployer : Address) (initialSupply : Z) : option T :=
  _mint newERC20 deployer initialSupply.

Section l1.
Context `{MessageHash, Ownable Ow, ABI, ECDSARecover, AddressBytes, AccessControl R, ERC20 T,
  !Deployment (L1App R T), !L1Deployment}.
Implicit Types (w : Chain Ow (L1App R T)) (sender : Address) (mg : Management).

Definition set_mgmt mg w : Chain Ow (L1App R T) :=
  set_app (mkL1App mg (obscuroBridge (app w)) (l1Tokens (app w))) w.
Definition set_bridge (b : ObscuroBridge R) w : Chain Ow (L1App R T) :=
  set_app (mkL1App (mgmt (app w)) b (l1Tokens (app w))) w.
Definition set_tokens (ts : gmap Address T) w : Chain Ow (L1App R T) :=
  set_app (mkL1App (mgmt (app w)) (obscuroBridge (app w)) ts) w.

(** ** [ManagementContract] *)

(** The rollup read for a hash, zero in every field if there is none. *)
Definition mgmt_GetRollupByHash (rollupHash : Hash) mg : bool * MetaRollup :=
  let rol := default (mkMetaRollup 0 0 0) (rollups_byHash mg !! rollupHash) in
  (mr_Hash rol =? rollupHash, rol).

Definition AppendRollup (r : MetaRollup) mg : Management :=
  mkManagement (attestationRequests mg) (attested mg) (hostAddresses mg)
    (networkSecretInitialized mg) (isWithdrawalAvailable mg)
    (if lastBatchSeqNo mg <? mr_LastSequenceNumber r then mr_LastSequenceNumber r else lastBatchSeqNo mg)
    (<[mr_Hash r := r]> (rollups_byHash mg)) (initHistory mg).

Fixpoint pushCrossChainMessages (now : Z) (msgs : list CrossChainMessage) (b : MessageBusState Ow)
    : outcome (MessageBusState Ow) :=
  match msgs with
  | [] => Done b
  | m :: msgs => b ← storeCrossChainMessage now mgmtAddr m 1 b; pushCrossChainMessages now msgs b
  end.

Definition mgmt_AddRollup (env : Env) (r : MetaRollup) (crossChainData : list CrossChainMessage) w
    : outcome (Chain Ow (L1App R T)) :=
  _ ← require (bool_decide (mr_AggregatorID r ∈ attested (mgmt (app w)))) "aggregator not attested";
  let w := set_mgmt (AppendRollup r (mgmt (app w))) w in
  b ← pushCrossChainMessages (block_timestamp env) crossChainData (bus w);
  Done (set_bus b w).

Definition mgmt_InitializeNetworkSecret (aggregatorID : Address) (hostAddress : string) mg
    : outcome Management :=
  _ ← require (negb (networkSecretInitialized mg)) "";
  Done (mkManagement (attestationRequests mg) ({[aggregatorID]} ∪ attested mg)
    (hostAddresses mg ++ [hostAddress]) true (isWithdrawalAvailable mg) (lastBatchSeqNo mg)
    (rollups_byHash mg) (initHistory mg ++ [aggregatorID])).

Definition mgmt_RequestNetworkSecret sender (requestReport : string) mg : Management :=
  mkManagement (<[sender := requestReport]> (attestationRequests mg)) (attested mg) (hostAddresses mg)
    (networkSecretInitialized mg) (isWithdrawalAvailable mg) (lastBatchSeqNo mg) (rollups_byHash mg) (initHistory mg).

(** [abi.encodePacked]: the bytes one after the other, without lengths. *)
Definition packResponse (attesterID requesterID : Address) (hostAddress : string)
    (responseSecret : bytes) : bytes :=
  Address_Bytes attesterID ++ Address_Bytes requesterID ++ ascii_bytes hostAddress ++ responseSecret.

Definition mgmt_RespondNetworkSecret (attesterID requesterID : Address)
    (attesterSig responseSecret : bytes) (hostAddress : string) (verifyAttester : bool) mg
    : outcome Management :=
  _ ← require (bool_decide (attesterID ∈ attested mg)) "";
  _ ← (if verifyAttester then
         let calculatedHashSigned :=
           toEthSignedMessageHash (packResponse attesterID requesterID hostAddress responseSecret) in
         recovered ← orRevert "ECDSA: invalid signature" (recover calculatedHashSigned attesterSig);
         require (bool_decide (recovered = attesterID)) "calculated address and attesterID dont match"
       else Done tt);
  Done (mkManagement (attestationRequests mg) ({[requesterID]} ∪ attested mg)
    (hostAddresses mg ++ [hostAddress]) (networkSecretInitialized mg) (isWithdrawalAvailable mg)
    (lastBatchSeqNo mg) (rollups_byHash mg) (initHistory mg)).

Definition mgmt_call (env : Env) sender (value : Z) (data : bytes) w : outcome (Chain Ow (L1App R T)) :=
  _ ← nonpayable value;
  match decodeCalldata data with
  | Some (AddRollup r _ crossChainData) => mgmt_AddRollup env r crossChainData w
  | Some (InitializeNetworkSecret a _ hostAddress _) =>
      mg ← mgmt_InitializeNetworkSecret a hostAddress (mgmt (app w)); Done (set_mgmt mg w)
  | Some (RequestNetworkSecret report) =>
      Done (set_mgmt (mgmt_RequestNetworkSecret sender report (mgmt (app w))) w)
  | Some (RespondNetworkSecret a r sig secret hostAddress verifyAttester) =>
      mg ← mgmt_RespondNetworkSecret a r sig secret hostAddress verifyAttester (mgmt (app w));
      Done (set_mgmt mg w)
  | Some (GetRollupByHash _) | Some GetHostAddresses | Some IsWithdrawalAvailable
  | Some (Attested _) | Some MessageBusOf => Done w
  | _ => Revert "no such function"
  end.

(** ** Tokens *)

(** A call to a token: an address without a contract reverts, as does a call the
    token refuses ([SafeERC20] makes sure of that). *)
Definition token_call sender (asset : Address) (c : ERC20Call) w : outcome (Chain Ow (L1App R T)) :=
  t ← orRevert "Address: call to non-contract" (l1Tokens (app w) !! asset);
  t ← orRevert "ERC20" (erc20Call t sender c);
  Done (set_tokens (<[asset := t]> (l1Tokens (app w))) w).

Definition l1token_call sender (asset : Address) (value : Z) (data : bytes) w
    : outcome (Chain Ow (L1App R T)) :=
  _ ← nonpayable value;
  match decodeCalldata data with
  | Some (ERC20Fn c) => token_call sender asset c w
  | Some (BalanceOf _) | Some (Allowance _ _) => Done w
  | _ => Revert "no such function"
  end.

(** ** [ObscuroBridge] *)

(** [constructor] called by [deployer] *)
Definition newObscuroBridge (deployer : Address) : ObscuroBridge R :=
  mkObscuroBridge (_grantRole (_grantRole noRoles ADMIN_ROLE deployer) NATIVE_TOKEN_ROLE 0) 0 0.

Definition set_roles (r : R) w : Chain Ow (L1App R T) :=
  let b := obscuroBridge (app w) in set_bridge (mkObscuroBridge r (remoteBridgeAddress b) (bridgeNonce b)) w.

Definition onlyRole (role : Role) sender w : outcome unit :=
  require (hasRole (bridgeRoles (obscuroBridge (app w))) role sender) "AccessControl: missing role".

(** [queueMessage(remoteBridgeAddress, data, topic, 0, 0)] *)
Definition bridge_queue (topic : Z) (data : bytes) w : outcome (Chain Ow (L1App R T)) :=
  let b := obscuroBridge (app w) in
  '(w, nonce) ← queueMessage bridgeAddr (bridgeNonce b) (remoteBridgeAddress b) data topic 0 0 w;
  Done (set_bridge (mkObscuroBridge (bridgeRoles b) (remoteBridgeAddress b) nonce) w).

Definition bridge_promoteToAdmin sender (newAdmin : Address) w : outcome (Chain Ow (L1App R T)) :=
  _ ← onlyRole ADMIN_ROLE sender w;
  Done (set_roles (_grantRole (bridgeRoles (obscuroBridge (app w))) ADMIN_ROLE newAdmin) w).

Definition bridge_whitelistToken sender (asset : Address) (name symbol : string) w
    : outcome (Chain Ow (L1App R T)) :=
  _ ← onlyRole ADMIN_ROLE sender w;
  let w := set_roles (_grantRole (bridgeRoles (obscuroBridge (app w))) ERC20_TOKEN_ROLE asset) w in
  bridge_queue MANAGEMENT (encodeWithSelector (OnCreateTokenCommand asset name symbol)) w.

Definition bridge_removeToken sender (asset : Address) w : outcome (Chain Ow (L1App R T)) :=
  _ ← onlyRole ADMIN_ROLE sender w;
  Done (set_roles (_revokeRole (bridgeRoles (obscuroBridge (app w))) ERC20_TOKEN_ROLE asset) w).

Definition bridge_setRemoteBridge sender (bridge : Address) w : outcome (Chain Ow (L1App R T)) :=
  _ ← onlyRole ADMIN_ROLE sender w;
  let b := obscuroBridge (app w) in
  Done (set_bridge (mkObscuroBridge (bridgeRoles b) bridge (bridgeNonce b)) w).

Definition bridge_sendNative (value : Z) (receiver : Address) w : outcome (Chain Ow (L1App R T)) :=
  _ ← require (0 <? value) "Empty transfer.";
  bridge_queue TRANSFER (encodeWithSelector (ReceiveAssets 0 value receiver)) w.

Definition bridge_sendERC20 sender (asset : Address) (amount : Z) (receiver : Address) w
    : outcome (Chain Ow (L1App R T)) :=
  _ ← require (0 <? amount) "Attempting empty transfer.";
  _ ← require (hasRole (bridgeRoles (obscuroBridge (app w))) ERC20_TOKEN_ROLE asset)
        "This address has not been given a type and is thus considered not whitelisted.";
  w ← token_call bridgeAddr asset (TransferFrom sender bridgeAddr amount) w;
  bridge_queue TRANSFER (encodeWithSelector (ReceiveAssets asset amount receiver)) w.

Definition _receiveTokens (asset : Address) (amount : Z) (receiver : Address) w
    : outcome (Chain Ow (L1App R T)) :=
  token_call bridgeAddr asset (Transfer receiver amount) w.

(** [receiver.call] with the amount and without calldata *)
Definition _receiveNative (ext : Ext (Chain Ow (L1App R T))) (amount : Z) (receiver : Address) w
    : outcome (Chain Ow (L1App R T)) :=
  ext bridgeAddr receiver amount [] w.

Definition bridge_receiveAssets (ext : Ext (Chain Ow (L1App R T))) sender (asset : Address) (amount : Z)
    (receiver : Address) w : outcome (Chain Ow (L1App R T)) :=
  let b := obscuroBridge (app w) in
  _ ← onlyCrossChainSender sender (remoteBridgeAddress b) w;
  if hasRole (bridgeRoles b) ERC20_TOKEN_ROLE asset then _receiveTokens asset amount receiver w
  else if hasRole (bridgeRoles b) NATIVE_TOKEN_ROLE asset then _receiveNative ext amount receiver w
  else Revert "Attempting to withdraw unknown asset.".

(** Only [sendNative] is payable. *)
Definition bridge_call (ext : Ext (Chain Ow (L1App R T))) sender (value : Z) (data : bytes) w
    : outcome (Chain Ow (L1App R T)) :=
  match decodeCalldata data with
  | Some (SendNative receiver) => bridge_sendNative value receiver w
  | Some (SendERC20 asset amount receiver) =>
      _ ← nonpayable value; bridge_sendERC20 sender asset amount receiver w
  | Some (ReceiveAssets asset amount receiver) =>
      _ ← nonpayable value; bridge_receiveAssets ext sender asset amount receiver w
  | Some (PromoteToAdmin a) => _ ← nonpayable value; bridge_promoteToAdmin sender a w
  | Some (WhitelistToken asset name symbol) =>
      _ ← nonpayable value; bridge_whitelistToken sender asset name symbol w
  | Some (RemoveToken asset) => _ ← nonpayable value; bridge_removeToken sender asset w
  | Some (SetRemoteBridge a) => _ ← nonpayable value; bridge_setRemoteBridge sender a w
  | Some (AccessFn c) =>
      _ ← nonpayable value;
      r ← orRevert "AccessControl" (accessCall (bridgeRoles (obscuroBridge (app w))) sender c);
      Done (set_roles r w)
  | _ => Revert "no such function"
  end.

Definition l1_isApp (a : L1App R T) (x : Address) : bool :=
  bool_decide (x = mgmtAddr) || bool_decide (x = bridgeAddr) || bool_decide (is_Some (l1Tokens a !! x)).

Definition l1_call (ext : Ext (Chain Ow (L1App R T))) (env : Env) (sender target : Address) (value : Z)
    (data : bytes) w : outcome (Chain Ow (L1App R T)) :=
  if bool_decide (target = mgmtAddr) then mgmt_call env sender value data w
  else if bool_decide (target = bridgeAddr) then bridge_call ext sender value data w
  else l1token_call sender target value data w.

#[export] Instance l1_contracts : Contracts Ow (L1App R T) := {| isApp := l1_isApp; appCall := l1_call |}.
End l1.
