(* ===== verification/L2Contracts.v ===== *)
(** * The contracts on L2

    [bridge/L2/EthereumBridge.sol] and the tokens it creates,
    [common/WrappedERC20.sol] over [common/ObsERC20.sol], as the contracts of a
    chain. *)

From S2P Require Import Prelude Types Codec Solidity MessageBusContract ContractCalls L1Contracts.
Local Open Scope Z_scope.

(** A token that the bridge created. *)
Record WrappedERC20 (R T : Type) := mkWrapped {
  wr_erc20 : T;
  wr_roles : R
}.
Arguments mkWrapped {_ _} _ _.
Arguments wr_erc20 {_ _} _.
Arguments wr_roles {_ _} _.

(** The mappings hold the zero address where they were not written; the last field
    counts the contracts the bridge has created. *)
Record EthereumBridge := mkEthereumBridge {
  wrappedTokens : gmap Address Address;
  localToRemoteToken : gmap Address Address;
  remoteToLocalToken : gmap Address Address;
  eb_remoteBridgeAddress : Address;
  eb_nonce : Z;
  eb_created : nat
}.

Record L2App (R T : Type) := mkL2App {
  ethereumBridge : EthereumBridge;
  l2Tokens : gmap Address (WrappedERC20 R T)
}.
Arguments mkL2App {_ _} _ _.
Arguments ethereumBridge {_ _} _.
Arguments l2Tokens {_ _} _.

(** The address of the bridge, and of the contracts it creates. *)
Class L2Deployment := {
  ethBridgeAddr : Address;
  createAddress : nat → Address
}.

(** Addresses of new contracts are not the zero address and not in use. *)
Class L2DeploymentOk (App : Type) `{Deployment App, L2Deployment} := {
  createAddress_inj : Inj (=) (=) createAddress;
  createAddress_nonzero : ∀ n, createAddress n ≠ 0;
  createAddress_fresh : ∀ n, hasCode (createAddress n) = false ∧ createAddress n ≠ busAddr ∧
    createAddress n ≠ messengerAddr ∧ createAddress n ≠ ethBridgeAddr
}.

Section l2.
Context `{MessageHash, Ownable Ow, ABI, AccessControl R, ERC20 T, !Deployment (L2App R T), !L2Deployment}.
Implicit Types (w : Chain Ow (L2App R T)) (sender : Address) (t : WrappedERC20 R T).

Definition set_ethBridge (b : EthereumBridge) w : Chain Ow (L2App R T) :=
  set_app (mkL2App b (l2Tokens (app w))) w.
Definition set_l2Tokens (ts : gmap Address (WrappedERC20 R T)) w : Chain Ow (L2App R T) :=
  set_app (mkL2App (ethereumBridge (app w)) ts) w.

(** ** [ObsERC20]: who may read a balance or an allowance *)

Definition obs_balanceOf (origin sender account : Address) t : outcome Z :=
  if bool_decide (origin = account) then Done (balance (wr_erc20 t) account)
  else if bool_decide (sender = account) then Done (balance (wr_erc20 t) account)
  else Revert "Not allowed to read the balance".

Definition obs_allowance (origin sender owner spender : Address) t : outcome Z :=
  if bool_decide (origin = owner) || bool_decide (origin = spender) then
    Done (allowed (wr_erc20 t) owner spender)
  else if bool_decide (sender = owner) || bool_decide (sender = spender) then
    Done (allowed (wr_erc20 t) owner spender)
  else Revert "Not allowed to read the allowance".

(** ** [WrappedERC20] *)

(** [constructor] called by [deployer] *)
Definition newWrappedERC20 (deployer : Address) : WrappedERC20 R T :=
  mkWrapped newERC20 (_grantRole noRoles ADMIN_ROLE deployer).

Definition issueFor sender (receiver : Address) (amount : Z) t : outcome (WrappedERC20 R T) :=
  _ ← require (hasRole (wr_roles t) ADMIN_ROLE sender) "AccessControl: missing role";
  e ← orRevert "ERC20: mint" (_mint (wr_erc20 t) receiver amount);
  Done (mkWrapped e (wr_roles t)).

Definition burnFor (origin : Address) sender (giver : Address) (amount : Z) t
    : outcome (WrappedERC20 R T) :=
  _ ← require (hasRole (wr_roles t) ADMIN_ROLE sender) "AccessControl: missing role";
  bal ← obs_balanceOf origin sender giver t;
  _ ← require (amount <=? bal) "Insufficient balance.";
  e ← orRevert "ERC20: burn" (_burn (wr_erc20 t) giver amount);
  Done (mkWrapped e (wr_roles t)).

(** The functions of a token: those of [ERC20] read allowances of the caller only,
    so that the overrides do not concern them. *)
Definition wrapped_call (env : Env) sender (c : Call) t : outcome (WrappedERC20 R T) :=
  match c with
  | IssueFor receiver amount => issueFor sender receiver amount t
  | BurnFor giver amount => burnFor (tx_origin env) sender giver amount t
  | ERC20Fn c =>
      e ← orRevert "ERC20" (erc20Call (wr_erc20 t) sender c); Done (mkWrapped e (wr_roles t))
  | AccessFn c =>
      r ← orRevert "AccessControl" (accessCall (wr_roles t) sender c); Done (mkWrapped (wr_erc20 t) r)
  | BalanceOf a => _ ← obs_balanceOf (tx_origin env) sender a t; Done t
  | Allowance o s => _ ← obs_allowance (tx_origin env) sender o s t; Done t
  | _ => Revert "no such function"
  end.

Definition l2token_call (env : Env) sender (token : Address) (c : Call) w
    : outcome (Chain Ow (L2App R T)) :=
  t ← orRevert "call to non-contract" (l2Tokens (app w) !! token);
  t ← wrapped_call env sender c t;
  Done (set_l2Tokens (<[token := t]> (l2Tokens (app w))) w).

(** ** [EthereumBridge] *)

(** [constructor] *)
Definition newEthereumBridge (remoteBridge : Address) : EthereumBridge :=
  mkEthereumBridge ∅ ∅ ∅ remoteBridge 0 0.

Definition onCreateTokenCommand sender (crossChainAddress : Address) w : outcome (Chain Ow (L2App R T)) :=
  let b := ethereumBridge (app w) in
  _ ← onlyCrossChainSender sender (eb_remoteBridgeAddress b) w;
  let localAddress := createAddress (eb_created b) in
  let w := set_l2Tokens (<[localAddress := newWrappedERC20 ethBridgeAddr]> (l2Tokens (app w))) w in
  Done (set_ethBridge (mkEthereumBridge (<[localAddress := localAddress]> (wrappedTokens b))
    (<[localAddress := crossChainAddress]> (localToRemoteToken b))
    (<[crossChainAddress := localAddress]> (remoteToLocalToken b))
    (eb_remoteBridgeAddress b) (eb_nonce b) (S (eb_created b))) w).

Definition hasTokenMapping (wrappedToken : Address) (b : EthereumBridge) : bool :=
  negb (at0 (wrappedTokens b) wrappedToken =? 0).

(** [queueMessage(remoteBridgeAddress, data, topic, 0, 0)] *)
Definition ethBridge_queue (topic : Z) (data : bytes) w : outcome (Chain Ow (L2App R T)) :=
  let b := ethereumBridge (app w) in
  '(w, nonce) ← queueMessage ethBridgeAddr (eb_nonce b) (eb_remoteBridgeAddress b) data topic 0 0 w;
  Done (set_ethBridge (mkEthereumBridge (wrappedTokens b) (localToRemoteToken b) (remoteToLocalToken b)
    (eb_remoteBridgeAddress b) nonce (eb_created b)) w).

Definition ethBridge_sendNative (value : Z) (receiver : Address) w : outcome (Chain Ow (L2App R T)) :=
  let b := ethereumBridge (app w) in
  _ ← require (0 <? value) "Nothing sent.";
  _ ← require (hasTokenMapping 0 b) "No mapping for token.";
  ethBridge_queue TRANSFER
    (encodeWithSelector (ReceiveAssets (at0 (localToRemoteToken b) 0) value receiver)) w.

Definition ethBridge_sendERC20 (env : Env) sender (asset : Address) (amount : Z) (receiver : Address) w
    : outcome (Chain Ow (L2App R T)) :=
  let b := ethereumBridge (app w) in
  _ ← require (hasTokenMapping asset b) "No mapping for token.";
  let token := at0 (wrappedTokens b) asset in
  w ← l2token_call env ethBridgeAddr token (BurnFor sender amount) w;
  ethBridge_queue TRANSFER
    (encodeWithSelector (ReceiveAssets (at0 (localToRemoteToken b) asset) amount receiver)) w.

Definition ethBridge_receiveAssets (env : Env) sender (asset : Address) (amount : Z) (receiver : Address) w
    : outcome (Chain Ow (L2App R T)) :=
  let b := ethereumBridge (app w) in
  _ ← onlyCrossChainSender sender (eb_remoteBridgeAddress b) w;
  let localAddress := at0 (remoteToLocalToken b) asset in
  let token := at0 (wrappedTokens b) localAddress in
  _ ← require (negb (token =? 0)) "Receiving assets for unknown wrapped token!";
  l2token_call env ethBridgeAddr token (IssueFor receiver amount) w.

(** [receive] and [fallback] revert. *)
Definition ethBridge_call (env : Env) sender (value : Z) (data : bytes) w
    : outcome (Chain Ow (L2App R T)) :=
  match decodeCalldata data with
  | Some (OnCreateTokenCommand asset _ _) => _ ← nonpayable value; onCreateTokenCommand sender asset w
  | Some (HasTokenMapping _) => _ ← nonpayable value; Done w
  | Some (SendNative receiver) => ethBridge_sendNative value receiver w
  | Some (SendERC20 asset amount receiver) =>
      _ ← nonpayable value; ethBridge_sendERC20 env sender asset amount receiver w
  | Some (ReceiveAssets asset amount receiver) =>
      _ ← nonpayable value; ethBridge_receiveAssets env sender asset amount receiver w
  | _ => Revert "fallback() method unsupported"
  end.

Definition l2_isApp (a : L2App R T) (x : Address) : bool :=
  bool_decide (x = ethBridgeAddr) || bool_decide (is_Some (l2Tokens a !! x)).

Definition l2_call (ext : Ext (Chain Ow (L2App R T))) (env : Env) (sender target : Address) (value : Z)
    (data : bytes) w : outcome (Chain Ow (L2App R T)) :=
  if bool_decide (target = ethBridgeAddr) then ethBridge_call env sender value data w
  else
    _ ← nonpayable value;
    c ← orRevert "no such function" (decodeCalldata data);
    l2token_call env sender target c w.

#[export] Instance l2_contracts : Contracts Ow (L2App R T) := {| isApp := l2_isApp; appCall := l2_call |}.
End l2.
