(* ===== verification/ContractsSpec.v ===== *)
(** * Messages between the chains

    What the message bus and the messenger guarantee on any chain, whatever other
    contracts do: [ContractsOk] is all that is asked of the contracts of a chain,
    and the contracts on L1 and L2 meet it. *)

From S2P Require Import Prelude Types Codec Bytes Solidity MessageBusContract ContractCalls L1Contracts L2Contracts.
Local Open Scope Z_scope.

(** The contracts of a chain change their own state, publish and store messages and
    make calls, nothing else. *)
Class ContractsOk (Ow App : Type) `{Contracts Ow App} := app_only :
  ∀ (R : relation (Chain Ow App)) env ext s t v d w w',
    (∀ w, R w w) → (∀ w1 w2 w3, R w1 w2 → R w2 w3 → R w1 w3) →
    (∀ w s nonce topic payload level b n,
       publishMessage s nonce topic payload level (bus w) = Done (b, n) → R w (set_bus b w)) →
    (∀ w s m after b, 0 <= after →
       storeCrossChainMessage (block_timestamp env) s m after (bus w) = Done b → R w (set_bus b w)) →
    (∀ w a, R w (set_app a w)) →
    (∀ s t v d w w', ext s t v d w = Done w' → R w w') →
    appCall ext env s t v d w = Done w' → R w w'.

Section messaging.
Context `{ContractsOk Ow App, !MessageHashOk, !OwnableOk Ow, !ABIOk}.
Implicit Types (w : Chain Ow App).

(** A message is consumed only after it was stored; the consumed messages are those that
    were relayed, each once and not before its time. *)
Record messaging_ok w : Prop := {
  ok_bus : bus_ok (bus w);
  ok_consumed : ∀ h, h ∈ messageConsumed (messenger w) →
    at0 (messageFinalityTimestamps (bus w)) h ≠ 0;
  ok_once : NoDup (relayHistory (messenger w)).*1;
  ok_relayed : ∀ m t, (m, t) ∈ relayHistory (messenger w) →
    messageHash m ∈ messageConsumed (messenger w) ∧ m ∈ stored (bus w) ∧
    0 < at0 (messageFinalityTimestamps (bus w)) (messageHash m) <= t
}.

(** What any call leaves of the past. *)
Record messaging_le w w' : Prop := {
  le_consumed : messageConsumed (messenger w) ⊆ messageConsumed (messenger w');
  le_log : busLog (bus w) `prefix_of` busLog (bus w');
  le_stored : stored (bus w) ⊆ stored (bus w');
  le_final : ∀ h, at0 (messageFinalityTimestamps (bus w)) h ≠ 0 →
    at0 (messageFinalityTimestamps (bus w')) h = at0 (messageFinalityTimestamps (bus w)) h
}.

Definition messaging_step w w' : Prop := messaging_ok w → messaging_ok w' ∧ messaging_le w w'.

Lemma messaging_le_refl w : messaging_le w w.
Proof. by split. Qed.

Lemma messaging_step_refl w : messaging_step w w.
Proof. intros ?. split; [done|apply messaging_le_refl]. Qed.

Lemma messaging_step_trans w1 w2 w3 :
  messaging_step w1 w2 → messaging_step w2 w3 → messaging_step w1 w3.
Proof.
  intros Hab Hbc [Hok [C12 L12 S12 F12]]%Hab. destruct (Hbc Hok) as [? [C23 L23 S23 F23]].
  split; [done|]. split; [by etrans|by etrans|by etrans|].
  intros h Hh. rewrite F23 by (by rewrite F12). by apply F12.
Qed.

(** Whatever leaves the bus and the consumed messages alone. *)
Lemma messaging_step_same w w' :
  bus w' = bus w → messageConsumed (messenger w') = messageConsumed (messenger w) →
  relayHistory (messenger w') = relayHistory (messenger w) → messaging_step w w'.
Proof.
  intros Hb Hc Hh [Ho Hk Hn Hr]. split; split; rewrite ?Hb, ?Hc, ?Hh; done.
Qed.

Lemma messaging_step_publish w s nonce topic payload level b n :
  publishMessage s nonce topic payload level (bus w) = Done (b, n) → messaging_step w (set_bus b w).
Proof.
  intros Hp [Ho Hk Hn Hr]. pose proof (publishMessage_ok _ _ _ _ _ _ _ _ Ho Hp).
  apply publishMessage_Done in Hp as (-> & _ & ->). split; split; cbn; try done.
  by apply prefix_app_r.
Qed.

Lemma messaging_step_store now w s m after b :
  0 < now → 0 <= after → storeCrossChainMessage now s m after (bus w) = Done b →
  messaging_step w (set_bus b w).
Proof.
  intros Hnow Hafter Hp [Ho Hk Hn Hr]. pose proof (storeCrossChainMessage_ok _ _ _ _ _ _ Hnow Hafter Ho Hp).
  apply storeCrossChainMessage_Done in Hp as (_ & Hz & Hst & Hts & _ & _ & Hlog & _).
  split; split; cbn; try done.
  - intros h Hh%Hk. rewrite Hts, at0_insert. case_decide; [lia|done].
  - intros m' t (Hc & Hin & Hle)%Hr. rewrite Hst, Hts, at0_insert. split; [done|]. split; [by right|].
    case_decide; [|done]. apply Hk in Hc. congruence.
  - by rewrite Hlog.
  - rewrite Hst. set_solver.
  - intros h Hh. rewrite Hts, at0_insert. case_decide; [congruence|done].
Qed.

Lemma pay_same s t v w w' : pay s t v w = Done w' →
  bus w' = bus w ∧ messenger w' = messenger w ∧ app w' = app w.
Proof. unfold pay. intros Hp. done_inv Hp. by simplify_eq. Qed.

Lemma messaging_step_pay s t v w w' : pay s t v w = Done w' → messaging_step w w'.
Proof. intros (Hb & Hm & _)%pay_same. apply messaging_step_same; [done|by rewrite Hm..]. Qed.

Lemma bus_call_step env s v d w w' :
  0 < block_timestamp env → bus_call env s v d w = Done w' → messaging_step w w'.
Proof.
  intros Hnow. unfold bus_call. destruct (decodeCalldata d) as [[]|] eqn:Hd; try done; intros Hc; done_inv Hc.
  - destruct r0 as [b n]. simplify_eq. by eapply messaging_step_publish.
  - simplify_eq. apply messaging_step_refl.
  - simplify_eq. apply messaging_step_refl.
  - simplify_eq. apply calldata_wf in Hd as [??]. by eapply messaging_step_store.
  - unfold bus_ownable in E0. done_inv E0. simplify_eq. intros [Ho Hk Hn Hr]. by destruct Ho.
Qed.

(** A message that is consumed is stored and final, and was not consumed before. *)
Lemma consumeMessage_Done env m w w' :
  messaging_ok w → consumeMessage env m w = Done w' →
  m ∈ stored (bus w) ∧ at0 (messageFinalityTimestamps (bus w)) (messageHash m) <= block_timestamp env ∧
  (messageHash m ∉ messageConsumed (messenger w)) ∧
  w' = set_messenger (mkMessenger (crossChainSender (messenger w))
          ({[messageHash m]} ∪ messageConsumed (messenger w))
          (relayHistory (messenger w) ++ [(m, block_timestamp env)])) w.
Proof.
  intros [Ho _ _ _]. unfold consumeMessage, verifyMessageFinalized. intros Hc. done_inv Hc.
  apply andb_true_iff in E as [E1%Z.ltb_lt E2%Z.leb_le]. apply bool_decide_eq_true in E0.
  split_and!; [|done|done|by simplify_eq].
  destruct (ok_final _ Ho (messageHash m)) as (m' & Hm' & Heq); [lia|]. by apply (inj messageHash) in Heq as ->.
Qed.

Lemma messaging_step_consume env m w w' : consumeMessage env m w = Done w' → messaging_step w w'.
Proof.
  intros Hc Hok. destruct (consumeMessage_Done _ _ _ _ Hok Hc) as (Hin & Hts & Hnew & ->).
  destruct Hok as [Ho Hk Hn Hr]. pose proof (ok_stored _ Ho m Hin) as Hpos.
  split; split; cbn; try done; [| | |apply union_subseteq_r].
  - intros h [->%elem_of_singleton|?]%elem_of_union; [lia|auto].
  - rewrite fmap_app. apply NoDup_app. split; [done|]. split; [|apply NoDup_singleton].
    intros m' ([m1 t] & Hm' & Hm)%list_elem_of_fmap Heq%list_elem_of_singleton. cbn in Hm'. subst m1. subst m'.
    by apply Hr in Hm as [? _].
  - intros m' t [(Hc' & ? & ?)%Hr|[= -> ->]%list_elem_of_singleton]%elem_of_app; (split; [|done]).
    + by apply elem_of_union_r.
    + by apply elem_of_union_l, elem_of_singleton.
Qed.

Lemma relayMessage_step env ext m w w' :
  (∀ t d w w', ext t d w = Done w' → messaging_step w w') →
  relayMessage ext env m w = Done w' → messaging_step w w'.
Proof.
  intros He. unfold relayMessage. intros Hr. done_inv Hr. simplify_eq.
  eapply messaging_step_trans; [by eapply messaging_step_consume|].
  apply (messaging_step_trans _ r1); [|by apply messaging_step_same].
  eapply messaging_step_trans, He, E1. by apply messaging_step_same.
Qed.

Lemma messenger_call_step env ext v d w w' :
  (∀ t d w w', ext t d w = Done w' → messaging_step w w') →
  messenger_call ext env v d w = Done w' → messaging_step w w'.
Proof.
  intros He. unfold messenger_call. destruct (decodeCalldata d) as [[]|]; try done; intros Hc; done_inv Hc;
    simplify_eq; eauto using relayMessage_step, messaging_step_refl.
Qed.

Lemma call_messaging depth env s t v d subs w w' :
  0 < block_timestamp env → call depth env s t v d subs w = Done w' → messaging_step w w'.
Proof.
  intros Hnow. apply (call_rule env messaging_step (λ _ _ _ _, messaging_step) (λ _ _, True)).
  - apply messaging_step_refl.
  - apply messaging_step_trans.
  - intros * Hp Hb. eapply messaging_step_trans; [by eapply messaging_step_pay|by eapply bus_call_step].
  - intros * He Hp Hm. eapply messaging_step_trans; [by eapply messaging_step_pay|].
    eapply messenger_call_step, Hm. eauto.
  - intros ext s' t' v' d' w0 w1 w2 He _ _ _ Hp Ha.
    eapply messaging_step_trans; [by eapply messaging_step_pay|].
    eapply (app_only messaging_step); [..|exact Ha];
      eauto using messaging_step_refl, messaging_step_trans, messaging_step_publish, messaging_step_store.
    intros w3 a. by apply messaging_step_same.
  - done.
  - done.
  - intros s' t' v' d' w0 w1 w2 Hp _ HR. eapply messaging_step_trans; [by eapply messaging_step_pay|done].
Qed.

(** No account has a negative balance. *)
Definition eth_ok w : Prop := ∀ x, 0 <= at0 (eth w) x.
Definition eth_step w w' : Prop := eth_ok w → eth_ok w'.

Lemma pay_eth s t v w w' x : pay s t v w = Done w' →
  0 <= v < 2 ^ 256 ∧ v <= at0 (eth w) s ∧ at0 (eth w') x = at0 (eth w) x - only s x v + only t x v.
Proof.
  unfold pay. intros Hp. done_inv Hp. simplify_eq. cbn.
  apply andb_true_iff in E as [?%Z.leb_le ?%Z.ltb_lt]. apply Z.leb_le in E0. split_and!; [lia..|].
  rewrite !at0_insert. unfold only. repeat (case_decide || case_bool_decide); subst; (lia || done).
Qed.

Lemma pay_eth_step s t v w w' : pay s t v w = Done w' → eth_step w w'.
Proof.
  intros Hp Hok x. destruct (pay_eth _ _ _ _ _ x Hp) as ([? _] & ? & ->). specialize (Hok x).
  unfold only. repeat case_bool_decide; subst; lia.
Qed.

Lemma pay_zero s t w : eth_ok w → ∃ w', pay s t 0 w = Done w' ∧ eth_ok w'.
Proof.
  intros Hok. destruct (pay s t 0 w) as [w'|] eqn:Hp; [exists w'; split; [done|by eapply pay_eth_step]|].
  unfold pay in Hp. cbn in Hp. by rewrite (proj2 (Z.leb_le _ _) (Hok s)) in Hp.
Qed.

Lemma call_eth depth env s t v d subs w w' : call depth env s t v d subs w = Done w' → eth_step w w'.
Proof.
  assert (∀ w1 w2 w3, eth_step w1 w2 → eth_step w2 w3 → eth_step w1 w3) as Htrans by (intros ???; unfold eth_step; auto).
  assert (∀ w w', eth w' = eth w → eth_step w w') as Hsame by (intros w0 w0' Heq; unfold eth_step, eth_ok; by rewrite Heq).
  apply (call_rule env eth_step (λ _ _ _ _, eth_step) (λ _ _, True)).
  - intros w0. by apply Hsame.
  - done.
  - intros s' v' d' w0 w1 w2 Hp Hb. eapply Htrans; [by eapply pay_eth_step|]. apply Hsame.
    unfold bus_call in Hb. destruct (decodeCalldata d') as [[]|]; try done; done_inv Hb; simplify_eq; try done.
    destruct r0. by simplify_eq.
  - intros ext s' v' d' w0 w1 w2 He Hp Hm. eapply Htrans; [by eapply pay_eth_step|]. unfold messenger_call in Hm.
    destruct (decodeCalldata d') as [[]|]; try done; done_inv Hm; simplify_eq; try by apply Hsame.
    unfold relayMessage, consumeMessage in Hm. done_inv Hm. done_inv E0. simplify_eq.
    match goal with Hx : ext _ _ ?wa = Done ?wb |- _ =>
      apply (Htrans _ wa); [by apply Hsame|]; apply (Htrans _ wb); [by eapply He, Hx|by apply Hsame] end.
  - intros ext s' t' v' d' w0 w1 w2 He _ _ _ Hp Ha. eapply Htrans; [by eapply pay_eth_step|].
    eapply (app_only eth_step); [..|exact Ha]; eauto; intros; by apply Hsame.
  - done.
  - done.
  - intros s' t' v' d' w0 w1 w2 Hp _ HR. eapply Htrans; [by eapply pay_eth_step|done].
Qed.

(** ** Histories of transactions *)

Definition tx_step w w' : Prop := ∃ now sender target value data subs,
  0 < now ∧ transact now sender target value data subs w = Done w'.

Lemma transact_messaging now s t v d subs w w' :
  0 < now → transact now s t v d subs w = Done w' → messaging_step w w'.
Proof. intros ?. by apply call_messaging. Qed.

Lemma history_messaging w w' : rtc tx_step w w' → messaging_step w w'.
Proof.
  induction 1 as [w|w1 w2 w3 (now & s & t & v & d & subs & Hnow & Hc) _ IH]; [apply messaging_step_refl|].
  eapply messaging_step_trans, IH. by eapply transact_messaging.
Qed.

(** A chain whose bus and messenger were just deployed. *)
Definition fresh_messaging w : Prop := ∃ a, bus w = newMessageBus a ∧ messenger w = newMessenger.

Lemma fresh_messaging_ok w : fresh_messaging w → messaging_ok w.
Proof. intros (a & Hb & Hm). split; rewrite ?Hb, ?Hm; [apply new_bus_ok|set_solver|constructor|]. by intros m t ?%elem_of_nil. Qed.

Lemma onlyCrossChainSender_Done s x w u :
  onlyCrossChainSender s x w = Done u → s = messengerAddr ∧ crossChainSender (messenger w) = x.
Proof.
  unfold onlyCrossChainSender. intros Ho. done_inv Ho. apply require_Done in Ho.
  by apply bool_decide_eq_true in E, Ho.
Qed.

(** A consumed message is not relayed. *)
Lemma relay_consumed env ext m w :
  messageHash m ∈ messageConsumed (messenger w) → ∀ w', relayMessage ext env m w ≠ Done w'.
Proof.
  intros Hin w'. unfold relayMessage, consumeMessage. intros Hr. apply bind_Done in Hr as (w1 & Hr & _).
  done_inv Hr. by apply bool_decide_eq_true in E0.
Qed.

Lemma call_relay depth env s v d subs m w w' :
  busAddr ≠ messengerAddr → decodeCalldata d = Some (RelayMessage m) →
  call depth env s messengerAddr v d subs w = Done w' →
  ∃ depth' w1, depth = S depth' ∧ pay s messengerAddr v w = Done w1 ∧
    relayMessage (λ t d, call depth' env messengerAddr t 0 d subs) env m w1 = Done w'.
Proof.
  intros Hne Hd. destruct depth as [|depth]; cbn; [done|]. intros Hc. done_inv Hc.
  rewrite bool_decide_false, bool_decide_true in Hc by done. unfold messenger_call in Hc. rewrite Hd in Hc.
  done_inv Hc. eauto.
Qed.

(** A relay that succeeds. *)
Lemma call_relay_done depth env s d subs m c w w1 w2 w3 :
  busAddr ≠ messengerAddr → decodeCalldata d = Some (RelayMessage m) →
  pay s messengerAddr 0 w = Done w1 → consumeMessage env m w1 = Done w2 →
  abi_decode (msg_payload m) = Some c →
  call depth env messengerAddr (cc_target c) 0 (cc_data c) subs (setCrossChainSender (msg_sender m) w2) = Done w3 →
  call (S depth) env s messengerAddr 0 d subs w = Done (setCrossChainSender 0 w3).
Proof.
  intros Hne Hd Hp Hc Hdec Hcall. cbn [call]. rewrite Hp. cbn [mbind outcome_bind].
  rewrite bool_decide_false, bool_decide_true by done. unfold messenger_call. rewrite Hd.
  unfold relayMessage. cbn. rewrite Hc, Hdec. cbn. by rewrite Hcall.
Qed.

(** A stored and final message that was not relayed can be consumed. *)
Lemma consumeMessage_succeeds env m w :
  messaging_ok w → m ∈ stored (bus w) → messageHash m ∉ messageConsumed (messenger w) →
  at0 (messageFinalityTimestamps (bus w)) (messageHash m) <= block_timestamp env →
  ∃ w', consumeMessage env m w = Done w' ∧ messaging_ok w' ∧ app w' = app w ∧ eth w' = eth w.
Proof.
  intros Hok Hin Hnc Hts.
  assert (∃ w', consumeMessage env m w = Done w') as [w' Hc].
  { unfold consumeMessage, verifyMessageFinalized. pose proof (ok_stored _ (ok_bus _ Hok) m Hin).
    rewrite (proj2 (Z.ltb_lt _ _)), (proj2 (Z.leb_le _ _)), bool_decide_true by done. by eexists. }
  exists w'. split; [done|]. split; [by apply (messaging_step_consume _ _ _ _ Hc)|].
  by apply consumeMessage_Done in Hc as (_ & _ & _ & ->).
Qed.
End messaging.

(** Numbering, uniqueness and delivery of messages, whatever contracts are called. *)
Section messages.
Context `{ContractsOk Ow App, !MessageHashOk, !OwnableOk Ow, !ABIOk}.
Implicit Types (w : Chain Ow App).

(** C22: whatever transactions are made and whatever contracts call, every message that was
    relayed, by a transaction or within one, had been stored on the bus by its owner at
    that time and was final when it was relayed; no message was relayed twice, and a
    transaction that relays it again reverts. *)
Theorem message_relayed_once w0 w :
  busAddr ≠ messengerAddr → fresh_messaging w0 → rtc tx_step w0 w →
  NoDup (relayHistory (messenger w)).*1 ∧
  ∀ m t, (m, t) ∈ relayHistory (messenger w) →
    (∃ o, mkStoreEntry o o m ∈ storeHistory (bus w)) ∧
    0 < at0 (messageFinalityTimestamps (bus w)) (messageHash m) <= t ∧
    ∀ now s v d subs w', decodeCalldata d = Some (RelayMessage m) →
      transact now s messengerAddr v d subs w ≠ Done w'.
Proof.
  intros Hne Hfresh%fresh_messaging_ok Hhist. apply history_messaging in Hhist as [[Hbus _ Hn Hr] _]; [done|].
  split; [done|]. intros m t (Hc & Hin & Hle)%Hr. split; [|split; [done|]].
  - destruct (ok_history _ Hbus m Hin) as ([c o m'] & He & Heq). cbn in Heq. subst m'.
    pose proof (ok_owner _ Hbus _ He) as Hown. cbn in Hown. subst c. by exists o.
  - intros now s v d subs w' Hd Hrun. unfold transact in Hrun.
    apply (call_relay _ _ _ _ _ _ m) in Hrun as (depth & w1 & _ & Hp & Hrel); [|done..].
    apply pay_same in Hp as (_ & Hm & _). eapply relay_consumed in Hrel; [done|]. by rewrite Hm.
Qed.

(** C23: the messages an account publishes are numbered from zero without gaps, in the order
    of the log, and their number fits 64 bits; no message is published or stored twice. *)
Theorem messages_numbered w0 w :
  fresh_messaging w0 → rtc tx_step w0 w →
  (∀ s, sequences_of s (busLog (bus w)) = seqZ 0 (at0 (addressSequences (bus w)) s) ∧
     0 <= at0 (addressSequences (bus w)) s < 2 ^ 64) ∧
  NoDup (busLog (bus w)) ∧ NoDup (stored (bus w)).
Proof.
  intros Hfresh%fresh_messaging_ok Hhist. apply history_messaging in Hhist as [[Hok _ _ _] _]; [done|].
  split_and!; [|by apply bus_log_nodup|by apply ok_nodup].
  intros s. split; [by apply ok_sequences|by apply ok_sequence_range].
Qed.
End messages.

(** ** The contracts on L1 and L2 *)

Section l1_ok.
Context `{MessageHash, Ownable Ow, ABI, ECDSARecover, AddressBytes, AccessControl R, ERC20 T,
  !Deployment (L1App R T), !L1Deployment}.

(** The changes the management contract makes to its state. *)
Inductive mgmt_moves (w : Chain Ow (L1App R T)) : Management → Prop :=
  | move_rollup r : mr_AggregatorID r ∈ attested (mgmt (app w)) →
      mgmt_moves w (AppendRollup r (mgmt (app w)))
  | move_init a h mg : mgmt_InitializeNetworkSecret a h (mgmt (app w)) = Done mg → mgmt_moves w mg
  | move_request s report : mgmt_moves w (mgmt_RequestNetworkSecret s report (mgmt (app w)))
  | move_respond a r sig secret h v mg :
      mgmt_RespondNetworkSecret a r sig secret h v (mgmt (app w)) = Done mg → mgmt_moves w mg.

(** What the functions of the bridge and of the management contract are made of. *)
Section parts.
Context (Rel : relation (Chain Ow (L1App R T))) (env : Env) (ext : Ext (Chain Ow (L1App R T))).
Hypothesis Rel_refl : ∀ w, Rel w w.
Hypothesis Rel_trans : ∀ w1 w2 w3, Rel w1 w2 → Rel w2 w3 → Rel w1 w3.
Hypothesis Rel_publish : ∀ w s nonce topic payload level b n,
  publishMessage s nonce topic payload level (bus w) = Done (b, n) → Rel w (set_bus b w).
Hypothesis Rel_store : ∀ w s m after b, 0 <= after →
  storeCrossChainMessage (block_timestamp env) s m after (bus w) = Done b → Rel w (set_bus b w).
Hypothesis Rel_mgmt : ∀ w mg, mgmt_moves w mg → Rel w (set_mgmt mg w).
Hypothesis Rel_bridge : ∀ w b, Rel w (set_bridge b w).
Hypothesis Rel_tokens : ∀ w ts, Rel w (set_tokens ts w).
Hypothesis Rel_ext : ∀ s t v d w w', ext s t v d w = Done w' → Rel w w'.

Lemma push_rel msgs w b : pushCrossChainMessages (block_timestamp env) msgs (bus w) = Done b → Rel w (set_bus b w).
Proof using Rel_refl Rel_trans Rel_store.
  revert w. induction msgs as [|m msgs IH]; intros w; cbn; intros Hp.
  - injection Hp as <-. destruct w. apply Rel_refl.
  - done_inv Hp. eapply Rel_trans; [eapply Rel_store, E; lia|]. apply (IH (set_bus r w) Hp).
Qed.

Lemma bridge_queue_rel topic data w w' : bridge_queue topic data w = Done w' → Rel w w'.
Proof using Rel_trans Rel_publish Rel_bridge.
  unfold bridge_queue. intros Hq. done_inv Hq. destruct r as [w1 n].
  apply queueMessage_Done in E as (b & k & Hp & -> & ->). simplify_eq. eapply Rel_trans; [by eapply Rel_publish|]. apply Rel_bridge.
Qed.

Lemma token_call_rel s asset c w w' : token_call s asset c w = Done w' → Rel w w'.
Proof using Rel_tokens. unfold token_call. intros Hc. done_inv Hc. simplify_eq. apply Rel_tokens. Qed.

Lemma mgmt_call_rel s v d w w' : mgmt_call env s v d w = Done w' → Rel w w'.
Proof using Rel_refl Rel_trans Rel_store Rel_mgmt.
  unfold mgmt_call. intros Hc. done_inv Hc. destruct (decodeCalldata d) as [[]|]; try done; done_inv Hc; simplify_eq;
    eauto using mgmt_moves.
  unfold mgmt_AddRollup in Hc. done_inv Hc. simplify_eq. apply bool_decide_eq_true in E0.
  eapply Rel_trans; [by apply Rel_mgmt, move_rollup|]. eapply push_rel. exact E1.
Qed.

Lemma bridge_call_rel s v d w w' : bridge_call ext s v d w = Done w' → Rel w w'.
Proof using Rel_refl Rel_trans Rel_publish Rel_bridge Rel_tokens Rel_ext.
  unfold bridge_call, bridge_sendNative, bridge_sendERC20, bridge_receiveAssets, bridge_promoteToAdmin,
    bridge_whitelistToken, bridge_removeToken, bridge_setRemoteBridge, _receiveTokens, _receiveNative.
  destruct (decodeCalldata d) as [[]|]; try done; intros Hc; done_inv Hc; simplify_eq;
    try apply Rel_bridge; eauto using bridge_queue_rel, token_call_rel.
  repeat case_match; [by eapply token_call_rel|by eapply Rel_ext|done].
Qed.
End parts.

#[export] Instance l1_contracts_ok : ContractsOk Ow (L1App R T).
Proof.
  intros Rel env ext s t v d w w' Hr Ht Hp Hs Ha He. cbn. unfold l1_call.
  repeat case_bool_decide; [eapply mgmt_call_rel; eauto; intros; apply Ha|eapply bridge_call_rel; eauto; intros; apply Ha|].
  unfold l1token_call. intros Hc. done_inv Hc.
  destruct (decodeCalldata d) as [[]|]; simplify_eq; eauto. eapply token_call_rel; [|done]. intros. apply Ha.
Qed.
End l1_ok.

Section l2_ok.
Context `{MessageHash, Ownable Ow, ABI, AccessControl R, ERC20 T, !Deployment (L2App R T), !L2Deployment}.

#[export] Instance l2_contracts_ok : ContractsOk Ow (L2App R T).
Proof.
  intros Rel env ext s t v d w w' Hr Ht Hp _ Ha _.
  assert (∀ topic data w w', ethBridge_queue topic data w = Done w' → Rel w w') as Hqueue.
  { unfold ethBridge_queue. intros topic data w1 w2 Hq. done_inv Hq. destruct r as [w3 n].
    apply queueMessage_Done in E as (b & k & Hpub & -> & ->). simplify_eq. eapply Ht; [by eapply Hp|]. apply Ha. }
  assert (∀ s a c w w', l2token_call env s a c w = Done w' → Rel w w') as Htoken.
  { unfold l2token_call. intros s1 a c w1 w2 Hc. done_inv Hc. simplify_eq. apply Ha. }
  cbn. unfold l2_call. case_bool_decide; [|intros Hc; done_inv Hc; by eapply Htoken].
  unfold ethBridge_call, onCreateTokenCommand, ethBridge_sendNative, ethBridge_sendERC20, ethBridge_receiveAssets.
  destruct (decodeCalldata d) as [[]|]; try done; intros Hc; done_inv Hc; simplify_eq; eauto.
Qed.
End l2_ok.
