(* ===== verification/ManagementSpec.v ===== *)
(** * The management contract

    What holds of its state in every history of transactions on L1, and what anyone can
    make it accept. *)

From S2P Require Import Prelude Types Codec Bytes Solidity MessageBusContract ContractCalls L1Contracts ContractsSpec.
Local Open Scope Z_scope.

Section management.
Context `{MessageHash, Ownable Ow, ABI, ECDSARecover, AddressBytes, AccessControl R, ERC20 T,
  !Deployment (L1App R T), !L1Deployment, !MessageHashOk, !OwnableOk Ow, !ABIOk}.
Implicit Types (w : Chain Ow (L1App R T)) (mg : Management) (s : Address).

(** Rollups are found under their hash and do not go beyond the last sequence number;
    the secret of the network is initialised at most once, and nobody is attested
    before. *)
Record mgmt_ok mg : Prop := {
  ok_rollups : ∀ h r, rollups_byHash mg !! h = Some r →
    mr_Hash r = h ∧ mr_LastSequenceNumber r <= lastBatchSeqNo mg;
  ok_attested : networkSecretInitialized mg = false → attested mg = ∅ ∧ hostAddresses mg = [];
  ok_initialized : length (initHistory mg) = if networkSecretInitialized mg then 1%nat else 0%nat
}.

(** What later states keep. *)
Record mgmt_le mg mg' : Prop := {
  le_attested : attested mg ⊆ attested mg';
  le_hosts : hostAddresses mg `prefix_of` hostAddresses mg';
  le_initialized : networkSecretInitialized mg = true →
    networkSecretInitialized mg' = true ∧ initHistory mg' = initHistory mg;
  le_seqNo : lastBatchSeqNo mg <= lastBatchSeqNo mg';
  le_rollups : dom (rollups_byHash mg) ⊆ dom (rollups_byHash mg');
  le_withdrawal : isWithdrawalAvailable mg' = isWithdrawalAvailable mg
}.

Definition mgmt_step mg mg' : Prop := mgmt_ok mg → mgmt_ok mg' ∧ mgmt_le mg mg'.

Lemma mgmt_step_refl mg : mgmt_step mg mg.
Proof. intros ?. split; [done|]. by split. Qed.

Lemma mgmt_step_trans mg1 mg2 mg3 : mgmt_step mg1 mg2 → mgmt_step mg2 mg3 → mgmt_step mg1 mg3.
Proof.
  intros Hab Hbc [Hok [? ? I1 ? ? ?]]%Hab. destruct (Hbc Hok) as [? [? ? I2 ? ? ?]]. split; [done|].
  split; [by etrans|by etrans| |by etrans|by etrans|by etrans].
  intros [Hi <-]%I1. by apply I2.
Qed.

Lemma mgmt_moves_step w mg : mgmt_moves w mg → mgmt_step (mgmt (app w)) mg.
Proof.
  intros Hm [Hr Ha Hi0]. destruct Hm as [r Hin|a h mg Hi|s report|a r sig secret h v mg Hres].
  - split; split; cbn; try done.
    + intros h r'. destruct (decide (h = mr_Hash r)) as [->|].
      * rewrite lookup_insert_eq. intros [= <-]. split; [done|]. destruct (_ <? _) eqn:Hlt; [done|]. apply Z.ltb_ge in Hlt. done.
      * rewrite lookup_insert_ne by done. intros [? Hle]%Hr. split; [done|]. destruct (_ <? _) eqn:Hlt; [apply Z.ltb_lt in Hlt; lia|done].
    + destruct (_ <? _) eqn:Hlt; [apply Z.ltb_lt in Hlt; lia|done].
    + rewrite dom_insert. apply union_subseteq_r.
  - unfold mgmt_InitializeNetworkSecret in Hi. done_inv Hi. simplify_eq. apply negb_true_iff in E.
    split; split; cbn; try done; [|apply union_subseteq_r|by apply prefix_app_r|by rewrite E].
    by rewrite length_app, Hi0, E.
  - split; split; cbn; done.
  - unfold mgmt_RespondNetworkSecret in Hres. done_inv Hres. simplify_eq. apply bool_decide_eq_true in E.
    split; split; cbn; try done; [|apply union_subseteq_r|by apply prefix_app_r].
    intros [Hemp _]%Ha. rewrite Hemp in E. by apply elem_of_empty in E.
Qed.

Lemma call_mgmt depth env s t v d subs w w' :
  call depth env s t v d subs w = Done w' → mgmt_step (mgmt (app w)) (mgmt (app w')).
Proof.
  apply (call_rule env (λ w w', mgmt_step (mgmt (app w)) (mgmt (app w')))
    (λ _ _ _ _ w w', mgmt_step (mgmt (app w)) (mgmt (app w'))) (λ _ _, True)).
  - intros. apply mgmt_step_refl.
  - intros. by eapply mgmt_step_trans.
  - intros s' v' d' w0 w1 w2 (_&_&<-)%pay_same Hb. replace (app w2) with (app w1); [apply mgmt_step_refl|].
    unfold bus_call in Hb. destruct (decodeCalldata d') as [[]|]; try done; done_inv Hb; simplify_eq; try done.
    destruct r0. by simplify_eq.
  - intros ext s' v' d' w0 w1 w2 He (_&_&<-)%pay_same Hm. unfold messenger_call in Hm.
    destruct (decodeCalldata d') as [[]|]; try done; done_inv Hm; simplify_eq; try apply mgmt_step_refl.
    unfold relayMessage, consumeMessage in Hm. done_inv Hm. done_inv E0. simplify_eq.
    match goal with Hx : ext _ _ _ = Done _ |- _ => by apply He in Hx end.
  - intros ext s' t' v' d' w0 w1 w2 He _ _ _ (_&_&<-)%pay_same. cbn. unfold l1_call.
    pose (Rel := λ w w' : Chain Ow (L1App R T), mgmt_step (mgmt (app w)) (mgmt (app w'))).
    case_bool_decide; [|case_bool_decide].
    + intros Hc. eapply (mgmt_call_rel Rel); [..|exact Hc]; unfold Rel; intros; try apply mgmt_step_refl.
      * by eapply mgmt_step_trans.
      * by apply mgmt_moves_step.
    + intros Hc. eapply (bridge_call_rel Rel); [..|exact Hc]; unfold Rel; intros; try apply mgmt_step_refl.
      * by eapply mgmt_step_trans.
      * by eapply He.
    + unfold l1token_call, token_call. intros Hc. done_inv Hc.
      destruct (decodeCalldata d') as [[]|]; done_inv Hc; simplify_eq; apply mgmt_step_refl.
  - done.
  - done.
  - intros s' t' v' d' w0 w1 w2 (_&_&<-)%pay_same _ HR. done.
Qed.

(** C24: in every history of the contract its rollups are found under their hash, up to the
    last sequence number, which never falls; attestations, hosts and rollups are never
    removed; [InitializeNetworkSecret] succeeds at most once, within whatever calls, and
    nobody is attested before. *)
Theorem management_history w0 w w' :
  mgmt (app w0) = newManagement → rtc tx_step w0 w → rtc tx_step w w' →
  mgmt_ok (mgmt (app w)) ∧ mgmt_le (mgmt (app w)) (mgmt (app w')).
Proof.
  assert (∀ u u' : Chain Ow (L1App R T), rtc tx_step u u' → mgmt_step (mgmt (app u)) (mgmt (app u'))) as Hstep.
  { induction 1 as [u|u1 u2 u3 (now & s & t & v & d & subs & _ & Hc) _ IH]; [apply mgmt_step_refl|].
    eapply mgmt_step_trans, IH. unfold transact in Hc. by eapply call_mgmt. }
  intros Hnew H1'%Hstep H2'%Hstep. rewrite Hnew in H1'. destruct H1' as [Hok _].
  { split; [intros h r Hr; cbn in Hr; by rewrite lookup_empty in Hr|done..]. }
  split; [done|]. by apply H2'.
Qed.

(** The signed bytes do not tell where the address of the host ends. *)
Lemma packResponse_split attester requester host suffix secret :
  packResponse attester requester (host ++ suffix) secret =
  packResponse attester requester host (ascii_bytes suffix ++ secret).
Proof.
  assert (ascii_bytes (host ++ suffix) = ascii_bytes host ++ ascii_bytes suffix) as Happ.
  { unfold ascii_bytes. rewrite <-fmap_app. f_equal. induction host as [|x host IH]; [done|].
    change (x :: String.list_ascii_of_string (host ++ suffix) =
      x :: (String.list_ascii_of_string host ++ String.list_ascii_of_string suffix)). by f_equal. }
  unfold packResponse. by rewrite Happ, <-app_assoc.
Qed.

(** C39: the caller of [RespondNetworkSecret] decides whether the attester has to sign, so
    anyone can attest anyone in its name; and a signature for an address of a host is
    accepted for every prefix of this address, with another secret. *)
Theorem attestation_unbound attester requester mg :
  attester ∈ attested mg →
  (∀ sig secret host, ∃ mg',
     mgmt_RespondNetworkSecret attester requester sig secret host false mg = Done mg' ∧
     requester ∈ attested mg') ∧
  (∀ sig secret host suffix mg',
     mgmt_RespondNetworkSecret attester requester sig secret (host ++ suffix) true mg = Done mg' →
     ∃ mg'', mgmt_RespondNetworkSecret attester requester sig (ascii_bytes suffix ++ secret) host true mg = Done mg'' ∧
       hostAddresses mg'' = hostAddresses mg ++ [host]).
Proof.
  intros Hin. unfold mgmt_RespondNetworkSecret. rewrite bool_decide_true by done. cbn [require mbind outcome_bind]. split.
  - intros sig secret host. eexists. split; [done|]. cbn. set_solver.
  - intros sig secret host suffix mg' Hr. rewrite <-packResponse_split. done_inv Hr.
    rewrite E. cbn [mbind outcome_bind]. by eexists.
Qed.
End management.
