(* ===== verification/BridgeFlow.v ===== *)
(** * What the bridges send each other

    The amounts in the messages of a bridge: what it has sent ([sent]) and what
    has been claimed from it ([withdrawn]), as sums over the log of the bus and over
    the consumed messages, and how the operations of bus and messenger change
    them. *)

From S2P Require Import Prelude Types Codec Solidity MessageBusContract ContractCalls ContractsSpec.
Local Open Scope Z_scope.

(** ** Sums *)

Section sums.
Context {A : Type}.
Implicit Types (f : A → Z) (l : list A).

Fixpoint sumZ f l : Z :=
  match l with [] => 0 | x :: l => f x + sumZ f l end.

Lemma sumZ_app f l1 l2 : sumZ f (l1 ++ l2) = sumZ f l1 + sumZ f l2.
Proof. induction l1 as [|x l1 IH]; cbn; [done|]. rewrite IH. lia. Qed.

#[export] Instance sumZ_perm f : Proper ((≡ₚ) ==> (=)) (sumZ f).
Proof. induction 1; cbn in *; lia. Qed.

Lemma sumZ_nonneg f l : (∀ x, x ∈ l → 0 <= f x) → 0 <= sumZ f l.
Proof.
  induction l as [|x l IH]; cbn; [done|]. intros Hf.
  apply Z.add_nonneg_nonneg; [apply Hf; left|]. apply IH. intros y Hy. apply Hf. by right.
Qed.

Lemma sumZ_ext f g l : (∀ x, x ∈ l → f x = g x) → sumZ f l = sumZ g l.
Proof.
  induction l as [|x l IH]; cbn; [done|]. intros Hf.
  rewrite (Hf x) by left. rewrite IH; [done|]. intros y Hy. apply Hf. by right.
Qed.

(** A part of a list without duplicates sums to less. *)
Lemma sumZ_subset f l1 l2 :
  (∀ x, 0 <= f x) → NoDup l1 → l1 ⊆ l2 → sumZ f l1 <= sumZ f l2.
Proof.
  intros Hf Hnd Hsub. apply NoDup_submseteq in Hsub; [|done]. apply submseteq_Permutation in Hsub as [k ->].
  rewrite sumZ_app. assert (0 <= sumZ f k) by (by apply sumZ_nonneg). lia.
Qed.

(** Filters that differ at one element. *)
Lemma sumZ_filter_mono f (P Q : A → Prop) `{∀ x, Decision (P x), ∀ x, Decision (Q x)} l :
  (∀ x, 0 <= f x) → (∀ x, P x → Q x) → sumZ f (filter P l) <= sumZ f (filter Q l).
Proof.
  intros Hf HPQ. induction l as [|x l IH]; [done|]. rewrite !filter_cons.
  pose proof (Hf x). repeat case_decide; cbn; (lia || naive_solver).
Qed.

Lemma sumZ_filter_more f (P Q : A → Prop) `{∀ x, Decision (P x), ∀ x, Decision (Q x)} l y :
  (∀ x, 0 <= f x) → (∀ x, P x → Q x) → y ∈ l → ¬ P y → Q y →
  sumZ f (filter P l) + f y <= sumZ f (filter Q l).
Proof.
  intros Hf HPQ Hy HP HQ. induction l as [|x l IH]; [by apply elem_of_nil in Hy|].
  rewrite !filter_cons. apply elem_of_cons in Hy as [<-|Hy].
  - rewrite decide_False, decide_True by done. cbn. pose proof (sumZ_filter_mono f P Q l Hf HPQ). lia.
  - specialize (IH Hy). pose proof (Hf x). repeat case_decide; cbn; (lia || naive_solver).
Qed.
End sums.

Lemma only_add x y n m : only x y (n + m) = only x y n + only x y m.
Proof. unfold only. by case_bool_decide. Qed.

Lemma only_nonneg x y n : 0 <= n → 0 <= only x y n.
Proof. unfold only. by case_bool_decide. Qed.

(** ** Steps with a price

    A step keeps what is known and lowers a value by at most [d]. *)

Section costs.
Context {W : Type} (good : W → Prop) (val : W → Z).
Implicit Types (w : W) (d : Z).

Definition costs d w w' : Prop := good w → good w' ∧ val w - d <= val w'.

Lemma costs_trans d1 d2 d w1 w2 w3 : costs d1 w1 w2 → costs d2 w2 w3 → d1 + d2 <= d → costs d w1 w3.
Proof. intros Hx Hy Hd Hg. destruct (Hx Hg) as [Hg' ?]. destruct (Hy Hg') as [? ?]. split; [done|lia]. Qed.

Lemma costs_weaken d1 d w w' : costs d1 w w' → d1 <= d → costs d w w'.
Proof. intros Hx Hd Hg. destruct (Hx Hg). split; [done|lia]. Qed.

Lemma costs_refl d w : 0 <= d → costs d w w.
Proof. intros ??. split; [done|lia]. Qed.
End costs.

Section flow.
Context `{MessageHash, Ownable Ow, ABI, !MessageHashOk, !ABIOk} {App : Type}.
Implicit Types (w : Chain Ow App) (m : CrossChainMessage) (b a : Address).

(** ** The transfer a message stands for *)

(** The target, the asset and the amount. *)
Definition transferOf m : option (Address * Address * Z) :=
  c ← abi_decode (msg_payload m);
  match decodeCalldata (cc_data c) with
  | Some (ReceiveAssets asset amount _) => Some (cc_target c, asset, amount)
  | _ => None
  end.

Definition amount a m : Z :=
  match transferOf m with Some (_, asset, n) => only asset a n | None => 0 end.

Definition amountTo b a m : Z :=
  match transferOf m with
  | Some (target, asset, n) => if bool_decide (target = b) then only asset a n else 0
  | None => 0
  end.

Lemma transferOf_range m target asset n : transferOf m = Some (target, asset, n) → 0 <= n.
Proof.
  unfold transferOf. destruct (abi_decode _) as [c|]; cbn; [|done].
  destruct (decodeCalldata _) as [[]|] eqn:Hd; try done. intros [= <- <- <-].
  by apply calldata_wf in Hd as [? _].
Qed.

Lemma amount_nonneg a m : 0 <= amount a m.
Proof.
  unfold amount, only. destruct (transferOf m) as [[[t x] n]|] eqn:Ht; [|done].
  apply transferOf_range in Ht. by case_bool_decide.
Qed.

Lemma amountTo_le b a m : 0 <= amountTo b a m <= amount a m.
Proof.
  pose proof (amount_nonneg a m). unfold amountTo, amount in *. destruct (transferOf m) as [[[t x] n]|]; [|done].
  case_bool_decide; lia.
Qed.

Definition sent b a w : Z := sumZ (amount a) (filter (λ m, msg_sender m = b) (busLog (bus w))).

Definition consumed w : list CrossChainMessage :=
  filter (λ m, messageHash m ∈ messageConsumed (messenger w)) (stored (bus w)).

Definition withdrawn b a w : Z := sumZ (amountTo b a) (consumed w).

Lemma sent_nonneg b a w : 0 <= sent b a w.
Proof. apply sumZ_nonneg. intros. apply amount_nonneg. Qed.

(** ** How they change *)

(** Publishing counts for the bridge that publishes. *)
Lemma sent_publish b a w s nonce topic payload level bs n :
  publishMessage s nonce topic payload level (bus w) = Done (bs, n) →
  sent b a (set_bus bs w) =
    sent b a w + (if bool_decide (s = b) then amount a (mkMessage s n nonce topic payload level) else 0).
Proof.
  intros (-> & _ & ->)%publishMessage_Done. unfold sent. cbn. rewrite filter_app, sumZ_app. f_equal.
  rewrite filter_cons. cbn. case_bool_decide; [rewrite decide_True by done|rewrite decide_False by done]; cbn; lia.
Qed.

Lemma withdrawn_publish b a w s nonce topic payload level bs n :
  publishMessage s nonce topic payload level (bus w) = Done (bs, n) →
  withdrawn b a (set_bus bs w) = withdrawn b a w.
Proof. by intros (-> & _ & ->)%publishMessage_Done. Qed.

(** Storing a message claims nothing. *)
Lemma withdrawn_store b a w now s m after bs :
  messaging_ok w → storeCrossChainMessage now s m after (bus w) = Done bs →
  withdrawn b a (set_bus bs w) = withdrawn b a w.
Proof.
  intros [_ Hk _ _] (_ & Hz & Hst & _)%storeCrossChainMessage_Done. unfold withdrawn, consumed. cbn.
  rewrite Hst, filter_cons_False; [done|]. by intros ?%Hk.
Qed.

Lemma sent_store b a w now s m after bs :
  storeCrossChainMessage now s m after (bus w) = Done bs → sent b a (set_bus bs w) = sent b a w.
Proof. intros (_ & _ & _ & _ & _ & _ & Hlog & _)%storeCrossChainMessage_Done. unfold sent. cbn. by rewrite Hlog. Qed.

(** Consuming a message claims the amount in it. *)
Lemma withdrawn_consume b a env m w w' :
  messaging_ok w → consumeMessage env m w = Done w' →
  withdrawn b a w + amountTo b a m <= withdrawn b a w'.
Proof.
  intros Hok Hc. destruct (consumeMessage_Done _ _ _ _ Hok Hc) as (Hin & _ & Hn & ->).
  unfold withdrawn, consumed. cbn. apply sumZ_filter_more; [|set_solver|done|done|set_solver].
  intros x. apply amountTo_le.
Qed.

(** Neither depends on anything but the bus and the consumed messages. *)
Lemma flow_same b a w w' :
  bus w' = bus w → messageConsumed (messenger w') = messageConsumed (messenger w) →
  sent b a w' = sent b a w ∧ withdrawn b a w' = withdrawn b a w ∧ consumed w' = consumed w.
Proof. intros Hb Hm. unfold sent, withdrawn, consumed. by rewrite Hb, Hm. Qed.

(** The message a bridge queues for a transfer. *)
Lemma transferOf_queue s n nonce topic level target asset k receiver gas :
  is_u256 k →
  transferOf (mkMessage s n nonce topic
    (abi_encode (mkCrossChainCall target (encodeWithSelector (ReceiveAssets asset k receiver)) gas)) level)
  = Some (target, asset, k).
Proof. intros Hk. unfold transferOf. cbn. rewrite crossChainCall_roundtrip. cbn. by rewrite calldata_roundtrip. Qed.
Lemma messaging_ok_same w w' :
  messaging_ok w → bus w' = bus w → messageConsumed (messenger w') = messageConsumed (messenger w) →
  relayHistory (messenger w') = relayHistory (messenger w) → messaging_ok w'.
Proof. intros Hok Hb Hm Hh. by apply (messaging_step_same w w'). Qed.

(** The amount of a transfer in calldata. *)
Definition amountData a (d : bytes) : Z :=
  match decodeCalldata d with Some (ReceiveAssets asset n _) => only asset a n | _ => 0 end.

Lemma amountData_nonneg a d : 0 <= amountData a d.
Proof.
  unfold amountData. destruct (decodeCalldata d) as [[]|] eqn:Hd; try done.
  apply calldata_wf in Hd as [? _]. unfold only. by case_bool_decide.
Qed.

Lemma amount_queue a s n nonce topic target d gas level :
  amount a (mkMessage s n nonce topic (abi_encode (mkCrossChainCall target d gas)) level) = amountData a d.
Proof.
  unfold amount, transferOf, amountData. cbn. rewrite crossChainCall_roundtrip. cbn.
  by destruct (decodeCalldata d) as [[]|].
Qed.

(** ** Claims

    Relayed transfers to a bridge [b] come from the bridge [remote] only. *)

Definition claims_ok b (remote : Address) w : Prop := ∀ m asset n,
  m ∈ consumed w → transferOf m = Some (b, asset, n) → msg_sender m = remote.

Lemma claims_same b remote w w' :
  bus w' = bus w → messageConsumed (messenger w') = messageConsumed (messenger w) →
  claims_ok b remote w → claims_ok b remote w'.
Proof. intros Hb Hm. unfold claims_ok, consumed. by rewrite Hb, Hm. Qed.

Lemma claims_store b remote w now s m after bs :
  messaging_ok w → storeCrossChainMessage now s m after (bus w) = Done bs →
  claims_ok b remote w → claims_ok b remote (set_bus bs w).
Proof.
  intros [_ Hk _ _] (_ & Hz & Hst & _)%storeCrossChainMessage_Done Hc m' asset n Hin. apply Hc.
  unfold consumed in *. cbn in Hin. rewrite Hst, filter_cons_False in Hin; [done|]. by intros ?%Hk.
Qed.

(** Consuming a message leaves a claim to be checked if the message is one. *)
Lemma claims_consume b remote env m w w' :
  messaging_ok w → claims_ok b remote w → consumeMessage env m w = Done w' →
  claims_ok b remote w' ∨ msg_sender m ≠ remote ∧ ∃ asset n, transferOf m = Some (b, asset, n).
Proof.
  intros Hok Hcl Hc. destruct (consumeMessage_Done _ _ _ _ Hok Hc) as (_ & _ & _ & ->).
  destruct (decide (msg_sender m = remote ∨ (λ x, (x.1).1) <$> transferOf m ≠ Some b)) as [Hm|Hm].
  - left. intros m' asset n [[->%elem_of_singleton%(inj messageHash)|Hin]%elem_of_union Hst]%list_elem_of_filter Ht.
    + destruct Hm as [|Hm]; [done|]. by rewrite Ht in Hm.
    + by eapply Hcl; [apply list_elem_of_filter|].
  - right. destruct (transferOf m) as [[[t asset] n]|]; cbn in Hm; [|naive_solver].
    split; [naive_solver|]. exists asset, n. repeat f_equal. apply dec_stable. naive_solver.
Qed.

(** The amount a call with the given target and calldata claims. *)
Definition claimOf b a (t : Address) (d : bytes) : Z := if bool_decide (t = b) then amountData a d else 0.

Lemma amountTo_claim b a m c :
  abi_decode (msg_payload m) = Some c → amountTo b a m = claimOf b a (cc_target c) (cc_data c).
Proof.
  intros Hc. unfold amountTo, claimOf, transferOf, amountData. rewrite Hc. cbn.
  by destruct (decodeCalldata (cc_data c)) as [[]|]; case_bool_decide.
Qed.
End flow.

(** ** Relaying for a bridge

    A value that grows by what is claimed does not fall when a message is relayed, if
    the call the messenger makes costs at most the claim. *)

Section relay.
Context `{MessageHash, Ownable Ow, ABI, !MessageHashOk, !ABIOk} {App : Type}
  (inv : Chain Ow App → Prop) (val : Chain Ow App → Z) (b remote a : Address).
Implicit Types (w : Chain Ow App).

Hypothesis inv_messaging_ok : ∀ w, inv w → messaging_ok w.
Hypothesis inv_set_messenger : ∀ ms w, inv w → messaging_ok (set_messenger ms w) → inv (set_messenger ms w).
Hypothesis val_set_messenger : ∀ ms w,
  val (set_messenger ms w) - val w = withdrawn b a (set_messenger ms w) - withdrawn b a w.

(** A relayed transfer to the bridge whose sender is still to be checked. *)
Definition unchecked (t : Address) (d : bytes) w : Prop :=
  t = b ∧ crossChainSender (messenger w) ≠ remote ∧
  ∃ asset n receiver, decodeCalldata d = Some (ReceiveAssets asset n receiver).

Definition relayed_ok (t : Address) (d : bytes) w w' : Prop :=
  inv w → claims_ok b remote w ∨ unchecked t d w →
  (inv w' ∧ claims_ok b remote w') ∧ val w - claimOf b a t d <= val w'.

Lemma inv_setCrossChainSender x w :
  inv w → inv (setCrossChainSender x w) ∧ val (setCrossChainSender x w) = val w.
Proof using All.
  intros Hi. split; [apply inv_set_messenger; [done|]; by eapply messaging_ok_same; [by apply inv_messaging_ok|..]|].
  pose proof (val_set_messenger (mkMessenger x (messageConsumed (messenger w)) (relayHistory (messenger w))) w) as Hv.
  unfold withdrawn, consumed in Hv. cbn in Hv. unfold setCrossChainSender. lia.
Qed.

Lemma relay_costs env ext m w w' :
  (∀ t d w w', ext t d w = Done w' → relayed_ok t d w w') →
  relayMessage ext env m w = Done w' → costs (λ w, inv w ∧ claims_ok b remote w) val 0 w w'.
Proof using All.
  intros He Hr [Hi Hcl]. unfold relayMessage in Hr. done_inv Hr. simplify_eq. rename r into w1, r0 into c, r1 into w2.
  pose proof (inv_messaging_ok _ Hi) as Hok. pose proof (messaging_step_consume _ _ _ _ E Hok) as [Hok1 _].
  pose proof (withdrawn_consume b a _ _ _ _ Hok E) as Hw. pose proof (claims_consume _ _ _ _ _ _ Hok Hcl E) as Hcl1.
  assert (inv w1 ∧ val w + amountTo b a m <= val w1) as [Hi1 Hv1].
  { destruct (consumeMessage_Done _ _ _ _ Hok E) as (_ & _ & _ & ->). split; [by apply inv_set_messenger|].
    match goal with |- _ <= val (set_messenger ?ms w) => pose proof (val_set_messenger ms w) end. lia. }
  destruct (inv_setCrossChainSender (msg_sender m) w1 Hi1) as [Hi1' Hv1'].
  rewrite (amountTo_claim _ _ _ _ E0) in Hv1.
  destruct (He _ _ _ _ E1 Hi1') as [[Hi2 Hc2] Hv2].
  - destruct Hcl1 as [Hcl1|(Hne & asset & n & Ht)]; [left; by eapply claims_same|right].
    unfold transferOf in Ht. rewrite E0 in Ht. cbn in Ht.
    destruct (decodeCalldata (cc_data c)) as [[]|] eqn:Hd; simplify_eq. split_and!; eauto.
  - destruct (inv_setCrossChainSender 0 w2 Hi2) as [? Hv3]. split; [split; [done|by eapply claims_same]|]. lia.
Qed.
End relay.
