(* ===== verification/L1BridgeSpec.v ===== *)
(** * The bridge on L1 keeps what it owes

    What the bridge on L1 holds of an asset covers what was sent to it and not claimed
    yet, whatever contracts are called, in whatever order and however they call each
    other back: [l1_call_rule] carries this and the invariant [l1_good] through every
    call. *)

From S2P Require Import Prelude Types Codec Bytes Solidity MessageBusContract ContractCalls L1Contracts ContractsSpec BridgeFlow.
Local Open Scope Z_scope.

(** The contracts have distinct addresses; the administrator is an account without
    code. *)
Class L1DeploymentOk (App : Type) (admin l2Bridge : Address) `{Deployment App, L1Deployment} : Prop := {
  l1_distinct : NoDup [busAddr; messengerAddr; mgmtAddr; bridgeAddr; admin];
  l1_nonzero : bridgeAddr ≠ 0;
  l1_admin_account : hasCode admin = false;
  l1_l2Bridge : l2Bridge ≠ 0
}.

Section l1_spec.
Context `{MessageHash, Ownable Ow, ABI, ECDSARecover, AddressBytes, AccessControl R, ERC20 T,
  !Deployment (L1App R T), !L1Deployment, !MessageHashOk, !OwnableOk Ow, !ABIOk, !AccessControlOk R, !ERC20Ok T}
  (admin l2Bridge : Address) {Hdep : L1DeploymentOk (L1App R T) admin l2Bridge}.
Implicit Types (w : Chain Ow (L1App R T)) (a s t : Address).

Local Abbreviation roles w := (bridgeRoles (obscuroBridge (app w))).

(** What the bridge holds of an asset; the zero address stands for the native
    currency. *)
Definition locked a w : Z :=
  if bool_decide (a = 0) then at0 (eth w) bridgeAddr
  else match l1Tokens (app w) !! a with Some t => balance t bridgeAddr | None => 0 end.

(** What it holds beyond what it owes. *)
Definition surplus a w : Z := locked a w + withdrawn bridgeAddr a w - sent bridgeAddr a w.

Record l1_inv w : Prop := {
  inv_messaging : messaging_ok w;
  inv_native : ∀ x, hasRole (roles w) NATIVE_TOKEN_ROLE x = true → x = 0;
  inv_default : ∀ x, hasRole (roles w) DEFAULT_ADMIN_ROLE x = false;
  inv_admin : ∀ x, hasRole (roles w) ADMIN_ROLE x = true → x = admin;
  inv_remote : remoteBridgeAddress (obscuroBridge (app w)) = l2Bridge;
  inv_tokens : ∀ x tk, l1Tokens (app w) !! x = Some tk → x ≠ 0 ∧ unspendable tk bridgeAddr
}.

Lemma l1_inv_app w w' : l1_inv w → app w' = app w → messaging_ok w' → l1_inv w'.
Proof. intros [] Ha ?. split; rewrite ?Ha; done. Qed.

Local Abbreviation claims := (claims_ok bridgeAddr l2Bridge).

Definition l1_good w : Prop := l1_inv w ∧ claims w.

Local Abbreviation l1_costs a := (costs l1_good (surplus a)).

(** ** The parts of a call *)

(** Steps that leave bus, messenger and bridge as they are. *)
Lemma costs_same a d w w' :
  bus w' = bus w → messenger w' = messenger w →
  obscuroBridge (app w') = obscuroBridge (app w) → l1Tokens (app w') = l1Tokens (app w) →
  (bool_decide (a = 0) = true → at0 (eth w) bridgeAddr - d <= at0 (eth w') bridgeAddr) →
  (a ≠ 0 → 0 <= d) → l1_costs a d w w'.
Proof.
  intros Hb Hm Ho Ht He Ha [[Hi1 Hi2 Hi3 Hi4 Hi5 Hi6] Hc]. destruct (flow_same bridgeAddr a w w' Hb) as (Hp & Hw & Hcons); [by rewrite Hm|].
  split; [split; [split|]|].
  - by apply (messaging_step_same w w'); rewrite ?Hm.
  - by rewrite Ho.
  - by rewrite Ho.
  - by rewrite Ho.
  - by rewrite Ho.
  - by rewrite Ht.
  - by apply (claims_same _ _ w w'); rewrite ?Hm.
  - unfold surplus, locked. rewrite Hp, Hw, Ht. case_bool_decide; [specialize (He eq_refl)|specialize (Ha ltac:(done))]; lia.
Qed.

Lemma costs_pay a s t v w w' :
  pay s t v w = Done w' → l1_costs a (only 0 a (only s bridgeAddr v - only t bridgeAddr v)) w w'.
Proof.
  intros Hp. destruct (pay_same _ _ _ _ _ Hp) as (Hb & Hm & Ha).
  pose proof (pay_eth _ _ _ _ _ bridgeAddr Hp) as (_ & _ & He).
  apply costs_same; rewrite ?Hm, ?Ha; try done; unfold only at 1.
  - intros ->%bool_decide_eq_true. rewrite bool_decide_true by done. lia.
  - intros. by rewrite bool_decide_false.
Qed.

Lemma costs_publish a s nonce topic payload level bs n w :
  publishMessage s nonce topic payload level (bus w) = Done (bs, n) →
  l1_costs a (if bool_decide (s = bridgeAddr) then amount a (mkMessage s n nonce topic payload level) else 0)
    w (set_bus bs w).
Proof.
  intros Hp [[Hi1 Hi2 Hi3 Hi4 Hi5 Hi6] Hc]. split; [split|].
  - split; [|done..]. by apply (messaging_step_publish _ _ _ _ _ _ _ _ Hp).
  - pose proof Hp as (-> & _ & ->)%publishMessage_Done. exact Hc.
  - unfold surplus. rewrite (sent_publish _ _ _ _ _ _ _ _ _ _ Hp), (withdrawn_publish _ _ _ _ _ _ _ _ _ _ Hp).
    unfold locked. cbn [eth set_bus app]. lia.
Qed.

Lemma costs_store a now s m after bs w :
  0 < now → 0 <= after → storeCrossChainMessage now s m after (bus w) = Done bs →
  l1_costs a 0 w (set_bus bs w).
Proof.
  intros Hnow Hafter Hp [[Hi1 Hi2 Hi3 Hi4 Hi5 Hi6] Hc]. split; [split|].
  - split; [|done..]. by apply (messaging_step_store _ _ _ _ _ _ Hnow Hafter Hp).
  - by eapply claims_store.
  - unfold surplus. rewrite (sent_store _ _ _ _ _ _ _ _ Hp), (withdrawn_store _ _ _ _ _ _ _ _ Hi1 Hp).
    unfold locked. cbn [eth set_bus app]. lia.
Qed.

Lemma costs_ownable a s c bs w : bus_ownable s c (bus w) = Done bs → l1_costs a 0 w (set_bus bs w).
Proof.
  unfold bus_ownable. intros Ho. done_inv Ho. simplify_eq. intros [[Hi1 Hi2 Hi3 Hi4 Hi5 Hi6] Hc].
  split; [split; [split|]|]; try done.
  - destruct Hi1 as [[] ? ? ?]. split; [|done..]. by split.
  - unfold surplus, locked, withdrawn, sent, consumed, stored. cbn. lia.
Qed.

(** Changes of the state of the bridge other than its tokens. *)
Lemma costs_bridge a b w :
  (l1_inv w → (∀ x, hasRole (bridgeRoles b) NATIVE_TOKEN_ROLE x = true → x = 0) ∧
    (∀ x, hasRole (bridgeRoles b) DEFAULT_ADMIN_ROLE x = false) ∧
    (∀ x, hasRole (bridgeRoles b) ADMIN_ROLE x = true → x = admin) ∧ remoteBridgeAddress b = l2Bridge) →
  l1_costs a 0 w (set_bridge b w).
Proof.
  intros Hb [Hi Hc]. destruct (Hb Hi) as (?&?&?&?). destruct Hi. split; [split; [split|]|]; try done.
  { by eapply messaging_ok_same. }
  unfold surplus, locked, withdrawn, sent, consumed. cbn. lia.
Qed.

Lemma costs_mgmt a mg w : l1_costs a 0 w (set_mgmt mg w).
Proof. apply costs_same; try done. cbn. lia. Qed.

(** A token other accounts call, and what the bridge does with it. *)
Lemma costs_token a d s asset c w w' :
  token_call s asset c w = Done w' →
  (∀ tk tk', asset ≠ 0 → unspendable tk bridgeAddr → erc20Call tk s c = Some tk' →
    unspendable tk' bridgeAddr ∧ balance tk bridgeAddr - d <= balance tk' bridgeAddr) →
  l1_costs a (only asset a d) w w'.
Proof.
  unfold token_call. intros Hc Ht. done_inv Hc. simplify_eq. intros [[Hi1 Hi2 Hi3 Hi4 Hi5 Hi6] Hcl].
  destruct (Hi6 _ _ E) as [Hne Hun]. destruct (Ht _ _ Hne Hun E0) as [Hun' Hbal].
  split; [split; [split|]|]; try done.
  - by eapply messaging_ok_same.
  - intros x tk. cbn. destruct (decide (x = asset)) as [->|].
    + rewrite lookup_insert_eq. by intros [= <-].
    + rewrite lookup_insert_ne by done. apply Hi6.
  - unfold surplus, locked, withdrawn, sent, consumed, only. cbn.
    destruct (decide (asset = a)) as [->|Hna].
    + rewrite lookup_insert_eq, E. rewrite (bool_decide_false (a = 0)), bool_decide_true by done. lia.
    + rewrite lookup_insert_ne by done. rewrite (bool_decide_false (asset = a)) by done. lia.
Qed.

Lemma costs_token_other a s asset c w w' :
  s ≠ bridgeAddr → 0 <= erc20_amount c → token_call s asset c w = Done w' → l1_costs a 0 w w'.
Proof.
  intros Hs Hn Hc. replace 0 with (only asset a 0) by (unfold only; by case_bool_decide).
  eapply costs_token; [done|]. intros tk tk' _ Hun Hcall.
  destruct (erc20Call_keeps _ _ _ _ _ Hcall Hs Hn Hun). split; [done|lia].
Qed.

Lemma costs_deposit a s asset n w w' :
  s ≠ bridgeAddr → token_call bridgeAddr asset (TransferFrom s bridgeAddr n) w = Done w' →
  l1_costs a (only asset a (- n)) w w'.
Proof.
  intros Hs Hc. eapply costs_token; [done|]. intros tk tk' _ Hun Hcall.
  destruct (transferFrom_allowed _ _ _ _ _ _ Hcall) as [_ Hle]. split.
  - intros y. specialize (Hle bridgeAddr y). specialize (Hun y). lia.
  - rewrite (transferFrom_balance _ _ _ _ _ _ Hcall). unfold only.
    rewrite (bool_decide_false (s = _)), bool_decide_true by done. lia.
Qed.

Lemma costs_payout a asset n receiver w w' :
  0 <= n → _receiveTokens asset n receiver w = Done w' → l1_costs a (only asset a n) w w'.
Proof.
  intros Hn Hc. eapply costs_token; [done|]. intros tk tk' _ Hun Hcall. split.
  - intros y. rewrite (transfer_allowed _ _ _ _ _ Hcall). apply Hun.
  - rewrite (transfer_balance _ _ _ _ _ Hcall). unfold only.
    rewrite (bool_decide_true (bridgeAddr = _)) by done. case_bool_decide; lia.
Qed.

(** ** Calls *)

(** What a call may cost: a relayed claim, or the value the bridge sends. *)
Definition debit a s t (v : Z) (d : bytes) : Z :=
  if bool_decide (s = messengerAddr ∧ t = bridgeAddr) then amountData a d
  else if bool_decide (s = bridgeAddr) then only 0 a v else 0.

(** The calls the administrator makes: the other bridge stays, and nobody else becomes
    administrator. *)
Definition admin_honest (d : bytes) : Prop :=
  match decodeCalldata d with
  | Some (SetRemoteBridge b) => b = l2Bridge
  | Some (PromoteToAdmin _) => False
  | _ => True
  end.

(** The bridge calls other accounts without calldata only. *)
Definition may_call s (d : bytes) : Prop := (s = bridgeAddr → d = []) ∧ (s = admin → admin_honest d).

Lemma may_call_nil s : may_call s [].
Proof. split; [done|]. intros _. unfold admin_honest. by rewrite calldata_nil. Qed.

(** A claim that is being relayed to the bridge for a sender that is not the other
    bridge. *)
Definition pending s t (d : bytes) w : Prop :=
  s = messengerAddr ∧ t = bridgeAddr ∧ crossChainSender (messenger w) ≠ l2Bridge ∧
  ∃ asset n receiver, decodeCalldata d = Some (ReceiveAssets asset n receiver).

Definition call_ok a s t (v : Z) (d : bytes) w w' : Prop :=
  l1_inv w → claims w ∨ pending s t d w → may_call s d →
  l1_good w' ∧ surplus a w - debit a s t v d <= surplus a w'.

Lemma bus_call_costs a env s v d w w' :
  0 < block_timestamp env → s ≠ bridgeAddr → bus_call env s v d w = Done w' → l1_costs a 0 w w'.
Proof.
  intros Hnow Hs. unfold bus_call. destruct (decodeCalldata d) as [[]|] eqn:Hd; try done; intros Hc; done_inv Hc.
  - destruct r0 as [b n]. simplify_eq. apply (costs_publish a) in E0. by rewrite bool_decide_false in E0.
  - simplify_eq. by apply costs_refl.
  - simplify_eq. by apply costs_refl.
  - simplify_eq. apply calldata_wf in Hd as [??]. by eapply costs_store.
  - simplify_eq. by eapply costs_ownable.
Qed.

Lemma push_costs a now msgs w bs :
  0 < now → pushCrossChainMessages now msgs (bus w) = Done bs → l1_costs a 0 w (set_bus bs w).
Proof.
  intros Hnow. revert w. induction msgs as [|m msgs IH]; intros w; cbn; intros Hp.
  - injection Hp as <-. destruct w. by apply costs_refl.
  - done_inv Hp. eapply costs_trans; [eapply costs_store; [exact Hnow| |exact E]; lia|apply (IH (set_bus r w) Hp)|done].
Qed.

Lemma mgmt_call_costs a env s v d w w' :
  0 < block_timestamp env → mgmt_call env s v d w = Done w' → l1_costs a 0 w w'.
Proof.
  intros Hnow. unfold mgmt_call. intros Hc. done_inv Hc.
  destruct (decodeCalldata d) as [[]|]; try done; done_inv Hc; simplify_eq; try apply costs_mgmt; try by apply costs_refl.
  unfold mgmt_AddRollup in Hc. done_inv Hc. simplify_eq.
  eapply costs_trans; [apply costs_mgmt|eapply push_costs; [exact Hnow|exact E1]|done].
Qed.

Lemma bridge_queue_costs a topic d w w' :
  bridge_queue topic d w = Done w' → l1_costs a (amountData a d) w w'.
Proof.
  unfold bridge_queue. intros Hq. done_inv Hq. destruct r as [w1 n].
  apply queueMessage_Done in E as (bs & k & Hp & -> & ->). simplify_eq.
  apply (costs_publish a) in Hp. rewrite bool_decide_true, amount_queue in Hp by done.
  eapply costs_trans; [exact Hp|apply costs_bridge|lia]. by intros [].
Qed.

Lemma roles_less_costs a r w :
  (∀ x, hasRole r DEFAULT_ADMIN_ROLE x = true → hasRole (roles w) DEFAULT_ADMIN_ROLE x = true) →
  (∀ x, hasRole r NATIVE_TOKEN_ROLE x = true → hasRole (roles w) NATIVE_TOKEN_ROLE x = true) →
  (∀ x, hasRole r ADMIN_ROLE x = true → hasRole (roles w) ADMIN_ROLE x = true) →
  l1_costs a 0 w (set_roles r w).
Proof.
  intros Hd Hn Ha. apply costs_bridge. cbn. intros [_ H1' H2' H3' H4' _].
  split_and!; [by eauto| |by eauto|done]. intros x. apply not_true_is_false. intros Hx%Hd. by rewrite H2' in Hx.
Qed.

Lemma debit_nonneg a s t v d : 0 <= v → 0 <= debit a s t v d.
Proof. intros. unfold debit. repeat case_bool_decide; [apply amountData_nonneg|by apply only_nonneg|done]. Qed.

Lemma sendERC20_costs a s asset n receiver w w' :
  s ≠ bridgeAddr → is_u256 n → bridge_sendERC20 s asset n receiver w = Done w' → l1_costs a 0 w w'.
Proof.
  intros Hs Hn. unfold bridge_sendERC20. intros Hc. done_inv Hc.
  eapply costs_trans; [by eapply costs_deposit|by eapply bridge_queue_costs|].
  unfold amountData. rewrite calldata_roundtrip by done. rewrite <-only_add, Z.add_opp_diag_l. unfold only. by case_bool_decide.
Qed.

(** The administrative functions, for an administrator that is honest. *)
Lemma admin_costs a s v d w w' ext :
  (s = admin → admin_honest d) → bridge_call ext s v d w = Done w' →
  match decodeCalldata d with
  | Some (SendNative _) | Some (SendERC20 _ _ _) | Some (ReceiveAssets _ _ _) => True
  | _ => l1_costs a 0 w w'
  end.
Proof.
  intros Hh. unfold bridge_call. unfold admin_honest in Hh. destruct (decodeCalldata d) as [c|] eqn:Hd; [|done].
  destruct c; try done; intros Hc Hg; done_inv Hc; destruct Hg as [Hi Hcl].
  - unfold bridge_promoteToAdmin in Hc. done_inv Hc. by destruct (Hh (inv_admin _ Hi _ E0)).
  - unfold bridge_whitelistToken in Hc. done_inv Hc. apply (bridge_queue_costs a) in Hc.
    unfold amountData in Hc. rewrite calldata_roundtrip in Hc by done.
    eapply (costs_trans _ _ 0 0); [|exact Hc|done|by split]. apply roles_less_costs; intros x; by rewrite hasRole_grant, bool_decide_false by naive_solver.
  - unfold bridge_removeToken in Hc. done_inv Hc. simplify_eq. apply roles_less_costs; [..|by split];
      intros x; rewrite hasRole_revoke; by intros [_ ?]%andb_true_iff.
  - unfold bridge_setRemoteBridge in Hc. done_inv Hc. simplify_eq. apply costs_bridge; [|by split]. cbn.
    specialize (Hh (inv_admin _ Hi _ E0)). by destruct Hi.
  - simplify_eq. apply roles_less_costs; [..|by split]; intros x; apply (access_only_less _ _ _ _ (inv_default _ Hi) E0).
Qed.

Lemma bridge_call_costs a ext s v d w w' :
  (∀ s t v d w w', ext s t v d w = Done w' → call_ok a s t v d w w') →
  s ≠ bridgeAddr → 0 <= v < 2 ^ 256 → (s = admin → admin_honest d) → bridge_call ext s v d w = Done w' →
  l1_costs a (only 0 a v + debit a s bridgeAddr v d) w w'.
Proof.
  intros He Hs Hv Hh Hc. pose proof (admin_costs a _ _ _ _ _ _ Hh Hc) as Hadm.
  pose proof (debit_nonneg a s bridgeAddr v d (proj1 Hv)) as Hdeb. pose proof (only_nonneg 0 a v (proj1 Hv)) as Hval.
  unfold bridge_call in Hc. destruct (decodeCalldata d) as [c|] eqn:Hd; [|done].
  destruct c; try (eapply costs_weaken; [exact Hadm|lia]); done_inv Hc.
  - unfold bridge_sendNative in Hc. done_inv Hc. apply (bridge_queue_costs a) in Hc.
    unfold amountData in Hc. rewrite calldata_roundtrip in Hc by done.
    eapply costs_weaken; [exact Hc|lia].
  - apply calldata_wf in Hd. eapply costs_weaken; [by eapply sendERC20_costs|lia].
  - pose proof (calldata_wf _ _ Hd) as Hn. unfold bridge_receiveAssets in Hc. done_inv Hc.
    apply onlyCrossChainSender_Done in E0 as [-> _].
    assert (debit a messengerAddr bridgeAddr v d = only asset a amount) as ->
      by (unfold debit, amountData; by rewrite bool_decide_true, Hd).
    eapply (costs_weaken _ _ (only asset a amount)); [|lia]. intros Hg.
    destruct (hasRole _ ERC20_TOKEN_ROLE asset); [by eapply costs_payout; [apply Hn|..]|].
    destruct (hasRole _ NATIVE_TOKEN_ROLE asset) eqn:Hnat; [|done].
    apply (inv_native _ (proj1 Hg)) in Hnat as ->. destruct (He _ _ _ _ _ _ Hc) as [? Hle]; [apply Hg|left; apply Hg|apply may_call_nil|].
    split; [done|]. unfold debit in Hle. rewrite bool_decide_false in Hle by naive_solver.
    by rewrite bool_decide_true in Hle.
Qed.

(** ** The rule for calls on L1 *)

Lemma distinct_addresses :
  busAddr ≠ bridgeAddr ∧ messengerAddr ≠ bridgeAddr ∧ mgmtAddr ≠ bridgeAddr ∧ messengerAddr ≠ admin ∧
  bridgeAddr ≠ admin ∧ busAddr ≠ messengerAddr ∧ mgmtAddr ≠ busAddr ∧ mgmtAddr ≠ messengerAddr.
Proof.
  pose proof l1_distinct as Hnd. rewrite !NoDup_cons, !not_elem_of_cons in Hnd.
  destruct Hnd as (Hn1&Hn2&Hn3&Hn4&_). naive_solver.
Qed.

(** The calls the messenger makes are relayed messages. *)
Lemma call_ok_relayed a t d w w' :
  call_ok a messengerAddr t 0 d w w' → relayed_ok l1_inv (surplus a) bridgeAddr l2Bridge a t d w w'.
Proof.
  destruct distinct_addresses as (_&?&_&?&_). intros Hc Hi Hcl.
  destruct (Hc Hi) as [? Hle]; [|by split|].
  - destruct Hcl as [?|(-> & ? & ?)]; [by left|by right].
  - split; [done|]. unfold debit, claimOf in *. rewrite (bool_decide_false (messengerAddr = bridgeAddr)) in Hle by done.
    destruct (decide (t = bridgeAddr)) as [->|Hne]; [by rewrite !bool_decide_true in *|].
    rewrite !bool_decide_false in *; [done|by intros [_ ?]|done].
Qed.

Lemma l1_relay_costs a env ext m w w' :
  (∀ t d w w', ext t d w = Done w' → call_ok a messengerAddr t 0 d w w') →
  relayMessage ext env m w = Done w' → l1_costs a 0 w w'.
Proof.
  intros He Hr. eapply (relay_costs l1_inv (surplus a) bridgeAddr l2Bridge a); [..|exact Hr].
  - by intros ? [].
  - by intros ms w0 [] ?.
  - intros. unfold surplus, locked, sent. cbn. lia.
  - intros. by apply call_ok_relayed, He.
Qed.

Lemma messenger_call_costs a env ext v d w w' :
  (∀ t d w w', ext t d w = Done w' → call_ok a messengerAddr t 0 d w w') →
  messenger_call ext env v d w = Done w' → l1_costs a 0 w w'.
Proof.
  intros He. unfold messenger_call. destruct (decodeCalldata d) as [[]|]; try done; intros Hc; done_inv Hc;
    simplify_eq; try (by apply costs_refl). by eapply l1_relay_costs.
Qed.

(** A call to another contract than the bridge, after the value was paid. *)
Lemma call_ok_other a s t v d w w1 w' :
  t ≠ bridgeAddr → pay s t v w = Done w1 → l1_costs a 0 w1 w' → call_ok a s t v d w w'.
Proof.
  intros Ht Hp Hc Hi Hcl _. assert (l1_good w) as Hg by (split; [done|]; destruct Hcl as [|(_&?&_)]; done).
  pose proof (pay_eth _ _ _ _ _ 0 Hp) as ([Hv _] & _).
  destruct (costs_trans _ _ _ 0 (debit a s t v d) _ _ _ (costs_pay a _ _ _ _ _ Hp) Hc) as [? ?]; [|done|done].
  pose proof (debit_nonneg a s t v d Hv). unfold debit, only in *. rewrite (bool_decide_false (t = bridgeAddr)) by done.
  rewrite (bool_decide_false (s = messengerAddr ∧ _)) in * by naive_solver. repeat case_bool_decide; lia.
Qed.

(** A call without calldata to a contract that has no [receive] function. *)
Lemma call_nil ext env s v w w' :
  bus_call env s v [] w ≠ Done w' ∧ (∀ e, messenger_call e env v [] w ≠ Done w') ∧
  mgmt_call env s v [] w ≠ Done w' ∧ bridge_call ext s v [] w ≠ Done w' ∧
  ∀ t, l1token_call s t v [] w ≠ Done w'.
Proof.
  unfold bus_call, messenger_call, mgmt_call, bridge_call, l1token_call. rewrite calldata_nil.
  split_and!; try done; [intros Hc|intros t Hc]; by done_inv Hc.
Qed.

Lemma bridge_call_ok a ext s v d w w1 w' :
  (∀ s t v d w w', ext s t v d w = Done w' → call_ok a s t v d w w') →
  pay s bridgeAddr v w = Done w1 → bridge_call ext s v d w1 = Done w' → call_ok a s bridgeAddr v d w w'.
Proof.
  intros He Hp Hc Hi Hcl [Hb Hh].
  destruct (decide (s = bridgeAddr)) as [->|Hs].
  { rewrite (Hb eq_refl) in Hc. by apply (call_nil ext (mkEnv 0 0)) in Hc. }
  pose proof (pay_eth _ _ _ _ _ 0 Hp) as [Hv _].
  destruct (pay_same _ _ _ _ _ Hp) as (_ & Hm & Happ).
  assert (claims w) as Hclaims.
  { destruct Hcl as [|(-> & _ & Hne & asset & n & receiver & Hd)]; [done|]. exfalso.
    unfold bridge_call, bridge_receiveAssets in Hc. rewrite Hd in Hc. done_inv Hc.
    apply onlyCrossChainSender_Done in E0 as [_ Heq]. rewrite Hm, Happ, (inv_remote _ Hi) in Heq. done. }
  eapply (costs_trans _ _ (only 0 a (- v)) (only 0 a v + debit a s bridgeAddr v d)).
  - pose proof (costs_pay a _ _ _ _ _ Hp) as Hpay. unfold only at 2 3 in Hpay.
    by rewrite (bool_decide_false (s = _)), (bool_decide_true (bridgeAddr = _)) in Hpay by done.
  - by eapply bridge_call_costs.
  - rewrite Z.add_assoc, <-only_add, Z.add_opp_diag_l. unfold only. by case_bool_decide.
  - by split.
Qed.

Lemma isApp_bridge (x : L1App R T) : l1_isApp x bridgeAddr = true.
Proof. unfold l1_isApp. by rewrite (bool_decide_true (bridgeAddr = bridgeAddr)), orb_true_r. Qed.

Lemma l1_call_rule a depth env s t v d subs w w' :
  0 < block_timestamp env → call depth env s t v d subs w = Done w' → call_ok a s t v d w w'.
Proof.
  intros Hnow. destruct distinct_addresses as (Hd1&Hd2&Hd3&Hd4&Hd5&Hd6&Hd7&Hd8).
  apply (call_rule env (costs l1_good (surplus a) 0) (call_ok a) (λ _ x, x ≠ bridgeAddr ∧ x ≠ messengerAddr ∧ x ≠ admin)).
  - intros w0. by apply costs_refl.
  - intros w1 w2 w3 ??. by eapply costs_trans.
  - intros s' v' d' w0 w1 w2 Hp Hb Hi Hcl Hm. eapply call_ok_other; [done..| |done|done|done].
    eapply bus_call_costs; [done| |done]. intros ->. rewrite (proj1 Hm eq_refl) in Hb. by apply (call_nil (λ _ _ _ _, Done)) in Hb.
  - intros ext s' v' d' w0 w1 w2 He Hp Hm. eapply call_ok_other; [done..|]. by eapply messenger_call_costs.
  - intros ext s' t' v' d' w0 w1 w2 He Ht1 Ht2 Ht3 Hp. cbn. unfold l1_call.
    case_bool_decide as Hmg; [subst; intros Hc; eapply call_ok_other; [done..|]; by eapply mgmt_call_costs|].
    case_bool_decide as Hbr; [subst; intros Hc; by eapply bridge_call_ok|].
    intros Hc Hi Hcl Hm. eapply call_ok_other; [done..| |done|done|done].
    assert (s' ≠ bridgeAddr) as Hs. { intros ->. rewrite (proj1 Hm eq_refl) in Hc. by apply (call_nil ext env) in Hc. }
    unfold l1token_call in Hc. done_inv Hc. destruct (decodeCalldata d') as [[]|] eqn:Hdd; simplify_eq; try by apply costs_refl.
    apply calldata_wf in Hdd as [? _]. by eapply costs_token_other.
  - intros w0 x (_&Hx&Hx') Hcode. cbn in Hx'. split_and!; [|done|].
    + intros ->. by rewrite isApp_bridge in Hx'.
    + intros ->. by rewrite l1_admin_account in Hcode.
  - intros x t' v' d' w0 w1 (Hx1&Hx2&Hx3) Hc. split; [|done]. intros Hg.
    destruct (Hc (proj1 Hg)) as [? Hle]; [left; apply Hg|by split|]. split; [done|].
    unfold debit in Hle. rewrite !bool_decide_false in Hle by naive_solver. done.
  - intros s' t' v' d' w0 w1 w2 Hp (_&_&Ho) HR. eapply call_ok_other; [|done..].
    intros ->. cbn in Ho. by rewrite isApp_bridge in Ho.
Qed.
End l1_spec.
