(* ===== verification/L2BridgeSpec.v ===== *)
(** * The bridge on L2 issues no more than it received

    The tokens the bridge on L2 has issued for an asset are covered by the transfers it
    has received, less those it has sent back, whatever contracts are called. *)

From S2P Require Import Prelude Types Codec Solidity MessageBusContract ContractCalls L1Contracts L2Contracts ContractsSpec BridgeFlow.
Local Open Scope Z_scope.

(** ** Sums over maps *)

Section sumMap.
Context {K V : Type} `{Countable K}.
Implicit Types (g : gmap K V) (f : K → V → Z).

Definition sumMap f g : Z := sumZ (λ x, f x.1 x.2) (map_to_list g).

Lemma sumMap_insert f g k v : g !! k = None → sumMap f (<[k := v]> g) = f k v + sumMap f g.
Proof. intros Hk. unfold sumMap. by rewrite map_to_list_insert. Qed.

Lemma sumMap_update f g k v v' :
  g !! k = Some v → sumMap f (<[k := v']> g) = sumMap f g - f k v + f k v'.
Proof.
  intros Hk. rewrite <-(insert_delete_id g k v Hk) at 2. rewrite <-insert_delete_eq.
  rewrite !sumMap_insert by apply lookup_delete_eq. lia.
Qed.

Lemma sumMap_ext f f' g : (∀ k v, g !! k = Some v → f k v = f' k v) → sumMap f g = sumMap f' g.
Proof. intros Hf. apply sumZ_ext. intros [k v] Hin%elem_of_map_to_list. by apply Hf. Qed.
End sumMap.

Class L2BridgeOk (App : Type) (l1Bridge : Address) `{Deployment App, L2Deployment} : Prop := {
  l2_distinct : NoDup [busAddr; messengerAddr; ethBridgeAddr];
  l2_l1Bridge : l1Bridge ≠ 0
}.

Section l2_spec.
Context `{MessageHash, Ownable Ow, ABI, AccessControl R, ERC20 T, !Deployment (L2App R T), !L2Deployment,
  !MessageHashOk, !OwnableOk Ow, !ABIOk, !AccessControlOk R, !ERC20Ok T, !L2DeploymentOk (L2App R T)}
  (l1Bridge : Address) {Hdep : L2BridgeOk (L2App R T) l1Bridge}.
Implicit Types (w : Chain Ow (L2App R T)) (a s t : Address).

Local Abbreviation brg w := (ethereumBridge (app w)).
Local Abbreviation remoteOf w l := (at0 (localToRemoteToken (ethereumBridge (app w))) l).

(** The tokens issued for an asset of L1, over all contracts created for it. *)
Definition supply a w : Z :=
  sumMap (λ l tk, only (remoteOf w l) a (totalSupply (wr_erc20 tk))) (l2Tokens (app w)).

Lemma supply_nonneg a w : 0 <= supply a w.
Proof. apply sumZ_nonneg. intros [l tk] _. apply only_nonneg, totalSupply_nonneg. Qed.

Definition margin a w : Z := withdrawn ethBridgeAddr a w - supply a w - sent ethBridgeAddr a w.

Record token_ok (tk : WrappedERC20 R T) : Prop := {
  tok_default : ∀ x, hasRole (wr_roles tk) DEFAULT_ADMIN_ROLE x = false;
  tok_admin : ∀ x, hasRole (wr_roles tk) ADMIN_ROLE x = true → x = ethBridgeAddr
}.

Record l2_inv w : Prop := {
  inv2_messaging : messaging_ok w;
  inv2_remote : eb_remoteBridgeAddress (brg w) = l1Bridge;
  inv2_created : ∀ l, is_Some (l2Tokens (app w) !! l) → ∃ n, (n < eb_created (brg w))%nat ∧ l = createAddress n;
  inv2_token : ∀ l tk, l2Tokens (app w) !! l = Some tk → token_ok tk;
  inv2_wrapped : ∀ l x, wrappedTokens (brg w) !! l = Some x → x = l ∧ is_Some (l2Tokens (app w) !! l);
  inv2_mapping : ∀ asset l, remoteToLocalToken (brg w) !! asset = Some l →
    remoteOf w l = asset ∧ is_Some (l2Tokens (app w) !! l)
}.

Local Abbreviation claims := (claims_ok ethBridgeAddr l1Bridge).

Definition l2_good w : Prop := l2_inv w ∧ claims w.

Local Abbreviation l2_costs a := (costs l2_good (margin a)).

(** ** The parts of a call *)

Lemma l2_costs_same a w w' :
  bus w' = bus w → messenger w' = messenger w → app w' = app w →
  l2_costs a 0 w w'.
Proof.
  intros Hb Hm Ha [[] Hc]. destruct (flow_same ethBridgeAddr a w w' Hb) as (Hp & Hw & _); [by rewrite Hm|].
  split; [split; [split|]|]; rewrite ?Ha; try done.
  - by apply (messaging_ok_same w w'); rewrite ?Hm.
  - by apply (claims_same _ _ w w'); rewrite ?Hm.
  - unfold margin, supply. rewrite Hp, Hw, Ha. lia.
Qed.

Lemma l2_costs_pay a s t v w w' : pay s t v w = Done w' → l2_costs a 0 w w'.
Proof. intros (Hb & Hm & Ha)%pay_same. apply l2_costs_same; [done|by rewrite Hm|done]. Qed.

Lemma l2_costs_publish a s nonce topic payload level bs n w :
  publishMessage s nonce topic payload level (bus w) = Done (bs, n) →
  l2_costs a (if bool_decide (s = ethBridgeAddr) then amount a (mkMessage s n nonce topic payload level) else 0)
    w (set_bus bs w).
Proof.
  intros Hp [[] Hc]. split; [split|].
  - split; [|done..]. by apply (messaging_step_publish _ _ _ _ _ _ _ _ Hp).
  - pose proof Hp as (-> & _ & ->)%publishMessage_Done. exact Hc.
  - unfold margin. rewrite (sent_publish _ _ _ _ _ _ _ _ _ _ Hp), (withdrawn_publish _ _ _ _ _ _ _ _ _ _ Hp).
    unfold supply. cbn [set_bus app]. lia.
Qed.

Lemma l2_costs_store a now s m after bs w :
  0 < now → 0 <= after → storeCrossChainMessage now s m after (bus w) = Done bs →
  l2_costs a 0 w (set_bus bs w).
Proof.
  intros Hnow Hafter Hp [[Hi1 ?????] Hc]. split; [split|].
  - split; [|done..]. by apply (messaging_step_store _ _ _ _ _ _ Hnow Hafter Hp).
  - by eapply claims_store.
  - unfold margin. rewrite (sent_store _ _ _ _ _ _ _ _ Hp), (withdrawn_store _ _ _ _ _ _ _ _ Hi1 Hp).
    unfold supply. cbn [set_bus app]. lia.
Qed.

Lemma l2_costs_ownable a s c bs w : bus_ownable s c (bus w) = Done bs → l2_costs a 0 w (set_bus bs w).
Proof.
  unfold bus_ownable. intros Ho. done_inv Ho. simplify_eq. intros [[Hi1 ?????] Hc].
  split; [split; [split|]|]; try done.
  - destruct Hi1 as [[] ? ? ?]. split; [|done..]. by split.
  - unfold margin, supply, withdrawn, sent, consumed, stored. cbn. lia.
Qed.

(** A call to a token changes this token only. *)
Lemma l2_costs_token a d env s l c w w' :
  l2token_call env s l c w = Done w' →
  (∀ tk tk', token_ok tk → wrapped_call env s c tk = Done tk' →
    token_ok tk' ∧ totalSupply (wr_erc20 tk') <= totalSupply (wr_erc20 tk) + d) →
  l2_costs a (only (remoteOf w l) a d) w w'.
Proof.
  unfold l2token_call. intros Hc Ht. done_inv Hc. simplify_eq. intros [[] Hcl].
  destruct (Ht _ _ (inv2_token0 _ _ E) E0) as [Hok Hsup].
  assert (∀ x, is_Some (<[l := r0]> (l2Tokens (app w)) !! x) ↔ is_Some (l2Tokens (app w) !! x)) as Hdom.
  { intros x. destruct (decide (x = l)) as [->|]; [rewrite lookup_insert_eq, E|rewrite lookup_insert_ne by done]; done. }
  split; [split; [split|]|]; cbn; try done.
  - by eapply messaging_ok_same.
  - intros x ?%Hdom. by apply inv2_created0.
  - intros x tk. destruct (decide (x = l)) as [->|]; [rewrite lookup_insert_eq|rewrite lookup_insert_ne by done].
    + by intros [= <-].
    + by apply inv2_token0.
  - intros x y [-> ?]%inv2_wrapped0. split; [done|]. by apply Hdom.
  - intros asset x [? ?]%inv2_mapping0. split; [done|]. by apply Hdom.
  - unfold margin, supply, withdrawn, sent, consumed. cbn. rewrite (sumMap_update _ _ _ _ _ E).
    unfold only. case_bool_decide; lia.
Qed.

(** What other accounts can do with a token, and what the bridge does with it. *)
Lemma wrapped_call_other env s c tk tk' :
  s ≠ ethBridgeAddr → token_ok tk → wrapped_call env s c tk = Done tk' →
  token_ok tk' ∧ totalSupply (wr_erc20 tk') <= totalSupply (wr_erc20 tk) + 0.
Proof.
  intros Hs Hok. destruct c; cbn; try done; intros Hc.
  - done_inv Hc. simplify_eq. split; [destruct Hok; split|]; cbn.
    + intros x. apply not_true_is_false. intros Hx%(access_only_less _ _ _ _ tok_default0 E). by rewrite tok_default0 in Hx.
    + intros x Hx%(access_only_less _ _ _ _ tok_default0 E). by apply tok_admin0.
    + lia.
  - done_inv Hc. simplify_eq. split; [by destruct Hok|]. apply call_supply in E. cbn. lia.
  - unfold issueFor in Hc. done_inv Hc. by apply (tok_admin _ Hok) in E.
  - unfold burnFor in Hc. done_inv Hc. by apply (tok_admin _ Hok) in E.
  - done_inv Hc. simplify_eq. split; [done|lia].
  - done_inv Hc. simplify_eq. split; [done|lia].
Qed.

Lemma wrapped_mint env receiver n tk tk' :
  token_ok tk → wrapped_call env ethBridgeAddr (IssueFor receiver n) tk = Done tk' →
  token_ok tk' ∧ totalSupply (wr_erc20 tk') <= totalSupply (wr_erc20 tk) + n.
Proof.
  cbn. unfold issueFor. intros [] Hc. done_inv Hc. simplify_eq. split; [done|]. apply mint_supply in E0. cbn. lia.
Qed.

Lemma wrapped_burn env giver n tk tk' :
  token_ok tk → wrapped_call env ethBridgeAddr (BurnFor giver n) tk = Done tk' →
  token_ok tk' ∧ totalSupply (wr_erc20 tk') <= totalSupply (wr_erc20 tk) + - n.
Proof.
  cbn. unfold burnFor. intros [] Hc. done_inv Hc. simplify_eq. split; [done|]. apply burn_supply in E2. cbn. lia.
Qed.

Lemma ethBridge_queue_costs a topic d w w' :
  ethBridge_queue topic d w = Done w' → l2_costs a (amountData a d) w w'.
Proof.
  unfold ethBridge_queue. intros Hq. done_inv Hq. destruct r as [w1 n].
  apply queueMessage_Done in E as (bs & k & Hp & -> & ->). simplify_eq.
  apply (l2_costs_publish a) in Hp. rewrite bool_decide_true, amount_queue in Hp by done.
  eapply costs_trans; [exact Hp| |apply Z.eq_le_incl, Z.add_0_r].
  intros [[] Hc]. split; [split; [split|]|]; try done; [by eapply messaging_ok_same|].
  unfold margin, supply, withdrawn, sent, consumed. cbn. lia.
Qed.

Lemma hasTokenMapping_true w l :
  l2_inv w → hasTokenMapping l (brg w) = true →
  at0 (wrappedTokens (brg w)) l = l ∧ is_Some (l2Tokens (app w) !! l) ∧ l ≠ 0.
Proof.
  unfold hasTokenMapping, at0. intros Hi Hm%negb_true_iff%Z.eqb_neq.
  destruct (wrappedTokens (brg w) !! l) as [x|] eqn:Hl; cbn in *; [|done].
  apply (inv2_wrapped _ Hi) in Hl as [-> ?]. done.
Qed.

(** The native currency of L2 cannot be sent: no token has the zero address. *)
Lemma sendNative_reverts w value receiver w' : l2_inv w → ethBridge_sendNative value receiver w ≠ Done w'.
Proof. intros Hi Hc. unfold ethBridge_sendNative in Hc. done_inv Hc. by apply hasTokenMapping_true in E0 as (_&_&?). Qed.

Lemma l2_sendERC20_costs a env s asset n receiver w w' :
  is_u256 n → ethBridge_sendERC20 env s asset n receiver w = Done w' → l2_costs a 0 w w'.
Proof.
  intros Hn. unfold ethBridge_sendERC20. intros Hc Hg. done_inv Hc.
  destruct (hasTokenMapping_true _ _ (proj1 Hg) E) as (Hl & _). rewrite Hl in E0.
  revert Hg. eapply costs_trans; [eapply l2_costs_token; [exact E0|apply wrapped_burn]|by eapply ethBridge_queue_costs|].
  unfold amountData. rewrite calldata_roundtrip by done. rewrite <-only_add, Z.add_opp_diag_l. unfold only. by case_bool_decide.
Qed.

Lemma l2_receive_costs a env s asset n receiver w w' :
  ethBridge_receiveAssets env s asset n receiver w = Done w' → l2_costs a (only asset a n) w w'.
Proof.
  unfold ethBridge_receiveAssets. intros Hc Hg. done_inv Hc.
  destruct (hasTokenMapping_true w (at0 (remoteToLocalToken (brg w)) asset) (proj1 Hg) E0) as (Hl & _ & Hnz).
  unfold at0 in Hnz at 1. destruct (remoteToLocalToken (brg w) !! asset) as [l|] eqn:Hr; [|done].
  assert (at0 (remoteToLocalToken (brg w)) asset = l) as Hat by (unfold at0; by rewrite Hr).
  apply (inv2_mapping _ (proj1 Hg)) in Hr as [<- _]. rewrite Hl, Hat in Hc. revert Hg.
  eapply l2_costs_token; [exact Hc|]. apply wrapped_mint.
Qed.

Lemma new_token_ok : token_ok (newWrappedERC20 ethBridgeAddr).
Proof.
  split; intros x; cbn; rewrite hasRole_grant, hasRole_none, orb_false_r.
  - by apply bool_decide_false; intros [? _].
  - by intros [_ <-]%bool_decide_eq_true.
Qed.

Lemma l2_create_costs a s asset w w' : onCreateTokenCommand s asset w = Done w' → l2_costs a 0 w w'.
Proof.
  unfold onCreateTokenCommand. intros Hc. done_inv Hc. simplify_eq. intros [[] Hcl].
  set (l := createAddress (eb_created (brg w))).
  assert (l2Tokens (app w) !! l = None) as Hfresh.
  { apply eq_None_not_Some. intros (n & Hlt & Hl)%inv2_created0. apply createAddress_inj in Hl. lia. }
  assert (∀ x, is_Some (l2Tokens (app w) !! x) → x ≠ l) as Hne by (intros x [? ?] ->; congruence).
  split; [split; [split|]|]; cbn; try done.
  - by eapply messaging_ok_same.
  - intros x. destruct (decide (x = l)) as [->|]; [exists (eb_created (brg w)); split; [lia|done]|].
    rewrite lookup_insert_ne by done. intros (k & ? & ->)%inv2_created0. exists k. split; [lia|done].
  - intros x tk. destruct (decide (x = l)) as [->|]; [rewrite lookup_insert_eq|rewrite lookup_insert_ne by done].
    + intros [= <-]. apply new_token_ok.
    + by apply inv2_token0.
  - intros x y. destruct (decide (x = l)) as [->|]; [rewrite !lookup_insert_eq; by intros [= <-]|].
    rewrite !lookup_insert_ne by done. apply inv2_wrapped0.
  - intros asset' x. rewrite at0_insert. destruct (decide (asset' = asset)) as [->|].
    + rewrite lookup_insert_eq. intros [= <-]. rewrite decide_True, lookup_insert_eq by done. done.
    + rewrite lookup_insert_ne by done. intros [? ?]%inv2_mapping0.
      rewrite decide_False, lookup_insert_ne by (apply not_eq_sym; by apply Hne). done.
  - unfold margin, supply, withdrawn, sent, consumed. cbn. rewrite sumMap_insert by done.
    rewrite (sumMap_ext (λ x tk, only (at0 (<[l:=asset]> (localToRemoteToken (brg w))) x) a (totalSupply (wr_erc20 tk)))
      (λ x tk, only (remoteOf w x) a (totalSupply (wr_erc20 tk)))).
    + cbn. rewrite new_supply. unfold only. case_bool_decide; lia.
    + intros x tk Hx. rewrite at0_insert, decide_False; [done|]. apply not_eq_sym, Hne. eauto.
Qed.

(** ** Calls *)

Definition l2_debit a s t (d : bytes) : Z :=
  if bool_decide (s = messengerAddr ∧ t = ethBridgeAddr) then amountData a d else 0.

Definition l2_pending s t (d : bytes) w : Prop :=
  s = messengerAddr ∧ t = ethBridgeAddr ∧ crossChainSender (messenger w) ≠ l1Bridge ∧
  ∃ asset n receiver, decodeCalldata d = Some (ReceiveAssets asset n receiver).

(** The bridge on L2 makes no calls of its own to other accounts. *)
Definition l2_call_ok a s t (v : Z) (d : bytes) w w' : Prop :=
  l2_inv w → claims w ∨ l2_pending s t d w → s ≠ ethBridgeAddr →
  l2_good w' ∧ margin a w - l2_debit a s t d <= margin a w'.

Lemma l2_debit_nonneg a s t d : 0 <= l2_debit a s t d.
Proof. unfold l2_debit. case_bool_decide; [apply amountData_nonneg|done]. Qed.

Lemma l2_bus_call_costs a env s v d w w' :
  0 < block_timestamp env → s ≠ ethBridgeAddr → bus_call env s v d w = Done w' → l2_costs a 0 w w'.
Proof.
  intros Hnow Hs. unfold bus_call. destruct (decodeCalldata d) as [[]|] eqn:Hd; try done; intros Hc; done_inv Hc.
  - destruct r0 as [b n]. simplify_eq. apply (l2_costs_publish a) in E0. by rewrite bool_decide_false in E0.
  - simplify_eq. by apply costs_refl.
  - simplify_eq. by apply costs_refl.
  - simplify_eq. apply calldata_wf in Hd as [??]. by eapply l2_costs_store.
  - simplify_eq. by eapply l2_costs_ownable.
Qed.

Lemma ethBridge_call_costs a env s v d w w' :
  s ≠ ethBridgeAddr → ethBridge_call env s v d w = Done w' →
  l2_costs a (l2_debit a s ethBridgeAddr d) w w'.
Proof.
  intros Hs. pose proof (l2_debit_nonneg a s ethBridgeAddr d) as Hnn. unfold ethBridge_call.
  destruct (decodeCalldata d) as [[]|] eqn:Hd; try done; intros Hc Hg.
  - by destruct (sendNative_reverts w v receiver w' (proj1 Hg)).
  - done_inv Hc. apply calldata_wf in Hd. revert Hg. eapply costs_weaken; [by eapply l2_sendERC20_costs|done].
  - done_inv Hc. pose proof Hc as Hr. unfold ethBridge_receiveAssets in Hr. done_inv Hr.
    apply onlyCrossChainSender_Done in E0 as [-> _]. unfold l2_debit, amountData. rewrite bool_decide_true, Hd by done.
    revert Hg. by eapply l2_receive_costs.
  - done_inv Hc. revert Hg. eapply costs_weaken; [by eapply l2_create_costs|done].
  - done_inv Hc. simplify_eq. by apply costs_refl.
Qed.

(** ** The rule for calls on L2 *)

Lemma l2_call_ok_relayed a t v d w w' :
  l2_call_ok a messengerAddr t v d w w' → relayed_ok l2_inv (margin a) ethBridgeAddr l1Bridge a t d w w'.
Proof.
  pose proof l2_distinct as Hnd. rewrite !NoDup_cons, !not_elem_of_cons in Hnd. intros Hc Hi Hcl.
  destruct (Hc Hi) as [? Hle]; [|naive_solver|].
  - destruct Hcl as [?|(-> & ? & ?)]; [by left|by right].
  - split; [done|]. unfold l2_debit, claimOf in *.
    destruct (decide (t = ethBridgeAddr)) as [->|Hne]; [by rewrite !bool_decide_true in *|].
    rewrite !bool_decide_false in *; [done|by intros [_ ?]|done].
Qed.

Lemma l2_messenger_call_costs a env ext v d w w' :
  (∀ t d w w', ext t d w = Done w' → l2_call_ok a messengerAddr t 0 d w w') →
  messenger_call ext env v d w = Done w' → l2_costs a 0 w w'.
Proof.
  intros He. unfold messenger_call. destruct (decodeCalldata d) as [[]|]; try done; intros Hr; done_inv Hr;
    simplify_eq; try (by apply costs_refl).
  eapply (relay_costs l2_inv (margin a) ethBridgeAddr l1Bridge a); [..|exact Hr].
  - by intros ? [].
  - by intros ms w0 [] ?.
  - intros. unfold margin, supply, sent. cbn. lia.
  - intros. by eapply l2_call_ok_relayed, He.
Qed.

Lemma l2_call_ok_other a s t v d w w1 w' :
  t ≠ ethBridgeAddr → pay s t v w = Done w1 → l2_costs a 0 w1 w' → l2_call_ok a s t v d w w'.
Proof.
  intros Ht Hp Hc Hi Hcl _. assert (l2_good w) as Hg by (split; [done|]; destruct Hcl as [|(_&?&_)]; done).
  pose proof (l2_debit_nonneg a s t d).
  destruct (costs_trans _ _ 0 0 (l2_debit a s t d) _ _ _ (l2_costs_pay a _ _ _ _ _ Hp) Hc); [lia|done|done].
Qed.

Lemma ethBridge_call_ok a env s v d w w1 w' :
  pay s ethBridgeAddr v w = Done w1 → ethBridge_call env s v d w1 = Done w' →
  l2_call_ok a s ethBridgeAddr v d w w'.
Proof.
  intros Hp Hc Hi Hcl Hs. destruct (pay_same _ _ _ _ _ Hp) as (_ & Hm & Happ).
  assert (claims w) as Hclaims.
  { destruct Hcl as [|(-> & _ & Hne & asset & n & receiver & Hd)]; [done|]. exfalso.
    unfold ethBridge_call, ethBridge_receiveAssets in Hc. rewrite Hd in Hc. done_inv Hc.
    apply onlyCrossChainSender_Done in E0 as [_ Heq]. rewrite Hm, Happ, (inv2_remote _ Hi) in Heq. done. }
  eapply (costs_trans _ _ 0); [by eapply l2_costs_pay|by eapply ethBridge_call_costs|done|by split].
Qed.

Lemma l2_call_rule a depth env s t v d subs w w' :
  0 < block_timestamp env → call depth env s t v d subs w = Done w' → l2_call_ok a s t v d w w'.
Proof.
  intros Hnow. pose proof l2_distinct as Hnd. rewrite !NoDup_cons, !not_elem_of_cons in Hnd.
  apply (call_rule env (costs l2_good (margin a) 0) (l2_call_ok a) (λ _ x, x ≠ ethBridgeAddr ∧ x ≠ messengerAddr)).
  - intros w0. by apply costs_refl.
  - intros w1 w2 w3 ??. by eapply costs_trans.
  - intros s' v' d' w0 w1 w2 Hp Hb Hi Hcl Hs. eapply l2_call_ok_other; [naive_solver|done| |done..].
    by eapply l2_bus_call_costs.
  - intros ext s' v' d' w0 w1 w2 He Hp Hm. eapply l2_call_ok_other; [naive_solver|done|]. by eapply l2_messenger_call_costs.
  - intros ext s' t' v' d' w0 w1 w2 _ _ _ _ Hp. cbn. unfold l2_call.
    case_bool_decide as Hbr; [subst; intros Hc; by eapply ethBridge_call_ok|].
    intros Hc Hi Hcl Hs. eapply l2_call_ok_other; [done..| |done|done|done]. done_inv Hc.
    replace 0 with (only (remoteOf w1 t') a 0) by (unfold only; by case_bool_decide).
    eapply l2_costs_token; [done|]. intros. by eapply wrapped_call_other.
  - intros w0 x (_&?&Hx) _. split; [|done]. intros ->. cbn in Hx. unfold l2_isApp in Hx.
    by rewrite bool_decide_true in Hx.
  - intros x t' v' d' w0 w1 [Hx1 Hx2] Hc. split; [|done]. intros Hg.
    destruct (Hc (proj1 Hg)) as [? Hle]; [left; apply Hg|done|]. split; [done|].
    unfold l2_debit in Hle. by rewrite bool_decide_false in Hle by naive_solver.
  - intros s' t' v' d' w0 w1 w2 Hp (_&_&Ho) HR. eapply l2_call_ok_other; [|done..].
    intros ->. cbn in Ho. unfold l2_isApp in Ho. by rewrite bool_decide_true in Ho.
Qed.
End l2_spec.
