(* ===== verification/BridgeSystem.v ===== *)
(** * Both bridges together

    L1 and L2 with their contracts, under any transactions on both.  If the messages that
    were stored on a bus were published on the other chain, as the enclave extracts them
    ([CrossChain]) for its own bus and for the rollups, then the bridge on L1 holds what
    the tokens on L2 stand for, and claims can be paid.  The contracts do not ensure
    this: anyone can have a message stored on L1 that was not published. *)

From S2P Require Import Prelude Types Codec Bytes CrossChain Solidity MessageBusContract ContractCalls L1Contracts L2Contracts ContractsSpec BridgeFlow L1BridgeSpec L2BridgeSpec.
Local Open Scope Z_scope.

Section system.
Context `{MessageHash, Ownable Ow, ABI, ECDSARecover, AddressBytes, AccessControl R, ERC20 T,
  !Deployment (L1App R T), !L1Deployment, !Deployment (L2App R T), !L2Deployment,
  !MessageHashOk, !OwnableOk Ow, !ABIOk, !AccessControlOk R, !ERC20Ok T, !L2DeploymentOk (L2App R T)}
  (admin : Address) {Hdep1 : L1DeploymentOk (L1App R T) admin ethBridgeAddr}
  {Hdep2 : L2BridgeOk (L2App R T) bridgeAddr}.
Implicit Types (u : Chain Ow (L1App R T)) (w : Chain Ow (L2App R T)) (a : Address).

Local Abbreviation L1 := (L1App R T).
Local Abbreviation L2 := (L2App R T).
Local Abbreviation messenger1 := (messengerAddr (App := L1App R T)).
Local Abbreviation messenger2 := (messengerAddr (App := L2App R T)).

(** Transactions of accounts: the contracts sign none. *)
Definition l1_tx u u' : Prop := ∃ now s t v d subs, 0 < now ∧
  s ≠ bridgeAddr ∧ s ≠ messenger1 ∧ (s = admin → admin_honest ethBridgeAddr d) ∧
  transact now s t v d subs u = Done u'.

Definition l2_tx w w' : Prop := ∃ now s t v d subs, 0 < now ∧
  s ≠ ethBridgeAddr ∧ s ≠ messenger2 ∧ transact now s t v d subs w = Done w'.

(** What the enclave extracts from the log of a bus. *)
Definition extracted (b : MessageBusState Ow) : list CrossChainMessage :=
  createCrossChainMessage <$> busLog b.

(** What was stored on each chain was published on the other.  [storeCrossChainMessage] and
    [AddRollup] do not check this. *)
Definition only_published u w : Prop :=
  stored (bus u) ⊆ extracted (bus w) ∧ stored (bus w) ⊆ extracted (bus u).

(** The contracts as they are deployed, the other bridge set: nothing was sent, and the
    bridge has approved nobody. *)
Record l1_deployed u : Prop := {
  dep1_messaging : fresh_messaging u;
  dep1_bridge : obscuroBridge (app u) =
    mkObscuroBridge (bridgeRoles (newObscuroBridge admin)) ethBridgeAddr 0;
  dep1_tokens : ∀ x tk, l1Tokens (app u) !! x = Some tk →
    x ≠ 0 ∧ unspendable tk bridgeAddr ∧ 0 <= balance tk bridgeAddr;
  dep1_eth : eth_ok u
}.

Record l2_deployed w : Prop := {
  dep2_messaging : fresh_messaging w;
  dep2_bridge : ethereumBridge (app w) = newEthereumBridge bridgeAddr;
  dep2_tokens : l2Tokens (app w) = ∅
}.

(** That is what the enclave does: what it finds in receipts that record the events of a
    bus is extracted from the log of this bus. *)
Lemma messagesFrom_extracted `{MessageBus} (b : MessageBusState Ow) addr rs ms :
  (∀ r lg, r ∈ rs → lg ∈ CrossChain.published addr r → ∃ m, m ∈ busLog b ∧ UnpackEvent (log_data lg) = Some m) →
  Forall (λ r, r_status r ≠ 0 → Forall (λ lg, log_topics lg ≠ []) (r_logs r)) rs →
  messagesFrom addr (map Some rs) = Ok ms → ms ⊆ extracted b.
Proof.
  intros Hev Htop. unfold messagesFrom. rewrite filterLogsFromReceipts_ok by done. cbn.
  unfold convertLogsToMessages. intros Hms%mapR_Ok m Hm.
  destruct (proj1 (list_elem_of_lookup _ _) Hm) as [i Hi]. destruct (Forall2_lookup_r _ _ _ _ _ Hms Hi) as (lg & Hlg & Hc).
  apply list_elem_of_lookup_2, list_elem_of_In, in_flat_map in Hlg as (r & Hr & Hlg).
  apply list_elem_of_In in Hr, Hlg. destruct (Hev _ _ Hr Hlg) as (m0 & Hin & Hun). rewrite Hun in Hc. cbn in Hc.
  injection Hc as <-. apply list_elem_of_fmap. eauto.
Qed.

(** ** The invariants of the two chains *)

Record l1_fine u : Prop := {
  fine_l1 : l1_good admin ethBridgeAddr u;
  fine_surplus : ∀ a, 0 <= surplus a u;
  fine_eth : eth_ok u
}.

Record l2_fine w : Prop := {
  fine_l2 : l2_good bridgeAddr w;
  fine_margin : ∀ a, 0 <= margin a w
}.

Lemma fresh_flow {App} (w : Chain Ow App) b a :
  fresh_messaging w → sent b a w = 0 ∧ withdrawn b a w = 0 ∧ consumed w = [].
Proof. intros (x & Hb & Hm). unfold sent, withdrawn, consumed. by rewrite Hb. Qed.

Lemma l1_deployed_fine u : l1_deployed u → l1_fine u.
Proof.
  intros [Hm Hb Ht He]. destruct (fresh_flow u bridgeAddr 0 Hm) as (_&_&Hc).
  split; [split; [split|]|..]; rewrite ?Hb; cbn; try done.
  - by apply fresh_messaging_ok.
  - intros x. rewrite !hasRole_grant, hasRole_none, (bool_decide_false (ADMIN_ROLE = _ ∧ _)) by naive_solver.
    rewrite !orb_false_r. by intros [_ <-]%bool_decide_eq_true.
  - intros x. rewrite !hasRole_grant, hasRole_none, !bool_decide_false; naive_solver.
  - intros x. rewrite !hasRole_grant, hasRole_none, (bool_decide_false (NATIVE_TOKEN_ROLE = _ ∧ _)) by naive_solver.
    rewrite !orb_false_r. by intros [_ <-]%bool_decide_eq_true.
  - intros x tk Hx. by destruct (Ht _ _ Hx) as (?&?&_).
  - intros m asset n Hin. rewrite Hc in Hin. by apply elem_of_nil in Hin.
  - intros a. destruct (fresh_flow u bridgeAddr a Hm) as (Hp&Hw&_). unfold surplus, locked. rewrite Hp, Hw.
    case_bool_decide; [specialize (He bridgeAddr); lia|].
    destruct (l1Tokens (app u) !! a) as [tk|] eqn:Ha; [destruct (Ht _ _ Ha) as (_&_&?)|]; lia.
Qed.

Lemma l2_deployed_fine w : l2_deployed w → l2_fine w.
Proof.
  intros [Hm Hb Ht]. destruct (fresh_flow w ethBridgeAddr 0 Hm) as (_&_&Hc).
  split; [split; [split|]|..]; rewrite ?Hb, ?Ht; cbn; try done.
  - by apply fresh_messaging_ok.
  - intros l [? Hx]. by rewrite ?Ht, lookup_empty in Hx.
  - intros m asset n Hin. rewrite Hc in Hin. by apply elem_of_nil in Hin.
  - intros a. destruct (fresh_flow w ethBridgeAddr a Hm) as (Hp&Hw&_). unfold margin, supply. by rewrite Hp, Hw, Ht.
Qed.

Lemma l1_tx_costs a u u' : l1_tx u u' → costs (l1_good admin ethBridgeAddr) (surplus a) 0 u u'.
Proof.
  intros (now & s & t & v & d & subs & Hnow & Hs1 & Hs2 & Hadm & Hc) Hg. unfold transact in Hc.
  destruct (l1_call_rule admin ethBridgeAddr a _ (mkEnv s now) _ _ _ _ _ _ _ Hnow Hc (proj1 Hg)) as [? Hle];
    [left; apply Hg|by split|]. split; [done|].
  unfold debit in Hle. rewrite !bool_decide_false in Hle; [done|done|by intros [? _]].
Qed.

Lemma l2_tx_costs a w w' : l2_tx w w' → costs (l2_good bridgeAddr) (margin a) 0 w w'.
Proof.
  intros (now & s & t & v & d & subs & Hnow & Hs1 & Hs2 & Hc) Hg. unfold transact in Hc.
  destruct (l2_call_rule bridgeAddr a _ (mkEnv s now) _ _ _ _ _ _ _ Hnow Hc (proj1 Hg)) as [? Hle];
    [left; apply Hg|done|]. split; [done|].
  unfold l2_debit in Hle. rewrite bool_decide_false in Hle; [done|by intros [? _]].
Qed.

Lemma l1_history_fine u0 u : l1_deployed u0 → rtc l1_tx u0 u → l1_fine u.
Proof.
  intros Hd Hr. apply l1_deployed_fine in Hd. induction Hr as [u|u1 u2 u3 Htx _ IH]; [done|]. apply IH.
  destruct Hd as [Hg Hs He]. split.
  - by apply (l1_tx_costs 0 _ _ Htx).
  - intros a. specialize (Hs a). destruct (l1_tx_costs a _ _ Htx Hg). lia.
  - destruct Htx as (now & s & t & v & d & subs & _ & _ & _ & _ & Hc). unfold transact in Hc. by eapply call_eth.
Qed.

Lemma l2_history_fine w0 w : l2_deployed w0 → rtc l2_tx w0 w → l2_fine w.
Proof.
  intros Hd Hr. apply l2_deployed_fine in Hd. induction Hr as [w|w1 w2 w3 Htx _ IH]; [done|]. apply IH.
  destruct Hd as [Hg Hm]. split; [by apply (l2_tx_costs 0 _ _ Htx)|].
  intros a. specialize (Hm a). destruct (l2_tx_costs a _ _ Htx Hg). lia.
Qed.

(** ** What is claimed was sent *)

(** Distinct messages that were published on the other chain, all transfers among them
    by the other bridge. *)
Lemma claimed_le {App1 App2} (v : Chain Ow App1) (v' : Chain Ow App2) b remote a l :
  NoDup l → l ⊆ extracted (bus v') →
  (∀ m asset n, m ∈ l → transferOf m = Some (b, asset, n) → msg_sender m = remote) →
  sumZ (amountTo b a) l <= sent remote a v'.
Proof.
  intros Hnd Hsub Hl. unfold sent.
  assert (sumZ (amountTo b a) l <= sumZ (amount a) (filter (λ m, msg_sender m = remote) l)) as Hle.
  { clear Hnd Hsub. induction l as [|m l IH]; [done|].
    assert (sumZ (amountTo b a) l <= sumZ (amount a) (filter (λ m, msg_sender m = remote) l)) as IH'.
    { apply IH. intros m' ????. eapply Hl; [by right|done]. }
    rewrite filter_cons. cbn [sumZ]. pose proof (amountTo_le b a m). case_decide as Hm; cbn [sumZ]; [lia|].
    assert (amountTo b a m = 0) as ->; [|lia]. unfold amountTo.
    destruct (transferOf m) as [[[t asset] n]|] eqn:Ht; [|done]. rewrite bool_decide_false; [done|].
    intros ->. apply Hm. eapply Hl; [by left|done]. }
  assert (∀ k, sumZ (amount a) (createCrossChainMessage <$> k) = sumZ (amount a) k) as Hsame.
  { intros k. induction k as [|m k IH]; cbn; [done|]. by rewrite IH. }
  etrans; [exact Hle|]. rewrite <-(Hsame (filter _ (busLog (bus v')))). apply sumZ_subset.
  - intros m. apply amount_nonneg.
  - by apply NoDup_filter.
  - intros m [Hm (m0 & -> & Hin)%Hsub%list_elem_of_fmap]%list_elem_of_filter.
    apply list_elem_of_fmap. exists m0. split; [done|]. by apply list_elem_of_filter.
Qed.

Lemma withdrawn_le_published u w a :
  l1_fine u → l2_fine w → only_published u w →
  withdrawn bridgeAddr a u <= sent ethBridgeAddr a w ∧
  withdrawn ethBridgeAddr a w <= sent bridgeAddr a u.
Proof.
  intros [[Hi1 Hc1] _ _] [[Hi2 Hc2] _] [Hs1 Hs2]. split.
  - apply (claimed_le u w); [apply NoDup_filter, ok_nodup, ok_bus, Hi1| |done].
    intros m [_ ?]%list_elem_of_filter. by apply Hs1.
  - apply (claimed_le w u); [apply NoDup_filter, ok_nodup, ok_bus, Hi2| |done].
    intros m [_ ?]%list_elem_of_filter. by apply Hs2.
Qed.

(** C20: after any transactions on both chains, by accounts and with an administrator that
    neither changes the other bridge nor names another administrator, and as long as the
    messages stored on each chain were published on the other, which the contracts do not
    check: no more was paid or issued than was sent, and the bridge on L1 holds, of every
    asset, what its tokens on L2 stand for and what is on its way in either direction. *)
Theorem bridge_solvent u0 u w0 w a :
  l1_deployed u0 → l2_deployed w0 → rtc l1_tx u0 u → rtc l2_tx w0 w → only_published u w →
  let deposits := sent bridgeAddr a u - withdrawn ethBridgeAddr a w in
  let withdrawals := sent ethBridgeAddr a w - withdrawn bridgeAddr a u in
  0 <= deposits ∧ 0 <= withdrawals ∧ supply a w + deposits + withdrawals <= locked a u.
Proof.
  intros Hd1 Hd2 Hr1 Hr2 Hpub. pose proof (l1_history_fine _ _ Hd1 Hr1) as Hf1. pose proof (l2_history_fine _ _ Hd2 Hr2) as Hf2.
  cbn zeta. destruct (withdrawn_le_published _ _ a Hf1 Hf2 Hpub) as [Hle1 Hle2]. split_and!; [lia..|].
  pose proof (fine_surplus _ Hf1 a) as Hs. pose proof (fine_margin _ Hf2 a) as Hm.
  unfold surplus, margin in Hs, Hm. lia.
Qed.

(** A final claim is for no more than the bridge holds. *)
Lemma claim_covered u w m asset n :
  l1_fine u → l2_fine w → only_published u w → m ∈ stored (bus u) → messageHash m ∉ messageConsumed (messenger u) →
  msg_sender m = ethBridgeAddr → transferOf m = Some (bridgeAddr, asset, n) → n <= locked asset u.
Proof.
  intros Hf1 Hf2 Hpub Hin Hnc Hsnd Ht. pose proof (fine_surplus _ Hf1 asset) as Hs. pose proof (fine_margin _ Hf2 asset) as Hm.
  destruct (withdrawn_le_published _ _ asset Hf1 Hf2 Hpub) as [_ Hle2].
  destruct Hf1 as [[Hi1 Hc1] _ _], Hpub as [Hs1 _].
  assert (sumZ (amountTo bridgeAddr asset) (m :: consumed u) <= sent ethBridgeAddr asset w) as Hle1.
  { apply (claimed_le u w).
    - constructor; [|apply NoDup_filter, ok_nodup, ok_bus, Hi1]. by intros [? _]%list_elem_of_filter.
    - intros m' [->|[_ ?]%list_elem_of_filter]%elem_of_cons; by apply Hs1.
    - intros m' asset' n' [->|?]%elem_of_cons; [done|by apply Hc1]. }
  cbn [sumZ] in Hle1. fold (withdrawn bridgeAddr asset u) in Hle1.
  assert (amountTo bridgeAddr asset m = n) as Hn by (unfold amountTo, only; rewrite Ht; by rewrite !bool_decide_true).
  pose proof (supply_nonneg asset w). unfold surplus, margin in *. lia.
Qed.

(** A call of the messenger to the bridge with a claim of tokens. *)
Lemma call_claim depth env d subs u a n receiver tk :
  l1_inv admin ethBridgeAddr u → eth_ok u → crossChainSender (messenger u) = ethBridgeAddr →
  decodeCalldata d = Some (ReceiveAssets a n receiver) →
  hasRole (bridgeRoles (obscuroBridge (app u))) ERC20_TOKEN_ROLE a = true →
  l1Tokens (app u) !! a = Some tk → n <= balance tk bridgeAddr → receiver ≠ 0 →
  ∃ u' tk', call (S depth) env messenger1 bridgeAddr 0 d subs u = Done u' ∧
    l1Tokens (app u') !! a = Some tk' ∧
    ∀ x, balance tk' x = balance tk x - only bridgeAddr x n + only receiver x n.
Proof.
  intros Hi He Hsnd Hd Hrole Htk Hn Hr. destruct (pay_zero messenger1 bridgeAddr u He) as (u1 & Hp & _).
  destruct (pay_same _ _ _ _ _ Hp) as (_ & Hm & Ha). pose proof (calldata_wf _ _ Hd) as [Hn0 _].
  destruct (transfer_succeeds tk bridgeAddr receiver n) as [tk' Htk']; [done|apply (l1_nonzero (App := L1))|done|].
  destruct (distinct_addresses admin ethBridgeAddr) as (Hd1&Hd2&Hd3&_).
  cbn [call]. rewrite Hp. cbn [mbind outcome_bind].
  rewrite !(bool_decide_false (bridgeAddr = _)) by done. cbn [isApp l1_contracts]. rewrite isApp_bridge.
  cbn [appCall l1_contracts]. unfold l1_call. rewrite bool_decide_false, bool_decide_true by done.
  unfold bridge_call. rewrite Hd. cbn [nonpayable require mbind outcome_bind Z.eqb].
  unfold bridge_receiveAssets, onlyCrossChainSender. rewrite Ha, Hm, Hsnd, (inv_remote _ _ _ Hi), Hrole.
  rewrite (bool_decide_true (messenger1 = _)), (bool_decide_true (ethBridgeAddr = _)) by done.
  unfold _receiveTokens, token_call. rewrite Ha, Htk. cbn [require orRevert mbind outcome_bind]. rewrite Htk'.
  cbn [orRevert mbind outcome_bind].
  eexists _, tk'. split_and!; [done|apply lookup_insert_eq|]. by apply transfer_balance.
Qed.

(** Relaying a final claim that the bridge can pay pays it. *)
Lemma relay_claim u s now m c a n receiver tk d :
  l1_inv admin ethBridgeAddr u → eth_ok u → m ∈ stored (bus u) →
  messageHash m ∉ messageConsumed (messenger u) →
  at0 (messageFinalityTimestamps (bus u)) (messageHash m) <= now → msg_sender m = ethBridgeAddr →
  abi_decode (msg_payload m) = Some c → cc_target c = bridgeAddr →
  decodeCalldata (cc_data c) = Some (ReceiveAssets a n receiver) →
  hasRole (bridgeRoles (obscuroBridge (app u))) ERC20_TOKEN_ROLE a = true →
  l1Tokens (app u) !! a = Some tk → n <= balance tk bridgeAddr → receiver ≠ 0 → receiver ≠ bridgeAddr →
  decodeCalldata d = Some (RelayMessage m) →
  ∃ u' tk', transact now s messenger1 0 d [] u = Done u' ∧
    l1Tokens (app u') !! a = Some tk' ∧ balance tk' receiver = balance tk receiver + n.
Proof.
  intros Hi He Hin Hnc Hts Hsnd Hdec Htgt Hcall Hrole Htk Hn Hr0 Hrb Hd.
  destruct (pay_zero s messenger1 u He) as (u1 & Hp & He1). destruct (pay_same _ _ _ _ _ Hp) as (Hb & Hm & Ha).
  destruct maxDepth_SS as [depth Hdepth].
  assert (messaging_ok u1) as Hok1 by (eapply messaging_ok_same; [apply (inv_messaging _ _ _ Hi)|done|by rewrite Hm..]).
  destruct (consumeMessage_succeeds (mkEnv s now) m u1) as (u2 & Hcons & Hok2 & Ha2 & He2); [done|by rewrite ?Hb, ?Hm..|].
  rewrite Ha in Ha2.
  destruct (call_claim depth (mkEnv s now) (cc_data c) [] (setCrossChainSender (msg_sender m) u2) a n receiver tk)
    as (u3 & tk' & Hcl & Htk' & Hbal); cbn; rewrite ?Ha2; try done.
  { eapply l1_inv_app; [exact Hi|done|]. by eapply messaging_ok_same. }
  { unfold eth_ok. cbn. by rewrite He2. }
  exists (setCrossChainSender 0 u3), tk'. split_and!; [|done|].
  - unfold transact. rewrite Hdepth. eapply call_relay_done; [|done..|by rewrite Htgt].
    by destruct (distinct_addresses admin ethBridgeAddr) as (_&_&_&_&_&?&_).
  - rewrite Hbal. unfold only. rewrite (bool_decide_false (bridgeAddr = _)), bool_decide_true by done. lia.
Qed.

(** C21: after any such transactions, and as long as the messages stored on each chain were
    published on the other, a claim that the bridge on L2 sent, for a token that is still
    listed on L1 and a receiver that is neither zero nor the bridge itself, and that is
    stored, final and not relayed yet, can be relayed by anyone and pays the receiver. *)
Theorem withdrawal_paid u0 u w0 w m c a n receiver tk d now s :
  l1_deployed u0 → l2_deployed w0 → rtc l1_tx u0 u → rtc l2_tx w0 w → only_published u w → 0 < now →
  m ∈ stored (bus u) → messageHash m ∉ messageConsumed (messenger u) →
  at0 (messageFinalityTimestamps (bus u)) (messageHash m) <= now →
  msg_sender m = ethBridgeAddr → abi_decode (msg_payload m) = Some c → cc_target c = bridgeAddr →
  decodeCalldata (cc_data c) = Some (ReceiveAssets a n receiver) →
  hasRole (bridgeRoles (obscuroBridge (app u))) ERC20_TOKEN_ROLE a = true →
  l1Tokens (app u) !! a = Some tk → receiver ≠ 0 → receiver ≠ bridgeAddr →
  decodeCalldata d = Some (RelayMessage m) →
  ∃ u' tk', transact now s messenger1 0 d [] u = Done u' ∧
    l1Tokens (app u') !! a = Some tk' ∧ balance tk' receiver = balance tk receiver + n.
Proof.
  intros Hd1 Hd2 Hr1 Hr2 Hpub Hnow Hin Hnc Hts Hsnd Hdec Htgt Hcall Hrole Htk Hr0 Hrb Hd.
  pose proof (l1_history_fine _ _ Hd1 Hr1) as Hf1. pose proof (l2_history_fine _ _ Hd2 Hr2) as Hf2.
  pose proof (fine_l1 _ Hf1) as [Hi _]. pose proof (fine_eth _ Hf1) as He.
  assert (n <= balance tk bridgeAddr) as Hn.
  { assert (transferOf m = Some (bridgeAddr, a, n)) as Ht by (unfold transferOf; rewrite Hdec; cbn; by rewrite Hcall, Htgt).
    pose proof (claim_covered _ _ _ _ _ Hf1 Hf2 Hpub Hin Hnc Hsnd Ht) as Hle. unfold locked in Hle.
    rewrite bool_decide_false, Htk in Hle; [done|]. by apply (inv_tokens _ _ _ Hi) in Htk as [? _]. }
  by eapply relay_claim.
Qed.

(** ** What the contracts do not prevent *)

(** The only check of [AddRollup] is that the aggregator it is told is attested. *)
Lemma addRollup_stores u s now r m :
  eth_ok u → owner (busOwner (bus u)) = mgmtAddr → mr_AggregatorID r ∈ attested (mgmt (app u)) →
  now + 1 < 2 ^ 256 → at0 (messageFinalityTimestamps (bus u)) (messageHash m) = 0 →
  ∃ u', transact now s mgmtAddr 0 (encodeWithSelector (AddRollup r "" [m])) [] u = Done u' ∧
    m ∈ stored (bus u') ∧ messenger u' = messenger u ∧ obscuroBridge (app u') = obscuroBridge (app u) ∧
    l1Tokens (app u') = l1Tokens (app u) ∧
    at0 (messageFinalityTimestamps (bus u')) (messageHash m) = now + 1.
Proof.
  intros He Hown Hatt Hnow Hz. destruct (pay_zero s mgmtAddr u He) as (u1 & Hp & _).
  destruct (pay_same _ _ _ _ _ Hp) as (Hb & Hm & Ha). destruct (distinct_addresses admin ethBridgeAddr) as (_&_&_&_&_&_&?&?).
  assert (∃ bs, storeCrossChainMessage now mgmtAddr m 1 (bus u) = Done bs) as [bs Hbs].
  { unfold storeCrossChainMessage, checkedAdd. rewrite Hown, bool_decide_true by done. cbn.
    rewrite (proj2 (Z.ltb_lt _ _) Hnow). cbn. rewrite Hz. by eexists. }
  pose proof Hbs as (_ & _ & Hst & Hts & _)%storeCrossChainMessage_Done.
  exists (set_bus bs (set_mgmt (AppendRollup r (mgmt (app u))) u1)). cbn. rewrite Ha, Hm. split_and!; try done.
  - unfold transact. destruct maxDepth_SS as [depth ->]. remember (S depth) as k. cbn [call]. rewrite Hp. cbn [mbind outcome_bind].
    rewrite !(bool_decide_false (mgmtAddr = _)) by done. cbn [isApp appCall l1_contracts].
    assert (l1_isApp (app u1) mgmtAddr = true) as -> by (unfold l1_isApp; by rewrite bool_decide_true).
    unfold l1_call. rewrite bool_decide_true by done. unfold mgmt_call. rewrite calldata_roundtrip by done.
    unfold mgmt_AddRollup. cbn. rewrite Ha, bool_decide_true, Hb by done. cbn. by rewrite Hbs.
  - rewrite Hst. left.
  - by rewrite Hts, at0_insert, decide_True.
Qed.

(** C38: an account that knows the address of an attested aggregator takes tokens out of the
    bridge with two transactions: nothing ties the messages of a rollup to L2. *)
Theorem forged_withdrawal u s r seq a n receiver tk now :
  let m := mkMessage ethBridgeAddr seq 0 TRANSFER
             (abi_encode (mkCrossChainCall bridgeAddr (encodeWithSelector (ReceiveAssets a n receiver)) 0)) 0 in
  l1_good admin ethBridgeAddr u → eth_ok u → owner (busOwner (bus u)) = mgmtAddr →
  mr_AggregatorID r ∈ attested (mgmt (app u)) → s ≠ bridgeAddr → s ≠ messenger1 → s ≠ admin →
  0 < now → now + 1 < 2 ^ 256 → at0 (messageFinalityTimestamps (bus u)) (messageHash m) = 0 →
  hasRole (bridgeRoles (obscuroBridge (app u))) ERC20_TOKEN_ROLE a = true →
  l1Tokens (app u) !! a = Some tk → 0 <= n < 2 ^ 256 → n <= balance tk bridgeAddr →
  receiver ≠ 0 → receiver ≠ bridgeAddr →
  ∃ u1 u2 tk',
    transact now s mgmtAddr 0 (encodeWithSelector (AddRollup r "" [m])) [] u = Done u1 ∧
    transact (now + 1) s messenger1 0 (encodeWithSelector (RelayMessage m)) [] u1 = Done u2 ∧
    l1Tokens (app u2) !! a = Some tk' ∧ balance tk' receiver = balance tk receiver + n.
Proof.
  intros m Hg He Hown Hatt Hs1 Hs2 Hs3 Hnow Hnow' Hz Hrole Htk Hn Hbal Hr0 Hrb.
  destruct (addRollup_stores u s now r m) as (u1 & Hadd & Hin & Hm1 & Ho1 & Ht1 & Hts1); try done.
  pose proof Hadd as Hadd'. unfold transact in Hadd'.
  assert (eth_ok u1) as He1 by (by eapply call_eth).
  destruct (l1_call_rule admin ethBridgeAddr 0 _ (mkEnv s now) _ _ _ _ _ _ _ Hnow Hadd' (proj1 Hg)) as [[Hi1 _] _];
    [left; apply Hg|by split|].
  destruct (relay_claim u1 s (now + 1) m (mkCrossChainCall bridgeAddr (encodeWithSelector (ReceiveAssets a n receiver)) 0)
    a n receiver tk (encodeWithSelector (RelayMessage m))) as (u2 & tk' & ? & ? & ?); rewrite ?Ho1, ?Ht1, ?Hm1; try done.
  - intros Hc. by apply (ok_consumed _ (inv_messaging _ _ _ (proj1 Hg))) in Hc.
  - by rewrite Hts1.
  - apply crossChainCall_roundtrip.
  - by apply calldata_roundtrip.
  - by apply calldata_roundtrip.
  - eauto 10.
Qed.

(** what the bridge on L2 never sends: the native currency, and tokens of a contract,
    whose balance it is not allowed to read. *)
Theorem l2_withdrawal_limits w0 w env s v d w' :
  l2_deployed w0 → rtc l2_tx w0 w → s ≠ ethBridgeAddr →
  (∃ receiver, decodeCalldata d = Some (SendNative receiver)) ∨
  (tx_origin env ≠ s ∧ ∃ a n receiver, decodeCalldata d = Some (SendERC20 a n receiver)) →
  ethBridge_call env s v d w ≠ Done w'.
Proof.
  intros Hd Hr Hs Hcase. pose proof (l2_history_fine _ _ Hd Hr) as [[Hi _] _].
  unfold ethBridge_call. destruct Hcase as [(receiver & ->)|(Ho & a & n & receiver & ->)]; intros Hc.
  - by eapply sendNative_reverts.
  - done_inv Hc. unfold ethBridge_sendERC20, l2token_call in Hc. done_inv Hc. done_inv E1.
    cbn in E3. unfold burnFor, obs_balanceOf in E3. rewrite !bool_decide_false in E3 by done. by done_inv E3.
Qed.

(** While the zero address is listed as a token the claims of the native currency are
    paid as a token that does not exist. *)
Lemma native_claim_reverts ext s n receiver u u' :
  l1_inv admin ethBridgeAddr u → hasRole (bridgeRoles (obscuroBridge (app u))) ERC20_TOKEN_ROLE 0 = true →
  bridge_receiveAssets ext s 0 n receiver u ≠ Done u'.
Proof.
  intros Hi Hrole. unfold bridge_receiveAssets. rewrite Hrole. intros Hc. done_inv Hc.
  unfold _receiveTokens, token_call in Hc. done_inv Hc. by apply (inv_tokens _ _ _ Hi) in E0 as [? _].
Qed.
End system.
