(* ===== verification/ContractConcrete.v ===== *)
(** * Concrete contracts

    Instances of the interfaces of the contracts (calldata, hashes, [Ownable],
    [AccessControl], [ERC20], addresses) that meet their laws, for the examples of
    [ContractWitnesses]. *)

From S2P Require Import Prelude Types Codec Bytes Concrete HostWitnesses Solidity MessageBusContract ContractCalls L1Contracts L2Contracts L1BridgeSpec L2BridgeSpec.
Local Open Scope Z_scope.

(** ** Hashes and calldata *)

#[export] Instance concrete_messageHash : MessageHash := numberOf.
#[export] Instance concrete_messageHash_ok : MessageHashOk.
Proof. exact numberOf_inj. Qed.

#[export] Instance CrossChainCall_wire : Wire CrossChainCall :=
  iso_wire (λ c, (cc_target c, cc_data c, cc_gas c)) (λ '(a, b, c), mkCrossChainCall a b c).
#[export] Instance CrossChainCall_wire_ok : WireOk CrossChainCall.
Proof. by apply iso_wire_ok; intros []. Qed.

(** A selector, and arguments by their kind. *)
Definition RawCall : Type := Z * list Z * list bytes * list string * list CrossChainMessage.

Definition roleZ (r : Role) : Z :=
  match r with DEFAULT_ADMIN_ROLE => 0 | ADMIN_ROLE => 1 | NATIVE_TOKEN_ROLE => 2 | ERC20_TOKEN_ROLE => 3 end.
Definition zRole (z : Z) : Role :=
  match z with 0 => DEFAULT_ADMIN_ROLE | 1 => ADMIN_ROLE | 2 => NATIVE_TOKEN_ROLE | _ => ERC20_TOKEN_ROLE end.

Definition callRaw (c : Call) : RawCall :=
  match c with
  | PublishMessage n t p l => (1, [n; t; l], [p], [], [])
  | VerifyMessageFinalized m => (2, [], [], [], [m])
  | GetMessageTimeOfFinality m => (3, [], [], [], [m])
  | StoreCrossChainMessage m n => (4, [n], [], [], [m])
  | OwnableFn (TransferOwnership a) => (5, [a], [], [], [])
  | OwnableFn RenounceOwnership => (6, [], [], [], [])
  | RelayMessage m => (7, [], [], [], [m])
  | EncodeCall t p => (8, [t], [p], [], [])
  | MessageBusOf => (9, [], [], [], [])
  | CrossChainSenderOf => (10, [], [], [], [])
  | AddRollup r d ms => (11, [mr_Hash r; mr_AggregatorID r; mr_LastSequenceNumber r], [], [d], ms)
  | InitializeNetworkSecret a s h g => (12, [a], [s], [h; g], [])
  | RequestNetworkSecret r => (13, [], [], [r], [])
  | RespondNetworkSecret a r sig s h v => (14, [a; r; if v then 1 else 0], [sig; s], [h], [])
  | GetRollupByHash h => (15, [h], [], [], [])
  | GetHostAddresses => (16, [], [], [], [])
  | IsWithdrawalAvailable => (17, [], [], [], [])
  | Attested a => (18, [a], [], [], [])
  | SendNative r => (19, [r], [], [], [])
  | SendERC20 a n r => (20, [a; n; r], [], [], [])
  | ReceiveAssets a n r => (21, [a; n; r], [], [], [])
  | PromoteToAdmin a => (22, [a], [], [], [])
  | WhitelistToken a n s => (23, [a], [], [n; s], [])
  | RemoveToken a => (24, [a], [], [], [])
  | SetRemoteBridge a => (25, [a], [], [], [])
  | OnCreateTokenCommand a n s => (26, [a], [], [n; s], [])
  | HasTokenMapping a => (27, [a], [], [], [])
  | AccessFn (GrantRole r a) => (28, [roleZ r; a], [], [], [])
  | AccessFn (RevokeRole r a) => (29, [roleZ r; a], [], [], [])
  | AccessFn (RenounceRole r a) => (30, [roleZ r; a], [], [], [])
  | ERC20Fn (Transfer a n) => (31, [a; n], [], [], [])
  | ERC20Fn (TransferFrom a b n) => (32, [a; b; n], [], [], [])
  | ERC20Fn (Approve a n) => (33, [a; n], [], [], [])
  | IssueFor a n => (34, [a; n], [], [], [])
  | BurnFor a n => (35, [a; n], [], [], [])
  | BalanceOf a => (36, [a], [], [], [])
  | Allowance o s => (37, [o; s], [], [], [])
  end.

Definition rawCall (r : RawCall) : option Call :=
  match r with
  | (1, [n; t; l], [p], [], []) => Some (PublishMessage n t p l)
  | (2, [], [], [], [m]) => Some (VerifyMessageFinalized m)
  | (3, [], [], [], [m]) => Some (GetMessageTimeOfFinality m)
  | (4, [n], [], [], [m]) => Some (StoreCrossChainMessage m n)
  | (5, [a], [], [], []) => Some (OwnableFn (TransferOwnership a))
  | (6, [], [], [], []) => Some (OwnableFn RenounceOwnership)
  | (7, [], [], [], [m]) => Some (RelayMessage m)
  | (8, [t], [p], [], []) => Some (EncodeCall t p)
  | (9, [], [], [], []) => Some MessageBusOf
  | (10, [], [], [], []) => Some CrossChainSenderOf
  | (11, [h; a; q], [], [d], ms) => Some (AddRollup (mkMetaRollup h a q) d ms)
  | (12, [a], [s], [h; g], []) => Some (InitializeNetworkSecret a s h g)
  | (13, [], [], [r], []) => Some (RequestNetworkSecret r)
  | (14, [a; r; v], [sig; s], [h], []) => Some (RespondNetworkSecret a r sig s h (v =? 1))
  | (15, [h], [], [], []) => Some (GetRollupByHash h)
  | (16, [], [], [], []) => Some GetHostAddresses
  | (17, [], [], [], []) => Some IsWithdrawalAvailable
  | (18, [a], [], [], []) => Some (Attested a)
  | (19, [r], [], [], []) => Some (SendNative r)
  | (20, [a; n; r], [], [], []) => Some (SendERC20 a n r)
  | (21, [a; n; r], [], [], []) => Some (ReceiveAssets a n r)
  | (22, [a], [], [], []) => Some (PromoteToAdmin a)
  | (23, [a], [], [n; s], []) => Some (WhitelistToken a n s)
  | (24, [a], [], [], []) => Some (RemoveToken a)
  | (25, [a], [], [], []) => Some (SetRemoteBridge a)
  | (26, [a], [], [n; s], []) => Some (OnCreateTokenCommand a n s)
  | (27, [a], [], [], []) => Some (HasTokenMapping a)
  | (28, [r; a], [], [], []) => Some (AccessFn (GrantRole (zRole r) a))
  | (29, [r; a], [], [], []) => Some (AccessFn (RevokeRole (zRole r) a))
  | (30, [r; a], [], [], []) => Some (AccessFn (RenounceRole (zRole r) a))
  | (31, [a; n], [], [], []) => Some (ERC20Fn (Transfer a n))
  | (32, [a; b; n], [], [], []) => Some (ERC20Fn (TransferFrom a b n))
  | (33, [a; n], [], [], []) => Some (ERC20Fn (Approve a n))
  | (34, [a; n], [], [], []) => Some (IssueFor a n)
  | (35, [a; n], [], [], []) => Some (BurnFor a n)
  | (36, [a], [], [], []) => Some (BalanceOf a)
  | (37, [o; s], [], [], []) => Some (Allowance o s)
  | _ => None
  end.

Lemma rawCall_callRaw c : rawCall (callRaw c) = Some c.
Proof.
  destruct c as [| | | |[]| | | | |[]| | |? ? ? ? ? []| | | | | | | | | | | | | |[[]|[]|[]]|[]| | | |]; reflexivity.
Qed.

#[export] Instance is_u256_dec n : Decision (is_u256 n).
Proof. unfold is_u256. apply _. Defined.
#[export] Instance call_wf_dec c : Decision (call_wf c).
Proof. destruct c; cbn; apply _. Defined.

#[export] Instance concrete_abi : ABI := {|
  encodeWithSelector c := put (callRaw c);
  decodeCalldata d :=
    match get d with
    | Some (r, []) => c ← rawCall r; if decide (call_wf c) then Some c else None
    | _ => None
    end;
  abi_encode c := put c;
  abi_decode d := match get d with Some (c, []) => Some c | _ => None end
|}.

#[export] Instance concrete_abi_ok : ABIOk.
Proof.
  split.
  - intros c Hc. cbn [encodeWithSelector decodeCalldata concrete_abi].
    rewrite <-(app_nil_r (put (callRaw c))), get_put, rawCall_callRaw. cbn [mbind option_bind]. by rewrite decide_True.
  - intros d c. cbn [decodeCalldata concrete_abi]. destruct (get d) as [[r [|]]|]; [|done..].
    destruct (rawCall r) as [c'|]; cbn; [|done]. case_decide; [by intros [= <-]|done].
  - reflexivity.
  - intros c. cbn [abi_encode abi_decode concrete_abi]. by rewrite <-(app_nil_r (put c)), get_put.
Qed.

(** ** The libraries *)

#[export] Instance concrete_ownable : Ownable Z := {|
  newOwnable a := a;
  owner o := o;
  ownableCall o s c :=
    if bool_decide (s = o) then Some (match c with TransferOwnership a => a | RenounceOwnership => 0 end) else None
|}.
#[export] Instance concrete_ownable_ok : OwnableOk Z.
Proof. split; [done|]. intros o s c o'. cbn. by case_bool_decide. Qed.

#[export] Instance concrete_access : AccessControl (list (Role * Address)) := {|
  noRoles := [];
  hasRole r role a := bool_decide ((role, a) ∈ r);
  _grantRole r role a := (role, a) :: r;
  _revokeRole r role a := filter (λ x, x ≠ (role, a)) r;
  accessCall r s c :=
    match c with
    | GrantRole role a => if bool_decide ((DEFAULT_ADMIN_ROLE, s) ∈ r) then Some ((role, a) :: r) else None
    | RevokeRole role a =>
        if bool_decide ((DEFAULT_ADMIN_ROLE, s) ∈ r) then Some (filter (λ x, x ≠ (role, a)) r) else None
    | RenounceRole role a => if bool_decide (a = s) then Some (filter (λ x, x ≠ (role, a)) r) else None
    end
|}.
#[export] Instance concrete_access_ok : AccessControlOk (list (Role * Address)).
Proof.
  split; cbn [noRoles hasRole _grantRole _revokeRole accessCall concrete_access].
  - intros role a. apply bool_decide_false, not_elem_of_nil.
  - intros r role a role' a'. rewrite <-bool_decide_or. apply bool_decide_ext. rewrite elem_of_cons. naive_solver.
  - intros r role a role' a'. rewrite <-bool_decide_not, <-bool_decide_and. apply bool_decide_ext.
    rewrite list_elem_of_filter. naive_solver.
  - intros r s c r' Hno Hc role a. rewrite !bool_decide_eq_true. specialize (Hno s). apply bool_decide_eq_false in Hno.
    destruct c; rewrite ?bool_decide_false in Hc by done; try done. case_bool_decide; [|done].
    injection Hc as <-. by rewrite list_elem_of_filter; intros [_ ?].
  - intros r s c r' Hno Hc role a Hne. apply bool_decide_ext. specialize (Hno s). apply bool_decide_eq_false in Hno.
    destruct c; rewrite ?bool_decide_false in Hc by done; try done. case_bool_decide; [|done].
    injection Hc as <-. rewrite list_elem_of_filter. naive_solver.
Qed.

(** A token with its balances, allowances and supply. *)
Record Token := mkToken {
  tk_balances : gmap Address Z;
  tk_allowances : gmap (Address * Address) Z;
  tk_supply : N
}.

Definition move (from to : Address) (n : Z) (g : gmap Address Z) : gmap Address Z :=
  let g := <[from := at0 g from - n]> g in <[to := at0 g to + n]> g.

Lemma at0_move from to n g x : at0 (move from to n g) x = at0 g x - only from x n + only to x n.
Proof.
  unfold move. rewrite !at0_insert. unfold only. repeat (case_decide || case_bool_decide); subst; (lia || done).
Qed.

#[export] Instance concrete_erc20 : ERC20 Token := {|
  newERC20 := mkToken ∅ ∅ 0;
  balance t a := at0 (tk_balances t) a;
  allowed t a b := at0 (tk_allowances t) (a, b);
  totalSupply t := Z.of_N (tk_supply t);
  _mint t a n :=
    if decide (0 <= n) then
      Some (mkToken (<[a := at0 (tk_balances t) a + n]> (tk_balances t)) (tk_allowances t) (tk_supply t + Z.to_N n))
    else None;
  _burn t a n :=
    if decide (0 <= n <= at0 (tk_balances t) a ∧ n <= Z.of_N (tk_supply t)) then
      Some (mkToken (<[a := at0 (tk_balances t) a - n]> (tk_balances t)) (tk_allowances t) (tk_supply t - Z.to_N n))
    else None;
  erc20Call t s c :=
    match c with
    | Transfer to n =>
        if decide (0 <= n <= at0 (tk_balances t) s) then
          Some (mkToken (move s to n (tk_balances t)) (tk_allowances t) (tk_supply t))
        else None
    | TransferFrom from to n =>
        if decide (0 <= n <= at0 (tk_balances t) from ∧ n <= at0 (tk_allowances t) (from, s)) then
          Some (mkToken (move from to n (tk_balances t))
            (<[(from, s) := at0 (tk_allowances t) (from, s) - n]> (tk_allowances t)) (tk_supply t))
        else None
    | Approve y n => Some (mkToken (tk_balances t) (<[(s, y) := n]> (tk_allowances t)) (tk_supply t))
    end
|}.

#[export] Instance concrete_erc20_ok : ERC20Ok Token.
Proof.
  split; cbn [newERC20 balance allowed totalSupply _mint _burn erc20Call concrete_erc20].
  - done.
  - intros t. lia.
  - intros t a n t'. case_decide; [|done]. intros [= <-]. cbn. lia.
  - intros t a n t'. case_decide; [|done]. intros [= <-] x. cbn. rewrite at0_insert. unfold only.
    repeat (case_decide || case_bool_decide); subst; (lia || done).
  - intros t a n t'. case_decide; [|done]. intros [= <-]. cbn. lia.
  - intros t a n t'. case_decide; [|done]. intros [= <-]. split; [lia|]. intros x. cbn. rewrite at0_insert. unfold only.
    repeat (case_decide || case_bool_decide); subst; (lia || done).
  - intros t s [to n|from to n|y n] t'; repeat case_decide; try done; by intros [= <-].
  - intros t s to n t'. case_decide; [|done]. intros [= <-] x. apply at0_move.
  - intros t s to n t'. case_decide; [|done]. by intros [= <-].
  - intros t s to n Hn _ _. rewrite decide_True by done. by eexists.
  - intros t s from to n t'. case_decide; [|done]. intros [= <-] x. apply at0_move.
  - intros t s from to n t'. case_decide; [|done]. intros [= <-]. split; [lia|]. intros x y. cbn. rewrite at0_insert.
    case_decide as Heq; [injection Heq as <- <-; lia|done].
  - intros t s y n t' [= <-]. done.
  - intros t s y n t' [= <-] x z Hne. cbn. rewrite at0_insert. case_decide as Heq; [congruence|done].
Qed.

#[export] Instance concrete_recover : ECDSARecover := {|
  toEthSignedMessageHash d := numberOf d;
  recover h sig := head sig
|}.

(** ** The contracts of both chains *)

Definition CRoles : Type := list (Role * Address).
Abbreviation CL1 := (Chain Z (L1App CRoles Token)).
Abbreviation CL2 := (Chain Z (L2App CRoles Token)).

(** Accounts: the administrator, the enclave, and two users. *)
Definition theAdmin : Address := 5.
Definition theEnclave : Address := 6.
Definition alice : Address := 7.
Definition bob : Address := 8.

#[export] Instance l1_addresses : Deployment (L1App CRoles Token) :=
  {| busAddr := 101; messengerAddr := 102; hasCode a := 100 <? a |}.
#[export] Instance l1_bridge_addresses : L1Deployment := {| mgmtAddr := 103; bridgeAddr := 104 |}.
#[export] Instance l2_addresses : Deployment (L2App CRoles Token) :=
  {| busAddr := 101; messengerAddr := 102; hasCode a := (100 <? a) && (a <? 1000) |}.
#[export] Instance l2_bridge_addresses : L2Deployment :=
  {| ethBridgeAddr := 105; createAddress n := 1000 + Z.of_nat n |}.

#[export] Instance l1_addresses_ok : L1DeploymentOk (L1App CRoles Token) theAdmin ethBridgeAddr.
Proof. split; [|done..]. apply (bool_decide_unpack _). vm_compute. exact I. Qed.
#[export] Instance l2_addresses_ok : L2BridgeOk (L2App CRoles Token) bridgeAddr.
Proof. split; [|done]. apply (bool_decide_unpack _). vm_compute. exact I. Qed.
#[export] Instance l2_create_ok : L2DeploymentOk (L2App CRoles Token).
Proof.
  split; cbn.
  - intros n m Hnm. cbn in Hnm. lia.
  - intros n. lia.
  - intros n. split_and!; [|lia..]. apply andb_false_iff. right. apply Z.ltb_ge. lia.
Qed.
