(* ===== verification/ContractWitnesses.v ===== *)
(** * A transfer to L2 and back

    The contracts of both chains as they are deployed, a run in which a token is
    listed, sent to L2 and partly sent back, and the theorems about contracts applied
    to it. *)

From S2P Require Import Prelude Types Codec Bytes Concrete Solidity MessageBusContract ContractCalls L1Contracts L2Contracts ContractsSpec ManagementSpec BridgeFlow L1BridgeSpec L2BridgeSpec BridgeSystem ContractConcrete.
Local Open Scope Z_scope.

Abbreviation messengerL1 := (messengerAddr (App := L1App CRoles Token)).

(** ** The run *)

Definition is_done {A} (o : outcome A) : bool := match o with Done _ => true | Revert _ => false end.
Definition after {A} (o : outcome A) (a : A) : A := match o with Done b => b | Revert _ => a end.

Lemma after_done {A} (o : outcome A) a : is_done o = true → o = Done (after o a).
Proof. by destruct o. Qed.

(** What is stored is published on the other chain. *)
Definition stores_known (later other : MessageBusState Z) : bool :=
  forallb (λ m, bool_decide (m ∈ extracted other)) (stored later).

Lemma stores_known_spec later other : stores_known later other = true → stored later ⊆ extracted other.
Proof.
  unfold stores_known. intros Hf m Hin. rewrite forallb_forall in Hf.
  specialize (Hf m (proj1 (list_elem_of_In _ _) Hin)). by eapply bool_decide_eq_true.
Qed.

(** A transaction by an account, without calls by other contracts. *)
Record Tx := mkTx { tx_now : Z; tx_from : Address; tx_to : Address; tx_value : Z; tx_call : Call }.

Definition runL1 (x : Tx) (u : CL1) : outcome CL1 :=
  transact (tx_now x) (tx_from x) (tx_to x) (tx_value x) (encodeWithSelector (tx_call x)) [] u.
Definition runL2 (x : Tx) (w : CL2) : outcome CL2 :=
  transact (tx_now x) (tx_from x) (tx_to x) (tx_value x) (encodeWithSelector (tx_call x)) [] w.

(** Users and the enclave, and the administrator where it lists a token. *)
Definition allowedL1 (x : Tx) : bool :=
  (0 <? tx_now x) && negb (bool_decide (tx_from x = 104)) && negb (bool_decide (tx_from x = 102)) &&
  match tx_call x with WhitelistToken _ _ _ => true | _ => negb (bool_decide (tx_from x = theAdmin)) end.
Definition allowedL2 (x : Tx) : bool :=
  (0 <? tx_now x) && negb (bool_decide (tx_from x = 105)) && negb (bool_decide (tx_from x = 102)).

Lemma runL1_step x u : allowedL1 x && is_done (runL1 x u) = true → l1_tx theAdmin u (after (runL1 x u) u).
Proof.
  intros [[[[Hn Hs1]%andb_true_iff Hs2]%andb_true_iff Ha]%andb_true_iff Hd]%andb_true_iff.
  exists (tx_now x), (tx_from x), (tx_to x), (tx_value x), (encodeWithSelector (tx_call x)), [].
  apply Z.ltb_lt in Hn. apply negb_true_iff, bool_decide_eq_false in Hs1, Hs2.
  split_and!; [done..| |by apply after_done].
  intros Hadm. unfold admin_honest. destruct (tx_call x); try (by rewrite bool_decide_true in Ha).
  by rewrite calldata_roundtrip.
Qed.

Lemma runL2_step x w : allowedL2 x && is_done (runL2 x w) = true → l2_tx w (after (runL2 x w) w).
Proof.
  intros [[[Hn Hs1]%andb_true_iff Hs2]%andb_true_iff Hd]%andb_true_iff.
  exists (tx_now x), (tx_from x), (tx_to x), (tx_value x), (encodeWithSelector (tx_call x)), [].
  apply Z.ltb_lt in Hn. apply negb_true_iff, bool_decide_eq_false in Hs1, Hs2.
  split_and!; [done..|by apply after_done].
Qed.

(** The chains at the start: a token at the address 200, of which Alice has a hundred
    units. *)
Definition l1_0 : CL1 := mkChain (newMessageBus 103) newMessenger {[ alice := 30 ]}
  (mkL1App newManagement (mkObscuroBridge (bridgeRoles (newObscuroBridge theAdmin)) 105 0)
    {[ 200 := mkToken {[ alice := 100 ]} ∅ 100 ]}).
Definition l2_0 : CL2 := mkChain (newMessageBus theEnclave) newMessenger ∅ (mkL2App (newEthereumBridge 104) ∅).

(** The messages of the run. *)
Definition bridgeMessage (from : Address) (seq nonce topic : Z) (to : Address) (c : Call) : CrossChainMessage :=
  mkMessage from seq nonce topic (abi_encode (mkCrossChainCall to (encodeWithSelector c) 0)) 0.
Definition listMsg := bridgeMessage 104 0 0 MANAGEMENT 105 (OnCreateTokenCommand 200 "HOC" "HOC").
Definition depositMsg := bridgeMessage 104 1 1 TRANSFER 105 (ReceiveAssets 200 50 alice).
Definition claimMsg := bridgeMessage 105 0 0 TRANSFER 104 (ReceiveAssets 200 20 bob).

Definition l1Txs : list Tx :=
  [mkTx 10 theAdmin 104 0 (WhitelistToken 200 "HOC" "HOC");
   mkTx 11 alice 200 0 (ERC20Fn (Approve 104 60));
   mkTx 12 alice 104 0 (SendERC20 200 50 alice)].
Definition l2Txs : list Tx :=
  [mkTx 20 theEnclave 101 0 (StoreCrossChainMessage listMsg 0);
   mkTx 21 theEnclave 101 0 (StoreCrossChainMessage depositMsg 0);
   mkTx 22 bob 102 0 (RelayMessage listMsg);
   mkTx 23 bob 102 0 (RelayMessage depositMsg);
   mkTx 24 alice 105 0 (SendERC20 1000 20 bob)].
Definition l1Txs' : list Tx :=
  [mkTx 30 theEnclave 103 0 (InitializeNetworkSecret theEnclave [1] "host" "report");
   mkTx 31 theEnclave 103 0 (AddRollup (mkMetaRollup 77 theEnclave 3) "" [claimMsg])].

Definition runsL1 (l : list Tx) (u : CL1) : CL1 := foldl (λ u x, after (runL1 x u) u) u l.
Definition runsL2 (l : list Tx) (w : CL2) : CL2 := foldl (λ w x, after (runL2 x w) w) w l.

Definition l1_1 : CL1 := runsL1 l1Txs l1_0.
Definition l2_1 : CL2 := runsL2 l2Txs l2_0.
Definition l1_2 : CL1 := runsL1 l1Txs' l1_1.
Definition l1_3 : CL1 := after (runL1 (mkTx 40 alice 102 0 (RelayMessage claimMsg)) l1_2) l1_2.

Fixpoint checkL1 (l : list Tx) (u : CL1) : bool :=
  match l with
  | [] => true
  | x :: l => allowedL1 x && is_done (runL1 x u) && checkL1 l (after (runL1 x u) u)
  end.
Fixpoint checkL2 (l : list Tx) (w : CL2) : bool :=
  match l with
  | [] => true
  | x :: l => allowedL2 x && is_done (runL2 x w) && checkL2 l (after (runL2 x w) w)
  end.

Lemma runsL1_steps l u : checkL1 l u = true → rtc (l1_tx theAdmin) u (runsL1 l u).
Proof.
  revert u. induction l as [|x l IH]; intros u; cbn; [done|]. intros [Hx Hl]%andb_true_iff.
  eapply rtc_l; [by apply runL1_step|]. by apply IH.
Qed.

Lemma runsL2_steps l w : checkL2 l w = true → rtc l2_tx w (runsL2 l w).
Proof.
  revert w. induction l as [|x l IH]; intros w; cbn; [done|]. intros [Hx Hl]%andb_true_iff.
  eapply rtc_l; [by apply runL2_step|]. by apply IH.
Qed.

Lemma run_L1 : rtc (l1_tx theAdmin) l1_0 l1_2.
Proof.
  etrans; [apply (runsL1_steps l1Txs); vm_compute; reflexivity|].
  apply (runsL1_steps l1Txs'). vm_compute. reflexivity.
Qed.

Lemma run_L2 : rtc l2_tx l2_0 l2_1.
Proof. apply (runsL2_steps l2Txs). vm_compute. reflexivity. Qed.

Lemma run_published : only_published l1_2 l2_1.
Proof. split; apply stores_known_spec; vm_compute; reflexivity. Qed.

(** The same transactions as a history of L1 alone. *)
Definition goesL1 (x : Tx) (u : CL1) : bool := (0 <? tx_now x) && is_done (runL1 x u).

Lemma goesL1_step x u : goesL1 x u = true → tx_step u (after (runL1 x u) u).
Proof.
  intros [Hn%Z.ltb_lt Hd]%andb_true_iff.
  exists (tx_now x), (tx_from x), (tx_to x), (tx_value x), (encodeWithSelector (tx_call x)), [].
  split; [done|by apply after_done].
Qed.

Fixpoint historyL1 (l : list Tx) (u : CL1) : bool :=
  match l with [] => true | x :: l => goesL1 x u && historyL1 l (after (runL1 x u) u) end.

Lemma historyL1_steps l u : historyL1 l u = true → rtc tx_step u (runsL1 l u).
Proof.
  revert u. induction l as [|x l IH]; intros u; cbn; [done|]. intros [Hx Hl]%andb_true_iff.
  eapply rtc_l; [by apply goesL1_step|]. by apply IH.
Qed.

Lemma the_history : rtc tx_step l1_0 l1_2.
Proof.
  etrans; [apply (historyL1_steps l1Txs); vm_compute; reflexivity|].
  apply (historyL1_steps l1Txs'). vm_compute. reflexivity.
Qed.

Lemma l1_0_deployed : l1_deployed theAdmin l1_0.
Proof.
  split.
  - by exists 103.
  - done.
  - intros x tk. cbn. intros [<- <-]%lookup_singleton_Some. split_and!; [done| |done].
    intros y. unfold allowed. cbn. unfold at0. by rewrite lookup_empty.
  - intros x. change (eth l1_0) with (<[alice := 30]> (∅ : gmap Address Z)). rewrite at0_insert.
    case_decide; [done|]. unfold at0. by rewrite lookup_empty.
Qed.

Lemma l2_0_deployed : l2_deployed l2_0.
Proof. split; [by exists theEnclave|done..]. Qed.

(** ** The theorems *)

Lemma message_relayed_once_witness :
  (claimMsg, 40) ∈ relayHistory (messenger l1_3) ∧ (∃ o, mkStoreEntry o o claimMsg ∈ storeHistory (bus l1_3)) ∧
  ∀ now s v subs u', transact now s messengerL1 v (encodeWithSelector (RelayMessage claimMsg)) subs l1_3 ≠ Done u'.
Proof.
  assert ((claimMsg, 40) ∈ relayHistory (messenger l1_3)) as Hin by (apply (bool_decide_unpack _); vm_compute; exact I).
  destruct (message_relayed_once l1_0 l1_3) as (_ & Hall).
  - done.
  - by exists 103.
  - etrans; [exact the_history|]. apply (historyL1_steps [mkTx 40 alice 102 0 (RelayMessage claimMsg)]). vm_compute. reflexivity.
  - destruct (Hall claimMsg 40 Hin) as (Hstored & _ & Hlater). split; [exact Hin|]. split; [exact Hstored|].
    intros now s v subs u'. apply Hlater. by apply calldata_roundtrip.
Defined.

Lemma messages_numbered_witness : sequences_of 104 (busLog (bus l1_2)) = [0; 1] ∧ NoDup (busLog (bus l1_2)).
Proof.
  destruct (messages_numbered l1_0 l1_2) as (Hseq & Hnd & _).
  - by exists 103.
  - exact the_history.
  - split; [rewrite (proj1 (Hseq 104)); vm_compute; reflexivity|exact Hnd].
Defined.

Lemma management_history_witness :
  mgmt_ok (mgmt (app l1_2)) ∧ lastBatchSeqNo (mgmt (app l1_2)) = 3 ∧ mgmt_le (mgmt (app l1_1)) (mgmt (app l1_2)).
Proof.
  destruct (management_history l1_0 l1_2 l1_2) as [Hok _]; [done|exact the_history|done|].
  destruct (management_history l1_0 l1_1 l1_2) as [_ Hle].
  - done.
  - apply (historyL1_steps l1Txs). vm_compute. reflexivity.
  - apply (historyL1_steps l1Txs'). vm_compute. reflexivity.
  - split_and!; [exact Hok|vm_compute; reflexivity|exact Hle].
Defined.

Lemma bridge_solvent_witness : supply 200 l2_1 = 30 ∧ locked 200 l1_2 = 50 ∧ supply 200 l2_1 + 0 + 20 <= locked 200 l1_2.
Proof.
  destruct (bridge_solvent theAdmin l1_0 l1_2 l2_0 l2_1 200 l1_0_deployed l2_0_deployed run_L1 run_L2 run_published) as (_ & _ & Hle).
  assert (sent (Ow := Z) bridgeAddr 200 l1_2 - withdrawn ethBridgeAddr 200 l2_1 = 0) as Hd by (vm_compute; reflexivity).
  assert (sent (Ow := Z) ethBridgeAddr 200 l2_1 - withdrawn bridgeAddr 200 l1_2 = 20) as Hw by (vm_compute; reflexivity).
  rewrite Hd, Hw in Hle. split_and!; [vm_compute; reflexivity..|exact Hle].
Defined.

Definition token1 : Token := default newERC20 (l1Tokens (app l1_2) !! 200).

Lemma withdrawal_paid_witness : ∃ u tk,
  transact 40 alice messengerL1 0 (encodeWithSelector (RelayMessage claimMsg)) [] l1_2 = Done u ∧
  l1Tokens (app u) !! 200 = Some tk ∧ balance tk bob = balance token1 bob + 20.
Proof.
  apply (withdrawal_paid theAdmin l1_0 l1_2 l2_0 l2_1 claimMsg
    (mkCrossChainCall 104 (encodeWithSelector (ReceiveAssets 200 20 bob)) 0) 200 20 bob token1).
  - exact l1_0_deployed.
  - exact l2_0_deployed.
  - exact run_L1.
  - exact run_L2.
  - exact run_published.
  - done.
  - apply (bool_decide_unpack _). vm_compute. exact I.
  - apply (bool_decide_unpack _). vm_compute. exact I.
  - vm_compute. discriminate.
  - reflexivity.
  - apply crossChainCall_roundtrip.
  - reflexivity.
  - by apply calldata_roundtrip.
  - vm_compute. reflexivity.
  - vm_compute. reflexivity.
  - done.
  - done.
  - by apply calldata_roundtrip.
Defined.

(** A claim that nobody on L2 has sent. *)
Definition forgedMsg := mkMessage ethBridgeAddr 99 0 TRANSFER
  (abi_encode (mkCrossChainCall bridgeAddr (encodeWithSelector (ReceiveAssets 200 30 alice)) 0)) 0.

Lemma forged_withdrawal_witness : ∃ u1 u2 tk,
  transact 50 alice mgmtAddr 0 (encodeWithSelector (AddRollup (mkMetaRollup 78 theEnclave 4) "" [forgedMsg])) [] l1_2 = Done u1 ∧
  transact (50 + 1) alice messengerL1 0 (encodeWithSelector (RelayMessage forgedMsg)) [] u1 = Done u2 ∧
  l1Tokens (app u2) !! 200 = Some tk ∧ balance tk alice = balance token1 alice + 30.
Proof.
  pose proof (l1_history_fine theAdmin l1_0 l1_2 l1_0_deployed run_L1) as [Hg _ He].
  unfold forgedMsg.
  apply (forged_withdrawal theAdmin l1_2 alice (mkMetaRollup 78 theEnclave 4) 99 200 30 alice token1 50).
  - exact Hg.
  - exact He.
  - vm_compute. reflexivity.
  - apply (bool_decide_unpack _). vm_compute. exact I.
  - done.
  - done.
  - done.
  - done.
  - vm_compute. reflexivity.
  - vm_compute. reflexivity.
  - vm_compute. reflexivity.
  - vm_compute. reflexivity.
  - done.
  - vm_compute. discriminate.
  - done.
  - done.
Defined.

(** A contract at the address 500 asks to send the tokens it holds. *)
Lemma l2_withdrawal_limits_witness :
  ¬ ∃ w, ethBridge_call (mkEnv alice 60) 500 0 (encodeWithSelector (SendERC20 1000 5 bob)) l2_1 = Done w.
Proof.
  intros [w Hc]. revert Hc. apply (l2_withdrawal_limits l2_0 l2_1).
  - exact l2_0_deployed.
  - exact run_L2.
  - done.
  - right. split; [done|]. exists 1000, 5, bob. by apply calldata_roundtrip.
Defined.

Lemma attestation_unbound_witness : ∃ mg,
  mgmt_RespondNetworkSecret theEnclave alice [] [] "evil" false (mgmt (app l1_2)) = Done mg ∧ alice ∈ attested mg.
Proof.
  destruct (attestation_unbound theEnclave alice (mgmt (app l1_2))) as [Hany _].
  - apply (bool_decide_unpack _). vm_compute. exact I.
  - apply Hany.
Defined.
